(* ===== verification/_CoqProject ===== *)
-Q . S2P
Prelude.v
Timers.v
Replay.v
Messages.v
Crypto.v
Noise.v
Transport.v
Device.v
DeviceFacts.v
DeviceConnect.v
Utf8.v
H2Frame.v
HpackInt.v
HpackTable.v
Huffman.v
Hpack.v
H2Conn.v
Gateway.v
GatewayFacts.v
GatewayTheorems.v
Control.v
ControlEarly.v
ControlSession.v
Keys.v
KeysFacts.v
KeyStore.v
StoreFile.v
StoreTheorems.v
NetAddr.v
BTree.v
Pcap.v
Conformance.v
Netmap.v
NetmapScan.v
NetmapGrammar.v
NetmapFrame.v
NetmapTokens.v
NetmapParser.v
NetmapTable.v
NetmapRecords.v
NetmapBounds.v
NetmapStream.v
Text.v
NaClBox.v
Disco.v
DiscoFacts.v
Derp.v
DerpFacts.v
HarnessNet.v
Json.v
HarnessH2.v
JsonFacts.v
ControlMessages.v
Upgrade.v
GatewaySegments.v
Effects.v
Tunnel.v
TunnelFacts.v
TunnelExchange.v
TunnelTheorems.v
HarnessH2Facts.v
HarnessH2Theorems.v
HarnessControl.v
HarnessRequests.v
HarnessControlFacts.v
HarnessDerp.v
HarnessControlTheorems.v
HarnessRequestsTheorems.v
HarnessWg.v
HarnessWgTheorems.v
HarnessDisco.v
HarnessDiscoTheorems.v
HarnessExec.v
HarnessExecTheorems.v
HarnessIo.v
HarnessStart.v
HarnessMain.v
RunScope.v
Multipeer.v
Checks.v
