(* ===== verification/Prelude.v ===== *)
(** * Tailfeather: a verification development

    Tailfeather is a Tailscale-compatible mesh node without an allocator or an
    operating system: a WireGuard data plane ([crates/wg-core]), an exit node that
    translates addresses ([firmware/src]), a control plane that speaks HTTP/2
    ([crates/micro-h2]) over a Noise transport ([crates/ts-noise]), sends JSON
    ([crates/ts-control]) and reads the network map ([crates/ts-netmap]), peer
    discovery and relays ([crates/ts-disco], [crates/ts-derp]), keys and their
    storage ([crates/ts-keys]), and a harness for the desktop ([harness/src]).
    The crates are sans-io: they turn bytes that arrived and a clock into new state
    and bytes to send.  That is the shape of this development: state is a [Record],
    a [&mut self] method is a function to the new state and its result, and buffers
    are byte lists.

    ** The parts and their files

    - [Prelude]: machine integers, results, slices and byte order; the lemmas,
      tactics and hint databases every other file uses.
    - WireGuard, [crates/wg-core/src].  [Timers]: the constants of [budget.rs] and
      the rules of [timers.rs], with the token bucket [HandshakeBudget].
      [Replay]: [replay.rs], the bitmap word by word.  [Messages]: [messages.rs],
      [ip.rs] and the error type.  [Crypto]: [crypto.rs] over the class
      [Primitives] of the third-party algorithms.  [Noise]: [noise.rs], the
      handshake of both roles.  [Transport]: [transport.rs], one session.
      [Device]: [lib.rs], the peer table and its handlers; [DeviceFacts] and
      [DeviceConnect] hold its properties.  [Device] calls
      [Transport], [Noise] and [Timers]; [Transport] calls [Replay] and [Crypto].
    - The exit node, [firmware/src].  [Gateway]: [nat.rs] and [inner.rs]; its
      properties are in [GatewayFacts], [GatewayTheorems] and [GatewaySegments].
      [Tunnel]: [tunnel.rs], the task that owns a [Device] and both flow tables and
      calls [Gateway]; [TunnelFacts] (the invariant), [TunnelExchange] and
      [TunnelTheorems] hold its properties.  [Effects] is the monad the loops of
      the program are written in, with its program logic [runs].
    - HTTP/2, [crates/micro-h2/src].  [Utf8]: [core::str::from_utf8].  [H2Frame]:
      [frame.rs].  [HpackInt], [HpackTable], [Huffman], [Hpack]: the files of
      [hpack/].  [H2Conn]: [conn.rs], the connection, which calls all of them.
    - The control transport, [crates/ts-noise/src].  [Upgrade]: [upgrade.rs], the
      HTTP exchange that starts it.  [Control]:
      [ik.rs], [record.rs] and [early.rs], the handshake and the records that follow
      it; properties in [ControlEarly] and [ControlSession].
    - The control messages.  [Json] and [ControlMessages]: [crates/ts-control/src],
      the JSON writer and the register and map requests written with it; properties
      in [JsonFacts] (documents as trees, written and read back) and
      [ControlMessages] itself.
    - The network map, [crates/ts-netmap/src].  [NetAddr]: addresses and prefixes as
      text.  [Netmap]: [frame.rs], [scanner.rs], the peer and relay tables.
      [NetmapParser]: [parser.rs], which the scanner's tokens drive.  The scanner
      against a JSON grammar: [NetmapScan], [NetmapGrammar]; the stream in frames:
      [NetmapFrame], [NetmapStream]; the parser: [NetmapTokens], [NetmapTable],
      [NetmapRecords], [NetmapBounds].
    - Keys.  [Keys], [KeyStore]: [crates/ts-keys/src], key text, identity blob and
      [load_or_create] over the interface [Store]; [KeysFacts].  [StoreFile]:
      [harness/src/store.rs], a store of files over the interface [Posix], with the
      power lost at any call; [StoreTheorems].
    - Discovery and relays.  [Text]: substring search.  [NaClBox]: the third-party
      boxes as a class.  [Disco]: [crates/ts-disco/src]; [DiscoFacts].  [Derp]:
      [crates/ts-derp/src]; [DerpFacts].
    - The harness, [harness/src], over a stream that arrives in pieces
      ([HarnessNet]: the reading half of [net.rs]).  [HarnessDerp]: [derp.rs], the
      relay client: its connection ([harness_derp]) and the exchange between two
      nodes ([harness_relay]).  [HarnessH2]: [h2.rs], HTTP/2 inside the
      records of the control channel, which drives [Control] and [H2Conn];
      [HarnessH2Facts], [HarnessH2Theorems].  It also holds the error type of
      [control.rs] ([control_error]).  [HarnessControl]: the bootstrap of [control.rs] from the key
      request to HTTP/2, which calls [Upgrade], [Control] and [StoreFile].
      [HarnessRequests]: the rest of [control.rs], registering with key rotation,
      the map poll and the peers configured from it, which calls [HarnessH2],
      [ControlMessages], [NetmapParser] and [Device].  Their properties:
      [HarnessControlFacts], [HarnessControlTheorems], [HarnessRequestsTheorems].
      [HarnessWg]: [wg.rs], the loops of the two WireGuard
      roles, with [inner.rs] and [time.rs], around a [Device];
      [HarnessWgTheorems].  [HarnessDisco]: [disco.rs], probing the peers of a
      network map, which calls [HarnessRequests] and [Disco];
      [HarnessDiscoTheorems].  [HarnessExec]: [exec.rs], the reactor and the futures
      all of these wait on, over the class [Kernel]; [HarnessExecTheorems], with
      what a future promises to [block_on] as the class [Tidy].  [HarnessIo]: the
      sockets of [net.rs] on that executor, over the class [Sockets], and why the
      stream of [HarnessNet] is a faithful view of them.  [HarnessMain]: [main.rs],
      the command line and what it starts.  [HarnessStart]: [rt.rs], [tls.rs] over
      the class [Tls] of the TLS stack, which gets the configuration and the verifier
      that [tls.rs] puts together, and [selftest.rs], which calls [HarnessIo]
      and [StoreFile].
    - The conformance suite, [crates/ts-conformance/src].  [BTree]: an ordered map.
      [Pcap]: [pcap.rs], reading captures.  [Conformance]: the report
      of [lib.rs], [baseline.rs] and the exit code of [main.rs], over the class
      [JsonLib].  [RunScope]: [headscale.rs], what the lab's server is asked, and
      [runscope.rs], the handles on a run that delete its nodes at the end, over the
      class [Commands].  [Multipeer]: [multipeer.rs], eight devices around one.
      [Checks]: every check and the program that runs them, over the classes
      [Machine] and [JsonValues]: [harness_run] is [harness.rs], [http] [http.rs],
      [suite] what the checks share (the sessions, each had at most once),
      [ts2021_checks], [register_checks], [netmap_checks], [derp_check],
      [exit_check], [tls_check] and [disco_checks] the files of these names,
      [doctor] [doctor.rs], [checks] the table of [checks.rs], and [program]
      [Env::discover] of [lib.rs] and [main.rs].  The checks call [RunScope],
      [NetmapParser] and [Multipeer]; what they run is [HarnessMain], as a program
      that prints.

    Definitions keep the source's names; where two files of the source use one
    name, a [Module] called as the source module keeps them apart ([frame], [conn],
    [nat], [inner], [tunnel], [record], [early], [ik], [upgrade], [scanner],
    [parser], [json], [register], [disco], [message], [packet], [derp_frame],
    [derp_client], [net], [harness_derp], [harness_h2], [control_error],
    [harness_control], [harness_requests], [harness_time], [harness_inner],
    [harness_wg], [harness_disco], [harness_exec], [harness_io], [harness_main],
    [harness_rt], [harness_tls], [harness_selftest],
    [btree], [pcap], [conformance], [headscale], [runscope], [harness_relay],
    [multipeer] and the modules of [Checks]).

    ** How the model reads the code

    - A [uN] or [usize] is a [Z].  Where the code wraps, [wrap] is written out;
      where it would panic on overflow the model returns [Panic]; casts that
      truncate are [wrap] as well.
    - [res E A] is [Ok], [Err] with the source's error, [Panic] (an index out of
      range, a failed [expect], an overflow) or [Hang] (never returns).  [Hang] is
      also the power lost in the middle of a store ([StoreFile]) and a stream that
      stays open and silent ([HarnessNet]).  A slice access is [get_range],
      [slice] or [copy_at] with its bounds check.
    - Mutable output buffers are passed in as their contents and come back
      changed; a datagram emitted is the filled prefix.
    - A caller's random generator is the tape of bytes it will produce.  A loop
      that draws until a draw is good ([allocate_index]) is [Hang] when the tape
      ends; its termination theorem says which tapes suffice.
    - Callbacks are the list of the calls made, and what a task sends is a list of
      effects; a clock is the sequence of its readings.  A registration gets, besides,
      which exchange loses its connection to a write that fails, if one does ([Lost]).
    - Third-party code is a class with its laws in a second one, and an instance
      that satisfies them, on which the witnesses run: [Primitives] and
      [PrimitivesOk] (BLAKE2s, HMAC, X25519, ChaCha20-Poly1305: output lengths,
      agreement, opening inverts sealing; [ByteCipher] adds that it opens bytes to
      bytes, which the theorems about the length an opened packet declares need) with
      [Crypto.Toy]; the curve of the keys; [SalsaBox] and [SalsaBoxOk]
      with [ToyBox]; the file system under the store; the kernel under the
      executor ([KernelOk]: time goes on, a wait with a timeout returns; [Flowing]:
      a wait for a socket returns; [Connection]: a stream is in order); the JSON
      of the baseline ([JsonLibOk]: what was printed is read); the server of the lab
      ([LabOk]: it lists its nodes and deletes the one it is asked to); the TLS stack
      ([TlsOk]: with a verifier it opens only over a valid chain, and its data is in
      order).  Nothing is assumed about secrecy or forgery.  [Store] is an interface of the program itself: the
      identity's theorems are proved against it, and the file store discharges it.

    ** Bounds and fuel

    Loops over data are structural.  The others carry fuel with a proof that it is
    enough: [conn] and HPACK decoding consume a byte per turn and get the length of
    their input; a Huffman symbol has at most 30 bits; HPACK integers stop at ten
    groups; [clamp_options] advances by at least one and gets the data offset;
    [fold_carry] of a 32-bit sum ends within three turns; [early.push] takes at
    most three; the scanner takes at most two turns a byte and a poll of it twice
    the input's length and four; the loops of the store have a patience that bounds
    how often a call may be interrupted; reading a frame or a head of the relay
    takes at most as many reads as the buffer has bytes, and one; the loops of the
    control connection get the bytes still to come and those buffered, and one
    ([patience]); a decimal has at
    most twenty digits; the timer and handshake loops of the tunnel and of the
    WireGuard roles take one turn more than there are peers; a capture is read in
    at most as many records as it has bytes; a socket's operation goes round at
    most as often between two waits as there are bytes left to move, and three times
    more; [block_on] gets the number of its waits, and [recv_or_tick] and [io_runs]
    say which is enough; looking for a host name takes at most as many turns as
    there are arguments.  The loops of the disco check that watch a clock get a
    patience, and the exchange over a relay how often its clock is found before the
    deadline; a call of [multipeer] gets a tape of 256 bytes, and [eight_peers]
    shows that it is enough.  The totality theorems ([device_never_panics], [recv_total_and_safe],
    [decode_total], [clamp_mss_total], [early_reader_exact], [gateway_turn_safe])
    state that the result is neither [Panic] nor [Hang], or exactly when it is.

    ** What the theorems show

    - The data plane.  Two devices that know each other connect in three
      datagrams and then deliver packets byte for byte; no datagram, packet or
      poll makes a device panic; every reachable device satisfies its invariant;
      an accepted initiation is never accepted again; the replay window refines
      the list of counters seen and accepts none twice; nonces never repeat; the
      two roles of the handshake derive mirrored keys; the token bucket bounds the
      handshake rate over every window and always recovers.
    - The exit node.  Translation changes exactly one end of a segment and keeps
      its checksums valid; clamping, echo replies and UDP datagrams are exact; the
      flow tables hold each flow once and never displace a live one.  Every turn
      of a reachable tunnel task keeps its invariant and sends only what it may,
      and datagrams and connections pass through it both ways, from a peer's
      device to the uplink and back.
    - HTTP/2.  Receiving any bytes is total and keeps the connection well-formed;
      neither the connection's window nor an open stream's starves; DATA is delivered
      byte for byte; what
      a request writes is what a decoder reads; frames, integers and header
      lists round-trip; the dynamic table refines RFC 7541's for entries it
      stores; the Huffman tables are the canonical code and the decoder is its
      exact inverse.
    - The control plane.  The upgrade request carries the handshake; the client's
      handshake agrees with a Noise IK responder; records carry a stream in order
      with distinct nonces; the early payload does not depend on record
      boundaries.  The harness reaches HTTP/2 however the server's bytes are cut,
      its requests are answered with the body the server sent, a map poll returns
      the map the responses describe and configures exactly the peers in it, and
      a key rotation replaces the stored identity only once the server accepted
      the new key; what the JSON writer writes is the document it was asked for,
      and the register and map requests are the documents they should be.
    - The network map.  The scanner reads every document of a JSON grammar, stated
      without its tables, to its tokens, however the input is cut; a response is applied as its records say;
      a long poll in pieces is applied as the responses it is made of; the peer
      table refines a finite map; every field stays within its capacity.
    - Keys.  A saved identity survives any crash: a load returns the old or the
      new one, never a mixture.
    - Discovery and relays.  What one node seals the other opens to the same
      message; what one client sends through a relay the other receives; the
      harness connects to a relay however its greeting is cut, and what one of its nodes
      sends there comes out at the other intact with the sender's key, where every frame
      begins an arrival of its own; a probe one node
      sends comes back as a pong of the other's loop, and no datagram stops it.
    - The loops of the harness.  The two WireGuard roles connect and a ping
      through the tunnel is answered; racing a datagram against a deadline ends;
      futures that keep their interface leak nothing and never panic; writing to a
      connection sends exactly the buffer, and reading from it gives what the stream
      gives that the other theorems are about.  A command line written the way the
      usage text says is understood, and whatever the arguments, what is started is
      well-formed.  The server's key is read over TLS however the response is cut, and
      only from a peer with a valid chain;
      printing prints exactly the text; the timer and store tests fail only where the
      machine did.
    - Conformance.  A capture gives back the streams it carries, if their sequence
      numbers do not wrap; a baseline
      accepts exactly the runs that measured what it records.  A run deletes exactly
      its own nodes, when its last handle goes, and never those of another run; the
      program's own run does so however it ends.  Without a lab the checks are
      silent; checks of one session judge the same run; the streaming check does not
      depend on where the capture is cut; the events read from the harness are those
      it printed.

    Theorems about what goes wrong (a short header panics the translation and
    with it the tunnel task, a stray datagram redirects the tunnel and the
    responder of the harness, an odd option
    offset breaks a checksum, an index collision between handshakes in flight, a
    forgotten long header, a stray CONTINUATION, documents the scanner wrongly
    accepts, a second frame of the relay that is lost, records that arrive with
    the upgrade response and are lost, the start of HTTP/2 lost when the first
    record is short, a register response that is misread, a captured stream across
    the wrap of its sequence numbers, a missing capture that fails checks, a short
    server key that panics one) are stated next to the components they
    concern.

    ** What is not modelled

    Start-up and radio of the firmware ([main.rs], [wifi.rs]), which set up the
    drivers of the hardware and spawn the tasks modelled here; of the harness what is
    printed where and the instruction that leaves the process; of the conformance
    suite how a detail is worded (a check gives what it is about), the report as JSON
    and as a table, the banner, and finding the root of the repository.  Zeroizing of secrets and
    constant-time comparison have no counterpart in a functional model. *)

From stdpp Require Export base list numbers relations.

(** ** Machine integers

    A [uN] of the source is a [Z]; arithmetic that may leave the type's range
    is written with its wrap-around.  Lengths and indices ([usize]) are [Z] as
    well, so that byte offsets and counters mix without conversions. *)

Declare Scope tf_scope.
Delimit Scope tf_scope with tf.
#[export] Set Warnings "-notation-overridden".
Global Open Scope Z_scope.

Definition wrap (bits x : Z) : Z := x mod 2 ^ bits.

Definition U16_MAX : Z := 2 ^ 16 - 1.
Definition U32_MAX : Z := 2 ^ 32 - 1.
Definition U64_MAX : Z := 2 ^ 64 - 1.

Definition is_uint (bits x : Z) : Prop := 0 <= x < 2 ^ bits.
Abbreviation is_u8 := (is_uint 8).
Abbreviation is_u16 := (is_uint 16).
Abbreviation is_u32 := (is_uint 32).
Abbreviation is_u64 := (is_uint 64).

(** [a.saturating_sub(b)] on an unsigned type. *)
Definition saturating_sub (a b : Z) : Z := Z.max 0 (a - b).

(** [!x] on a [uN]. *)
Definition bitnot (bits x : Z) : Z := 2 ^ bits - 1 - x.

(** A byte string: a [&[u8]] of the source. *)
Abbreviation bytes := (list Z).
Definition bytes_ok (l : bytes) : Prop := Forall is_u8 l.

(** ** Results

    A call of the source either returns [Ok], returns its error, panics (an
    index out of range, a failed [expect]), or never returns.  The last one is
    [Hang]: the model ran out of the random bytes it was given. *)

Inductive res (E A : Type) : Type :=
| Ok (a : A)
| Err (e : E)
| Panic
| Hang.
Arguments Ok {E A} a.
Arguments Err {E A} e.
Arguments Panic {E A}.
Arguments Hang {E A}.

Definition rbind {E A B} (m : res E A) (k : A -> res E B) : res E B :=
  match m with
  | Ok a => k a
  | Err e => Err e
  | Panic => Panic
  | Hang => Hang
  end.

Definition is_ok {E A} (m : res E A) : bool :=
  match m with Ok _ => true | _ => false end.

(** [o.ok_or(e)?] *)
Definition ok_or {E A} (o : option A) (e : E) : res E A :=
  match o with Some a => Ok a | None => Err e end.

(** An operation that panics where the option is [None]. *)
Definition or_panic {E A} (o : option A) : res E A :=
  match o with Some a => Ok a | None => Panic end.

(** [m.map_err(f)] *)
Definition map_err {E F A} (f : E -> F) (m : res E A) : res F A :=
  match m with
  | Ok a => Ok a
  | Err e => Err (f e)
  | Panic => Panic
  | Hang => Hang
  end.

Notation "'let!' x ':=' m 'in' k" := (rbind m (fun x => k))
  (at level 10, x binder, m at level 100, k at level 200) : tf_scope.
Notation "'let?' x ':=' m 'in' k" :=
  (match m with Some x => k | None => None end)
  (at level 10, x pattern, m at level 100, k at level 200) : tf_scope.
Notation "'guard!' b 'else' e 'in' k" := (if b then k else Err e)
  (at level 10, b at level 100, e at level 100, k at level 200) : tf_scope.
Global Open Scope tf_scope.

(** ** Slices *)

Definition len {A} (l : list A) : Z := Z.of_nat (length l).

Definition ztake {A} (n : Z) (l : list A) : list A := take (Z.to_nat n) l.
Definition zdrop {A} (n : Z) (l : list A) : list A := drop (Z.to_nat n) l.

(** [&l[a..b]], without the bounds check. *)
Definition sub_range {A} (a b : Z) (l : list A) : list A := ztake (b - a) (zdrop a l).

(** [l.get(a..b)]; [&l[a..b]] is this with [None] a panic. *)
Definition get_range {A} (a b : Z) (l : list A) : option (list A) :=
  if (0 <=? a) && (a <=? b) && (b <=? len l) then Some (sub_range a b l) else None.

(** [l.get(i)] *)
Definition get_at {A} (i : Z) (l : list A) : option A :=
  if 0 <=? i then l !! Z.to_nat i else None.

(** [l[i]] where the index is known to be in range: [0] outside. *)
Definition at_ (i : Z) (l : bytes) : Z := default 0 (get_at i l).

(** [l[a..b].copy_from_slice(src)]: panics when the range is outside [l] or
    [src] has another length. *)
Definition copy_at {A} (a b : Z) (src l : list A) : option (list A) :=
  if (0 <=? a) && (a <=? b) && (b <=? len l) && (len src =? b - a)
  then Some (ztake a l ++ src ++ zdrop b l) else None.

(** [l[i] = x]: panics out of range. *)
Definition set_at {A} (i : Z) (x : A) (l : list A) : option (list A) :=
  copy_at i (i + 1) [x] l.

Definition zeros (n : Z) : bytes := replicate (Z.to_nat n) 0.

(** [l[a..b].fill(0)] *)
Definition fill_zero (a b : Z) (l : bytes) : option bytes := copy_at a b (zeros (b - a)) l.

(** [&l[r]] and [l[r].copy_from_slice(src)] for a constant range [r]. *)
Definition slice {E A} (r : Z * Z) (l : list A) : res E (list A) := or_panic (get_range r.1 r.2 l).
Definition slice_copy {E A} (r : Z * Z) (src l : list A) : res E (list A) :=
  or_panic (copy_at r.1 r.2 src l).

(** Equality of byte strings, as [==] on slices. *)
Definition bytes_eqb (a b : bytes) : bool := bool_decide (a = b).

(** [a.starts_with(p)] *)
Definition starts_with (p l : bytes) : bool := bytes_eqb (take (length p) l) p.

(** ** Byte order *)

Fixpoint to_le (n : nat) (x : Z) : bytes :=
  match n with
  | O => []
  | S n => x mod 256 :: to_le n (x / 256)
  end.

Fixpoint of_le (l : bytes) : Z :=
  match l with
  | [] => 0
  | b :: l => b + 256 * of_le l
  end.

Definition to_be (n : nat) (x : Z) : bytes := reverse (to_le n x).
Definition of_be (l : bytes) : Z := of_le (reverse l).

(** ** Automation *)

Create HintDb tf.
Create Rewrite HintDb len.
#[export] Hint Extern 1 (_ <= _) => lia : tf.
#[export] Hint Extern 1 (_ < _) => lia : tf.

(** Break a conjunction of booleans or a reflected comparison found in the
    context into propositions. *)
Ltac bool_hyps :=
  repeat match goal with
  | H : _ && _ = true |- _ => apply andb_true_iff in H; destruct H
  | H : _ || _ = false |- _ => apply orb_false_iff in H; destruct H
  | H : negb _ = true |- _ => apply negb_true_iff in H
  | H : negb _ = false |- _ => apply negb_false_iff in H
  | H : (_ <=? _) = true |- _ => apply Z.leb_le in H
  | H : (_ <=? _) = false |- _ => apply Z.leb_gt in H
  | H : (_ <? _) = true |- _ => apply Z.ltb_lt in H
  | H : (_ <? _) = false |- _ => apply Z.ltb_ge in H
  | H : (_ =? _) = true |- _ => apply Z.eqb_eq in H
  | H : (_ =? _) = false |- _ => apply Z.eqb_neq in H
  end.

(** Case analysis on the condition of an [if] in the goal or a hypothesis. *)
Ltac case_if :=
  match goal with
  | |- context [if ?b then _ else _] => let H := fresh "Hif" in destruct b eqn:H
  | H0 : context [if ?b then _ else _] |- _ => let H := fresh "Hif" in destruct b eqn:H
  end.

Lemma len_nil {A} : len (@nil A) = 0.
Proof. done. Qed.
Lemma len_cons {A} (x : A) l : len (x :: l) = 1 + len l.
Proof. unfold len; simpl; lia. Qed.
Lemma len_app {A} (l k : list A) : len (l ++ k) = len l + len k.
Proof. unfold len. rewrite length_app. lia. Qed.
Lemma len_nonneg {A} (l : list A) : 0 <= len l.
Proof. unfold len; lia. Qed.
Lemma len_zero_nil {A} (l : list A) : len l = 0 -> l = [].
Proof. destruct l; [done|]. unfold len; simpl; lia. Qed.
Lemma len_replicate {A} n (x : A) : len (replicate n x) = Z.of_nat n.
Proof. unfold len. by rewrite length_replicate. Qed.
Lemma len_zeros n : len (zeros n) = Z.max 0 n.
Proof. unfold zeros. rewrite len_replicate. lia. Qed.
Lemma len_map {A B} (f : A -> B) l : len (map f l) = len l.
Proof. unfold len. by rewrite length_map. Qed.
Lemma len_reverse {A} (l : list A) : len (reverse l) = len l.
Proof. unfold len. by rewrite length_reverse. Qed.
Lemma len_insert {A} i (x : A) l : len (<[i:=x]> l) = len l.
Proof. unfold len. by rewrite length_insert. Qed.
Lemma len_ztake {A} n (l : list A) : len (ztake n l) = Z.max 0 (Z.min n (len l)).
Proof. unfold len, ztake. rewrite length_take. lia. Qed.
Lemma len_zdrop {A} n (l : list A) : len (zdrop n l) = len l - Z.max 0 (Z.min n (len l)).
Proof. unfold len, zdrop. rewrite length_drop. lia. Qed.
Lemma length_to_le n x : length (to_le n x) = n.
Proof. revert x; induction n; simpl; auto. Qed.
Lemma len_to_le n x : len (to_le n x) = Z.of_nat n.
Proof. unfold len. by rewrite length_to_le. Qed.
Lemma len_to_be n x : len (to_be n x) = Z.of_nat n.
Proof. unfold to_be. by rewrite len_reverse, len_to_le. Qed.
Lemma len_sub_range {A} a b (l : list A) :
  0 <= a -> a <= b -> b <= len l -> len (sub_range a b l) = b - a.
Proof. intros. unfold sub_range. rewrite len_ztake, len_zdrop. lia. Qed.

#[export] Hint Rewrite @len_nil @len_cons @len_app @len_replicate len_zeros @len_map
  @len_reverse @len_insert @len_ztake @len_zdrop len_to_le len_to_be : len.

(** Linear arithmetic on lengths. *)
Ltac nonneg_lens :=
  repeat match goal with
  | |- context [len ?l] =>
      lazymatch goal with H : 0 <= len l |- _ => fail | _ => pose proof (len_nonneg l) end
  | H0 : context [len ?l] |- _ =>
      lazymatch goal with H : 0 <= len l |- _ => fail | _ => pose proof (len_nonneg l) end
  end.
Ltac llia := autorewrite with len in *; nonneg_lens; lia.

Lemma combine_app {A B} (l1 l2 : list A) (k1 k2 : list B) :
  length l1 = length k1 -> combine (l1 ++ l2) (k1 ++ k2) = combine l1 k1 ++ combine l2 k2.
Proof.
  revert k1; induction l1 as [|x l1 IH]; intros [|y k1] H; simpl in *; try done.
  rewrite IH by lia. done.
Qed.

Lemma length_len {A} (l : list A) : length l = Z.to_nat (len l).
Proof. unfold len; lia. Qed.

(** ** Slices of concatenations

    Buffers are reasoned about as the concatenation of their fields: a read or
    a write of one field leaves the others alone. *)

Lemma ztake_app_len {A} n (l k : list A) : n = len l -> ztake n (l ++ k) = l.
Proof. intros ->. unfold ztake. apply take_app_length'. unfold len; lia. Qed.

Lemma zdrop_app_len {A} n (l k : list A) : n = len l -> zdrop n (l ++ k) = k.
Proof. intros ->. unfold zdrop. apply drop_app_length'. unfold len; lia. Qed.

Lemma ztake_all {A} n (l : list A) : len l <= n -> ztake n l = l.
Proof. intros. unfold ztake. apply take_ge. unfold len in *; lia. Qed.

Lemma zdrop_0 {A} n (l : list A) : n <= 0 -> zdrop n l = l.
Proof. intros. unfold zdrop. by replace (Z.to_nat n) with 0%nat by lia. Qed.

Lemma ztake_0 {A} n (l : list A) : n <= 0 -> ztake n l = [].
Proof. intros. unfold ztake. by replace (Z.to_nat n) with 0%nat by lia. Qed.

Lemma zdrop_all {A} n (l : list A) : len l <= n -> zdrop n l = [].
Proof. intros. unfold zdrop. apply drop_ge. unfold len in *; lia. Qed.

Lemma ztake_zdrop {A} n (l : list A) : ztake n l ++ zdrop n l = l.
Proof. apply take_drop. Qed.

Lemma zdrop_zdrop {A} a b (l : list A) : 0 <= a -> 0 <= b -> zdrop a (zdrop b l) = zdrop (b + a) l.
Proof. intros. unfold zdrop. rewrite drop_drop. f_equal. lia. Qed.

Lemma ztake_ztake {A} a b (l : list A) : ztake a (ztake b l) = ztake (Z.min a b) l.
Proof. unfold ztake. rewrite take_take. f_equal. lia. Qed.

Lemma sub_range_mid {A} a b (x y z : list A) :
  a = len x -> b = len x + len y -> sub_range a b (x ++ y ++ z) = y.
Proof.
  intros -> ->. unfold sub_range. rewrite zdrop_app_len by done. apply ztake_app_len. lia.
Qed.

Lemma get_range_mid {A} a b (x y z : list A) :
  a = len x -> b = len x + len y -> get_range a b (x ++ y ++ z) = Some y.
Proof.
  intros -> ->. unfold get_range. rewrite sub_range_mid by done.
  rewrite !len_app. nonneg_lens.
  by rewrite !(proj2 (Z.leb_le _ _)) by lia.
Qed.

Lemma get_range_front {A} n (x y : list A) : n = len x -> get_range 0 n (x ++ y) = Some x.
Proof. intros ->. by apply (get_range_mid 0 (len x) []). Qed.

Lemma get_range_back {A} a b (x y : list A) : a = len x -> b = len x + len y -> get_range a b (x ++ y) = Some y.
Proof. intros Ha Hb. rewrite <- (app_nil_r y) at 1. by apply get_range_mid. Qed.

Lemma get_range_Some {A} a b (l k : list A) :
  get_range a b l = Some k <-> 0 <= a <= b /\ b <= len l /\ k = sub_range a b l.
Proof.
  unfold get_range. destruct (_ && _) eqn:H; bool_hyps; split.
  - intros [= <-]; auto.
  - by intros (_ & _ & ->).
  - done.
  - intros (? & ? & ->). rewrite !(proj2 (Z.leb_le _ _)) in H by lia. done.
Qed.

Lemma get_range_None {A} a b (l : list A) :
  get_range a b l = None <-> ~ (0 <= a <= b /\ b <= len l).
Proof.
  unfold get_range. destruct (_ && _) eqn:H; bool_hyps; split.
  - done.
  - intros Hn. exfalso. apply Hn. lia.
  - intros _ ?. rewrite !(proj2 (Z.leb_le _ _)) in H by lia. done.
  - done.
Qed.

Lemma get_range_in {A} a b (l : list A) :
  0 <= a -> a <= b -> b <= len l -> get_range a b l = Some (sub_range a b l).
Proof. intros. apply get_range_Some. auto. Qed.

Lemma copy_at_mid {A} a b src (x y z : list A) :
  a = len x -> b = len x + len y -> len src = len y ->
  copy_at a b src (x ++ y ++ z) = Some (x ++ src ++ z).
Proof.
  intros -> -> Hl. unfold copy_at. rewrite !len_app. nonneg_lens.
  rewrite !(proj2 (Z.leb_le _ _)), (proj2 (Z.eqb_eq _ _)) by lia. simpl.
  rewrite ztake_app_len by done.
  rewrite (app_assoc x y z), zdrop_app_len; [done|]. rewrite len_app; lia.
Qed.

Lemma copy_at_Some {A} a b (src l k : list A) :
  copy_at a b src l = Some k <->
  0 <= a <= b /\ b <= len l /\ len src = b - a /\ k = ztake a l ++ src ++ zdrop b l.
Proof.
  unfold copy_at. destruct (_ && _) eqn:H; bool_hyps; split.
  - intros [= <-]; auto.
  - by intros (_ & _ & _ & ->).
  - done.
  - intros (? & ? & ? & ->).
    rewrite !(proj2 (Z.leb_le _ _)), (proj2 (Z.eqb_eq _ _)) in H by lia. done.
Qed.

Lemma len_copy_at {A} a b (src l k : list A) : copy_at a b src l = Some k -> len k = len l.
Proof. intros (? & ? & ? & ->)%copy_at_Some. llia. Qed.

Lemma get_at_Some_len {A} i (l : list A) x : get_at i l = Some x -> 0 <= i < len l.
Proof.
  unfold get_at. destruct (0 <=? i) eqn:H; [|done]. intros Hx%lookup_lt_Some.
  bool_hyps. unfold len. lia.
Qed.

Lemma get_at_is_Some {A} i (l : list A) : 0 <= i < len l -> exists x, get_at i l = Some x.
Proof.
  intros H. unfold get_at. rewrite (proj2 (Z.leb_le _ _)) by lia.
  apply lookup_lt_is_Some. unfold len in *. lia.
Qed.

Lemma get_at_mid {A} i (x : A) l k : i = len l -> get_at i (l ++ x :: k) = Some x.
Proof.
  intros ->. unfold get_at, len. rewrite (proj2 (Z.leb_le _ _)) by lia.
  rewrite Nat2Z.id. apply list_lookup_middle. done.
Qed.

Lemma at_mid i x l k : i = len l -> at_ i (l ++ x :: k) = x.
Proof. intros. unfold at_. by rewrite get_at_mid. Qed.

Lemma split_len {A} n (l : list A) :
  0 <= n <= len l -> exists a b, l = a ++ b /\ len a = n.
Proof.
  intros. exists (ztake n l), (zdrop n l). split; [by rewrite ztake_zdrop|llia].
Qed.

Lemma bytes_eqb_true a b : bytes_eqb a b = true <-> a = b.
Proof. apply bool_decide_eq_true. Qed.
Lemma bytes_eqb_refl a : bytes_eqb a a = true.
Proof. by apply bytes_eqb_true. Qed.

Lemma starts_with_app p l : starts_with p (p ++ l) = true.
Proof. unfold starts_with. rewrite take_app_length. apply bytes_eqb_refl. Qed.

Lemma starts_with_true p l : starts_with p l = true -> exists k, l = p ++ k.
Proof.
  unfold starts_with. rewrite bytes_eqb_true. intros Hp.
  exists (drop (length p) l). rewrite <- Hp at 1. by rewrite take_drop.
Qed.

(** A buffer as the list of its fields. *)

Lemma concat_1 {A} (x : list A) : concat [x] = x.
Proof. cbn [concat]. apply app_nil_r. Qed.

Lemma concat_split {A} i j (fs : list (list A)) :
  (i <= j)%nat ->
  concat fs = concat (take i fs) ++ concat (take (j - i) (drop i fs)) ++ concat (drop j fs).
Proof.
  intros Hij. rewrite <- (take_drop i fs) at 1. rewrite concat_app. f_equal.
  rewrite <- (take_drop (j - i) (drop i fs)) at 1. rewrite concat_app. f_equal. f_equal.
  rewrite drop_drop. f_equal. lia.
Qed.

Lemma get_fields {A} i j (fs : list (list A)) a b :
  (i <= j)%nat -> a = len (concat (take i fs)) ->
  b = a + len (concat (take (j - i) (drop i fs))) ->
  get_range a b (concat fs) = Some (concat (take (j - i) (drop i fs))).
Proof. intros Hij -> ->. rewrite (concat_split i j fs) by done. by apply get_range_mid. Qed.

Lemma copy_field {A} k (fs : list (list A)) f src a b :
  fs !! k = Some f -> a = len (concat (take k fs)) -> b = a + len f -> len src = len f ->
  copy_at a b src (concat fs) = Some (concat (<[k := src]> fs)).
Proof.
  intros Hk -> -> Hl.
  assert (concat fs = concat (take k fs) ++ f ++ concat (drop (S k) fs)) as ->.
  { rewrite <- (take_drop_middle fs k f Hk) at 1. by rewrite concat_app. }
  rewrite copy_at_mid by done.
  rewrite insert_take_drop by by apply lookup_lt_is_Some.
  by rewrite concat_app.
Qed.

(** A buffer splits into fields of any widths that add up to its length. *)
Lemma split_fields {A} (ns : list Z) (l : list A) :
  Forall (fun n => 0 <= n) ns -> len l = foldr Z.add 0 ns ->
  exists fs, l = concat fs /\ map len fs = ns.
Proof.
  intros Hns; revert l; induction Hns as [|n ns Hn Hns IH]; intros l Hl; simpl in Hl.
  - exists []. apply len_zero_nil in Hl as ->. done.
  - assert (0 <= foldr Z.add 0 ns) by (clear -Hns; induction Hns; simpl; lia).
    destruct (split_len n l) as (a & b & -> & Ha); [lia|].
    destruct (IH b) as (fs & -> & Hfs); [llia|].
    exists (a :: fs). split; [done|]. simpl. by rewrite Hfs, Ha.
Qed.

(** Name the fields of buffer [l], whose widths are the literal list [ns]. *)
Ltac name_fields l ns :=
  let fs := fresh "fs" in let Hfs := fresh "Hfs" in
  destruct (split_fields ns l) as (fs & -> & Hfs);
  [ repeat constructor; lia | simpl; try (nonneg_lens; lia)
  | repeat (let f := fresh "f" in destruct fs as [|f fs]; [discriminate Hfs || idtac|];
            try discriminate Hfs);
    try discriminate Hfs; simpl in Hfs; injection Hfs; clear Hfs; intros ].

(** Write the [k]-th field of a buffer given by its fields, and read fields [i] to
    [j] of it. *)
Ltac write_field k :=
  erewrite (copy_field k); [|reflexivity|cbn [take concat]; llia|llia|llia];
  cbn [or_panic rbind insert list_insert].
Ltac read_field i j :=
  rewrite (get_fields i j); [|lia|cbn [take concat]; llia|cbn [take drop concat Nat.sub]; llia];
  cbn [or_panic rbind take drop Nat.sub].

(** ** Byte order: lengths, ranges and round trips *)

Lemma bytes_to_le n x : bytes_ok (to_le n x).
Proof.
  unfold bytes_ok. revert x; induction n as [|n IH]; intros x; simpl; constructor; auto.
  unfold is_uint. pose proof (Z.mod_pos_bound x 256). lia.
Qed.

Lemma pow256_S n : 256 ^ Z.of_nat (S n) = 256 * 256 ^ Z.of_nat n.
Proof. rewrite Nat2Z.inj_succ, Z.pow_succ_r; lia. Qed.

Lemma of_to_le n x : of_le (to_le n x) = x mod 256 ^ Z.of_nat n.
Proof.
  revert x; induction n as [|n IH]; intros x; simpl of_le; simpl to_le.
  - simpl. by rewrite Z.mod_1_r.
  - cbn [to_le of_le]. rewrite IH, pow256_S.
    assert (0 < 256 ^ Z.of_nat n) by (apply Z.pow_pos_nonneg; lia).
    rewrite Z.rem_mul_r by lia. lia.
Qed.

Lemma of_le_bound l : bytes_ok l -> 0 <= of_le l < 256 ^ len l.
Proof.
  induction 1 as [|b l Hb _ IH]; [unfold len; simpl; lia|].
  unfold len in *. cbn [of_le length]. rewrite pow256_S. unfold is_uint in Hb. lia.
Qed.

Lemma to_of_le n l : bytes_ok l -> len l = Z.of_nat n -> to_le n (of_le l) = l.
Proof.
  revert l; induction n as [|n IH]; intros l Hl Hn.
  - by apply len_zero_nil in Hn as ->.
  - destruct l as [|b l]; [unfold len in Hn; simpl in Hn; lia|].
    inversion Hl as [|?? Hb Hl']; subst. unfold is_uint in Hb. cbn [of_le to_le].
    rewrite len_cons in Hn. f_equal.
    + rewrite Z.mul_comm, Z.mod_add by lia. apply Z.mod_small. lia.
    + rewrite Z.mul_comm, Z.div_add, Z.div_small by lia. apply IH; [done|lia].
Qed.

Lemma of_to_be n x : of_be (to_be n x) = x mod 256 ^ Z.of_nat n.
Proof. unfold of_be, to_be. rewrite reverse_involutive. apply of_to_le. Qed.

Lemma bytes_to_be n x : bytes_ok (to_be n x).
Proof. unfold to_be, bytes_ok. apply Forall_reverse, bytes_to_le. Qed.

Lemma of_be_bound l : bytes_ok l -> 0 <= of_be l < 256 ^ len l.
Proof.
  intros. unfold of_be. rewrite <- (len_reverse l). apply of_le_bound, Forall_reverse. done.
Qed.

Lemma to_of_be n l : bytes_ok l -> len l = Z.of_nat n -> to_be n (of_be l) = l.
Proof.
  intros. unfold to_be, of_be. rewrite to_of_le; [apply reverse_involutive| |].
  - by apply Forall_reverse.
  - by rewrite len_reverse.
Qed.

Lemma of_to_le_small n x : 0 <= x < 256 ^ Z.of_nat n -> of_le (to_le n x) = x.
Proof. intros. rewrite of_to_le. by apply Z.mod_small. Qed.

Lemma of_to_be_small n x : 0 <= x < 256 ^ Z.of_nat n -> of_be (to_be n x) = x.
Proof. intros. rewrite of_to_be. by apply Z.mod_small. Qed.

Lemma to_le_inj n x y :
  0 <= x < 256 ^ Z.of_nat n -> 0 <= y < 256 ^ Z.of_nat n -> to_le n x = to_le n y -> x = y.
Proof. intros Hx Hy H. by rewrite <- (of_to_le_small n x), <- (of_to_le_small n y), H. Qed.

Lemma to_be_inj n x y :
  0 <= x < 256 ^ Z.of_nat n -> 0 <= y < 256 ^ Z.of_nat n -> to_be n x = to_be n y -> x = y.
Proof. intros Hx Hy H. by rewrite <- (of_to_be_small n x), <- (of_to_be_small n y), H. Qed.

Lemma bytes_ok_app l k : bytes_ok (l ++ k) <-> bytes_ok l /\ bytes_ok k.
Proof. apply Forall_app. Qed.
Lemma bytes_ok_zeros n : bytes_ok (zeros n).
Proof. apply Forall_replicate. unfold is_uint; lia. Qed.
Lemma bytes_ok_ztake n l : bytes_ok l -> bytes_ok (ztake n l).
Proof. apply Forall_take. Qed.
Lemma bytes_ok_zdrop n l : bytes_ok l -> bytes_ok (zdrop n l).
Proof. apply Forall_drop. Qed.
Lemma bytes_ok_sub_range a b l : bytes_ok l -> bytes_ok (sub_range a b l).
Proof. intros. by apply bytes_ok_ztake, bytes_ok_zdrop. Qed.
Lemma get_at_ok i l x : bytes_ok l -> get_at i l = Some x -> is_u8 x.
Proof.
  unfold get_at. case_if; [|done]. intros Hl Hx.
  by apply (Forall_lookup_1 _ _ _ _ Hl) in Hx.
Qed.

#[export] Hint Resolve bytes_to_le bytes_to_be bytes_ok_zeros bytes_ok_ztake bytes_ok_zdrop
  bytes_ok_sub_range : tf.

(** A property of the numbers below a literal bound, by evaluation. *)
Lemma check_below (f : Z -> bool) n : forallb f (seqZ 0 n) = true -> forall x, 0 <= x < n -> f x = true.
Proof. intros H x Hx. apply (proj1 (forallb_forall _ _) H), list_elem_of_In, elem_of_seqZ. lia. Qed.

(** ** Results: inversion *)

Lemma rbind_Ok {E A B} (m : res E A) (k : A -> res E B) b :
  rbind m k = Ok b <-> exists a, m = Ok a /\ k a = Ok b.
Proof. destruct m; simpl; naive_solver. Qed.

Lemma ok_or_Ok {E A} (o : option A) (e : E) a : ok_or o e = Ok a <-> o = Some a.
Proof. destruct o; simpl; naive_solver. Qed.

Lemma ok_or_Err {E A} (o : option A) (e e' : E) : ok_or o e = Err e' <-> o = None /\ e = e'.
Proof. destruct o; simpl; naive_solver. Qed.

(** Invert the steps of a successful computation in the context. *)
Ltac inv_res :=
  repeat match goal with
  | H : rbind _ _ = Ok _ |- _ =>
      let a := fresh "a" in let H1 := fresh "Hm" in let H2 := fresh "Hk" in
      apply rbind_Ok in H as (a & H1 & H2)
  | H : ok_or _ _ = Ok _ |- _ => apply ok_or_Ok in H
  | H : or_panic ?o = Ok _ |- _ => destruct o eqn:?; simpl in H; [|discriminate H]
  | H : Ok _ = Ok _ |- _ => injection H as H; try subst
  | H : Some _ = Some _ |- _ => injection H as H; try subst
  | H : Err _ = Ok _ |- _ => discriminate H
  | H : (if ?b then _ else Err _) = Ok _ |- _ => destruct b eqn:?; [|discriminate H]
  | H : (if ?b then Err _ else _) = Ok _ |- _ => destruct b eqn:?; [discriminate H|]
  end.

(** A result that is neither a panic nor a hang. *)
Definition returns {E A} (m : res E A) : Prop :=
  match m with Ok _ | Err _ => True | Panic | Hang => False end.

(** ** Searching vectors *)

(** [iter().position(f)] *)
Fixpoint position {A} (f : A -> bool) (l : list A) : option nat :=
  match l with
  | [] => None
  | x :: l => if f x then Some O else S <$> position f l
  end.

(** [Vec::swap_remove] of an index in range: the last element takes its place. *)
Definition swap_remove {A} (i : nat) (l : list A) : list A :=
  match last l with
  | Some x => take (length l - 1) (<[i := x]> l)
  | None => l
  end.

Lemma position_Some {A} (f : A -> bool) l i : position f l = Some i -> exists x, l !! i = Some x /\ f x = true.
Proof.
  revert i; induction l as [|x l IH]; intros i; simpl; [done|]. destruct (f x) eqn:E; [intros [= <-]; by exists x|].
  intros (j & Hj & ->)%fmap_Some. exact (IH j Hj).
Qed.

Lemma position_None {A} (f : A -> bool) l : position f l = None <-> forall x, x ∈ l -> f x = false.
Proof.
  induction l as [|x l IH]; simpl; [set_solver|]. destruct (f x) eqn:E.
  - split; [done|]. intros H. rewrite H in E by left. done.
  - rewrite fmap_None, IH. split; intros H y; [intros [->|Hy]%elem_of_cons; auto|]. intros Hy. apply H. by right.
Qed.

Lemma position_None_lookup {A} (f : A -> bool) l : position f l = None -> forall i x, l !! i = Some x -> f x = false.
Proof. rewrite position_None. intros H i x Hi. eapply H, list_elem_of_lookup_2, Hi. Qed.

Lemma swap_remove_perm {A} (l : list A) i x : l !! i = Some x -> x :: swap_remove i l ≡ₚ l.
Proof.
  intros Hi. unfold swap_remove. destruct (last l) as [y|] eqn:Hl; [|by rewrite last_None in Hl; subst].
  apply last_Some in Hl as [l' ->]. rewrite length_app, Nat.add_sub. apply lookup_lt_Some in Hi as Hlt. rewrite length_app in Hlt. simpl in Hlt.
  destruct (decide (i = length l')) as [->|Hne].
  - rewrite insert_app_r_alt, take_app_length by lia. rewrite lookup_app_r, Nat.sub_diag in Hi by lia. injection Hi as ->.
    by rewrite (Permutation_app_comm l').
  - rewrite insert_app_l by lia. rewrite take_app_length' by (by rewrite length_insert).
    rewrite lookup_app_l in Hi by lia. apply list_elem_of_split_length in Hi as (a & b & -> & ->).
    rewrite insert_app_r_alt, Nat.sub_diag by lia. cbn [list_insert insert]. solve_Permutation.
Qed.
