(* ===== verification/Timers.v ===== *)
(** * Protocol constants, timer rules and the handshake token bucket

    [crates/wg-core/src/budget.rs] and [crates/wg-core/src/timers.rs].  Every
    rule is a pure function of the injected [now]; an [Instant] is its number
    of milliseconds.  The token bucket [HandshakeBudget] is the only state. *)

From S2P Require Import Prelude.

(** ** budget.rs *)

Definition INNER_MTU : Z := 1280.
Definition TRANSPORT_HEADER_LEN : Z := 16.
Definition TAG_LEN : Z := 16.
Definition PAD_TO : Z := 16.

(** [n.next_multiple_of(m)] *)
Definition next_multiple_of (n m : Z) : Z := if n mod m =? 0 then n else n + (m - n mod m).

Definition MAX_DATAGRAM_LEN : Z :=
  TRANSPORT_HEADER_LEN + next_multiple_of INNER_MTU PAD_TO + TAG_LEN.
Definition REPLAY_WINDOW_BITS : Z := 1024.
Definition REPLAY_WINDOW_WORDS : Z := REPLAY_WINDOW_BITS / 64.

(** ** timers.rs *)

Definition saturating_since (self earlier : Z) : Z := saturating_sub self earlier.

Definition REJECT_AFTER_TIME_MS : Z := 180000.
Definition REKEY_AFTER_TIME_MS : Z := 120000.
Definition REKEY_TIMEOUT_MS : Z := 5000.
Definition REKEY_ATTEMPT_TIME_MS : Z := 90000.
Definition KEEPALIVE_TIMEOUT_MS : Z := 10000.
Definition REJECT_AFTER_MESSAGES : Z := U64_MAX - 2 ^ 13.
Definition REKEY_AFTER_MESSAGES : Z := 2 ^ 60.
Definition HANDSHAKE_RATE_LIMIT_MS : Z := 50.
Definition HANDSHAKE_BURST : Z := 8.

Module HandshakeBudget.

Record t := mk { tokens : Z; last_refill : option Z }.

Definition new : t := mk HANDSHAKE_BURST None.

(** The refill half of [take]: credit whole intervals, carry the remainder. *)
Definition refill (b : t) (now : Z) : t :=
  match last_refill b with
  | None => mk (tokens b) (Some now)
  | Some last =>
      let elapsed := saturating_since now last in
      let earned := elapsed / HANDSHAKE_RATE_LIMIT_MS in
      if 0 <? earned then
        mk (Z.min HANDSHAKE_BURST (Z.min U32_MAX (tokens b + Z.min earned U32_MAX)))
           (Some (last + earned * HANDSHAKE_RATE_LIMIT_MS))
      else b
  end.

Definition take (b : t) (now : Z) : bool * t :=
  let b := refill b now in
  if tokens b =? 0 then (false, b) else (true, mk (tokens b - 1) (last_refill b)).

(** The outcomes of a run of calls at the given times, and the final state. *)
Fixpoint run (b : t) (times : list Z) : list bool * t :=
  match times with
  | [] => ([], b)
  | now :: times =>
      let (ok, b) := take b now in
      let (oks, b) := run b times in (ok :: oks, b)
  end.

Definition granted (oks : list bool) : Z := len (List.filter (fun b => b) oks).

Definition wf (b : t) : Prop := 0 <= tokens b <= HANDSHAKE_BURST.

End HandshakeBudget.

Definition handshake_retry_is_due (last_attempt : option Z) (now : Z) : bool :=
  match last_attempt with
  | None => true
  | Some last => REKEY_TIMEOUT_MS <=? saturating_since now last
  end.

Definition handshake_has_expired (started now : Z) : bool :=
  REKEY_ATTEMPT_TIME_MS <=? saturating_since now started.

Definition rekey_is_due (established now : Z) : bool :=
  REKEY_AFTER_TIME_MS <=? saturating_since now established.

Definition session_is_alive (established now : Z) : bool :=
  saturating_since now established <? REJECT_AFTER_TIME_MS.

Definition keepalive_is_due (armed_since : option Z) (now : Z) : bool :=
  match armed_since with
  | None => false
  | Some armed => KEEPALIVE_TIMEOUT_MS <=? saturating_since now armed
  end.

(** ** The bucket never grants more than its rate *)

Module BudgetFacts.
Import HandshakeBudget.

Ltac unf := unfold HANDSHAKE_RATE_LIMIT_MS, HANDSHAKE_BURST, U32_MAX, saturating_since,
  saturating_sub in *.

Lemma refill_wf b now : wf b -> wf (refill b now).
Proof.
  unfold wf, refill. destruct (last_refill b); simpl; [|done].
  case_if; simpl; [|done]. unf. bool_hyps. lia.
Qed.

Lemma take_wf b now : wf b -> wf (snd (take b now)).
Proof.
  intros H%(refill_wf b now). unfold take. case_if; simpl; [done|].
  bool_hyps. unfold wf in *; simpl. lia.
Qed.

Lemma take_room b now :
  wf b -> tokens (snd (take b now)) + (if fst (take b now) then 1 else 0) <= HANDSHAKE_BURST.
Proof.
  intros H%(refill_wf b now). unfold take. case_if; simpl; unfold wf in H; lia.
Qed.

Lemma run_wf ts b : wf b -> wf (snd (run b ts)).
Proof.
  revert b; induction ts as [|now ts IH]; intros b H; simpl; [done|].
  pose proof (take_wf b now H) as Hw. destruct (take b now) as [ok b1]. simpl in Hw.
  specialize (IH b1 Hw). by destruct (run b1 ts).
Qed.

(** A call that finds the bucket running leaves [50 * tokens - last_refill] no
    larger, and 50 smaller when it grants; the refill mark never passes [now]. *)
Lemma take_potential b last now :
  last_refill b = Some last ->
  exists last', last_refill (snd (take b now)) = Some last' /\
    last <= last' <= Z.max last now /\ now - 50 < last' /\
    50 * tokens (snd (take b now)) - last' + (if fst (take b now) then 50 else 0)
      <= 50 * tokens b - last.
Proof.
  intros Hl. unfold take, refill. rewrite Hl. unf.
  set (e := Z.max 0 (now - last) / 50).
  assert (50 * e <= Z.max 0 (now - last) < 50 * e + 50)
    by (unfold e; pose proof (Z.div_mod (Z.max 0 (now - last)) 50);
        pose proof (Z.mod_pos_bound (Z.max 0 (now - last)) 50); lia).
  destruct (0 <? e) eqn:He; simpl; bool_hyps.
  - exists (last + e * 50). case_if; simpl; bool_hyps; (split; [done|lia]).
  - exists last. case_if; simpl; rewrite ?Hl; bool_hyps; (split; [done|lia]).
Qed.

Lemma run_bound ts b last T :
  wf b -> last_refill b = Some last -> last <= T -> Forall (fun t => t <= T) ts ->
  50 * granted (fst (run b ts)) <= 50 * tokens b + (T - last).
Proof.
  revert b last; induction ts as [|now ts IH]; intros b last Hw Hl HlT HT; simpl.
  - unfold granted, wf in *. simpl. change (len []) with 0. lia.
  - inversion HT; subst.
    destruct (take_potential b last now Hl) as (l' & Hl' & Hmono & _ & Hpot).
    pose proof (take_wf b now Hw) as Hw'.
    destruct (take b now) as [ok b1]; simpl in *.
    specialize (IH b1 l' Hw' Hl' ltac:(lia) H2).
    destruct (run b1 ts) as [oks b2]; simpl in *.
    unfold granted in *. destruct ok; simpl; rewrite ?len_cons; lia.
Qed.

Lemma run_app ts us b :
  run b (ts ++ us) =
  (fst (run b ts) ++ fst (run (snd (run b ts)) us), snd (run (snd (run b ts)) us)).
Proof.
  revert b; induction ts as [|t ts IH]; intros b; simpl; [by destruct (run b us)|].
  destruct (take b t) as [ok b1]. rewrite IH. by destruct (run b1 ts).
Qed.

(** The first call of a window moves the refill mark to within one interval of
    the window's start, so the rest of the window is bounded by [run_bound]. *)
Lemma window_bound b ts s T :
  wf b -> Forall (fun t => s <= t <= T) ts -> s <= T ->
  granted (fst (run b ts)) <= 9 + (T - s) / 50.
Proof.
  intros Hw HT HsT.
  assert (0 <= (T - s) / 50) by (apply Z.div_pos; lia).
  destruct ts as [|t ts]; [unfold granted; simpl; change (len []) with 0; lia|].
  inversion HT as [|?? Ht HT']; subst.
  assert (Forall (fun u => u <= T) ts) by (eapply List.Forall_impl; [|exact HT']; simpl; lia).
  pose proof (Z.div_mod (T - s) 50). pose proof (Z.mod_pos_bound (T - s) 50).
  destruct (last_refill b) as [last|] eqn:Hl.
  - destruct (take_potential b last t Hl) as (l' & Hl' & Hm & Hn & Hp).
    destruct (decide (l' <= T)).
    + pose proof (take_wf b t Hw) as Hw'. pose proof (take_room b t Hw) as Hroom.
      unfold wf in *. simpl.
      destruct (take b t) as [ok b1]; simpl in *.
      pose proof (run_bound ts b1 l' T Hw' Hl' ltac:(done) ltac:(done)) as Hr.
      destruct (run b1 ts) as [oks b2]; simpl in *. unfold granted in *.
      unf. destruct ok; simpl; rewrite ?len_cons; lia.
    + assert (Hbig : forall T', l' <= T' -> 50 * granted (fst (run b (t :: ts))) <= 50 * tokens b + (T' - last)).
      { intros T' ?. apply run_bound; [done|done|lia|]. constructor; [lia|].
        eapply List.Forall_impl; [|exact HT']; simpl; lia. }
      assert (l' = last) as -> by lia.
      specialize (Hbig last ltac:(lia)). unfold wf in Hw. unf. lia.
  - simpl. unfold take, refill. rewrite Hl; simpl. unfold wf in Hw. unf.
    case_if; simpl; bool_hyps.
    + pose proof (run_bound ts (mk (tokens b) (Some t)) t T ltac:(unfold wf; simpl; unf; lia) eq_refl ltac:(lia) ltac:(done)) as Hr.
      destruct (run _ ts) as [oks b2]; simpl in *. unfold granted in *. simpl. lia.
    + pose proof (run_bound ts (mk (tokens b - 1) (Some t)) t T ltac:(unfold wf; simpl; unf; lia) eq_refl ltac:(lia) ltac:(done)) as Hr.
      destruct (run _ ts) as [oks b2]; simpl in *. unfold granted in *. simpl. rewrite len_cons. lia.
Qed.

Lemma exhausted_stays last ts :
  Forall (fun t => t < last + 50) ts ->
  run (mk 0 (Some last)) ts = (replicate (length ts) false, mk 0 (Some last)).
Proof.
  induction 1 as [|t ts Ht _ IH]; simpl; [done|].
  unfold take, refill; simpl. unf.
  rewrite (Z.div_small (Z.max 0 (t - last)) 50) by lia. simpl. by rewrite IH.
Qed.

End BudgetFacts.

(** ** Properties *)

(** C37: The device-wide bucket bounds handshake work.  After any history of
    calls, the calls that fall in a window [s, T] of the clock (in any order
    inside it) are granted at most [9 + (T - s) / 50] times: the burst of eight,
    one per 50 ms, and the interval the window may cut. *)
Theorem handshake_rate_bounded (before window : list Z) (s T : Z) :
  s <= T -> Forall (fun t => s <= t <= T) window ->
  HandshakeBudget.granted
    (fst (HandshakeBudget.run (snd (HandshakeBudget.run HandshakeBudget.new before)) window))
  <= HANDSHAKE_BURST + 1 + (T - s) / HANDSHAKE_RATE_LIMIT_MS.
Proof.
  intros HsT Hw. apply BudgetFacts.window_bound; [|done|done].
  apply BudgetFacts.run_wf. unfold HandshakeBudget.wf; simpl. unfold HANDSHAKE_BURST. lia.
Qed.

Lemma handshake_rate_bounded_witness :
  HandshakeBudget.granted
    (fst (HandshakeBudget.run (snd (HandshakeBudget.run HandshakeBudget.new [0; 0; 0]))
       [100; 100; 100; 100; 100; 100; 100; 100; 100; 120; 199])) = 8 /\
  8 <= HANDSHAKE_BURST + 1 + (200 - 100) / HANDSHAKE_RATE_LIMIT_MS.
Proof.
  split; [vm_compute; reflexivity|].
  apply (handshake_rate_bounded [0; 0; 0] [100; 100; 100; 100; 100; 100; 100; 100; 100; 120; 199] 100 200);
    [lia|]. repeat constructor; lia.
Defined.

(** The remainder of an interval is carried, never discarded.  An exhausted
    bucket polled any number of times within the next 50 ms refuses each call
    and keeps its state, and grants the call that lands on the 50 ms boundary. *)
Theorem handshake_budget_recovers (last : Z) (polls : list Z) :
  Forall (fun t => last <= t < last + HANDSHAKE_RATE_LIMIT_MS) polls ->
  HandshakeBudget.run (HandshakeBudget.mk 0 (Some last)) (polls ++ [last + HANDSHAKE_RATE_LIMIT_MS])
  = (replicate (length polls) false ++ [true],
     HandshakeBudget.mk 0 (Some (last + HANDSHAKE_RATE_LIMIT_MS))).
Proof.
  intros Hp. rewrite BudgetFacts.run_app, BudgetFacts.exhausted_stays.
  - cbn [fst snd]. cbn [HandshakeBudget.run]. unfold HandshakeBudget.take, HandshakeBudget.refill.
    cbn [HandshakeBudget.last_refill HandshakeBudget.tokens].
    BudgetFacts.unf. replace (Z.max 0 (last + 50 - last)) with 50 by lia.
    change (50 / 50) with 1. cbn -[Z.add Z.mul Z.min]. f_equal.
  - eapply List.Forall_impl; [|exact Hp]. simpl. BudgetFacts.unf. lia.
Qed.

Lemma handshake_budget_recovers_witness :
  HandshakeBudget.run (HandshakeBudget.mk 0 (Some 1000)) [1010; 1049; 1050]
  = ([false; false; true], HandshakeBudget.mk 0 (Some 1050)).
Proof.
  apply (handshake_budget_recovers 1000 [1010; 1049]).
  repeat constructor; unfold HANDSHAKE_RATE_LIMIT_MS; lia.
Defined.
