(* ===== verification/Replay.v ===== *)
(** * The sliding replay window

    [crates/wg-core/src/replay.rs].  [ReplayWindow.accept] keeps one bit per
    counter of the last 1024 in sixteen 64-bit words and the highest counter
    accepted.  The specification [Spec.accept] keeps the whole list of accepted
    counters; [accept] refines it. *)

From S2P Require Import Prelude Timers.

Module ReplayWindow.

Record t := mk { highest : option Z; seen : list Z }.

Definition new : t := mk None (replicate (Z.to_nat REPLAY_WINDOW_WORDS) 0).

(** The word index and the mask of a counter's bit. *)
Definition index (counter : Z) : nat * Z :=
  let bit := counter mod REPLAY_WINDOW_BITS in
  (Z.to_nat (bit / 64), Z.shiftl 1 (bit mod 64)).

Definition word (w : t) (i : nat) : Z := default 0 (seen w !! i).

Definition set (w : t) (counter : Z) : t :=
  let (i, mask) := index counter in
  mk (highest w) (<[i := Z.lor (word w i) mask]> (seen w)).

Definition clear (w : t) (counter : Z) : t :=
  let (i, mask) := index counter in
  mk (highest w) (<[i := Z.land (word w i) (bitnot 64 mask)]> (seen w)).

Definition is_set (w : t) (counter : Z) : bool :=
  let (i, mask) := index counter in
  negb (Z.land (word w i) mask =? 0).

(** [for c in from .. from + n { self.clear(c) }] *)
Fixpoint clear_range (w : t) (from : Z) (n : nat) : t :=
  match n with
  | O => w
  | S n => clear_range (clear w from) (from + 1) n
  end.

Definition accept (w : t) (counter : Z) : bool * t :=
  if REJECT_AFTER_MESSAGES <=? counter then (false, w) else
  match highest w with
  | None => (true, set (mk (Some counter) (seen w)) counter)
  | Some h =>
      if h <? counter then
        let advance := counter - h in
        let w :=
          if REPLAY_WINDOW_BITS <=? advance
          then mk (highest w) (replicate (Z.to_nat REPLAY_WINDOW_WORDS) 0)
          else clear_range w (h + 1) (Z.to_nat (counter - (h + 1))) in
        (true, set (mk (Some counter) (seen w)) counter)
      else if (REPLAY_WINDOW_BITS <=? h - counter) || is_set w counter then (false, w)
      else (true, set w counter)
  end.

(** The outcomes of a run of counters, and the final window. *)
Fixpoint run (w : t) (counters : list Z) : list bool * t :=
  match counters with
  | [] => ([], w)
  | c :: cs =>
      let (ok, w) := accept w c in
      let (oks, w) := run w cs in (ok :: oks, w)
  end.

End ReplayWindow.

(** ** Specification: the list of accepted counters, newest first *)

Module Spec.

Fixpoint highest (hist : list Z) : option Z :=
  match hist with
  | [] => None
  | c :: l => Some match highest l with None => c | Some h => Z.max c h end
  end.

(** Fresh, below the rekey limit, and within the window below the highest. *)
Definition accept (hist : list Z) (c : Z) : bool :=
  (c <? REJECT_AFTER_MESSAGES) &&
  match highest hist with
  | None => true
  | Some h => (h - REPLAY_WINDOW_BITS <? c) && negb (bool_decide (c ∈ hist))
  end.

Fixpoint run (hist : list Z) (counters : list Z) : list bool * list Z :=
  match counters with
  | [] => ([], hist)
  | c :: cs =>
      let ok := accept hist c in
      let (oks, hist) := run (if ok then c :: hist else hist) cs in (ok :: oks, hist)
  end.

End Spec.

(** ** Bits of the window *)

Module Bits.
Import ReplayWindow.

(** The bit a counter is recorded in. *)
Definition bit (w : t) (c : Z) : bool :=
  Z.testbit (word w (Z.to_nat (c mod 1024 / 64))) (c mod 1024 mod 64).

Lemma slot_bounds c :
  (Z.to_nat (c mod 1024 / 64) < 16)%nat /\ 0 <= c mod 1024 mod 64 < 64.
Proof.
  pose proof (Z.mod_pos_bound c 1024). pose proof (Z.mod_pos_bound (c mod 1024) 64).
  assert (c mod 1024 / 64 < 16) by (apply Z.div_lt_upper_bound; lia).
  assert (0 <= c mod 1024 / 64) by (apply Z.div_pos; lia). lia.
Qed.

Lemma same_slot c d :
  Z.to_nat (c mod 1024 / 64) = Z.to_nat (d mod 1024 / 64) ->
  c mod 1024 mod 64 = d mod 1024 mod 64 -> c mod 1024 = d mod 1024.
Proof.
  intros H1 H2.
  assert (0 <= c mod 1024 / 64) by (apply Z.div_pos; [apply Z.mod_pos_bound|]; lia).
  assert (0 <= d mod 1024 / 64) by (apply Z.div_pos; [apply Z.mod_pos_bound|]; lia).
  rewrite (Z.div_mod (c mod 1024) 64), (Z.div_mod (d mod 1024) 64) by lia. lia.
Qed.

Lemma testbit_not_mask k j :
  0 <= k < 64 -> 0 <= j < 64 -> Z.testbit (bitnot 64 (Z.shiftl 1 k)) j = negb (j =? k).
Proof.
  intros Hk Hj. unfold bitnot. rewrite Z.shiftl_1_l.
  replace (2 ^ 64 - 1) with (Z.ones 64) by reflexivity.
  rewrite Z.sub_nocarry_ldiff.
  - rewrite Z.ldiff_spec, Z.ones_spec_low by lia.
    rewrite Z.pow2_bits_eqb by lia. by rewrite Z.eqb_sym.
  - apply Z.bits_inj'. intros i Hi. rewrite Z.ldiff_spec, Z.bits_0, Z.pow2_bits_eqb by lia.
    destruct (Z.eqb_spec k i) as [->|]; [|done]. by rewrite Z.ones_spec_low by lia.
Qed.

Lemma is_set_bit w c : is_set w c = bit w c.
Proof.
  unfold is_set, index, bit, REPLAY_WINDOW_BITS. destruct (slot_bounds c) as [_ Hk].
  set (k := c mod 1024 mod 64) in *. set (x := word w _).
  rewrite Z.shiftl_1_l. destruct (Z.testbit x k) eqn:Hx.
  - apply negb_true_iff, Z.eqb_neq. intros H0.
    assert (Z.testbit (Z.land x (2 ^ k)) k = true) as Hb.
    { rewrite Z.land_spec, Hx, Z.pow2_bits_true by lia. done. }
    by rewrite H0, Z.bits_0 in Hb.
  - apply negb_false_iff, Z.eqb_eq, Z.bits_inj'. intros i Hi.
    rewrite Z.land_spec, Z.bits_0, Z.pow2_bits_eqb by lia.
    destruct (Z.eqb_spec k i) as [<-|]; by rewrite ?Hx, ?andb_false_r.
Qed.

Lemma bit_update w h c x d :
  length (seen w) = 16%nat ->
  bit (mk h (<[Z.to_nat (c mod 1024 / 64) := x]> (seen w))) d =
  if bool_decide (Z.to_nat (c mod 1024 / 64) = Z.to_nat (d mod 1024 / 64))
  then Z.testbit x (d mod 1024 mod 64) else bit w d.
Proof.
  intros Hlen. unfold bit, word; simpl. case_bool_decide as He.
  - rewrite <- He, list_lookup_insert_eq; [done|]. rewrite Hlen. apply slot_bounds.
  - by rewrite list_lookup_insert_ne.
Qed.

Lemma bit_set w c d :
  length (seen w) = 16%nat ->
  bit (set w c) d = bool_decide (c mod 1024 = d mod 1024) || bit w d.
Proof.
  intros Hlen. unfold set, index, REPLAY_WINDOW_BITS.
  destruct (slot_bounds c) as [_ Hk], (slot_bounds d) as [_ Hj].
  rewrite bit_update by done. case_bool_decide as He.
  - unfold bit. rewrite <- He.
    rewrite Z.lor_spec, Z.shiftl_1_l, Z.pow2_bits_eqb by lia. rewrite orb_comm. f_equal.
    destruct (Z.eqb_spec (c mod 1024 mod 64) (d mod 1024 mod 64)) as [E|E]; symmetry.
    + apply bool_decide_eq_true. by apply same_slot.
    + apply bool_decide_eq_false. congruence.
  - rewrite (bool_decide_eq_false_2 (c mod 1024 = _)); [done|congruence].
Qed.

Lemma bit_clear w c d :
  length (seen w) = 16%nat ->
  bit (clear w c) d = negb (bool_decide (c mod 1024 = d mod 1024)) && bit w d.
Proof.
  intros Hlen. unfold clear, index, REPLAY_WINDOW_BITS.
  destruct (slot_bounds c) as [_ Hk], (slot_bounds d) as [_ Hj].
  rewrite bit_update by done. case_bool_decide as He.
  - unfold bit. rewrite <- He.
    rewrite Z.land_spec, testbit_not_mask by done. rewrite andb_comm. f_equal. f_equal.
    destruct (Z.eqb_spec (d mod 1024 mod 64) (c mod 1024 mod 64)) as [E|E]; symmetry.
    + apply bool_decide_eq_true. by apply same_slot.
    + apply bool_decide_eq_false. congruence.
  - rewrite (bool_decide_eq_false_2 (c mod 1024 = _)); [done|congruence].
Qed.

Lemma length_set w c : length (seen (set w c)) = length (seen w).
Proof. unfold set. destruct (index c). apply length_insert. Qed.
Lemma length_clear w c : length (seen (clear w c)) = length (seen w).
Proof. unfold clear. destruct (index c). apply length_insert. Qed.
Lemma length_clear_range n w c : length (seen (clear_range w c n)) = length (seen w).
Proof. revert w c; induction n; intros; simpl; [done|]. by rewrite IHn, length_clear. Qed.

(** Clearing [n < 1024] consecutive counters turns off their bits and no others. *)
Lemma bit_clear_range n w from d :
  length (seen w) = 16%nat ->
  bit (clear_range w from n) d =
  negb (existsb (fun c => bool_decide (c mod 1024 = d mod 1024))
          (map (fun i => from + Z.of_nat i) (seq 0 n))) && bit w d.
Proof.
  revert w from; induction n as [|n IH]; intros w from Hlen; [done|].
  simpl clear_range. rewrite IH by by rewrite length_clear.
  rewrite bit_clear by done. rewrite andb_assoc, <- negb_orb. f_equal. f_equal.
  simpl. rewrite Z.add_0_r, orb_comm. f_equal.
  rewrite <- seq_shift, map_map. f_equal. apply map_ext. intros. lia.
Qed.

End Bits.

(** ** Refinement *)

Module Refinement.
Import ReplayWindow Bits.

(** The window holds, for each counter of the current window, whether it was
    accepted. *)
Definition related (w : t) (hist : list Z) : Prop :=
  length (seen w) = 16%nat /\
  highest w = Spec.highest hist /\
  Forall (fun c => 0 <= c) hist /\
  match highest w with
  | None => seen w = replicate 16 0
  | Some h => forall c, 0 <= c -> h - 1024 < c <= h -> bit w c = true <-> c ∈ hist
  end.

Lemma related_new : related new [].
Proof. split_and!; done. Qed.

Lemma mod_window c d : - 1024 < c - d < 1024 -> c mod 1024 = d mod 1024 -> c = d.
Proof.
  intros Hw He. pose proof (Z.div_mod c 1024). pose proof (Z.div_mod d 1024). lia.
Qed.

Lemma bit_zero h c : bit (mk h (replicate 16 0)) c = false.
Proof.
  unfold bit, word; simpl. destruct (slot_bounds c) as [Hs _].
  rewrite (lookup_replicate_2 16 0) by done. apply Z.bits_0.
Qed.

Lemma highest_max hist h c : Spec.highest hist = Some h -> c ∈ hist -> c <= h.
Proof.
  revert h; induction hist as [|x l IH]; intros h; [done|]. simpl. intros [= <-].
  rewrite elem_of_cons. intros [->|Hc].
  - destruct (Spec.highest l); lia.
  - destruct (Spec.highest l) as [h'|] eqn:E; [specialize (IH h' eq_refl Hc); lia|].
    destruct l; [by apply elem_of_nil in Hc|done].
Qed.

(** Advancing past the old mark leaves exactly the surviving counters set. *)
Lemma advance_bits w hist h counter c :
  related w hist -> highest w = Some h -> h < counter -> 0 <= c -> counter - 1024 < c < counter ->
  bit (if REPLAY_WINDOW_BITS <=? counter - h
       then mk (highest w) (replicate (Z.to_nat REPLAY_WINDOW_WORDS) 0)
       else clear_range w (h + 1) (Z.to_nat (counter - (h + 1)))) c = true <-> c ∈ hist.
Proof.
  intros (Hlen & Hh & _ & Hbits) E Hlt H0 Hc. rewrite E in *. unfold REPLAY_WINDOW_BITS.
  assert (Hout : h < c -> c ∉ hist) by (intros ? ?%(highest_max _ h); [lia|done]).
  case_if; bool_hyps.
  - change (Z.to_nat REPLAY_WINDOW_WORDS) with 16%nat. rewrite bit_zero.
    split; [done|]. intros Hin. exfalso. apply Hout; [lia|done].
  - rewrite bit_clear_range by done. rewrite andb_true_iff, negb_true_iff.
    destruct (decide (h < c)) as [Hn|Hn].
    + split; [|intros ?; exfalso; by apply Hout]. intros [Hx _]. exfalso.
      apply not_true_iff_false in Hx. apply Hx, existsb_exists. exists c. split.
      * apply in_map_iff. exists (Z.to_nat (c - (h + 1))). rewrite in_seq. lia.
      * by apply bool_decide_eq_true.
    + rewrite <- Hbits by lia. split; [by intros [_ ?]|]. intros Hb. split; [|done].
      apply not_true_iff_false. intros (d & Hd & Hm)%existsb_exists.
      apply in_map_iff in Hd as (i & <- & Hi%in_seq). apply bool_decide_eq_true in Hm.
      apply mod_window in Hm; lia.
Qed.

Lemma length_advance w (b : bool) h n :
  length (seen w) = 16%nat ->
  length (seen (if b then mk (highest w) (replicate (Z.to_nat REPLAY_WINDOW_WORDS) 0)
                else clear_range w h n)) = 16%nat.
Proof. intros. destruct b; [done|]. by rewrite length_clear_range. Qed.

Lemma bit_irrel h h' s c : bit (mk h s) c = bit (mk h' s) c.
Proof. done. Qed.

Lemma accept_refines w hist c :
  related w hist -> 0 <= c ->
  fst (accept w c) = Spec.accept hist c /\
  related (snd (accept w c)) (if Spec.accept hist c then c :: hist else hist).
Proof.
  intros Hrel Hc. pose proof Hrel as (Hlen & Hh & Hnn & Hbits).
  unfold accept, Spec.accept. rewrite <- Hh.
  destruct (REJECT_AFTER_MESSAGES <=? c) eqn:Hrej; bool_hyps.
  { by rewrite (proj2 (Z.ltb_ge c _)) by lia. }
  rewrite (proj2 (Z.ltb_lt c _)) by lia. cbn [andb].
  destruct (highest w) as [h|] eqn:E; cbn [fst snd].
  2: { split; [done|]. split_and!.
       - by rewrite length_set.
       - unfold set; destruct (index c); simpl. by rewrite <- Hh.
       - by constructor.
       - unfold set at 1; destruct (index c); simpl. intros d Hd Hw.
         rewrite bit_set by done. rewrite (bit_irrel _ None), Hbits, bit_zero, orb_false_r.
         rewrite bool_decide_eq_true, elem_of_cons.
         destruct hist; [|done]. split; [|intros [->|?%elem_of_nil]; done].
         intros ?%mod_window; [by left|lia]. }
  destruct (h <? c) eqn:Hlt; bool_hyps; cbn [fst snd].
  - rewrite (proj2 (Z.ltb_lt (h - REPLAY_WINDOW_BITS) c))
      by (unfold REPLAY_WINDOW_BITS; lia).
    assert (Hout : c ∉ hist) by (intros ?%(highest_max _ h); [lia|done]).
    rewrite bool_decide_eq_false_2 by done. cbn [andb negb]. split; [done|].
    set (w1 := if _ <=? _ then _ else _).
    assert (Hl1 : length (seen w1) = 16%nat) by (unfold w1; rewrite <- E; by apply length_advance).
    split_and!.
    + by rewrite length_set.
    + unfold set; destruct (index c); simpl. rewrite <- Hh. f_equal. lia.
    + by constructor.
    + unfold set at 1; destruct (index c); simpl. intros d Hd Hw.
      rewrite bit_set by done. rewrite orb_true_iff, bool_decide_eq_true, elem_of_cons.
      destruct (decide (d = c)) as [->|Hne]; [tauto|].
      rewrite (bit_irrel _ (highest w1)).
      assert (bit (mk (highest w1) (seen w1)) d = bit w1 d) as -> by done.
      unfold w1. rewrite <- E, (advance_bits w hist h c d) by (done || lia).
      split; [intros [?%mod_window|?]; [lia|lia|by right]|tauto].
  - destruct (REPLAY_WINDOW_BITS <=? h - c) eqn:Hold; bool_hyps; cbn [orb fst snd].
    { rewrite (proj2 (Z.ltb_ge (h - REPLAY_WINDOW_BITS) c)) by lia. done. }
    unfold REPLAY_WINDOW_BITS in *. rewrite (proj2 (Z.ltb_lt (h - 1024) c)) by lia. cbn [andb].
    rewrite is_set_bit. specialize (Hbits c ltac:(lia) ltac:(lia)) as Hc'.
    destruct (bit w c) eqn:Hb; cbn [fst snd].
    { rewrite bool_decide_eq_true_2 by tauto. done. }
    assert (c ∉ hist) by (intros ?%Hc'; congruence).
    rewrite bool_decide_eq_false_2 by done. cbn [negb]. split; [done|]. split_and!.
    + by rewrite length_set.
    + unfold set; destruct (index c); simpl. rewrite E, <- Hh. f_equal. lia.
    + by constructor.
    + unfold set at 1; destruct (index c); simpl. rewrite E. intros d Hd Hw.
      rewrite bit_set by done. rewrite orb_true_iff, bool_decide_eq_true, elem_of_cons.
      rewrite Hbits by lia.
      split; [intros [?%mod_window|?]; [left; lia|lia|by right]|]. intros [->|?]; tauto.
Qed.

Lemma run_refines cs w hist :
  related w hist -> Forall (fun c => 0 <= c) cs ->
  fst (run w cs) = fst (Spec.run hist cs) /\ related (snd (run w cs)) (snd (Spec.run hist cs)).
Proof.
  revert w hist; induction cs as [|c cs IH]; intros w hist Hr Hcs; [done|].
  inversion Hcs; subst. destruct (accept_refines w hist c Hr ltac:(done)) as [Ha Hr'].
  simpl. destruct (accept w c) as [ok w']; simpl in *. subst ok.
  specialize (IH _ _ Hr' ltac:(done)).
  destruct (run w' cs), (Spec.run _ cs). simpl in *. by destruct IH as [-> ?].
Qed.

(** The counters a run accepted, newest first. *)
Lemma spec_run_NoDup cs hist : NoDup hist -> NoDup (snd (Spec.run hist cs)).
Proof.
  revert hist; induction cs as [|c cs IH]; intros hist Hn; [done|]. simpl.
  assert (NoDup (if Spec.accept hist c then c :: hist else hist)) as Hn'.
  { destruct (Spec.accept hist c) eqn:E; [|done]. constructor; [|done]. intros Hin.
    unfold Spec.accept in E. destruct hist as [|x l]; [by apply elem_of_nil in Hin|].
    simpl Spec.highest in E. cbv beta iota in E. bool_hyps.
    by rewrite bool_decide_eq_true_2 in * by done. }
  specialize (IH _ Hn'). by destruct (Spec.run _ cs).
Qed.

End Refinement.

(** ** Properties *)

(** The counters of a run that were accepted, in order. *)
Definition accepted (counters : list Z) : list Z :=
  map fst (List.filter snd (combine counters (fst (ReplayWindow.run ReplayWindow.new counters)))).

Module AcceptedFacts.

Lemma highest_None hist : Spec.highest hist = None <-> hist = [].
Proof. destruct hist; [done|]. split; done. Qed.

Lemma highest_lt hist h x : Spec.highest hist = Some h -> h < x <-> Forall (fun d => d < x) hist.
Proof.
  revert h; induction hist as [|c l IH]; intros h; [done|]. simpl. intros [= <-].
  rewrite Forall_cons_iff. destruct (Spec.highest l) as [h'|] eqn:E.
  - rewrite <- (IH h' eq_refl). lia.
  - apply highest_None in E as ->. split; [auto|tauto].
Qed.

Lemma spec_run_hist cs hist :
  snd (Spec.run hist cs) =
  reverse (map fst (List.filter snd (combine cs (fst (Spec.run hist cs))))) ++ hist.
Proof.
  revert hist; induction cs as [|c cs IH]; intros hist; [done|]. simpl.
  specialize (IH (if Spec.accept hist c then c :: hist else hist)).
  destruct (Spec.run _ cs) as [oks h'] eqn:E. simpl in *. rewrite IH.
  destruct (Spec.accept hist c); simpl; [|done].
  by rewrite reverse_cons, <- app_assoc.
Qed.

Lemma accepted_related cs :
  Forall (fun c => 0 <= c) cs ->
  Refinement.related (snd (ReplayWindow.run ReplayWindow.new cs)) (reverse (accepted cs)).
Proof.
  intros Hcs. destruct (Refinement.run_refines cs _ _ Refinement.related_new Hcs) as [Hr Hrel].
  rewrite spec_run_hist, app_nil_r in Hrel. unfold accepted. by rewrite Hr.
Qed.

Lemma run_snoc cs c w :
  ReplayWindow.run w (cs ++ [c]) =
  let (ok, w') := ReplayWindow.accept (snd (ReplayWindow.run w cs)) c in
  (fst (ReplayWindow.run w cs) ++ [ok], w').
Proof.
  revert w; induction cs as [|d cs IH]; intros w; simpl; [by destruct (ReplayWindow.accept w c)|].
  destruct (ReplayWindow.accept w d) as [ok w1]. rewrite IH.
  destruct (ReplayWindow.run w1 cs) as [oks w2]; simpl. by destruct (ReplayWindow.accept w2 c).
Qed.

Lemma length_run cs w : length (fst (ReplayWindow.run w cs)) = length cs.
Proof.
  revert w; induction cs as [|c cs IH]; intros w; simpl; [done|].
  destruct (ReplayWindow.accept w c) as [ok w1]. specialize (IH w1).
  destruct (ReplayWindow.run w1 cs); simpl in *. by rewrite IH.
Qed.

Lemma accepted_snoc cs c :
  accepted (cs ++ [c]) =
  accepted cs ++
  (if fst (ReplayWindow.accept (snd (ReplayWindow.run ReplayWindow.new cs)) c) then [c] else []).
Proof.
  unfold accepted. rewrite run_snoc. destruct (ReplayWindow.accept _ c) as [ok w]. simpl.
  rewrite combine_app by by rewrite length_run.
  rewrite List.filter_app, map_app. f_equal. by destruct ok.
Qed.

Lemma accept_false_same w c : fst (ReplayWindow.accept w c) = false -> snd (ReplayWindow.accept w c) = w.
Proof. unfold ReplayWindow.accept. repeat case_match; done. Qed.

Lemma accepted_NoDup cs : Forall (fun c => 0 <= c) cs -> NoDup (accepted cs).
Proof.
  intros Hcs. destruct (Refinement.run_refines cs _ _ Refinement.related_new Hcs) as [Hr _].
  pose proof (Refinement.spec_run_NoDup cs [] (NoDup_nil_2)) as Hn.
  rewrite spec_run_hist, app_nil_r in Hn. unfold accepted. rewrite Hr.
  by rewrite reverse_Permutation in Hn.
Qed.

Lemma spec_accept_iff hist c :
  Spec.accept hist c = true <->
  c < REJECT_AFTER_MESSAGES /\ (c ∉ hist) /\ Forall (fun d => d - REPLAY_WINDOW_BITS < c) hist.
Proof.
  unfold Spec.accept. rewrite andb_true_iff, Z.ltb_lt.
  destruct (Spec.highest hist) as [h|] eqn:E.
  - rewrite andb_true_iff, Z.ltb_lt, negb_true_iff, bool_decide_eq_false.
    assert (h - REPLAY_WINDOW_BITS < c <-> Forall (fun d => d - REPLAY_WINDOW_BITS < c) hist) as ->.
    { transitivity (h < c + REPLAY_WINDOW_BITS); [lia|]. rewrite (highest_lt _ _ _ E).
      split; apply List.Forall_impl; intros; lia. }
    tauto.
  - apply highest_None in E as ->. split; [|tauto]. intros [? _].
    split_and!; [done|apply not_elem_of_nil|by constructor].
Qed.

End AcceptedFacts.

(** No transport counter is accepted twice.  Whatever sequence of counters
    is offered to a fresh window, the ones it accepts are pairwise distinct. *)
Theorem replay_accepts_once (counters : list Z) :
  Forall is_u64 counters -> NoDup (accepted counters).
Proof.
  intros H. apply AcceptedFacts.accepted_NoDup.
  eapply List.Forall_impl; [|exact H]. unfold is_uint. intros; lia.
Qed.

Lemma replay_accepts_once_witness :
  accepted [7; 5; 7; 1000000; 7; 999999; 999999] = [7; 5; 1000000; 999999] /\
  NoDup [7; 5; 1000000; 999999].
Proof.
  split; [vm_compute; reflexivity|].
  apply (replay_accepts_once [7; 5; 7; 1000000; 7; 999999; 999999]).
  repeat constructor; unfold is_uint; lia.
Defined.

(** C6: The bitmap window decides exactly the specification.  After any run, a
    further counter is accepted if and only if it is below the rekey limit, was
    not accepted before, and lies less than 1024 below every accepted counter:
    replays and stale counters are refused, and no fresh one ever is. *)
Theorem replay_accept_exact (counters : list Z) (c : Z) :
  Forall is_u64 counters -> is_u64 c ->
  fst (ReplayWindow.accept (snd (ReplayWindow.run ReplayWindow.new counters)) c) = true <->
  c < REJECT_AFTER_MESSAGES /\ (c ∉ accepted counters) /\
  Forall (fun d => d - REPLAY_WINDOW_BITS < c) (accepted counters).
Proof.
  intros Hcs Hc.
  assert (Forall (fun c => 0 <= c) counters) as Hnn
    by (eapply List.Forall_impl; [|exact Hcs]; unfold is_uint; intros; lia).
  destruct (Refinement.accept_refines _ _ c (AcceptedFacts.accepted_related _ Hnn)
              ltac:(unfold is_uint in Hc; lia)) as [-> _].
  rewrite AcceptedFacts.spec_accept_iff, Forall_reverse, elem_of_reverse. done.
Qed.

Lemma replay_accept_exact_witness :
  fst (ReplayWindow.accept (snd (ReplayWindow.run ReplayWindow.new [2048; 1500])) 1025) = true.
Proof.
  apply (replay_accept_exact [2048; 1500] 1025).
  - repeat constructor; unfold is_uint; lia.
  - unfold is_uint; lia.
  - replace (accepted [2048; 1500]) with [2048; 1500] by (vm_compute; reflexivity).
    split_and!; [vm_compute; reflexivity|rewrite !not_elem_of_cons; split_and!; [lia|lia|apply not_elem_of_nil]|].
    unfold REPLAY_WINDOW_BITS. repeat constructor; lia.
Defined.
