(* ===== verification/Messages.v ===== *)
(** * WireGuard's wire formats and the inner IP length

    [crates/wg-core/src/messages.rs], [crates/wg-core/src/ip.rs] and the error
    type of [crates/wg-core/src/lib.rs].  A [Range<usize>] constant is the pair
    of its bounds. *)

From S2P Require Import Prelude Timers.

(** [wg_core::Error] *)
Inductive Error : Type :=
| Malformed | InvalidMac | InvalidPublicKey | Decryption | UnknownPeer | UnknownSession
| StaleTimestamp | Replay | SessionExpired | NoSession | Unconfirmed | RateLimited
| BufferTooSmall | TooManyPeers | Unsupported.

#[export] Instance Error_eq_dec : EqDecision Error.
Proof. solve_decision. Defined.

Definition TYPE_INITIATION : Z := 1.
Definition TYPE_RESPONSE : Z := 2.
Definition TYPE_COOKIE_REPLY : Z := 3.
Definition TYPE_DATA : Z := 4.

Module initiation.
Definition LEN : Z := 148.
Definition SENDER : Z * Z := (4, 8).
Definition EPHEMERAL : Z * Z := (8, 40).
Definition STATIC : Z * Z := (40, 88).
Definition TIMESTAMP : Z * Z := (88, 116).
Definition MAC1 : Z * Z := (116, 132).
Definition MAC2 : Z * Z := (132, 148).
Definition MAC1_INPUT : Z * Z := (0, 116).
End initiation.

Module response.
Definition LEN : Z := 92.
Definition SENDER : Z * Z := (4, 8).
Definition RECEIVER : Z * Z := (8, 12).
Definition EPHEMERAL : Z * Z := (12, 44).
Definition EMPTY : Z * Z := (44, 60).
Definition MAC1 : Z * Z := (60, 76).
Definition MAC2 : Z * Z := (76, 92).
Definition MAC1_INPUT : Z * Z := (0, 60).
End response.

Module data.
Definition HEADER_LEN : Z := 16.
Definition RECEIVER : Z * Z := (4, 8).
Definition COUNTER : Z * Z := (8, 16).
End data.

Definition message_type (datagram : bytes) : res Error Z := ok_or (get_at 0 datagram) Malformed.

(** Writes the type byte and three reserved zero bytes; panics below four bytes. *)
Definition put_header (out : bytes) (ty : Z) : res Error bytes :=
  let! out := or_panic (set_at 0 ty out) in
  or_panic (fill_zero 1 4 out).

(** [u32::from_le_bytes(bytes.try_into().expect(..))] *)
Definition get_u32 (b : bytes) : res Error Z := if len b =? 4 then Ok (of_le b) else Panic.
Definition get_u64 (b : bytes) : res Error Z := if len b =? 8 then Ok (of_le b) else Panic.

(** ** ip.rs *)

Definition IPV4 : Z := 4.
Definition IPV6 : Z := 6.
Definition IPV6_HEADER_LEN : Z := 40.

Definition packet_len (padded : bytes) : option Z :=
  let? first := get_at 0 padded in
  let version := Z.shiftr first 4 in
  let? n :=
    (if version =? IPV4 then
       let? total := get_range 2 4 padded in Some (of_be total)
     else if version =? IPV6 then
       let? payload := get_range 4 6 padded in Some (of_be payload + IPV6_HEADER_LEN)
     else None) in
  if n <=? len padded then Some n else None.

(** ** Facts *)

(** The declared length does not depend on the padding behind it. *)
Lemma get_at_app {A} i (l k : list A) : i < len l -> get_at i (l ++ k) = get_at i l.
Proof.
  intros. unfold get_at. destruct (0 <=? i) eqn:E; [|done].
  bool_hyps. apply lookup_app_l. unfold len in *; lia.
Qed.

Lemma get_range_app {A} a b (l k : list A) :
  b <= len l -> get_range a b (l ++ k) = get_range a b l.
Proof.
  intros Hb. destruct (decide (0 <= a <= b)).
  - rewrite !get_range_in by (rewrite ?len_app; nonneg_lens; lia). f_equal.
    unfold sub_range, ztake, zdrop. rewrite drop_app_le by (unfold len in *; lia).
    rewrite take_app_le; [done|]. rewrite length_drop. unfold len in *. lia.
  - by rewrite !(proj2 (get_range_None _ _ _)) by lia.
Qed.

Lemma packet_len_pad packet pad :
  packet_len packet = Some (len packet) -> packet_len (packet ++ pad) = Some (len packet).
Proof.
  unfold packet_len. destruct (get_at 0 packet) as [b|] eqn:E0; [|done].
  pose proof (get_at_Some_len _ _ _ E0) as Hl. rewrite get_at_app, E0 by lia. cbv beta iota.
  rewrite len_app. nonneg_lens.
  case_if; [|case_if; [|done]].
  - destruct (get_range 2 4 packet) eqn:E; [|done]. apply get_range_Some in E as (?&?&?).
    rewrite get_range_app by lia. rewrite get_range_in by lia. subst l. cbv beta iota.
    intros Hx. repeat case_if; bool_hyps; try done; simplify_eq; f_equal; lia.
  - destruct (get_range 4 6 packet) eqn:E; [|done]. apply get_range_Some in E as (?&?&?).
    rewrite get_range_app by lia. rewrite get_range_in by lia. subst l. cbv beta iota.
    intros Hx. repeat case_if; bool_hyps; try done; simplify_eq; f_equal; lia.
Qed.

Lemma packet_len_le padded n : packet_len padded = Some n -> n <= len padded.
Proof.
  unfold packet_len. destruct (get_at 0 padded); [|done].
  repeat case_match; try done; intros [= <-]; by bool_hyps.
Qed.

(** The front of a buffer, sliced to the length the packet there declares. *)
Lemma slice_front {E A} n (l k : list A) : 0 <= n <= len l -> @slice E A (0, n) (l ++ k) = Ok (ztake n l).
Proof.
  intros Hn. unfold slice; simpl. rewrite get_range_app, get_range_in by lia.
  unfold or_panic, sub_range, zdrop. by rewrite Z.sub_0_r.
Qed.

Lemma packet_len_nonneg padded n : bytes_ok padded -> packet_len padded = Some n -> 0 <= n.
Proof.
  intros Hb. unfold packet_len. destruct (get_at 0 padded); [|done].
  assert (forall a b l, get_range a b padded = Some l -> 0 <= of_be l) as Hr.
  { intros a b l (_ & _ & ->)%get_range_Some. apply of_be_bound. by apply bytes_ok_sub_range. }
  repeat case_match; simplify_option_eq; try done; intros [= <-];
    match goal with E : get_range _ _ _ = Some _ |- _ => apply Hr in E end; unfold IPV6_HEADER_LEN; lia.
Qed.

Lemma put_header_fields b0 b1 fs ty :
  len b0 = 1 -> len b1 = 3 ->
  put_header (concat (b0 :: b1 :: fs)) ty = Ok (concat ([ty] :: zeros 3 :: fs)).
Proof.
  intros H0 H1. unfold put_header, set_at.
  rewrite (copy_field 0 (b0 :: b1 :: fs) b0) by (done || (simpl; llia)).
  cbn [or_panic rbind]. unfold fill_zero.
  rewrite (copy_field 1 (<[0%nat := [ty]]> (b0 :: b1 :: fs)) b1) by (done || (simpl; llia)).
  done.
Qed.
