(* ===== verification/Crypto.v ===== *)
(** * The primitives, as an interface, and their WireGuard shapes

    [crates/wg-core/src/crypto.rs].  BLAKE2s, HMAC, ChaCha20-Poly1305 and X25519
    are third-party crates: they are the fields of the class [Primitives], and
    what the code relies on is the class [PrimitivesOk].  The functions of the
    module (the KDF, the nonce layouts, the length and contributory checks) are
    defined on top of them.  [Toy] is an instance that satisfies the laws. *)

From S2P Require Import Prelude Timers Messages.

(** What the published crates compute.  A digest fed several slices is the
    digest of their concatenation. *)
Class Primitives := {
  blake2s256 : bytes -> bytes;
  blake2s_mac16 : bytes -> bytes -> bytes;
  hmac_blake2s : bytes -> bytes -> bytes;
  x25519_base : bytes -> bytes;
  diffie_hellman : bytes -> bytes -> bytes;
  was_contributory : bytes -> bool;
  (* key, nonce, additional data, plaintext: the ciphertext and the tag *)
  chacha_seal : bytes -> bytes -> bytes -> bytes -> bytes * bytes;
  (* key, nonce, additional data, ciphertext, tag: the plaintext *)
  chacha_open : bytes -> bytes -> bytes -> bytes -> bytes -> option bytes;
}.

(** Documented behaviour the protocol code depends on: output sizes, agreement
    of X25519, and that the AEAD opens what it sealed. *)
Class PrimitivesOk (P : Primitives) := {
  len_blake2s x : len (blake2s256 x) = 32;
  len_mac16 k x : len (blake2s_mac16 k x) = 16;
  len_hmac k x : len (hmac_blake2s k x) = 32;
  len_base s : len (x25519_base s) = 32;
  len_dh s p : len (diffie_hellman s p) = 32;
  dh_agree a b : diffie_hellman a (x25519_base b) = diffie_hellman b (x25519_base a);
  len_seal k n ad m : len (fst (chacha_seal k n ad m)) = len m;
  len_tag k n ad m : len (snd (chacha_seal k n ad m)) = 16;
  open_seal k n ad m :
    chacha_open k n ad (fst (chacha_seal k n ad m)) (snd (chacha_seal k n ad m)) = Some m;
  len_open k n ad c t m : chacha_open k n ad c t = Some m -> len m = len c;
}.

Definition KEY_LEN : Z := 32.
Definition MAC_LEN : Z := 16.
Definition TIMESTAMP_LEN : Z := 12.
Definition NONCE_LEN : Z := 12.

Section Crypto.
Context `{P : Primitives}.

Definition hash (inputs : list bytes) : bytes := blake2s256 (concat inputs).

Definition mac (key : bytes) (inputs : list bytes) : bytes := blake2s_mac16 key (concat inputs).

Definition hmac (key : bytes) (inputs : list bytes) : bytes := hmac_blake2s key (concat inputs).

(** The loop of [kdf]: slot [i] is [HMAC(t0, prev ‖ i+1)], the first one
    without [prev]. *)
Fixpoint kdf_slots (n : nat) (i : Z) (t0 prev : bytes) : list bytes :=
  match n with
  | O => []
  | S n =>
      let counter := [wrap 8 (i + 1)] in
      let slot := if i =? 0 then hmac t0 [counter] else hmac t0 [prev; counter] in
      slot :: kdf_slots n (i + 1) t0 slot
  end.

Definition kdf (n : nat) (chaining_key input : bytes) : list bytes :=
  kdf_slots n 0 (hmac chaining_key [input]) (zeros KEY_LEN).

Definition kdf1 (chaining_key input : bytes) : bytes :=
  match kdf 1 chaining_key input with [a] => a | _ => [] end.
Definition kdf2 (chaining_key input : bytes) : bytes * bytes :=
  match kdf 2 chaining_key input with [a; b] => (a, b) | _ => ([], []) end.
Definition kdf3 (chaining_key input : bytes) : bytes * bytes * bytes :=
  match kdf 3 chaining_key input with [a; b; c] => (a, b, c) | _ => ([], [], []) end.

(** X25519, rejecting a non-contributory result. *)
Definition dh (secret public : bytes) : res Error bytes :=
  let shared := diffie_hellman secret public in
  if was_contributory shared then Ok shared else Err InvalidPublicKey.

(** [nonce[4..].copy_from_slice(&counter.to_le_bytes())] on twelve zero bytes. *)
Definition nonce_le (counter : Z) : bytes := zeros 4 ++ to_le 8 counter.

Definition aead_seal_nonce (key nonce aad buffer : bytes) : bytes * bytes :=
  chacha_seal key nonce aad buffer.

Definition aead_open_nonce (key nonce aad buffer tag : bytes) : res Error bytes :=
  if negb (len tag =? TAG_LEN) then Err Malformed
  else ok_or (chacha_open key nonce aad buffer tag) Decryption.

Definition aead_seal (key : bytes) (counter : Z) (aad buffer : bytes) : bytes * bytes :=
  aead_seal_nonce key (nonce_le counter) aad buffer.

Definition aead_open (key : bytes) (counter : Z) (aad buffer tag : bytes) : res Error bytes :=
  aead_open_nonce key (nonce_le counter) aad buffer tag.

Definition ct_eq (a b : bytes) : bool := bytes_eqb a b.

(** ** Facts *)

Context {POk : PrimitivesOk P}.

Lemma len_hash l : len (hash l) = 32.
Proof. apply len_blake2s. Qed.
Lemma len_mac k l : len (mac k l) = 16.
Proof. apply len_mac16. Qed.
Lemma len_kdf1 k x : len (kdf1 k x) = 32.
Proof. apply len_hmac. Qed.
Lemma len_kdf2 k x : len (fst (kdf2 k x)) = 32 /\ len (snd (kdf2 k x)) = 32.
Proof. split; apply len_hmac. Qed.

Lemma aead_open_seal k c ad m :
  aead_open k c ad (fst (aead_seal k c ad m)) (snd (aead_seal k c ad m)) = Ok m.
Proof.
  unfold aead_open, aead_open_nonce, aead_seal, aead_seal_nonce.
  by rewrite len_tag, open_seal.
Qed.

Lemma dh_comm a b : dh a (x25519_base b) = dh b (x25519_base a).
Proof. unfold dh. by rewrite dh_agree. Qed.

Lemma aead_open_len k c ad x t m : aead_open k c ad x t = Ok m -> len m = len x.
Proof.
  unfold aead_open, aead_open_nonce. case_if; [done|]. rewrite ok_or_Ok. apply len_open.
Qed.

(** Distinct counters never share a nonce. *)
Lemma nonce_le_inj c d : is_u64 c -> is_u64 d -> nonce_le c = nonce_le d -> c = d.
Proof.
  unfold nonce_le. intros Hc Hd H. apply app_inv_head in H.
  apply (to_le_inj 8); [apply Hc|apply Hd|done].
Qed.

End Crypto.

(** An AEAD opens bytes to bytes. *)
Class ByteCipher (P : Primitives) := {
  open_bytes k n ad c t m : bytes_ok c -> chacha_open k n ad c t = Some m -> bytes_ok m;
}.

(** ** A toy instance

    Not cryptography: a concrete set of functions for which the laws hold, so
    that theorems over the interface can be evaluated on concrete inputs.  The
    "curve" adds byte strings, the "cipher" is the identity and its tag is a
    checksum of everything it is given. *)

Module Toy.

Fixpoint sum_bytes (acc : Z) (l : bytes) : Z :=
  match l with [] => acc | b :: l => sum_bytes ((acc * 31 + b + 7) mod 65521) l end.

Definition digest (n : nat) (salt : Z) (x : bytes) : bytes :=
  to_le n (sum_bytes salt x * 2654435761 * 40503).

Definition pad32 (x : bytes) : bytes := take 32 (x ++ replicate 32 0).

Definition add_bytes (a b : bytes) : bytes :=
  zip_with (fun x y => (x + y) mod 256) (pad32 a) (pad32 b).

Definition tag (k n ad m : bytes) : bytes := digest 16 (sum_bytes 5 k) (n ++ ad ++ m).

#[export] Instance prims : Primitives := {|
  blake2s256 x := digest 32 1 x;
  blake2s_mac16 k x := digest 16 (sum_bytes 2 k) x;
  hmac_blake2s k x := digest 32 (sum_bytes 3 k) x;
  x25519_base s := pad32 s;
  diffie_hellman s p := add_bytes s p;
  was_contributory s := negb (bytes_eqb s (zeros 32));
  chacha_seal k n ad m := (m, tag k n ad m);
  chacha_open k n ad c t := if bytes_eqb t (tag k n ad c) then Some c else None;
|}.

Lemma length_pad32 x : length (pad32 x) = 32%nat.
Proof. unfold pad32. rewrite length_take, length_app, length_replicate. lia. Qed.

Lemma pad32_idem x : pad32 (pad32 x) = pad32 x.
Proof.
  unfold pad32 at 1. rewrite take_app_le by (rewrite length_pad32; lia).
  apply take_ge. rewrite length_pad32. lia.
Qed.

Lemma add_bytes_comm a b : add_bytes a (pad32 b) = add_bytes b (pad32 a).
Proof.
  unfold add_bytes. rewrite !pad32_idem. generalize (pad32 a), (pad32 b).
  induction l as [|x l IH]; intros [|y k]; simpl; try done. by rewrite Z.add_comm, IH.
Qed.

#[export] Instance prims_ok : PrimitivesOk prims.
Proof.
  constructor; simpl; intros; unfold tag, digest; rewrite ?len_to_le, ?bytes_eqb_refl; try done.
  - unfold len. by rewrite length_pad32.
  - unfold len, add_bytes. by rewrite length_zip_with, !length_pad32.
  - apply add_bytes_comm.
  - unfold tag, digest in *. case_if; by simplify_eq.
Qed.

End Toy.

#[export] Instance toy_bytes : ByteCipher Toy.prims.
Proof. split. intros k n ad c t m Hc H. simpl in H. case_if; by simplify_eq. Qed.
