(* ===== verification/Noise.v ===== *)
(** * The Noise IKpsk2 handshake, both roles

    [crates/wg-core/src/noise.rs].  The four functions that build and consume
    the two handshake messages, written over an output buffer as the source
    does.  The layout lemmas give the exact bytes each writes; the agreement
    theorem runs the whole ladder through both roles. *)

From S2P Require Import Prelude Timers Messages Crypto.

Section Noise.
Context `{P : Primitives}.

(** b"Noise_IKpsk2_25519_ChaChaPoly_BLAKE2s" *)
Definition CONSTRUCTION : bytes :=
  [78; 111; 105; 115; 101; 95; 73; 75; 112; 115; 107; 50; 95; 50; 53; 53; 49; 57; 95;
   67; 104; 97; 67; 104; 97; 80; 111; 108; 121; 95; 66; 76; 65; 75; 69; 50; 115].
(** b"WireGuard v1 zx2c4 Jason@zx2c4.com" *)
Definition IDENTIFIER : bytes :=
  [87; 105; 114; 101; 71; 117; 97; 114; 100; 32; 118; 49; 32; 122; 120; 50; 99; 52; 32;
   74; 97; 115; 111; 110; 64; 122; 120; 50; 99; 52; 46; 99; 111; 109].
(** b"mac1----" *)
Definition LABEL_MAC1 : bytes := [109; 97; 99; 49; 45; 45; 45; 45].

Definition initial_chaining_key : bytes := hash [CONSTRUCTION].

Definition initial_hash (responder_static : bytes) : bytes :=
  let c := initial_chaining_key in
  let h := hash [c; IDENTIFIER] in
  hash [h; responder_static].

Definition mac1_key (responder_static : bytes) : bytes := hash [LABEL_MAC1; responder_static].

Record Initiation := mkInitiation {
  peer_static : bytes;
  peer_ephemeral : bytes;
  init_peer_index : Z;
  timestamp : bytes;
  init_chaining_key : bytes;
  init_hash : bytes;
}.

Record TransportKeys := mkTransportKeys { receiving : bytes; sending : bytes }.

Record Handshake := mkHandshake {
  ephemeral : bytes;
  hs_chaining_key : bytes;
  hs_hash : bytes;
  hs_local_index : Z;
}.

Definition verify_initiation_mac1 (mac1_key msg : bytes) : res Error unit :=
  if negb (len msg =? initiation.LEN) || negb (at_ 0 msg =? TYPE_INITIATION)
  then Err Malformed else
  let! covered := slice initiation.MAC1_INPUT msg in
  let expected := mac mac1_key [covered] in
  let! given := slice initiation.MAC1 msg in
  if negb (ct_eq expected given) then Err InvalidMac else Ok tt.

Definition consume_initiation (static_private static_public mac1_key msg : bytes)
  : res Error Initiation :=
  let! _ := verify_initiation_mac1 mac1_key msg in
  let chaining_key := initial_chaining_key in
  let hash0 := initial_hash static_public in
  let! peer_ephemeral := slice initiation.EPHEMERAL msg in
  let chaining_key := kdf1 chaining_key peer_ephemeral in
  let hash1 := hash [hash0; peer_ephemeral] in
  (* decrypt the initiator's static key *)
  let! shared := dh static_private peer_ephemeral in
  let (chaining_key, key) := kdf2 chaining_key shared in
  let! sealed_static := slice initiation.STATIC msg in
  let! body := slice (0, 32) sealed_static in
  let! tag := slice (32, 32 + TAG_LEN) sealed_static in
  let! peer_static := aead_open key 0 hash1 body tag in
  let hash2 := hash [hash1; sealed_static] in
  (* decrypt the timestamp *)
  let! shared := dh static_private peer_static in
  let (chaining_key, key) := kdf2 chaining_key shared in
  let! sealed_timestamp := slice initiation.TIMESTAMP msg in
  let! body := slice (0, TIMESTAMP_LEN) sealed_timestamp in
  let! tag := slice (TIMESTAMP_LEN, TIMESTAMP_LEN + TAG_LEN) sealed_timestamp in
  let! timestamp := aead_open key 0 hash2 body tag in
  let hash3 := hash [hash2; sealed_timestamp] in
  let! sender := slice initiation.SENDER msg in
  let! peer_index := get_u32 sender in
  Ok (mkInitiation peer_static peer_ephemeral peer_index timestamp chaining_key hash3).

(** The message is the prefix of [out] the function borrowed and filled. *)
Definition create_response (ini : Initiation) (preshared_key : bytes) (local_index : Z)
    (ephemeral_private out : bytes) : res Error (bytes * TransportKeys) :=
  let! out := ok_or (get_range 0 response.LEN out) BufferTooSmall in
  let! out := put_header out TYPE_RESPONSE in
  let! out := slice_copy response.SENDER (to_le 4 local_index) out in
  let! out := slice_copy response.RECEIVER (to_le 4 (init_peer_index ini)) out in
  let ephemeral_public := x25519_base ephemeral_private in
  let! out := slice_copy response.EPHEMERAL ephemeral_public out in
  let chaining_key := kdf1 (init_chaining_key ini) ephemeral_public in
  let hash1 := hash [init_hash ini; ephemeral_public] in
  let! shared := dh ephemeral_private (peer_ephemeral ini) in
  let chaining_key := kdf1 chaining_key shared in
  let! shared := dh ephemeral_private (peer_static ini) in
  let chaining_key := kdf1 chaining_key shared in
  let '(chaining_key, tau, key) := kdf3 chaining_key preshared_key in
  let hash2 := hash [hash1; tau] in
  let (_, tag) := aead_seal key 0 hash2 [] in
  let! out := slice_copy response.EMPTY tag out in
  let mac1_key := hash [LABEL_MAC1; peer_static ini] in
  let! covered := slice response.MAC1_INPUT out in
  let mac1 := mac mac1_key [covered] in
  let! out := slice_copy response.MAC1 mac1 out in
  let! out := or_panic (fill_zero response.MAC2.1 response.MAC2.2 out) in
  let (initiator_sending, initiator_receiving) := kdf2 chaining_key [] in
  Ok (out, mkTransportKeys initiator_sending initiator_receiving).

Definition create_initiation (static_private static_public responder_static : bytes)
    (local_index : Z) (ephemeral_private timestamp out : bytes)
  : res Error (bytes * Handshake) :=
  let! out := ok_or (get_range 0 initiation.LEN out) BufferTooSmall in
  let chaining_key := initial_chaining_key in
  let hash0 := initial_hash responder_static in
  let! out := put_header out TYPE_INITIATION in
  let! out := slice_copy initiation.SENDER (to_le 4 local_index) out in
  let ephemeral_public := x25519_base ephemeral_private in
  let! out := slice_copy initiation.EPHEMERAL ephemeral_public out in
  let chaining_key := kdf1 chaining_key ephemeral_public in
  let hash1 := hash [hash0; ephemeral_public] in
  (* seal our static public key *)
  let! shared := dh ephemeral_private responder_static in
  let (chaining_key, key) := kdf2 chaining_key shared in
  let (sealed, tag) := aead_seal key 0 hash1 static_public in
  let! out := slice_copy (40, 40 + KEY_LEN) sealed out in
  let! out := slice_copy (40 + KEY_LEN, 88) tag out in
  let! sealed_static := slice initiation.STATIC out in
  let hash2 := hash [hash1; sealed_static] in
  (* seal the timestamp *)
  let! shared := dh static_private responder_static in
  let (chaining_key, key) := kdf2 chaining_key shared in
  let (sealed, tag) := aead_seal key 0 hash2 timestamp in
  let! out := slice_copy (88, 88 + TIMESTAMP_LEN) sealed out in
  let! out := slice_copy (88 + TIMESTAMP_LEN, 116) tag out in
  let! sealed_timestamp := slice initiation.TIMESTAMP out in
  let hash3 := hash [hash2; sealed_timestamp] in
  let! covered := slice initiation.MAC1_INPUT out in
  let mac1 := mac (mac1_key responder_static) [covered] in
  let! out := slice_copy initiation.MAC1 mac1 out in
  let! out := or_panic (fill_zero initiation.MAC2.1 initiation.MAC2.2 out) in
  Ok (out, mkHandshake ephemeral_private chaining_key hash3 local_index).

Definition verify_response_mac1 (mac1_key msg : bytes) : res Error unit :=
  if negb (len msg =? response.LEN) || negb (at_ 0 msg =? TYPE_RESPONSE)
  then Err Malformed else
  let! covered := slice response.MAC1_INPUT msg in
  let expected := mac mac1_key [covered] in
  let! given := slice response.MAC1 msg in
  if negb (ct_eq expected given) then Err InvalidMac else Ok tt.

Definition consume_response (handshake : Handshake) (static_private preshared_key msg : bytes)
  : res Error (Z * TransportKeys) :=
  if negb (len msg =? response.LEN) || negb (at_ 0 msg =? TYPE_RESPONSE)
  then Err Malformed else
  let! receiver := slice response.RECEIVER msg in
  let! receiver := get_u32 receiver in
  if negb (receiver =? hs_local_index handshake) then Err UnknownSession else
  let! peer_ephemeral := slice response.EPHEMERAL msg in
  let chaining_key := kdf1 (hs_chaining_key handshake) peer_ephemeral in
  let hash1 := hash [hs_hash handshake; peer_ephemeral] in
  let! shared := dh (ephemeral handshake) peer_ephemeral in
  let chaining_key := kdf1 chaining_key shared in
  let! shared := dh static_private peer_ephemeral in
  let chaining_key := kdf1 chaining_key shared in
  let '(chaining_key, tau, key) := kdf3 chaining_key preshared_key in
  let hash2 := hash [hash1; tau] in
  let! tag := slice response.EMPTY msg in
  let! _ := aead_open key 0 hash2 [] tag in
  let (sending, receiving) := kdf2 chaining_key [] in
  let! sender := slice response.SENDER msg in
  let! sender := get_u32 sender in
  Ok (sender, mkTransportKeys receiving sending).

End Noise.

(** [candidate > last_seen] on arrays: lexicographic on the bytes. *)
Fixpoint lex_lt (a b : bytes) : bool :=
  match a, b with
  | [], [] => false
  | [], _ :: _ => true
  | _ :: _, [] => false
  | x :: a, y :: b => if x =? y then lex_lt a b else x <? y
  end.

Definition timestamp_is_newer (candidate last_seen : bytes) : bool := lex_lt last_seen candidate.

(** ** The bytes each message consists of *)

(** Write or read one field of a buffer given as the list of its fields. *)
Ltac wire_consts :=
  unfold initiation.SENDER, initiation.EPHEMERAL, initiation.STATIC, initiation.TIMESTAMP,
    initiation.MAC1, initiation.MAC2, initiation.MAC1_INPUT, initiation.LEN,
    response.SENDER, response.RECEIVER, response.EPHEMERAL, response.EMPTY, response.MAC1,
    response.MAC2, response.MAC1_INPUT, response.LEN, KEY_LEN, TIMESTAMP_LEN, TAG_LEN.
Ltac put_field k :=
  unfold slice_copy, fill_zero; wire_consts; cbn [fst snd]; write_field k.
Ltac read_fields i j :=
  unfold slice; wire_consts; cbn [fst snd]; read_field i j.

Section Layout.
Context `{P : Primitives} {POk : PrimitivesOk P}.

#[local] Hint Rewrite len_hash len_mac len_kdf1 len_base len_seal len_tag : len.

(** What an initiator derives on the way, given its two shared secrets. *)
Record initiation_secrets := {
  is_key1 : bytes; is_hash1 : bytes; is_key2 : bytes; is_hash2 : bytes;
  is_chaining : bytes; is_hash3 : bytes;
  is_sealed_static : bytes; is_sealed_timestamp : bytes }.

Definition secrets_of (static_public responder_static eph_pub ts s1 s2 : bytes)
  : initiation_secrets :=
  let ck0 := kdf1 initial_chaining_key eph_pub in
  let h1 := hash [initial_hash responder_static; eph_pub] in
  let (ck1, k1) := kdf2 ck0 s1 in
  let (c1, t1) := aead_seal k1 0 h1 static_public in
  let h2 := hash [h1; c1 ++ t1] in
  let (ck2, k2) := kdf2 ck1 s2 in
  let (c2, t2) := aead_seal k2 0 h2 ts in
  {| is_key1 := k1; is_hash1 := h1; is_key2 := k2; is_hash2 := h2; is_chaining := ck2;
     is_hash3 := hash [h2; c2 ++ t2]; is_sealed_static := c1 ++ t1;
     is_sealed_timestamp := c2 ++ t2 |}.

Definition initiation_fields (static_public responder_static : bytes) (local_index : Z)
    (eph_pub ts s1 s2 : bytes) : list bytes :=
  let s := secrets_of static_public responder_static eph_pub ts s1 s2 in
  let covered := [TYPE_INITIATION] ++ zeros 3 ++ to_le 4 local_index ++ eph_pub ++
                 is_sealed_static s ++ is_sealed_timestamp s in
  [ [TYPE_INITIATION]; zeros 3; to_le 4 local_index; eph_pub; is_sealed_static s;
    is_sealed_timestamp s; mac (mac1_key responder_static) [covered]; zeros 16 ].

Lemma create_initiation_shape sp spub rs idx e ts out :
  len spub = 32 -> len ts = 12 -> initiation.LEN <= len out ->
  create_initiation sp spub rs idx e ts out =
  let! s1 := dh e rs in let! s2 := dh sp rs in
  let s := secrets_of spub rs (x25519_base e) ts s1 s2 in
  Ok (concat (initiation_fields spub rs idx (x25519_base e) ts s1 s2),
      mkHandshake e (is_chaining s) (is_hash3 s) idx).
Proof.
  intros Hspub Hts Hout. unfold create_initiation, initiation.LEN in *.
  rewrite get_range_in by lia. cbn [ok_or rbind].
  assert (Hlen : len (sub_range 0 148 out) = 148) by (apply len_sub_range; lia).
  revert Hlen. generalize (sub_range 0 148 out). intros buf Hlen.
  name_fields buf [1; 3; 4; 32; 32; 16; 12; 16; 16; 16].
  rewrite put_header_fields by done. cbn [rbind].
  put_field 2%nat. put_field 3%nat. destruct (dh e rs) as [s1| | |]; cbn [rbind]; try reflexivity.
  destruct (kdf2 _ s1) as [ck1 k1] eqn:Ek1.
  pose proof (len_seal k1 (nonce_le 0) (hash [initial_hash rs; x25519_base e]) spub).
  pose proof (len_tag k1 (nonce_le 0) (hash [initial_hash rs; x25519_base e]) spub).
  unfold aead_seal at 1, aead_seal_nonce at 1.
  destruct (chacha_seal k1 _ _ spub) as [c1 t1] eqn:Ec1; cbn [fst snd] in *.
  put_field 4%nat. put_field 5%nat. read_fields 4%nat 6%nat.
  destruct (dh sp rs) as [s2| | |]; cbn [rbind]; try reflexivity. destruct (kdf2 ck1 s2) as [ck2 k2] eqn:Ek2.
  replace (concat [c1; t1]) with (c1 ++ t1) by (simpl; by rewrite app_nil_r).
  set (h2 := hash [_; c1 ++ t1]).
  pose proof (len_seal k2 (nonce_le 0) h2 ts). pose proof (len_tag k2 (nonce_le 0) h2 ts).
  unfold aead_seal at 1, aead_seal_nonce at 1.
  destruct (chacha_seal k2 _ _ ts) as [c2 t2] eqn:Ec2; cbn [fst snd] in *.
  put_field 6%nat. put_field 7%nat. read_fields 6%nat 8%nat. read_fields 0%nat 8%nat.
  put_field 8%nat. put_field 9%nat.
  unfold initiation_fields, secrets_of. rewrite Ek1.
  unfold aead_seal, aead_seal_nonce. rewrite Ec1, Ek2. fold h2. rewrite Ec2.
  cbn [is_chaining is_hash3 is_sealed_static is_sealed_timestamp concat].
  rewrite !app_nil_r, <- !app_assoc. done.
Qed.

Lemma create_initiation_layout sp spub rs idx e ts out s1 s2 :
  len spub = 32 -> len ts = 12 -> initiation.LEN <= len out ->
  dh e rs = Ok s1 -> dh sp rs = Ok s2 ->
  let s := secrets_of spub rs (x25519_base e) ts s1 s2 in
  create_initiation sp spub rs idx e ts out =
  Ok (concat (initiation_fields spub rs idx (x25519_base e) ts s1 s2),
      mkHandshake e (is_chaining s) (is_hash3 s) idx).
Proof. intros. rewrite create_initiation_shape by done. by rewrite H2, H3. Qed.

Definition response_fields (ini : Initiation) (preshared_key : bytes) (local_index : Z)
    (eph_pub s3 s4 : bytes) : list bytes :=
  let ck := kdf1 (kdf1 (kdf1 (init_chaining_key ini) eph_pub) s3) s4 in
  let '(_, tau, key) := kdf3 ck preshared_key in
  let tag := snd (aead_seal key 0 (hash [hash [init_hash ini; eph_pub]; tau]) []) in
  let covered := [TYPE_RESPONSE] ++ zeros 3 ++ to_le 4 local_index ++
                 to_le 4 (init_peer_index ini) ++ eph_pub ++ tag in
  [ [TYPE_RESPONSE]; zeros 3; to_le 4 local_index; to_le 4 (init_peer_index ini); eph_pub;
    tag; mac (mac1_key (peer_static ini)) [covered]; zeros 16 ].

(** The initiator's sending and receiving keys. *)
Definition session_keys (ini : Initiation) (preshared_key eph_pub s3 s4 : bytes) : bytes * bytes :=
  let ck := kdf1 (kdf1 (kdf1 (init_chaining_key ini) eph_pub) s3) s4 in
  let '(ck, _, _) := kdf3 ck preshared_key in kdf2 ck [].

Lemma create_response_shape ini psk idx e out :
  response.LEN <= len out ->
  create_response ini psk idx e out =
  let! s3 := dh e (peer_ephemeral ini) in let! s4 := dh e (peer_static ini) in
  Ok (concat (response_fields ini psk idx (x25519_base e) s3 s4),
      let (i_send, i_recv) := session_keys ini psk (x25519_base e) s3 s4 in
      mkTransportKeys i_send i_recv).
Proof.
  intros Hout. unfold create_response, response.LEN in *.
  rewrite get_range_in by lia. cbn [ok_or rbind].
  assert (Hlen : len (sub_range 0 92 out) = 92) by (apply len_sub_range; lia).
  revert Hlen. generalize (sub_range 0 92 out). intros buf Hlen.
  name_fields buf [1; 3; 4; 4; 32; 16; 16; 16].
  rewrite put_header_fields by done. cbn [rbind].
  put_field 2%nat. put_field 3%nat. put_field 4%nat. 
  destruct (dh e (peer_ephemeral ini)) as [s3| | |]; cbn [rbind]; try reflexivity.
  destruct (dh e (peer_static ini)) as [s4| | |]; cbn [rbind]; try reflexivity.
  unfold response_fields, session_keys.
  destruct (kdf3 _ psk) as [[ck tau] key] eqn:Ek.
  set (h2 := hash [_; tau]). unfold aead_seal, aead_seal_nonce.
  pose proof (len_tag key (nonce_le 0) h2 []).
  destruct (chacha_seal key _ h2 []) as [c t] eqn:Ec; cbn [fst snd] in *.
  put_field 5%nat. read_fields 0%nat 6%nat. put_field 6%nat. put_field 7%nat.
  destruct (kdf2 ck []) as [a b]. unfold mac1_key.
  cbn [concat]. by rewrite !app_nil_r.
Qed.

Lemma create_response_layout ini psk idx e out s3 s4 :
  response.LEN <= len out ->
  dh e (peer_ephemeral ini) = Ok s3 -> dh e (peer_static ini) = Ok s4 ->
  create_response ini psk idx e out =
  Ok (concat (response_fields ini psk idx (x25519_base e) s3 s4),
      let (i_send, i_recv) := session_keys ini psk (x25519_base e) s3 s4 in
      mkTransportKeys i_send i_recv).
Proof. intros. rewrite create_response_shape by done. by rewrite H0, H1. Qed.

(** ** What the receiving side reads back *)

Lemma len_sealed spub rs ep ts s1 s2 :
  len spub = 32 -> len ts = 12 ->
  let s := secrets_of spub rs ep ts s1 s2 in
  len (is_sealed_static s) = 48 /\ len (is_sealed_timestamp s) = 28.
Proof.
  intros H1 H2 s. unfold s, secrets_of.
  destruct (kdf2 _ s1) as [ck1 k1]. unfold aead_seal, aead_seal_nonce.
  pose proof (len_seal k1 (nonce_le 0) (hash [initial_hash rs; ep]) spub).
  pose proof (len_tag k1 (nonce_le 0) (hash [initial_hash rs; ep]) spub).
  destruct (chacha_seal k1 _ _ spub) as [c1 t1]; cbn [fst snd] in *.
  destruct (kdf2 ck1 s2) as [ck2 k2].
  pose proof (len_seal k2 (nonce_le 0) (hash [hash [initial_hash rs; ep]; c1 ++ t1]) ts).
  pose proof (len_tag k2 (nonce_le 0) (hash [hash [initial_hash rs; ep]; c1 ++ t1]) ts).
  destruct (chacha_seal k2 _ _ ts) as [c2 t2]; cbn [fst snd] in *. simpl. llia.
Qed.

Lemma slice_left (a b : bytes) n : len a = n -> @slice Error _ (0, n) (a ++ b) = Ok a.
Proof. intros <-. unfold slice; cbn [fst snd]. by rewrite (get_range_mid 0 _ [] a b). Qed.
Lemma slice_right (a b : bytes) n k : len a = n -> len a + len b = k -> @slice Error _ (n, k) (a ++ b) = Ok b.
Proof.
  intros <- <-. unfold slice; cbn [fst snd].
  pose proof (get_range_mid (len a) (len a + len b) a b [] eq_refl eq_refl) as H.
  rewrite app_nil_r in H. by rewrite H.
Qed.

(** Reading an initiation field by field. *)
Lemma initiation_slices (sender ep st tst m z : bytes) :
  len sender = 4 -> len ep = 32 -> len st = 48 -> len tst = 28 -> len m = 16 -> len z = 16 ->
  let msg := concat [[TYPE_INITIATION]; zeros 3; sender; ep; st; tst; m; z] in
  len msg = 148 /\ at_ 0 msg = TYPE_INITIATION /\
  @slice Error _ initiation.SENDER msg = Ok sender /\
  @slice Error _ initiation.EPHEMERAL msg = Ok ep /\
  @slice Error _ initiation.STATIC msg = Ok st /\
  @slice Error _ initiation.TIMESTAMP msg = Ok tst /\
  @slice Error _ initiation.MAC1_INPUT msg =
    Ok ([TYPE_INITIATION] ++ zeros 3 ++ sender ++ ep ++ st ++ tst) /\
  @slice Error _ initiation.MAC1 msg = Ok m.
Proof.
  intros H1 H2 H3 H4 H5 H6 msg. unfold msg.
  split; [cbn [concat]; llia|]. split; [done|].
  split_and!.
  - read_fields 2%nat 3%nat. cbn [concat]. by rewrite app_nil_r.
  - read_fields 3%nat 4%nat. cbn [concat]. by rewrite app_nil_r.
  - read_fields 4%nat 5%nat. cbn [concat]. by rewrite app_nil_r.
  - read_fields 5%nat 6%nat. cbn [concat]. by rewrite app_nil_r.
  - read_fields 0%nat 6%nat. cbn [concat]. by rewrite app_nil_r.
  - read_fields 6%nat 7%nat. cbn [concat]. by rewrite app_nil_r.
Qed.

(** A responder opens what [create_initiation] wrote for it, and recovers the
    initiator's identity, index, timestamp and chaining state. *)
Lemma consume_initiation_layout rp ep spub idx ts s1 s2 :
  let rs := x25519_base rp in
  let s := secrets_of spub rs ep ts s1 s2 in
  len spub = 32 -> len ts = 12 -> len ep = 32 -> is_u32 idx ->
  dh rp ep = Ok s1 -> dh rp spub = Ok s2 ->
  consume_initiation rp rs (mac1_key rs) (concat (initiation_fields spub rs idx ep ts s1 s2)) =
  Ok (mkInitiation spub ep idx ts (is_chaining s) (is_hash3 s)).
Proof.
  intros rs s Hspub Hts Hep Hidx Hd1 Hd2.
  destruct (len_sealed spub rs ep ts s1 s2 Hspub Hts) as [Hs Ht]. fold s in Hs, Ht.
  unfold initiation_fields. fold s. set (m := mac _ _).
  edestruct (initiation_slices (to_le 4 idx) ep (is_sealed_static s) (is_sealed_timestamp s) m (zeros 16))
    as (Hl & H0 & Hsnd & Heph & Hst & Htst & Hcov & Hmac); [llia|done|done|done|apply len_mac|done|].
  set (msg := concat _) in *. clearbody msg.
  unfold consume_initiation, verify_initiation_mac1. rewrite Hl, H0. cbn [Z.eqb].
  change (148 =? initiation.LEN) with true. change (TYPE_INITIATION =? TYPE_INITIATION) with true.
  cbn [negb orb]. rewrite Hcov. cbn [rbind]. rewrite Hmac. cbn [rbind]. fold m.
  unfold ct_eq. rewrite bytes_eqb_refl. cbn [negb rbind].
  rewrite Heph. cbn [rbind]. rewrite Hd1. cbn [rbind]. rewrite Hst, Htst, Hsnd.
  clear Hst Htst Hsnd Hcov Hmac m. revert Hs Ht. unfold s, secrets_of.
  destruct (kdf2 _ s1) as [ck1 k1]. set (h1 := hash [_; ep]).
  pose proof (aead_open_seal k1 0 h1 spub) as Ho1.
  pose proof (len_seal k1 (nonce_le 0) h1 spub). pose proof (len_tag k1 (nonce_le 0) h1 spub).
  destruct (aead_seal k1 0 h1 spub) as [c1 t1] eqn:E1. unfold aead_seal, aead_seal_nonce in E1.
  rewrite E1 in *. cbn [fst snd] in *.
  destruct (kdf2 ck1 s2) as [ck2 k2] eqn:Ek2. set (h2 := hash [h1; c1 ++ t1]).
  pose proof (aead_open_seal k2 0 h2 ts) as Ho2.
  pose proof (len_seal k2 (nonce_le 0) h2 ts). pose proof (len_tag k2 (nonce_le 0) h2 ts).
  destruct (aead_seal k2 0 h2 ts) as [c2 t2] eqn:E2. unfold aead_seal, aead_seal_nonce in E2.
  rewrite E2 in *. cbn [fst snd] in *.
  cbn [is_sealed_static is_sealed_timestamp is_chaining is_hash3]. intros Hs Ht.
  cbn [rbind]. unfold TIMESTAMP_LEN, TAG_LEN.
  rewrite slice_left by lia. cbn [rbind]. rewrite slice_right by lia. cbn [rbind].
  rewrite Ho1. cbn [rbind]. rewrite Hd2. cbn [rbind]. rewrite Ek2. fold h2.
  rewrite slice_left by lia. cbn [rbind]. rewrite slice_right by lia. cbn [rbind].
  rewrite Ho2. cbn [rbind]. unfold get_u32. rewrite len_to_le.
  rewrite of_to_le_small by apply Hidx. done.
Qed.

(** Reading a response field by field. *)
Lemma response_slices (sender receiver ep tag m z : bytes) :
  len sender = 4 -> len receiver = 4 -> len ep = 32 -> len tag = 16 -> len m = 16 -> len z = 16 ->
  let msg := concat [[TYPE_RESPONSE]; zeros 3; sender; receiver; ep; tag; m; z] in
  len msg = 92 /\ at_ 0 msg = TYPE_RESPONSE /\
  @slice Error _ response.SENDER msg = Ok sender /\
  @slice Error _ response.RECEIVER msg = Ok receiver /\
  @slice Error _ response.EPHEMERAL msg = Ok ep /\
  @slice Error _ response.EMPTY msg = Ok tag /\
  @slice Error _ response.MAC1_INPUT msg =
    Ok ([TYPE_RESPONSE] ++ zeros 3 ++ sender ++ receiver ++ ep ++ tag) /\
  @slice Error _ response.MAC1 msg = Ok m.
Proof.
  intros H1 H2 H3 H4 H5 H6 msg. unfold msg.
  split; [cbn [concat]; llia|]. split; [done|].
  split_and!.
  - read_fields 2%nat 3%nat. cbn [concat]. by rewrite app_nil_r.
  - read_fields 3%nat 4%nat. cbn [concat]. by rewrite app_nil_r.
  - read_fields 4%nat 5%nat. cbn [concat]. by rewrite app_nil_r.
  - read_fields 5%nat 6%nat. cbn [concat]. by rewrite app_nil_r.
  - read_fields 0%nat 6%nat. cbn [concat]. by rewrite app_nil_r.
  - read_fields 6%nat 7%nat. cbn [concat]. by rewrite app_nil_r.
Qed.

(** The initiator accepts the response to its own initiation and derives the
    mirror image of the responder's keys. *)
Lemma consume_response_layout hs sp psk ini ridx re s3 s4 :
  let ep := x25519_base re in
  init_peer_index ini = hs_local_index hs -> is_u32 (hs_local_index hs) -> is_u32 ridx ->
  init_chaining_key ini = hs_chaining_key hs -> init_hash ini = hs_hash hs ->
  dh (ephemeral hs) ep = Ok s3 -> dh sp ep = Ok s4 ->
  let msg := concat (response_fields ini psk ridx ep s3 s4) in
  verify_response_mac1 (mac1_key (peer_static ini)) msg = Ok tt /\
  consume_response hs sp psk msg =
  Ok (ridx, let (i_send, i_recv) := session_keys ini psk ep s3 s4 in mkTransportKeys i_recv i_send).
Proof.
  intros ep Hidx Hu Hr Hck Hh Hd3 Hd4 msg. unfold msg, response_fields, session_keys.
  assert (Hep : len ep = 32) by apply len_base.
  rewrite Hck, Hh, Hidx. destruct (kdf3 _ psk) as [[ck tau] key] eqn:Ek.
  set (h2 := hash [_; tau]).
  pose proof (aead_open_seal key 0 h2 []) as Ho.
  pose proof (len_seal key (nonce_le 0) h2 []). pose proof (len_tag key (nonce_le 0) h2 []).
  destruct (aead_seal key 0 h2 []) as [c t] eqn:E. unfold aead_seal, aead_seal_nonce in E.
  rewrite E in *. cbn [fst snd] in *. assert (c = []) as -> by (apply len_zero_nil; llia).
  set (m := mac _ _).
  edestruct (response_slices (to_le 4 ridx) (to_le 4 (hs_local_index hs)) ep t m (zeros 16))
    as (Hl & H0' & Hsnd & Hrcv & Heph & Hemp & Hcov & Hmac);
    [llia|llia|done|done|apply len_mac|done|].
  set (bs := concat _) in *. clearbody bs. split.
  - unfold verify_response_mac1. rewrite Hl, H0'. change (92 =? response.LEN) with true.
    change (TYPE_RESPONSE =? TYPE_RESPONSE) with true. cbn [negb orb].
    rewrite Hcov. cbn [rbind]. rewrite Hmac. cbn [rbind]. unfold m, ct_eq.
    by rewrite bytes_eqb_refl.
  - unfold consume_response. rewrite Hl, H0'. change (92 =? response.LEN) with true.
    change (TYPE_RESPONSE =? TYPE_RESPONSE) with true. cbn [negb orb].
    rewrite Hrcv. cbn [rbind]. unfold get_u32. rewrite !len_to_le. cbn [Z.of_nat Z.eqb].
    change (Z.pos (Pos.of_succ_nat 3) =? 4) with true. cbv iota. cbn [rbind].
    rewrite of_to_le_small by apply Hu. rewrite Z.eqb_refl. cbn [negb].
    rewrite Heph. cbn [rbind]. rewrite Hd3. cbn [rbind]. rewrite Hd4. cbn [rbind].
    rewrite Ek. fold h2. rewrite Hemp. cbn [rbind]. rewrite Ho. cbn [rbind].
    destruct (kdf2 ck []) as [a b]. rewrite Hsnd. cbn [rbind]. unfold get_u32.
    rewrite len_to_le, of_to_le_small by apply Hr. by rewrite Z.eqb_refl.
Qed.

End Layout.

(** ** Properties *)

Section Agreement.
Context `{P : Primitives} {POk : PrimitivesOk P}.

(** The exchange, with the layout lemmas put together. *)
Lemma handshake_exchange (sp e rp re psk ts out1 out2 s1 s2 s3 s4 : bytes) (idx ridx : Z) :
  len ts = 12 -> is_u32 idx -> is_u32 ridx ->
  initiation.LEN <= len out1 -> response.LEN <= len out2 ->
  dh e (x25519_base rp) = Ok s1 -> dh sp (x25519_base rp) = Ok s2 ->
  dh re (x25519_base e) = Ok s3 -> dh re (x25519_base sp) = Ok s4 ->
  exists msg1 hs ini msg2 rkeys ikeys,
    create_initiation sp (x25519_base sp) (x25519_base rp) idx e ts out1 = Ok (msg1, hs) /\ hs_local_index hs = idx /\
    consume_initiation rp (x25519_base rp) (mac1_key (x25519_base rp)) msg1 = Ok ini /\
    peer_static ini = x25519_base sp /\ init_peer_index ini = idx /\ timestamp ini = ts /\
    create_response ini psk ridx re out2 = Ok (msg2, rkeys) /\
    verify_response_mac1 (mac1_key (x25519_base sp)) msg2 = Ok tt /\
    consume_response hs sp psk msg2 = Ok (ridx, ikeys) /\
    sending ikeys = receiving rkeys /\ receiving ikeys = sending rkeys.
Proof.
  intros Hts Hidx Hridx Ho1 Ho2 Hd1 Hd2 Hd3 Hd4.
  pose proof (create_initiation_layout sp (x25519_base sp) (x25519_base rp) idx e ts out1 s1 s2
    (len_base sp) Hts Ho1 Hd1 Hd2) as Hci.
  rewrite dh_comm in Hd1, Hd2.
  pose proof (consume_initiation_layout rp (x25519_base e) (x25519_base sp) idx ts s1 s2
    (len_base sp) Hts (len_base e) Hidx Hd1 Hd2) as Hcons. simpl in Hci, Hcons.
  set (s := secrets_of _ _ _ _ _ _) in *.
  set (ini := mkInitiation _ _ _ _ _ _) in Hcons. set (hs := mkHandshake _ _ _ _) in Hci.
  pose proof (create_response_layout ini psk ridx re out2 s3 s4 Ho2 Hd3 Hd4) as Hcr.
  rewrite dh_comm in Hd3, Hd4.
  destruct (consume_response_layout hs sp psk ini ridx re s3 s4) as [Hv Hcresp]; try done.
  do 6 eexists. split; [exact Hci|]. split; [done|]. split; [exact Hcons|]. do 3 (split; [done|]).
  split; [exact Hcr|]. split; [exact Hv|]. split; [exact Hcresp|].
  by destruct (session_keys _ _ _ _ _).
Qed.

(** C7: The two roles of the handshake agree.  Let an initiator (static key
    [sp], ephemeral [e]) address a responder (static key [rp], ephemeral [re])
    with the same pre-shared key, all four Diffie-Hellman results contributory
    and both output buffers long enough.  Then every step returns [Ok]: the
    responder recovers the initiator's public key, index and timestamp; the
    response passes the initiator's mac1 check; the initiator learns the
    responder's index; and each side's sending key is the other's receiving key. *)
Theorem handshake_agreement (sp e rp re psk ts out1 out2 s1 s2 s3 s4 : bytes) (idx ridx : Z) :
  len ts = 12 -> is_u32 idx -> is_u32 ridx ->
  initiation.LEN <= len out1 -> response.LEN <= len out2 ->
  dh e (x25519_base rp) = Ok s1 -> dh sp (x25519_base rp) = Ok s2 ->
  dh re (x25519_base e) = Ok s3 -> dh re (x25519_base sp) = Ok s4 ->
  exists msg1 hs ini msg2 rkeys ikeys,
    create_initiation sp (x25519_base sp) (x25519_base rp) idx e ts out1 = Ok (msg1, hs) /\
    consume_initiation rp (x25519_base rp) (mac1_key (x25519_base rp)) msg1 = Ok ini /\
    peer_static ini = x25519_base sp /\ init_peer_index ini = idx /\ timestamp ini = ts /\
    create_response ini psk ridx re out2 = Ok (msg2, rkeys) /\
    verify_response_mac1 (mac1_key (x25519_base sp)) msg2 = Ok tt /\
    consume_response hs sp psk msg2 = Ok (ridx, ikeys) /\
    sending ikeys = receiving rkeys /\ receiving ikeys = sending rkeys.
Proof.
  intros Hts Hidx Hridx Ho1 Ho2 Hd1 Hd2 Hd3 Hd4.
  destruct (handshake_exchange sp e rp re psk ts out1 out2 s1 s2 s3 s4 idx ridx
    Hts Hidx Hridx Ho1 Ho2 Hd1 Hd2 Hd3 Hd4) as (m1 & hs & ini & m2 & rk & ik & ? & _ & H).
  by exists m1, hs, ini, m2, rk, ik.
Qed.

End Agreement.

#[local] Existing Instance Toy.prims.
#[local] Existing Instance Toy.prims_ok.

Lemma handshake_agreement_witness :
  let sp := replicate 32 3 in let rp := replicate 32 5 in
  let e := replicate 32 9 in let re := replicate 32 11 in
  exists msg1 hs ini msg2 rkeys ikeys,
    create_initiation sp (x25519_base sp) (x25519_base rp) 77 e (replicate 12 1) (zeros 148) = Ok (msg1, hs) /\
    consume_initiation rp (x25519_base rp) (mac1_key (x25519_base rp)) msg1 = Ok ini /\
    peer_static ini = x25519_base sp /\ init_peer_index ini = 77 /\ timestamp ini = replicate 12 1 /\
    create_response ini (zeros 32) 99 re (zeros 92) = Ok (msg2, rkeys) /\
    verify_response_mac1 (mac1_key (x25519_base sp)) msg2 = Ok tt /\
    consume_response hs sp (zeros 32) msg2 = Ok (99, ikeys) /\
    sending ikeys = receiving rkeys /\ receiving ikeys = sending rkeys.
Proof.
  intros sp rp e re.
  apply (handshake_agreement sp e rp re (zeros 32) (replicate 12 1) (zeros 148) (zeros 92)
    (replicate 32 14) (replicate 32 8) (replicate 32 20) (replicate 32 14) 77 99);
    solve [vm_compute; reflexivity | vm_compute; intuition discriminate].
Defined.
