(* ===== verification/Transport.v ===== *)
(** * Transport sessions

    [crates/wg-core/src/transport.rs]: sealing outbound packets and opening
    inbound ones.  A method on [&mut self] returns the session after the call
    together with its result. *)

From S2P Require Import Prelude Timers Replay Messages Crypto Noise.

Record Session := mkSession {
  local_index : Z;
  peer_index : Z;
  s_sending : bytes;
  s_receiving : bytes;
  send_counter : Z;
  replay : ReplayWindow.t;
  established : Z;
  confirmed : bool;
}.

Definition session_new (keys : TransportKeys) (local_index peer_index now : Z) : Session :=
  mkSession local_index peer_index (sending keys) (receiving keys) 0 ReplayWindow.new now false.

Definition with_send_counter (s : Session) (c : Z) : Session :=
  mkSession (local_index s) (peer_index s) (s_sending s) (s_receiving s) c (replay s)
    (established s) (confirmed s).
Definition with_replay (s : Session) (w : ReplayWindow.t) : Session :=
  mkSession (local_index s) (peer_index s) (s_sending s) (s_receiving s) (send_counter s) w
    (established s) (confirmed s).

Definition is_confirmed (s : Session) : bool := confirmed s.

Definition confirm (s : Session) : Session :=
  mkSession (local_index s) (peer_index s) (s_sending s) (s_receiving s) (send_counter s)
    (replay s) (established s) true.

Definition is_usable (s : Session) (now : Z) : bool :=
  session_is_alive (established s) now && (send_counter s <? REJECT_AFTER_MESSAGES).

Section Transport.
Context `{P : Primitives}.

(** The body of [seal] once the buffer and the counter are known to do. *)
Definition seal_into (s : Session) (counter : Z) (packet : bytes) (padded : Z) (out : bytes)
  : res Error bytes :=
  let! out := put_header out TYPE_DATA in
  let! out := slice_copy data.RECEIVER (to_le 4 (peer_index s)) out in
  let! out := slice_copy data.COUNTER (to_le 8 counter) out in
  let body := (data.HEADER_LEN, data.HEADER_LEN + padded) in
  let! out := slice_copy (data.HEADER_LEN, data.HEADER_LEN + len packet) packet out in
  let! out := or_panic (fill_zero (data.HEADER_LEN + len packet) (data.HEADER_LEN + padded) out) in
  let! plain := slice body out in
  let (sealed, tag) := aead_seal (s_sending s) counter [] plain in
  let! out := slice_copy body sealed out in
  slice_copy (data.HEADER_LEN + padded, len out) tag out.

(** [Session::seal]; the result is [out[..total]]. *)
Definition seal (s : Session) (packet out : bytes) : Session * res Error bytes :=
  let padded := next_multiple_of (len packet) PAD_TO in
  let total := data.HEADER_LEN + padded + TAG_LEN in
  match get_range 0 total out with
  | None => (s, Err BufferTooSmall)
  | Some out =>
      let counter := send_counter s in
      if REJECT_AFTER_MESSAGES <=? counter then (s, Err SessionExpired) else
      (with_send_counter s (counter + 1), seal_into s counter packet padded out)
  end.

(** [Session::open]; the result is the plaintext left in [out]. *)
Definition open (s : Session) (datagram out : bytes) : Session * res Error bytes :=
  match get_range data.HEADER_LEN (len datagram) datagram with
  | None => (s, Err Malformed)
  | Some body =>
      let ciphertext_len := len body - TAG_LEN in
      if ciphertext_len <? 0 then (s, Err Malformed) else
      if negb (ciphertext_len mod PAD_TO =? 0) then (s, Err Malformed) else
      if len out <? ciphertext_len then (s, Err BufferTooSmall) else
      match (let! b := slice data.COUNTER datagram in get_u64 b) with
      | Ok counter =>
          if REJECT_AFTER_MESSAGES <=? counter then (s, Err SessionExpired) else
          match aead_open (s_receiving s) counter []
                  (sub_range 0 ciphertext_len body) (zdrop ciphertext_len body) with
          | Ok plaintext =>
              let (fresh, w) := ReplayWindow.accept (replay s) counter in
              if fresh then (with_replay s w, Ok plaintext) else (with_replay s w, Err Replay)
          | Err e => (s, Err e)
          | Panic => (s, Panic)
          | Hang => (s, Hang)
          end
      | Err e => (s, Err e)
      | Panic => (s, Panic)
      | Hang => (s, Hang)
      end
  end.

(** ** Facts *)

Context {POk : PrimitivesOk P}.
#[local] Hint Rewrite len_seal len_tag : len.

Lemma next_multiple_pad n :
  0 <= n -> n <= next_multiple_of n PAD_TO < n + PAD_TO /\ next_multiple_of n PAD_TO mod PAD_TO = 0.
Proof.
  intros Hn. unfold next_multiple_of, PAD_TO.
  pose proof (Z.mod_pos_bound n 16). pose proof (Z.div_mod n 16).
  case_if; bool_hyps; [lia|]. split; [lia|].
  replace (n + (16 - n mod 16)) with ((n / 16 + 1) * 16) by lia. by apply Z.mod_mul.
Qed.

(** The datagram a successful [seal] writes. *)
Definition padded_packet (packet : bytes) : bytes :=
  packet ++ zeros (next_multiple_of (len packet) PAD_TO - len packet).

Definition data_message (s : Session) (packet : bytes) : bytes :=
  let (sealed, tag) := aead_seal (s_sending s) (send_counter s) [] (padded_packet packet) in
  concat [[TYPE_DATA]; zeros 3; to_le 4 (peer_index s); to_le 8 (send_counter s); sealed; tag].

Lemma len_padded packet : len (padded_packet packet) = next_multiple_of (len packet) PAD_TO.
Proof. unfold padded_packet. destruct (next_multiple_pad (len packet)); llia. Qed.

Lemma seal_layout s packet out :
  send_counter s < REJECT_AFTER_MESSAGES ->
  data.HEADER_LEN + next_multiple_of (len packet) PAD_TO + TAG_LEN <= len out ->
  seal s packet out = (with_send_counter s (send_counter s + 1), Ok (data_message s packet)).
Proof.
  intros Hc Hout. destruct (next_multiple_pad (len packet)) as [Hp _]; [apply len_nonneg|].
  unfold seal. set (padded := next_multiple_of _ _) in *.
  unfold data.HEADER_LEN, TAG_LEN in *. nonneg_lens.
  rewrite get_range_in by lia. cbv iota.
  rewrite (proj2 (Z.leb_gt _ _)) by lia. f_equal. unfold seal_into.
  assert (Hlen : len (sub_range 0 (16 + padded + 16) out) = 32 + padded)
    by (rewrite len_sub_range by lia; lia).
  revert Hlen. generalize (sub_range 0 (16 + padded + 16) out). intros buf Hlen.
  name_fields buf [1; 3; 4; 8; len packet; padded - len packet; 16].
  clear Hlen. rewrite put_header_fields by done. cbn [rbind].
  unfold data.RECEIVER, data.COUNTER, data.HEADER_LEN, data_message.
  put_field 2%nat. put_field 3%nat. put_field 4%nat. put_field 5%nat.
  read_fields 4%nat 6%nat. unfold aead_seal, aead_seal_nonce.
  replace (concat [packet; zeros (16 + padded - (16 + len packet))]) with (padded_packet packet).
  2: { unfold padded_packet. fold padded. cbn [concat]. rewrite app_nil_r. f_equal. f_equal. lia. }
  pose proof (len_padded packet) as Hpp. fold padded in Hpp.
  pose proof (len_seal (s_sending s) (nonce_le (send_counter s)) [] (padded_packet packet)).
  pose proof (len_tag (s_sending s) (nonce_le (send_counter s)) [] (padded_packet packet)).
  destruct (chacha_seal _ _ _ (padded_packet packet)) as [ct tag]; cbn [fst snd] in *.
  set (pad := zeros (16 + padded - (16 + len packet))). assert (len pad = padded - len packet) by (unfold pad; llia).
  replace (concat [[TYPE_DATA]; zeros 3; to_le 4 (peer_index s); to_le 8 (send_counter s); packet; pad; f5])
    with (concat [[TYPE_DATA]; zeros 3; to_le 4 (peer_index s); to_le 8 (send_counter s); packet ++ pad; f5])
    by (cbn [concat]; by rewrite <- !app_assoc).
  put_field 4%nat.
  erewrite (copy_field 5); [reflexivity|reflexivity|cbn [take concat]; llia|cbn [concat]; llia|llia].
Qed.

(** Opening a datagram sealed under the mirrored key: everything rests on the
    replay window. *)
Lemma open_data_message s r packet out :
  s_receiving r = s_sending s -> 0 <= send_counter s < REJECT_AFTER_MESSAGES ->
  next_multiple_of (len packet) PAD_TO <= len out ->
  open r (data_message s packet) out =
  let (fresh, w) := ReplayWindow.accept (replay r) (send_counter s) in
  (with_replay r w, if fresh then Ok (padded_packet packet) else Err Replay).
Proof.
  intros Hk Hc Hout. destruct (next_multiple_pad (len packet)) as [Hp Hm]; [apply len_nonneg|].
  unfold open, data_message.
  pose proof (aead_open_seal (s_sending s) (send_counter s) [] (padded_packet packet)) as Ho.
  pose proof (len_seal (s_sending s) (nonce_le (send_counter s)) [] (padded_packet packet)) as Hs.
  pose proof (len_tag (s_sending s) (nonce_le (send_counter s)) [] (padded_packet packet)) as Ht.
  rewrite len_padded in Hs.
  unfold aead_seal, aead_seal_nonce in *.
  destruct (chacha_seal _ _ _ (padded_packet packet)) as [ct tag]; cbn [fst snd] in *.
  set (padded := next_multiple_of _ _) in *. nonneg_lens.
  set (fs := [[TYPE_DATA]; zeros 3; _; _; ct; tag]).
  assert (len (concat fs) = 32 + padded) as Hlen by (unfold fs; cbn [concat]; llia).
  assert (get_range 16 (32 + padded) (concat fs) = Some (ct ++ tag)) as Hb.
  { rewrite (get_fields 4 6 fs) by (unfold fs; cbn [take drop concat Nat.sub]; llia || lia).
    unfold fs; cbn [take drop concat Nat.sub]. by rewrite app_nil_r. }
  assert (@slice Error _ data.COUNTER (concat fs) = Ok (to_le 8 (send_counter s))) as Hcn.
  { unfold fs, data.COUNTER. read_fields 3%nat 4%nat. cbn [concat]. by rewrite app_nil_r. }
  rewrite Hlen. unfold data.HEADER_LEN. rewrite Hb, Hcn, len_app, Hs, Ht. unfold TAG_LEN.
  replace (padded + 16 - 16) with padded by lia.
  rewrite (proj2 (Z.ltb_ge padded 0)) by lia. rewrite Hm. cbn [Z.eqb negb rbind].
  rewrite (proj2 (Z.ltb_ge (len out) padded)) by lia. unfold get_u64.
  rewrite len_to_le, of_to_le_small by (unfold REJECT_AFTER_MESSAGES, U64_MAX in Hc; lia).
  change (Z.of_nat 8 =? 8) with true. cbv iota.
  rewrite (proj2 (Z.leb_gt _ _)) by lia. rewrite Hk.
  replace (sub_range 0 padded (ct ++ tag)) with ct
    by (symmetry; apply (sub_range_mid 0 padded [] ct tag); llia).
  rewrite zdrop_app_len by lia. rewrite Ho.
  destruct (ReplayWindow.accept _ _) as [[] w]; done.
Qed.

(** A failed [open] leaves the session as it was. *)
Lemma open_err_same s d out s' e : open s d out = (s', Err e) -> s' = s.
Proof.
  unfold open. intros H. repeat case_match; simplify_eq; try done.
  destruct s; unfold with_replay; simpl in *. f_equal.
  match goal with E : ReplayWindow.accept ?w ?c = _ |- _ =>
    pose proof (AcceptedFacts.accept_false_same w c) as Hs; rewrite E in Hs end.
  by apply Hs.
Qed.

(** What a successful [open] went through. *)
Lemma open_ok_inv s d out s' m :
  open s d out = (s', Ok m) ->
  let c := of_le (sub_range 8 16 d) in
  16 <= len d /\ c < REJECT_AFTER_MESSAGES /\
  s' = with_replay s (snd (ReplayWindow.accept (replay s) c)) /\
  fst (ReplayWindow.accept (replay s) c) = true.
Proof.
  intros H c. unfold open, data.HEADER_LEN, data.COUNTER, slice, get_u64 in H.
  destruct (get_range 16 _ d) as [body|] eqn:Eb; [|done].
  apply get_range_Some in Eb as (Hd & _ & ->).
  cbn [fst snd] in H. rewrite (get_range_in 8 16 d) in H by lia. cbn [or_panic rbind] in H.
  rewrite (len_sub_range 8 16) in H by lia. change (16 - 8 =? 8) with true in H.
  cbv iota in H. fold c in H. repeat case_match; simplify_eq; bool_hyps.
  split_and!; [lia|lia|done|done].
Qed.

(** [open] returns on every input: no slice of it can panic. *)
Lemma open_returns s d out : returns (snd (open s d out)).
Proof.
  unfold open, data.HEADER_LEN, data.COUNTER, slice, get_u64.
  destruct (get_range 16 _ d) as [body|] eqn:Eb; [|done].
  apply get_range_Some in Eb as (Hd & _ & ->).
  cbn [fst snd]. rewrite (get_range_in 8 16 d) by lia. cbn [or_panic rbind].
  rewrite (len_sub_range 8 16) by lia. change (16 - 8 =? 8) with true. cbv iota.
  unfold aead_open, aead_open_nonce, ok_or.
  repeat case_match; simplify_eq; done.
Qed.

(** ** Runs *)

(** The packets sealed by the successful calls of a run of [seal], each with
    the datagram written for it. *)
Fixpoint seal_run (s : Session) (calls : list (bytes * bytes)) : Session * list (bytes * bytes) :=
  match calls with
  | [] => (s, [])
  | (packet, out) :: calls =>
      let (s', r) := seal s packet out in
      let (s'', ds) := seal_run s' calls in
      (s'', match r with Ok datagram => (packet, datagram) :: ds | _ => ds end)
  end.

(** A datagram announces counter [c] and carries the padded packet sealed by
    the cipher under the session's sending key and the nonce of [c]. *)
Definition sealed_as (s : Session) (c : Z) (sent : bytes * bytes) : Prop :=
  let (sealed, tag) := chacha_seal (s_sending s) (nonce_le c) [] (padded_packet sent.1) in
  sent.2 = concat [[TYPE_DATA]; zeros 3; to_le 4 (peer_index s); to_le 8 c; sealed; tag].

(** The counters carried by the datagrams a run of [open] delivered. *)
Fixpoint open_run (s : Session) (calls : list (bytes * bytes)) : Session * list Z :=
  match calls with
  | [] => (s, [])
  | (datagram, out) :: calls =>
      let (s', r) := open s datagram out in
      let (s'', cs) := open_run s' calls in
      (s'', if is_ok r then of_le (sub_range 8 16 datagram) :: cs else cs)
  end.

Lemma seal_step s packet out :
  0 <= send_counter s ->
  (exists datagram, seal s packet out = (with_send_counter s (send_counter s + 1), Ok datagram) /\
     sealed_as s (send_counter s) (packet, datagram) /\ send_counter s < REJECT_AFTER_MESSAGES) \/
  (is_ok (snd (seal s packet out)) = false /\ fst (seal s packet out) = s).
Proof.
  intros H0. destruct (decide (send_counter s < REJECT_AFTER_MESSAGES)) as [Hc|Hc].
  - destruct (decide (data.HEADER_LEN + next_multiple_of (len packet) PAD_TO + TAG_LEN <= len out)).
    + left. exists (data_message s packet). split_and!; [by apply seal_layout| |done].
      unfold sealed_as, data_message, aead_seal, aead_seal_nonce. simpl fst.
      by destruct (chacha_seal _ _ _ _).
    + right. unfold seal. rewrite (proj2 (get_range_None _ _ _)) by lia. done.
  - right. unfold seal. destruct (get_range _ _ out); [|done].
    by rewrite (proj2 (Z.leb_le _ _)) by lia.
Qed.

(** The counters of a run rise from the session's own. *)
Lemma seal_run_counters calls s :
  0 <= send_counter s ->
  exists cs, NoDup cs /\ Forall (fun c => send_counter s <= c < REJECT_AFTER_MESSAGES) cs /\
    Forall2 (sealed_as s) cs (snd (seal_run s calls)).
Proof.
  revert s; induction calls as [|[packet out] calls IH]; intros s H0; simpl.
  { exists []. split_and!; constructor. }
  destruct (seal_step s packet out H0) as [(d & -> & Hd & Hlt)|[Hno Hs]].
  - destruct (IH (with_send_counter s (send_counter s + 1))) as (cs & Hn & Hb & Hf); [simpl; lia|].
    simpl in Hb. destruct (seal_run _ calls) as [s'' ds]. exists (send_counter s :: cs). split_and!.
    + constructor; [|done]. intros Hin%list_elem_of_In. rewrite List.Forall_forall in Hb.
      specialize (Hb _ Hin). lia.
    + constructor; [lia|]. eapply List.Forall_impl; [|exact Hb]. simpl. lia.
    + by constructor.
  - destruct (seal s packet out) as [s' r]. simpl in Hno, Hs. subst s'.
    destruct (IH s H0) as (cs & Hcs). exists cs. destruct (seal_run s calls). by destruct r.
Qed.

Lemma nonces_NoDup cs :
  NoDup cs -> Forall is_u64 cs -> NoDup (map nonce_le cs).
Proof.
  induction 1 as [|c cs Hn Hd IH]; simpl; [constructor|]. intros [Hc Hcs]%List.Forall_cons_iff.
  constructor; [|by apply IH]. intros (d & Heq & Hin)%list_elem_of_In%in_map_iff.
  apply nonce_le_inj in Heq as ->; [by apply Hn, list_elem_of_In| |done].
  by apply (proj1 (List.Forall_forall _ _) Hcs).
Qed.

Lemma open_run_accepted calls s cs0 :
  Forall (fun c => bytes_ok c.1) calls -> Forall is_u64 cs0 ->
  replay s = snd (ReplayWindow.run ReplayWindow.new cs0) ->
  exists cs, Forall is_u64 cs /\ accepted cs = accepted cs0 ++ snd (open_run s calls).
Proof.
  intros Hok; revert s cs0; induction Hok as [|[d out] calls Hd Hok IH]; intros s cs0 H0 Hr; simpl.
  { exists cs0. by rewrite app_nil_r. }
  pose proof (open_returns s d out) as Hret.
  destruct (open s d out) as [s' [m|e| |]] eqn:E; simpl in *; [| |done..].
  - apply open_ok_inv in E as (Hl & Hc & -> & Hf). set (c := of_le _) in *.
    assert (is_u64 c) as Hu.
    { pose proof (of_le_bound (sub_range 8 16 d) (bytes_ok_sub_range _ _ _ Hd)) as Hb.
      rewrite len_sub_range in Hb by lia. apply Hb. }
    clearbody c.
    destruct (IH (with_replay s (snd (ReplayWindow.accept (replay s) c))) (cs0 ++ [c])) as (cs & Hcs & He).
    + apply Forall_app; split; [done|]. by constructor.
    + simpl. rewrite Hr, AcceptedFacts.run_snoc.
      by destruct (ReplayWindow.accept (snd (ReplayWindow.run ReplayWindow.new cs0)) c).
    + exists cs. split; [done|]. rewrite He, AcceptedFacts.accepted_snoc, <- Hr, Hf.
      destruct (open_run _ calls). simpl. by rewrite <- app_assoc.
  - apply open_err_same in E as ->. destruct (IH s cs0 H0 Hr) as (cs & ? & He).
    exists cs. split; [done|]. rewrite He. by destruct (open_run s calls).
Qed.

End Transport.

(** ** Properties *)

Section Properties.
Context `{P : Primitives} {POk : PrimitivesOk P}.

(** What one side seals the mirrored side opens.  If the receiver holds the
    sender's sending key and its window has room for the sender's counter, the
    datagram [seal] writes opens to the packet followed by zero padding up to a
    multiple of sixteen, and only the receiver's replay window changes. *)
Theorem seal_open_roundtrip (s r : Session) (packet out1 out2 : bytes) :
  s_receiving r = s_sending s -> 0 <= send_counter s < REJECT_AFTER_MESSAGES ->
  data.HEADER_LEN + next_multiple_of (len packet) PAD_TO + TAG_LEN <= len out1 ->
  next_multiple_of (len packet) PAD_TO <= len out2 ->
  fst (ReplayWindow.accept (replay r) (send_counter s)) = true ->
  exists datagram,
    seal s packet out1 = (with_send_counter s (send_counter s + 1), Ok datagram) /\
    open r datagram out2 =
      (with_replay r (snd (ReplayWindow.accept (replay r) (send_counter s))),
       Ok (packet ++ zeros (next_multiple_of (len packet) PAD_TO - len packet))).
Proof.
  intros Hk Hc H1 H2 Hf. exists (data_message s packet). split; [apply seal_layout; lia|].
  rewrite open_data_message by done.
  destruct (ReplayWindow.accept _ _) as [fresh w]; simpl in *. by subst.
Qed.

(** C8: A key never seals two messages under one nonce.  Over any sequence of
    [seal] calls on one session, failing ones included, there are pairwise
    distinct counters below the reject limit, one for each datagram produced,
    such that the datagram announces its counter and its body is what the
    cipher gives for the padded packet under the session's key and the nonce
    built from that counter; and those nonces are pairwise distinct. *)
Theorem seal_nonces_unique (s : Session) (calls : list (bytes * bytes)) :
  0 <= send_counter s ->
  exists counters,
    NoDup counters /\ Forall (fun c => c < REJECT_AFTER_MESSAGES) counters /\
    NoDup (map nonce_le counters) /\
    Forall2 (fun c sent =>
      let (sealed, tag) := chacha_seal (s_sending s) (nonce_le c) [] (padded_packet sent.1) in
      sent.2 = concat [[TYPE_DATA]; zeros 3; to_le 4 (peer_index s); to_le 8 c; sealed; tag])
      counters (snd (seal_run s calls)).
Proof.
  intros H0. destruct (seal_run_counters calls s H0) as (cs & Hn & Hb & Hf).
  exists cs. split_and!; [done| | |done].
  - eapply List.Forall_impl; [|exact Hb]. simpl. lia.
  - apply nonces_NoDup; [done|]. eapply List.Forall_impl; [|exact Hb].
    unfold is_uint, REJECT_AFTER_MESSAGES, U64_MAX. intros. lia.
Qed.

(** A session delivers each transport counter at most once.  Whatever
    datagrams reach a fresh session, forged and repeated ones included, the
    counters of those it opens are pairwise distinct. *)
Theorem open_delivers_once (keys : TransportKeys) (li pi now : Z) (calls : list (bytes * bytes)) :
  Forall (fun c => bytes_ok c.1) calls ->
  NoDup (snd (open_run (session_new keys li pi now) calls)).
Proof.
  intros Hok.
  destruct (open_run_accepted calls (session_new keys li pi now) [] Hok) as (cs & Hcs & He);
    [constructor|done|]. change (accepted [] ++ ?x) with x in He. rewrite <- He.
  apply AcceptedFacts.accepted_NoDup.
  eapply List.Forall_impl; [|exact Hcs]. unfold is_uint. intros; lia.
Qed.

(** [open] returns on every datagram and buffer, and when it returns an
    error the session is exactly what it was: a forged packet cannot burn a
    counter slot, and nothing in it can make the code panic. *)
Theorem open_total_and_safe (s : Session) (datagram out : bytes) :
  (exists plaintext, snd (open s datagram out) = Ok plaintext) \/
  (exists e, open s datagram out = (s, Err e)).
Proof.
  pose proof (open_returns s datagram out) as Hr.
  destruct (open s datagram out) as [s' [m|e| |]] eqn:E; simpl in *; [left; eauto| |done..].
  right. exists e. by rewrite (open_err_same _ _ _ _ _ E).
Qed.

End Properties.

#[local] Existing Instance Toy.prims.
#[local] Existing Instance Toy.prims_ok.

(** Two ends of one session, for concrete runs. *)
Definition example_keys : TransportKeys := mkTransportKeys (replicate 32 1) (replicate 32 2).
Definition example_mirror : TransportKeys := mkTransportKeys (replicate 32 2) (replicate 32 1).
Definition example_packet : bytes := [69; 0; 0; 20] ++ zeros 16.

Lemma seal_open_roundtrip_witness :
  exists datagram,
    seal (session_new example_keys 7 9 0) example_packet (zeros 64)
      = (with_send_counter (session_new example_keys 7 9 0) 1, Ok datagram) /\
    snd (open (session_new example_mirror 9 7 0) datagram (zeros 32))
      = Ok (example_packet ++ zeros 12).
Proof.
  destruct (seal_open_roundtrip (session_new example_keys 7 9 0)
    (session_new example_mirror 9 7 0) example_packet (zeros 64) (zeros 32))
    as (d & H1 & H2); [solve [vm_compute; reflexivity | vm_compute; intuition discriminate]..|].
  exists d. split; [exact H1|]. by rewrite H2.
Defined.

Lemma seal_nonces_unique_witness :
  let s := session_new example_keys 7 9 0 in
  let run := snd (seal_run s [(example_packet, zeros 64); (example_packet, zeros 8); ([], zeros 64)]) in
  run = [(example_packet, data_message s example_packet); ([], data_message (with_send_counter s 1) [])] /\
  exists counters, NoDup (map nonce_le counters) /\ Forall2 (sealed_as s) counters run.
Proof.
  intros s run. split; [vm_compute; reflexivity|].
  destruct (seal_nonces_unique s
    [(example_packet, zeros 64); (example_packet, zeros 8); ([], zeros 64)]) as (cs & _ & _ & Hn & Hf);
    [simpl; lia|]. exists cs. split; [exact Hn|exact Hf].
Defined.

Lemma open_delivers_once_witness :
  let d := data_message (session_new example_keys 7 9 0) example_packet in
  snd (open_run (session_new example_mirror 9 7 0) [(d, zeros 64); (d, zeros 64)]) = [0] /\
  NoDup (snd (open_run (session_new example_mirror 9 7 0) [(d, zeros 64); (d, zeros 64)])).
Proof.
  intros d. split; [vm_compute; reflexivity|].
  apply (open_delivers_once example_mirror 9 7 0 [(d, zeros 64); (d, zeros 64)]).
  assert (bytes_ok d) as Hd by (vm_compute; repeat constructor; discriminate).
  constructor; [exact Hd|]. constructor; [exact Hd|]. constructor.
Defined.
