(* ===== verification/Device.v ===== *)
(** * The WireGuard device

    [crates/wg-core/src/lib.rs]: peers, handshakes in flight, sessions and the
    operations a caller drives.  [Device::handle_udp] and the two pollers are
    whole handlers.  Randomness is a tape: the bytes the generator will produce;
    an operation that needs more than the tape holds is [Hang].  An output
    buffer is passed as its contents and an emitted datagram is the prefix of
    it that was filled. *)

From S2P Require Import Prelude Timers Replay Messages Crypto Noise Transport.

(** ** State *)

Record Peer := mkPeer {
  public : bytes;
  preshared_key : bytes;
  last_timestamp : option bytes;
  current : option Session;
  previous : option Session;
  keepalive_armed_since : option Z;
  initiating : bool;
  pending : option Handshake;
  pending_since : option Z;
  pending_last_sent : option Z;
}.

Record Device := mkDevice {
  static_private : bytes;
  static_public : bytes;
  dev_mac1_key : bytes;
  peers : list Peer;
  budget : HandshakeBudget.t;
}.

Abbreviation PeerId := nat.

Inductive Action : Type :=
| ActNone
| Send (peer : PeerId) (data : bytes)
| Receive (peer : PeerId) (packet : bytes).

(** Field updates. *)
Definition with_sessions (p : Peer) (c v : option Session) : Peer :=
  mkPeer (public p) (preshared_key p) (last_timestamp p) c v (keepalive_armed_since p)
    (initiating p) (pending p) (pending_since p) (pending_last_sent p).
Definition with_armed (p : Peer) (a : option Z) : Peer :=
  mkPeer (public p) (preshared_key p) (last_timestamp p) (current p) (previous p) a
    (initiating p) (pending p) (pending_since p) (pending_last_sent p).
Definition with_last_timestamp (p : Peer) (t : option bytes) : Peer :=
  mkPeer (public p) (preshared_key p) t (current p) (previous p) (keepalive_armed_since p)
    (initiating p) (pending p) (pending_since p) (pending_last_sent p).
Definition with_initiating (p : Peer) (b : bool) : Peer :=
  mkPeer (public p) (preshared_key p) (last_timestamp p) (current p) (previous p)
    (keepalive_armed_since p) b (pending p) (pending_since p) (pending_last_sent p).
Definition with_pending (p : Peer) (h : option Handshake) (since sent : option Z) : Peer :=
  mkPeer (public p) (preshared_key p) (last_timestamp p) (current p) (previous p)
    (keepalive_armed_since p) (initiating p) h since sent.
Definition with_peers (d : Device) (ps : list Peer) : Device :=
  mkDevice (static_private d) (static_public d) (dev_mac1_key d) ps (budget d).
Definition with_budget (d : Device) (b : HandshakeBudget.t) : Device :=
  mkDevice (static_private d) (static_public d) (dev_mac1_key d) (peers d) b.

(** [opt.get_or_insert(x)] *)
Definition get_or_insert (o : option Z) (x : Z) : option Z :=
  match o with Some y => Some y | None => Some x end.

(** ** Peer methods *)

Definition expired (now : Z) (o : option Session) : bool :=
  match o with Some s => negb (is_usable s now) | None => false end.

Definition expire_sessions (p : Peer) (now : Z) : Peer :=
  let p := if expired now (current p) then with_sessions p None (previous p) else p in
  if expired now (previous p) then with_sessions p (current p) None else p.

Definition wants_handshake (p : Peer) (now : Z) : bool :=
  if negb (initiating p) then false else
  let needs_session :=
    match current p with
    | None => true
    | Some s => negb (is_usable s now) || rekey_is_due (established s) now
    end in
  needs_session && handshake_retry_is_due (pending_last_sent p) now.

Definition clear_pending (p : Peer) : Peer := with_pending p None None None.

Section Device.
Context `{P : Primitives}.

(** The capacity of the peer table. *)
Context (PEERS : nat).

(** ** Construction and queries *)

Definition device_new (static_private : bytes) : Device :=
  let static_public := x25519_base static_private in
  mkDevice static_private static_public (mac1_key static_public) [] HandshakeBudget.new.

Definition new_peer (public : bytes) (psk : option bytes) : Peer :=
  mkPeer public (default (zeros 32) psk) None None None None false None None None.

Definition add_peer (d : Device) (public : bytes) (psk : option bytes) : Device * res Error PeerId :=
  let id := length (peers d) in
  if (id <? PEERS)%nat
  then (with_peers d (peers d ++ [new_peer public psk]), Ok id)
  else (d, Err TooManyPeers).

Definition peer_count (d : Device) : nat := length (peers d).

Definition peer_by_public_key (d : Device) (key : bytes) : option PeerId :=
  position (fun p => bytes_eqb (public p) key) (peers d).

Definition set_initiating (d : Device) (peer : PeerId) (b : bool) : Device * res Error unit :=
  match peers d !! peer with
  | None => (d, Err UnknownPeer)
  | Some p =>
      let p := with_initiating p b in
      let p := if b then p else clear_pending p in
      (with_peers d (<[peer := p]> (peers d)), Ok tt)
  end.

Definition handshake_is_stalled (d : Device) (peer : PeerId) (now : Z) : bool :=
  match peers d !! peer with
  | Some p => match pending_since p with
              | Some since => handshake_has_expired since now
              | None => false
              end
  | None => false
  end.

Definition is_connected (d : Device) (peer : PeerId) (now : Z) : bool :=
  match peers d !! peer with
  | Some p => match current p with
              | Some s => is_usable s now && is_confirmed s
              | None => false
              end
  | None => false
  end.

(** ** Randomness *)

Definition has_index (i : Z) (o : option Session) : bool :=
  match o with Some s => local_index s =? i | None => false end.

Definition index_taken (ps : list Peer) (candidate : Z) : bool :=
  existsb (fun p => has_index candidate (current p) || has_index candidate (previous p)) ps.

(** Draw four bytes at a time until the index is not in use. *)
Fixpoint allocate_index (ps : list Peer) (tape : bytes) : res Error (Z * bytes) :=
  match tape with
  | a :: b :: c :: d :: tape =>
      let candidate := of_le [a; b; c; d] in
      if index_taken ps candidate then allocate_index ps tape else Ok (candidate, tape)
  | _ => Hang
  end.

Definition random_secret (tape : bytes) : res Error (bytes * bytes) :=
  match get_range 0 32 tape with
  | Some secret => Ok (secret, zdrop 32 tape)
  | None => Hang
  end.

(** ** Handshakes *)

Definition start_handshake (d : Device) (peer : PeerId) (now : Z) (timestamp tape out : bytes)
  : Device * bytes * res Error bytes :=
  match peers d !! peer with
  | None => (d, tape, Err UnknownPeer)
  | Some p =>
      let (granted, b) := HandshakeBudget.take (budget d) now in
      let d := with_budget d b in
      if negb granted then (d, tape, Err RateLimited) else
      match (let! '(local_index, tape) := allocate_index (peers d) tape in
             let! '(secret, tape) := random_secret tape in
             Ok (local_index, secret, tape)) with
      | Ok (local_index, secret, tape) =>
          match create_initiation (static_private d) (static_public d) (public p) local_index
                  secret timestamp out with
          | Ok (msg, handshake) =>
              let p := with_pending p (Some handshake) (get_or_insert (pending_since p) now) (Some now) in
              (with_peers d (<[peer := p]> (peers d)), tape, Ok msg)
          | Err e => (d, tape, Err e)
          | Panic => (d, tape, Panic)
          | Hang => (d, tape, Hang)
          end
      | Err e => (d, tape, Err e)
      | Panic => (d, tape, Panic)
      | Hang => (d, tape, Hang)
      end
  end.

(** The loop of [poll_handshakes], from [index] for [n] more peers. *)
Fixpoint poll_handshakes_from (n : nat) (index : nat) (d : Device) (now : Z)
    (timestamp tape out : bytes) : Device * bytes * res Error Action :=
  match n with
  | O => (d, tape, Ok ActNone)
  | S n =>
      match peers d !! index with
      | None => (d, tape, Panic)
      | Some p =>
          let p := expire_sessions p now in
          let d := with_peers d (<[index := p]> (peers d)) in
          if negb (wants_handshake p now)
          then poll_handshakes_from n (S index) d now timestamp tape out else
          let '(d, tape, r) := start_handshake d index now timestamp tape out in
          match r with
          | Ok msg => (d, tape, Ok (Send index msg))
          | Err RateLimited => (d, tape, Ok ActNone)
          | Err _ => poll_handshakes_from n (S index) d now timestamp tape out
          | Panic => (d, tape, Panic)
          | Hang => (d, tape, Hang)
          end
      end
  end.

Definition poll_handshakes (d : Device) (now : Z) (timestamp tape out : bytes)
  : Device * bytes * res Error Action :=
  poll_handshakes_from (length (peers d)) 0 d now timestamp tape out.

Definition pending_is (receiver : Z) (p : Peer) : bool :=
  match pending p with Some h => hs_local_index h =? receiver | None => false end.

Definition complete_handshake (d : Device) (datagram : bytes) (now : Z)
  : Device * res Error PeerId :=
  match (let! _ := verify_response_mac1 (dev_mac1_key d) datagram in
         let! receiver := slice response.RECEIVER datagram in
         let! receiver := get_u32 receiver in
         ok_or (position (pending_is receiver) (peers d)) UnknownSession) with
  | Ok id =>
      let (granted, b) := HandshakeBudget.take (budget d) now in
      let d := with_budget d b in
      if negb granted then (d, Err RateLimited) else
      match peers d !! id with
      | None => (d, Panic)
      | Some p =>
          match pending p with
          | None => (d, Panic)
          | Some handshake =>
              match consume_response handshake (static_private d) (preshared_key p) datagram with
              | Ok (peer_index, keys) =>
                  let local_index := hs_local_index handshake in
                  let p := clear_pending p in
                  let session := confirm (session_new keys local_index peer_index now) in
                  let p := with_sessions p (Some session) (current p) in
                  let p := with_armed p None in
                  (with_peers d (<[id := p]> (peers d)), Ok id)
              | Err e => (d, Err e)
              | Panic => (d, Panic)
              | Hang => (d, Hang)
              end
          end
      end
  | Err e => (d, Err e)
  | Panic => (d, Panic)
  | Hang => (d, Hang)
  end.

(** Whether a peer has already seen this timestamp or a newer one. *)
Definition is_stale (p : Peer) (ts : bytes) : bool :=
  match last_timestamp p with
  | Some last => negb (timestamp_is_newer ts last)
  | None => false
  end.

Definition respond_to_initiation (d : Device) (datagram : bytes) (now : Z) (tape out : bytes)
  : Device * bytes * res Error (PeerId * bytes) :=
  match verify_initiation_mac1 (dev_mac1_key d) datagram with
  | Ok _ =>
      let (granted, b) := HandshakeBudget.take (budget d) now in
      let d := with_budget d b in
      if negb granted then (d, tape, Err RateLimited) else
      match (let! ini := consume_initiation (static_private d) (static_public d)
                           (dev_mac1_key d) datagram in
             let! id := ok_or (position (fun p => bytes_eqb (public p) (peer_static ini)) (peers d))
                          UnknownPeer in
             let! p := or_panic (peers d !! id) in
             if is_stale p (timestamp ini) then Err StaleTimestamp else
             Ok (ini, id, p)) with
      | Ok (ini, id, p) =>
          match (let! '(local_index, tape) := allocate_index (peers d) tape in
                 let! '(secret, tape) := random_secret tape in
                 Ok (local_index, secret, tape)) with
          | Ok (local_index, secret, tape) =>
              match create_response ini (preshared_key p) local_index secret out with
              | Ok (msg, keys) =>
                  let p := with_last_timestamp p (Some (timestamp ini)) in
                  let session := session_new keys local_index (init_peer_index ini) now in
                  let p := with_sessions p (Some session) (current p) in
                  let p := with_armed p None in
                  let p := clear_pending p in
                  (with_peers d (<[id := p]> (peers d)), tape, Ok (id, msg))
              | Err e => (d, tape, Err e)
              | Panic => (d, tape, Panic)
              | Hang => (d, tape, Hang)
              end
          | Err e => (d, tape, Err e)
          | Panic => (d, tape, Panic)
          | Hang => (d, tape, Hang)
          end
      | Err e => (d, tape, Err e)
      | Panic => (d, tape, Panic)
      | Hang => (d, tape, Hang)
      end
  | Err e => (d, tape, Err e)
  | Panic => (d, tape, Panic)
  | Hang => (d, tape, Hang)
  end.

(** ** Data *)

(** Which of a peer's sessions a receiver index names, and whether it is the
    previous one. *)
Definition select_session (p : Peer) (receiver : Z) : option (Session * bool) :=
  match current p, previous p with
  | Some s, v =>
      if local_index s =? receiver then Some (s, false) else
      match v with
      | Some s' => if local_index s' =? receiver then Some (s', true) else None
      | None => None
      end
  | None, Some s' => if local_index s' =? receiver then Some (s', true) else None
  | None, None => None
  end.

(** Store the session back where it was borrowed from. *)
Definition put_session (p : Peer) (s : Session) (is_previous : bool) : Peer :=
  if is_previous then with_sessions p (current p) (Some s) else with_sessions p (Some s) (previous p).

(** The loop of [open_data] over the peers from [index] on, and the slice
    [&out[..len]] that [handle_udp] takes of the result: [open] has left the
    plaintext at the front of [out] and the rest of the buffer as it was. *)
Fixpoint open_data_from (ps : list Peer) (index : nat) (receiver now : Z) (datagram out : bytes)
  : list Peer * res Error (option (PeerId * bytes)) :=
  match ps with
  | [] => ([], Err UnknownSession)
  | p :: ps =>
      let p := expire_sessions p now in
      match select_session p receiver with
      | None =>
          let (ps, r) := open_data_from ps (S index) receiver now datagram out in (p :: ps, r)
      | Some (session, is_previous) =>
          let (session, r) := open session datagram out in
          match r with
          | Ok plaintext =>
              let p := put_session p (confirm session) is_previous in
              let p := if is_previous then with_sessions p (previous p) None else p in
              if len plaintext =? 0 then (p :: ps, Ok None) else
              match packet_len plaintext with
              | None => (p :: ps, Err Malformed)
              | Some n =>
                  let p := with_armed p (get_or_insert (keepalive_armed_since p) now) in
                  (p :: ps, let! packet := slice (0, n) (plaintext ++ zdrop (len plaintext) out) in
                            Ok (Some (index, packet)))
              end
          | Err e => (put_session p session is_previous :: ps, Err e)
          | Panic => (put_session p session is_previous :: ps, Panic)
          | Hang => (put_session p session is_previous :: ps, Hang)
          end
      end
  end.

Definition open_data (d : Device) (datagram : bytes) (now : Z) (out : bytes)
  : Device * res Error (option (PeerId * bytes)) :=
  if len datagram <? data.HEADER_LEN then (d, Err Malformed) else
  match (let! receiver := slice data.RECEIVER datagram in get_u32 receiver) with
  | Ok receiver =>
      let (ps, r) := open_data_from (peers d) 0 receiver now datagram out in
      (with_peers d ps, r)
  | Err e => (d, Err e)
  | Panic => (d, Panic)
  | Hang => (d, Hang)
  end.

Definition handle_udp (d : Device) (datagram : bytes) (now : Z) (tape out : bytes)
  : Device * bytes * res Error Action :=
  match message_type datagram with
  | Ok ty =>
      if ty =? TYPE_INITIATION then
        let '(d, tape, r) := respond_to_initiation d datagram now tape out in
        (d, tape, let! '(peer, msg) := r in Ok (Send peer msg))
      else if ty =? TYPE_DATA then
        let (d, r) := open_data d datagram now out in
        (d, tape, let! o := r in
                  Ok match o with Some (peer, packet) => Receive peer packet | None => ActNone end)
      else if ty =? TYPE_RESPONSE then
        let (d, r) := complete_handshake d datagram now in
        match r with
        | Ok peer =>
            match peers d !! peer with
            | None => (d, tape, Panic)
            | Some p =>
                match current p with
                | None => (d, tape, Panic)
                | Some session =>
                    let (session, r) := seal session [] out in
                    let p := with_sessions p (Some session) (previous p) in
                    let d' := with_peers d (<[peer := p]> (peers d)) in
                    match r with
                    | Ok msg =>
                        (with_peers d (<[peer := with_armed p None]> (peers d)), tape,
                         Ok (Send peer msg))
                    | Err e => (d', tape, Err e)
                    | Panic => (d', tape, Panic)
                    | Hang => (d', tape, Hang)
                    end
                end
            end
        | Err e => (d, tape, Err e)
        | Panic => (d, tape, Panic)
        | Hang => (d, tape, Hang)
        end
      else if ty =? TYPE_COOKIE_REPLY then (d, tape, Err Unsupported)
      else (d, tape, Err Malformed)
  | Err e => (d, tape, Err e)
  | Panic => (d, tape, Panic)
  | Hang => (d, tape, Hang)
  end.

Definition encapsulate (d : Device) (peer : PeerId) (packet : bytes) (now : Z) (out : bytes)
  : Device * res Error Action :=
  match peers d !! peer with
  | None => (d, Err UnknownPeer)
  | Some p =>
      let p := expire_sessions p now in
      let put p := with_peers d (<[peer := p]> (peers d)) in
      match current p with
      | None => (put p, Err NoSession)
      | Some session =>
          if negb (is_confirmed session) then (put p, Err Unconfirmed) else
          let (session, r) := seal session packet out in
          let p := with_sessions p (Some session) (previous p) in
          match r with
          | Ok msg => (put (with_armed p None), Ok (Send peer msg))
          | Err e => (put p, Err e)
          | Panic => (put p, Panic)
          | Hang => (put p, Hang)
          end
      end
  end.

(** The loop of [poll_timers] over the peers from [index] on. *)
Fixpoint poll_timers_from (ps : list Peer) (index : nat) (now : Z) (out : bytes)
  : list Peer * res Error Action :=
  match ps with
  | [] => ([], Ok ActNone)
  | p :: ps =>
      let p := expire_sessions p now in
      let continue p := let (ps, r) := poll_timers_from ps (S index) now out in (p :: ps, r) in
      if negb (keepalive_is_due (keepalive_armed_since p) now) then continue p else
      match current p with
      | None => continue p
      | Some session =>
          if negb (is_confirmed session) then continue p else
          let (session, r) := seal session [] out in
          let p := with_sessions p (Some session) (previous p) in
          match r with
          | Ok msg => (with_armed p None :: ps, Ok (Send index msg))
          | Err _ => continue p
          | Panic => (p :: ps, Panic)
          | Hang => (p :: ps, Hang)
          end
      end
  end.

Definition poll_timers (d : Device) (now : Z) (out : bytes) : Device * res Error Action :=
  let (ps, r) := poll_timers_from (peers d) 0 now out in (with_peers d ps, r).

End Device.
