(* ===== verification/DeviceFacts.v ===== *)
(** * The device: panics, invariants and timestamps

    Lemmas about [Device.v] and their theorems: which operations can panic, the
    invariant of every reachable device, and that an accepted initiation can
    never be accepted again.  The two-device theorems are in [DeviceConnect.v]. *)

From S2P Require Import Prelude Timers Replay Messages Crypto Noise Transport Device.

(** ** Returning without a panic *)

Definition no_panic {E A} (r : res E A) : Prop := r <> Panic.

Section Panics.
Context `{P : Primitives} {POk : PrimitivesOk P} {PB : ByteCipher P}.

Lemma returns_no_panic {E A} (m : res E A) : returns m -> no_panic m.
Proof. by destruct m. Qed.

Lemma returns_bind {E A B} (m : res E A) (k : A -> res E B) :
  returns m -> (forall a, m = Ok a -> returns (k a)) -> returns (rbind m k).
Proof. destruct m; simpl; auto. Qed.

Lemma returns_slice {A} a b (l : list A) :
  0 <= a <= b -> b <= len l -> returns (@slice Error A (a, b) l).
Proof. intros. unfold slice; simpl. by rewrite get_range_in by lia. Qed.

Lemma slice_len {A} a b (l k : list A) : @slice Error A (a, b) l = Ok k -> len k = b - a.
Proof.
  unfold slice; cbn [fst snd]. intros H. destruct (get_range a b l) eqn:E; [|done].
  simpl in H. injection H as ->. apply get_range_Some in E as (? & ? & ->).
  apply len_sub_range; lia.
Qed.

Lemma returns_get_u32 b : len b = 4 -> returns (get_u32 b).
Proof. intros H. unfold get_u32. by rewrite H. Qed.
Lemma returns_dh s p : returns (dh s p).
Proof. unfold dh. by case_if. Qed.
Lemma returns_aead k c ad x t : returns (aead_open k c ad x t).
Proof. unfold aead_open, aead_open_nonce, ok_or. repeat case_match; done. Qed.

#[local] Hint Resolve returns_get_u32 returns_dh returns_aead : tf.

(** One step of a chain of binds: constant slices are in range. *)
Ltac ret_step :=
  apply returns_bind;
  [ first [ apply returns_slice; lia | solve [auto with tf] | idtac ]
  | let a := fresh "a" in let H := fresh "Hs" in intros a H; try apply slice_len in H ].

Lemma verify_initiation_returns k m : returns (verify_initiation_mac1 k m).
Proof.
  unfold verify_initiation_mac1, initiation.LEN. case_if; [done|]. bool_hyps.
  do 2 ret_step. by case_if.
Qed.

Lemma verify_response_returns k m : returns (verify_response_mac1 k m).
Proof.
  unfold verify_response_mac1, response.LEN. case_if; [done|]. bool_hyps.
  do 2 ret_step. by case_if.
Qed.

Lemma verify_initiation_len k m : verify_initiation_mac1 k m = Ok tt -> len m = 148.
Proof. unfold verify_initiation_mac1. case_if; [done|]. bool_hyps. done. Qed.
Lemma verify_response_len k m : verify_response_mac1 k m = Ok tt -> len m = 92.
Proof. unfold verify_response_mac1. case_if; [done|]. bool_hyps. done. Qed.

Lemma consume_initiation_returns sk pk k m : returns (consume_initiation sk pk k m).
Proof.
  unfold consume_initiation. apply returns_bind; [apply verify_initiation_returns|].
  intros [] Hv%verify_initiation_len.
  do 2 ret_step. destruct (kdf2 _ _) as [ck k1]. do 3 (ret_step; unfold TAG_LEN in *).
  do 2 ret_step. destruct (kdf2 _ _) as [ck' k2].
  do 3 (ret_step; unfold TAG_LEN, TIMESTAMP_LEN in *).
  ret_step. ret_step. ret_step. done.
Qed.

Lemma consume_response_returns h sk psk m : returns (consume_response h sk psk m).
Proof.
  unfold consume_response, response.LEN. case_if; [done|]. bool_hyps.
  do 2 ret_step. case_if; [done|]. do 3 ret_step.
  destruct (kdf3 _ _) as [[ck tau] key]. do 2 ret_step. destruct (kdf2 _ _) as [a' b'].
  do 2 ret_step. done.
Qed.

Lemma create_response_returns ini psk idx e out : returns (create_response ini psk idx e out).
Proof.
  destruct (decide (response.LEN <= len out)) as [Ho|Ho].
  - rewrite create_response_shape by done. by do 2 ret_step.
  - unfold create_response. unfold response.LEN in *.
    by rewrite (proj2 (get_range_None _ _ _)) by lia.
Qed.

Lemma create_initiation_returns sp spub rs idx e ts out :
  len spub = 32 -> len ts = 12 -> returns (create_initiation sp spub rs idx e ts out).
Proof.
  intros. destruct (decide (initiation.LEN <= len out)) as [Ho|Ho].
  - rewrite create_initiation_shape by done. by do 2 ret_step.
  - unfold create_initiation. unfold initiation.LEN in *.
    by rewrite (proj2 (get_range_None _ _ _)) by lia.
Qed.

Lemma seal_returns s packet out : returns (snd (seal s packet out)).
Proof.
  destruct (decide (send_counter s < REJECT_AFTER_MESSAGES)).
  - destruct (decide (data.HEADER_LEN + next_multiple_of (len packet) PAD_TO + TAG_LEN <= len out)).
    + by rewrite seal_layout.
    + unfold seal. by rewrite (proj2 (get_range_None _ _ _)) by lia.
  - unfold seal. destruct (get_range _ _ out); [|done].
    by rewrite (proj2 (Z.leb_le _ _)) by lia.
Qed.

Lemma allocate_no_panic ps tape : no_panic (allocate_index ps tape).
Proof.
  revert tape. fix IH 1. intros [|a [|b [|c [|d tape]]]]; [discriminate..|].
  cbn [allocate_index]. destruct (index_taken _ _); [exact (IH tape)|discriminate].
Qed.

Lemma random_no_panic tape : no_panic (random_secret tape).
Proof. unfold random_secret. by case_match. Qed.

Lemma draw_no_panic ps tape :
  no_panic (let! '(i, tape) := allocate_index ps tape in
            let! '(secret, tape) := random_secret tape in Ok (i, secret, tape)).
Proof.
  pose proof (allocate_no_panic ps tape) as Ha.
  destruct (allocate_index ps tape) as [[i t]| | |]; simpl; try done.
  pose proof (random_no_panic t) as Hr. by destruct (random_secret t) as [[x t']| | |].
Qed.

Lemma respond_no_panic d m now tape out :
  no_panic (snd (respond_to_initiation d m now tape out)).
Proof.
  unfold respond_to_initiation.
  pose proof (verify_initiation_returns (dev_mac1_key d) m) as Hv.
  destruct (verify_initiation_mac1 _ m); try done.
  destruct (HandshakeBudget.take _ _) as [[] b]; cbn [negb]; [|done].
  pose proof (consume_initiation_returns (static_private d) (static_public d) (dev_mac1_key d) m) as Hc.
  cbn [static_private static_public dev_mac1_key with_budget peers].
  destruct (consume_initiation _ _ _ m) as [ini| | |]; cbn [rbind]; try done.
  destruct (position _ (peers d)) as [id|] eqn:Ep; cbn [ok_or rbind]; [|done].
  apply position_Some in Ep as (p & Hp & _). rewrite Hp. cbn [or_panic rbind].
  destruct (is_stale p _); [done|].
  pose proof (draw_no_panic (peers d) tape) as Hd. destruct (rbind _ _) as [[[i sec] t]| | |]; try done.
  pose proof (create_response_returns ini (preshared_key p) i sec out) as Hr.
  by destruct (create_response _ _ _ _ _) as [[msg keys]| | |].
Qed.

Lemma complete_ok d m now d' id :
  complete_handshake d m now = (d', Ok id) ->
  exists p s, peers d' !! id = Some p /\ current p = Some s /\ confirmed s = true.
Proof.
  unfold complete_handshake. intros H. repeat case_match; simplify_eq.
  eexists _, _. simpl. rewrite list_lookup_insert_eq; [done|].
  by eapply lookup_lt_Some.
Qed.

Lemma complete_no_panic d m now : no_panic (snd (complete_handshake d m now)).
Proof.
  unfold complete_handshake.
  pose proof (verify_response_returns (dev_mac1_key d) m) as Hv.
  destruct (verify_response_mac1 _ m) as [[]| | |] eqn:Ev; cbn [rbind]; try done.
  apply verify_response_len in Ev. unfold slice, response.RECEIVER; cbn [fst snd].
  rewrite get_range_in by lia. cbn [or_panic rbind]. unfold get_u32.
  rewrite len_sub_range by lia. change (12 - 8 =? 4) with true. cbn [rbind].
  destruct (position _ (peers d)) as [id|] eqn:Ep; cbn [ok_or]; [|done].
  apply position_Some in Ep as (p & Hp & Hpend).
  destruct (HandshakeBudget.take _ _) as [[] b]; cbn [negb]; [|done].
  cbn [peers with_budget static_private]. rewrite Hp. unfold pending_is in Hpend.
  destruct (pending p) as [h|]; [|done].
  pose proof (consume_response_returns h (static_private d) (preshared_key p) m) as Hr.
  by destruct (consume_response _ _ _ m) as [[i k]| | |].
Qed.

(** What a session opens is bytes. *)
Lemma open_plaintext_bytes s m out pl : bytes_ok m -> snd (open s m out) = Ok pl -> bytes_ok pl.
Proof.
  intros Hm H. unfold open in H. repeat case_match; simplify_eq/=.
  match goal with E : aead_open _ _ _ _ _ = Ok _ |- _ => rename E into Ea end.
  unfold aead_open, aead_open_nonce in Ea. case_if; [done|]. apply ok_or_Ok in Ea.
  match goal with E : get_range _ _ _ = Some _ |- _ => apply get_range_Some in E as (? & ? & ->) end.
  by eapply open_bytes; [|exact Ea]; auto with tf.
Qed.

Lemma open_data_from_no_panic ps i r now m out :
  bytes_ok m -> no_panic (snd (open_data_from ps i r now m out)).
Proof.
  intros Hm. revert i; induction ps as [|p ps IH]; intros i; simpl; [done|].
  destruct (select_session _ r) as [[s b]|].
  - pose proof (open_returns s m out) as Ho. pose proof (open_plaintext_bytes s m out) as Hb.
    destruct (open s m out) as [s' [pl| | |]]; try done.
    case_if; [done|]. destruct (packet_len pl) as [n|] eqn:En; [|done]. cbn [snd].
    rewrite slice_front; [done|].
    split; [by eapply packet_len_nonneg, En; apply Hb|by apply packet_len_le].
  - specialize (IH (S i)). by destruct (open_data_from ps (S i) r now m out).
Qed.

Lemma open_data_no_panic d m now out : bytes_ok m -> no_panic (snd (open_data d m now out)).
Proof.
  intros Hm. unfold open_data, data.HEADER_LEN, slice, data.RECEIVER, get_u32. case_if; [done|]. bool_hyps.
  cbn [fst snd]. rewrite get_range_in by lia. cbn [or_panic rbind].
  rewrite len_sub_range by lia. change (8 - 4 =? 4) with true. cbv iota.
  pose proof (open_data_from_no_panic (peers d) 0 (of_le (sub_range 4 8 m)) now m out Hm) as H.
  by destruct (open_data_from _ _ _ _ _ _).
Qed.

Lemma handle_udp_safe d m now tape out : bytes_ok m -> no_panic (snd (handle_udp d m now tape out)).
Proof.
  intros Hm.
  unfold handle_udp, message_type. destruct (get_at 0 m) as [ty|]; cbn [ok_or]; [|done].
  case_if; [|case_if; [|case_if; [|by case_if]]].
  - pose proof (respond_no_panic d m now tape out) as H.
    by destruct (respond_to_initiation d m now tape out) as [[d1 t1] [[id msg]| | |]].
  - pose proof (open_data_no_panic d m now out Hm) as H.
    by destruct (open_data d m now out) as [d1 [[[id p]|]| | |]].
  - pose proof (complete_no_panic d m now) as H.
    destruct (complete_handshake d m now) as [d1 [id| | |]] eqn:E; try done.
    apply complete_ok in E as (p & s & Hp & Hc & _). rewrite Hp, Hc.
    pose proof (seal_returns s [] out) as Hs. by destruct (seal s [] out) as [s' [msg| | |]].
Qed.

Lemma encapsulate_safe d id packet now out : no_panic (snd (encapsulate d id packet now out)).
Proof.
  unfold encapsulate. destruct (peers d !! id) as [p|]; [|done].
  destruct (current _) as [s|]; [|done]. case_if; [done|].
  pose proof (seal_returns s packet out) as Hs. by destruct (seal s packet out) as [s' [msg| | |]].
Qed.

Lemma poll_timers_from_safe ps i now out : no_panic (snd (poll_timers_from ps i now out)).
Proof.
  revert i; induction ps as [|p ps IH]; intros i; simpl; [done|].
  specialize (IH (S i)). destruct (poll_timers_from ps (S i) now out) as [ps' r].
  case_if; [done|]. destruct (current _) as [s|]; [|done]. case_if; [done|].
  pose proof (seal_returns s [] out) as Hs. by destruct (seal s [] out) as [s' [msg| | |]].
Qed.

Lemma poll_timers_safe d now out : no_panic (snd (poll_timers d now out)).
Proof.
  unfold poll_timers. pose proof (poll_timers_from_safe (peers d) 0 now out) as H.
  by destruct (poll_timers_from _ _ _ _).
Qed.

Lemma start_handshake_safe d id now ts tape out :
  len (static_public d) = 32 -> len ts = 12 -> no_panic (snd (start_handshake d id now ts tape out)).
Proof.
  intros Hk Hts. unfold start_handshake. destruct (peers d !! id) as [p|]; [|done].
  destruct (HandshakeBudget.take _ _) as [[] b]; cbn [negb]; [|done].
  pose proof (draw_no_panic (peers (with_budget d b)) tape) as Hd.
  destruct (rbind _ _) as [[[i sec] t]| | |]; try done.
  pose proof (create_initiation_returns (static_private d) (static_public d) (public p) i sec ts out Hk Hts) as Hr.
  cbn [static_private static_public with_budget].
  by destruct (create_initiation _ _ _ _ _ _ _) as [[msg h]| | |].
Qed.

End Panics.

(** ** How one operation may change a peer *)

Section Evolution.
Context `{P : Primitives}.

(** Timestamps only move forward. *)
Definition ts_le (a b : option bytes) : Prop :=
  match a with
  | None => True
  | Some x => exists y, b = Some y /\ (x = y \/ lex_lt x y = true)
  end.

Definition session_wf (s : Session) : Prop :=
  0 <= send_counter s <= REJECT_AFTER_MESSAGES /\
  (confirmed s = false -> send_counter s = 0) /\
  exists cs, Forall is_u64 cs /\ replay s = snd (ReplayWindow.run ReplayWindow.new cs).

Definition opt_wf (o : option Session) : Prop := forall s, o = Some s -> session_wf s.

(** The three fields of a handshake in flight are set and cleared together, and
    no session has sealed anything before its keys were confirmed. *)
Definition peer_wf (p : Peer) : Prop :=
  opt_wf (current p) /\ opt_wf (previous p) /\
  match pending p with
  | None => pending_since p = None /\ pending_last_sent p = None
  | Some _ => is_Some (pending_since p) /\ is_Some (pending_last_sent p)
  end.

Record evolves (p p' : Peer) : Prop := {
  ev_public : public p' = public p;
  ev_psk : preshared_key p' = preshared_key p;
  ev_ts : ts_le (last_timestamp p) (last_timestamp p');
  ev_wf : peer_wf p -> peer_wf p';
}.

Lemma lex_lt_irrefl a : lex_lt a a = false.
Proof. induction a as [|x a IH]; simpl; [done|]. by rewrite Z.eqb_refl. Qed.

Lemma lex_lt_trans a b c : lex_lt a b = true -> lex_lt b c = true -> lex_lt a c = true.
Proof.
  revert b c; induction a as [|x a IH]; intros [|y b] [|z c]; simpl; try done.
  destruct (Z.eqb_spec x y), (Z.eqb_spec y z), (Z.eqb_spec x z); subst; try done;
    rewrite ?Z.ltb_lt; try lia; eauto.
Qed.

Lemma lex_lt_asym a b : lex_lt a b = true -> lex_lt b a = false.
Proof.
  intros H. apply not_true_iff_false. intros H'.
  pose proof (lex_lt_trans _ _ _ H H') as Hr. by rewrite lex_lt_irrefl in Hr.
Qed.

Lemma ts_le_refl a : ts_le a a.
Proof. destruct a; simpl; eauto. Qed.

Lemma ts_le_trans a b c : ts_le a b -> ts_le b c -> ts_le a c.
Proof.
  destruct a as [x|]; [|done]. intros (y & -> & Hxy) (z & -> & Hyz). exists z. split; [done|].
  destruct Hxy as [->|Hxy], Hyz as [->|Hyz]; auto. right. by eapply lex_lt_trans.
Qed.

#[export] Instance evolves_preorder : PreOrder evolves.
Proof.
  split.
  - intros p. split; auto using ts_le_refl.
  - intros p q r [H1 H2 H3 H4] [H5 H6 H7 H8]. split; [congruence|congruence| |auto].
    by eapply ts_le_trans.
Qed.

Lemma ev_sessions p c v :
  (peer_wf p -> opt_wf c) -> (peer_wf p -> opt_wf v) -> evolves p (with_sessions p c v).
Proof.
  intros Hc Hv. split; try done; [apply ts_le_refl|]. intros Hw. pose proof Hw as (_ & _ & Hp).
  split_and!; simpl; auto.
Qed.

Lemma ev_armed p a : evolves p (with_armed p a).
Proof. split; try done. apply ts_le_refl. Qed.

Lemma ev_initiating p b : evolves p (with_initiating p b).
Proof. split; try done. apply ts_le_refl. Qed.

Lemma ev_pending p h since sent :
  match h with
  | None => since = None /\ sent = None
  | Some _ => is_Some since /\ is_Some sent
  end -> evolves p (with_pending p h since sent).
Proof. intros H. split; try done; [apply ts_le_refl|]. intros (? & ? & _). by split_and!. Qed.

Lemma ev_clear p : evolves p (clear_pending p).
Proof. by apply ev_pending. Qed.

Lemma ev_timestamp p t : is_stale p t = false -> evolves p (with_last_timestamp p (Some t)).
Proof.
  intros Hs. split; try done. simpl. unfold is_stale in Hs.
  destruct (last_timestamp p) as [l|]; simpl; [|done]. exists t. split; [done|]. right.
  unfold timestamp_is_newer in Hs. by bool_hyps.
Qed.

Lemma wf_current p : peer_wf p -> opt_wf (current p).
Proof. by intros (? & _). Qed.
Lemma wf_previous p : peer_wf p -> opt_wf (previous p).
Proof. by intros (_ & ? & _). Qed.
Lemma opt_wf_None : opt_wf None.
Proof. by intros s. Qed.
Lemma opt_wf_Some s : session_wf s -> opt_wf (Some s).
Proof. intros H s' [= <-]. done. Qed.

#[local] Hint Resolve wf_current wf_previous opt_wf_None opt_wf_Some : tf.

Lemma ev_expire p now : evolves p (expire_sessions p now).
Proof.
  unfold expire_sessions. repeat case_if; simpl.
  - etransitivity; apply ev_sessions; auto with tf.
  - apply ev_sessions; auto with tf.
  - apply ev_sessions; auto with tf.
  - reflexivity.
Qed.

Lemma session_new_wf keys li pi now : session_wf (session_new keys li pi now).
Proof.
  unfold session_wf; simpl. split_and!; [unfold REJECT_AFTER_MESSAGES, U64_MAX; lia..|done|].
  by exists [].
Qed.

Lemma confirm_wf s : session_wf s -> session_wf (confirm s).
Proof. intros (? & ? & ?). split_and!; simpl; try done; lia. Qed.

End Evolution.

(** ** How one operation may change the device *)

Section Steps.
Context `{P : Primitives} {POk : PrimitivesOk P}.
Context (PEERS : nat).

#[local] Hint Resolve wf_current wf_previous opt_wf_None opt_wf_Some : tf.

Lemma seal_wf s packet out : session_wf s -> confirmed s = true -> session_wf (fst (seal s packet out)).
Proof.
  intros Hw Hc. pose proof Hw as (Hb & Hf & Hr).
  destruct (seal_step s packet out) as [(d & -> & _ & Hlt)|(_ & ->)]; [lia| |done].
  unfold session_wf. simpl. rewrite Hc. split_and!; [lia|lia|done|done].
Qed.

Lemma open_wf s m out : session_wf s -> bytes_ok m -> session_wf (fst (open s m out)).
Proof.
  intros Hw Hm. pose proof (open_returns s m out) as Hret.
  destruct (open s m out) as [s' [pl|e| |]] eqn:E; simpl in *; [| |done..].
  - apply open_ok_inv in E as (Hl & Hc & -> & Hf). destruct Hw as (Hb & Hu & cs & Hcs & Hr).
    split_and!; simpl; try done; [lia..|].
    exists (cs ++ [of_le (sub_range 8 16 m)]). split.
    + apply Forall_app; split; [done|]. constructor; [|done].
      pose proof (of_le_bound _ (bytes_ok_sub_range 8 16 m Hm)) as Hx.
      rewrite len_sub_range in Hx by lia. apply Hx.
    + rewrite AcceptedFacts.run_snoc, <- Hr. by destruct (ReplayWindow.accept _ _).
  - by rewrite (open_err_same _ _ _ _ _ E).
Qed.

(** What every operation preserves. *)
Record later (d d' : Device) : Prop := {
  l_private : static_private d' = static_private d;
  l_public : static_public d' = static_public d;
  l_mac1 : dev_mac1_key d' = dev_mac1_key d;
  l_budget : HandshakeBudget.wf (budget d) -> HandshakeBudget.wf (budget d');
  l_capacity : (length (peers d) <= PEERS -> length (peers d') <= PEERS)%nat;
  l_peers : exists ps new, peers d' = ps ++ new /\ Forall2 evolves (peers d) ps /\ Forall peer_wf new;
}.

Lemma later_peers d ps b :
  Forall2 evolves (peers d) ps -> (HandshakeBudget.wf (budget d) -> HandshakeBudget.wf b) ->
  later d (mkDevice (static_private d) (static_public d) (dev_mac1_key d) ps b).
Proof.
  intros H Hb. split; simpl; try done.
  - by rewrite <- (Forall2_length _ _ _ H).
  - exists ps, []. by rewrite app_nil_r.
Qed.

#[export] Instance later_preorder : PreOrder later.
Proof.
  split.
  - intros d. destruct d. apply (later_peers (mkDevice _ _ _ _ _)); [|done].
    simpl. reflexivity.
  - intros a b c [] []. split; try congruence; try auto.
    destruct l_peers0 as (ps & new & E1 & H1 & Hn1), l_peers1 as (qs & new' & E2 & H2 & Hn2).
    rewrite E1 in H2. apply Forall2_app_inv_l in H2 as (q1 & q2 & Hq1 & Hq2 & ->).
    exists q1, (q2 ++ new'). rewrite <- app_assoc in E2. split; [done|]. split.
    + etransitivity; eauto.
    + apply Forall_app; split; [|done]. clear -Hq2 Hn1.
      induction Hq2; constructor; inversion Hn1; subst; [by apply (ev_wf _ _ H)|auto].
Qed.

Lemma evolve_insert l i p p' :
  l !! i = Some p -> evolves p p' -> Forall2 evolves l (<[i := p']> l).
Proof.
  intros Hi He. rewrite <- (list_insert_id l i p Hi) at 1. apply Forall2_insert; [|done].
  reflexivity.
Qed.

Lemma later_budget d now : later d (with_budget d (snd (HandshakeBudget.take (budget d) now))).
Proof.
  apply later_peers; [reflexivity|]. intros. by apply BudgetFacts.take_wf.
Qed.

Lemma later_set_peer d i p p' :
  peers d !! i = Some p -> evolves p p' -> later d (with_peers d (<[i := p']> (peers d))).
Proof. intros. apply later_peers; [|done]. by eapply evolve_insert. Qed.

Lemma later_add d pk psk : later d (fst (add_peer PEERS d pk psk)).
Proof.
  unfold add_peer. destruct (Nat.ltb_spec (length (peers d)) PEERS); simpl; [|reflexivity].
  split; simpl; try done.
  - rewrite length_app; simpl; lia.
  - exists (peers d), [new_peer pk psk]. split; [done|]. split; [reflexivity|].
    constructor; [|done]. split_and!; simpl; auto with tf.
Qed.

Lemma later_set_initiating d id b : later d (fst (set_initiating d id b)).
Proof.
  unfold set_initiating. destruct (peers d !! id) as [p|] eqn:E; simpl; [|reflexivity].
  eapply later_set_peer; [done|]. destruct b; [apply ev_initiating|].
  etransitivity; [apply ev_initiating|apply ev_clear].
Qed.

Lemma later_respond d m now tape out : later d (respond_to_initiation d m now tape out).1.1.
Proof.
  unfold respond_to_initiation. destruct (verify_initiation_mac1 _ _); try reflexivity.
  pose proof (later_budget d now) as Hb. destruct (HandshakeBudget.take _ now) as [[] b];
    cbn [negb snd] in *; [|done].
  destruct (let! ini := _ in _) as [[[ini id] p]| | |] eqn:E; try done. inv_res.
  match goal with H : peers _ !! _ = Some _ |- _ => rename H into Hp end.
  destruct (rbind _ _) as [[[i sec] t]| | |]; try done.
  destruct (create_response _ _ _ _ _) as [[msg keys]| | |]; try done.
  etransitivity; [done|]. simplify_eq. eapply later_set_peer; [exact Hp|].
  etransitivity; [apply ev_timestamp; eassumption|].
  etransitivity; [|apply ev_clear]. etransitivity; [|apply ev_armed].
  apply ev_sessions; auto using session_new_wf with tf.
Qed.

Lemma later_complete d m now : later d (fst (complete_handshake d m now)).
Proof.
  unfold complete_handshake. destruct (rbind _ _) as [id| | |]; try reflexivity.
  pose proof (later_budget d now) as Hb. destruct (HandshakeBudget.take _ now) as [[] b];
    cbn [negb snd] in *; [|done].
  destruct (peers _ !! id) as [p|] eqn:Hp; [|done]. destruct (pending p) as [h|]; [|done].
  destruct (consume_response _ _ _ _) as [[pi keys]| | |]; try done.
  etransitivity; [done|]. eapply later_set_peer; [exact Hp|].
  etransitivity; [apply ev_clear|]. etransitivity; [|apply ev_armed].
  apply ev_sessions; auto using session_new_wf, confirm_wf with tf.
Qed.

Lemma select_wf p r s b : peer_wf p -> select_session p r = Some (s, b) -> session_wf s.
Proof.
  intros (Hc & Hv & _) H. unfold select_session in H.
  repeat case_match; simplify_eq; first [by apply Hc | by apply Hv].
Qed.

Lemma ev_put_session p s b : (peer_wf p -> session_wf s) -> evolves p (put_session p s b).
Proof. intros H. unfold put_session. destruct b; apply ev_sessions; auto with tf. Qed.

Lemma evolve_open_data ps i r now m out :
  bytes_ok m -> Forall2 evolves ps (fst (open_data_from ps i r now m out)).
Proof.
  intros Hm. revert i; induction ps as [|p ps IH]; intros i; simpl; [constructor|].
  pose proof (ev_expire p now) as Hx. set (q := expire_sessions p now) in *.
  destruct (select_session q r) as [[s b]|] eqn:Es.
  2: { specialize (IH (S i)). destruct (open_data_from _ _ _ _ _ _). by constructor. }
  assert (peer_wf q -> session_wf (fst (open s m out))) as Ho.
  { intros Hq. apply open_wf; [|done]. by eapply select_wf. }
  assert (Forall2 evolves ps ps) as Hps by reflexivity.
  destruct (open s m out) as [s' [pl| | |]]; simpl in Ho;
    try (constructor; [etransitivity; [exact Hx|by apply ev_put_session]|done]).
  assert (evolves q (put_session q (confirm s') b)) as Hput
    by (apply ev_put_session; auto using confirm_wf).
  set (q1 := put_session q (confirm s') b) in *.
  assert (evolves p (if b then with_sessions q1 (previous q1) None else q1)) as Hq1.
  { etransitivity; [exact Hx|]. etransitivity; [exact Hput|]. destruct b; [|reflexivity].
    apply ev_sessions; auto with tf. }
  case_if; [by constructor|]. destruct (packet_len pl); (constructor; [|done]); [|done].
  etransitivity; [exact Hq1|apply ev_armed].
Qed.

Lemma later_open_data d m now out : bytes_ok m -> later d (fst (open_data d m now out)).
Proof.
  intros Hm. unfold open_data. case_if; [reflexivity|].
  destruct (rbind _ _) as [r| | |]; try reflexivity.
  pose proof (evolve_open_data (peers d) 0 r now m out Hm) as H.
  destruct (open_data_from _ _ _ _ _ _). by apply later_peers.
Qed.

(** Sealing under a confirmed current session. *)
Lemma ev_seal p s packet out :
  current p = Some s -> confirmed s = true ->
  evolves p (with_sessions p (Some (fst (seal s packet out))) (previous p)).
Proof.
  intros Hc Hs. apply ev_sessions; auto with tf. intros Hw. apply opt_wf_Some, seal_wf; [|done].
  by apply (wf_current p Hw).
Qed.

Lemma later_handle_udp d m now tape out : bytes_ok m -> later d (handle_udp d m now tape out).1.1.
Proof.
  intros Hm. unfold handle_udp. destruct (message_type m) as [ty| | |]; try reflexivity.
  case_if; [|case_if; [|case_if; [|by case_if; reflexivity]]].
  - pose proof (later_respond d m now tape out) as H.
    by destruct (respond_to_initiation d m now tape out) as [[d1 t1] r].
  - pose proof (later_open_data d m now out Hm) as H. by destruct (open_data d m now out).
  - pose proof (later_complete d m now) as H.
    destruct (complete_handshake d m now) as [d1 [id| | |]] eqn:E; try done. simpl in H.
    apply complete_ok in E as (p & s & Hp & Hc & Hs). rewrite Hp, Hc.
    pose proof (ev_seal p s [] out Hc Hs) as Hev. destruct (seal s [] out) as [s' r]; simpl in Hev.
    destruct r; simpl; (etransitivity; [exact H|]); (eapply later_set_peer; [exact Hp|]); try done.
    etransitivity; [exact Hev|apply ev_armed].
Qed.

Lemma later_encapsulate d id packet now out : later d (fst (encapsulate d id packet now out)).
Proof.
  unfold encapsulate. destruct (peers d !! id) as [p|] eqn:Hp; [|reflexivity].
  pose proof (ev_expire p now) as Hx. set (q := expire_sessions p now) in *.
  destruct (current q) as [s|] eqn:Hc; [|by eapply later_set_peer].
  destruct (is_confirmed s) eqn:Hs; cbn [negb]; [|by eapply later_set_peer].
  pose proof (ev_seal q s packet out Hc Hs) as Hev.
  destruct (seal s packet out) as [s' r]; simpl in Hev.
  destruct r; simpl; (eapply later_set_peer; [exact Hp|]); (etransitivity; [exact Hx|]); try done.
  etransitivity; [exact Hev|apply ev_armed].
Qed.

Lemma evolve_poll_timers ps i now out : Forall2 evolves ps (fst (poll_timers_from ps i now out)).
Proof.
  revert i; induction ps as [|p ps IH]; intros i; simpl; [constructor|].
  specialize (IH (S i)). destruct (poll_timers_from ps (S i) now out) as [ps' r]; simpl in IH.
  pose proof (ev_expire p now) as Hx. set (q := expire_sessions p now) in *.
  case_if; [by constructor|]. destruct (current q) as [s|] eqn:Hc; [|by constructor].
  destruct (is_confirmed s) eqn:Hs; cbn [negb]; [|by constructor].
  pose proof (ev_seal q s [] out Hc Hs) as Hev. destruct (seal s [] out) as [s' r']; simpl in Hev.
  assert (evolves p (with_sessions q (Some s') (previous q))) as Hq by by etransitivity.
  destruct r'; simpl; (constructor; [|done || reflexivity]); try done.
  etransitivity; [exact Hq|apply ev_armed].
Qed.

Lemma later_poll_timers d now out : later d (fst (poll_timers d now out)).
Proof.
  unfold poll_timers. pose proof (evolve_poll_timers (peers d) 0 now out) as H.
  destruct (poll_timers_from _ _ _ _). by apply later_peers.
Qed.

Lemma later_start d id now ts tape out : later d (start_handshake d id now ts tape out).1.1.
Proof.
  unfold start_handshake. destruct (peers d !! id) as [p|] eqn:Hp; [|reflexivity].
  pose proof (later_budget d now) as Hb. destruct (HandshakeBudget.take _ now) as [[] b];
    cbn [negb snd] in *; [|done].
  destruct (rbind _ _) as [[[i sec] t]| | |]; try done.
  destruct (create_initiation _ _ _ _ _ _ _) as [[msg h]| | |]; try done.
  etransitivity; [done|]. eapply later_set_peer; [exact Hp|].
  apply ev_pending. split; [|done]. unfold get_or_insert. by destruct (pending_since p).
Qed.

Lemma later_poll_handshakes n i d now ts tape out :
  later d (poll_handshakes_from n i d now ts tape out).1.1.
Proof.
  revert i d tape; induction n as [|n IH]; intros i d tape; simpl; [reflexivity|].
  destruct (peers d !! i) as [p|] eqn:Hp; [|reflexivity].
  pose proof (later_set_peer d i p _ Hp (ev_expire p now)) as H1.
  case_if; [by etransitivity|].
  match goal with |- context [start_handshake ?d1 ?i ?n ?ts ?t ?o] =>
    pose proof (later_start d1 i n ts t o) as H2; destruct (start_handshake d1 i n ts t o) as [[d2 t2] r] end.
  simpl in H2. assert (later d d2) as H3 by by etransitivity.
  destruct r as [msg|[]| |]; try done; by etransitivity.
Qed.

(** ** Reachable devices *)

(** One call of the public interface, with whatever arguments. *)
Inductive step (d : Device) : Device -> Prop :=
| step_add_peer pk psk : step d (fst (add_peer PEERS d pk psk))
| step_set_initiating id b : step d (fst (set_initiating d id b))
| step_handle_udp m now tape out : bytes_ok m -> step d (handle_udp d m now tape out).1.1
| step_start_handshake id now ts tape out : step d (start_handshake d id now ts tape out).1.1
| step_poll_handshakes now ts tape out : step d (poll_handshakes d now ts tape out).1.1
| step_encapsulate id packet now out : step d (fst (encapsulate d id packet now out))
| step_poll_timers now out : step d (fst (poll_timers d now out)).

Lemma step_later d d' : step d d' -> later d d'.
Proof.
  destruct 1; auto using later_add, later_set_initiating, later_handle_udp, later_start,
    later_encapsulate, later_poll_timers. apply later_poll_handshakes.
Qed.

Lemma steps_later d d' : rtc step d d' -> later d d'.
Proof. induction 1; [reflexivity|]. etransitivity; [by apply step_later|done]. Qed.

Lemma later_wf d d' : later d d' -> Forall peer_wf (peers d) -> Forall peer_wf (peers d').
Proof.
  intros [] Hw. destruct l_peers0 as (ps & new & -> & Hev & Hnew).
  apply Forall_app; split; [|done]. clear -Hev Hw.
  induction Hev; constructor; inversion Hw; subst; [by apply (ev_wf _ _ H)|auto].
Qed.

(** ** Replayed initiations *)

Lemma position_prefix {A} (f : A -> bool) l l' new i :
  Forall2 (fun x y => f x = f y) l l' -> position f l = Some i -> position f (l' ++ new) = Some i.
Proof.
  intros H; revert i; induction H as [|x y l l' Hxy H IH]; intros i; cbn [position app]; [done|].
  rewrite <- Hxy. destruct (f x); [done|].
  intros (j & Hj & ->)%fmap_Some. by rewrite (IH j Hj).
Qed.

Lemma respond_ok_inv d m now tape out d' t' id msg :
  respond_to_initiation d m now tape out = (d', t', Ok (id, msg)) ->
  exists ini p',
    consume_initiation (static_private d) (static_public d) (dev_mac1_key d) m = Ok ini /\
    position (fun p => bytes_eqb (public p) (peer_static ini)) (peers d) = Some id /\
    peers d' !! id = Some p' /\ last_timestamp p' = Some (timestamp ini).
Proof.
  unfold respond_to_initiation. destruct (verify_initiation_mac1 _ _); try done.
  destruct (HandshakeBudget.take _ now) as [[] b]; cbn [negb]; [|done].
  cbn [static_private static_public dev_mac1_key with_budget peers].
  destruct (let! ini := _ in _) as [[[ini id'] p]| | |] eqn:E; try done. inv_res. simplify_eq.
  destruct (rbind _ _) as [[[i sec] t]| | |]; try done.
  destruct (create_response _ _ _ _ _) as [[msg' keys]| | |]; try done.
  intros [= <- <- <- <-]. eexists _, _. split_and!; [done|done| |].
  - simpl. apply list_lookup_insert_eq. by eapply lookup_lt_Some.
  - done.
Qed.

Lemma stale_forever p p' ts :
  last_timestamp p = Some ts -> ts_le (last_timestamp p) (last_timestamp p') ->
  is_stale p' ts = true.
Proof.
  intros Hl. rewrite Hl. intros (y & Hy & H). unfold is_stale, timestamp_is_newer. rewrite Hy.
  apply negb_true_iff. destruct H as [->|H]; [apply lex_lt_irrefl|by apply lex_lt_asym].
Qed.

Lemma respond_again d m now tape out d1 t1 id msg d2 :
  respond_to_initiation d m now tape out = (d1, t1, Ok (id, msg)) -> later d1 d2 ->
  forall now' tape' out',
    snd (respond_to_initiation d2 m now' tape' out') = Err RateLimited \/
    snd (respond_to_initiation d2 m now' tape' out') = Err StaleTimestamp.
Proof.
  intros Hr Hlater now' tape' out'.
  pose proof (later_respond d m now tape out) as H01. rewrite Hr in H01; simpl in H01.
  apply respond_ok_inv in Hr as (ini & p1 & Hci & Hpos & Hp1 & Hts).
  assert (later d d2) as [Hsk Hpk Hmk _ _ (ps & new & Hps & Hev & _)] by by etransitivity.
  destruct Hlater as [_ _ _ _ _ (ps1 & new1 & Hps1 & Hev1 & _)].
  assert (verify_initiation_mac1 (dev_mac1_key d) m = Ok tt) as Hv.
  { unfold consume_initiation in Hci. inv_res. by destruct a. }
  unfold respond_to_initiation. rewrite Hmk, Hv.
  destruct (HandshakeBudget.take _ now') as [[] b]; cbn [negb]; [|by left].
  cbn [static_private static_public dev_mac1_key with_budget peers]. rewrite Hsk, Hpk, Hmk, Hci.
  cbn [rbind]. rewrite Hps.
  assert (Forall2 (fun x y => bytes_eqb (public x) (peer_static ini) = bytes_eqb (public y) (peer_static ini)) (peers d) ps) as Hsame.
  { eapply Forall2_impl; [exact Hev|]. intros x y Hxy. by rewrite (ev_public _ _ Hxy). }
  rewrite (position_prefix _ _ _ _ _ Hsame Hpos). cbn [ok_or rbind].
  rewrite <- Hps, Hps1.
  destruct (Forall2_lookup_l _ _ _ _ _ Hev1 Hp1) as (p2 & Hp2 & Hev2).
  rewrite lookup_app_l by (by eapply lookup_lt_Some). rewrite Hp2. cbn [or_panic rbind].
  rewrite (stale_forever p1 p2 (timestamp ini) Hts (ev_ts _ _ Hev2)). by right.
Qed.

End Steps.

(** ** Properties *)

Section Properties.
Context `{P : Primitives} {POk : PrimitivesOk P}.
Context (PEERS : nat).

Lemma poll_handshakes_safe n i d now ts tape out :
  len (static_public d) = 32 -> len ts = 12 -> (i + n <= length (peers d))%nat ->
  no_panic (snd (poll_handshakes_from n i d now ts tape out)).
Proof.
  intros Hk Hts. revert i d tape Hk; induction n as [|n IH]; intros i d tape Hk Hn; simpl; [done|].
  destruct (lookup_lt_is_Some_2 (peers d) i) as [p ->]; [lia|].
  case_if; [apply IH; simpl; rewrite ?length_insert; lia || done|].
  match goal with |- context [start_handshake ?d1 ?i ?n ?ts ?t ?o] =>
    pose proof (later_start PEERS d1 i n ts t o) as Hl;
    pose proof (start_handshake_safe d1 i n ts t o Hk Hts) as Hs;
    destruct (start_handshake d1 i n ts t o) as [[d2 t2] r] end.
  simpl in Hl, Hs. destruct Hl as [_ Hpk _ _ _ (ps & new & Hps & He%Forall2_length & _)].
  simpl in Hpk, He. rewrite length_insert in He.
  destruct r as [|[]| |]; try done; apply IH; rewrite ?Hpk, ?Hps, ?length_app; try done; lia.
Qed.

(** C3: No datagram can crash the device.  For every device state, datagram
    (bytes of any length and content), clock value, tape and output buffer,
    [handle_udp], [encapsulate], [poll_timers], [start_handshake] and
    [poll_handshakes] do not panic: every slice index and [expect] on those
    paths is safe, the slice to the length an opened packet declares included.
    (The key and the timestamp are arrays, of 32 and 12 bytes.) *)
Theorem device_never_panics {PB : ByteCipher P} (d : Device) (m packet ts tape out : bytes) (id : PeerId) (now : Z) :
  len (static_public d) = 32 -> len ts = 12 -> bytes_ok m ->
  no_panic (snd (handle_udp d m now tape out)) /\
  no_panic (snd (encapsulate d id packet now out)) /\
  no_panic (snd (poll_timers d now out)) /\
  no_panic (snd (start_handshake d id now ts tape out)) /\
  no_panic (snd (poll_handshakes d now ts tape out)).
Proof.
  intros Hk Hts Hm. split_and!; auto using handle_udp_safe, encapsulate_safe, poll_timers_safe,
    start_handshake_safe. unfold poll_handshakes. by apply poll_handshakes_safe.
Qed.

(** C5: The invariant of every device reachable from a new one by any calls in
    any order.  The peer table respects its capacity, the token bucket its
    burst; the three fields of a handshake in flight are set or clear together;
    a session's send counter stays within the reject limit; and a session whose
    keys the peer has not confirmed has never sealed a message. *)
Theorem device_invariant (sk : bytes) (d : Device) :
  rtc (step PEERS) (device_new sk) d ->
  (peer_count d <= PEERS)%nat /\ HandshakeBudget.wf (budget d) /\
  static_public d = x25519_base sk /\
  forall i p, peers d !! i = Some p ->
    (pending p = None <-> pending_since p = None) /\
    (pending p = None <-> pending_last_sent p = None) /\
    forall s, current p = Some s \/ previous p = Some s ->
      0 <= send_counter s <= REJECT_AFTER_MESSAGES /\
      (confirmed s = false -> send_counter s = 0).
Proof.
  intros Hr%steps_later. pose proof Hr as [_ Hpk _ Hb Hcap _].
  split_and!; [apply Hcap; simpl; lia|apply Hb|done|].
  { unfold HandshakeBudget.wf; simpl. unfold HANDSHAKE_BURST; lia. }
  intros i p Hp. apply later_wf in Hr; [|by constructor].
  pose proof (Forall_lookup_1 _ _ _ _ Hr Hp) as (Hc & Hv & Hpend).
  split_and!.
  - destruct (pending p); [destruct Hpend as [[? ->] _]|destruct Hpend as [-> _]]; done.
  - destruct (pending p); [destruct Hpend as [_ [? ->]]|destruct Hpend as [_ ->]]; done.
  - intros s [Hs|Hs]; [destruct (Hc s Hs) as (? & ? & _)|destruct (Hv s Hs) as (? & ? & _)]; auto.
Qed.

(** C4: An initiation is accepted at most once.  If the device answered the
    initiation [m], then after any further calls, in any order and with any
    arguments, [m] is refused: it is rate limited or its timestamp is stale. *)
Theorem initiation_accepted_once (d d1 d2 : Device) (m tape tape1 out : bytes) (now : Z)
    (id : PeerId) (reply : bytes) :
  handle_udp d m now tape out = (d1, tape1, Ok (Send id reply)) ->
  message_type m = Ok TYPE_INITIATION ->
  rtc (step PEERS) d1 d2 ->
  forall now' tape' out',
    snd (handle_udp d2 m now' tape' out') = Err RateLimited \/
    snd (handle_udp d2 m now' tape' out') = Err StaleTimestamp.
Proof.
  intros Hh Hty Hsteps%steps_later now' tape' out'. unfold handle_udp in *. rewrite Hty in *.
  rewrite Z.eqb_refl in *.
  destruct (respond_to_initiation d m now tape out) as [[da ta] [[id' msg]| | |]] eqn:E; try done.
  simpl in Hh. simplify_eq.
  destruct (respond_again PEERS d m now tape out d1 tape1 id reply d2 E Hsteps now' tape' out') as [H|H];
    destruct (respond_to_initiation d2 m now' tape' out') as [[db tb] r]; simpl in *; subst; auto.
Qed.

(** What [encapsulate] answers, on every branch.  Data leaves only under the
    peer's current session, only while it is usable, and only once the peer has
    confirmed the keys; otherwise the error names the first condition that
    failed. *)
Theorem encapsulate_exact (d : Device) (id : PeerId) (packet : bytes) (now : Z) (out : bytes) :
  snd (encapsulate d id packet now out) =
  match peers d !! id with
  | None => Err UnknownPeer
  | Some p =>
      match current p with
      | Some s =>
          if is_usable s now then
            if is_confirmed s then
              if data.HEADER_LEN + next_multiple_of (len packet) PAD_TO + TAG_LEN <=? len out
              then Ok (Send id (data_message s packet)) else Err BufferTooSmall
            else Err Unconfirmed
          else Err NoSession
      | None => Err NoSession
      end
  end.
Proof.
  unfold encapsulate. destruct (peers d !! id) as [p|]; [|done].
  assert (current (expire_sessions p now) = if expired now (current p) then None else current p) as ->.
  { unfold expire_sessions. by repeat case_if. }
  destruct (current p) as [s|]; cbn [expired]; [|done].
  destruct (is_usable s now) eqn:Hu; cbn [negb]; [|done].
  destruct (is_confirmed s); cbn [negb]; [|done].
  unfold is_usable in Hu. bool_hyps. case_if; bool_hyps.
  - by rewrite seal_layout by lia.
  - unfold seal. by rewrite (proj2 (get_range_None _ _ _)) by lia.
Qed.

End Properties.

(** ** Choosing a session index *)

(** The candidates a tape offers, in order. *)
Fixpoint candidates (tape : bytes) : list Z :=
  match tape with
  | a :: b :: c :: d :: tape => of_le [a; b; c; d] :: candidates tape
  | _ => []
  end.

Definition live_indices (ps : list Peer) : list Z :=
  concat (map (fun p => map local_index (option_list (current p) ++ option_list (previous p))) ps).

Lemma index_taken_spec ps c : index_taken ps c = true <-> In c (live_indices ps).
Proof.
  unfold index_taken, live_indices. rewrite existsb_exists, in_concat. split.
  - intros (p & Hp & H). eexists. split; [by apply (in_map _ _ _ Hp)|].
    apply in_map_iff. apply orb_true_iff in H. unfold has_index in H.
    destruct H as [H|H]; [destruct (current p) as [s|] eqn:E|destruct (previous p) as [s|] eqn:E];
      try done; bool_hyps; exists s; (split; [done|]); apply in_or_app; rewrite ?E; simpl; auto.
  - intros (l & (p & <- & Hp)%in_map_iff & (s & <- & Hs)%in_map_iff). exists p. split; [done|].
    apply orb_true_iff. apply in_app_or in Hs. unfold has_index.
    destruct Hs as [Hs|Hs]; [left; destruct (current p)|right; destruct (previous p)];
      simpl in Hs; try done; destruct Hs as [->|[]]; apply Z.eqb_refl.
Qed.

Lemma allocate_first_free ps tape pre c post :
  candidates tape = pre ++ c :: post -> Forall (fun x => In x (live_indices ps)) pre ->
  ~ In c (live_indices ps) ->
  exists rest, allocate_index ps tape = Ok (c, rest) /\ len rest = len tape - 4 * len pre - 4.
Proof.
  revert tape; induction pre as [|x pre IH]; intros tape Hc Hpre Hfree.
  - destruct tape as [|a [|b [|c0 [|d tape]]]]; try done.
    cbn [candidates app] in Hc. injection Hc as <- Hc. exists tape. cbn [allocate_index]. destruct (index_taken ps _) eqn:E.
    + by apply index_taken_spec in E.
    + split; [done|]. llia.
  - destruct tape as [|a [|b [|c0 [|d tape]]]]; try done.
    cbn [candidates app] in Hc. injection Hc as Hx Hc.
    inversion Hpre; subst. destruct (IH tape Hc ltac:(done) Hfree) as (rest & Hr & Hl).
    exists rest. cbn [allocate_index]. rewrite (proj2 (index_taken_spec ps _)) by done.
    split; [done|]. rewrite Hl. llia.
Qed.

Lemma live_indices_count ps : (length (live_indices ps) <= 2 * length ps)%nat.
Proof.
  unfold live_indices. induction ps as [|p ps IH]; simpl; [lia|].
  rewrite length_app, length_map, length_app. destruct (current p), (previous p); simpl; lia.
Qed.

(** Index allocation terminates and returns an unused index.  At most two
    sessions per peer are live, so a tape whose first [2 * peers + 1] draws are
    pairwise distinct always yields one, and the index returned belongs to no
    current or previous session. *)
Theorem allocate_index_total (ps : list Peer) (tape : bytes) :
  (2 * length ps < length (candidates tape))%nat ->
  NoDup (take (2 * length ps + 1) (candidates tape)) ->
  exists c rest, allocate_index ps tape = Ok (c, rest) /\ ~ In c (live_indices ps).
Proof.
  intros Hn Hd. set (cs := candidates tape) in *.
  destruct (List.Forall_Exists_dec (fun x => In x (live_indices ps))
    (fun x => in_dec Z.eq_dec x (live_indices ps)) (take (2 * length ps + 1) cs)) as [Hall|Hex].
  - exfalso. apply NoDup_ListNoDup in Hd.
    assert (incl (take (2 * length ps + 1) cs) (live_indices ps)) as Hi
      by (intros x Hx; by apply (proj1 (List.Forall_forall _ _) Hall)).
    pose proof (NoDup_incl_length Hd Hi) as Hl. pose proof (live_indices_count ps).
    rewrite length_take in Hl. lia.
  - apply Exists_exists in Hex.
    assert (exists pre c post, cs = pre ++ c :: post /\
      Forall (fun x => In x (live_indices ps)) pre /\ ~ In c (live_indices ps)) as Hfirst.
    { clear Hd Hn. destruct Hex as (x & Hx & Hfree). apply elem_of_take in Hx as (j & Hx & _).
      clearbody cs. clear -Hx Hfree. revert j Hx. induction cs as [|y cs IH]; intros j Hx; [done|].
      destruct (in_dec Z.eq_dec y (live_indices ps)) as [Hy|Hy]; [|by exists [], y, cs].
      destruct j as [|j]; simpl in Hx; [by simplify_eq|].
      destruct (IH j Hx) as (pre & c & post & -> & ? & ?). exists (y :: pre), c, post. auto. }
    destruct Hfirst as (pre & c & post & Hc & Hpre & Hfree).
    destruct (allocate_first_free ps tape pre c post Hc Hpre Hfree) as (rest & Hr & _). eauto.
Qed.

(** ** Concrete devices *)

#[local] Existing Instance Toy.prims.
#[local] Existing Instance Toy.prims_ok.

(** Two devices that know each other, as a caller sets them up. *)
Definition example_a : Device := fst (add_peer 4 (device_new (replicate 32 3)) (x25519_base (replicate 32 5)) None).
Definition example_b : Device := fst (add_peer 4 (device_new (replicate 32 5)) (x25519_base (replicate 32 3)) None).

(** The first device's initiation, and the second device after answering it. *)
Definition example_initiation : bytes :=
  match (start_handshake example_a 0 1000 (replicate 12 7) (replicate 36 9) (zeros 148)).2 with
  | Ok m => m | _ => [] end.
Definition example_answered : Device :=
  (handle_udp example_b example_initiation 1001 (replicate 36 11) (zeros 128)).1.1.
Definition example_reply : bytes :=
  match (handle_udp example_b example_initiation 1001 (replicate 36 11) (zeros 128)).2 with
  | Ok (Send _ m) => m | _ => [] end.

Lemma device_never_panics_witness :
  no_panic (snd (handle_udp example_b (zeros 148) 5 [] (zeros 128))) /\
  no_panic (snd (encapsulate example_b 0 [] 5 (zeros 128))) /\
  no_panic (snd (poll_timers example_b 5 (zeros 128))) /\
  no_panic (snd (start_handshake example_b 0 5 (zeros 12) [] (zeros 128))) /\
  no_panic (snd (poll_handshakes example_b 5 (zeros 12) [] (zeros 128))).
Proof.
  apply (device_never_panics 4 example_b (zeros 148) [] (zeros 12) [] (zeros 128) 0 5); [vm_compute; reflexivity..|]. vm_compute. repeat constructor; discriminate.
Defined.

Lemma device_invariant_witness :
  (peer_count example_a <= 4)%nat /\ HandshakeBudget.wf (budget example_a) /\
  static_public example_a = x25519_base (replicate 32 3) /\
  forall i p, peers example_a !! i = Some p ->
    (pending p = None <-> pending_since p = None) /\
    (pending p = None <-> pending_last_sent p = None) /\
    forall s, current p = Some s \/ previous p = Some s ->
      0 <= send_counter s <= REJECT_AFTER_MESSAGES /\
      (confirmed s = false -> send_counter s = 0).
Proof.
  apply (device_invariant 4 (replicate 32 3) example_a).
  eapply rtc_l; [apply (step_add_peer 4 _ (x25519_base (replicate 32 5)) None)|apply rtc_refl].
Defined.

Lemma initiation_accepted_once_witness :
  snd (handle_udp example_answered example_initiation 60000 (replicate 36 13) (zeros 128)) = Err RateLimited \/
  snd (handle_udp example_answered example_initiation 60000 (replicate 36 13) (zeros 128)) = Err StaleTimestamp.
Proof.
  apply (initiation_accepted_once 4 example_b example_answered example_answered example_initiation
    (replicate 36 11) [] (zeros 128) 1001 0 example_reply).
  - vm_compute; reflexivity.
  - vm_compute; reflexivity.
  - apply rtc_refl.
Defined.

Lemma allocate_index_total_witness :
  exists c rest, allocate_index (peers example_answered) (map Z.of_nat (seq 0 12)) = Ok (c, rest) /\
    ~ In c (live_indices (peers example_answered)).
Proof.
  apply (allocate_index_total (peers example_answered) (map Z.of_nat (seq 0 12))).
  - vm_compute; lia.
  - apply (bool_decide_unpack _); vm_compute; exact I.
Defined.

Lemma encapsulate_exact_witness :
  snd (encapsulate example_answered 0 [] 1002 (zeros 128)) = Err Unconfirmed.
Proof. rewrite (encapsulate_exact example_answered 0 [] 1002 (zeros 128)). vm_compute. reflexivity. Defined.
