(* ===== verification/DeviceConnect.v ===== *)
(** * Two devices: delivery and connection

    End-to-end theorems over [Device.v]: a packet one device encapsulates is the
    packet the other delivers, and two devices that know each other's keys
    connect in three datagrams. *)

From S2P Require Import Prelude Timers Replay Messages Crypto Noise Transport Device DeviceFacts.

Section Link.
Context `{P : Primitives} {POk : PrimitivesOk P}.

(** ** Reading a data message *)

Lemma data_message_fields s packet :
  exists sealed tag,
    aead_seal (s_sending s) (send_counter s) [] (padded_packet packet) = (sealed, tag) /\
    len sealed = next_multiple_of (len packet) PAD_TO /\ len tag = 16 /\
    data_message s packet =
      concat [[TYPE_DATA]; zeros 3; to_le 4 (peer_index s); to_le 8 (send_counter s); sealed; tag].
Proof.
  unfold data_message.
  pose proof (len_seal (s_sending s) (nonce_le (send_counter s)) [] (padded_packet packet)) as Hs.
  pose proof (len_tag (s_sending s) (nonce_le (send_counter s)) [] (padded_packet packet)) as Ht.
  rewrite len_padded in Hs. unfold aead_seal, aead_seal_nonce.
  destruct (chacha_seal _ _ _ (padded_packet packet)) as [c t]; simpl in Hs, Ht. eauto 6.
Qed.

Lemma data_message_receiver s packet :
  is_u32 (peer_index s) ->
  16 <= len (data_message s packet) /\ message_type (data_message s packet) = Ok TYPE_DATA /\
  (let! r := slice data.RECEIVER (data_message s packet) in get_u32 r) = Ok (peer_index s).
Proof.
  intros Hu. destruct (data_message_fields s packet) as (c & t & _ & Hc & Ht & ->).
  destruct (next_multiple_pad (len packet)) as [Hp _]; [apply len_nonneg|].
  split_and!; [cbn [concat]; llia|done|]. unfold data.RECEIVER.
  read_fields 2%nat 3%nat. unfold get_u32. cbn [concat]. rewrite app_nil_r, len_to_le.
  by rewrite of_to_le_small.
Qed.

(** Peers that hold no session under the index are passed over. *)
Lemma open_data_skip pre tl i r now m out :
  Forall (fun q => select_session (expire_sessions q now) r = None) pre ->
  open_data_from (pre ++ tl) i r now m out =
  let (ps, res) := open_data_from tl (i + length pre) r now m out in
  (map (fun q => expire_sessions q now) pre ++ ps, res).
Proof.
  intros H; revert i; induction H as [|q pre Hq _ IH]; intros i.
  - cbn [app length map]. rewrite Nat.add_0_r. by destruct (open_data_from tl i r now m out).
  - cbn [app length map open_data_from]. rewrite Hq, IH.
    replace (S i + length pre)%nat with (i + S (length pre))%nat by lia.
    by destruct (open_data_from tl (i + S (length pre)) r now m out).
Qed.

Lemma expire_usable p now s :
  current p = Some s -> is_usable s now = true -> current (expire_sessions p now) = Some s.
Proof. intros Hc Hu. unfold expire_sessions. rewrite Hc. simpl. rewrite Hu. simpl. by case_if. Qed.

(** A data message for the current session of peer [p], found at its place. *)
Lemma open_data_current s packet pre p post now out sb :
  Forall (fun q => select_session (expire_sessions q now) (peer_index s) = None) pre ->
  current p = Some sb -> is_usable sb now = true -> local_index sb = peer_index s ->
  s_receiving sb = s_sending s -> 0 <= send_counter s < REJECT_AFTER_MESSAGES ->
  next_multiple_of (len packet) PAD_TO <= len out ->
  fst (ReplayWindow.accept (replay sb) (send_counter s)) = true ->
  exists p', current p' = Some (confirm (with_replay sb (snd (ReplayWindow.accept (replay sb) (send_counter s))))) /\
    open_data_from (pre ++ p :: post) 0 (peer_index s) now (data_message s packet) out =
    (map (fun q => expire_sessions q now) pre ++ p' :: post,
     if len packet =? 0 then Ok None
     else match packet_len (padded_packet packet) with
          | None => Err Malformed
          | Some n =>
              let! packet := slice (0, n) (padded_packet packet ++ zdrop (len (padded_packet packet)) out) in
              Ok (Some (length pre, packet))
          end).
Proof.
  intros Hpre Hc Hu Hidx Hk Hcnt Hout Hf. rewrite open_data_skip by done.
  cbn [open_data_from]. set (q := expire_sessions p now).
  assert (current q = Some sb) as Hq by by apply expire_usable.
  assert (select_session q (peer_index s) = Some (sb, false)) as ->.
  { unfold select_session. rewrite Hq. by rewrite Hidx, Z.eqb_refl. }
  rewrite open_data_message by done.
  destruct (ReplayWindow.accept (replay sb) (send_counter s)) as [fresh w]; simpl in Hf. subst fresh.
  assert ((len (padded_packet packet) =? 0) = (len packet =? 0)) as ->.
  { rewrite len_padded. destruct (next_multiple_pad (len packet)) as [Hp _]; [apply len_nonneg|].
    destruct (Z.eqb_spec (len packet) 0) as [->|]; [done|]. apply Z.eqb_neq. nonneg_lens. lia. }
  cbv beta iota. destruct (len packet =? 0); [by eexists; split; cycle 1; [reflexivity|]|].
  destruct (packet_len (padded_packet packet)); by eexists; split; cycle 1; [reflexivity|].
Qed.

(** ** Delivery *)

Lemma encapsulate_sends d i p s packet now out :
  peers d !! i = Some p -> current p = Some s -> is_usable s now = true -> confirmed s = true ->
  0 <= send_counter s -> data.HEADER_LEN + next_multiple_of (len packet) PAD_TO + TAG_LEN <= len out ->
  snd (encapsulate d i packet now out) = Ok (Send i (data_message s packet)).
Proof.
  intros Hp Hc Hu Hconf H0 Ho. unfold encapsulate. rewrite Hp, (expire_usable p now s) by done.
  unfold is_confirmed. rewrite Hconf. cbn [negb]. unfold is_usable in Hu. bool_hyps.
  by rewrite seal_layout by lia.
Qed.

(** C2: What one device encapsulates the other delivers, exactly.  Device [da]
    holds a usable, confirmed session towards its peer [i]; device [db] holds
    the mirrored session (the same key in the other direction, the index [da]
    addresses), usable, with a replay window that has not seen the counter, and
    no earlier peer of [db] claims that index.  Then [encapsulate] succeeds and
    [handle_udp] on the datagram returns the inner IP packet byte for byte, the
    padding removed. *)
Theorem encapsulate_delivers (da db : Device) (i : PeerId) (pa pb : Peer) (pre post : list Peer)
    (sa sb : Session) (packet out1 out2 tape : bytes) (now now' : Z) :
  peers da !! i = Some pa -> current pa = Some sa -> is_usable sa now = true ->
  confirmed sa = true -> 0 <= send_counter sa -> is_u32 (peer_index sa) ->
  peers db = pre ++ pb :: post -> current pb = Some sb -> is_usable sb now' = true ->
  Forall (fun q => select_session (expire_sessions q now') (peer_index sa) = None) pre ->
  local_index sb = peer_index sa -> s_receiving sb = s_sending sa ->
  fst (ReplayWindow.accept (replay sb) (send_counter sa)) = true ->
  packet_len packet = Some (len packet) ->
  data.HEADER_LEN + next_multiple_of (len packet) PAD_TO + TAG_LEN <= len out1 ->
  next_multiple_of (len packet) PAD_TO <= len out2 ->
  exists datagram,
    snd (encapsulate da i packet now out1) = Ok (Send i datagram) /\
    snd (handle_udp db datagram now' tape out2) = Ok (Receive (length pre) packet).
Proof.
  intros Hpa Hsa Hua Hca H0 Hu Hdb Hsb Hub Hpre Hidx Hk Hf Hip Ho1 Ho2.
  assert (send_counter sa < REJECT_AFTER_MESSAGES) by (unfold is_usable in Hua; by bool_hyps).
  exists (data_message sa packet). split.
  - by apply (encapsulate_sends da i pa sa).
  - destruct (data_message_receiver sa packet Hu) as (Hl & Hty & Hr).
    unfold handle_udp. rewrite Hty. cbn [Z.eqb]. change (TYPE_DATA =? TYPE_INITIATION) with false.
    change (TYPE_DATA =? TYPE_DATA) with true. cbv iota. unfold open_data, data.HEADER_LEN in *.
    rewrite (proj2 (Z.ltb_ge _ _)) by lia. rewrite Hr, Hdb.
    destruct (open_data_current sa packet pre pb post now' out2 sb) as (p' & _ & ->); try done.
    assert (len packet <> 0).
    { intros Hz%len_zero_nil. subst packet. done. }
    rewrite (proj2 (Z.eqb_neq _ _)) by done. unfold padded_packet.
    rewrite (packet_len_pad _ _ Hip), <- app_assoc, slice_front by (nonneg_lens; lia). simpl.
    by rewrite ztake_all.
Qed.

End Link.

(** ** Concrete devices *)

#[local] Existing Instance Toy.prims.
#[local] Existing Instance Toy.prims_ok.

(** Each example device holding one half of a session the other mirrors. *)
Definition session_a : Session := confirm (session_new example_keys 77 99 1000).
Definition session_b : Session := session_new example_mirror 99 77 1001.
Definition linked_a : Device :=
  with_peers example_a (map (fun p => with_sessions p (Some session_a) None) (peers example_a)).
Definition linked_b : Device :=
  with_peers example_b (map (fun p => with_sessions p (Some session_b) None) (peers example_b)).

Lemma encapsulate_delivers_witness :
  exists datagram,
    snd (encapsulate linked_a 0 example_packet 2000 (zeros 128)) = Ok (Send 0 datagram) /\
    snd (handle_udp linked_b datagram 2001 [] (zeros 128)) = Ok (Receive (length (@nil Peer)) example_packet).
Proof.
  apply (encapsulate_delivers linked_a linked_b 0
    (with_sessions (new_peer (x25519_base (replicate 32 5)) None) (Some session_a) None)
    (with_sessions (new_peer (x25519_base (replicate 32 3)) None) (Some session_b) None) [] []
    session_a session_b example_packet (zeros 128) (zeros 128) [] 2000 2001);
    first [by constructor | by vm_compute | by vm_compute; intuition discriminate].
Defined.

(** * Two devices connect

    The four calls that bring a tunnel up, over [Device.v]: start, answer,
    complete, confirm. *)

Section Connect.
Context `{P : Primitives} {POk : PrimitivesOk P}.

(** ** Each call, when its conditions hold *)

Lemma draw_ok ps idx (e rest : bytes) :
  is_u32 idx -> index_taken ps idx = false -> len e = 32 ->
  (let! '(local_index, tape) := allocate_index ps (to_le 4 idx ++ e ++ rest) in
   let! '(secret, tape) := random_secret tape in
   Ok (local_index, secret, tape)) = @Ok Error _ (idx, e, rest).
Proof.
  intros Hu Hfree He.
  assert (allocate_index ps (to_le 4 idx ++ e ++ rest) = Ok (idx, e ++ rest)) as ->.
  { pose proof (of_to_le_small 4 idx Hu) as Hb. destruct (to_le 4 idx) as [|a [|b [|c [|d [|]]]]] eqn:E; try done.
    cbn [app allocate_index]. by rewrite Hb, Hfree. }
  cbn [rbind]. unfold random_secret. rewrite get_range_in by llia.
  pose proof (sub_range_mid 0 32 [] e rest) as Hs. cbn [app] in Hs.
  rewrite Hs, zdrop_app_len; [done|llia|done|change (len (@nil Z)) with 0; lia].
Qed.

Definition granted (d : Device) (now : Z) : bool := fst (HandshakeBudget.take (budget d) now).
Definition charged (d : Device) (now : Z) : Device :=
  with_budget d (snd (HandshakeBudget.take (budget d) now)).

Lemma start_ok d i p now ts idx e rest out m hs :
  peers d !! i = Some p -> granted d now = true ->
  is_u32 idx -> index_taken (peers d) idx = false -> len e = 32 ->
  create_initiation (static_private d) (static_public d) (public p) idx e ts out = Ok (m, hs) ->
  start_handshake d i now ts (to_le 4 idx ++ e ++ rest) out =
  (with_peers (charged d now)
     (<[i := with_pending p (Some hs) (get_or_insert (pending_since p) now) (Some now)]> (peers d)),
   rest, Ok m).
Proof.
  unfold granted, charged, start_handshake. intros Hp Hg Hu Hfree He Hc. rewrite Hp.
  destruct (HandshakeBudget.take (budget d) now) as [g b]; cbn [fst snd] in *; subst g.
  cbn [negb static_private static_public dev_mac1_key peers with_budget].
  rewrite draw_ok by done.
  cbn [static_private static_public with_budget]. by rewrite Hc.
Qed.

Lemma respond_ok d i p now idx e rest out m ini msg keys :
  granted d now = true ->
  consume_initiation (static_private d) (static_public d) (dev_mac1_key d) m = Ok ini ->
  position (fun p => bytes_eqb (public p) (peer_static ini)) (peers d) = Some i ->
  peers d !! i = Some p -> is_stale p (timestamp ini) = false ->
  is_u32 idx -> index_taken (peers d) idx = false -> len e = 32 ->
  create_response ini (preshared_key p) idx e out = Ok (msg, keys) ->
  respond_to_initiation d m now (to_le 4 idx ++ e ++ rest) out =
  (with_peers (charged d now)
     (<[i := clear_pending (with_armed (with_sessions (with_last_timestamp p (Some (timestamp ini)))
               (Some (session_new keys idx (init_peer_index ini) now)) (current p)) None)]> (peers d)),
   rest, Ok (i, msg)).
Proof.
  unfold granted, charged, respond_to_initiation. intros Hg Hc Hpos Hp Hst Hu Hfree He Hr.
  assert (verify_initiation_mac1 (dev_mac1_key d) m = Ok tt) as ->.
  { unfold consume_initiation in Hc. by destruct (verify_initiation_mac1 _ m) as [[]| | |]. }
  destruct (HandshakeBudget.take (budget d) now) as [g b]; cbn [fst snd] in *; subst g.
  cbn [negb static_private static_public dev_mac1_key peers with_budget].
  rewrite Hc. cbn [rbind]. rewrite Hpos. cbn [rbind ok_or]. rewrite Hp. cbn [rbind or_panic].
  rewrite Hst, draw_ok by done. by rewrite Hr.
Qed.

(** A response that is consumed is addressed to the handshake's index. *)
Lemma consume_response_receiver hs sk psk m x :
  consume_response hs sk psk m = Ok x ->
  message_type m = Ok TYPE_RESPONSE /\
  (let! r := slice response.RECEIVER m in get_u32 r) = Ok (hs_local_index hs).
Proof.
  unfold consume_response. intros H. case_if; [done|]. bool_hyps.
  destruct (slice response.RECEIVER m) as [r| | |]; try done. cbn [rbind] in *.
  destruct (get_u32 r) as [i| | |]; try done. cbn [rbind] in *. case_if; [done|]. bool_hyps. subst. split; [|done].
  destruct m as [|b m]; [done|]. unfold message_type, at_ in *. simpl in *. by subst.
Qed.

Lemma complete_ok_eq d i p now m hs pidx keys :
  granted d now = true -> verify_response_mac1 (dev_mac1_key d) m = Ok tt ->
  position (pending_is (hs_local_index hs)) (peers d) = Some i ->
  peers d !! i = Some p -> pending p = Some hs ->
  consume_response hs (static_private d) (preshared_key p) m = Ok (pidx, keys) ->
  complete_handshake d m now =
  (with_peers (charged d now)
     (<[i := with_armed (with_sessions (clear_pending p)
               (Some (confirm (session_new keys (hs_local_index hs) pidx now))) (current p)) None]> (peers d)),
   Ok i).
Proof.
  unfold granted, charged, complete_handshake. intros Hg Hv Hpos Hp Hpend Hc.
  destruct (consume_response_receiver _ _ _ _ _ Hc) as [_ Hr].
  rewrite Hv. cbn [rbind]. destruct (slice response.RECEIVER m) as [r| | |]; try done. cbn [rbind] in *.
  rewrite Hr. cbn [rbind]. rewrite Hpos. cbn [ok_or].
  destruct (HandshakeBudget.take (budget d) now) as [g b]; cbn [fst snd] in *; subst g.
  cbn [negb static_private static_public dev_mac1_key peers with_budget].
  rewrite Hp, Hpend, Hc. done.
Qed.

(** A fresh handshake at its place is the one a response finds, when no earlier
    peer waits on the same index. *)
Lemma position_insert {A} (f : A -> bool) (l : list A) i x :
  (i < length l)%nat -> f x = true -> Forall (fun y => f y = false) (take i l) ->
  position f (<[i := x]> l) = Some i.
Proof.
  revert i; induction l as [|y l IH]; intros [|i] Hi Hx Hpre; simpl in *; try lia.
  - by rewrite Hx.
  - inversion_clear Hpre as [|? ? Hy Hl]. rewrite Hy, IH; [done|lia|done|done].
Qed.

Lemma consume_initiation_type sk pk k m ini :
  consume_initiation sk pk k m = Ok ini -> message_type m = Ok TYPE_INITIATION.
Proof.
  unfold consume_initiation, verify_initiation_mac1. intros H. case_if; [done|]. bool_hyps.
  destruct m as [|b m]; [done|]. unfold message_type, at_ in *. simpl in *. by subst.
Qed.

Lemma expire_current p now : current (expire_sessions p now) = None \/ current (expire_sessions p now) = current p.
Proof. unfold expire_sessions. repeat case_if; simpl; auto. Qed.
Lemma expire_previous p now : previous (expire_sessions p now) = None \/ previous (expire_sessions p now) = previous p.
Proof. unfold expire_sessions. repeat case_if; simpl; auto. Qed.

Lemma free_index_selects_none ps r now :
  index_taken ps r = false ->
  Forall (fun q => select_session (expire_sessions q now) r = None) ps.
Proof.
  induction ps as [|q ps IH]; simpl; [constructor|]. intros [Hq Hps]%orb_false_iff.
  constructor; [|by apply IH]. apply orb_false_iff in Hq as [Hc Hv]. unfold has_index in *.
  unfold select_session.
  destruct (expire_current q now) as [-> | ->], (expire_previous q now) as [-> | ->];
    destruct (current q), (previous q); by rewrite ?Hc, ?Hv.
Qed.

(** The confirming keepalive: the initiator's empty data message reaches the
    responder's unconfirmed session and confirms it. *)
Lemma keepalive_confirms d ps j p s keys idx ridx t now tape out :
  peers d = <[j := p]> ps -> (j < length ps)%nat -> index_taken ps ridx = false -> is_u32 ridx ->
  current p = Some (session_new keys ridx idx t) -> session_is_alive t now = true ->
  s_sending s = receiving keys -> peer_index s = ridx -> send_counter s = 0 ->
  exists d', handle_udp d (data_message s []) now tape out = (d', tape, Ok ActNone) /\
    is_connected d' j now = true.
Proof.
  intros Hd Hj Hfree Hu Hc Halive Hk Hpi Hz.
  destruct (data_message_receiver s []) as (Hl & Hty & Hr); [by rewrite Hpi|].
  assert (is_usable (session_new keys ridx idx t) now = true) as Hus by (unfold is_usable; simpl; by rewrite Halive).
  rewrite insert_take_drop in Hd by done.
  assert (length (take j ps) = j) as Hlen by (rewrite length_take; lia).
  destruct (open_data_current s [] (take j ps) p (drop (S j) ps) now out (session_new keys ridx idx t))
    as (p' & Hp' & He); try done.
  { rewrite Hpi. apply Forall_take. by apply free_index_selects_none. }
  { rewrite Hz. done. }
  { nonneg_lens. done. }
  { by rewrite Hz. }
  unfold handle_udp. rewrite Hty. change (TYPE_DATA =? TYPE_INITIATION) with false.
  change (TYPE_DATA =? TYPE_DATA) with true. cbv iota. unfold open_data, data.HEADER_LEN.
  rewrite (proj2 (Z.ltb_ge _ _)) by lia. rewrite Hr, Hd, He. eexists; split; [reflexivity|].
  unfold is_connected. cbn [peers with_peers].
  rewrite lookup_app_r by (rewrite length_map; lia). rewrite length_map, Hlen, Nat.sub_diag.
  cbn. rewrite Hp'. unfold is_usable, is_confirmed. simpl. by rewrite Halive.
Qed.

(** A response that completes the handshake is answered with a keepalive, and
    the initiator is connected. *)
Lemma response_connects d d' m i p s now tape out :
  message_type m = Ok TYPE_RESPONSE -> complete_handshake d m now = (d', Ok i) ->
  peers d' !! i = Some p -> current p = Some s -> confirmed s = true ->
  session_is_alive (established s) now = true -> 0 <= send_counter s < REJECT_AFTER_MESSAGES - 1 ->
  data.HEADER_LEN + TAG_LEN <= len out ->
  exists d2, handle_udp d m now tape out = (d2, tape, Ok (Send i (data_message s []))) /\
    is_connected d2 i now = true.
Proof.
  intros Hty Hcomp Hp Hc Hconf Hal Hn Ho. unfold handle_udp. rewrite Hty.
  change (TYPE_RESPONSE =? TYPE_INITIATION) with false. change (TYPE_RESPONSE =? TYPE_DATA) with false.
  rewrite Z.eqb_refl. cbv iota. rewrite Hcomp, Hp, Hc, seal_layout; [|lia|exact Ho].
  eexists; split; [reflexivity|]. unfold is_connected. cbn [peers with_peers].
  rewrite list_lookup_insert_eq by by eapply lookup_lt_Some.
  cbn [current with_armed with_sessions]. unfold is_usable, is_confirmed. simpl.
  rewrite Hal, Hconf, (proj2 (Z.ltb_lt _ _)) by lia. done.
Qed.

(** ** Connection *)

(** Device [d] has the static key pair of [sk] and, as peer [i], the device with
    the static key [peer_sk], sharing [psk]. *)
Record knows (d : Device) (i : PeerId) (p : Peer) (sk peer_sk psk : bytes) : Prop := {
  k_private : static_private d = sk;
  k_public : static_public d = x25519_base sk;
  k_mac1 : dev_mac1_key d = mac1_key (x25519_base sk);
  k_peer : peers d !! i = Some p;
  k_key : public p = x25519_base peer_sk;
  k_psk : preshared_key p = psk;
}.

(** C1: Two devices connect in three datagrams.  Device [da] has [db] as its
    peer [i] and [db] has [da] as its peer [j]; both have a handshake token when
    they need one, draw unused indices, and [da]'s timestamp is newer than any
    [db] has seen.  Then the initiation is answered, the response completes the
    handshake and yields a keepalive, and the keepalive confirms the session:
    [da] is connected after the response; [db] is not connected before the
    keepalive and is connected after it. *)
Theorem devices_connect (da db : Device) (i j : PeerId) (pa pb : Peer)
    (sp rp psk ts e re out1 out2 out3 out4 resta restb s1 s2 s3 s4 : bytes)
    (idx ridx t1 t2 t3 t4 : Z) :
  knows da i pa sp rp psk -> knows db j pb rp sp psk ->
  position (fun p => bytes_eqb (public p) (x25519_base sp)) (peers db) = Some j ->
  is_stale pb ts = false -> len ts = 12 -> len e = 32 -> len re = 32 ->
  is_u32 idx -> index_taken (peers da) idx = false ->
  Forall (fun p => pending_is idx p = false) (take i (peers da)) ->
  is_u32 ridx -> index_taken (peers db) ridx = false ->
  granted da t1 = true -> granted (charged da t1) t3 = true -> granted db t2 = true ->
  session_is_alive t2 t4 = true ->
  dh e (x25519_base rp) = Ok s1 -> dh sp (x25519_base rp) = Ok s2 ->
  dh re (x25519_base e) = Ok s3 -> dh re (x25519_base sp) = Ok s4 ->
  initiation.LEN <= len out1 -> response.LEN <= len out2 ->
  data.HEADER_LEN + TAG_LEN <= len out3 ->
  exists m1 m2 m3 da1 db1 da2 db2,
    start_handshake da i t1 ts (to_le 4 idx ++ e ++ resta) out1 = (da1, resta, Ok m1) /\
    handle_udp db m1 t2 (to_le 4 ridx ++ re ++ restb) out2 = (db1, restb, Ok (Send j m2)) /\
    handle_udp da1 m2 t3 resta out3 = (da2, resta, Ok (Send i m3)) /\
    is_connected da2 i t3 = true /\
    is_connected db1 j t4 = false /\
    handle_udp db1 m3 t4 restb out4 = (db2, restb, Ok ActNone) /\
    is_connected db2 j t4 = true.
Proof.
  intros [Hsk Hpk Hmk Hpa Hkey Hpsk] [Hsk' Hpk' Hmk' Hpb Hkey' Hpsk'] Hpos Hst Hts He Hre
    Hu Hfree Hpend Hu' Hfree' Hg1 Hg3 Hg2 Hal Hd1 Hd2 Hd3 Hd4 Ho1 Ho2 Ho3.
  destruct (handshake_exchange sp e rp re psk ts out1 out2 s1 s2 s3 s4 idx ridx
    Hts Hu Hu' Ho1 Ho2 Hd1 Hd2 Hd3 Hd4) as
    (m1 & hs & ini & m2 & rk & ik & Hci & Hhs & Hcons & Hstat & Hpi & Htime & Hcr & Hv & Hcresp & Hk1 & Hk2).
  exists m1, m2. 
  pose proof (start_ok da i pa t1 ts idx e resta out1 m1 hs) as Hstart.
  rewrite Hsk, Hpk, Hkey in Hstart. specialize (Hstart Hpa Hg1 Hu Hfree He Hci).
  pose proof (respond_ok db j pb t2 ridx re restb out2 m1 ini m2 rk Hg2) as Hresp.
  rewrite Hsk', Hpk', Hmk', Hstat, Htime, Hpsk' in Hresp.
  specialize (Hresp Hcons Hpos Hpb Hst Hu' Hfree' Hre Hcr).
  set (pa1 := with_pending pa _ _ _) in Hstart. set (da1 := with_peers _ _) in Hstart.
  set (pb1 := clear_pending _) in Hresp. set (db1 := with_peers _ _) in Hresp.
  assert (i < length (peers da))%nat as Hi by by eapply lookup_lt_Some.
  assert (j < length (peers db))%nat as Hj by by eapply lookup_lt_Some.
  assert (peers da1 !! i = Some pa1) as Hpa1 by by apply list_lookup_insert_eq.
  opose proof* (complete_ok_eq da1 i pa1 t3 m2 hs ridx ik) as Hcomp; try done.
  { unfold da1. simpl. by rewrite Hmk. }
  { rewrite Hhs. apply position_insert; [done|unfold pending_is; simpl; rewrite Hhs; apply Z.eqb_refl|done]. }
  { simpl. by rewrite Hsk, Hpsk. }
  set (sa := confirm (session_new ik (hs_local_index hs) ridx t3)) in Hcomp.
  destruct (keepalive_confirms db1 (peers db) j pb1 sa rk idx ridx t2 t4 restb out4)
    as (db2 & Hka & Hconn); try done.
  { simpl. by rewrite Hpi. }
  destruct (consume_response_receiver _ _ _ _ _ Hcresp) as [Hty _].
  edestruct (response_connects da1) as (da2 & Hfin & Hconn'); [exact Hty|exact Hcomp
    |apply list_lookup_insert_eq; cbn; by rewrite length_insert|reflexivity|done| |done|done|].
  { unfold session_is_alive, saturating_since, saturating_sub; simpl. by rewrite Z.sub_diag. }
  exists (data_message sa []), da1, db1, da2, db2. split_and!; try done.
  - unfold handle_udp. by rewrite (consume_initiation_type _ _ _ _ _ Hcons), Z.eqb_refl, Hresp.
  - unfold is_connected, db1. cbn [peers with_peers]. rewrite list_lookup_insert_eq by done.
    simpl. by rewrite andb_false_r.
Qed.

End Connect.

(** ** Concrete devices *)

#[local] Existing Instance Toy.prims.
#[local] Existing Instance Toy.prims_ok.

Lemma devices_connect_witness :
  exists m1 m2 m3 da1 db1 da2 db2,
    start_handshake example_a 0 1000 (replicate 12 7) (to_le 4 77 ++ replicate 32 9 ++ []) (zeros 148)
      = (da1, [], Ok m1) /\
    handle_udp example_b m1 1001 (to_le 4 99 ++ replicate 32 11 ++ []) (zeros 128) = (db1, [], Ok (Send 0 m2)) /\
    handle_udp da1 m2 1002 [] (zeros 128) = (da2, [], Ok (Send 0 m3)) /\
    is_connected da2 0 1002 = true /\
    is_connected db1 0 1003 = false /\
    handle_udp db1 m3 1003 [] (zeros 128) = (db2, [], Ok ActNone) /\
    is_connected db2 0 1003 = true.
Proof.
  apply (devices_connect example_a example_b 0 0
    (new_peer (x25519_base (replicate 32 5)) None) (new_peer (x25519_base (replicate 32 3)) None)
    (replicate 32 3) (replicate 32 5) (zeros 32) (replicate 12 7) (replicate 32 9) (replicate 32 11)
    (zeros 148) (zeros 128) (zeros 128) (zeros 128) [] []
    (replicate 32 14) (replicate 32 8) (replicate 32 20) (replicate 32 14) 77 99 1000 1001 1002 1003);
    first [ by constructor | by vm_compute | by vm_compute; intuition discriminate | constructor].
Defined.

(** ** Two handshakes under one index *)

(** [allocate_index] looks only at sessions, so a second handshake can be started
    under the index of one still in flight. *)
Definition example_two : Device :=
  fst (add_peer 4 example_a (x25519_base (replicate 32 6)) None).

(** The allocator does not consult handshakes in flight.  A device with two
    peers draws the same four bytes for both: both initiations carry the index
    and the response of the second peer, valid though it is, is matched to the
    first peer's handshake and refused. *)
Theorem pending_index_collision :
  exists d1 d2 m2 db mb d3,
    (start_handshake example_two 0 1000 (replicate 12 7) (replicate 36 9) (zeros 148)).1.1 = d1 /\
    start_handshake d1 1 1001 (replicate 12 8) (replicate 36 9) (zeros 148) = (d2, [], Ok m2) /\
    Forall (fun p => pending_is (of_le (replicate 4 9)) p = true) (peers d2) /\
    handle_udp (fst (add_peer 4 (device_new (replicate 32 6)) (x25519_base (replicate 32 3)) None))
      m2 1002 (replicate 36 11) (zeros 128) = (db, [], Ok (Send 0 mb)) /\
    handle_udp d2 mb 1003 [] (zeros 128) = (d3, [], Err Decryption).
Proof.
  do 6 eexists. split; [vm_compute; reflexivity|]. split; [vm_compute; reflexivity|].
  split; [vm_compute; repeat constructor|]. split; [vm_compute; reflexivity|].
  vm_compute; reflexivity.
Qed.
