(* ===== verification/Utf8.v ===== *)
(** * UTF-8

    [core::str::from_utf8]: which byte strings are text (the well-formed
    sequences of the Unicode standard, table 3-7). *)

From S2P Require Import Prelude.

Definition between (a b x : Z) : bool := (a <=? x) && (x <=? b).
Definition continuation : Z -> bool := between 0x80 0xbf.

Fixpoint utf8_valid (l : bytes) : bool :=
  match l with
  | [] => true
  | a :: l1 =>
      if between 0 0x7f a then utf8_valid l1 else
      match l1 with
      | [] => false
      | b :: l2 =>
          if between 0xc2 0xdf a then continuation b && utf8_valid l2 else
          match l2 with
          | [] => false
          | c :: l3 =>
              if between 0xe0 0xef a then
                between (if a =? 0xe0 then 0xa0 else 0x80) (if a =? 0xed then 0x9f else 0xbf) b &&
                continuation c && utf8_valid l3
              else
                match l3 with
                | [] => false
                | d :: l4 =>
                    between 0xf0 0xf4 a &&
                    between (if a =? 0xf0 then 0x90 else 0x80) (if a =? 0xf4 then 0x8f else 0xbf) b &&
                    continuation c && continuation d && utf8_valid l4
                end
          end
      end
  end.

(** ASCII text is valid. *)
Lemma utf8_ascii l : Forall (fun x => 0 <= x < 128) l -> utf8_valid l = true.
Proof.
  induction 1 as [|x l Hx _ IH]; [done|]. simpl. unfold between at 1.
  by rewrite !(proj2 (Z.leb_le _ _)) by lia.
Qed.
