(* ===== verification/H2Frame.v ===== *)
(** * HTTP/2 framing

    [crates/micro-h2/src/frame.rs] and the error type of [lib.rs]: frame types,
    the nine-byte header, whole frames, padding.  A writer takes the contents of
    the output buffer and returns them changed, with the new length. *)

From S2P Require Import Prelude.

Inductive H2Error : Type :=
| Incomplete | Protocol | Hpack | BufferTooSmall | FrameTooLarge | GoAway | StreamReset
| TooManyStreams.

#[export] Instance H2Error_eq_dec : EqDecision H2Error.
Proof. solve_decision. Defined.

Module frame.

Definition HEADER_LEN : Z := 9.
Definition DEFAULT_MAX_FRAME : Z := 16384.

(** PRI * HTTP/2.0, two line ends, SM, two line ends. *)
Definition CLIENT_PREFACE : bytes :=
  [80; 82; 73; 32; 42; 32; 72; 84; 84; 80; 47; 50; 46; 48; 13; 10; 13; 10; 83; 77; 13; 10; 13; 10].

Inductive FrameType : Type :=
| Data | Headers | Priority | RstStream | Settings | PushPromise | Ping | GoAway | WindowUpdate
| Continuation
| Unknown (byte : Z).

Definition from_byte (byte : Z) : FrameType :=
  match byte with
  | 0 => Data | 1 => Headers | 2 => Priority | 3 => RstStream | 4 => Settings
  | 5 => PushPromise | 6 => Ping | 7 => GoAway | 8 => WindowUpdate | 9 => Continuation
  | other => Unknown other
  end.

Definition to_byte (t : FrameType) : Z :=
  match t with
  | Data => 0 | Headers => 1 | Priority => 2 | RstStream => 3 | Settings => 4
  | PushPromise => 5 | Ping => 6 | GoAway => 7 | WindowUpdate => 8 | Continuation => 9
  | Unknown other => other
  end.

Module flags.
Definition END_STREAM : Z := 1.
Definition ACK : Z := 1.
Definition END_HEADERS : Z := 4.
Definition PADDED : Z := 8.
Definition PRIORITY : Z := 32.
End flags.

Module settings.
Definition HEADER_TABLE_SIZE : Z := 1.
Definition ENABLE_PUSH : Z := 2.
Definition MAX_CONCURRENT_STREAMS : Z := 3.
Definition INITIAL_WINDOW_SIZE : Z := 4.
Definition MAX_FRAME_SIZE : Z := 5.
Definition MAX_HEADER_LIST_SIZE : Z := 6.
End settings.

Record FrameHeader := mkFrameHeader { fh_length : Z; fh_kind : FrameType; fh_flags : Z; fh_stream : Z }.

Definition parse (b : bytes) : res H2Error FrameHeader :=
  let! b := ok_or (get_range 0 HEADER_LEN b) Incomplete in
  Ok (mkFrameHeader
    (of_be [0; at_ 0 b; at_ 1 b; at_ 2 b]) (from_byte (at_ 3 b)) (at_ 4 b)
    (Z.land (of_be [at_ 5 b; at_ 6 b; at_ 7 b; at_ 8 b]) 0x7fffffff)).

(** The header written over the front of [out]. *)
Definition write (h : FrameHeader) (out : bytes) : res H2Error bytes :=
  let! head := ok_or (get_range 0 HEADER_LEN out) BufferTooSmall in
  let length := to_be 4 (fh_length h) in
  let! l3 := slice (1, 4) length in
  let! head := slice_copy (0, 3) l3 head in
  let! head := or_panic (set_at 3 (to_byte (fh_kind h)) head) in
  let! head := or_panic (set_at 4 (fh_flags h) head) in
  let! head := slice_copy (5, 9) (to_be 4 (Z.land (fh_stream h) 0x7fffffff)) head in
  Ok (head ++ zdrop HEADER_LEN out).

Definition has (h : FrameHeader) (flag : Z) : bool := negb (Z.land (fh_flags h) flag =? 0).

(** The buffer with the frame at its front, and the frame's length. *)
Definition write_frame (kind : FrameType) (fl stream : Z) (payload out : bytes)
  : res H2Error (bytes * Z) :=
  let! out := write (mkFrameHeader (len payload) kind fl stream) out in
  let e := HEADER_LEN + len payload in
  let! _ := ok_or (get_range HEADER_LEN e out) BufferTooSmall in
  let! out := slice_copy (HEADER_LEN, e) payload out in
  Ok (out, e).

Definition strip_padding (payload : bytes) (fl : Z) : res H2Error bytes :=
  if Z.land fl flags.PADDED =? 0 then Ok payload else
  let! pad_length := ok_or (get_at 0 payload) Protocol in
  let! body := ok_or (get_range 1 (len payload) payload) Protocol in
  let e := len body - pad_length in
  if e <? 0 then Err Protocol else slice (0, e) body.

End frame.
Import frame.

(** ** Facts *)

Module FrameFacts.

(** The bytes a frame header occupies. *)
Definition header_bytes (h : FrameHeader) : bytes :=
  to_be 3 (fh_length h) ++ [to_byte (fh_kind h); fh_flags h] ++ to_be 4 (Z.land (fh_stream h) 0x7fffffff).

Lemma len_header_bytes h : len (header_bytes h) = 9.
Proof. unfold header_bytes. llia. Qed.

Lemma to_be_low n x : to_be (S n) x = (x / 256 ^ Z.of_nat n) mod 256 :: to_be n x.
Proof.
  unfold to_be. revert x; induction n as [|n IH]; intros x.
  - simpl. by rewrite Z.div_1_r.
  - change (to_le (S (S n)) x) with (x mod 256 :: to_le (S n) (x / 256)).
    rewrite reverse_cons, IH. change (to_le (S n) x) with (x mod 256 :: to_le n (x / 256)).
    rewrite reverse_cons, pow256_S. simpl. f_equal. rewrite Z.div_div by lia. done.
Qed.

Lemma write_layout h out :
  write h out = if HEADER_LEN <=? len out then Ok (header_bytes h ++ zdrop 9 out) else Err BufferTooSmall.
Proof.
  unfold write, HEADER_LEN. destruct (9 <=? len out) eqn:E; bool_hyps.
  - rewrite get_range_in by lia. cbn [ok_or rbind].
    assert (len (sub_range 0 9 out) = 9) as Hl by (rewrite len_sub_range; lia).
    unfold slice. cbn [fst snd]. rewrite (to_be_low 3 (fh_length h)).
    pose proof (get_range_mid 1 4 [(fh_length h / 256 ^ Z.of_nat 3) mod 256] (to_be 3 (fh_length h)) []) as Hg.
    rewrite app_nil_r in Hg. cbn [app] in Hg. rewrite Hg by llia. cbn [or_panic rbind].
    revert Hl. generalize (sub_range 0 9 out). intros buf Hl. name_fields buf [3; 1; 1; 4].
    unfold slice_copy, set_at. cbn [fst snd].
    do 4 (first [erewrite (copy_field 0); [|reflexivity|cbn [take concat]; llia|llia|llia]
                |erewrite (copy_field 1); [|reflexivity|cbn [take concat]; llia|llia|llia]
                |erewrite (copy_field 2); [|reflexivity|cbn [take concat]; llia|llia|llia]
                |erewrite (copy_field 3); [|reflexivity|cbn [take concat]; llia|llia|llia]];
          cbn [or_panic rbind insert list_insert]).
    unfold header_bytes. cbn [concat]. by rewrite app_nil_r, <- !app_assoc.
  - by rewrite (proj2 (get_range_None _ _ _)) by lia.
Qed.

Lemma land_low31 x : 0 <= x -> Z.land x 0x7fffffff = x mod 2 ^ 31.
Proof. intros. change 0x7fffffff with (Z.ones 31). by apply Z.land_ones. Qed.

Lemma parse_header h tl :
  0 <= fh_stream h ->
  parse (header_bytes h ++ tl) =
  Ok (mkFrameHeader (fh_length h mod 2 ^ 24) (from_byte (to_byte (fh_kind h))) (fh_flags h)
    (fh_stream h mod 2 ^ 31)).
Proof.
  intros Hs. unfold parse.
  pose proof (get_range_mid 0 HEADER_LEN [] (header_bytes h) tl) as Hg. cbn [app] in Hg.
  rewrite Hg by (rewrite ?len_header_bytes; done). cbn [ok_or rbind]. unfold header_bytes.
  rewrite land_low31 by done.
  pose proof (of_to_be 3 (fh_length h)) as Hl. pose proof (of_to_be 4 (fh_stream h mod 2 ^ 31)) as Ht.
  pose proof (len_to_be 3 (fh_length h)). pose proof (len_to_be 4 (fh_stream h mod 2 ^ 31)).
  destruct (to_be 3 (fh_length h)) as [|a [|b [|c [|? ?]]]]; try (exfalso; llia).
  destruct (to_be 4 (fh_stream h mod 2 ^ 31)) as [|d [|e [|f [|g [|? ?]]]]]; try (exfalso; llia).
  transitivity (@Ok H2Error _ (mkFrameHeader (of_be [0; a; b; c]) (from_byte (to_byte (fh_kind h)))
    (fh_flags h) (Z.land (of_be [d; e; f; g]) 0x7fffffff))); [reflexivity|].
  f_equal. f_equal.
  - change (2 ^ 24) with (256 ^ Z.of_nat 3). rewrite <- Hl. unfold of_be, reverse. simpl. lia.
  - rewrite Ht. assert (0 <= fh_stream h mod 2 ^ 31 < 2 ^ 31) by (apply Z.mod_pos_bound; lia).
    rewrite (Z.mod_small _ (256 ^ Z.of_nat 4)) by (simpl Z.pow; lia).
    rewrite land_low31 by lia. by rewrite Z.mod_small.
Qed.

Lemma write_frame_layout k fl s payload out :
  write_frame k fl s payload out =
  if HEADER_LEN + len payload <=? len out
  then Ok (header_bytes (mkFrameHeader (len payload) k fl s) ++ payload ++ zdrop (9 + len payload) out,
           9 + len payload)
  else Err BufferTooSmall.
Proof.
  unfold write_frame. rewrite write_layout. unfold HEADER_LEN. nonneg_lens.
  set (h := mkFrameHeader _ _ _ _). pose proof (len_header_bytes h) as Hh.
  destruct (9 + len payload <=? len out) eqn:E; bool_hyps.
  - rewrite (proj2 (Z.leb_le _ _)) by lia. cbn [rbind].
    rewrite get_range_in by llia. cbn [ok_or rbind].
    assert (exists a b, zdrop 9 out = a ++ b /\ len a = len payload) as (a & b & Hab & Ha)
      by (apply split_len; llia).
    unfold slice_copy. cbn [fst snd]. rewrite Hab, copy_at_mid by llia. cbn [or_panic rbind].
    repeat f_equal. rewrite <- zdrop_zdrop, Hab, zdrop_app_len by lia. done.
  - destruct (9 <=? len out) eqn:E2; cbn [rbind]; [|done]. bool_hyps.
    by rewrite (proj2 (get_range_None _ _ _)) by llia.
Qed.

Lemma strip_padding_eq (payload : bytes) (fl : Z) :
  bytes_ok payload ->
  strip_padding payload fl =
  if Z.land fl flags.PADDED =? 0 then Ok payload else
  match payload with
  | pad :: rest => if pad <=? len rest then Ok (ztake (len rest - pad) rest) else Err Protocol
  | [] => Err Protocol
  end.
Proof.
  intros Hb. unfold strip_padding. case_if; [done|]. destruct payload as [|pad rest]; [done|].
  apply Forall_cons_iff in Hb as [Hp _]. unfold is_uint in Hp.
  change (get_at 0 (pad :: rest)) with (Some pad). cbn [ok_or rbind].
  pose proof (get_range_mid 1 (len (pad :: rest)) [pad] rest []) as Hg. rewrite app_nil_r in Hg.
  cbn [app] in Hg. rewrite Hg by llia. cbn [ok_or rbind].
  destruct (pad <=? len rest) eqn:E; bool_hyps.
  - rewrite (proj2 (Z.ltb_ge _ _)) by lia. unfold slice. cbn [fst snd].
    rewrite get_range_in by lia. unfold sub_range. by rewrite zdrop_0, Z.sub_0_r by lia.
  - by rewrite (proj2 (Z.ltb_lt _ _)) by lia.
Qed.

(** Stripping never panics and never invents bytes. *)
Lemma strip_padding_cases payload fl :
  bytes_ok payload ->
  (exists e, strip_padding payload fl = Err e) \/
  (exists body, strip_padding payload fl = Ok body /\ bytes_ok body).
Proof.
  intros Hb. rewrite strip_padding_eq by done. case_if; [by right; eexists|].
  destruct Hb as [|pad rest _ Hr]; [by left; eexists|]. case_if; [|by left; eexists].
  right. eexists. split; [done|]. by apply bytes_ok_ztake.
Qed.

Lemma parse_bounds b h :
  bytes_ok b -> parse b = Ok h -> 0 <= fh_length h < 2 ^ 24 /\ 0 <= fh_stream h < 2 ^ 31.
Proof.
  intros Hb. unfold parse. destruct (get_range 0 HEADER_LEN b) as [x|] eqn:E; [|done].
  apply get_range_Some in E as (_ & _ & ->). cbn [ok_or rbind]. intros [= <-]. cbn [fh_length fh_stream].
  assert (Hat : forall i, is_u8 (at_ i (sub_range 0 HEADER_LEN b))).
  { intros i. unfold at_. destruct (get_at i _) as [y|] eqn:Ey; [|unfold is_uint; simpl; lia].
    simpl. eapply get_at_ok; [|exact Ey]. by apply bytes_ok_sub_range. }
  split.
  - pose proof (of_be_bound [at_ 0 (sub_range 0 HEADER_LEN b); at_ 1 (sub_range 0 HEADER_LEN b);
      at_ 2 (sub_range 0 HEADER_LEN b)] ltac:(repeat first [apply Hat | apply List.Forall_nil | apply List.Forall_cons])) as H.
    unfold of_be, reverse, len in *. simpl in *. lia.
  - pose proof (of_be_bound [at_ 5 (sub_range 0 HEADER_LEN b); at_ 6 (sub_range 0 HEADER_LEN b);
      at_ 7 (sub_range 0 HEADER_LEN b); at_ 8 (sub_range 0 HEADER_LEN b)] ltac:(repeat first [apply Hat | apply List.Forall_nil | apply List.Forall_cons])) as H.
    rewrite land_low31 by apply H. apply Z.mod_pos_bound. lia.
Qed.

End FrameFacts.
Import FrameFacts.

(** ** Properties *)

(** A frame survives the wire.  Into any buffer long enough, [write_frame]
    writes the nine-byte header and the payload and nothing else, and returns
    their length; [parse] of the result, whatever follows it, reads the same
    type, flags, length and stream, and the payload is found behind the header.
    The payload must fit the 24-bit length and the stream the 31 bits of its
    field, and an [Unknown] type must not be one of the known numbers. *)
Theorem frame_roundtrip (k : FrameType) (fl s : Z) (payload out : bytes) :
  HEADER_LEN + len payload <= len out -> len payload < 2 ^ 24 -> 0 <= s < 2 ^ 31 ->
  from_byte (to_byte k) = k ->
  exists out', write_frame k fl s payload out = Ok (out', HEADER_LEN + len payload) /\
    len out' = len out /\
    parse out' = Ok (mkFrameHeader (len payload) k fl s) /\
    get_range HEADER_LEN (HEADER_LEN + len payload) out' = Some payload /\
    zdrop (HEADER_LEN + len payload) out' = zdrop (HEADER_LEN + len payload) out.
Proof.
  intros Hout Hp Hs Hk. rewrite write_frame_layout, (proj2 (Z.leb_le _ _)) by done.
  set (h := mkFrameHeader _ _ _ _). pose proof (len_header_bytes h) as Hh. unfold HEADER_LEN in *.
  eexists. split; [done|]. split; [llia|]. split; [|split].
  - rewrite parse_header by (simpl; lia). simpl. rewrite Hk.
    by rewrite (Z.mod_small s), (Z.mod_small (len payload)) by (nonneg_lens; lia).
  - apply get_range_mid; lia.
  - rewrite (app_assoc (header_bytes h)), zdrop_app_len by llia. done.
Qed.

Lemma frame_roundtrip_witness :
  exists out', write_frame Settings 0 0 [0; 3; 0; 0; 0; 100] (zeros 32) = Ok (out', 15) /\
    len out' = 32 /\
    parse out' = Ok (mkFrameHeader 6 Settings 0 0) /\
    get_range 9 15 out' = Some [0; 3; 0; 0; 0; 100] /\
    zdrop 15 out' = zdrop 15 (zeros 32).
Proof.
  apply (frame_roundtrip Settings 0 0 [0; 3; 0; 0; 0; 100] (zeros 32));
    solve [vm_compute; reflexivity | vm_compute; intuition discriminate].
Defined.

(** Stripping padding recovers exactly the body, and refuses exactly the
    payloads whose pad length does not fit.  Without the PADDED flag the payload
    is returned as it is. *)
Theorem strip_padding_exact (payload : bytes) (fl : Z) :
  bytes_ok payload ->
  strip_padding payload fl =
  if Z.land fl flags.PADDED =? 0 then Ok payload else
  match payload with
  | pad :: rest => if pad <=? len rest then Ok (ztake (len rest - pad) rest) else Err Protocol
  | [] => Err Protocol
  end.
Proof. apply strip_padding_eq. Qed.

Lemma strip_padding_exact_witness : strip_padding [2; 7; 8; 9; 0; 0] 9 = Ok [7; 8; 9].
Proof.
  rewrite (strip_padding_exact [2; 7; 8; 9; 0; 0] 9);
    [vm_compute; reflexivity|repeat constructor; vm_compute; intuition discriminate].
Defined.
