(* ===== verification/HpackInt.v ===== *)
(** * HPACK integers

    [encode_integer] of [crates/micro-h2/src/hpack/encode.rs] and
    [decode_integer] of [hpack/decode.rs] (RFC 7541 section 5.1).  A writer takes
    the buffer and the length already written and returns both; [appends] says
    which bytes it adds. *)

From S2P Require Import Prelude H2Frame.

(** ** Writers *)

(** [*out.get_mut(len).ok_or(BufferTooSmall)? = x] *)
Definition put (x : Z) (out : bytes) (l : Z) : res H2Error (bytes * Z) :=
  let! out := ok_or (set_at l x out) BufferTooSmall in Ok (out, l + 1).

(** The loop of [encode_integer]; a [u64] needs at most ten groups. *)
Fixpoint encode_groups (fuel : nat) (remaining : Z) (out : bytes) (l : Z) : res H2Error (bytes * Z) :=
  match fuel with
  | O => Hang
  | S fuel =>
      if 0x80 <=? remaining then
        let! '(out, l) := put (Z.lor (Z.land (wrap 8 remaining) 0x7f) 0x80) out l in
        encode_groups fuel (Z.shiftr remaining 7) out l
      else put (wrap 8 remaining) out l
  end.

Definition encode_integer (value prefix_bits fl : Z) (out : bytes) (l : Z) : res H2Error (bytes * Z) :=
  let mask := Z.shiftl 1 prefix_bits - 1 in
  if value <? mask then put (Z.lor fl (wrap 8 value)) out l else
  let! '(out, l) := put (Z.lor fl (wrap 8 mask)) out l in
  encode_groups 10 (value - mask) out l.

(** ** Readers *)

(** The loop of [decode_integer]: the shifted group drops the bits above the
    64th, the addition is checked. *)
Fixpoint decode_groups (rest : bytes) (value shift : Z) : res H2Error (Z * bytes) :=
  match rest with
  | [] => Err Incomplete
  | byte :: rest =>
      if 63 <? shift then Err Hpack else
      let value := value + wrap 64 (Z.shiftl (Z.land byte 0x7f) shift) in
      if U64_MAX <? value then Err Hpack else
      if Z.land byte 0x80 =? 0 then Ok (value, rest) else decode_groups rest value (shift + 7)
  end.

Definition decode_integer (input : bytes) (prefix_bits : Z) : res H2Error (Z * bytes) :=
  let mask := Z.shiftl 1 prefix_bits - 1 in
  match input with
  | [] => Err Incomplete
  | first :: rest =>
      let value := Z.land first mask in
      if value <? mask then Ok (value, rest) else decode_groups rest mask 0
  end.

(** ** What a writer appends *)

Definition appends (w : bytes -> Z -> res H2Error (bytes * Z)) (bs : bytes) : Prop :=
  forall pre tl,
    w (pre ++ tl) (len pre) =
    if len bs <=? len tl then Ok (pre ++ bs ++ zdrop (len bs) tl, len pre + len bs)
    else Err BufferTooSmall.

Lemma appends_put x : appends (put x) [x].
Proof.
  intros pre tl. unfold put. destruct tl as [|y tl].
  - unfold set_at, copy_at. rewrite app_nil_r, (proj2 (Z.leb_gt (len pre + 1) _)) by lia.
    by rewrite andb_false_r.
  - unfold set_at. rewrite (copy_at_mid _ _ _ pre [y] tl) by done. cbn [ok_or rbind].
    by rewrite (proj2 (Z.leb_le _ _)) by llia.
Qed.

Lemma appends_seq w1 w2 a b :
  appends w1 a -> appends w2 b ->
  appends (fun out l => let! '(out, l) := w1 out l in w2 out l) (a ++ b).
Proof.
  intros H1 H2 pre tl. rewrite H1. nonneg_lens.
  destruct (len a <=? len tl) eqn:E; bool_hyps; cbn [rbind].
  - pose proof (H2 (pre ++ a) (zdrop (len a) tl)) as Hw. rewrite len_app, <- app_assoc in Hw. rewrite Hw.
    rewrite len_zdrop, len_app. replace (Z.max 0 (Z.min (len a) (len tl))) with (len a) by lia.
    destruct (len b <=? len tl - len a) eqn:E2; bool_hyps.
    + rewrite (proj2 (Z.leb_le _ _)) by lia. rewrite zdrop_zdrop by (nonneg_lens; lia).
      by rewrite <- !app_assoc, Z.add_assoc.
    + by rewrite (proj2 (Z.leb_gt _ _)) by lia.
  - by rewrite (proj2 (Z.leb_gt _ _)) by llia.
Qed.

(** ** The wire form of an integer *)

Fixpoint group_bytes (fuel : nat) (r : Z) : bytes :=
  match fuel with
  | O => []
  | S fuel => if 128 <=? r then r mod 128 + 128 :: group_bytes fuel (r / 128) else [r]
  end.

Definition integer_bytes (value prefix_bits fl : Z) : bytes :=
  let mask := 2 ^ prefix_bits - 1 in
  if value <? mask then [Z.lor fl value] else Z.lor fl mask :: group_bytes 10 (value - mask).

Lemma group_byte r : 0 <= r -> Z.lor (Z.land (wrap 8 r) 0x7f) 0x80 = r mod 128 + 128.
Proof.
  intros Hr. change 0x7f with (Z.ones 7). unfold wrap. rewrite Z.land_ones by lia.
  rewrite Z.mod_mod_divide by by exists 2.
  apply Z.eqb_eq, (check_below (fun x => Z.lor x 0x80 =? x + 128) 128); [by vm_compute|].
  apply Z.mod_pos_bound; lia.
Qed.

Lemma appends_groups fuel r :
  0 <= r < 2 ^ (7 * Z.of_nat fuel) -> (0 < fuel)%nat -> appends (encode_groups fuel r) (group_bytes fuel r).
Proof.
  revert r; induction fuel as [|fuel IH]; intros r Hr Hf; [lia|]. cbn [encode_groups group_bytes].
  destruct (0x80 <=? r) eqn:E; bool_hyps.
  - rewrite group_byte by lia. change (?x :: ?l) with ([x] ++ l).
    apply (appends_seq (put _) (encode_groups fuel _)); [apply appends_put|].
    rewrite Z.shiftr_div_pow2 by lia. apply IH.
    + change (2 ^ 7) with 128. split; [apply Z.div_pos; lia|].
      apply Z.div_lt_upper_bound; [lia|]. change 128 with (2 ^ 7). rewrite <- Z.pow_add_r by lia.
      replace (7 + 7 * Z.of_nat fuel) with (7 * Z.of_nat (S fuel)) by lia. apply Hr.
    + destruct fuel; [simpl in Hr; lia|lia].
  - unfold wrap. rewrite Z.mod_small by lia. apply appends_put.
Qed.

Lemma mask_eq n : 0 <= n -> Z.shiftl 1 n - 1 = 2 ^ n - 1.
Proof. intros. by rewrite Z.shiftl_1_l. Qed.

Lemma mask_small n : 0 <= n <= 8 -> 0 <= 2 ^ n - 1 < 256.
Proof.
  intros. assert (2 ^ n <= 2 ^ 8) by (apply Z.pow_le_mono_r; lia).
  assert (0 < 2 ^ n) by (apply Z.pow_pos_nonneg; lia). lia.
Qed.

Lemma appends_integer value n fl :
  is_u64 value -> 0 <= n <= 8 -> appends (encode_integer value n fl) (integer_bytes value n fl).
Proof.
  intros Hv Hn. unfold is_uint in Hv. unfold encode_integer, integer_bytes. rewrite mask_eq by lia.
  pose proof (mask_small n Hn) as Hm. unfold wrap.
  destruct (value <? 2 ^ n - 1) eqn:E; bool_hyps.
  - rewrite Z.mod_small by lia. apply appends_put.
  - rewrite (Z.mod_small (2 ^ n - 1)) by lia. change (?x :: ?l) with ([x] ++ l).
    apply (appends_seq (put _) (encode_groups 10 _)); [apply appends_put|].
    apply appends_groups; lia.
Qed.

Lemma decode_group_bytes fuel r value shift rest :
  0 <= r < 2 ^ (7 * Z.of_nat fuel) -> (0 < fuel)%nat -> 0 <= value -> 0 <= shift ->
  (r = 0 -> shift <= 63) -> value + r * 2 ^ shift <= U64_MAX ->
  decode_groups (group_bytes fuel r ++ rest) value shift = Ok (value + r * 2 ^ shift, rest).
Proof.
  revert r value shift; induction fuel as [|fuel IH]; intros r value shift Hr Hf Hv Hs H0 Hmax; [lia|].
  assert (0 < 2 ^ shift) by (apply Z.pow_pos_nonneg; lia).
  assert (Hs63 : shift <= 63).
  { destruct (Z.eq_dec r 0) as [|Hnz]; [auto|]. apply Znot_gt_le. intros Hgt.
    assert (2 ^ 64 <= 2 ^ shift) by (apply Z.pow_le_mono_r; lia). unfold U64_MAX in Hmax. nia. }
  cbn [group_bytes]. destruct (128 <=? r) eqn:E; bool_hyps; cbn [app decode_groups];
    rewrite (proj2 (Z.ltb_ge 63 shift)) by lia.
  - pose proof (Z.div_mod r 128 ltac:(lia)) as Hdm. pose proof (Z.mod_pos_bound r 128 ltac:(lia)) as Hb.
    assert (Hland : Z.land (r mod 128 + 128) 0x7f = r mod 128 /\ Z.land (r mod 128 + 128) 0x80 = 128).
    { apply (check_below (fun x => (Z.land (x + 128) 0x7f =? x) && (Z.land (x + 128) 0x80 =? 128)) 128)
        in Hb; [by bool_hyps|by vm_compute]. }
    destruct Hland as [-> ->]. rewrite Z.shiftl_mul_pow2 by lia. unfold wrap.
    assert (Hdiv : 0 <= r / 128) by (apply Z.div_pos; lia). unfold U64_MAX in *.
    rewrite Z.mod_small by nia. rewrite (proj2 (Z.ltb_ge _ _)) by nia. change (128 =? 0) with false. cbv iota.
    assert (Hpow : 2 ^ (shift + 7) = 2 ^ shift * 128) by (rewrite Z.pow_add_r by lia; done).
    rewrite IH; rewrite ?Hpow.
    + f_equal. f_equal. nia.
    + split; [done|]. apply Z.div_lt_upper_bound; [lia|]. change 128 with (2 ^ 7).
      rewrite <- Z.pow_add_r by lia. replace (7 + 7 * Z.of_nat fuel) with (7 * Z.of_nat (S fuel)) by lia. apply Hr.
    + destruct fuel; [simpl in Hr; lia|lia].
    + nia.
    + lia.
    + intros Hz. exfalso. assert (128 / 128 <= r / 128) by (apply Z.div_le_mono; lia).
      change (128 / 128) with 1 in *. lia.
    + nia.
  - assert (Hland : Z.land r 0x7f = r /\ Z.land r 0x80 = 0).
    { assert (0 <= r < 128) as Hb by lia.
      apply (check_below (fun x => (Z.land x 0x7f =? x) && (Z.land x 0x80 =? 0)) 128)
        in Hb; [by bool_hyps|by vm_compute]. }
    destruct Hland as [-> ->]. rewrite Z.shiftl_mul_pow2 by lia. unfold wrap, U64_MAX in *.
    rewrite Z.mod_small by nia. by rewrite (proj2 (Z.ltb_ge _ _)) by nia.
Qed.

Lemma decode_integer_bytes value n fl rest :
  is_u64 value -> 0 <= n <= 8 -> Z.land fl (2 ^ n - 1) = 0 ->
  decode_integer (integer_bytes value n fl ++ rest) n = Ok (value, rest).
Proof.
  intros Hv Hn Hfl. unfold is_uint in Hv. unfold decode_integer, integer_bytes. rewrite mask_eq by lia.
  assert (Hland : forall x, 0 <= x <= 2 ^ n - 1 -> Z.land (Z.lor fl x) (2 ^ n - 1) = x).
  { intros x Hx. rewrite Z.land_lor_distr_l, Hfl, Z.lor_0_l.
    replace (2 ^ n - 1) with (Z.ones n) by (rewrite Z.ones_equiv; lia).
    rewrite Z.land_ones by lia. apply Z.mod_small. lia. }
  pose proof (mask_small n Hn). destruct (value <? 2 ^ n - 1) eqn:E; bool_hyps; cbn [app].
  - rewrite Hland by lia. by rewrite (proj2 (Z.ltb_lt _ _)) by lia.
  - rewrite Hland by lia. rewrite Z.ltb_irrefl, decode_group_bytes; unfold U64_MAX; try lia.
    f_equal. f_equal. lia.
Qed.

Lemma len_group_bytes fuel r : (0 < fuel)%nat -> 1 <= len (group_bytes fuel r) <= Z.of_nat fuel.
Proof.
  revert r; induction fuel as [|fuel IH]; intros r Hf; [lia|]. cbn [group_bytes].
  case_if; [|unfold len; simpl; lia]. rewrite len_cons. destruct fuel; [unfold len; simpl; lia|].
  specialize (IH (r / 128)). lia.
Qed.

Lemma len_integer_bytes value n fl : 1 <= len (integer_bytes value n fl) <= 11.
Proof.
  unfold integer_bytes. case_if; [unfold len; simpl; lia|]. rewrite len_cons.
  pose proof (len_group_bytes 10 (value - (2 ^ n - 1))). lia.
Qed.

(** A reader that succeeds consumed a non-empty prefix. *)
Lemma decode_groups_total rest value shift :
  bytes_ok rest -> 0 <= value -> 0 <= shift ->
  returns (decode_groups rest value shift) /\
  forall v tl, decode_groups rest value shift = Ok (v, tl) ->
    is_u64 v /\ exists used, rest = used ++ tl /\ 1 <= len used /\ (len used - 1) * 7 <= 63 - shift.
Proof.
  intros Hb; revert value shift; induction Hb as [|b rest Hb _ IH]; intros value shift Hv Hs; [done|].
  cbn [decode_groups]. case_if; [done|]. set (w := wrap 64 _).
  assert (0 <= w) by (apply Z.mod_pos_bound; lia).
  case_if; [done|]. bool_hyps. unfold is_uint. case_if.
  - split; [done|]. intros v tl [= <- <-]. unfold U64_MAX in *. split; [lia|].
    exists [b]. split; [done|]. unfold len; simpl; lia.
  - destruct (IH (value + w) (shift + 7)) as [Hr Hok]; [lia|lia|]. split; [done|].
    intros v tl (Hu & used & -> & Hl & Hs')%Hok. split; [done|]. exists (b :: used).
    split; [done|]. rewrite len_cons. lia.
Qed.

Lemma decode_integer_total_and_bounded input n :
  bytes_ok input -> 0 <= n <= 8 ->
  returns (decode_integer input n) /\
  forall v tl, decode_integer input n = Ok (v, tl) ->
    is_u64 v /\ exists used, input = used ++ tl /\ 1 <= len used <= 11.
Proof.
  intros Hb Hn. unfold decode_integer. rewrite mask_eq by lia. pose proof (mask_small n Hn).
  destruct Hb as [|b rest Hb Hrest]; [done|]. case_if; bool_hyps.
  - split; [done|]. intros v tl [= <- <-]. split.
    + unfold is_uint in *. split; [apply Z.land_nonneg; lia|lia].
    + exists [b]. split; [done|]. unfold len; simpl; lia.
  - destruct (decode_groups_total rest (2 ^ n - 1) 0 Hrest) as [Hr Hok]; [lia|lia|].
    split; [done|]. intros v tl (Hu & used & -> & Hl & Hs)%Hok. split; [done|].
    exists (b :: used). split; [done|]. rewrite len_cons. lia.
Qed.

(** ** Properties *)

(** Every [u64] survives encoding, under every prefix width and whatever
    flag bits share the first byte.  With eleven bytes of room [encode_integer]
    succeeds, touches nothing outside the bytes it reports, and [decode_integer]
    of those bytes, whatever follows, returns the value and exactly what follows. *)
Theorem integer_roundtrip (value n fl l : Z) (out : bytes) :
  is_u64 value -> 1 <= n <= 8 -> Z.land fl (2 ^ n - 1) = 0 -> 0 <= l -> l + 11 <= len out ->
  exists out' l', encode_integer value n fl out l = Ok (out', l') /\ l < l' <= l + 11 /\
    ztake l out' = ztake l out /\ zdrop l' out' = zdrop l' out /\
    forall rest, decode_integer (sub_range l l' out' ++ rest) n = Ok (value, rest).
Proof.
  intros Hv Hn Hfl Hl Hroom. pose proof (len_integer_bytes value n fl) as Hlen.
  assert (Hout : len (ztake l out) = l) by llia.
  pose proof (appends_integer value n fl Hv ltac:(lia) (ztake l out) (zdrop l out)) as H.
  rewrite ztake_zdrop, Hout in H. rewrite H, (proj2 (Z.leb_le _ _)) by llia.
  do 2 eexists. split; [done|]. split; [lia|]. split; [by apply ztake_app_len|]. split.
  - rewrite app_assoc, zdrop_app_len by llia. by rewrite zdrop_zdrop by lia.
  - intros rest. rewrite sub_range_mid by lia. apply decode_integer_bytes; [done|lia|done].
Qed.

Lemma integer_roundtrip_witness :
  exists out' l', encode_integer (2 ^ 64 - 1) 5 0x20 (zeros 16) 2 = Ok (out', l') /\ 2 < l' <= 2 + 11 /\
    ztake 2 out' = ztake 2 (zeros 16) /\ zdrop l' out' = zdrop l' (zeros 16) /\
    forall rest, decode_integer (sub_range 2 l' out' ++ rest) 5 = Ok (2 ^ 64 - 1, rest).
Proof.
  apply (integer_roundtrip (2 ^ 64 - 1) 5 0x20 2 (zeros 16));
    solve [vm_compute; reflexivity | vm_compute; intuition discriminate].
Defined.

(** An integer above the 64-bit range is not refused.  Ten continuation
    groups whose last one carries bit 64 are decoded as the prefix value alone:
    the shift drops the bit and the checked addition never sees it. *)
Theorem decode_integer_truncates (rest : bytes) :
  decode_integer ([0xff] ++ replicate 9 0x80 ++ [0x02] ++ rest) 7 = Ok (127, rest).
Proof. reflexivity. Qed.
