(* ===== verification/HpackTable.v ===== *)
(** * HPACK tables

    [crates/micro-h2/src/hpack/static_table.rs] and [hpack/dynamic.rs]: the
    sixty-one static entries, and the table the peer builds.  Text is its bytes. *)

From S2P Require Import Prelude H2Frame.
From Stdlib Require Strings.String Strings.Ascii.
Import (notations) Strings.String.

(** The bytes of an ASCII literal. *)
Definition ascii_byte (a : Ascii.ascii) : Z := Z.of_N (Ascii.N_of_ascii a).
Fixpoint bs (s : String.string) : bytes :=
  match s with String.EmptyString => [] | String.String a s => ascii_byte a :: bs s end.
Arguments bs s%_string_scope.

(** [iter().position(f)] *)
Fixpoint find_index {A} (f : A -> bool) (l : list A) : option Z :=
  match l with
  | [] => None
  | x :: l => if f x then Some 0 else let? i := find_index f l in Some (i + 1)
  end.

(** ** The static table *)

Module static_table.

Definition ENTRIES : list (bytes * bytes) := [
   (bs ":authority", []);
   (bs ":method", bs "GET");
   (bs ":method", bs "POST");
   (bs ":path", bs "/");
   (bs ":path", bs "/index.html");
   (bs ":scheme", bs "http");
   (bs ":scheme", bs "https");
   (bs ":status", bs "200");
   (bs ":status", bs "204");
   (bs ":status", bs "206");
   (bs ":status", bs "304");
   (bs ":status", bs "400");
   (bs ":status", bs "404");
   (bs ":status", bs "500");
   (bs "accept-charset", []);
   (bs "accept-encoding", bs "gzip, deflate");
   (bs "accept-language", []);
   (bs "accept-ranges", []);
   (bs "accept", []);
   (bs "access-control-allow-origin", []);
   (bs "age", []);
   (bs "allow", []);
   (bs "authorization", []);
   (bs "cache-control", []);
   (bs "content-disposition", []);
   (bs "content-encoding", []);
   (bs "content-language", []);
   (bs "content-length", []);
   (bs "content-location", []);
   (bs "content-range", []);
   (bs "content-type", []);
   (bs "cookie", []);
   (bs "date", []);
   (bs "etag", []);
   (bs "expect", []);
   (bs "expires", []);
   (bs "from", []);
   (bs "host", []);
   (bs "if-match", []);
   (bs "if-modified-since", []);
   (bs "if-none-match", []);
   (bs "if-range", []);
   (bs "if-unmodified-since", []);
   (bs "last-modified", []);
   (bs "link", []);
   (bs "location", []);
   (bs "max-forwards", []);
   (bs "proxy-authenticate", []);
   (bs "proxy-authorization", []);
   (bs "range", []);
   (bs "referer", []);
   (bs "refresh", []);
   (bs "retry-after", []);
   (bs "server", []);
   (bs "set-cookie", []);
   (bs "strict-transport-security", []);
   (bs "transfer-encoding", []);
   (bs "user-agent", []);
   (bs "vary", []);
   (bs "via", []);
   (bs "www-authenticate", [])
].

Definition DYNAMIC_BASE : Z := len ENTRIES + 1.

Definition get (index : Z) : option (bytes * bytes) :=
  if index =? 0 then None else get_at (index - 1) ENTRIES.

Definition find (name value : bytes) : option Z :=
  let? i := find_index (fun e => bytes_eqb e.1 name && bytes_eqb e.2 value) ENTRIES in Some (i + 1).

Definition find_name (name : bytes) : option Z :=
  let? i := find_index (fun e => bytes_eqb e.1 name) ENTRIES in Some (i + 1).

End static_table.

(** ** The dynamic table *)

Module DynamicTable.

Definition DEFAULT_TABLE_SIZE : Z := 4096.
Definition MAX_ENTRIES : Z := 64.
Definition MAX_ENTRY_LEN : Z := 128.
Definition ENTRY_OVERHEAD : Z := 32.

Record Entry := mkEntry { name : bytes; value : bytes }.

Definition entry_size (e : Entry) : Z := len (name e) + len (value e) + ENTRY_OVERHEAD.

(** Newest first. *)
Record t := mk { entries : list Entry; size : Z; capacity : Z }.

Definition new (capacity : Z) : t := mk [] 0 capacity.

(** [Deque::pop_back] *)
Definition pop_back {A} (l : list A) : option (list A * A) :=
  match reverse l with
  | [] => None
  | x :: r => Some (reverse r, x)
  end.

Definition evict_oldest (d : t) : t :=
  match pop_back (entries d) with
  | Some (rest, e) => mk rest (size d - entry_size e) (capacity d)
  | None => d
  end.

(** The loop of [evict_to_fit]: it removes an entry each time round, so it runs
    at most once per entry. *)
Fixpoint evict_loop (n : nat) (incoming : Z) (d : t) : t :=
  match n with
  | O => d
  | S n =>
      if (capacity d <? size d + incoming) && negb (len (entries d) =? 0)
      then evict_loop n incoming (evict_oldest d) else d
  end.

Definition evict_to_fit (d : t) (incoming : Z) : t := evict_loop (length (entries d)) incoming d.

Definition set_capacity (d : t) (capacity : Z) : t :=
  evict_to_fit (mk (entries d) (size d) capacity) 0.

Definition get (d : t) (index : Z) : option (bytes * bytes) :=
  if index <? static_table.DYNAMIC_BASE then None else
  let? e := get_at (index - static_table.DYNAMIC_BASE) (entries d) in Some (name e, value e).

(** [heapless::String::try_from] *)
Definition try_from (s : bytes) : option bytes := if len s <=? MAX_ENTRY_LEN then Some s else None.

Definition insert (d : t) (n v : bytes) : t :=
  let sz := len n + len v + ENTRY_OVERHEAD in
  let d := evict_to_fit d sz in
  if (capacity d <? sz) || (MAX_ENTRY_LEN <? len n) || (MAX_ENTRY_LEN <? len v) then d else
  let d := if len (entries d) =? MAX_ENTRIES then evict_oldest d else d in
  match try_from n, try_from v with
  | Some n, Some v =>
      let entry := mkEntry n v in
      (* [push_front] does nothing to a full deque *)
      let es := if len (entries d) =? MAX_ENTRIES then entries d else entry :: entries d in
      mk es (size d + entry_size entry) (capacity d)
  | _, _ => d
  end.

Definition lookup (d : t) (index : Z) : res H2Error (bytes * bytes) :=
  if index <? static_table.DYNAMIC_BASE
  then ok_or (static_table.get index) Hpack
  else ok_or (get d index) Hpack.

End DynamicTable.

(** ** The table of RFC 7541 section 4

    No bound on the number of entries or their length: a size limit evicts the
    oldest entries, an entry larger than the limit empties the table. *)

Module Rfc.
Import DynamicTable.

Record t := mk { table : list Entry; limit : Z }.

Definition new (limit : Z) : t := mk [] limit.

(** The newest entries that fit. *)
Fixpoint keep (limit : Z) (l : list Entry) : list Entry :=
  match l with
  | [] => []
  | e :: l => if entry_size e <=? limit then e :: keep (limit - entry_size e) l else []
  end.

Definition resize (r : t) (limit : Z) : t := mk (keep limit (table r)) limit.

Definition insert (r : t) (n v : bytes) : t := mk (keep (limit r) (mkEntry n v :: table r)) (limit r).

End Rfc.

(** What the peer's stream does to the table. *)
Inductive op : Type := Insert (n v : bytes) | Resize (limit : Z).

Definition apply_op (d : DynamicTable.t) (o : op) : DynamicTable.t :=
  match o with
  | Insert n v => DynamicTable.insert d n v
  | Resize c => DynamicTable.set_capacity d c
  end.

Definition apply_rfc (r : Rfc.t) (o : op) : Rfc.t :=
  match o with
  | Insert n v => Rfc.insert r n v
  | Resize c => Rfc.resize r c
  end.

(** The entries the implementation can store. *)
Definition storable (o : op) : Prop :=
  match o with
  | Insert n v => len n <= DynamicTable.MAX_ENTRY_LEN /\ len v <= DynamicTable.MAX_ENTRY_LEN
  | Resize c => 0 <= c
  end.

(** ** Facts *)

Module TableFacts.
Import DynamicTable.

Definition total (l : list Entry) : Z := foldr Z.add 0 (map entry_size l).

Lemma entry_size_pos e : 32 <= entry_size e.
Proof. unfold entry_size, ENTRY_OVERHEAD. llia. Qed.

Lemma total_app l k : total (l ++ k) = total l + total k.
Proof. unfold total. induction l as [|e l IH]; simpl in *; lia. Qed.

Lemma total_nonneg l : 0 <= total l.
Proof. unfold total. induction l as [|e l IH]; simpl; [lia|]. pose proof (entry_size_pos e). lia. Qed.

Lemma keep_neg c l : c < 32 -> Rfc.keep c l = [].
Proof.
  destruct l as [|e l]; intros; simpl; [done|]. pose proof (entry_size_pos e).
  by rewrite (proj2 (Z.leb_gt _ _)) by lia.
Qed.

Lemma keep_all c l : total l <= c -> Rfc.keep c l = l.
Proof.
  revert c; induction l as [|e l IH]; intros c H; simpl in *; [done|].
  pose proof (total_nonneg l). unfold total in *. simpl in H.
  rewrite (proj2 (Z.leb_le _ _)), IH by lia. done.
Qed.

Lemma keep_snoc c l e : c < total (l ++ [e]) -> Rfc.keep c (l ++ [e]) = Rfc.keep c l.
Proof.
  revert c; induction l as [|x l IH]; intros c H; simpl in *.
  - unfold total in H. simpl in H. by rewrite (proj2 (Z.leb_gt _ _)) by lia.
  - unfold total in *. simpl in H. case_if; [|done]. by rewrite IH by lia.
Qed.

Lemma keep_total c l : 0 <= c -> total (Rfc.keep c l) <= c.
Proof.
  revert c; induction l as [|e l IH]; intros c H; simpl; [done|]. case_if; [|done]. bool_hyps.
  unfold total in *. simpl. specialize (IH (c - entry_size e)). lia.
Qed.

Lemma keep_take c n l : Rfc.keep c (take n l) = take n (Rfc.keep c l).
Proof.
  revert c n; induction l as [|e l IH]; intros c [|n]; simpl; try done.
  case_if; [|done]. simpl. by rewrite IH.
Qed.

(** The size field is the size of the entries. *)
Definition consistent (d : t) : Prop := size d = total (entries d).

Lemma pop_back_snoc {A} (l : list A) x : pop_back (l ++ [x]) = Some (l, x).
Proof. unfold pop_back. rewrite reverse_snoc. by rewrite reverse_involutive. Qed.

Lemma evict_oldest_snoc l e c :
  evict_oldest (mk (l ++ [e]) (total (l ++ [e])) c) = mk l (total l) c.
Proof.
  unfold evict_oldest. cbn [entries size capacity]. rewrite pop_back_snoc, total_app.
  f_equal. unfold total at 2. simpl. lia.
Qed.

(** Evicting to fit keeps exactly the newest entries that fit. *)
Lemma evict_to_fit_keep d incoming :
  consistent d ->
  evict_to_fit d incoming =
  mk (Rfc.keep (capacity d - incoming) (entries d))
    (total (Rfc.keep (capacity d - incoming) (entries d))) (capacity d).
Proof.
  destruct d as [l s c]. unfold consistent, evict_to_fit. cbn [entries size capacity]. intros ->.
  induction l as [|e l IH] using rev_ind; [done|].
  rewrite length_app, Nat.add_comm. cbn [length Nat.add evict_loop entries size capacity].
  rewrite (proj2 (Z.eqb_neq _ _)), andb_true_r by llia.
  destruct (c <? total (l ++ [e]) + incoming) eqn:E; bool_hyps.
  - rewrite evict_oldest_snoc, IH, keep_snoc by lia. done.
  - rewrite keep_all by lia. done.
Qed.

(** The loop stops because its condition fails, not because it ran out. *)
Lemma evict_to_fit_done d incoming :
  consistent d ->
  let d' := evict_to_fit d incoming in
  size d' + incoming <= capacity d' \/ entries d' = [].
Proof.
  intros H. rewrite evict_to_fit_keep by done. simpl.
  destruct (Z.le_gt_cases 0 (capacity d - incoming)).
  - left. pose proof (keep_total (capacity d - incoming) (entries d)). lia.
  - right. apply keep_neg. lia.
Qed.

(** The relation the refinement maintains: the newest 64 of the RFC's entries. *)
Definition mirrors (d : t) (r : Rfc.t) : Prop :=
  entries d = take 64 (Rfc.table r) /\ consistent d /\ capacity d = Rfc.limit r /\
  0 <= capacity d /\ size d <= capacity d.

Lemma mirrors_new c : 0 <= c -> mirrors (new c) (Rfc.new c).
Proof. intros. by split_and!. Qed.

Lemma total_take n l : total (take n l) <= total l.
Proof.
  rewrite <- (take_drop n l) at 2. rewrite total_app. pose proof (total_nonneg (drop n l)). lia.
Qed.

Lemma mirrors_resize d r c : 0 <= c -> mirrors d r -> mirrors (set_capacity d c) (Rfc.resize r c).
Proof.
  intros Hc (He & Hcons & _ & _). unfold set_capacity. rewrite evict_to_fit_keep by done.
  cbn [capacity entries]. rewrite Z.sub_0_r, He, keep_take.
  split_and!; try done. simpl. pose proof (keep_total c (Rfc.table r) Hc). 
  pose proof (total_take 64 (Rfc.keep c (Rfc.table r))). lia.
Qed.

Lemma length_full {A} (l : list A) : (len (take 64 l) =? MAX_ENTRIES) = (64 <=? length l)%nat.
Proof.
  unfold len, MAX_ENTRIES. rewrite length_take.
  destruct (64 <=? length l)%nat eqn:E; [apply Nat.leb_le in E; apply Z.eqb_eq
    |apply Nat.leb_gt in E; apply Z.eqb_neq]; lia.
Qed.

(** Making room in a full table. *)
Lemma evict_full k c :
  let d := mk (take 64 k) (total (take 64 k)) c in
  (if len (entries d) =? MAX_ENTRIES then evict_oldest d else d) =
  mk (take 63 k) (total (take 63 k)) c.
Proof.
  cbn [entries]. rewrite length_full. destruct (64 <=? length k)%nat eqn:E.
  - apply Nat.leb_le in E. destruct (lookup_lt_is_Some_2 k 63) as [x Hx]; [lia|].
    rewrite (take_S_r k 63 x Hx). apply evict_oldest_snoc.
  - apply Nat.leb_gt in E. by rewrite !take_ge by lia.
Qed.

Lemma mirrors_insert d r n v :
  len n <= MAX_ENTRY_LEN -> len v <= MAX_ENTRY_LEN -> mirrors d r ->
  mirrors (insert d n v) (Rfc.insert r n v).
Proof.
  intros Hn Hv (He & Hcons & Hcap & Hc0 & Hs).
  unfold insert, Rfc.insert. cbv zeta. change (len n + len v + ENTRY_OVERHEAD) with (entry_size (mkEntry n v)).
  set (e := mkEntry n v). rewrite evict_to_fit_keep by done. rewrite He, keep_take. cbn [capacity].
  rewrite !(proj2 (Z.ltb_ge MAX_ENTRY_LEN _)), !orb_false_r by done.
  rewrite <- Hcap. cbn [Rfc.keep].
  destruct (capacity d <? entry_size e) eqn:E; bool_hyps.
  - rewrite (proj2 (Z.leb_gt _ _)) by lia. rewrite keep_neg by lia. by split_and!.
  - rewrite (proj2 (Z.leb_le _ _)) by lia. set (k := Rfc.keep _ _). rewrite evict_full.
    unfold try_from. rewrite !(proj2 (Z.leb_le _ MAX_ENTRY_LEN)) by done. fold e. cbn [entries size capacity].
    assert ((len (take 63 k) =? MAX_ENTRIES) = false) as ->.
    { apply Z.eqb_neq. unfold len, MAX_ENTRIES. rewrite length_take. lia. }
    pose proof (keep_total (capacity d - entry_size e) (Rfc.table r) ltac:(lia)) as Ht. fold k in Ht.
    pose proof (total_take 63 k).
    split_and!; try done; unfold consistent, total in *; simpl in *; lia.
Qed.

Lemma mirrors_op d r o : storable o -> mirrors d r -> mirrors (apply_op d o) (apply_rfc r o).
Proof. destruct o; simpl; intros; [apply mirrors_insert|apply mirrors_resize]; tauto. Qed.

Lemma mirrors_run ops d r :
  Forall storable ops -> mirrors d r -> mirrors (foldl apply_op d ops) (foldl apply_rfc r ops).
Proof. intros H; revert d r; induction H; intros; simpl; [done|]. by apply IHForall, mirrors_op. Qed.

End TableFacts.
Import TableFacts.

(** ** Properties *)

Section Properties.
Import DynamicTable.

Lemma get_offset d i : 0 <= i -> get d (static_table.DYNAMIC_BASE + i) =
  let? e := entries d !! Z.to_nat i in Some (name e, value e).
Proof.
  intros Hi. unfold get. rewrite (proj2 (Z.ltb_ge _ _)) by lia.
  replace (static_table.DYNAMIC_BASE + i - static_table.DYNAMIC_BASE) with i by lia.
  unfold get_at. by rewrite (proj2 (Z.leb_le _ _)).
Qed.

(** The table stays in step with the peer's.  After any sequence of
    insertions and size updates whose names and values are short enough to
    store, the index [62 + i] resolves to exactly the entry RFC 7541 gives it,
    for the 64 newest entries; an older index does not resolve, so it is an
    error and never another header. *)
Theorem dynamic_table_refines (limit : Z) (ops : list op) :
  0 <= limit -> Forall storable ops ->
  let d := foldl apply_op (new limit) ops in
  let r := foldl apply_rfc (Rfc.new limit) ops in
  forall i, 0 <= i ->
    get d (static_table.DYNAMIC_BASE + i) =
    if i <? MAX_ENTRIES
    then let? e := Rfc.table r !! Z.to_nat i in Some (name e, value e) else None.
Proof.
  intros Hl Hops d r i Hi. rewrite get_offset by done.
  destruct (mirrors_run ops (new limit) (Rfc.new limit) Hops (mirrors_new limit Hl)) as [He _].
  fold d r in He. rewrite He. destruct (i <? MAX_ENTRIES) eqn:E; bool_hyps; unfold MAX_ENTRIES in E.
  - by rewrite lookup_take_lt by lia.
  - by rewrite lookup_take_ge by lia.
Qed.

(** A table whose entries, size and capacity respect the bounds. *)
Definition table_ok (d : t) : Prop :=
  size d = total (entries d) /\ 0 <= size d <= capacity d /\ len (entries d) <= MAX_ENTRIES /\
  Forall (fun e => len (name e) <= MAX_ENTRY_LEN /\ len (value e) <= MAX_ENTRY_LEN) (entries d).

Lemma keep_prefix c l : exists k, l = Rfc.keep c l ++ k.
Proof.
  revert c; induction l as [|e l IH]; intros c; simpl; [by exists []|]. case_if; [|by eexists].
  destruct (IH (c - entry_size e)) as [k Hk]. exists k. simpl. by rewrite <- Hk.
Qed.

Lemma evict_ok d incoming :
  consistent d -> 0 <= capacity d -> 0 <= incoming -> len (entries d) <= MAX_ENTRIES ->
  Forall (fun e => len (name e) <= MAX_ENTRY_LEN /\ len (value e) <= MAX_ENTRY_LEN) (entries d) ->
  table_ok (evict_to_fit d incoming) /\ capacity (evict_to_fit d incoming) = capacity d /\
  (incoming <= capacity d -> size (evict_to_fit d incoming) + incoming <= capacity d).
Proof.
  intros Hc H0 Hi Hn Hf. rewrite evict_to_fit_keep by done. unfold table_ok. cbn [size entries capacity].
  set (k := Rfc.keep _ _). pose proof (total_nonneg k).
  assert (total k <= capacity d /\ (incoming <= capacity d -> total k + incoming <= capacity d)) as [Hk1 Hk2].
  { destruct (Z.le_gt_cases incoming (capacity d)).
    - pose proof (keep_total (capacity d - incoming) (entries d) ltac:(lia)) as Hk. fold k in Hk. lia.
    - subst k. rewrite keep_neg by lia. unfold total; simpl. lia. }
  destruct (keep_prefix (capacity d - incoming) (entries d)) as [tl Htl]. fold k in Htl.
  split_and!; try done; try lia.
  - rewrite Htl, len_app in Hn. pose proof (len_nonneg tl). lia.
  - rewrite Htl in Hf. by apply Forall_app in Hf as [? _].
Qed.

Lemma evict_oldest_ok d :
  table_ok d -> len (entries d) = MAX_ENTRIES ->
  table_ok (evict_oldest d) /\ len (entries (evict_oldest d)) < MAX_ENTRIES /\
  capacity (evict_oldest d) = capacity d /\ size (evict_oldest d) <= size d.
Proof.
  destruct d as [l s c]. unfold table_ok. cbn [size entries capacity]. intros (-> & Hs & Hn & Hf) Hfull.
  induction l as [|e l _] using rev_ind; [done|]. rewrite evict_oldest_snoc. cbn [size entries capacity].
  rewrite total_app, len_app in *. apply Forall_app in Hf as [Hl _].
  pose proof (total_nonneg l). pose proof (entry_size_pos e).
  assert (total [e] = entry_size e) as Hte by (unfold total; simpl; lia).
  change (len [e]) with 1 in *. split_and!; try done; lia.
Qed.

Lemma apply_op_ok d o :
  (match o with Resize c => 0 <= c | _ => True end) -> table_ok d -> table_ok (apply_op d o).
Proof.
  intros Ho (Hc & Hs & Hn & Hf). destruct o as [n v|c]; simpl;
    [|destruct (evict_ok (mk (entries d) (size d) c) 0) as [? _]; simpl; try done; lia].
  unfold insert. cbv zeta. set (sz := len n + len v + ENTRY_OVERHEAD).
  assert (0 <= sz) by (unfold sz, ENTRY_OVERHEAD; nonneg_lens; lia).
  destruct (evict_ok d sz) as ((Hc1 & Hs1 & Hn1 & Hf1) & Hcap & Hroom); try done; [lia|].
  set (d1 := evict_to_fit d sz) in *. case_if; [unfold table_ok; split_and!; try done; lia|].
  apply orb_false_iff in Hif as [Hif Hv]. apply orb_false_iff in Hif as [Hsz Hnl]. bool_hyps.
  assert (exists d2, (if len (entries d1) =? MAX_ENTRIES then evict_oldest d1 else d1) = d2 /\
    table_ok d2 /\ len (entries d2) < MAX_ENTRIES /\ capacity d2 = capacity d /\ size d2 <= size d1)
    as (d2 & -> & (Hc2 & Hs2 & Hn2 & Hf2) & Hlt & Hcap2 & Hle).
  { case_if; bool_hyps; eexists; split; try done.
    - destruct (evict_oldest_ok d1) as (? & ? & ? & ?); try done. split_and!; try done. lia.
    - unfold table_ok; split_and!; try done; lia. }
  unfold try_from. rewrite !(proj2 (Z.leb_le _ MAX_ENTRY_LEN)) by done.
  rewrite (proj2 (Z.eqb_neq _ _)) by lia. unfold table_ok. cbn [size entries capacity].
  change (entry_size (mkEntry n v)) with sz. rewrite len_cons.
  assert (total (mkEntry n v :: entries d2) = sz + total (entries d2)) as -> by done.
  split_and!; try lia. by constructor.
Qed.

(** Whatever the peer sends, the table keeps its bounds: the size it accounts
    for is the size of what it holds (so the subtraction on eviction never
    underflows), it never exceeds its capacity, and it holds at most 64 entries
    of at most 128 bytes per field. *)
Theorem dynamic_table_bounded (limit : Z) (ops : list op) :
  0 <= limit -> Forall (fun o => match o with Resize c => 0 <= c | _ => True end) ops ->
  table_ok (foldl apply_op (new limit) ops).
Proof.
  intros Hl Hops. assert (table_ok (new limit)) as Hnew.
  { unfold table_ok, MAX_ENTRIES, total; simpl. unfold len; simpl. split_and!; try done; lia. }
  revert Hnew. generalize (new limit). induction Hops as [|o ops Ho _ IH]; intros d Hd; simpl; [done|].
  by apply IH, apply_op_ok.
Qed.

(** An entry too long to store is forgotten, and every later index is off by
    one.  The peer inserts a header and then one whose value exceeds 128 bytes:
    its index 62 is the long one, ours is the one before it, returned without an
    error. *)
Theorem long_entry_shifts_indices (limit : Z) (n0 v0 n v : bytes) :
  len n0 <= MAX_ENTRY_LEN -> len v0 <= MAX_ENTRY_LEN -> MAX_ENTRY_LEN < len v ->
  entry_size (mkEntry n0 v0) + entry_size (mkEntry n v) <= limit ->
  let ops := [Insert n0 v0; Insert n v] in
  lookup (foldl apply_op (new limit) ops) 62 = Ok (n0, v0) /\
  Rfc.table (foldl apply_rfc (Rfc.new limit) ops) !! 0%nat = Some (mkEntry n v).
Proof.
  intros Hn0 Hv0 Hv Hfit ops. pose proof (entry_size_pos (mkEntry n0 v0)). pose proof (entry_size_pos (mkEntry n v)).
  assert (0 <= limit) as Hl by lia.
  destruct (mirrors_run [Insert n0 v0] (new limit) (Rfc.new limit)) as (He & Hc & Hcap & _);
    [by repeat constructor|by apply mirrors_new|].
  cbn [foldl ops] in *. set (d := apply_op (new limit) (Insert n0 v0)) in *.
  set (r := apply_rfc (Rfc.new limit) (Insert n0 v0)) in *.
  assert (Rfc.table r = [mkEntry n0 v0]) as Hr.
  { subst r. simpl. by rewrite (proj2 (Z.leb_le _ _)) by lia. }
  rewrite Hr in He. simpl in He, Hcap. split.
  - unfold apply_op, insert. cbv zeta. rewrite evict_to_fit_keep, He, Hcap by done. cbn [capacity].
    change (len n + len v + ENTRY_OVERHEAD) with (entry_size (mkEntry n v)).
    rewrite (proj2 (Z.ltb_lt _ (len v))), orb_true_r by done.
    rewrite keep_all by (unfold total; simpl; lia). reflexivity.
  - unfold apply_rfc, Rfc.insert. simpl. change (Rfc.limit r) with limit.
    by rewrite (proj2 (Z.leb_le _ _)) by lia.
Qed.

End Properties.

Lemma dynamic_table_refines_witness :
  DynamicTable.get
    (foldl apply_op (DynamicTable.new 100) [Insert (bs "a") (bs "1"); Insert (bs "b") (bs "2"); Insert (bs "c") (bs "3")])
    (static_table.DYNAMIC_BASE + 1) = Some (bs "b", bs "2").
Proof.
  rewrite (dynamic_table_refines 100 [Insert (bs "a") (bs "1"); Insert (bs "b") (bs "2"); Insert (bs "c") (bs "3")]);
    [vm_compute; reflexivity|lia|repeat constructor; vm_compute; discriminate|lia].
Defined.

Lemma dynamic_table_bounded_witness :
  table_ok (foldl apply_op (DynamicTable.new 100) [Insert (bs "a") (bs "1"); Resize 10; Insert (zeros 200) []]).
Proof.
  apply (dynamic_table_bounded 100 [Insert (bs "a") (bs "1"); Resize 10; Insert (zeros 200) []]);
    [lia|repeat constructor; lia].
Defined.

Lemma long_entry_shifts_indices_witness :
  let ops := [Insert (bs "etag") (bs "x"); Insert (bs "set-cookie") (zeros 129)] in
  DynamicTable.lookup (foldl apply_op (DynamicTable.new DynamicTable.DEFAULT_TABLE_SIZE) ops) 62
    = Ok (bs "etag", bs "x") /\
  Rfc.table (foldl apply_rfc (Rfc.new DynamicTable.DEFAULT_TABLE_SIZE) ops) !! 0%nat
    = Some (DynamicTable.mkEntry (bs "set-cookie") (zeros 129)).
Proof.
  apply (long_entry_shifts_indices DynamicTable.DEFAULT_TABLE_SIZE (bs "etag") (bs "x") (bs "set-cookie") (zeros 129));
    vm_compute; solve [reflexivity | discriminate].
Defined.
