(* ===== verification/Huffman.v ===== *)
(** * HPACK's Huffman code

    [crates/micro-h2/src/hpack/huffman.rs]: the code lengths, the tables derived
    from them and the bit-at-a-time decoder.  The canonical code itself is
    defined from the lengths alone, independently of those tables, and the
    decoder is shown to be its exact inverse. *)

From S2P Require Import Prelude H2Frame.

Module huffman.

Definition LENGTHS : list Z := [
   13; 23; 28; 28; 28; 28; 28; 28; 28; 24; 30; 28; 28; 30; 28; 28;
   28; 28; 28; 28; 28; 28; 30; 28; 28; 28; 28; 28; 28; 28; 28; 28;
   6; 10; 10; 12; 13; 6; 8; 11; 10; 10; 8; 11; 8; 6; 6; 6;
   5; 5; 5; 6; 6; 6; 6; 6; 6; 6; 7; 8; 15; 6; 12; 10;
   13; 6; 7; 7; 7; 7; 7; 7; 7; 7; 7; 7; 7; 7; 7; 7;
   7; 7; 7; 7; 7; 7; 7; 7; 8; 7; 8; 13; 19; 13; 14; 6;
   15; 5; 6; 5; 6; 5; 6; 6; 6; 5; 7; 7; 6; 6; 6; 5;
   6; 7; 6; 5; 5; 6; 7; 7; 7; 7; 7; 15; 11; 14; 13; 28;
   20; 22; 20; 20; 22; 22; 22; 23; 22; 23; 23; 23; 23; 23; 24; 23;
   24; 24; 22; 23; 24; 23; 23; 23; 23; 21; 22; 23; 22; 23; 23; 24;
   22; 21; 20; 22; 22; 23; 23; 21; 23; 22; 22; 24; 21; 22; 23; 23;
   21; 21; 22; 21; 23; 22; 23; 23; 20; 22; 22; 22; 23; 22; 22; 23;
   26; 26; 20; 19; 22; 23; 22; 25; 26; 26; 26; 27; 27; 26; 24; 25;
   19; 21; 26; 27; 27; 26; 27; 24; 21; 21; 26; 26; 28; 27; 27; 27;
   20; 24; 20; 21; 22; 21; 21; 23; 22; 22; 25; 25; 24; 24; 26; 23;
   26; 27; 26; 26; 27; 27; 27; 27; 27; 28; 27; 27; 27; 27; 27; 26;
   30].

Definition EOS : Z := 256.
Definition MIN_LENGTH : Z := 5.
Definition MAX_LENGTH : Z := 30.

Record Tables := mkTables {
  sorted : list Z;
  first_code : list Z;
  first_index : list Z;
  counts : list Z;
}.

(** [counts[LENGTHS[symbol]] += 1] *)
Definition count_step (counts : list Z) (symbol : Z) : list Z :=
  let l := at_ symbol LENGTHS in <[Z.to_nat l := at_ l counts + 1]> counts.

(** The inner loop body: place [symbol] if its code has this length. *)
Definition place_step (length : Z) (st : list Z * Z) (symbol : Z) : list Z * Z :=
  let (sorted, index) := st in
  if at_ symbol LENGTHS =? length then (<[Z.to_nat index := symbol]> sorted, index + 1) else st.

(** The outer loop body. *)
Definition length_step (counts : list Z) (st : list Z * list Z * list Z * Z * Z) (length : Z)
  : list Z * list Z * list Z * Z * Z :=
  let '(sorted, first_index, first_code, code, index) := st in
  let code := wrap 32 (Z.shiftl code 1) in
  let first_code := <[Z.to_nat length := code]> first_code in
  let first_index := <[Z.to_nat length := index]> first_index in
  let (sorted, index) := foldl (place_step length) (sorted, index) (seqZ 0 257) in
  let code := code + at_ length counts in
  (sorted, first_index, first_code, code, index).

Definition build : Tables :=
  let counts := foldl count_step (zeros (MAX_LENGTH + 1)) (seqZ 0 257) in
  let '(sorted, first_index, first_code, _, _) :=
    foldl (length_step counts) (zeros 257, zeros (MAX_LENGTH + 1), zeros (MAX_LENGTH + 1), 0, 0)
      (seqZ 1 MAX_LENGTH) in
  mkTables sorted first_code first_index counts.

(** Evaluated once, as the [const] is. *)
Definition TABLES : Tables := Eval vm_compute in build.

(** One turn of the inner loop: the bytes written so far, the accumulated code
    and its length. *)
Definition step_bit (cap : Z) (st : bytes * Z * Z) (bit : Z) : res H2Error (bytes * Z * Z) :=
  let '(out, code, length) := st in
  let code := Z.lor (wrap 32 (Z.shiftl code 1)) bit in
  let length := length + 1 in
  if MAX_LENGTH <? length then Err Hpack else
  if length <? MIN_LENGTH then Ok (out, code, length) else
  let! count := or_panic (get_at length (counts TABLES)) in
  let! first := or_panic (get_at length (first_code TABLES)) in
  if (count =? 0) || (code <? first) || (first + count <=? code) then Ok (out, code, length) else
  let! start := or_panic (get_at length (first_index TABLES)) in
  let! symbol := or_panic (get_at (start + (code - first)) (sorted TABLES)) in
  if symbol =? EOS then Err Hpack else
  if cap <=? len out then Err BufferTooSmall else
  Ok (out ++ [wrap 8 symbol], 0, 0).

Fixpoint decode_bits (cap : Z) (st : bytes * Z * Z) (bits : list Z) : res H2Error (bytes * Z * Z) :=
  match bits with
  | [] => Ok st
  | b :: bits => let! st := step_bit cap st b in decode_bits cap st bits
  end.

(** [for bit in (0..8).rev()] of one byte. *)
Definition byte_bits (byte : Z) : list Z :=
  map (fun bit => Z.land (Z.shiftr byte bit) 1) [7; 6; 5; 4; 3; 2; 1; 0].

(** The bytes written into a buffer of [cap] bytes. *)
Definition decode (input : bytes) (cap : Z) : res H2Error bytes :=
  let! '(out, code, length) := decode_bits cap ([], 0, 0) (concat (map byte_bits input)) in
  if (8 <=? length) || negb (code =? wrap 32 (Z.shiftl 1 length) - 1) then Err Hpack else Ok out.

End huffman.
Import huffman.

(** ** The canonical code

    Symbols ordered by length, then by value; each code is the previous one plus
    one, shifted to its own length. *)

Module Canonical.

(** Each symbol with its length. *)
Definition symbols : list (Z * Z) := zip (seqZ 0 257) LENGTHS.

Definition precedes (t lt s ls : Z) : bool := (lt <? ls) || ((lt =? ls) && (t <? s)).

(** The code of [s]: the measure of all codes before it, in units of its own. *)
Definition code_value (s : Z) : Z :=
  let ls := at_ s LENGTHS in
  foldr Z.add 0 (map (fun '(t, lt) => if precedes t lt s ls then 2 ^ (ls - lt) else 0) symbols).

(** The low [n] bits of [v], most significant first. *)
Fixpoint bits_of (n : nat) (v : Z) : list Z :=
  match n with
  | O => []
  | S n => bits_of n (v / 2) ++ [v mod 2]
  end.

Definition code_bits (s : Z) : list Z := bits_of (Z.to_nat (at_ s LENGTHS)) (code_value s).

(** A Huffman-coded string: the codes one after another, then fewer than eight
    one bits up to the byte boundary. *)
Definition encodes (input text : bytes) : Prop :=
  exists k, (k < 8)%nat /\ concat (map byte_bits input) = concat (map code_bits text) ++ replicate k 1.

End Canonical.
Import Canonical.

(** ** Facts *)

Module HuffmanFacts.

(** The symbol, if any, whose code these bits are. *)
Definition find_symbol (code length : Z) : option Z :=
  let count := at_ length (counts TABLES) in
  let first := at_ length (first_code TABLES) in
  if (length <? MIN_LENGTH) || (count =? 0) || (code <? first) || (first + count <=? code) then None
  else Some (at_ (at_ length (first_index TABLES) + (code - first)) (sorted TABLES)).

Definition val (p : list Z) : Z := foldl (fun acc b => 2 * acc + b) 0 p.
Definition is_bit (b : Z) : Prop := b = 0 \/ b = 1.

Lemma val_snoc p b : val (p ++ [b]) = 2 * val p + b.
Proof. unfold val. by rewrite foldl_app. Qed.

Lemma val_bound p : Forall is_bit p -> 0 <= val p < 2 ^ len p.
Proof.
  induction p as [|b p IH] using rev_ind; [done|]. intros [Hp Hb]%Forall_app.
  apply Forall_cons_iff in Hb as [Hb _]. specialize (IH Hp). rewrite val_snoc, len_app.
  change (len [b]) with 1. rewrite Z.pow_add_r by llia. unfold is_bit in Hb. lia.
Qed.

Lemma bits_of_val p : Forall is_bit p -> bits_of (length p) (val p) = p.
Proof.
  induction p as [|b p IH] using rev_ind; [done|]. intros [Hp Hb]%Forall_app.
  apply Forall_cons_iff in Hb as [Hb _].
  rewrite length_app, Nat.add_comm, val_snoc. cbn [length Nat.add bits_of].
  assert (0 <= b < 2) by (unfold is_bit in Hb; lia).
  replace ((2 * val p + b) / 2) with (val p) by (apply (Z.div_unique _ 2 _ b); lia).
  replace ((2 * val p + b) mod 2) with b by (apply (Z.mod_unique _ 2 (val p)); lia).
  by rewrite IH.
Qed.

Lemma length_bits_of n v : length (bits_of n v) = n.
Proof. revert v; induction n as [|n IH]; intros v; simpl; [done|]. rewrite length_app, IH. simpl. lia. Qed.

Lemma bits_of_bits n v : Forall is_bit (bits_of n v).
Proof.
  revert v; induction n as [|n IH]; intros v; simpl; [constructor|]. apply Forall_app. split; [done|].
  constructor; [|constructor]. unfold is_bit. pose proof (Z.mod_pos_bound v 2). lia.
Qed.

Lemma byte_bits_bits b : Forall is_bit (byte_bits b).
Proof.
  unfold byte_bits. apply Forall_map, List.Forall_forall. intros i _. simpl. unfold is_bit.
  pose proof (Z.land_ones (Z.shiftr b i) 1 ltac:(lia)) as Hl. change (Z.ones 1) with 1 in Hl.
  rewrite Hl. change (2 ^ 1) with 2. pose proof (Z.mod_pos_bound (Z.shiftr b i) 2). lia.
Qed.

Lemma input_bits_bits input : Forall is_bit (concat (map byte_bits input)).
Proof. induction input; cbn [map concat]; [constructor|]. apply Forall_app. split; [apply byte_bits_bits|done]. Qed.

(** *** What evaluation establishes of the tables *)

Definition option_eqb (a b : option Z) : bool := bool_decide (a = b).

(** Along the bits of a code the tables find nothing before its last bit, and
    the symbol at it. *)
Definition prefix_check (s : Z) : bool :=
  let bits := code_bits s in
  forallb (fun j => option_eqb (find_symbol (val (take (Z.to_nat j) bits)) j)
                      (if j =? at_ s LENGTHS then Some s else None))
    (seqZ 1 (at_ s LENGTHS)) && (5 <=? at_ s LENGTHS) && (at_ s LENGTHS <=? 30).

Lemma prefix_check_all : forallb prefix_check (seqZ 0 257) = true.
Proof. vm_compute. reflexivity. Qed.

(** Whatever the tables find is the symbol with that code. *)
Definition found_check (l : Z) : bool :=
  forallb (fun i => let c := at_ l (first_code TABLES) + i in
     match find_symbol c l with
     | Some s => (0 <=? s) && (s <? 257) && bool_decide (code_bits s = bits_of (Z.to_nat l) c)
     | None => false
     end) (seqZ 0 (at_ l (counts TABLES))).

Lemma found_check_all : forallb found_check (seqZ 0 31) = true.
Proof. vm_compute. reflexivity. Qed.

Lemma table_lengths :
  len (counts TABLES) = 31 /\ len (first_code TABLES) = 31 /\ len (first_index TABLES) = 31 /\
  len (sorted TABLES) = 257.
Proof. by vm_compute. Qed.

(** The index computed for a match is always inside [sorted]. *)
Lemma index_in_sorted : forallb (fun l =>
  (0 <=? at_ l (first_index TABLES)) && (at_ l (first_index TABLES) + at_ l (counts TABLES) <=? 257) &&
  (0 <=? at_ l (counts TABLES))) (seqZ 0 31) = true.
Proof. by vm_compute. Qed.

Lemma lor_bit v b : is_bit b -> Z.lor (2 * v) b = 2 * v + b.
Proof.
  intros [-> | ->]; [by rewrite Z.lor_0_r, Z.add_0_r|].
  pose proof (Z.add_lor_land (2 * v) 1) as Ha. pose proof (Z.land_ones (2 * v) 1 ltac:(lia)) as Hl.
  change (Z.ones 1) with 1 in Hl. rewrite Hl in Ha. change (2 ^ 1) with 2 in Ha.
  rewrite Z.mul_comm, Z.mod_mul in Ha by lia. rewrite Z.mul_comm. lia.
Qed.

Lemma table_at (t : list Z) l : len t = 31 -> 0 <= l <= 30 -> @or_panic H2Error _ (get_at l t) = Ok (at_ l t).
Proof. intros Ht Hl. unfold at_. destruct (get_at_is_Some l t) as [x ->]; [lia|done]. Qed.

(** One step, in terms of the bits read since the last symbol. *)
Lemma step_bit_eq cap out p b :
  Forall is_bit p -> is_bit b ->
  step_bit cap (out, val p, len p) b =
  if MAX_LENGTH <? len p + 1 then Err Hpack else
  match find_symbol (val (p ++ [b])) (len p + 1) with
  | None => Ok (out, val (p ++ [b]), len (p ++ [b]))
  | Some s => if s =? EOS then Err Hpack else if cap <=? len out then Err BufferTooSmall
              else Ok (out ++ [wrap 8 s], 0, 0)
  end.
Proof.
  intros Hp Hb. unfold step_bit. destruct (MAX_LENGTH <? len p + 1) eqn:E; [done|].
  bool_hyps. unfold MAX_LENGTH in E. pose proof (val_bound p Hp) as Hv. pose proof (len_nonneg p).
  assert (2 ^ len p <= 2 ^ 30) by (apply Z.pow_le_mono_r; lia).
  rewrite Z.shiftl_mul_pow2 by lia. change (2 ^ 1) with 2. unfold wrap at 1 2 3 4 5.
  rewrite (Z.mod_small (val p * 2)) by lia. rewrite (Z.mul_comm (val p)), lor_bit by done.
  rewrite <- val_snoc, len_app. change (len [b]) with 1. set (c := val (p ++ [b])). set (l := len p + 1) in *.
  unfold find_symbol. destruct (l <? MIN_LENGTH) eqn:Emin; [done|]. bool_hyps. unfold MIN_LENGTH in Emin.
  destruct table_lengths as (H1 & H2 & H3 & H4).
  rewrite !table_at by (done || lia). cbn [rbind orb]. case_if; [done|].
  apply orb_false_iff in Hif as [Hif Hhi]. apply orb_false_iff in Hif as [_ Hlo]. bool_hyps.
  pose proof (check_below _ _ index_in_sorted l ltac:(lia)) as Hc. cbv beta in Hc. bool_hyps.
  set (i := at_ l (first_index TABLES) + (c - at_ l (first_code TABLES))).
  destruct (get_at_is_Some i (sorted TABLES)) as [x Hx]; [lia|].
  assert (at_ i (sorted TABLES) = x) as -> by (unfold at_; by rewrite Hx). rewrite Hx. done.
Qed.

Lemma decode_bits_app cap st a b :
  decode_bits cap st (a ++ b) = let! st := decode_bits cap st a in decode_bits cap st b.
Proof. revert st; induction a as [|x a IH]; intros st; simpl; [done|]. by destruct (step_bit cap st x); simpl. Qed.

(** *** Reading one code *)

Lemma code_prefix s p b q :
  0 <= s < 257 -> code_bits s = p ++ b :: q ->
  find_symbol (val (p ++ [b])) (len p + 1) = (if decide (q = []) then Some s else None) /\ len p + 1 <= 30.
Proof.
  intros Hs Hc. pose proof (check_below _ _ prefix_check_all s Hs) as Hk. unfold prefix_check in Hk. bool_hyps.
  assert (Hlen : length (code_bits s) = Z.to_nat (at_ s LENGTHS)) by apply length_bits_of.
  rewrite Hc, length_app in Hlen. cbn [length] in Hlen. split; [|unfold len; lia].
  assert (In (len p + 1) (seqZ 1 (at_ s LENGTHS))) as Hin.
  { apply list_elem_of_In, elem_of_seqZ. unfold len. lia. }
  pose proof (proj1 (forallb_forall _ _) H _ Hin) as Hf. cbv beta in Hf.
  apply bool_decide_eq_true in Hf.
  assert (take (Z.to_nat (len p + 1)) (code_bits s) = p ++ [b]) as Ht.
  { rewrite Hc. change (b :: q) with ([b] ++ q). rewrite app_assoc.
    apply take_app_length'. rewrite length_app. unfold len. simpl. lia. }
  rewrite Ht in Hf. rewrite Hf. unfold len. case_if; bool_hyps.
  - destruct q; [done|]. cbn [length] in Hlen. lia.
  - destruct q; [|done]. cbn [length] in Hlen. lia.
Qed.

Lemma decode_code_rest cap out s q p :
  0 <= s < 256 -> len out < cap -> q <> [] -> code_bits s = p ++ q ->
  decode_bits cap (out, val p, len p) q = Ok (out ++ [s], 0, 0).
Proof.
  intros Hs Hcap. revert p; induction q as [|b q IH]; intros p Hq Hc; [done|].
  assert (Forall is_bit (p ++ b :: q)) as Hbits by (rewrite <- Hc; apply bits_of_bits).
  apply Forall_app in Hbits as [Hp [Hb Hqb]%Forall_cons_iff].
  destruct (code_prefix s p b q ltac:(lia) Hc) as [Hf Hl].
  cbn [decode_bits]. rewrite step_bit_eq by done. unfold MAX_LENGTH.
  rewrite (proj2 (Z.ltb_ge _ _)) by lia. rewrite Hf. destruct (decide (q = [])) as [->|Hne].
  - unfold EOS. rewrite (proj2 (Z.eqb_neq s 256)), (proj2 (Z.leb_gt cap _)) by lia.
    unfold wrap. rewrite Z.mod_small by lia. done.
  - cbn [rbind]. apply IH; [done|]. by rewrite <- app_assoc.
Qed.

Lemma decode_text cap out text :
  bytes_ok text -> len out + len text <= cap ->
  decode_bits cap (out, 0, 0) (concat (map code_bits text)) = Ok (out ++ text, 0, 0).
Proof.
  intros Ht; revert out; induction Ht as [|s text Hs _ IH]; intros out Hcap.
  - simpl. by rewrite app_nil_r.
  - cbn [map concat]. rewrite decode_bits_app. rewrite len_cons in Hcap. unfold is_uint in Hs.
    assert (code_bits s <> []) as Hne.
    { intros Hn. pose proof (check_below _ _ prefix_check_all s ltac:(lia)) as Hk.
      unfold prefix_check in Hk. bool_hyps. pose proof (length_bits_of (Z.to_nat (at_ s LENGTHS)) (code_value s)) as Hl.
      unfold code_bits in Hn. rewrite Hn in Hl. simpl in Hl. lia. }
    pose proof (decode_code_rest cap out s (code_bits s) [] Hs ltac:(nonneg_lens; lia) Hne eq_refl) as Hd.
    change (val []) with 0 in Hd. change (len (@nil Z)) with 0 in Hd. rewrite Hd. cbn [rbind]. rewrite IH by llia. by rewrite <- app_assoc.
Qed.

(** *** Reading the padding *)

Lemma ones_find : forallb (fun j => option_eqb (find_symbol (val (replicate (Z.to_nat j) 1)) j) None) (seqZ 0 8) = true.
Proof. by vm_compute. Qed.

Lemma decode_ones cap out k j :
  (j + k < 8)%nat ->
  decode_bits cap (out, val (replicate j 1), len (replicate j 1)) (replicate k 1) =
  Ok (out, val (replicate (j + k) 1), len (replicate (j + k) 1)).
Proof.
  revert j; induction k as [|k IH]; intros j Hj; [by rewrite Nat.add_0_r|].
  cbn [replicate decode_bits]. rewrite step_bit_eq;
    [|apply Forall_replicate; by right|by right].
  rewrite len_replicate. unfold MAX_LENGTH. rewrite (proj2 (Z.ltb_ge _ _)) by lia.
  assert (replicate j 1 ++ [1] = replicate (S j) 1) as -> by by rewrite replicate_S_end.
  pose proof (check_below _ _ ones_find (Z.of_nat j + 1) ltac:(lia)) as Hf.
  cbv beta in Hf. apply bool_decide_eq_true in Hf.
  replace (Z.to_nat (Z.of_nat j + 1)) with (S j) in Hf by lia. rewrite Hf. cbn [rbind].
  rewrite IH by lia. by replace (S j + k)%nat with (j + S k)%nat by lia.
Qed.

Lemma val_ones k : val (replicate k 1) = 2 ^ Z.of_nat k - 1.
Proof.
  induction k as [|k IH]; [done|]. rewrite replicate_S_end, val_snoc, IH.
  rewrite Nat2Z.inj_succ, Z.pow_succ_r by lia. lia.
Qed.

(** *** What was read, from what was decoded *)

Lemma found_code s c l p :
  Forall is_bit p -> c = val p -> l = len p -> l <= 30 -> find_symbol c l = Some s ->
  0 <= s < 257 /\ code_bits s = p.
Proof.
  intros Hp -> -> Hl Hf. pose proof (check_below _ _ found_check_all (len p) ltac:(nonneg_lens; lia)) as Hk.
  pose proof Hf as Hf'. unfold find_symbol in Hf'. destruct (_ || _) eqn:E in Hf'; [done|]. clear Hf'.
  apply orb_false_iff in E as [E Hhi]. apply orb_false_iff in E as [_ Hlo]. bool_hyps.
  unfold found_check in Hk.
  pose proof (check_below _ _ Hk (val p - at_ (len p) (first_code TABLES)) ltac:(lia)) as Hc. cbv beta in Hc.
  replace (at_ (len p) (first_code TABLES) + (val p - at_ (len p) (first_code TABLES))) with (val p) in Hc by lia.
  rewrite Hf in Hc. bool_hyps. split; [lia|]. apply bool_decide_eq_true in H0. rewrite H0.
  unfold len. rewrite Nat2Z.id. by apply bits_of_val.
Qed.

Lemma decode_bits_inv cap bits out p out' c l :
  Forall is_bit p -> Forall is_bit bits ->
  decode_bits cap (out, val p, len p) bits = Ok (out', c, l) ->
  exists text p', out' = out ++ text /\ bytes_ok text /\ Forall is_bit p' /\
    p ++ bits = concat (map code_bits text) ++ p' /\ c = val p' /\ l = len p' /\
    (text <> [] -> len out' <= cap).
Proof.
  intros Hp Hbits; revert out p Hp; induction Hbits as [|b bits Hb Hbits IH]; intros out p Hp Hd.
  - simpl in Hd. simplify_eq. exists [], p. rewrite !app_nil_r. split_and!; try done. constructor.
  - cbn [decode_bits] in Hd. rewrite step_bit_eq in Hd by done.
    destruct (MAX_LENGTH <? len p + 1) eqn:E; [done|]. bool_hyps. unfold MAX_LENGTH in E.
    destruct (find_symbol _ _) as [s|] eqn:Ef.
    + destruct (s =? EOS) eqn:Es; [done|]. destruct (cap <=? len out) eqn:Ecap; [done|]. bool_hyps.
      unfold EOS in Es. cbn [rbind] in Hd.
      apply (found_code s _ _ (p ++ [b])) in Ef as [Hs Hcode];
        [|by apply Forall_app; auto|done|by rewrite len_app|lia].
      destruct (IH (out ++ [wrap 8 s]) []) as (text & p' & Ho & Ht & Hp' & Heq & Hc & Hl & Hcap); try done.
      unfold wrap in *. rewrite Z.mod_small in * by lia.
      exists (s :: text), p'. split_and!; try done.
      * by rewrite Ho, <- app_assoc.
      * constructor; [unfold is_uint; lia|done].
      * cbn [map concat]. simpl in Heq. rewrite <- app_assoc, <- Heq, Hcode, <- app_assoc. done.
      * intros _. destruct text; [|by apply Hcap]. rewrite Ho. llia.
    + cbn [rbind] in Hd. apply IH in Hd as (text & p' & Ho & Ht & Hp' & Heq & Hc & Hl & Hcap);
        [|by apply Forall_app; auto]. exists text, p'. rewrite <- app_assoc in Heq. by split_and!.
Qed.

End HuffmanFacts.
Import HuffmanFacts.

(** ** Properties *)

(** The tables are the canonical code.  [TABLES] is what [build] computes
    from the lengths, and along the bits of every symbol's canonical code the
    tables find nothing before the last bit and that symbol at it: the code is
    prefix free and complete for the decoder. *)
Theorem huffman_tables_canonical (s : Z) (p q : list Z) (b : Z) :
  0 <= s < 257 -> code_bits s = p ++ b :: q ->
  TABLES = build /\
  find_symbol (val (p ++ [b])) (len p + 1) = if decide (q = []) then Some s else None.
Proof. intros Hs Hc. split; [by vm_compute|]. by destruct (code_prefix s p b q Hs Hc). Qed.

Lemma huffman_tables_canonical_witness :
  TABLES = build /\ find_symbol (val ([0; 0; 0; 0] ++ [0])) (len [0; 0; 0; 0] + 1) = Some 48.
Proof. apply (huffman_tables_canonical 48 [0; 0; 0; 0] [] 0); [lia|vm_compute; reflexivity]. Defined.

(** C40: Decoding inverts the code exactly.  [decode] returns a text if and only
    if the input is that text's codes followed by fewer than eight one bits, and
    the text fits the buffer.  So every encoding is read back, and nothing that
    is not an encoding is accepted. *)
Theorem huffman_decode_exact (input text : bytes) (cap : Z) :
  0 <= cap ->
  decode input cap = Ok text <-> encodes input text /\ bytes_ok text /\ len text <= cap.
Proof.
  intros Hcap. unfold decode, encodes. split.
  - intros H. apply rbind_Ok in H as ([[out c] l] & Hd & H).
    apply (decode_bits_inv cap _ [] []) in Hd as (text' & p' & -> & Ht & Hp' & Heq & -> & -> & Hc);
      [|constructor|apply input_bits_bits].
    destruct (_ || _) eqn:E in H; [done|]. apply orb_false_iff in E as [E E0]. bool_hyps. injection H as <-. simpl in Heq, Hc.
    split_and!; [|done|destruct text'; [done|by apply Hc]].
    exists (length p'). split; [unfold len in *; lia|]. rewrite Heq. f_equal.
    rewrite Z.shiftl_1_l in E0. unfold wrap in E0.
    assert (2 ^ len p' <= 2 ^ 7) by (apply Z.pow_le_mono_r; lia).
    assert (0 < 2 ^ len p') by (apply Z.pow_pos_nonneg; nonneg_lens; lia).
    rewrite Z.mod_small in E0 by lia. rewrite <- (bits_of_val p' Hp') at 1.
    rewrite E0. unfold len. rewrite <- val_ones. rewrite <- (length_replicate (length p') 1) at 1.
    apply bits_of_val, Forall_replicate. by right.
  - intros ((k & Hk & Heq) & Ht & Hl). rewrite Heq, decode_bits_app.
    pose proof (decode_text cap [] text Ht) as Hd. simpl app in Hd. rewrite Hd by (unfold len in *; simpl; lia).
    cbn [rbind]. pose proof (decode_ones cap text k 0 Hk) as Ho. simpl val in Ho. change (len (replicate 0 1)) with 0 in Ho.
    change (val []) with 0 in Ho. rewrite Ho. cbn [rbind Nat.add].
    rewrite val_ones, len_replicate, Z.shiftl_1_l, (proj2 (Z.leb_gt _ _)) by lia. unfold wrap.
    assert (2 ^ Z.of_nat k <= 2 ^ 7) by (apply Z.pow_le_mono_r; lia).
    assert (0 < 2 ^ Z.of_nat k) by (apply Z.pow_pos_nonneg; lia).
    rewrite Z.mod_small by lia. by rewrite Z.eqb_refl.
Qed.

(** The authority of RFC 7541 C.4.1, www.example.com. *)
Lemma huffman_decode_exact_witness :
  decode [0xf1; 0xe3; 0xc2; 0xe5; 0xf2; 0x3a; 0x6b; 0xa0; 0xab; 0x90; 0xf4; 0xff] 512 =
  Ok [119; 119; 119; 46; 101; 120; 97; 109; 112; 108; 101; 46; 99; 111; 109].
Proof.
  apply (huffman_decode_exact
    [0xf1; 0xe3; 0xc2; 0xe5; 0xf2; 0x3a; 0x6b; 0xa0; 0xab; 0x90; 0xf4; 0xff]
    [119; 119; 119; 46; 101; 120; 97; 109; 112; 108; 101; 46; 99; 111; 109] 512); [lia|].
  split; [exists 7%nat; split; [lia|vm_compute; reflexivity]|].
  split; [repeat constructor; lia|vm_compute; discriminate].
Defined.
