(* ===== verification/Hpack.v ===== *)
(** * HPACK: header blocks

    [crates/micro-h2/src/hpack/encode.rs] and [hpack/decode.rs]: the encoder,
    which never indexes, and the decoder, which carries the dynamic table.  The
    callback of [Decoder::decode] is the list of headers it was called with, also
    when decoding then fails. *)

From S2P Require Import Prelude Utf8 H2Frame HpackInt HpackTable Huffman.
From Stdlib Require Strings.String.
Import (notations) Strings.String.

Definition MAX_STRING : Z := 512.

(** ** Encoding *)

Definition encode_string (text out : bytes) (l : Z) : res H2Error (bytes * Z) :=
  let! '(out, l) := encode_integer (len text) 7 0x00 out l in
  let e := l + len text in
  let! _ := ok_or (get_range l e out) BufferTooSmall in
  let! out := slice_copy (l, e) text out in
  Ok (out, e).

Definition encode_header (name value out : bytes) (l : Z) : res H2Error (bytes * Z) :=
  match static_table.find name value with
  | Some index => encode_integer index 7 0x80 out l
  | None =>
      let! '(out, l) :=
        match static_table.find_name name with
        | Some index => encode_integer index 4 0x00 out l
        | None =>
            let! '(out, l) := encode_integer 0 4 0x00 out l in
            encode_string name out l
        end in
      encode_string value out l
  end.

(** The encoder called for each header in turn, as [Connection::request] does. *)
Fixpoint encode_headers (hs : list (bytes * bytes)) (out : bytes) (l : Z) : res H2Error (bytes * Z) :=
  match hs with
  | [] => Ok (out, l)
  | (n, v) :: hs => let! '(out, l) := encode_header n v out l in encode_headers hs out l
  end.

(** ** Decoding *)

Section Decode.

(** The width of [usize] on the target: 32 on the device, 64 on a host. *)
Context (USIZE_BITS : Z).

Definition as_usize (x : Z) : Z := wrap USIZE_BITS x.

(** [String::<MAX_STRING>::push_str] on an empty string. *)
Definition string_of (s : bytes) : res H2Error bytes :=
  if len s <=? MAX_STRING then Ok s else Err BufferTooSmall.

(** The text and the rest of the input. *)
Definition decode_string (input : bytes) : res H2Error (bytes * bytes) :=
  let! first := ok_or (get_at 0 input) Incomplete in
  let huffman_coded := negb (Z.land first 0x80 =? 0) in
  let! '(l, rest) := decode_integer input 7 in
  let l := as_usize l in
  let! b := ok_or (get_range 0 l rest) Incomplete in
  let! decoded := if huffman_coded then huffman.decode b MAX_STRING else Ok b in
  if negb (utf8_valid decoded) then Err Hpack else
  let! text := string_of decoded in
  let! rest := slice (l, len rest) rest in
  Ok (text, rest).

(** One literal header: its index, name and value, and the rest of the input. *)
Definition decode_literal (d : DynamicTable.t) (input : bytes) (prefix : Z)
  : res H2Error (bytes * bytes * bytes) :=
  let! '(index, input) := decode_integer input prefix in
  let! '(name, input) :=
    if index =? 0 then decode_string input
    else
      let! '(existing, _) := DynamicTable.lookup d (as_usize index) in
      let! name := string_of existing in
      Ok (name, input) in
  let! '(value, input) := decode_string input in
  Ok (name, value, input).

(** The loop of [Decoder::decode].  Every turn consumes input, so the length of
    the block is fuel enough. *)
Fixpoint decode_loop (fuel : nat) (d : DynamicTable.t) (input : bytes)
  : DynamicTable.t * list (bytes * bytes) * res H2Error unit :=
  match input with
  | [] => (d, [], Ok tt)
  | first :: _ =>
      match fuel with
      | O => (d, [], Hang)
      | S fuel =>
          if negb (Z.land first 0x80 =? 0) then
            match (let! '(index, rest) := decode_integer input 7 in
                   let! nv := DynamicTable.lookup d (as_usize index) in
                   Ok (nv, rest)) with
            | Ok (nv, rest) =>
                let '(d, hs, r) := decode_loop fuel d rest in (d, nv :: hs, r)
            | Err e => (d, [], Err e)
            | Panic => (d, [], Panic)
            | Hang => (d, [], Hang)
            end
          else if Z.land first 0xe0 =? 0x20 then
            match decode_integer input 5 with
            | Ok (size, rest) => decode_loop fuel (DynamicTable.set_capacity d (as_usize size)) rest
            | Err e => (d, [], Err e)
            | Panic => (d, [], Panic)
            | Hang => (d, [], Hang)
            end
          else
            let '(prefix, indexing) := if Z.land first 0xc0 =? 0x40 then (6, true) else (4, false) in
            match decode_literal d input prefix with
            | Ok (name, value, rest) =>
                let d := if indexing then DynamicTable.insert d name value else d in
                let '(d, hs, r) := decode_loop fuel d rest in (d, (name, value) :: hs, r)
            | Err e => (d, [], Err e)
            | Panic => (d, [], Panic)
            | Hang => (d, [], Hang)
            end
      end
  end.

Definition decode (d : DynamicTable.t) (input : bytes)
  : DynamicTable.t * list (bytes * bytes) * res H2Error unit :=
  decode_loop (length input) d input.

End Decode.

(** ** The wire form of a header *)

Definition string_bytes (text : bytes) : bytes := integer_bytes (len text) 7 0 ++ text.

Definition header_bytes (name value : bytes) : bytes :=
  match static_table.find name value with
  | Some index => integer_bytes index 7 0x80
  | None =>
      match static_table.find_name name with
      | Some index => integer_bytes index 4 0
      | None => integer_bytes 0 4 0 ++ string_bytes name
      end ++ string_bytes value
  end.

Lemma find_index_bound {A} (f : A -> bool) l i :
  find_index f l = Some i -> 0 <= i < len l /\ exists x, get_at i l = Some x /\ f x = true.
Proof.
  revert i; induction l as [|x l IH]; intros i; simpl; [done|]. destruct (f x) eqn:E.
  - intros [= <-]. split; [llia|]. by exists x.
  - destruct (find_index f l) as [j|]; [|done]. intros [= <-].
    destruct (IH j eq_refl) as [Hj (y & Hy & Hf)]. split; [rewrite len_cons; lia|].
    exists y. split; [|done]. unfold get_at in *. rewrite !(proj2 (Z.leb_le _ _)) in * by lia.
    by replace (Z.to_nat (j + 1)) with (S (Z.to_nat j)) by lia.
Qed.

Lemma find_spec n v i :
  static_table.find n v = Some i -> 1 <= i <= 61 /\ static_table.get i = Some (n, v).
Proof.
  unfold static_table.find, static_table.get. destruct (find_index _ _) as [j|] eqn:E; [|done].
  intros [= <-]. apply find_index_bound in E as [Hj ([n' v'] & Hx & Hf)]. bool_hyps. simpl in *.
  apply bytes_eqb_true in H, H0. subst. change (len static_table.ENTRIES) with 61 in Hj.
  split; [lia|]. rewrite (proj2 (Z.eqb_neq _ _)) by lia. by replace (j + 1 - 1) with j by lia.
Qed.

Lemma find_name_spec n i :
  static_table.find_name n = Some i -> 1 <= i <= 61 /\ exists v, static_table.get i = Some (n, v).
Proof.
  unfold static_table.find_name, static_table.get. destruct (find_index _ _) as [j|] eqn:E; [|done].
  intros [= <-]. apply find_index_bound in E as [Hj ([n' v'] & Hx & Hf)]. simpl in *.
  apply bytes_eqb_true in Hf. subst. change (len static_table.ENTRIES) with 61 in Hj.
  split; [lia|]. exists v'. rewrite (proj2 (Z.eqb_neq _ _)) by lia. by replace (j + 1 - 1) with j by lia.
Qed.

(** ** What the encoder appends *)

Lemma appends_ext w1 w2 b : (forall out l, w1 out l = w2 out l) -> appends w1 b -> appends w2 b.
Proof. intros He H pre tl. by rewrite <- He, H. Qed.

Lemma appends_copy text :
  appends (fun out l => let e := l + len text in
    let! _ := ok_or (get_range l e out) BufferTooSmall in
    let! out := slice_copy (l, e) text out in Ok (out, e)) text.
Proof.
  intros pre tl. cbv zeta. destruct (len text <=? len tl) eqn:E; bool_hyps.
  - destruct (split_len (len text) tl) as (a & b & -> & Ha); [nonneg_lens; lia|].
    rewrite (get_range_mid _ _ pre a b) by lia. cbn [ok_or rbind]. unfold slice_copy. cbn [fst snd].
    rewrite (copy_at_mid _ _ text pre a b) by lia. cbn [or_panic rbind].
    by rewrite zdrop_app_len by done.
  - by rewrite (proj2 (get_range_None _ _ _)) by llia.
Qed.

Lemma len_u64 {A} (l : list A) k : len l <= k -> k < 2 ^ 64 -> is_u64 (len l).
Proof. intros. unfold is_uint. nonneg_lens. lia. Qed.

Lemma appends_string text : len text <= MAX_STRING -> appends (encode_string text) (string_bytes text).
Proof.
  intros Ht. unfold encode_string, string_bytes.
  apply (appends_seq (encode_integer (len text) 7 0)); [|apply appends_copy].
  apply appends_integer; [by apply (len_u64 _ MAX_STRING)|lia].
Qed.

Lemma appends_header n v :
  len n <= MAX_STRING -> len v <= MAX_STRING -> appends (encode_header n v) (header_bytes n v).
Proof.
  intros Hn Hv. unfold encode_header, header_bytes. destruct (static_table.find n v) as [i|] eqn:E.
  { apply find_spec in E as [Hi _]. apply appends_integer; [unfold is_uint; lia|lia]. }
  destruct (static_table.find_name n) as [i|] eqn:En.
  - apply find_name_spec in En as [Hi _].
    apply (appends_seq (encode_integer i 4 0)); [|by apply appends_string].
    apply appends_integer; [unfold is_uint; lia|lia].
  - rewrite <- app_assoc. eapply appends_ext; cycle 1.
    + apply (appends_seq (encode_integer 0 4 0)); [apply appends_integer; unfold is_uint; lia|].
      apply (appends_seq (encode_string n) (encode_string v)); by apply appends_string.
    + intros out l. cbv beta. by destruct (encode_integer 0 4 0 out l) as [[? ?]| | |].
Qed.

Definition header_ok (h : bytes * bytes) : Prop :=
  utf8_valid h.1 = true /\ utf8_valid h.2 = true /\ len h.1 <= MAX_STRING /\ len h.2 <= MAX_STRING.

Definition block_bytes (hs : list (bytes * bytes)) : bytes := concat (map (fun h => header_bytes h.1 h.2) hs).

Lemma appends_block hs : Forall header_ok hs -> appends (encode_headers hs) (block_bytes hs).
Proof.
  unfold block_bytes. induction 1 as [|[n v] hs (_ & _ & Hn & Hv) _ IH]; cbn [map concat encode_headers fst snd].
  - intros pre tl. change (len []) with 0. rewrite (proj2 (Z.leb_le _ _)) by (nonneg_lens; lia).
    by rewrite zdrop_0, Z.add_0_r.
  - apply (appends_seq (encode_header n v)); [by apply appends_header|done].
Qed.

(** ** Reading it back *)

Section RoundTrip.
Context (USIZE_BITS : Z) (Husize : 16 <= USIZE_BITS).

Lemma as_usize_small x : 0 <= x <= 512 -> as_usize USIZE_BITS x = x.
Proof.
  intros Hx. unfold as_usize, wrap. apply Z.mod_small.
  assert (2 ^ 16 <= 2 ^ USIZE_BITS) by (apply Z.pow_le_mono_r; lia). lia.
Qed.

(** The first byte of an integer with no flag bits stays below the flags. *)
Lemma integer_first v n :
  0 <= v -> 1 <= n <= 7 -> exists b tl, integer_bytes v n 0 = b :: tl /\ 0 <= b < 2 ^ n.
Proof.
  intros Hv Hn. unfold integer_bytes. assert (0 < 2 ^ n) by (apply Z.pow_pos_nonneg; lia).
  case_if; bool_hyps; do 2 eexists; (split; [done|]); rewrite Z.lor_0_l; lia.
Qed.

Lemma low_flags b : 0 <= b < 16 ->
  Z.land b 0x80 = 0 /\ (Z.land b 0xe0 =? 0x20) = false /\ (Z.land b 0xc0 =? 0x40) = false.
Proof.
  intros Hb. apply (check_below (fun b => (Z.land b 0x80 =? 0) && negb (Z.land b 0xe0 =? 0x20) &&
    negb (Z.land b 0xc0 =? 0x40)) 16) in Hb; [|by vm_compute]. cbv beta in Hb.
  rewrite !andb_true_iff, !negb_true_iff, Z.eqb_eq in Hb. tauto.
Qed.

Lemma no_huffman_flag b : 0 <= b < 128 -> Z.land b 0x80 = 0.
Proof. intros Hb. apply Z.eqb_eq, (check_below (fun b => Z.land b 0x80 =? 0) 128); [by vm_compute|done]. Qed.

Lemma decode_string_bytes text rest :
  utf8_valid text = true -> len text <= MAX_STRING ->
  decode_string USIZE_BITS (string_bytes text ++ rest) = Ok (text, rest).
Proof.
  intros Hu Hl. unfold decode_string, string_bytes. unfold MAX_STRING in Hl. nonneg_lens.
  destruct (integer_first (len text) 7) as (b & tl & Hb & Hr); [done|lia|].
  rewrite <- app_assoc. rewrite decode_integer_bytes; [|unfold is_uint; lia|lia|done].
  rewrite Hb. change (get_at 0 ((b :: tl) ++ text ++ rest)) with (Some b). cbn [ok_or rbind].
  rewrite no_huffman_flag by (change (2 ^ 7) with 128 in Hr; lia). cbn [Z.eqb negb].
  rewrite as_usize_small by lia.
  pose proof (get_range_mid 0 (len text) [] text rest) as Hg. cbn [app] in Hg. rewrite Hg by done.
  cbn [ok_or rbind]. rewrite Hu. cbn [negb]. unfold string_of, MAX_STRING.
  rewrite (proj2 (Z.leb_le _ _)) by lia. cbn [rbind]. unfold slice. cbn [fst snd].
  pose proof (get_range_mid (len text) (len (text ++ rest)) text rest []) as Hs. rewrite app_nil_r in Hs.
  by rewrite Hs by llia.
Qed.

Lemma lookup_static d i nv :
  1 <= i <= 61 -> static_table.get i = Some nv -> DynamicTable.lookup d (as_usize USIZE_BITS i) = Ok nv.
Proof.
  intros Hi Hg. rewrite as_usize_small by lia. unfold DynamicTable.lookup.
  change static_table.DYNAMIC_BASE with 62. rewrite (proj2 (Z.ltb_lt _ _)) by lia. by rewrite Hg.
Qed.

(** A literal header is read back with its name from the table or from the
    block, and starts with a byte that has none of the other forms' flags. *)
Lemma decode_literal_bytes d n v rest :
  header_ok (n, v) -> static_table.find n v = None ->
  decode_literal USIZE_BITS d (header_bytes n v ++ rest) 4 = Ok (n, v, rest) /\
  exists b tl, header_bytes n v = b :: tl /\ 0 <= b < 16.
Proof.
  intros (Hun & Huv & Hn & Hv) Hf. simpl in *. unfold header_bytes, decode_literal. rewrite Hf.
  destruct (static_table.find_name n) as [i|] eqn:En.
  - apply find_name_spec in En as [Hi [v' Hg]]. split.
    + rewrite <- app_assoc, decode_integer_bytes; [|unfold is_uint; lia|lia|done]. cbn [rbind].
      rewrite (proj2 (Z.eqb_neq _ _)) by lia. rewrite (lookup_static d i (n, v')) by done. cbn [rbind].
      unfold string_of. rewrite (proj2 (Z.leb_le _ _)) by done. cbn [rbind].
      by rewrite decode_string_bytes.
    + destruct (integer_first i 4) as (b & tl & -> & Hb); [lia|lia|]. by exists b, (tl ++ string_bytes v).
  - split.
    + rewrite <- !app_assoc, decode_integer_bytes; [|unfold is_uint; lia|lia|done]. cbn [rbind Z.eqb].
      rewrite decode_string_bytes by done. cbn [rbind]. by rewrite decode_string_bytes.
    + destruct (integer_first 0 4) as (b & tl & -> & Hb); [lia|lia|]. rewrite <- app_assoc. by eexists _, _.
Qed.

Lemma indexed_first i : 1 <= i <= 61 ->
  exists b, integer_bytes i 7 0x80 = [b] /\ Z.land b 0x80 <> 0.
Proof.
  intros Hi. unfold integer_bytes. change (2 ^ 7 - 1) with 127. rewrite (proj2 (Z.ltb_lt _ _)) by lia.
  eexists; split; [done|]. intros Hz.
  assert (0 <= i < 127) as Hi' by lia.
  apply (check_below (fun x => negb (Z.land (Z.lor 0x80 x) 0x80 =? 0)) 127) in Hi'; [|by vm_compute].
  by bool_hyps.
Qed.

Lemma decode_header_step fuel d n v rest :
  header_ok (n, v) ->
  decode_loop USIZE_BITS (S fuel) d (header_bytes n v ++ rest) =
  let '(d, hs, r) := decode_loop USIZE_BITS fuel d rest in (d, (n, v) :: hs, r).
Proof.
  intros Hok. destruct (static_table.find n v) as [i|] eqn:Ef.
  - assert (header_bytes n v = integer_bytes i 7 0x80) as -> by (unfold header_bytes; by rewrite Ef).
    apply find_spec in Ef as [Hi Hg]. destruct (indexed_first i Hi) as (b & Hb & Hflag).
    pose proof (decode_integer_bytes i 7 0x80 rest ltac:(unfold is_uint; lia) ltac:(lia) eq_refl) as Hd.
    rewrite Hb in *. cbn [app decode_loop] in *. rewrite (proj2 (Z.eqb_neq _ _)) by done. cbn [negb].
    rewrite Hd. cbn [rbind]. rewrite (lookup_static d i (n, v)) by done. done.
  - destruct (decode_literal_bytes d n v rest Hok Ef) as (Hd & b & tl & Hb & Hr).
    rewrite Hb in *. cbn [app decode_loop] in *. destruct (low_flags b Hr) as (-> & -> & ->).
    cbn [negb Z.eqb]. by rewrite Hd.
Qed.

Lemma header_bytes_pos n v : (0 < length (header_bytes n v))%nat.
Proof.
  unfold header_bytes. pose proof (fun v n f => len_integer_bytes v n f) as H.
  destruct (static_table.find n v) as [i|]; [specialize (H i 7 128); unfold len in H; lia|].
  rewrite length_app. destruct (static_table.find_name n) as [i|].
  - specialize (H i 4 0). unfold len in H. lia.
  - rewrite length_app. specialize (H 0 4 0). unfold len in H. lia.
Qed.

Lemma decode_block hs d fuel :
  Forall header_ok hs -> (length (block_bytes hs) <= fuel)%nat ->
  decode_loop USIZE_BITS fuel d (block_bytes hs) = (d, hs, Ok tt).
Proof.
  unfold block_bytes. intros H; revert fuel; induction H as [|[n v] hs Hh _ IH]; intros fuel Hf;
    cbn [map concat fst snd] in *; [by destruct fuel|].
  rewrite length_app in Hf. pose proof (header_bytes_pos n v). destruct fuel as [|fuel]; [lia|].
  rewrite decode_header_step by done. rewrite IH by lia. done.
Qed.

(** Every header list the encoder writes is the list the decoder reads.
    Names and values are valid text of at most 512 bytes and the buffer has room
    for the block; then encoding succeeds, and a decoder in any state reports
    exactly those headers, in order, consumes the whole block and leaves its
    table untouched. *)
Theorem headers_roundtrip (hs : list (bytes * bytes)) (out : bytes) (l : Z) (d : DynamicTable.t) :
  Forall header_ok hs -> 0 <= l -> l + len (block_bytes hs) <= len out ->
  exists out', encode_headers hs out l = Ok (out', l + len (block_bytes hs)) /\
    ztake l out' = ztake l out /\
    decode USIZE_BITS d (sub_range l (l + len (block_bytes hs)) out') = (d, hs, Ok tt).
Proof.
  intros Hok Hl Hroom. assert (Hlen : len (ztake l out) = l) by llia.
  pose proof (appends_block hs Hok (ztake l out) (zdrop l out)) as H.
  rewrite ztake_zdrop, Hlen in H. rewrite H, (proj2 (Z.leb_le _ _)) by llia.
  eexists. split; [done|]. split; [by apply ztake_app_len|].
  rewrite sub_range_mid by lia. by apply decode_block.
Qed.

End RoundTrip.

(** ** Totality of the decoder *)

Section Total.
Context (USIZE_BITS : Z) (Husize : 16 <= USIZE_BITS).

Lemma decode_integer_cases input n :
  bytes_ok input -> 0 <= n <= 8 ->
  (exists e, decode_integer input n = Err e) \/
  (exists v rest, decode_integer input n = Ok (v, rest) /\ bytes_ok rest /\ is_u64 v /\
     (length rest < length input)%nat).
Proof.
  intros Hb Hn. destruct (decode_integer_total_and_bounded input n Hb Hn) as [Hr Hok].
  destruct (decode_integer input n) as [[v rest]|e| |]; try done; [|by left; eexists].
  right. exists v, rest. destruct (Hok v rest eq_refl) as (Hu & used & -> & Hl & _).
  apply bytes_ok_app in Hb as [_ Hb]. split_and!; try done. rewrite length_app. unfold len in Hl. lia.
Qed.

Lemma step_bit_returns cap out p b :
  Forall HuffmanFacts.is_bit p -> HuffmanFacts.is_bit b ->
  (exists e, huffman.step_bit cap (out, HuffmanFacts.val p, len p) b = Err e) \/
  (exists out' p', huffman.step_bit cap (out, HuffmanFacts.val p, len p) b =
     Ok (out', HuffmanFacts.val p', len p') /\ Forall HuffmanFacts.is_bit p').
Proof.
  intros Hp Hb. rewrite HuffmanFacts.step_bit_eq by done. case_if; [by left; eexists|].
  destruct (HuffmanFacts.find_symbol _ _).
  - repeat case_if; [by left; eexists|by left; eexists|]. right. exists (out ++ [wrap 8 z]), []. done.
  - right. exists out, (p ++ [b]). split; [done|]. apply Forall_app. auto.
Qed.

Lemma huffman_returns input cap : returns (huffman.decode input cap).
Proof.
  unfold huffman.decode.
  assert (H : forall bits out p, Forall HuffmanFacts.is_bit p -> Forall HuffmanFacts.is_bit bits ->
    returns (huffman.decode_bits cap (out, HuffmanFacts.val p, len p) bits)).
  { induction bits as [|b bits IH]; intros out p Hp Hbits; [done|].
    apply Forall_cons_iff in Hbits as [Hb Hbits]. cbn [huffman.decode_bits].
    destruct (step_bit_returns cap out p b Hp Hb) as [[e ->]|(out' & p' & -> & Hp')]; [done|].
    cbn [rbind]. by apply IH. }
  specialize (H (concat (map huffman.byte_bits input)) [] [] ltac:(constructor) (HuffmanFacts.input_bits_bits _)).
  change (HuffmanFacts.val []) with 0 in H. change (len (@nil Z)) with 0 in H.
  destruct (huffman.decode_bits _ _ _) as [[[out c] l]| | |]; try done. cbn [rbind]. by case_if.
Qed.

Lemma as_usize_nonneg x : 0 <= as_usize USIZE_BITS x.
Proof. apply Z.mod_pos_bound, Z.pow_pos_nonneg; lia. Qed.

Lemma decode_string_cases input :
  bytes_ok input ->
  (exists e, decode_string USIZE_BITS input = Err e) \/
  (exists text rest, decode_string USIZE_BITS input = Ok (text, rest) /\ bytes_ok rest /\
     (length rest < length input)%nat /\ utf8_valid text = true /\ len text <= MAX_STRING).
Proof.
  intros Hb. unfold decode_string. destruct (get_at 0 input) as [first|]; [|by left; eexists]. cbn [ok_or rbind].
  destruct (decode_integer_cases input 7 Hb ltac:(lia)) as [[e ->]|(v & rest & -> & Hrest & _ & Hl)];
    [by left; eexists|]. cbn [rbind].
  assert (0 <= as_usize USIZE_BITS v) as Hu by (apply as_usize_nonneg).
  set (l := as_usize USIZE_BITS v) in *.
  destruct (get_range 0 l rest) as [b|] eqn:Eg; [|by left; eexists]. cbn [ok_or rbind].
  apply get_range_Some in Eg as (_ & Hlen & _).
  assert (returns (if negb (Z.land first 0x80 =? 0) then huffman.decode b MAX_STRING else Ok b)) as Hd
    by (case_if; [apply huffman_returns|done]).
  destruct (if negb (Z.land first 0x80 =? 0) then huffman.decode b MAX_STRING else Ok b) as [t|e| |];
    try done; [|by left; eexists]. cbn [rbind].
  destruct (utf8_valid t) eqn:Eu; cbn [negb]; [|by left; eexists]. unfold string_of.
  destruct (len t <=? MAX_STRING) eqn:Et; [|by left; eexists]. bool_hyps. cbn [rbind].
  unfold slice. cbn [fst snd]. rewrite get_range_in by lia. cbn [or_panic rbind]. right.
  exists t, (sub_range l (len rest) rest). split_and!; try done; [by apply bytes_ok_sub_range|].
  pose proof (len_sub_range l (len rest) rest Hu Hlen ltac:(lia)) as Hs. unfold len in *. lia.
Qed.

Lemma decode_literal_cases d input prefix :
  bytes_ok input -> 0 <= prefix <= 8 ->
  (exists e, decode_literal USIZE_BITS d input prefix = Err e) \/
  (exists n v rest, decode_literal USIZE_BITS d input prefix = Ok (n, v, rest) /\ bytes_ok rest /\
     (length rest < length input)%nat /\ len n <= MAX_STRING /\ len v <= MAX_STRING).
Proof.
  intros Hb Hp. unfold decode_literal.
  destruct (decode_integer_cases input prefix Hb Hp) as [[e ->]|(i & rest & -> & Hrest & _ & Hl)];
    [by left; eexists|]. cbn [rbind].
  assert (forall n tl : bytes, bytes_ok tl -> (length tl < length input)%nat -> len n <= MAX_STRING ->
    (exists e, (let! '(value, tl) := decode_string USIZE_BITS tl in Ok (n, value, tl)) = Err e) \/
    (exists n0 v rest : bytes, (let! '(value, tl) := decode_string USIZE_BITS tl in Ok (n, value, tl))
       = Ok (n0, v, rest) /\ bytes_ok rest /\ (length rest < length input)%nat /\
       len n0 <= MAX_STRING /\ len v <= MAX_STRING)) as Hval.
  { intros n tl Htl Hlt Hn.
    destruct (decode_string_cases tl Htl) as [[e ->]|(v & tl' & -> & Htl' & Hlt' & _ & Hv)];
      [by left; eexists|]. right. exists n, v, tl'. split_and!; try done. lia. }
  case_if.
  - destruct (decode_string_cases rest Hrest) as [[e ->]|(n & tl & -> & Htl & Hlt & _ & Hn)];
      [by left; eexists|]. cbn [rbind]. apply Hval; [done|lia|done].
  - destruct (DynamicTable.lookup d _) as [[n v]|e| |] eqn:El; [|by left; eexists| |].
    + cbn [rbind]. unfold string_of. destruct (len n <=? MAX_STRING) eqn:En; [|by left; eexists].
      bool_hyps. cbn [rbind]. by apply Hval.
    + exfalso. unfold DynamicTable.lookup in El. case_if; destruct (_ : option _) in El; done.
    + exfalso. unfold DynamicTable.lookup in El. case_if; destruct (_ : option _) in El; done.
Qed.

Lemma lookup_returns d i : returns (DynamicTable.lookup d i).
Proof.
  unfold DynamicTable.lookup. case_if; [by destruct (static_table.get i)|by destruct (DynamicTable.get d i)].
Qed.

Lemma decode_loop_total fuel d input :
  bytes_ok input -> table_ok d -> (length input <= fuel)%nat ->
  let '(d', _, r) := decode_loop USIZE_BITS fuel d input in returns r /\ table_ok d'.
Proof.
  revert d input; induction fuel as [|fuel IH]; intros d input Hb Hd Hf.
  { destruct input; simpl in *; [done|lia]. }
  destruct input as [|first tl]; [done|]. set (input := first :: tl) in *.
  change (decode_loop USIZE_BITS (S fuel) d input) with
    (if negb (Z.land first 0x80 =? 0) then
       match (let! '(index, rest) := decode_integer input 7 in
              let! nv := DynamicTable.lookup d (as_usize USIZE_BITS index) in Ok (nv, rest)) with
       | Ok (nv, rest) => let '(d, hs, r) := decode_loop USIZE_BITS fuel d rest in (d, nv :: hs, r)
       | Err e => (d, [], Err e) | Panic => (d, [], Panic) | Hang => (d, [], Hang)
       end
     else if Z.land first 0xe0 =? 0x20 then
       match decode_integer input 5 with
       | Ok (size, rest) =>
           decode_loop USIZE_BITS fuel (DynamicTable.set_capacity d (as_usize USIZE_BITS size)) rest
       | Err e => (d, [], Err e) | Panic => (d, [], Panic) | Hang => (d, [], Hang)
       end
     else
       let '(prefix, indexing) := if Z.land first 0xc0 =? 0x40 then (6, true) else (4, false) in
       match decode_literal USIZE_BITS d input prefix with
       | Ok (name, value, rest) =>
           let d := if indexing : bool then DynamicTable.insert d name value else d in
           let '(d, hs, r) := decode_loop USIZE_BITS fuel d rest in (d, (name, value) :: hs, r)
       | Err e => (d, [], Err e) | Panic => (d, [], Panic) | Hang => (d, [], Hang)
       end).
  case_if; [|case_if].
  - destruct (decode_integer_cases input 7 Hb ltac:(lia)) as [[e ->]|(v & rest & -> & Hr & _ & Hl)]; [done|].
    cbn [rbind]. pose proof (lookup_returns d (as_usize USIZE_BITS v)) as Hlk.
    destruct (DynamicTable.lookup d _) as [nv|e| |]; try done. cbn [rbind].
    specialize (IH d rest Hr Hd ltac:(lia)). by destruct (decode_loop _ _ _ _) as [[? ?] ?].
  - destruct (decode_integer_cases input 5 Hb ltac:(lia)) as [[e ->]|(v & rest & -> & Hr & _ & Hl)]; [done|].
    apply IH; [done| |lia]. apply (apply_op_ok d (Resize (as_usize USIZE_BITS v))); [apply as_usize_nonneg|done].
  - assert (exists p ix, (if Z.land first 0xc0 =? 0x40 then (6, true) else (4, false)) = (p, ix) /\ 0 <= p <= 8)
      as (p & ix & -> & Hp) by (case_if; do 2 eexists; (split; [done|lia])).
    destruct (decode_literal_cases d input p Hb Hp) as [[e ->]|(n & v & rest & -> & Hr & Hl & _ & _)]; [done|].
    cbv zeta. assert (table_ok (if ix then DynamicTable.insert d n v else d)) as Hd'.
    { destruct ix; [|done]. by apply (apply_op_ok d (Insert n v)). }
    specialize (IH _ rest Hr Hd' ltac:(lia)). by destruct (decode_loop _ _ _ _) as [[? ?] ?].
Qed.

(** The decoder survives any block.  Whatever bytes the server sends, and
    whatever table the connection has built, decoding returns (never panics,
    never runs on) and leaves a table within its bounds. *)
Theorem decode_total (d : DynamicTable.t) (input : bytes) :
  bytes_ok input -> table_ok d ->
  let '(d', _, r) := decode USIZE_BITS d input in returns r /\ table_ok d'.
Proof. intros. by apply decode_loop_total. Qed.

End Total.

(** ** Concrete headers *)

Definition example_headers : list (bytes * bytes) :=
  [(bs ":method", bs "POST"); (bs ":path", bs "/machine/map"); (bs "x-trace", bs "1")].

Lemma headers_roundtrip_witness :
  exists out', encode_headers example_headers (zeros 64) 3 = Ok (out', 3 + len (block_bytes example_headers)) /\
    ztake 3 out' = ztake 3 (zeros 64) /\
    decode 32 (DynamicTable.new 4096) (sub_range 3 (3 + len (block_bytes example_headers)) out')
      = (DynamicTable.new 4096, example_headers, Ok tt).
Proof.
  apply (headers_roundtrip 32 ltac:(lia) example_headers (zeros 64) 3 (DynamicTable.new 4096));
    [repeat constructor; vm_compute; discriminate|lia|vm_compute; discriminate].
Defined.

(** RFC 7541 C.3.1 in part, then an index that does not exist. *)
Lemma decode_total_witness :
  let '(d', _, r) := decode 32 (DynamicTable.new 4096) [0x82; 0x86; 0x84; 0xff; 0x80; 0x01] in
  returns r /\ table_ok d'.
Proof.
  apply (decode_total 32 ltac:(lia) (DynamicTable.new 4096) [0x82; 0x86; 0x84; 0xff; 0x80; 0x01]).
  - repeat constructor; vm_compute; discriminate.
  - apply (apply_op_ok (DynamicTable.new 4096) (Resize 4096)); [lia|].
    unfold table_ok, DynamicTable.MAX_ENTRIES. vm_compute. repeat split; try discriminate. constructor.
Defined.
