(* ===== verification/H2Conn.v ===== *)
(** * The HTTP/2 client connection

    [crates/micro-h2/src/conn.rs]: the whole of [Connection], its handlers as
    functions from the state, the frame and the output buffer to the new state
    and the result.  A decoder is its dynamic table; the header callback is the
    list of headers it was called with.  Unsigned arithmetic that overflows is a
    panic.  Flow control is accounted for from the peer's side: what it reads in the
    frames we write, over a run of calls ([session]). *)

From S2P Require Import Prelude Utf8 H2Frame HpackInt HpackTable Huffman Hpack.
From Stdlib Require Strings.String.
Import (notations) Strings.String.
Import frame.

Module conn.

Definition MAX_STREAMS : Z := 4.
Definition MAX_HEADER_BLOCK : Z := 4096.
Definition RECEIVE_WINDOW : Z := Z.shiftl 1 20.
Definition DEFAULT_WINDOW : Z := 65535.
Definition THRESHOLD : Z := RECEIVE_WINDOW / 2.

Record Stream := mkStream { id : Z; st_consumed : Z; open : bool }.

Inductive Event : Type :=
| Nothing
| EHeaders (stream : Z) (end_stream : bool)
| EData (stream : Z) (data : bytes) (end_stream : bool)
| EReset (stream code : Z)
| EGoAway (code : Z).

Record Connection := mkConnection {
  decoder : DynamicTable.t;
  streams : list Stream;
  next_stream : Z;
  header_block : bytes;
  header_stream : Z;
  header_end_stream : bool;
  consumed : Z;
  peer_max_frame : Z;
}.

Definition with_decoder (c : Connection) (d : DynamicTable.t) : Connection :=
  mkConnection d (streams c) (next_stream c) (header_block c) (header_stream c)
    (header_end_stream c) (consumed c) (peer_max_frame c).
Definition with_streams (c : Connection) (s : list Stream) : Connection :=
  mkConnection (decoder c) s (next_stream c) (header_block c) (header_stream c)
    (header_end_stream c) (consumed c) (peer_max_frame c).
Definition with_next (c : Connection) (n : Z) : Connection :=
  mkConnection (decoder c) (streams c) n (header_block c) (header_stream c)
    (header_end_stream c) (consumed c) (peer_max_frame c).
Definition with_block (c : Connection) (b : bytes) : Connection :=
  mkConnection (decoder c) (streams c) (next_stream c) b (header_stream c)
    (header_end_stream c) (consumed c) (peer_max_frame c).
Definition with_header (c : Connection) (s : Z) (e : bool) : Connection :=
  mkConnection (decoder c) (streams c) (next_stream c) [] s e (consumed c) (peer_max_frame c).
Definition with_consumed (c : Connection) (n : Z) : Connection :=
  mkConnection (decoder c) (streams c) (next_stream c) (header_block c) (header_stream c)
    (header_end_stream c) n (peer_max_frame c).
Definition with_max_frame (c : Connection) (n : Z) : Connection :=
  mkConnection (decoder c) (streams c) (next_stream c) (header_block c) (header_stream c)
    (header_end_stream c) (consumed c) n.

Definition new : Connection :=
  mkConnection (DynamicTable.new DynamicTable.DEFAULT_TABLE_SIZE) [] 1 [] 0 false 0 DEFAULT_MAX_FRAME.

(** Six bytes, as written into the array. *)
Definition write_setting (identifier value : Z) : bytes := to_be 2 identifier ++ to_be 4 value.

(** [write_frame(.., &mut out[len..])], the buffer put back together. *)
Definition write_frame_at (k : FrameType) (fl s : Z) (payload out : bytes) (l : Z)
  : res H2Error (bytes * Z) :=
  let! tl := slice (l, len out) out in
  let! '(tl, n) := write_frame k fl s payload tl in
  Ok (ztake l out ++ tl, l + n).

Definition start (out : bytes) : res H2Error (bytes * Z) :=
  let! _ := ok_or (get_range 0 (len CLIENT_PREFACE) out) BufferTooSmall in
  let! out := slice_copy (0, len CLIENT_PREFACE) CLIENT_PREFACE out in
  let l := len CLIENT_PREFACE in
  let payload := write_setting settings.ENABLE_PUSH 0 ++
    write_setting settings.INITIAL_WINDOW_SIZE RECEIVE_WINDOW ++
    write_setting settings.MAX_CONCURRENT_STREAMS MAX_STREAMS in
  let! '(out, l) := write_frame_at Settings 0 0 payload out l in
  write_frame_at WindowUpdate 0 0 (to_be 4 (RECEIVE_WINDOW - DEFAULT_WINDOW)) out l.

(** The headers of a request, in the order they are encoded. *)
Definition request_headers (method path authority scheme : bytes) (extra : list (bytes * bytes))
  : list (bytes * bytes) :=
  [(bs ":method", method); (bs ":path", path); (bs ":scheme", scheme); (bs ":authority", authority)] ++ extra.

(** Everything [request] does once the stream is open. *)
Definition request_frames (c : Connection) (i : Z) (hs : list (bytes * bytes)) (body out : bytes)
  : res H2Error (Z * bytes * Z) :=
  let! '(block, block_len) := encode_headers hs (zeros MAX_HEADER_BLOCK) 0 in
  if peer_max_frame c <? block_len then Err FrameTooLarge else
  let end_stream := if len body =? 0 then flags.END_STREAM else 0 in
  let! payload := slice (0, block_len) block in
  let! '(out, l) := write_frame Headers (Z.lor flags.END_HEADERS end_stream) i payload out in
  if len body =? 0 then Ok (i, out, l) else
  if peer_max_frame c <? len body then Err FrameTooLarge else
  let! '(out, l) := write_frame_at Data flags.END_STREAM i body out l in
  Ok (i, out, l).

Definition request (c : Connection) (method path authority scheme : bytes)
    (extra : list (bytes * bytes)) (body out : bytes) : Connection * res H2Error (Z * bytes * Z) :=
  let i := next_stream c in
  if len (streams c) =? MAX_STREAMS then (c, Err TooManyStreams) else
  let c := with_streams c (streams c ++ [mkStream i 0 true]) in
  if U32_MAX <? next_stream c + 2 then (c, Panic) else
  let c := with_next c (next_stream c + 2) in
  (c, request_frames c i (request_headers method path authority scheme extra) body out).

(** [self.streams.iter_mut().find(|s| s.id == stream)], updated. *)
Fixpoint update_stream (s : Z) (f : Stream -> Stream) (l : list Stream) : list Stream :=
  match l with
  | [] => []
  | x :: l => if id x =? s then f x :: l else x :: update_stream s f l
  end.

Fixpoint find_stream (s : Z) (l : list Stream) : option Stream :=
  match l with
  | [] => None
  | x :: l => if id x =? s then Some x else find_stream s l
  end.

Definition close (c : Connection) (s : Z) : Connection :=
  let l := update_stream s (fun x => mkStream (id x) (st_consumed x) false) (streams c) in
  with_streams c (filter (fun x => open x = true) l).

Definition set_consumed (c : Connection) (s n : Z) : Connection :=
  with_streams c (update_stream s (fun x => mkStream (id x) n (open x)) (streams c)).

(** The stream's half of [credit]. *)
Definition credit_stream (c : Connection) (s length : Z) (out : bytes) (written : Z)
  : Connection * res H2Error (bytes * Z) :=
  match find_stream s (streams c) with
  | None => (c, Ok (out, written))
  | Some entry =>
      let total := st_consumed entry + length in
      if U32_MAX <? total then (c, Panic) else
      let c := set_consumed c s total in
      if total <? THRESHOLD then (c, Ok (out, written)) else
      match write_frame_at WindowUpdate 0 s (to_be 4 total) out written with
      | Ok (out, written) => (set_consumed c s 0, Ok (out, written))
      | Err e => (c, Err e)
      | Panic => (c, Panic)
      | Hang => (c, Hang)
      end
  end.

Definition credit (c : Connection) (s length : Z) (out : bytes) : Connection * res H2Error (bytes * Z) :=
  if length =? 0 then (c, Ok (out, 0)) else
  let total := consumed c + length in
  if U32_MAX <? total then (c, Panic) else
  let c := with_consumed c total in
  if total <? THRESHOLD then credit_stream c s length out 0 else
  match write_frame WindowUpdate 0 0 (to_be 4 total) out with
  | Ok (out, written) => credit_stream (with_consumed c 0) s length out written
  | Err e => (c, Err e)
  | Panic => (c, Panic)
  | Hang => (c, Hang)
  end.

(** [payload.chunks_exact(6)], one setting at a time. *)
Fixpoint apply_entries (c : Connection) (payload : bytes) : Connection :=
  match payload with
  | a :: b :: v0 :: v1 :: v2 :: v3 :: rest =>
      let identifier := of_be [a; b] in
      let value := of_be [v0; v1; v2; v3] in
      let c :=
        if identifier =? settings.MAX_FRAME_SIZE then with_max_frame c value
        else if identifier =? settings.HEADER_TABLE_SIZE then with_decoder c (DynamicTable.new value)
        else c in
      apply_entries c rest
  | _ => c
  end.

Definition apply_settings (c : Connection) (payload : bytes) : Connection * res H2Error unit :=
  if negb (len payload mod 6 =? 0) then (c, Err Protocol) else (apply_entries c payload, Ok tt).

Definition read_u32 (b : bytes) : option Z := let? x := get_range 0 4 b in Some (of_be x).

Section Recv.
Context (USIZE_BITS : Z).

Definition result : Type := Connection * list (bytes * bytes) * res H2Error (Event * bytes * Z).

(** A reply frame, or the buffer as it is. *)
Definition reply (c : Connection) (ev : Event) (w : res H2Error (bytes * Z)) : result :=
  (c, [], let! '(out, n) := w in Ok (ev, out, n)).

(** [HEADERS] and [CONTINUATION]. *)
Definition recv_headers (c : Connection) (h : FrameHeader) (payload out : bytes) : result :=
  let '(c, block) :=
    match fh_kind h with
    | Headers =>
        let c := with_header c (fh_stream h) (has h flags.END_STREAM) in
        (c, let! body := strip_padding payload (fh_flags h) in
            if has h flags.PRIORITY then ok_or (get_range 5 (len body) body) Protocol else Ok body)
    | _ => (c, Ok payload)
    end in
  match block with
  | Ok block =>
      if MAX_HEADER_BLOCK <? len (header_block c) + len block then (c, [], Err BufferTooSmall) else
      let c := with_block c (header_block c ++ block) in
      if negb (has h flags.END_HEADERS) then (c, [], Ok (Nothing, out, 0)) else
      let s := header_stream c in
      let end_stream := header_end_stream c in
      let '(d, hs, r) := decode USIZE_BITS (decoder c) (header_block c) in
      let c := with_decoder c d in
      match r with
      | Ok _ =>
          let c := if end_stream then close c s else c in
          (c, hs, Ok (EHeaders s end_stream, out, 0))
      | Err e => (c, hs, Err e)
      | Panic => (c, hs, Panic)
      | Hang => (c, hs, Hang)
      end
  | Err e => (c, [], Err e)
  | Panic => (c, [], Panic)
  | Hang => (c, [], Hang)
  end.

Definition recv_data (c : Connection) (h : FrameHeader) (payload out : bytes) : result :=
  match strip_padding payload (fh_flags h) with
  | Ok data =>
      let (c, r) := credit c (fh_stream h) (fh_length h) out in
      match r with
      | Ok (out, written) =>
          let end_stream := has h flags.END_STREAM in
          let c := if end_stream then close c (fh_stream h) else c in
          (c, [], Ok (EData (fh_stream h) data end_stream, out, written))
      | Err e => (c, [], Err e)
      | Panic => (c, [], Panic)
      | Hang => (c, [], Hang)
      end
  | Err e => (c, [], Err e)
  | Panic => (c, [], Panic)
  | Hang => (c, [], Hang)
  end.

(** The dispatch of [recv], the header parsed. *)
Definition recv_frame (c : Connection) (h : FrameHeader) (payload out : bytes) : result :=
  match fh_kind h with
  | Settings =>
      if has h flags.ACK then (c, [], Ok (Nothing, out, 0)) else
      let (c, r) := apply_settings c payload in
      reply c Nothing (let! _ := r in write_frame Settings flags.ACK 0 [] out)
  | Ping =>
      if has h flags.ACK then (c, [], Ok (Nothing, out, 0)) else
      reply c Nothing (write_frame Ping flags.ACK 0 payload out)
  | Headers | Continuation => recv_headers c h payload out
  | Data => recv_data c h payload out
  | RstStream =>
      match read_u32 payload with
      | None => (c, [], Err Protocol)
      | Some code => (close c (fh_stream h), [], Ok (EReset (fh_stream h) code, out, 0))
      end
  | frame.GoAway =>
      match (let? p := get_range 4 8 payload in read_u32 p) with
      | None => (c, [], Err Protocol)
      | Some code => (c, [], Ok (EGoAway code, out, 0))
      end
  | WindowUpdate | Priority => (c, [], Ok (Nothing, out, 0))
  | PushPromise => (c, [], Err Protocol)
  | Unknown _ => (c, [], Ok (Nothing, out, 0))
  end.

Definition recv (c : Connection) (b out : bytes) : result :=
  match (let! h := parse b in
         let! payload := ok_or (get_range HEADER_LEN (HEADER_LEN + fh_length h) b) Incomplete in
         Ok (h, payload)) with
  | Ok (h, payload) => recv_frame c h payload out
  | Err e => (c, [], Err e)
  | Panic => (c, [], Panic)
  | Hang => (c, [], Hang)
  end.

End Recv.

Definition open_streams (c : Connection) : Z := len (streams c).

End conn.
Import conn.

(** ** Well-formed connections *)

Module ConnFacts.

Definition stream_ok (s : Stream) : Prop :=
  0 < id s < 2 ^ 31 /\ 0 <= st_consumed s < THRESHOLD /\ open s = true.

(** What every successful call preserves. *)
Record conn_ok (c : Connection) : Prop := {
  ok_table : table_ok (decoder c);
  ok_streams : Forall stream_ok (streams c);
  ok_count : len (streams c) <= MAX_STREAMS;
  ok_block : bytes_ok (header_block c);
  ok_block_len : len (header_block c) <= MAX_HEADER_BLOCK;
  ok_consumed : 0 <= consumed c < THRESHOLD;
}.

Lemma table_ok_new n : 0 <= n -> table_ok (DynamicTable.new n).
Proof.
  intros. unfold table_ok, DynamicTable.MAX_ENTRIES, TableFacts.total. simpl. unfold len; simpl.
  split_and!; try done; lia.
Qed.

Lemma conn_ok_new : conn_ok new.
Proof. split; try done; constructor. Qed.

(** *** Streams *)

Lemma update_stream_ok s f l :
  (forall x, stream_ok x -> stream_ok (f x)) -> Forall stream_ok l -> Forall stream_ok (update_stream s f l).
Proof.
  intros Hf. induction 1 as [|x l Hx Hl IH]; simpl; [constructor|]. case_if; constructor; auto.
Qed.

Lemma len_update_stream s f l : len (update_stream s f l) = len l.
Proof. induction l as [|x l IH]; simpl; [done|]. case_if; by rewrite !len_cons, ?IH. Qed.

Lemma set_consumed_twice c s a b : set_consumed (set_consumed c s a) s b = set_consumed c s b.
Proof.
  unfold set_consumed, with_streams. cbn [streams decoder next_stream header_block header_stream
    header_end_stream consumed peer_max_frame]. f_equal.
  induction (streams c) as [|x l IH]; simpl; [done|]. destruct (id x =? s) eqn:E; simpl; rewrite E; [done|by rewrite IH].
Qed.

Lemma find_stream_In s l x : find_stream s l = Some x -> In x l /\ id x = s.
Proof.
  induction l as [|y l IH]; simpl; [done|]. case_if; bool_hyps.
  - intros [= <-]. auto.
  - intros H. destruct (IH H). auto.
Qed.

Lemma find_stream_ok c s x : conn_ok c -> find_stream s (streams c) = Some x -> stream_ok x /\ id x = s.
Proof.
  intros Hc [Hin Hid]%find_stream_In. split; [|done].
  by apply (proj1 (List.Forall_forall _ _) (ok_streams _ Hc)).
Qed.

Lemma Forall_filter_incl {A} (P Q : A -> Prop) `{forall x, Decision (Q x)} l :
  Forall P l -> Forall P (filter Q l).
Proof.
  induction 1 as [|x l Hx _ IH]; [constructor|]. destruct (decide (Q x)).
  - rewrite filter_cons_True by done. by constructor.
  - by rewrite filter_cons_False by done.
Qed.

(** Closing marks one stream and drops it; the others are as they were. *)
Lemma close_ok c s : conn_ok c -> conn_ok (close c s).
Proof.
  intros [Ht Hs Hn Hb Hbl Hc]. split; try done; unfold close; cbn [streams with_streams].
  - clear Hn. induction Hs as [|x l Hx Hl IH]; simpl; [constructor|]. case_if.
    + rewrite filter_cons_False by done. by apply Forall_filter_incl.
    + rewrite filter_cons_True by (destruct Hx as (_ & _ & ?); done).
      by constructor.
  - etransitivity; [|exact Hn]. rewrite <- (len_update_stream s (fun x => mkStream (id x) (st_consumed x) false) (streams c)).
    unfold len. pose proof (length_filter (fun x => open x = true)
      (update_stream s (fun x => mkStream (id x) (st_consumed x) false) (streams c))). lia.
Qed.

(** *** Frames written behind others *)

Definition update_bytes (s n : Z) : bytes :=
  FrameFacts.header_bytes (mkFrameHeader 4 WindowUpdate 0 s) ++ to_be 4 n.

Lemma len_update_bytes s n : len (update_bytes s n) = 13.
Proof. unfold update_bytes. rewrite len_app, FrameFacts.len_header_bytes, len_to_be. done. Qed.

Lemma write_frame_at_layout k fl s payload out l :
  0 <= l <= len out ->
  write_frame_at k fl s payload out l =
  if 9 + len payload <=? len out - l
  then Ok (ztake l out ++ FrameFacts.header_bytes (mkFrameHeader (len payload) k fl s) ++ payload ++
             zdrop (l + (9 + len payload)) out, l + (9 + len payload))
  else Err BufferTooSmall.
Proof.
  intros Hl. unfold write_frame_at, slice. cbn [fst snd]. rewrite get_range_in by lia. cbn [or_panic rbind].
  assert (sub_range l (len out) out = zdrop l out) as ->.
  { unfold sub_range. apply ztake_all. llia. }
  rewrite FrameFacts.write_frame_layout. unfold HEADER_LEN. rewrite len_zdrop.
  replace (Z.max 0 (Z.min l (len out))) with l by lia. case_if; bool_hyps; cbn [rbind]; [|done].
  rewrite zdrop_zdrop by (nonneg_lens; lia). done.
Qed.

(** *** Flow-control credit *)

Definition fired (total : Z) : bool := THRESHOLD <=? total.
Definition remaining (total : Z) : Z := if fired total then 0 else total.
Definition update_if (total s : Z) : bytes := if fired total then update_bytes s total else [].

Lemma len_update_if total s : 0 <= len (update_if total s) <= 13.
Proof. unfold update_if. case_if; rewrite ?len_update_bytes; unfold len; simpl; lia. Qed.

(** What a stream has consumed once [n] bytes more arrive on it; 0 when there is
    no such stream. *)
Definition stream_total (s n : Z) (l : list Stream) : Z :=
  match find_stream s l with Some x => st_consumed x + n | None => 0 end.
Definition streams_after (s n : Z) (l : list Stream) : list Stream :=
  update_stream s (fun x => mkStream (id x) (remaining (stream_total s n l)) (open x)) l.

Lemma update_stream_None s f l : find_stream s l = None -> update_stream s f l = l.
Proof. induction l as [|x l IH]; simpl; [done|]. case_if; [done|]. intros H. by rewrite IH. Qed.

Lemma stream_total_range c s n :
  conn_ok c -> 0 <= n < 2 ^ 24 -> 0 <= stream_total s n (streams c) < 2 ^ 31.
Proof.
  intros Hc Hn. unfold stream_total. destruct (find_stream s (streams c)) as [x|] eqn:E; [|lia].
  destruct (find_stream_ok c s x Hc E) as [(_ & Hx & _) _]. change THRESHOLD with 524288 in Hx. lia.
Qed.

(** The stream's part: its balance as [streams_after] has it, and the update that
    is due written behind what is there. *)
Lemma credit_stream_spec c s n out pre tl :
  conn_ok c -> 0 < n < 2 ^ 24 -> out = pre ++ tl ->
  exists c' r, credit_stream c s n out (len pre) = (c', r) /\
    (13 <= len tl -> is_ok r = true) /\ returns r /\
    forall out' w, r = Ok (out', w) ->
      let u := update_if (stream_total s n (streams c)) s in
      conn_ok c' /\ c' = with_streams c (streams_after s n (streams c)) /\
      out' = pre ++ u ++ zdrop (len u) tl /\ w = len pre + len u /\ len u <= len tl.
Proof.
  intros Hc Hn ->. unfold credit_stream, streams_after, stream_total, update_if, remaining, fired.
  destruct (find_stream s (streams c)) as [x|] eqn:Ef.
  - destruct (find_stream_ok c s x Hc Ef) as [(Hid & Hcs & Ho) Hs].
    change THRESHOLD with 524288 in Hcs.
    unfold U32_MAX. rewrite (proj2 (Z.ltb_ge _ _)) by lia.
    assert (Hset : forall m, 0 <= m < THRESHOLD -> conn_ok (set_consumed c s m)).
    { intros m Hm. destruct Hc as [Ht Hst Hcnt Hb Hbl Hcc]. split; try done; cbn [streams set_consumed with_streams].
      - apply update_stream_ok; [|done]. intros y (? & ? & ?). unfold stream_ok. simpl. auto.
      - by rewrite len_update_stream. }
    destruct (st_consumed x + n <? THRESHOLD) eqn:Et; bool_hyps.
    + rewrite (proj2 (Z.leb_gt _ _)) by done. do 2 eexists. split; [done|]. split_and!; try done. intros out' w [= <- <-].
      rewrite app_nil_l, len_nil, Z.add_0_r, zdrop_0 by done.
      split_and!; try done; [apply Hset; lia|apply len_nonneg].
    + rewrite (proj2 (Z.leb_le _ _)) by done.
      rewrite write_frame_at_layout by llia. rewrite len_to_be, len_app. change (Z.of_nat 4) with 4. change (9 + 4) with 13.
      replace (len pre + len tl - len pre) with (len tl) by lia.
      destruct (13 <=? len tl) eqn:E13; bool_hyps.
      * do 2 eexists. split; [done|]. split_and!; try done. intros out' w [= <- <-].
        rewrite set_consumed_twice, len_update_bytes, ztake_app_len by done.
        split_and!; try done; [by apply Hset|].
        unfold update_bytes. rewrite <- app_assoc. do 3 f_equal.
        rewrite <- zdrop_zdrop, zdrop_app_len by (nonneg_lens; lia). done.
      * do 2 eexists. split; [done|]. split_and!; try done. lia.
  - do 2 eexists. split; [done|]. split_and!; try done. intros out' w [= <- <-].
    rewrite update_stream_None by done. change (THRESHOLD <=? 0) with false. cbv iota zeta.
    rewrite app_nil_l, len_nil, Z.add_0_r, zdrop_0 by done.
    split_and!; try done; [by destruct c|apply len_nonneg].
Qed.

Lemma with_consumed_ok c n : conn_ok c -> 0 <= n < THRESHOLD -> conn_ok (with_consumed c n).
Proof. intros [? ? ? ? ? ?] ?. by split. Qed.

(** All of [credit]: both balances, and behind one another the connection's update
    and the stream's, each if due. *)
Lemma credit_spec c s n out :
  conn_ok c -> 0 < n < 2 ^ 24 ->
  exists c' r, credit c s n out = (c', r) /\ returns r /\ (26 <= len out -> is_ok r = true) /\
    forall out' w, r = Ok (out', w) ->
      let u := update_if (consumed c + n) 0 ++ update_if (stream_total s n (streams c)) s in
      conn_ok c' /\
      c' = with_streams (with_consumed c (remaining (consumed c + n))) (streams_after s n (streams c)) /\
      exists tl, out' = u ++ tl /\ w = len u.
Proof.
  intros Hc Hn. pose proof (ok_consumed _ Hc) as Hcc. change THRESHOLD with 524288 in Hcc.
  unfold credit. rewrite (proj2 (Z.eqb_neq n 0)) by lia. unfold U32_MAX. rewrite (proj2 (Z.ltb_ge _ _)) by lia.
  destruct (consumed c + n <? THRESHOLD) eqn:E; bool_hyps.
  - assert (remaining (consumed c + n) = consumed c + n /\ update_if (consumed c + n) 0 = []) as [-> ->] by
      (unfold remaining, update_if, fired; by rewrite (proj2 (Z.leb_gt _ _))).
    destruct (credit_stream_spec (with_consumed c (consumed c + n)) s n out [] out) as (c' & r & Hr & Hfit & Hret & Hok);
      [apply with_consumed_ok; [done|lia]|done|done|].
    change (len (@nil Z)) with 0 in *. rewrite Hr. do 2 eexists. split; [done|]. split; [done|]. split; [intros; apply Hfit; lia|].
    intros out' w Hw. destruct (Hok out' w Hw) as (Hc' & Hcon & Ho & Hwl & _).
    split_and!; [done|exact Hcon|]. eexists. split; [exact Ho|exact Hwl].
  - assert (remaining (consumed c + n) = 0 /\ update_if (consumed c + n) 0 = update_bytes 0 (consumed c + n)) as [-> ->] by
      (unfold remaining, update_if, fired; by rewrite (proj2 (Z.leb_le _ _))).
    rewrite FrameFacts.write_frame_layout, len_to_be.
    unfold HEADER_LEN. change (Z.of_nat 4) with 4. change (9 + 4) with 13. destruct (13 <=? len out) eqn:E13; bool_hyps.
    + change (with_consumed (with_consumed c (consumed c + n)) 0) with (with_consumed c 0).
      destruct (credit_stream_spec (with_consumed c 0) s n
        (update_bytes 0 (consumed c + n) ++ zdrop 13 out) (update_bytes 0 (consumed c + n)) (zdrop 13 out))
        as (c' & r & Hr & Hfit & Hret & Hok);
        [by apply with_consumed_ok|done|done|].
      rewrite len_update_bytes in Hr. unfold update_bytes in Hr at 1. rewrite <- app_assoc in Hr.
      rewrite Hr. do 2 eexists. split; [done|]. split; [done|]. split; [intros; apply Hfit; llia|]. intros out' w Hw.
      destruct (Hok out' w Hw) as (Hc' & Hcon & Ho & Hwl & _).
      split_and!; [done|exact Hcon|]. eexists. rewrite <- app_assoc, len_app. split; [exact Ho|done].
    + do 2 eexists. split; [done|]. split; [done|]. split; [lia|done].
Qed.

End ConnFacts.
Import ConnFacts.

(** ** The handlers preserve the invariant *)

Section Safety.
Context (USIZE_BITS : Z) (Husize : 16 <= USIZE_BITS).

(** A handler's outcome: it returns, and keeps the invariant when it succeeds. *)
Definition good (x : result) : Prop :=
  let '(c, _, r) := x in returns r /\ (is_ok r = true -> conn_ok c).

Lemma apply_entries_ok n c payload :
  (length payload <= n)%nat -> conn_ok c -> bytes_ok payload -> conn_ok (apply_entries c payload).
Proof.
  revert c payload; induction n as [|n IH]; intros c payload Hn Hc Hb.
  { by destruct payload; [|simpl in Hn; lia]. }
  do 6 (destruct payload as [|? payload]; [done|]). cbn [apply_entries].
  simpl in Hn. apply IH; [lia| |by do 6 (apply Forall_cons_iff in Hb as [_ Hb])].
  assert (0 <= of_be [z1; z2; z3; z4]).
  { apply of_be_bound. do 2 (apply Forall_cons_iff in Hb as [_ Hb]).
    repeat (apply Forall_cons_iff in Hb as [? Hb]). repeat first [done | constructor]. }
  destruct Hc. repeat case_if; split; try done; by apply table_ok_new.
Qed.

Lemma write_frame_returns k fl s payload out : returns (write_frame k fl s payload out).
Proof. rewrite FrameFacts.write_frame_layout. by case_if. Qed.

Lemma recv_headers_good c h payload out :
  conn_ok c -> bytes_ok payload -> good (recv_headers USIZE_BITS c h payload out).
Proof.
  intros Hc Hb. unfold recv_headers.
  set (start := match fh_kind h with Headers => _ | _ => (c, Ok payload) end).
  assert (exists c1 blk, start = (c1, blk) /\ conn_ok c1 /\ returns blk /\
    forall b, blk = Ok b -> bytes_ok b) as (c1 & blk & -> & Hc1 & Hret & Hblk).
  { subst start. destruct (fh_kind h); try (exists c, (Ok payload); split_and!; try done; by intros b [= <-]).
    do 2 eexists. split; [done|]. split; [by destruct Hc; split; try done; constructor|].
    destruct (FrameFacts.strip_padding_cases payload (fh_flags h) Hb) as [[e ->]|(body & -> & Hbody)]; [done|].
    cbn [rbind]. case_if; [|by split; [|intros b [= <-]]].
    destruct (get_range 5 (len body) body) as [x|] eqn:E; [|done]. split; [done|]. intros b [= <-].
    apply get_range_Some in E as (_ & _ & ->). by apply bytes_ok_sub_range. }
  destruct blk as [blk|e| |]; try done. case_if; [done|]. bool_hyps. specialize (Hblk blk eq_refl).
  set (c2 := with_block c1 _). assert (conn_ok c2) as Hc2.
  { destruct Hc1; split; try done; simpl; [by apply bytes_ok_app|by rewrite len_app]. }
  case_if; [by split|].
  pose proof (decode_loop_total USIZE_BITS Husize (length (header_block c2)) (decoder c2) (header_block c2)
    (ok_block _ Hc2) (ok_table _ Hc2) ltac:(done)) as Hd. unfold decode.
  destruct (decode_loop _ _ _ _) as [[d hs] r]. destruct Hd as [Hr Ht].
  destruct r as [u|e| |]; try done. split; [done|]. intros _.
  assert (conn_ok (with_decoder c2 d)) by (destruct Hc2; by split).
  case_if; [by apply close_ok|done].
Qed.

Lemma recv_data_good c h payload out :
  conn_ok c -> bytes_ok payload -> 0 <= fh_length h < 2 ^ 24 -> good (recv_data c h payload out).
Proof.
  intros Hc Hb Hl. unfold recv_data.
  destruct (FrameFacts.strip_padding_cases payload (fh_flags h) Hb) as [[e ->]|(body & -> & _)]; [done|].
  assert (forall c1 (out1 : bytes) (w : Z), conn_ok c1 -> good
    (if has h flags.END_STREAM then close c1 (fh_stream h) else c1, [],
     Ok (EData (fh_stream h) body (has h flags.END_STREAM), out1, w))) as Hfin.
  { intros c1 out1 w Hc1. split; [done|]. intros _. case_if; [by apply close_ok|done]. }
  destruct (Z.eq_dec (fh_length h) 0) as [Hz|Hz].
  - unfold credit. rewrite Hz. cbn [Z.eqb]. by apply Hfin.
  - destruct (credit_spec c (fh_stream h) (fh_length h) out Hc ltac:(lia)) as (c1 & r & -> & Hr & _ & Hok).
    destruct r as [[out1 w]|e| |]; try done. apply Hfin. by destruct (Hok out1 w eq_refl).
Qed.

Lemma recv_good c b out : conn_ok c -> bytes_ok b -> good (recv USIZE_BITS c b out).
Proof.
  intros Hc Hb. unfold recv. destruct (parse b) as [h|e| |] eqn:Ep; try done; cycle 1.
  { exfalso. unfold parse in Ep. by destruct (get_range 0 HEADER_LEN b). }
  { exfalso. unfold parse in Ep. by destruct (get_range 0 HEADER_LEN b). }
  destruct (FrameFacts.parse_bounds b h Hb Ep) as [Hl Hs]. cbn [rbind].
  destruct (get_range HEADER_LEN (HEADER_LEN + fh_length h) b) as [payload|] eqn:Eg; [|done].
  apply get_range_Some in Eg as (_ & _ & ->). cbn [ok_or rbind].
  set (payload := sub_range _ _ b). assert (bytes_ok payload) as Hp by by apply bytes_ok_sub_range.
  unfold recv_frame. destruct (fh_kind h).
  - by apply recv_data_good.
  - by apply recv_headers_good.
  - done.
  - destruct (read_u32 payload); [|done]. split; [done|]. intros _. by apply close_ok.
  - case_if; [by split|]. unfold apply_settings. case_if; cbn [reply rbind]; [done|].
    pose proof (write_frame_returns Settings flags.ACK 0 [] out) as Hw.
    destruct (write_frame Settings _ 0 [] out) as [[o n]|e| |]; try done. split; [done|]. intros _.
    by apply (apply_entries_ok (length payload)).
  - done.
  - case_if; [by split|]. pose proof (write_frame_returns Ping flags.ACK 0 payload out) as Hw.
    unfold reply. destruct (write_frame Ping _ 0 payload out) as [[o n]|e| |]; by try split.
  - destruct (let? p := get_range 4 8 payload in read_u32 p); by split.
  - by split.
  - by apply recv_headers_good.
  - by split.
Qed.

(** C38: The connection survives any frame.  From a well-formed state, [recv] of
    any bytes whatever into any buffer returns a result (it neither panics nor
    overflows a counter), and when the result is not an error the state is
    well-formed again: at most four streams, the reassembly buffer and the
    dynamic table within their bounds, every window below its threshold. *)
Theorem recv_total_and_safe (c : Connection) (b out : bytes) :
  conn_ok c -> bytes_ok b ->
  let '(c', _, r) := recv USIZE_BITS c b out in
  returns r /\ (is_ok r = true -> conn_ok c').
Proof. apply recv_good. Qed.

End Safety.

Lemma recv_total_and_safe_witness :
  let '(c', _, r) := recv 32 conn.new [0; 0; 5; 1; 4; 0; 0; 0; 1; 0x82; 0x40; 1; 65; 0] (zeros 64) in
  returns r /\ (is_ok r = true -> conn_ok c').
Proof.
  apply (recv_total_and_safe 32 ltac:(lia) conn.new [0; 0; 5; 1; 4; 0; 0; 0; 1; 0x82; 0x40; 1; 65; 0] (zeros 64)).
  - apply conn_ok_new.
  - repeat constructor; vm_compute; discriminate.
Defined.

(** ** Flow control *)

(** What a peer reads in our replies: the credit granted on one stream (0 is
    the connection), frame after frame. *)
Fixpoint updates_for (fuel : nat) (s : Z) (b : bytes) : Z :=
  match fuel with
  | O => 0
  | S fuel =>
      match parse b with
      | Ok h =>
          (match fh_kind h with
           | WindowUpdate => if fh_stream h =? s then of_be (sub_range 9 13 b) else 0
           | _ => 0
           end) + updates_for fuel s (zdrop (9 + fh_length h) b)
      | _ => 0
      end
  end.
Definition granted (s : Z) (b : bytes) : Z := updates_for (length b) s b.

(** The stream window a peer starts from, as it reads it in what we wrote: the
    value of the last INITIAL_WINDOW_SIZE setting, 65535 without one. *)
Fixpoint window_setting (fuel : nat) (entries : bytes) (w : Z) : Z :=
  match fuel with
  | O => w
  | S fuel =>
      if len entries <? 6 then w else
      window_setting fuel (zdrop 6 entries)
        (if of_be (ztake 2 entries) =? settings.INITIAL_WINDOW_SIZE then of_be (sub_range 2 6 entries) else w)
  end.
Fixpoint initial_window (fuel : nat) (b : bytes) (w : Z) : Z :=
  match fuel with
  | O => w
  | S fuel =>
      match parse b with
      | Ok h =>
          initial_window fuel (zdrop (9 + fh_length h) b)
            (match fh_kind h with
             | Settings => window_setting fuel (sub_range 9 (9 + fh_length h) b) w
             | _ => w
             end)
      | _ => w
      end
  end.

(** What the peer may send before it hears from us again, on the connection (0) or
    on a stream, given the bytes that opened the connection. *)
Definition opening_window (s : Z) (wire : bytes) : Z :=
  let b := zdrop (len CLIENT_PREFACE) wire in
  if s =? 0 then DEFAULT_WINDOW + granted 0 b else initial_window (length b) b DEFAULT_WINDOW.

Definition is_open (s : Z) (c : Connection) : bool :=
  match find_stream s (streams c) with Some _ => true | None => false end.

(** The stream and the length of a DATA frame's payload, which is what it charges;
    no other frame charges anything. *)
Definition data_frame (b : bytes) : Z * Z :=
  match parse b with
  | Ok h => match fh_kind h with Data => (fh_stream h, fh_length h) | _ => (0, 0) end
  | _ => (0, 0)
  end.

(** What a frame charges the window of the connection (0) or of a stream, which has
    a window from its request on. *)
Definition charged (s : Z) (c : Connection) (b : bytes) : Z :=
  let (t, n) := data_frame b in if (s =? 0) || ((t =? s) && is_open s c) then n else 0.

(** The calls made on a connection: requests, and frames taken from the peer. *)
Inductive Call : Type :=
| Ask (method path authority scheme : bytes) (extra : list (bytes * bytes)) (body out : bytes)
| Take (b out : bytes).

Section Flow.
Context (USIZE_BITS : Z) (Husize : 16 <= USIZE_BITS).

(** A run of calls: a request may fail, a frame is accepted.  With the
    connection, the bytes charged to the window of [s] and the credit the peer
    reads for it in our replies. *)
Fixpoint session (s : Z) (c : Connection) (calls : list Call) : option (Connection * Z * Z) :=
  match calls with
  | [] => Some (c, 0, 0)
  | Ask method path authority scheme extra body out :: calls =>
      let (c, r) := request c method path authority scheme extra body out in
      match r with
      | Ok _ | Err _ => session s c calls
      | _ => None
      end
  | Take b out :: calls =>
      let n := charged s c b in
      let '(c, _, r) := recv USIZE_BITS c b out in
      match r with
      | Ok (_, out, w) =>
          let? (c, n', g) := session s c calls in
          Some (c, n + n', granted s (ztake w out) + g)
      | _ => None
      end
  end.

Lemma updates_nil fuel s : updates_for fuel s [] = 0.
Proof. by destruct fuel. Qed.

Lemma updates_frame fuel s k fl st payload rest :
  0 <= st -> len payload < 2 ^ 24 ->
  updates_for (S fuel) s (FrameFacts.header_bytes (mkFrameHeader (len payload) k fl st) ++ payload ++ rest) =
  (match from_byte (to_byte k) with
   | WindowUpdate => if st mod 2 ^ 31 =? s then of_be (ztake 4 (payload ++ rest)) else 0
   | _ => 0
   end) + updates_for fuel s rest.
Proof.
  intros Hst Hp. set (h := mkFrameHeader _ _ _ _). cbn [updates_for].
  rewrite FrameFacts.parse_header by done. cbn [fh_kind fh_stream fh_length].
  rewrite (Z.mod_small (fh_length h)) by (simpl; nonneg_lens; lia).
  pose proof (FrameFacts.len_header_bytes h) as Hh.
  f_equal.
  f_equal. change (fh_length h) with (len payload). rewrite app_assoc, zdrop_app_len; [done|]. rewrite len_app, Hh. lia.
Qed.

Lemma updates_update fuel s st n rest :
  0 <= st < 2 ^ 31 -> 0 <= n < 2 ^ 32 ->
  updates_for (S fuel) s (update_bytes st n ++ rest) = (if st =? s then n else 0) + updates_for fuel s rest.
Proof.
  intros Hst Hn. unfold update_bytes. rewrite <- app_assoc.
  pose proof (updates_frame fuel s WindowUpdate 0 st (to_be 4 n) rest) as H.
  rewrite len_to_be in H. change (Z.of_nat 4) with 4 in H. rewrite H by lia. cbn [from_byte to_byte].
  rewrite (Z.mod_small st), ztake_app_len, of_to_be_small; [done|..]; rewrite ?len_to_be; lia.
Qed.

(** The reply to a DATA frame grants either window what [update_if] says. *)
Lemma updates_update_if fuel s p a rest :
  0 <= a < 2 ^ 31 -> 0 <= p < 2 ^ 31 -> (length (update_if a p) + length rest <= fuel)%nat ->
  (forall fuel', (length rest <= fuel')%nat -> updates_for fuel' s rest = updates_for (length rest) s rest) ->
  updates_for fuel s (update_if a p ++ rest) =
    (if p =? s then a - remaining a else 0) + updates_for (length rest) s rest.
Proof.
  intros Ha Hp Hf Hrest. unfold update_if, remaining in *. destruct (fired a).
  - pose proof (len_update_bytes p a) as Hl. destruct fuel as [|fuel]; [unfold len in Hl; lia|].
    rewrite updates_update, Hrest by (unfold len in Hl; lia). case_if; lia.
  - rewrite app_nil_l, Hrest by (simpl in Hf; lia). case_if; lia.
Qed.

Lemma granted_credit s a b q :
  0 <= a < 2 ^ 31 -> 0 <= b < 2 ^ 31 -> 0 <= q < 2 ^ 31 ->
  granted s (update_if a 0 ++ update_if b q) =
    (if 0 =? s then a - remaining a else 0) + (if q =? s then b - remaining b else 0).
Proof.
  intros Ha Hb Hq. unfold granted.
  assert (forall fuel, (length (update_if b q) <= fuel)%nat ->
    updates_for fuel s (update_if b q) = if q =? s then b - remaining b else 0) as Hlast.
  { intros fuel Hf. rewrite <- (app_nil_r (update_if b q)), updates_update_if, updates_nil; try done; try (simpl; lia).
    intros. by rewrite !updates_nil. }
  rewrite updates_update_if, Hlast; try done; try (rewrite length_app; lia).
  intros fuel' Hf. by rewrite !Hlast.
Qed.

(** The reply to any other frame grants nothing. *)
Lemma granted_ack s k fl payload tl :
  from_byte (to_byte k) = k -> k <> WindowUpdate -> len payload < 2 ^ 24 ->
  granted s (ztake (9 + len payload)
    (FrameFacts.header_bytes (mkFrameHeader (len payload) k fl 0) ++ payload ++ tl)) = 0.
Proof.
  intros Hk Hne Hp. pose proof (FrameFacts.len_header_bytes (mkFrameHeader (len payload) k fl 0)) as Hh.
  rewrite app_assoc, ztake_app_len by llia. unfold granted. rewrite length_app.
  assert (length (FrameFacts.header_bytes (mkFrameHeader (len payload) k fl 0)) = 9)%nat as -> by (apply Nat2Z.inj; exact Hh).
  pose proof (updates_frame (8 + length payload) s k fl 0 payload []) as H.
  rewrite app_nil_r in H. change (9 + length payload)%nat with (S (8 + length payload)).
  rewrite H by lia. rewrite Hk, updates_nil. by destruct k.
Qed.

(** *** The balances

    What is consumed and not yet credited on the connection (0) or on a stream,
    and what each part of [recv] does to it. *)
Definition balance (s : Z) (c : Connection) : option Z :=
  if s =? 0 then Some (consumed c) else st_consumed <$> find_stream s (streams c).

(** Stream ids are unique and below the next one. *)
Record session_ok (c : Connection) : Prop := {
  ss_conn : conn_ok c;
  ss_unique : NoDup (id <$> streams c);
  ss_below : Forall (fun i => i < next_stream c) (id <$> streams c);
  ss_next : 1 <= next_stream c;
}.

(** What happens to the streams when a frame is taken: none is opened, and those
    that stay keep their balance, [n] bytes on stream [t] apart. *)
Definition keeps_streams (t n : Z) (c c' : Connection) : Prop :=
  next_stream c' = next_stream c /\
  (id <$> streams c') `sublist_of` (id <$> streams c) /\
  forall s x', find_stream s (streams c') = Some x' ->
    exists x, find_stream s (streams c) = Some x /\
      st_consumed x' = if s =? t then remaining (st_consumed x + n) else st_consumed x.

Lemma remaining_small a : 0 <= a < THRESHOLD -> remaining a = a.
Proof. unfold remaining, fired. intros ?. by rewrite (proj2 (Z.leb_gt _ _)) by lia. Qed.

Lemma keeps_streams_same t c c' :
  conn_ok c -> next_stream c' = next_stream c -> streams c' = streams c -> keeps_streams t 0 c c'.
Proof.
  intros Hc Hn Hs. unfold keeps_streams. rewrite Hn, Hs. split_and!; [done..|]. intros s x Hx. exists x.
  split; [done|]. destruct (find_stream_ok c s x Hc Hx) as [(_ & Hr & _) _].
  rewrite Z.add_0_r, remaining_small by done. by case_if.
Qed.

Lemma find_update s t f l :
  (forall x, id (f x) = id x) ->
  find_stream s (update_stream t f l) = if s =? t then f <$> find_stream t l else find_stream s l.
Proof.
  intros Hf. induction l as [|x l IH]; simpl; [by case_if|].
  destruct (id x =? t) eqn:Et; simpl; rewrite ?Hf; bool_hyps.
  - rewrite Et, (Z.eqb_sym t s). by case_if.
  - destruct (id x =? s) eqn:Es; bool_hyps; [|exact IH]. by rewrite (proj2 (Z.eqb_neq _ _)) by lia.
Qed.

Lemma ids_update t f l : (forall x, id (f x) = id x) -> id <$> update_stream t f l = id <$> l.
Proof.
  intros Hf. induction l as [|x l IH]; [done|]. cbn [update_stream].
  case_if; rewrite !fmap_cons; [by rewrite Hf|by rewrite IH].
Qed.

(** Crediting [n] bytes on stream [t]. *)
Lemma keeps_streams_credit t n c c1 :
  c1 = with_streams (with_consumed c (remaining (consumed c + n))) (streams_after t n (streams c)) ->
  keeps_streams t n c c1.
Proof.
  intros ->. unfold keeps_streams, streams_after. cbn [streams with_streams with_consumed next_stream].
  rewrite ids_update by done. split_and!; [done..|]. intros s x'. rewrite find_update by done.
  unfold stream_total. destruct (s =? t) eqn:E; bool_hyps; [subst s|intros Hx; by exists x'].
  destruct (find_stream t (streams c)) as [x|] eqn:Ef; [|done]. simpl. intros [= <-]. by exists x.
Qed.

(** Closing forgets one stream. *)
Lemma find_close c s t x' :
  Forall stream_ok (streams c) -> NoDup (id <$> streams c) ->
  find_stream s (streams (close c t)) = Some x' -> find_stream s (streams c) = Some x'.
Proof.
  intros Hs. unfold close. cbn [streams with_streams].
  assert (forall l, Forall stream_ok l -> filter (fun x => open x = true) l = l) as Hall.
  { induction 1 as [|x l Hx _ IH]; [done|]. rewrite filter_cons_True by apply Hx. by rewrite IH. }
  induction Hs as [|x l Hx Hl IH]; simpl; [done|]. intros [Hni Hnd]%NoDup_cons.
  destruct (id x =? t) eqn:Et; bool_hyps.
  - rewrite filter_cons_False, Hall by done. intros Hf. case_if; [|done]. bool_hyps.
    exfalso. apply Hni. apply find_stream_In in Hf as [Hin Hid].
    apply list_elem_of_fmap. exists x'. split; [lia|by apply list_elem_of_In].
  - rewrite filter_cons_True by apply Hx. simpl. case_if; [done|]. by apply IH.
Qed.

Lemma ids_close c t : (id <$> streams (close c t)) `sublist_of` (id <$> streams c).
Proof.
  unfold close. cbn [streams with_streams].
  rewrite <- (ids_update t (fun x => mkStream (id x) (st_consumed x) false) (streams c)) by done.
  induction (update_stream _ _ _) as [|x l IH]; [done|]. destruct (decide (open x = true)).
  - rewrite filter_cons_True by done. by apply sublist_skip.
  - rewrite filter_cons_False by done. by apply sublist_cons.
Qed.

Lemma keeps_streams_close u t n c c' :
  Forall stream_ok (streams c') -> NoDup (id <$> streams c') -> keeps_streams t n c c' ->
  keeps_streams t n c (close c' u).
Proof.
  intros Hc Hnd (Hn & Hi & Hf). unfold keeps_streams. split_and!; [done| |].
  - etransitivity; [apply ids_close|done].
  - intros s x' Hx. apply Hf. by apply (find_close c' s u).
Qed.

Lemma apply_entries_kept n c payload :
  (length payload <= n)%nat ->
  consumed (apply_entries c payload) = consumed c /\ next_stream (apply_entries c payload) = next_stream c /\
  streams (apply_entries c payload) = streams c.
Proof.
  revert c payload; induction n as [|n IH]; intros c payload Hn.
  { by destruct payload; [|simpl in Hn; lia]. }
  do 6 (destruct payload as [|? payload]; [done|]). cbn [apply_entries].
  simpl in Hn. set (c1 := if _ =? settings.MAX_FRAME_SIZE then _ else _).
  destruct (IH c1 payload) as (-> & -> & ->); [lia|]. unfold c1. by repeat case_if.
Qed.

(** A frame taken that charges [n] bytes on stream [t], with our reply to it. *)
Definition accounted (t n : Z) (c c' : Connection) (reply : bytes) : Prop :=
  keeps_streams t n c c' /\ consumed c' = remaining (consumed c + n) /\
  forall s, granted s reply =
    (if 0 =? s then consumed c + n - remaining (consumed c + n) else 0) +
    (if t =? s then stream_total t n (streams c) - remaining (stream_total t n (streams c)) else 0).

(** A frame that charges nothing and is granted nothing. *)
Lemma accounted_quiet t c c' reply :
  conn_ok c -> consumed c' = consumed c -> keeps_streams t 0 c c' -> (forall s, granted s reply = 0) ->
  accounted t 0 c c' reply.
Proof.
  intros Hc Hcon Hk Hg. pose proof (ok_consumed _ Hc) as Hcc. unfold accounted, stream_total.
  rewrite Z.add_0_r, remaining_small by done. split_and!; [done..|]. intros s. rewrite Hg, Z.sub_diag.
  destruct (find_stream t (streams c)) as [x|] eqn:E; [|by repeat case_if].
  destruct (find_stream_ok c t x Hc E) as [(_ & Hx & _) _].
  rewrite Z.add_0_r, remaining_small, Z.sub_diag by done. by repeat case_if.
Qed.

Lemma accounted_close u t n c c' reply :
  Forall stream_ok (streams c') -> NoDup (id <$> streams c') -> accounted t n c c' reply ->
  accounted t n c (close c' u) reply.
Proof. intros ?? (? & ? & ?). split_and!; [by apply keeps_streams_close|done..]. Qed.

Lemma granted_nothing s out : granted s (ztake 0 out) = 0.
Proof. by rewrite ztake_0. Qed.

Lemma recv_headers_accounted c h payload out c' hs ev out' w :
  session_ok c -> recv_headers USIZE_BITS c h payload out = (c', hs, Ok (ev, out', w)) ->
  accounted 0 0 c c' (ztake w out').
Proof.
  intros [Hc Hnd _ _]. unfold recv_headers. destruct (match fh_kind h with Headers => _ | _ => _ end) as [c1 blk] eqn:E.
  assert (consumed c1 = consumed c /\ streams c1 = streams c /\ next_stream c1 = next_stream c) as (Hcon & Hs & Hn)
    by (by destruct (fh_kind h); injection E as <- _).
  destruct blk as [blk| | |]; try done. case_if; [done|]. case_if.
  - intros H. injection H as <- _ _ <- <-. apply accounted_quiet; [done..| |intros; apply granted_nothing].
    by apply keeps_streams_same.
  - destruct (decode _ _ _) as [[d hs'] r]. destruct r; try done. intros H. injection H as <- _ _ <- <-.
    apply accounted_quiet; [done|by case_if| |intros; apply granted_nothing].
    case_if; [|by apply keeps_streams_same]. apply keeps_streams_close; [| |by apply keeps_streams_same].
    + cbn [streams with_decoder with_block]. rewrite Hs. by apply ok_streams.
    + cbn [streams with_decoder with_block]. by rewrite Hs.
Qed.

Lemma credit_accounted c t n out c1 out1 w1 :
  session_ok c -> 0 <= n < 2 ^ 24 -> 0 <= t < 2 ^ 31 -> credit c t n out = (c1, Ok (out1, w1)) ->
  accounted t n c c1 (ztake w1 out1) /\ Forall stream_ok (streams c1) /\ NoDup (id <$> streams c1).
Proof.
  intros [Hc Hnd _ _] Hn Ht H. destruct (Z.eq_dec n 0) as [->|Hz].
  - injection H as <- <- <-. split_and!; [|by apply ok_streams|done].
    apply accounted_quiet; [done..| |]; [by apply keeps_streams_same|intros; apply granted_nothing].
  - destruct (credit_spec c t n out Hc ltac:(lia)) as (c1' & r & Hcr & _ & _ & Hok).
    rewrite Hcr in H. injection H as -> ->. destruct (Hok out1 w1 eq_refl) as (Hc1 & Hcon & tl & -> & ->).
    rewrite ztake_app_len by done. pose proof (ok_consumed _ Hc) as Hcc. change THRESHOLD with 524288 in Hcc.
    pose proof (keeps_streams_credit _ _ _ _ Hcon) as Hk.
    split; [|split; [by apply ok_streams|destruct Hk as (_ & Hi & _); by apply (sublist_NoDup _ _ Hnd)]].
    split_and!; [done|by rewrite Hcon|]. intros s. apply granted_credit; [lia| |done].
    apply stream_total_range; [done|lia].
Qed.

(** Every frame accepted is accounted for. *)
Lemma recv_accounted c b out c' hs ev out' w :
  session_ok c -> bytes_ok b -> recv USIZE_BITS c b out = (c', hs, Ok (ev, out', w)) ->
  accounted (data_frame b).1 (data_frame b).2 c c' (ztake w out').
Proof.
  intros Hss Hb. pose proof (ss_conn _ Hss) as Hc. unfold recv, data_frame. destruct (parse b) as [h| | |] eqn:Ep; try done.
  destruct (FrameFacts.parse_bounds b h Hb Ep) as [Hl Hst]. cbn [rbind].
  destruct (get_range HEADER_LEN (HEADER_LEN + fh_length h) b) as [payload|] eqn:Eg; [|done].
  apply get_range_Some in Eg as (Hr1 & Hr2 & Hpay). cbn [ok_or rbind].
  assert (len payload = fh_length h) as Hlen by (rewrite Hpay, len_sub_range; unfold HEADER_LEN in *; lia).
  assert (Hquiet : forall c2 reply, consumed c2 = consumed c -> next_stream c2 = next_stream c ->
    streams c2 = streams c -> (forall s, granted s reply = 0) -> accounted 0 0 c c2 reply).
  { intros. apply accounted_quiet; [done..| |done]. by apply keeps_streams_same. }
  unfold recv_frame. destruct (fh_kind h) eqn:Ek; cbn [fst snd]; intros H; try done;
    try (injection H as <- _ _ <- <-; apply Hquiet; [done..|intros; apply granted_nothing]).
  - unfold recv_data in H. destruct (strip_padding payload (fh_flags h)) as [data| | |]; try done.
    destruct (credit c (fh_stream h) (fh_length h) out) as [c1 [[out1 w1]| | |]] eqn:Ecr; try done.
    injection H as <- _ _ <- <-.
    destruct (credit_accounted c _ _ out c1 out1 w1 Hss Hl Hst Ecr) as (Ha & Hs1 & Hnd1).
    case_if; [by apply accounted_close|done].
  - by apply (recv_headers_accounted c h payload out c' hs ev).
  - destruct (read_u32 payload); [|done]. injection H as <- _ _ <- <-.
    apply accounted_close; [by apply ok_streams|by apply ss_unique|].
    apply Hquiet; [done..|intros; apply granted_nothing].
  - case_if; [injection H as <- _ _ <- <-; apply Hquiet; [done..|intros; apply granted_nothing]|].
    unfold apply_settings in H. case_if; [done|]. unfold reply in H. cbn [rbind] in H.
    rewrite FrameFacts.write_frame_layout in H. case_if; [|done]. injection H as <- _ _ <- <-.
    destruct (apply_entries_kept (length payload) c payload) as (? & ? & ?); [done|]. apply Hquiet; [done..|].
    intros s. exact (granted_ack s Settings flags.ACK [] (zdrop (9 + len (@nil Z)) out) eq_refl ltac:(done) ltac:(done)).
  - case_if; [injection H as <- _ _ <- <-; apply Hquiet; [done..|intros; apply granted_nothing]|].
    unfold reply in H. rewrite FrameFacts.write_frame_layout in H. case_if; [|done].
    injection H as <- _ _ <- <-. apply Hquiet; [done..|]. intros s.
    exact (granted_ack s Ping flags.ACK payload (zdrop (9 + len payload) out) eq_refl ltac:(done) ltac:(lia)).
  - destruct (let? p := get_range 4 8 payload in read_u32 p); [|done].
    injection H as <- _ _ <- <-. apply Hquiet; [done..|intros; apply granted_nothing].
  - by apply (recv_headers_accounted c h payload out c' hs ev).
Qed.

Lemma session_ok_keeps t n c c' : session_ok c -> conn_ok c' -> keeps_streams t n c c' -> session_ok c'.
Proof.
  intros [Hc Hnd Hb Hx] Hc' (Hn & Hi & _).
  split; [done|by apply (sublist_NoDup _ _ Hnd)| |by rewrite Hn].
  apply Forall_forall. intros i Hin. rewrite Hn. apply (proj1 (Forall_forall _ _) Hb).
  by apply (elem_of_sublist _ _ _ Hin).
Qed.

(** The charge of a frame is the credit it is answered with plus what the balance
    grew by; for a stream that is not there both are nothing. *)
Lemma frame_balance s c b c' reply :
  session_ok c -> accounted (data_frame b).1 (data_frame b).2 c c' reply ->
  match balance s c' with
  | Some a' => exists a, balance s c = Some a /\ charged s c b = granted s reply + a' - a
  | None => balance s c = None -> charged s c b = granted s reply
  end.
Proof.
  intros Hss (Hk & Hcon & Hg). rewrite Hg. unfold charged, balance, is_open.
  destruct (data_frame b) as [t n]. cbn [fst snd] in *. destruct (s =? 0) eqn:E0; bool_hyps.
  - subst s. exists (consumed c). split; [done|]. cbn [orb]. rewrite Z.eqb_refl, Hcon. case_if; [|lia].
    bool_hyps. subst t. unfold stream_total. destruct (find_stream 0 (streams c)) as [x|] eqn:Ef.
    + destruct (find_stream_ok c 0 x (ss_conn _ Hss) Ef) as [(? & _) ?]. lia.
    + change (remaining 0) with 0. lia.
  - rewrite (proj2 (Z.eqb_neq 0 s)) by lia. cbn [orb]. destruct Hk as (_ & _ & Hk).
    destruct (find_stream s (streams c')) as [x'|] eqn:Ef'; simpl.
    + destruct (Hk s x' Ef') as (x & Hx & ->). exists (st_consumed x). rewrite Hx, (Z.eqb_sym s t).
      split; [done|]. rewrite andb_true_r. case_if; [|lia]. bool_hyps. subst t. unfold stream_total. rewrite Hx. lia.
    + destruct (find_stream s (streams c)) as [x|] eqn:Ef; [done|]. intros _. rewrite andb_false_r.
      case_if; [|done]. bool_hyps. subst t. unfold stream_total. by rewrite Ef.
Qed.

Lemma find_app s l x :
  find_stream s (l ++ [x]) =
    match find_stream s l with Some y => Some y | None => if id x =? s then Some x else None end.
Proof. induction l as [|y l IH]; simpl; [done|]. case_if; [done|exact IH]. Qed.

(** A request opens the next stream with nothing consumed on it, or does nothing. *)
Lemma request_accounted c method path authority scheme extra body out c' r :
  session_ok c -> request c method path authority scheme extra body out = (c', r) -> returns r ->
  next_stream c <= next_stream c' /\
  (next_stream c' <= 2 ^ 31 -> session_ok c' /\
    forall s, balance s c' = balance s c \/
      (s = next_stream c /\ balance s c = None /\ balance s c' = Some 0)).
Proof.
  intros [Hc Hnd Hb Hx]. unfold request. destruct (len (streams c) =? MAX_STREAMS) eqn:Em; bool_hyps.
  { intros [= <- _] _. split; [done|]. intros _. split; [done|]. by left. }
  cbn [next_stream with_streams]. case_if; [by intros [= _ <-]|]. bool_hyps. intros [= <- _] _.
  cbn [next_stream with_next]. split; [lia|]. intros Hmax. destruct Hc as [Ht Hs Hn Hbl Hbn Hcc].
  set (i := next_stream c) in *. split.
  - split; cbn [streams with_next with_streams next_stream]; rewrite ?fmap_app; [split| | |lia]; try done;
      cbn [streams with_next with_streams].
    + apply Forall_app. split; [done|]. constructor; [|constructor]. by split_and!; cbn; lia || done.
    + rewrite len_app, len_cons, len_nil. lia.
    + apply NoDup_app. split_and!; [done| |apply NoDup_singleton]. intros j Hj ->%list_elem_of_singleton.
      pose proof (proj1 (Forall_forall _ _) Hb _ Hj) as Hlt. cbn in Hlt. lia.
    + apply Forall_app. split; [|constructor; [cbn; lia|constructor]].
      eapply Forall_impl; [exact Hb|]. cbn. lia.
  - intros s. unfold balance. cbn [consumed streams with_next with_streams].
    destruct (s =? 0); [by left|]. rewrite find_app. destruct (find_stream s (streams c)) as [x|] eqn:Ef; [by left|].
    cbn [id]. destruct (i =? s) eqn:Ei; bool_hyps; [right|by left]. by split_and!.
Qed.

Definition call_ok (x : Call) : Prop := match x with Ask _ _ _ _ _ _ _ => True | Take b _ => bytes_ok b end.

Lemma balance_below s c a : session_ok c -> balance s c = Some a -> s < next_stream c.
Proof.
  intros [Hc _ Hb Hx]. unfold balance. destruct (s =? 0) eqn:E; bool_hyps; [lia|].
  destruct (find_stream s (streams c)) as [x|] eqn:Ef; [|done]. intros _.
  apply find_stream_In in Ef as [Hin <-]. apply (proj1 (Forall_forall _ _) Hb).
  apply list_elem_of_fmap. exists x. split; [done|by apply list_elem_of_In].
Qed.

(** Stream ids only grow, whatever is received. *)
Lemma credit_next c s n out : next_stream (credit c s n out).1 = next_stream c.
Proof.
  assert (forall c o w, next_stream (credit_stream c s n o w).1 = next_stream c) as Hs.
  { intros. unfold credit_stream. destruct (find_stream _ _); [|done]. case_if; [done|]. case_if; [done|].
    by destruct (write_frame_at _ _ _ _ _ _) as [[]| | |]. }
  unfold credit. case_if; [done|]. case_if; [done|]. case_if; [by rewrite Hs|].
  destruct (write_frame _ _ _ _ _) as [[]| | |]; try done. by rewrite Hs.
Qed.

Lemma recv_headers_next c h payload out :
  next_stream (recv_headers USIZE_BITS c h payload out).1.1 = next_stream c.
Proof.
  unfold recv_headers. destruct (match fh_kind h with Headers => _ | _ => _ end) as [c1 blk] eqn:E.
  assert (next_stream c1 = next_stream c) as <- by (by destruct (fh_kind h); injection E as <- _).
  destruct blk as [blk| | |]; try done. case_if; [done|]. case_if; [done|].
  destruct (decode _ _ _) as [[d hs] []]; try done. by case_if.
Qed.

Lemma recv_next c b out : next_stream (recv USIZE_BITS c b out).1.1 = next_stream c.
Proof.
  unfold recv. destruct (let! h := parse b in _) as [[h payload]| | |]; try done.
  unfold recv_frame. destruct (fh_kind h); try done.
  - unfold recv_data. destruct (strip_padding _ _); try done. pose proof (credit_next c (fh_stream h) (fh_length h) out) as H.
    destruct (credit _ _ _ _) as [c1 [[o w]| | |]]; try done. simpl in *. by case_if.
  - apply recv_headers_next.
  - by destruct (read_u32 payload).
  - case_if; [done|]. unfold apply_settings. case_if; [done|]. simpl.
    apply (apply_entries_kept (length payload)). done.
  - by case_if.
  - by destruct (let? p := get_range 4 8 payload in read_u32 p).
  - apply recv_headers_next.
Qed.

Lemma session_next s calls c c' n g :
  session s c calls = Some (c', n, g) -> next_stream c <= next_stream c'.
Proof.
  revert c n g; induction calls as [|[method path authority scheme extra body out|b out] calls IH];
    intros c n g H; cbn [session] in H.
  - injection H as <- _ _. done.
  - destruct (request c method path authority scheme extra body out) as [c1 r] eqn:Er.
    assert (session s c1 calls = Some (c', n, g) /\ returns r) as [H1 Hr] by (by destruct r).
    specialize (IH _ _ _ H1). enough (next_stream c <= next_stream c1) by lia. revert Er. unfold request.
    case_if; [by intros [= <- _]|]. case_if; [by intros [= _ <-]|]. intros [= <- _]. cbn. lia.
  - pose proof (recv_next c b out) as Hn. destruct (recv USIZE_BITS c b out) as [[c1 hs] r].
    destruct r as [[[ev out'] w]| | |]; try done.
    destruct (session s c1 calls) as [[[c2 n2] g2]|] eqn:E; [|done]. injection H as <- _ _.
    specialize (IH _ _ _ E). simpl in Hn. lia.
Qed.

(** Over a run, what was charged is what was granted plus what is in the balance. *)
Lemma session_accounts s calls c c' n g :
  session_ok c -> Forall call_ok calls -> session s c calls = Some (c', n, g) -> next_stream c' <= 2 ^ 31 ->
  session_ok c' /\
  forall a', balance s c' = Some a' ->
    match balance s c with
    | Some a => n = g + a' - a
    | None => next_stream c <= s /\ n = g + a'
    end.
Proof.
  intros Hss Hf; revert c n g Hss; induction Hf as [|[method path authority scheme extra body out|b out] calls Hx Hf IH];
    intros c n g Hss H Hmax; cbn [session] in H.
  - injection H as <- <- <-. split_and!; [done..|]. intros a' ->. lia.
  - destruct (request c method path authority scheme extra body out) as [c1 r] eqn:Er.
    assert (returns r /\ session s c1 calls = Some (c', n, g)) as [Hr H1] by (by destruct r).
    destruct (request_accounted c _ _ _ _ _ _ _ c1 r Hss Er Hr) as [Hle Hopen].
    pose proof (session_next s calls c1 c' n g H1) as Hle1.
    destruct (Hopen ltac:(lia)) as [Hss1 Hbal]. destruct (IH c1 n g Hss1 H1 Hmax) as [Hss' Ha].
    split; [done|]. intros a' Ha'. specialize (Ha a' Ha').
    destruct (Hbal s) as [Heq|(-> & Hn & Hz)]; [rewrite <- Heq; destruct (balance s c1); lia|].
    rewrite Hn. rewrite Hz in Ha. lia.
  - pose proof (recv_good USIZE_BITS Husize c b out (ss_conn _ Hss) Hx) as Hg.
    destruct (recv USIZE_BITS c b out) as [[c1 hs] r] eqn:Er. destruct Hg as [_ Hok].
    destruct r as [[[ev out'] w]| | |]; try done.
    pose proof (recv_accounted c b out c1 hs ev out' w Hss Hx Er) as Hacc.
    pose proof (session_ok_keeps _ _ c c1 Hss (Hok eq_refl) (proj1 Hacc)) as Hss1.
    pose proof (frame_balance s c b c1 _ Hss Hacc) as Hfb. destruct Hacc as ((Hnext & _) & _).
    destruct (session s c1 calls) as [[[c2 n2] g2]|] eqn:E2; [|done]. injection H as <- <- <-.
    destruct (IH c1 n2 g2 Hss1 E2 Hmax) as [Hss' Ha]. split; [done|].
    intros a' Ha'. specialize (Ha a' Ha'). destruct (balance s c1) as [a1|].
    + destruct Hfb as (a & -> & Hch). lia.
    + destruct (balance s c) as [a|] eqn:Eb; [|specialize (Hfb eq_refl); lia].
      pose proof (balance_below s c a Hss Eb). lia.
Qed.

(** What [start] writes. *)
Definition start_bytes : bytes :=
  CLIENT_PREFACE ++
  FrameFacts.header_bytes (mkFrameHeader 18 Settings 0 0) ++
  (write_setting settings.ENABLE_PUSH 0 ++ write_setting settings.INITIAL_WINDOW_SIZE RECEIVE_WINDOW ++
   write_setting settings.MAX_CONCURRENT_STREAMS MAX_STREAMS) ++
  update_bytes 0 (RECEIVE_WINDOW - DEFAULT_WINDOW).

Lemma start_layout out :
  start out = if 64 <=? len out then Ok (start_bytes ++ zdrop 64 out, 64) else Err BufferTooSmall.
Proof.
  unfold start. change (len CLIENT_PREFACE) with 24. destruct (24 <=? len out) eqn:E24; bool_hyps; cycle 1.
  { rewrite (proj2 (Z.leb_gt 64 _)) by lia. destruct (get_range 0 24 out) eqn:Eg; [|done].
    apply get_range_Some in Eg as (_ & ? & _). lia. }
  rewrite get_range_in by lia. cbn [ok_or rbind]. unfold slice_copy, copy_at. cbn [fst snd].
  rewrite (proj2 (Z.leb_le 24 _)) by lia. change (len CLIENT_PREFACE) with 24.
  change ((0 <=? 0) && (0 <=? 24) && true && (24 =? 24 - 0)) with true. cbv iota. cbn [or_panic rbind].
  rewrite ztake_0, app_nil_l by lia. set (payload := write_setting _ _ ++ _ ++ _).
  assert (len payload = 18) as Hp by done.
  assert (len (CLIENT_PREFACE ++ zdrop 24 out) = len out) as Hl1 by
    (rewrite len_app, len_zdrop; change (len CLIENT_PREFACE) with 24; lia).
  rewrite write_frame_at_layout by lia. rewrite Hl1, Hp.
  destruct (9 + 18 <=? len out - 24) eqn:E51; bool_hyps; cbn [rbind]; [|by rewrite (proj2 (Z.leb_gt 64 _)) by lia].
  rewrite ztake_app_len by done. set (h1 := FrameFacts.header_bytes _).
  assert (len h1 = 9) as Hh1 by apply FrameFacts.len_header_bytes.
  assert (zdrop (24 + (9 + 18)) (CLIENT_PREFACE ++ zdrop 24 out) = zdrop 51 out) as ->.
  { rewrite <- zdrop_zdrop, zdrop_app_len, zdrop_zdrop by done. done. }
  set (x := CLIENT_PREFACE ++ h1 ++ payload).
  assert (CLIENT_PREFACE ++ h1 ++ payload ++ zdrop 51 out = x ++ zdrop 51 out) as ->
    by (unfold x; by rewrite <- !app_assoc).
  assert (len x = 51) as Hx by (unfold x; rewrite !len_app, Hh1, Hp; done).
  rewrite write_frame_at_layout, len_to_be by llia. change (Z.of_nat 4) with 4.
  rewrite len_app, len_zdrop, Hx. replace (9 + 4 <=? _) with (64 <=? len out) by (apply Bool.eq_iff_eq_true; rewrite !Z.leb_le; lia).
  case_if; [|done]. rewrite ztake_app_len, <- (zdrop_zdrop 13 51), zdrop_app_len, zdrop_zdrop by lia.
  unfold start_bytes, x, update_bytes. by rewrite <- !app_assoc.
Qed.

(** C39: A long response never stalls on flow control.  On a connection that was
    opened by [start], after any run of requests and of accepted frames of
    whatever types, the connection and every stream that is open keep a window
    above half of [RECEIVE_WINDOW]: what the peer was given (by the
    INITIAL_WINDOW_SIZE setting and the WINDOW_UPDATE it reads in what [start]
    wrote), less the DATA it sent, plus the credit it read in our replies.
    Stream ids are below 2^31, as the protocol has them. *)
Theorem window_never_starves (out wire : bytes) (w : Z) (calls : list Call) (s : Z) (c : Connection) (n g : Z) :
  start out = Ok (wire, w) -> Forall call_ok calls ->
  session s conn.new calls = Some (c, n, g) -> next_stream c <= 2 ^ 31 -> s = 0 \/ is_open s c = true ->
  opening_window s (ztake w wire) - n + g > RECEIVE_WINDOW / 2.
Proof.
  rewrite start_layout. case_if; [|done]. intros Hs Hf H Hmax Hopen.
  assert (ztake w wire = start_bytes) as ->.
  { set (x := start_bytes) in *. assert (len x = 64) as Hx by reflexivity. clearbody x.
    injection Hs as <- <-. by apply ztake_app_len. }
  assert (opening_window s start_bytes = RECEIVE_WINDOW) as ->.
  { unfold opening_window. case_if; vm_compute; reflexivity. }
  assert (session_ok conn.new) as Hnew by (split; [apply conn_ok_new|constructor..|done]).
  destruct (session_accounts s calls conn.new c n g Hnew Hf H Hmax) as [[Hc _ _ _] Ha].
  assert (exists a, balance s c = Some a /\ 0 <= a < THRESHOLD) as (a & Hb & Hr).
  { unfold balance, is_open in *. destruct (s =? 0) eqn:E; bool_hyps; [exists (consumed c); split; [done|by apply ok_consumed]|].
    destruct (find_stream s (streams c)) as [x|] eqn:Ef; [|by destruct Hopen].
    exists (st_consumed x). split; [done|]. by destruct (find_stream_ok c s x Hc Ef) as [(_ & ? & _) _]. }
  specialize (Ha a Hb). change THRESHOLD with 524288 in Hr. change (RECEIVE_WINDOW / 2) with 524288.
  change RECEIVE_WINDOW with 1048576. unfold balance in Ha. cbn [streams conn.new find_stream] in Ha.
  change (consumed conn.new) with 0 in Ha. destruct (s =? 0); simpl in Ha; lia.
Qed.

(** An unpadded DATA frame, with room for two window updates. *)
Lemma recv_data_frame (c : Connection) (fl s : Z) (payload tl out : bytes) :
  conn_ok c -> len payload < 2 ^ 24 -> 0 <= s < 2 ^ 31 -> Z.land fl flags.PADDED = 0 -> 26 <= len out ->
  let b := FrameFacts.header_bytes (mkFrameHeader (len payload) Data fl s) ++ payload ++ tl in
  exists c' out' w,
    recv USIZE_BITS c b out =
      (c', [], Ok (EData s payload (negb (Z.land fl flags.END_STREAM =? 0)), out', w)) /\ conn_ok c' /\ 0 <= w <= len out'.
Proof.
  intros Hc Hp Hs Hpad Hout b. unfold recv, b.
  pose proof (FrameFacts.parse_header (mkFrameHeader (len payload) Data fl s) (payload ++ tl)) as Hparse.
  rewrite Hparse by (simpl; lia). cbn [fh_length fh_kind fh_flags fh_stream from_byte to_byte rbind].
  rewrite !Z.mod_small by (nonneg_lens; lia). set (h := mkFrameHeader _ _ _ _).
  rewrite get_range_mid; [|by rewrite FrameFacts.len_header_bytes|by rewrite FrameFacts.len_header_bytes].
  cbn [ok_or rbind]. unfold recv_frame. cbn [fh_kind h]. unfold recv_data, strip_padding.
  cbn [fh_flags h]. rewrite Hpad. cbn [Z.eqb fh_stream fh_length h]. unfold has. cbn [fh_flags].
  assert (forall c1, conn_ok c1 ->
    conn_ok (if negb (Z.land fl flags.END_STREAM =? 0) then close c1 s else c1)) as Hfin.
  { intros c1 Hc1. case_if; [by apply close_ok|done]. }
  destruct (Z.eq_dec (len payload) 0) as [Hz|Hz].
  - unfold credit. rewrite Hz. cbn [Z.eqb]. do 3 eexists. split_and!; [done|by apply Hfin|lia|lia].
  - destruct (credit_spec c s (len payload) out Hc ltac:(nonneg_lens; lia)) as (c1 & r & -> & _ & Hfit & Hok).
    specialize (Hfit Hout). destruct r as [[out1 w]| | |]; try done.
    destruct (Hok out1 w eq_refl) as (Hc1 & _ & t & -> & ->).
    do 3 eexists. split; [done|]. split; [by apply Hfin|]. rewrite !len_app. nonneg_lens. lia.
Qed.

(** A DATA frame is always delivered.  With room for two window updates, an
    unpadded DATA frame is accepted in any well-formed state, its payload is
    handed over byte for byte, and the connection stays well-formed; so a stream
    of them never ends in an error. *)
Theorem data_delivered (c : Connection) (fl s : Z) (payload tl out : bytes) :
  conn_ok c -> len payload < 2 ^ 24 -> 0 <= s < 2 ^ 31 -> Z.land fl flags.PADDED = 0 -> 26 <= len out ->
  let b := FrameFacts.header_bytes (mkFrameHeader (len payload) Data fl s) ++ payload ++ tl in
  exists c' out' w,
    recv USIZE_BITS c b out =
      (c', [], Ok (EData s payload (negb (Z.land fl flags.END_STREAM =? 0)), out', w)) /\ conn_ok c'.
Proof.
  intros Hc Hp Hs Hpad Hout. destruct (recv_data_frame c fl s payload tl out Hc Hp Hs Hpad Hout) as (c' & out' & w & H & Hc' & _).
  by exists c', out', w.
Qed.

End Flow.

(** A request, and a response of one HEADERS frame and two DATA frames. *)
Definition example_data (n : Z) : bytes :=
  FrameFacts.header_bytes (mkFrameHeader n Data 0 1) ++ zeros n.
Definition example_calls : list Call :=
  Ask (bs "GET") (bs "/") (bs "control") (bs "https") [] [] (zeros 128) ::
  Take [0; 0; 1; 1; 4; 0; 0; 0; 1; 0x88] (zeros 26) ::
  map (fun n => Take (example_data n) (zeros 26)) [200; 400].

Lemma window_never_starves_witness :
  exists wire w c n g, start (zeros 64) = Ok (wire, w) /\
    session 32 1 conn.new example_calls = Some (c, n, g) /\ (n, g) = (600, 0) /\ is_open 1 c = true /\
    opening_window 1 (ztake w wire) - n + g > RECEIVE_WINDOW / 2.
Proof.
  destruct (start (zeros 64)) as [[wire w]| | |] eqn:Es; try (vm_compute in Es; discriminate Es).
  destruct (session 32 1 conn.new example_calls) as [[[c n] g]|] eqn:E; [|vm_compute in E; discriminate E].
  assert ((is_open 1 c, next_stream c <=? 2 ^ 31, n, g) = (true, true, 600, 0)) as [= Ho Hn -> ->].
  { enough ((let? (c, n, g) := session 32 1 conn.new example_calls in
             Some (is_open 1 c, next_stream c <=? 2 ^ 31, n, g)) = Some (true, true, 600, 0)) as H
      by (rewrite E in H; injection H as -> -> -> ->; reflexivity). vm_compute. reflexivity. }
  exists wire, w, c, 600, 0. split; [reflexivity|]. split; [reflexivity|]. split; [reflexivity|]. split; [exact Ho|].
  apply (window_never_starves 32 ltac:(lia) (zeros 64) wire w example_calls 1 c _ _ Es);
    [|exact E|by apply Z.leb_le|by right].
  repeat constructor; vm_compute; discriminate.
Defined.

Lemma data_delivered_witness :
  exists c' out' w,
    recv 32 conn.new (FrameFacts.header_bytes (mkFrameHeader (len [1; 2; 3]) Data 1 1) ++ [1; 2; 3] ++ []) (zeros 26) =
      (c', [], Ok (EData 1 [1; 2; 3] true, out', w)) /\ conn_ok c'.
Proof.
  apply (data_delivered 32 conn.new 1 1 [1; 2; 3] [] (zeros 26));
    [apply conn_ok_new|reflexivity|lia|reflexivity|vm_compute; discriminate].
Defined.

(** ** Requests *)

(** The request's frames on the wire. *)
Definition request_bytes (i : Z) (hs : list (bytes * bytes)) (body : bytes) : bytes :=
  let block := block_bytes hs in
  FrameFacts.header_bytes (mkFrameHeader (len block) Headers (if len body =? 0 then 5 else 4) i) ++ block ++
  (if len body =? 0 then []
   else FrameFacts.header_bytes (mkFrameHeader (len body) Data flags.END_STREAM i) ++ body).

(** What a request puts on the wire.  With a free stream, a block that fits
    one frame of the peer's size and the buffer long enough, [request] opens the
    next odd stream, writes one HEADERS frame (ending the stream when there is no
    body) and one DATA frame with the body, and any decoder reads the header
    block back as the pseudo-headers in their order followed by the extras. *)
Theorem request_wire (USIZE_BITS : Z) (c : Connection) (method path authority scheme body out : bytes)
    (extra : list (bytes * bytes)) (d : DynamicTable.t) :
  let hs := request_headers method path authority scheme extra in
  let i := next_stream c in
  16 <= USIZE_BITS -> Forall header_ok hs -> len (streams c) < MAX_STREAMS -> i + 2 <= U32_MAX ->
  len (block_bytes hs) <= MAX_HEADER_BLOCK -> len (block_bytes hs) <= peer_max_frame c ->
  len body <= peer_max_frame c -> len (request_bytes i hs body) <= len out ->
  exists c' out',
    request c method path authority scheme extra body out =
      (c', Ok (i, out', len (request_bytes i hs body))) /\
    ztake (len (request_bytes i hs body)) out' = request_bytes i hs body /\
    streams c' = streams c ++ [mkStream i 0 true] /\ next_stream c' = i + 2 /\
    decode USIZE_BITS d (block_bytes hs) = (d, hs, Ok tt).
Proof.
  intros hs i Hu Hok Hs Hi Hblk Hmax Hbody Hout. unfold request. fold i.
  rewrite (proj2 (Z.eqb_neq _ _)) by lia. cbn [next_stream with_streams with_next]. fold i.
  rewrite (proj2 (Z.ltb_ge _ _)) by lia. fold hs. set (c' := with_next _ _).
  assert (request_frames c' i hs body out =
    Ok (i, request_bytes i hs body ++ zdrop (len (request_bytes i hs body)) out, len (request_bytes i hs body))) as ->.
  2: { do 2 eexists. split; [done|]. split_and!; try done; [by apply ztake_app_len|].
       by apply decode_block. }
  unfold request_frames.
  pose proof (appends_block hs Hok [] (zeros MAX_HEADER_BLOCK)) as He. cbn [app] in He.
  change (len (@nil Z)) with 0 in He. rewrite He. change (len (zeros MAX_HEADER_BLOCK)) with 4096.
  unfold MAX_HEADER_BLOCK in Hblk. rewrite (proj2 (Z.leb_le _ _)) by done. cbn [rbind]. rewrite Z.add_0_l.
  change (peer_max_frame c') with (peer_max_frame c). rewrite (proj2 (Z.ltb_ge _ _)) by done.
  pose proof (get_range_mid 0 (len (block_bytes hs)) [] (block_bytes hs)
    (zdrop (len (block_bytes hs)) (zeros MAX_HEADER_BLOCK))) as Hg. cbn [app] in Hg.
  unfold slice. cbn [fst snd]. rewrite Hg by done. cbn [or_panic rbind].
  rewrite FrameFacts.write_frame_layout. unfold HEADER_LEN.
  unfold request_bytes in *. set (block := block_bytes hs) in *.
  assert (Z.lor flags.END_HEADERS (if len body =? 0 then flags.END_STREAM else 0) =
    (if len body =? 0 then 5 else 4)) as -> by by case_if.
  set (h1 := FrameFacts.header_bytes _) in *. assert (len h1 = 9) as Hh1 by apply FrameFacts.len_header_bytes.
  clearbody h1.
  rewrite !len_app, Hh1 in Hout. nonneg_lens. rewrite (proj2 (Z.leb_le _ _)) by lia. cbn [rbind].
  destruct (len body =? 0) eqn:Eb; rewrite ?Eb in Hout; bool_hyps.
  { rewrite app_nil_r, len_app, Hh1. by rewrite <- app_assoc. }
  rewrite (proj2 (Z.ltb_ge _ _)) by done.
  assert (len (h1 ++ block ++ zdrop (9 + len block) out) = len out) as Hlo by llia.
  rewrite write_frame_at_layout by lia. rewrite Hlo.
  set (h2 := FrameFacts.header_bytes _) in *. assert (len h2 = 9) as Hh2 by apply FrameFacts.len_header_bytes.
  rewrite len_app, Hh2 in Hout. rewrite (proj2 (Z.leb_le _ _)) by lia. cbn [rbind].
  rewrite !len_app, Hh1, Hh2. do 2 f_equal; [|lia]. f_equal.
  rewrite (app_assoc h1 block), ztake_app_len by (rewrite len_app; lia). rewrite <- !app_assoc. do 4 f_equal.
  rewrite (app_assoc h1 block). rewrite <- (zdrop_zdrop (9 + len body) (9 + len block)) by lia.
  rewrite zdrop_app_len by (rewrite len_app; lia). rewrite zdrop_zdrop by lia. f_equal. lia.
Qed.

Lemma request_wire_witness :
  let hs := request_headers (bs "POST") (bs "/machine/map") (bs "control") (bs "https") [(bs "x-a", bs "1")] in
  exists c' out',
    request conn.new (bs "POST") (bs "/machine/map") (bs "control") (bs "https") [(bs "x-a", bs "1")] [1; 2; 3] (zeros 128) =
      (c', Ok (1, out', len (request_bytes 1 hs [1; 2; 3]))) /\
    ztake (len (request_bytes 1 hs [1; 2; 3])) out' = request_bytes 1 hs [1; 2; 3] /\
    streams c' = streams conn.new ++ [mkStream 1 0 true] /\ next_stream c' = 1 + 2 /\
    decode 32 (DynamicTable.new 4096) (block_bytes hs) = (DynamicTable.new 4096, hs, Ok tt).
Proof.
  apply (request_wire 32 conn.new (bs "POST") (bs "/machine/map") (bs "control") (bs "https") [1; 2; 3]
    (zeros 128) [(bs "x-a", bs "1")] (DynamicTable.new 4096));
    first [lia | vm_compute; (reflexivity || discriminate) | repeat constructor; vm_compute; discriminate].
Defined.

(** The opening raises both windows.  With 64 bytes of room [start] writes the
    preface, one SETTINGS frame and one WINDOW_UPDATE, from which a peer reads
    [RECEIVE_WINDOW] for the connection and for every stream. *)
Theorem start_raises_window (out : bytes) (s : Z) :
  64 <= len out ->
  exists out', start out = Ok (out', 64) /\ ztake 24 out' = CLIENT_PREFACE /\
    opening_window s (ztake 64 out') = RECEIVE_WINDOW.
Proof.
  intros Hout. rewrite start_layout, (proj2 (Z.leb_le _ _)) by done. eexists. split; [done|].
  split; [unfold start_bytes; rewrite <- app_assoc; by apply ztake_app_len|]. rewrite ztake_app_len by done.
  unfold opening_window. case_if; vm_compute; reflexivity.
Qed.

Lemma start_raises_window_witness :
  exists out', start (zeros 100) = Ok (out', 64) /\ ztake 24 out' = CLIENT_PREFACE /\
    opening_window 1 (ztake 64 out') = RECEIVE_WINDOW.
Proof. apply (start_raises_window (zeros 100) 1). vm_compute; discriminate. Defined.

(** ** Where the connection departs from the protocol *)

(** A HEADERS frame with one indexed field, and a CONTINUATION with none. *)
Definition one_header : bytes := [0; 0; 1; 1; 4; 0; 0; 0; 1; 0x88].
Definition stray_continuation : bytes := [0; 0; 0; 9; 4; 0; 0; 0; 3].

(** A CONTINUATION frame that continues nothing is accepted.  After a
    complete header block the reassembly buffer is not cleared and the stream
    not checked, so an empty CONTINUATION on another stream reports the previous
    block's headers once more, for the previous stream. *)
Theorem stray_continuation_replays :
  let '(c1, hs1, r1) := recv 32 conn.new one_header (zeros 64) in
  let '(c2, hs2, r2) := recv 32 c1 stray_continuation (zeros 64) in
  hs1 = [(bs ":status", bs "200")] /\ hs2 = hs1 /\ r1 = Ok (EHeaders 1 false, zeros 64, 0) /\ r2 = r1.
Proof. vm_compute. by split_and!. Qed.

(** A SETTINGS frame empties the decoder's table.  HEADER_TABLE_SIZE governs
    the table of our encoder; the code replaces its decoder, so every entry the
    peer has inserted stops resolving, in any state of the connection. *)
Theorem table_size_setting_forgets (USIZE_BITS : Z) (c : Connection) (n : Z) (out : bytes) :
  is_u32 n -> HEADER_LEN <= len out ->
  let b := FrameFacts.header_bytes (mkFrameHeader 6 Settings 0 0) ++ write_setting settings.HEADER_TABLE_SIZE n ++ [] in
  exists c' out', recv USIZE_BITS c b out = (c', [], Ok (Nothing, out', 9)) /\
    forall i, static_table.DYNAMIC_BASE <= i -> DynamicTable.lookup (decoder c') i = Err Hpack.
Proof.
  intros Hn Hout b. unfold recv, b.
  rewrite FrameFacts.parse_header by (simpl; lia). cbn [fh_length fh_kind fh_flags fh_stream from_byte to_byte rbind].
  rewrite get_range_mid; [|done|done]. cbn [ok_or rbind]. unfold recv_frame. cbn [fh_kind].
  unfold has. cbn [fh_flags]. change (negb (Z.land 0 flags.ACK =? 0)) with false. cbv iota.
  unfold apply_settings. change (len (write_setting settings.HEADER_TABLE_SIZE n) mod 6 =? 0) with true. cbn [negb].
  unfold reply. cbn [rbind]. rewrite FrameFacts.write_frame_layout.
  rewrite (proj2 (Z.leb_le _ _)) by (rewrite len_nil, Z.add_0_r; done). cbn [rbind].
  do 2 eexists. split; [done|]. intros i Hi.
  unfold write_setting. pose proof (len_to_be 4 n) as Hl.
  destruct (to_be 4 n) as [|a [|e [|f [|g [|? ?]]]]]; try (exfalso; llia).
  cbn -[DynamicTable.lookup of_be static_table.DYNAMIC_BASE].
  unfold DynamicTable.lookup. rewrite (proj2 (Z.ltb_ge _ _)) by done.
  unfold DynamicTable.get. rewrite (proj2 (Z.ltb_ge _ _)) by done. cbn [DynamicTable.entries DynamicTable.new].
  unfold get_at. by case_if.
Qed.

Lemma table_size_setting_forgets_witness :
  exists c' out',
    recv 32 (with_decoder conn.new (DynamicTable.insert (DynamicTable.new 4096) (bs "etag") (bs "1")))
      (FrameFacts.header_bytes (mkFrameHeader 6 Settings 0 0) ++ write_setting settings.HEADER_TABLE_SIZE 4096 ++ [])
      (zeros 64) = (c', [], Ok (Nothing, out', 9)) /\
    forall i, static_table.DYNAMIC_BASE <= i -> DynamicTable.lookup (decoder c') i = Err Hpack.
Proof.
  apply (table_size_setting_forgets 32
    (with_decoder conn.new (DynamicTable.insert (DynamicTable.new 4096) (bs "etag") (bs "1"))) 4096 (zeros 64));
    [split; vm_compute; (reflexivity || discriminate)|vm_compute; discriminate].
Defined.
