(* ===== verification/Gateway.v ===== *)
(** * Network address translation

    [firmware/src/nat.rs] and [firmware/src/inner.rs]: the two flow tables, the
    internet checksum and its incremental update, the rewriting of TCP segments,
    MSS clamping, and the parsing and building of UDP datagrams.  None of these
    functions has an error type, so their results are [res Empty_set]: a value or
    a panic. *)

From S2P Require Import Prelude Timers.

Abbreviation out A := (res Empty_set A).

(** A big-endian [u16] at offset [i] of a slice; panics out of range. *)
Definition u16_at (i : Z) (b : bytes) : out Z :=
  let! x := slice (i, i + 2) b in Ok (of_be x).
Definition byte_at (i : Z) (b : bytes) : out Z := or_panic (get_at i b).

(** ** The internet checksum *)

(** [bytes.chunks_exact(2)] as words; an odd byte is left out. *)
Fixpoint pairs (b : bytes) : list Z :=
  match b with
  | a :: c :: b => of_be [a; c] :: pairs b
  | _ => []
  end.

(** The words of a sum: the pairs, then the odd byte in the high half.  A [u32]
    holds the sum of any packet. *)
Fixpoint words (b : bytes) : list Z :=
  match b with
  | a :: c :: b => of_be [a; c] :: words b
  | [last] => [Z.shiftl last 8]
  | [] => []
  end.
Definition words_sum (b : bytes) : Z := foldr Z.add 0 (words b).

(** [while sum >> 16 != 0 { sum = (sum & 0xffff) + (sum >> 16) }]; a [u32] is
    folded after two turns. *)
Fixpoint fold_carry (n : nat) (sum : Z) : Z :=
  match n with
  | O => sum
  | S n => if Z.shiftr sum 16 =? 0 then sum else fold_carry n (Z.land sum 0xffff + Z.shiftr sum 16)
  end.

(** [!(sum as u16)] of the folded sum. *)
Definition finish (sum : Z) : Z := bitnot 16 (wrap 16 (fold_carry 3 sum)).

Module inner.

Definition checksum (b : bytes) : Z := finish (words_sum b).

Definition PROTO_ICMP : Z := 1.
Definition ECHO_REQUEST : Z := 8.
Definition ECHO_REPLY : Z := 0.

(** The reply written over the front of [o], and its length. *)
Definition icmp_echo_reply (packet our_ip o : bytes) : out (option (bytes * Z)) :=
  if (len packet <? 20) || negb (Z.shiftr (at_ 0 packet) 4 =? 4) then Ok None else
  let header_len := Z.land (at_ 0 packet) 0x0f * 4 in
  if negb (at_ 9 packet =? PROTO_ICMP) || (len packet <? header_len + 8) then Ok None else
  let! dst := slice (16, 20) packet in
  let! ty := byte_at header_len packet in
  if negb (bytes_eqb dst our_ip) || negb (ty =? ECHO_REQUEST) then Ok None else
  match get_range 0 (len packet) o with
  | None => Ok None
  | Some _ =>
      let! src := slice (12, 16) packet in
      let! r := slice_copy (16, 20) src packet in
      let! r := slice_copy (12, 16) dst r in
      let! r := or_panic (set_at 8 64 r) in
      let! r := or_panic (fill_zero 10 12 r) in
      let! head := slice (0, header_len) r in
      let! r := slice_copy (10, 12) (to_be 2 (checksum head)) r in
      let! r := or_panic (set_at header_len ECHO_REPLY r) in
      let! r := or_panic (fill_zero (header_len + 2) (header_len + 4) r) in
      let! body := slice (header_len, len r) r in
      let! r := slice_copy (header_len + 2, header_len + 4) (to_be 2 (checksum body)) r in
      Ok (Some (r ++ zdrop (len packet) o, len packet))
  end.

End inner.

Module nat.

Definition SLOTS : Z := 4.
Definition EXT_PORT_BASE : Z := 40000.
Definition IDLE_TIMEOUT_MS : Z := 30000.
Definition PROTO_UDP : Z := 17.
Definition IPV4_HEADER_LEN : Z := 20.
Definition UDP_HEADER_LEN : Z := 8.
Definition MAX_PAYLOAD : Z := INNER_MTU - IPV4_HEADER_LEN - UDP_HEADER_LEN.
Definition TCP_SLOTS : Z := 16.
Definition TCP_EXT_PORT_BASE : Z := 41000.
Definition TCP_IDLE_TIMEOUT_MS : Z := 120000.
Definition PROTO_TCP : Z := 6.
Definition TCP_HEADER_LEN : Z := 20.
Definition TCP_FLAG_SYN : Z := 0x02.
Definition TCP_FLAG_RST : Z := 0x04.
Definition OPTION_END : Z := 0.
Definition OPTION_NOP : Z := 1.
Definition OPTION_MSS : Z := 2.
Definition MAX_MSS : Z := wrap 16 (INNER_MTU - IPV4_HEADER_LEN - TCP_HEADER_LEN).

(** ** Flow tables *)

Record Flow := mkFlow {
  client_ip : bytes;
  client_port : Z;
  server_ip : bytes;
  server_port : Z;
  last_used_ms : Z;
}.

(** The slots, each free or holding a flow. *)
Abbreviation table := (list (option Flow)).

Definition new_table (slots : Z) : table := replicate (Z.to_nat slots) None.

(** The four values a flow is found by. *)
Definition key : Type := (bytes * Z * bytes * Z)%type.
Definition key_of (f : Flow) : key := (client_ip f, client_port f, server_ip f, server_port f).
Definition matches (k : key) (f : Flow) : bool :=
  let '(ci, cp, si, sp) := k in
  bytes_eqb (client_ip f) ci && (client_port f =? cp) && bytes_eqb (server_ip f) si && (server_port f =? sp).
Definition flow_of (k : key) (now_ms : Z) : Flow :=
  let '(ci, cp, si, sp) := k in mkFlow ci cp si sp now_ms.
Definition with_last_used (f : Flow) (now_ms : Z) : Flow := flow_of (key_of f) now_ms.

Definition holds (k : key) (o : option Flow) : bool :=
  match o with Some f => matches k f | None => false end.

Definition is_idle (idle now_ms : Z) (f : Flow) : bool :=
  idle <=? saturating_sub now_ms (last_used_ms f).

(** [.enumerate().filter(idle).min_by_key(last_used_ms)]: the first of the least
    recently used. *)
Fixpoint least_recent (idle now_ms : Z) (i : nat) (l : table) : option (nat * Z) :=
  match l with
  | [] => None
  | o :: l =>
      let rest := least_recent idle now_ms (S i) l in
      match o with
      | Some f =>
          if is_idle idle now_ms f then
            match rest with
            | Some (j, t) => if last_used_ms f <=? t then Some (i, last_used_ms f) else Some (j, t)
            | None => Some (i, last_used_ms f)
            end
          else rest
      | None => rest
      end
  end.

Definition is_free (o : option Flow) : bool := match o with None => true | Some _ => false end.

Definition victim (idle now_ms : Z) (t : table) : option nat :=
  match position is_free t with
  | Some i => Some i
  | None => fst <$> least_recent idle now_ms 0 t
  end.

(** [slot_for] of both tables, which differ in their timeout. *)
Definition slot_for (idle : Z) (t : table) (k : key) (now_ms : Z) : table * option nat :=
  match position (holds k) t with
  | Some i => (alter (fmap (fun f => with_last_used f now_ms)) i t, Some i)
  | None =>
      match victim idle now_ms t with
      | Some i => (<[i := Some (flow_of k now_ms)]> t, Some i)
      | None => (t, None)
      end
  end.

Definition udp_slot_for : table -> key -> Z -> table * option nat := slot_for IDLE_TIMEOUT_MS.
Definition tcp_slot_for : table -> key -> Z -> table * option nat := slot_for TCP_IDLE_TIMEOUT_MS.

Definition get (t : table) (slot : nat) : option Flow := mjoin (t !! slot).

Definition touch (t : table) (slot : nat) (now_ms : Z) : table :=
  alter (fmap (fun f => with_last_used f now_ms)) slot t.

Definition release (t : table) (slot : nat) : table := <[slot := None]> t.

(** ** TCP *)

Record TcpInfo := mkTcpInfo {
  src_port : Z; dst_port : Z; src_ip : bytes; dst_ip : bytes; is_rst : bool;
}.

Definition not_ipv4 (proto : Z) (packet : bytes) : bool :=
  (len packet <? IPV4_HEADER_LEN) || negb (Z.shiftr (at_ 0 packet) 4 =? 4) || negb (at_ 9 packet =? proto).

Definition ihl (packet : bytes) : Z := Z.land (at_ 0 packet) 0x0f * 4.

Definition parse_tcp4 (packet : bytes) : out (option TcpInfo) :=
  if not_ipv4 PROTO_TCP packet then Ok None else
  match get_range (ihl packet) (len packet) packet with
  | None => Ok None
  | Some tcp =>
      if len tcp <? TCP_HEADER_LEN then Ok None else
      let! sp := u16_at 0 tcp in
      let! dp := u16_at 2 tcp in
      let! si := slice (12, 16) packet in
      let! di := slice (16, 20) packet in
      let! fl := byte_at 13 tcp in
      Ok (Some (mkTcpInfo sp dp si di (negb (Z.land fl TCP_FLAG_RST =? 0))))
  end.

Definition adjust_checksum (old_sum : Z) (old new : bytes) : Z :=
  finish (bitnot 16 old_sum + foldr Z.add 0 (map (bitnot 16) (pairs old)) + foldr Z.add 0 (pairs new)).

Definition rewrite_ip_checksum (ip : bytes) : out bytes :=
  let! ip := or_panic (fill_zero 10 12 ip) in
  let! head := slice (0, IPV4_HEADER_LEN) ip in
  slice_copy (10, 12) (to_be 2 (inner.checksum head)) ip.

Definition tcp_offset (packet : bytes) : option Z :=
  if not_ipv4 PROTO_TCP packet then None else
  if len packet <? ihl packet + TCP_HEADER_LEN then None else Some (ihl packet).

(** [packet.split_at_mut(n)] *)
Definition split_at (n : Z) (packet : bytes) : out (bytes * bytes) :=
  let! a := slice (0, n) packet in
  let! b := slice (n, len packet) packet in
  Ok (a, b).

(** The translation of one end: the address at [ip[a..a+4]], the port at
    [tcp[p..p+2]]. *)
Definition rewrite_end (a p : Z) (packet ip' : bytes) (port' : Z) : out (bytes * bool) :=
  match tcp_offset packet with
  | None => Ok (packet, false)
  | Some header_len =>
      let! '(ip, tcp) := split_at header_len packet in
      let! old_sum := u16_at 16 tcp in
      let! old_ip := slice (a, a + 4) ip in
      let sum := adjust_checksum old_sum old_ip ip' in
      let! old_port := slice (p, p + 2) tcp in
      let sum := adjust_checksum sum old_port (to_be 2 port') in
      let! tcp := slice_copy (16, 18) (to_be 2 sum) tcp in
      let! tcp := slice_copy (p, p + 2) (to_be 2 port') tcp in
      let! ip := slice_copy (a, a + 4) ip' ip in
      let! ip := rewrite_ip_checksum ip in
      Ok (ip ++ tcp, true)
  end.

Definition rewrite_tcp_outbound : bytes -> bytes -> Z -> out (bytes * bool) := rewrite_end 12 0.
Definition rewrite_tcp_inbound : bytes -> bytes -> Z -> out (bytes * bool) := rewrite_end 16 2.

(** The option loop of [clamp_mss], at [i] of the segment. *)
Fixpoint clamp_options (fuel : nat) (tcp : bytes) (data_offset i : Z) : out bytes :=
  if data_offset <=? i then Ok tcp else
  match fuel with
  | O => Hang
  | S fuel =>
      let! kind := byte_at i tcp in
      if kind =? OPTION_END then Ok tcp else
      if kind =? OPTION_NOP then clamp_options fuel tcp data_offset (i + 1) else
      if data_offset <=? i + 1 then Ok tcp else
      let! l := byte_at (i + 1) tcp in
      if (l <? 2) || (data_offset <? i + l) then Ok tcp else
      if (kind =? OPTION_MSS) && (l =? 4) then
        let! mss := u16_at (i + 2) tcp in
        if MAX_MSS <? mss then
          let! old := slice (i + 2, i + 4) tcp in
          let new := to_be 2 MAX_MSS in
          let! sum := u16_at 16 tcp in
          let sum := adjust_checksum sum old new in
          let! tcp := slice_copy (16, 18) (to_be 2 sum) tcp in
          slice_copy (i + 2, i + 4) new tcp
        else Ok tcp
      else clamp_options fuel tcp data_offset (i + l)
  end.

Definition clamp_mss (packet : bytes) : out bytes :=
  match tcp_offset packet with
  | None => Ok packet
  | Some header_len =>
      let! '(ip, tcp) := split_at header_len packet in
      let! fl := byte_at 13 tcp in
      if Z.land fl TCP_FLAG_SYN =? 0 then Ok packet else
      let! off := byte_at 12 tcp in
      let data_offset := Z.shiftr off 4 * 4 in
      if (data_offset <=? TCP_HEADER_LEN) || (len tcp <? data_offset) then Ok packet else
      let! tcp := clamp_options (Z.to_nat data_offset) tcp data_offset TCP_HEADER_LEN in
      Ok (ip ++ tcp)
  end.

(** ** UDP *)

Record Udp4 := mkUdp4 {
  u_src_ip : bytes; u_dst_ip : bytes; u_src_port : Z; u_dst_port : Z; u_payload : bytes;
}.

Definition parse_udp4 (packet : bytes) : out (option Udp4) :=
  if not_ipv4 PROTO_UDP packet then Ok None else
  let! frag := u16_at 6 packet in
  if negb (Z.land frag 0x3fff =? 0) then Ok None else
  match get_range (ihl packet) (len packet) packet with
  | None => Ok None
  | Some udp =>
      if len udp <? UDP_HEADER_LEN then Ok None else
      let! length := u16_at 4 udp in
      if negb ((UDP_HEADER_LEN <=? length) && (length <=? len udp)) then Ok None else
      let! si := slice (12, 16) packet in
      let! di := slice (16, 20) packet in
      let! sp := u16_at 0 udp in
      let! dp := u16_at 2 udp in
      let! payload := slice (UDP_HEADER_LEN, length) udp in
      Ok (Some (mkUdp4 si di sp dp payload))
  end.

Definition pseudo_header_sum (src_ip dst_ip : bytes) (udp_len : Z) : Z :=
  foldr Z.add 0 (pairs src_ip ++ pairs dst_ip) + PROTO_UDP + udp_len.

Definition checksum_with_carry (b : bytes) (sum : Z) : Z := finish (sum + words_sum b).

(** The datagram written over the front of [o], and its length. *)
Definition build_udp4 (src_ip : bytes) (src_port : Z) (dst_ip : bytes) (dst_port : Z)
    (payload o : bytes) : out (option (bytes * Z)) :=
  let total := IPV4_HEADER_LEN + UDP_HEADER_LEN + len payload in
  match get_range 0 total o with
  | None => Ok None
  | Some b =>
      let! b := or_panic (set_at 0 0x45 b) in
      let! b := or_panic (set_at 1 0 b) in
      let! b := slice_copy (2, 4) (to_be 2 total) b in
      let! b := or_panic (fill_zero 4 6 b) in
      let! b := slice_copy (6, 8) (to_be 2 0x4000) b in
      let! b := or_panic (set_at 8 64 b) in
      let! b := or_panic (set_at 9 PROTO_UDP b) in
      let! b := or_panic (fill_zero 10 12 b) in
      let! b := slice_copy (12, 16) src_ip b in
      let! b := slice_copy (16, 20) dst_ip b in
      let! head := slice (0, IPV4_HEADER_LEN) b in
      let! b := slice_copy (10, 12) (to_be 2 (inner.checksum head)) b in
      let udp_len := wrap 16 (UDP_HEADER_LEN + len payload) in
      let! b := slice_copy (20, 22) (to_be 2 src_port) b in
      let! b := slice_copy (22, 24) (to_be 2 dst_port) b in
      let! b := slice_copy (24, 26) (to_be 2 udp_len) b in
      let! b := or_panic (fill_zero 26 28 b) in
      let! b := slice_copy (28, total) payload b in
      let! udp := slice (IPV4_HEADER_LEN, total) b in
      let sum := checksum_with_carry udp (pseudo_header_sum src_ip dst_ip udp_len) in
      let sum := if sum =? 0 then 0xffff else sum in
      let! b := slice_copy (26, 28) (to_be 2 sum) b in
      Ok (Some (b ++ zdrop total o, total))
  end.

End nat.
Import nat.
