(* ===== verification/GatewayFacts.v ===== *)
(** * Network address translation: what it preserves

    Over [Gateway.v]: checksums stay valid under rewriting and clamping, a
    translation changes nothing but the fields it is meant to, the flow tables
    never evict a live flow, and datagrams built are parsed back. *)

From S2P Require Import Prelude Timers Gateway.
Import nat.

(** ** One's complement arithmetic *)

Module Ones.

Lemma fold_step s : 0 <= s -> Z.land s 0xffff + Z.shiftr s 16 = s mod 65536 + s / 65536.
Proof.
  intros. change 0xffff with (Z.ones 16). rewrite Z.land_ones, Z.shiftr_div_pow2 by lia. done.
Qed.

(** Folding keeps the residue modulo 65535, ends within 16 bits, and reaches
    zero only from zero. *)
Lemma fold_carry_spec s :
  0 <= s < 2 ^ 32 ->
  0 <= fold_carry 3 s < 65536 /\ (exists k, s = fold_carry 3 s + 65535 * k) /\ (0 < s -> 0 < fold_carry 3 s).
Proof.
  intros Hs.
  assert (Hone : forall n t, 0 <= t < 2 ^ 32 ->
    fold_carry (S n) t = if t <? 65536 then t else fold_carry n (t mod 65536 + t / 65536)).
  { intros n t Ht. cbn [fold_carry]. rewrite fold_step by lia. rewrite Z.shiftr_div_pow2 by lia.
    change (2 ^ 16) with 65536. destruct (Z.ltb_spec t 65536).
    - rewrite Z.div_small by lia. done.
    - rewrite (proj2 (Z.eqb_neq _ _)); [done|]. assert (1 <= t / 65536) by (apply Z.div_le_lower_bound; lia). lia. }
  rewrite Hone by done. destruct (Z.ltb_spec s 65536) as [Hl|Hl]; [split_and!; try lia; exists 0; lia|].
  pose proof (Z.div_mod s 65536 ltac:(lia)) as Hd. pose proof (Z.mod_pos_bound s 65536 ltac:(lia)) as Hm.
  assert (1 <= s / 65536 < 65536) as Hq.
  { split; [apply Z.div_le_lower_bound; lia|apply Z.div_lt_upper_bound; lia]. }
  set (t := s mod 65536 + s / 65536) in *. assert (s = t + 65535 * (s / 65536)) as Hst by lia.
  rewrite Hone by lia. destruct (Z.ltb_spec t 65536) as [Hl2|Hl2].
  { split_and!; try lia. by exists (s / 65536). }
  assert (t / 65536 = 1) as Ht1 by (symmetry; apply (Z.div_unique _ _ _ (t - 65536)); lia).
  assert (t mod 65536 = t - 65536) as Ht2 by (symmetry; apply (Z.mod_unique _ _ 1); lia).
  rewrite Ht1, Ht2, Hone by lia. rewrite (proj2 (Z.ltb_lt _ _)) by lia.
  split_and!; try lia. exists (s / 65536 + 1). lia.
Qed.

Lemma finish_spec s :
  0 <= s < 2 ^ 32 -> 0 <= finish s < 65536 /\ exists k, finish s + s = 65535 * k.
Proof.
  intros Hs. destruct (fold_carry_spec s Hs) as (Hb & [k Hk] & _). unfold finish, wrap, bitnot.
  rewrite Z.mod_small by (change (2 ^ 16) with 65536; lia). change (2 ^ 16 - 1) with 65535.
  split; [lia|]. exists (1 + k). lia.
Qed.

(** A sum verifies: folded, it is all ones. *)
Definition verifies (s : Z) : bool := fold_carry 3 s =? 0xffff.

Lemma verifies_iff s : 0 < s < 2 ^ 32 -> verifies s = true <-> exists k, s = 65535 * k.
Proof.
  intros Hs. destruct (fold_carry_spec s) as (Hb & [k Hk] & Hp); [lia|]. specialize (Hp ltac:(lia)).
  unfold verifies. rewrite Z.eqb_eq. split.
  - intros Hf. exists (k + 1). lia.
  - intros [j Hj]. assert (fold_carry 3 s = 65535 * (j - k)) by lia. assert (j - k = 1) by nia. lia.
Qed.

(** Sums that differ by a multiple of 65535 verify together. *)
Lemma verifies_congr s t k :
  0 < s < 2 ^ 32 -> 0 < t < 2 ^ 32 -> s = t + 65535 * k -> verifies s = verifies t.
Proof.
  intros Hs Ht He. apply eq_true_iff_eq. rewrite !verifies_iff by done. split; intros [j Hj].
  - exists (j - k). lia.
  - exists (j + k). lia.
Qed.

(** *** Words *)

Lemma words_app n a b : length a = (2 * n)%nat -> words (a ++ b) = words a ++ words b.
Proof.
  revert a; induction n as [|n IH]; intros a Ha; [by destruct a|].
  destruct a as [|x [|y a]]; simpl in Ha; try lia. cbn [app words]. f_equal. apply IH. simpl in *. lia.
Qed.

Lemma words_sum_app n a b : len a = 2 * Z.of_nat n -> words_sum (a ++ b) = words_sum a + words_sum b.
Proof.
  intros Ha. unfold words_sum. rewrite (words_app n) by (unfold len in Ha; lia).
  induction (words a) as [|x l IH]; simpl; lia.
Qed.

Lemma words_sum_bound b : bytes_ok b -> 0 <= words_sum b <= 65535 * len b.
Proof.
  intros Hb. unfold words_sum.
  assert (H : forall n b, (length b <= n)%nat -> bytes_ok b -> 0 <= foldr Z.add 0 (words b) <= 65535 * len b).
  { clear. induction n as [|n IH]; intros b Hn Hb; [destruct b; [done|simpl in Hn; lia]|].
    destruct b as [|x [|y b]]; [done| |].
    - apply Forall_cons_iff in Hb as [Hx _]. unfold is_uint in Hx. cbn [words foldr].
      rewrite Z.shiftl_mul_pow2 by lia. unfold len; simpl length. lia.
    - apply Forall_cons_iff in Hb as [Hx Hb]. apply Forall_cons_iff in Hb as [Hy Hb].
      unfold is_uint in *. cbn [words foldr]. rewrite !len_cons. simpl in Hn.
      specialize (IH b ltac:(lia) Hb). unfold of_be, reverse. simpl. lia. }
  by apply (H (length b)).
Qed.

Lemma words_sum_u16 x : is_u16 x -> words_sum (to_be 2 x) = x.
Proof.
  intros Hx. pose proof (of_to_be_small 2 x Hx) as H. pose proof (len_to_be 2 x) as Hl.
  destruct (to_be 2 x) as [|a [|b [|? ?]]]; try (exfalso; llia). unfold words_sum. simpl words. cbn [foldr]. lia.
Qed.

Lemma words_sum_2 b : len b = 2 -> words_sum b = of_be b.
Proof.
  intros Hb. destruct b as [|x [|y [|? ?]]]; try (exfalso; llia). unfold words_sum. cbn [words foldr]. lia.
Qed.

(** Storing a word into a field that was zero adds it. *)
Lemma words_sum_store n a x b :
  len a = 2 * Z.of_nat n -> is_u16 x -> words_sum (a ++ to_be 2 x ++ b) = words_sum (a ++ [0; 0] ++ b) + x.
Proof.
  intros Ha Hx. rewrite !(words_sum_app n a), (words_sum_app 1 (to_be 2 x)), (words_sum_app 1 [0; 0])
    by (first [done | rewrite len_to_be; lia]).
  rewrite words_sum_u16 by done. change (words_sum [0; 0]) with 0. lia.
Qed.

(** A checksum completes the sum it was computed of, also when a zero one is
    sent as all ones. *)
Lemma finish_verifies s : 0 <= s < 2 ^ 32 - 65536 -> verifies (s + finish s) = true.
Proof.
  intros Hs. destruct (decide (s = 0)) as [->|Hn]; [done|].
  destruct (finish_spec s) as [Hf [k Hk]]; [lia|]. apply verifies_iff; [lia|]. exists k. lia.
Qed.
Lemma finish_verifies_nonzero s :
  0 < s < 2 ^ 32 - 65536 -> verifies (s + if finish s =? 0 then 0xffff else finish s) = true.
Proof.
  intros Hs. destruct (finish_spec s) as [Hf [k Hk]]; [lia|]. apply verifies_iff; [case_if; lia|].
  case_if; bool_hyps; [exists (k + 1)|exists k]; lia.
Qed.

(** Complementing each word of an even field. *)
Lemma not_words_sum n b :
  length b = (2 * n)%nat -> foldr Z.add 0 (map (bitnot 16) (words b)) = 65535 * Z.of_nat n - words_sum b.
Proof.
  unfold words_sum. revert b; induction n as [|n IH]; intros b Hb; [by destruct b|].
  destruct b as [|x [|y b]]; simpl in Hb; try lia. cbn [words map foldr]. rewrite IH by (simpl in *; lia).
  unfold bitnot. change (2 ^ 16 - 1) with 65535. lia.
Qed.

Lemma pairs_even n b : length b = (2 * n)%nat -> pairs b = words b.
Proof.
  revert b; induction n as [|n IH]; intros b Hb; [by destruct b|].
  destruct b as [|x [|y b]]; simpl in Hb; try lia. cbn [pairs words]. f_equal. apply IH. lia.
Qed.

(** The incremental update: what the old sum lacked, the new one lacks. *)
Lemma adjust_spec old_sum n old new :
  is_u16 old_sum -> length old = (2 * n)%nat -> length new = (2 * n)%nat -> bytes_ok old -> bytes_ok new ->
  Z.of_nat n <= 100 ->
  is_u16 (adjust_checksum old_sum old new) /\
  exists k, adjust_checksum old_sum old new + words_sum new = old_sum + words_sum old + 65535 * k.
Proof.
  intros Hs Ho Hn Hob Hnb Hle. unfold adjust_checksum. rewrite !(pairs_even n) by done. fold (words_sum new).
  rewrite (not_words_sum n) by done.
  pose proof (words_sum_bound old Hob). pose proof (words_sum_bound new Hnb).
  unfold is_uint, len in *. rewrite Ho, Hn in *. change (2 ^ 16) with 65536 in *.
  set (acc := bitnot 16 old_sum + (65535 * Z.of_nat n - words_sum old) + words_sum new).
  assert (Hwo : words_sum old <= 65535 * Z.of_nat n).
  { pose proof (not_words_sum n old Ho) as Hnw. clear -Hnw Hob Ho. revert Hnw. revert old Hob Ho.
    induction n as [|n IH]; intros b Hb Hl Hnw; [destruct b; [done|simpl in Hl; lia]|].
    destruct b as [|x [|y b]]; simpl in Hl; try lia. unfold words_sum in *. cbn [words foldr map] in *.
    apply Forall_cons_iff in Hb as [Hx Hb]. apply Forall_cons_iff in Hb as [Hy Hb]. unfold is_uint in *.
    specialize (IH b Hb ltac:(simpl in *; lia) (not_words_sum n b ltac:(simpl in *; lia))).
    unfold of_be, reverse. simpl. lia. }
  assert (0 <= acc < 2 ^ 32) as Hacc by (unfold acc, bitnot; lia).
  destruct (finish_spec acc Hacc) as [Hb [k Hk]]. split; [done|].
  exists (k - 1 - Z.of_nat n). unfold acc, bitnot in *. lia.
Qed.

End Ones.
Import Ones.

(** ** TCP segments by their fields *)

Record Segment := mkSegment {
  g_head : bytes;      (* version to protocol, 10 bytes *)
  g_cks : bytes;       (* header checksum *)
  g_src : bytes;
  g_dst : bytes;
  g_options : bytes;   (* IPv4 options *)
  g_sport : bytes;
  g_dport : bytes;
  g_mid : bytes;       (* sequence to window, 12 bytes *)
  g_sum : bytes;       (* TCP checksum *)
  g_rest : bytes;
}.

Definition ip_fields (s : Segment) : list bytes := [g_head s; g_cks s; g_src s; g_dst s; g_options s].
Definition tcp_fields (s : Segment) : list bytes := [g_sport s; g_dport s; g_mid s; g_sum s; g_rest s].
Definition packet_of (s : Segment) : bytes := concat (ip_fields s) ++ concat (tcp_fields s).

Record segment_ok (s : Segment) : Prop := {
  so_lengths : map len [g_head s; g_cks s; g_src s; g_dst s; g_sport s; g_dport s; g_mid s; g_sum s]
               = [10; 2; 4; 4; 2; 2; 12; 2];
  so_bytes : bytes_ok (packet_of s);
  so_rest : 2 <= len (g_rest s);
  so_version : Z.shiftr (at_ 0 (packet_of s)) 4 = 4;
  so_proto : at_ 9 (packet_of s) = PROTO_TCP;
  so_ihl : ihl (packet_of s) = 20 + len (g_options s);
  so_len : len (packet_of s) <= 65535;
}.

(** The sum a receiver verifies: pseudo-header, segment and checksum. *)
Definition tcp_sum (packet : bytes) : Z :=
  let tcp := zdrop (ihl packet) packet in
  words_sum (sub_range 12 16 packet) + words_sum (sub_range 16 20 packet) + PROTO_TCP + len tcp + words_sum tcp.
Definition tcp_verifies (packet : bytes) : bool := verifies (tcp_sum packet).

(** The header checksum a router verifies: over the whole header, options
    included. *)
Definition header_verifies (packet : bytes) : bool := verifies (words_sum (ztake (ihl packet) packet)).

Module SegmentFacts.

Ltac lens Hok :=
  let H := fresh in pose proof (so_lengths _ Hok) as H; cbn [map] in H; injection H; clear H; intros.

Lemma len_ip s : segment_ok s -> len (concat (ip_fields s)) = 20 + len (g_options s).
Proof. intros Hok. lens Hok. unfold ip_fields. cbn [concat]. rewrite !len_app, len_nil. lia. Qed.

Lemma len_tcp s : segment_ok s -> len (concat (tcp_fields s)) = 18 + len (g_rest s).
Proof. intros Hok. lens Hok. unfold tcp_fields. cbn [concat]. rewrite !len_app, len_nil. lia. Qed.

Lemma tcp_offset_segment s : segment_ok s -> tcp_offset (packet_of s) = Some (20 + len (g_options s)).
Proof.
  intros Hok. unfold tcp_offset, not_ipv4, IPV4_HEADER_LEN, TCP_HEADER_LEN.
  pose proof (len_ip s Hok). pose proof (len_tcp s Hok). pose proof (so_rest _ Hok).
  assert (len (packet_of s) = len (concat (ip_fields s)) + len (concat (tcp_fields s))) as Hl
    by (unfold packet_of; by rewrite len_app).
  nonneg_lens. rewrite (so_version _ Hok), (so_proto _ Hok), (so_ihl _ Hok).
  rewrite !(proj2 (Z.ltb_ge _ _)) by lia. done.
Qed.

Lemma split_segment s :
  segment_ok s -> split_at (20 + len (g_options s)) (packet_of s) = Ok (concat (ip_fields s), concat (tcp_fields s)).
Proof.
  intros Hok. rewrite <- (len_ip s Hok). unfold split_at, packet_of, slice. cbn [fst snd].
  pose proof (get_range_mid 0 (len (concat (ip_fields s))) [] (concat (ip_fields s)) (concat (tcp_fields s))) as H1.
  cbn [app] in H1. rewrite H1 by done. cbn [or_panic rbind].
  pose proof (get_range_mid (len (concat (ip_fields s))) (len (concat (ip_fields s) ++ concat (tcp_fields s)))
    (concat (ip_fields s)) (concat (tcp_fields s)) []) as H2.
  rewrite app_nil_r in H2. by rewrite H2 by (rewrite ?len_app; done).
Qed.

(** Each field is bytes. *)
Lemma seg_bytes s : segment_ok s ->
  bytes_ok (g_head s) /\ bytes_ok (g_cks s) /\ bytes_ok (g_src s) /\ bytes_ok (g_dst s) /\
  bytes_ok (g_options s) /\ bytes_ok (g_sport s) /\ bytes_ok (g_dport s) /\ bytes_ok (g_mid s) /\
  bytes_ok (g_sum s) /\ bytes_ok (g_rest s).
Proof.
  intros Hok. pose proof (so_bytes _ Hok) as Hb. unfold packet_of, ip_fields, tcp_fields in Hb.
  cbn [concat] in Hb. rewrite !bytes_ok_app in Hb. tauto.
Qed.

(** The sum of a segment, field by field. *)
Definition seg_sum (s : Segment) : Z :=
  words_sum (g_src s) + words_sum (g_dst s) + PROTO_TCP + (18 + len (g_rest s)) +
  (words_sum (g_sport s) + words_sum (g_dport s) + words_sum (g_mid s) + words_sum (g_sum s) + words_sum (g_rest s)).

Lemma tcp_sum_segment s : segment_ok s -> tcp_sum (packet_of s) = seg_sum s.
Proof.
  intros Hok. unfold tcp_sum, seg_sum. rewrite (so_ihl _ Hok), <- (len_ip s Hok).
  unfold packet_of at 3 4. rewrite zdrop_app_len, (len_tcp s Hok) by done.
  lens Hok. unfold packet_of, ip_fields, tcp_fields. cbn [concat]. rewrite !app_nil_r.
  rewrite <- !app_assoc.
  assert (forall a b c d tl : bytes, len a = 10 -> len b = 2 -> len c = 4 -> len d = 4 ->
    sub_range 12 16 (a ++ b ++ c ++ d ++ tl) = c /\ sub_range 16 20 (a ++ b ++ c ++ d ++ tl) = d) as Hf.
  { intros a b c d tl Ha Hb Hc Hd. split.
    - rewrite (app_assoc a). apply sub_range_mid; rewrite len_app; lia.
    - rewrite (app_assoc b), (app_assoc a). apply sub_range_mid; rewrite !len_app; lia. }
  destruct (Hf (g_head s) (g_cks s) (g_src s) (g_dst s)
    (g_options s ++ g_sport s ++ g_dport s ++ g_mid s ++ g_sum s ++ g_rest s)) as [-> ->]; try done.
  rewrite (words_sum_app 1), (words_sum_app 1 (g_dport s)), (words_sum_app 6 (g_mid s)),
    (words_sum_app 1 (g_sum s)) by lia. lia.
Qed.

Lemma seg_sum_bound s : segment_ok s -> 0 < seg_sum s < 2 ^ 32.
Proof.
  intros Hok. destruct (seg_bytes s Hok) as (B1 & B2 & B3 & B4 & B5 & B6 & B7 & B8 & B9 & B10).
  pose proof (len_ip s Hok). pose proof (len_tcp s Hok). pose proof (so_len _ Hok) as Hl.
  unfold packet_of in Hl. rewrite len_app in Hl. lens Hok. nonneg_lens.
  repeat match goal with
  | Hb : bytes_ok ?x |- _ => pose proof (words_sum_bound x Hb); clear Hb
  end. unfold seg_sum, PROTO_TCP. lia.
Qed.

(** Rewriting the IP header: the checksum verifies afterwards. *)
Lemma rewrite_ip_spec s :
  segment_ok s ->
  exists cks', rewrite_ip_checksum (concat (ip_fields s)) =
      Ok (concat [g_head s; cks'; g_src s; g_dst s; g_options s]) /\ len cks' = 2 /\ bytes_ok cks' /\
    verifies (words_sum (concat [g_head s; cks'; g_src s; g_dst s])) = true.
Proof.
  intros Hok. destruct (seg_bytes s Hok) as (B1 & B2 & B3 & B4 & _). lens Hok.
  unfold rewrite_ip_checksum, fill_zero, ip_fields, slice, slice_copy. cbn [fst snd].
  erewrite (copy_field 1); [|reflexivity|cbn [take concat]; llia|llia|llia].
  cbn [or_panic rbind insert list_insert]. change (zeros (12 - 10)) with [0; 0].
  rewrite (get_fields 0 4); [|lia|done|cbn [take drop concat Nat.sub]; unfold IPV4_HEADER_LEN; llia].
  cbn [or_panic rbind take drop Nat.sub]. set (base := concat [g_head s; [0; 0]; g_src s; g_dst s]).
  erewrite (copy_field 1); [|reflexivity|cbn [take concat]; llia|llia|llia].
  cbn [or_panic insert list_insert]. set (c := inner.checksum base).
  assert (bytes_ok base) as Hbase.
  { unfold base. cbn [concat]. rewrite !bytes_ok_app. split_and!; try done; repeat constructor; lia. }
  assert (len base = 20) as Hlb by (unfold base; cbn [concat]; llia).
  pose proof (words_sum_bound base Hbase) as Hwb.
  destruct (finish_spec (words_sum base)) as [Hc [k Hk]]; [lia|]. fold (inner.checksum base) in Hc, Hk. fold c in Hc, Hk.
  exists (to_be 2 c). split_and!; [done|llia|apply bytes_to_be|].
  assert (forall x : bytes, len x = 2 -> words_sum (concat [g_head s; x; g_src s; g_dst s]) =
    words_sum (g_head s) + (words_sum x + (words_sum (g_src s) + words_sum (g_dst s)))) as Hws.
  { intros x Hx. cbn [concat]. rewrite app_nil_r.
    by rewrite (words_sum_app 5), (words_sum_app 1 x), (words_sum_app 2 (g_src s)) by lia. }
  assert (words_sum base = words_sum (g_head s) + (words_sum (g_src s) + words_sum (g_dst s))) as Hb0.
  { unfold base. rewrite Hws by done. change (words_sum [0; 0]) with 0. lia. }
  rewrite Hws by llia. rewrite words_sum_u16 by done.
  (* the first byte holds the version, so the sum is not zero *)
  apply verifies_iff; [|exists k; lia].
  split; [|lia]. pose proof (words_sum_bound (g_head s) B1) as Hh.
  pose proof (words_sum_bound (g_src s) B3). pose proof (words_sum_bound (g_dst s) B4).
  enough (0 < words_sum (g_head s)) by lia.
  pose proof (so_version _ Hok) as Hv. unfold packet_of, ip_fields in Hv. cbn [concat] in Hv.
  destruct (g_head s) as [|x [|y hd]] eqn:Eh; try (exfalso; llia).
  change (at_ 0 _) with x in Hv. apply Forall_cons_iff in B1 as [Hx B1]. apply Forall_cons_iff in B1 as [Hy B1].
  unfold is_uint in Hx, Hy. rewrite Z.shiftr_div_pow2 in Hv by lia.
  assert (64 <= x) by (pose proof (Z.mul_div_le x (2 ^ 4)); lia).
  unfold words_sum. cbn [words foldr]. pose proof (words_sum_bound hd B1) as Hd. unfold words_sum in Hd.
  unfold of_be, reverse. simpl. lia.
Qed.

End SegmentFacts.
Import SegmentFacts.

(** ** Translation *)

Definition with_source (s : Segment) (ip' port' cks' sum' : bytes) : Segment :=
  mkSegment (g_head s) cks' ip' (g_dst s) (g_options s) port' (g_dport s) (g_mid s) sum' (g_rest s).
Definition with_destination (s : Segment) (ip' port' cks' sum' : bytes) : Segment :=
  mkSegment (g_head s) cks' (g_src s) ip' (g_options s) (g_sport s) port' (g_mid s) sum' (g_rest s).

Module TranslationFacts.

Lemma at_head s i : len (g_head s) = 10 -> 0 <= i < 10 -> at_ i (packet_of s) = at_ i (g_head s).
Proof.
  intros Hh Hi. unfold packet_of, ip_fields, at_, get_at. cbn [concat]. rewrite (proj2 (Z.leb_le _ _)) by lia.
  rewrite <- !app_assoc, lookup_app_l; [done|]. unfold len in Hh. lia.
Qed.

(** A segment stays well-formed when fields are replaced by fields of the same
    width and the first ten bytes stay. *)
Lemma segment_ok_update s s' :
  segment_ok s -> g_head s' = g_head s -> g_options s' = g_options s -> g_rest s' = g_rest s ->
  map len [g_cks s'; g_src s'; g_dst s'; g_sport s'; g_dport s'; g_mid s'; g_sum s'] = [2; 4; 4; 2; 2; 12; 2] ->
  bytes_ok (g_cks s') -> bytes_ok (g_src s') -> bytes_ok (g_dst s') -> bytes_ok (g_sport s') ->
  bytes_ok (g_dport s') -> bytes_ok (g_mid s') -> bytes_ok (g_sum s') -> segment_ok s'.
Proof.
  intros Hok Eh Eo Er Hl C1 C2 C3 C4 C5 C6 C7. destruct (seg_bytes s Hok) as (B1 & _ & _ & _ & B5 & _ & _ & _ & _ & B10).
  lens Hok. cbn [map] in Hl. injection Hl; intros.
  assert (len (g_head s') = 10) as Hh by (by rewrite Eh).
  assert (at_ 0 (packet_of s') = at_ 0 (packet_of s)) as Hat0 by (rewrite !at_head, Eh by lia; done).
  assert (len (packet_of s') = len (packet_of s)) as Hlen.
  { unfold packet_of, ip_fields, tcp_fields. cbn [concat]. rewrite !len_app, Eh, Eo, Er. lia. }
  split.
  - cbn [map]. congruence.
  - unfold packet_of, ip_fields, tcp_fields. cbn [concat]. rewrite !bytes_ok_app, Eh, Eo, Er.
    split_and!; try done; constructor.
  - rewrite Er. apply Hok.
  - rewrite Hat0. apply Hok.
  - rewrite at_head, Eh by lia. rewrite <- (at_head s) by lia. apply Hok.
  - unfold ihl. rewrite Hat0, Eo. apply Hok.
  - rewrite Hlen. apply Hok.
Qed.

(** The widths of replaced fields. *)
Ltac field_lengths :=
  unfold with_source, with_destination; cbn [map g_cks g_src g_dst g_sport g_dport g_mid g_sum];
  rewrite ?len_to_be; repeat (f_equal; try done).

Lemma concat_one {A} (x : list A) : concat [x] = x.
Proof. apply app_nil_r. Qed.

Lemma g_sum_u16 s : segment_ok s -> is_u16 (of_be (g_sum s)) /\ words_sum (g_sum s) = of_be (g_sum s).
Proof.
  intros Hok. lens Hok. destruct (seg_bytes s Hok) as (_ & _ & _ & _ & _ & _ & _ & _ & B9 & _).
  pose proof (of_be_bound (g_sum s) B9) as Hb. rewrite words_sum_2 by done. split; [|done].
  unfold is_uint. replace (len (g_sum s)) with 2 in Hb by lia. done.
Qed.

(** Two incremental updates, for an address and a port. *)
Lemma adjust_twice old_sum a a' p p' :
  is_u16 old_sum -> len a = 4 -> len a' = 4 -> len p = 2 -> is_u16 p' -> bytes_ok a -> bytes_ok a' -> bytes_ok p ->
  exists sum, adjust_checksum (adjust_checksum old_sum a a') p (to_be 2 p') = sum /\ is_u16 sum /\
    exists k, sum + words_sum a' + words_sum (to_be 2 p') = old_sum + words_sum a + words_sum p + 65535 * k.
Proof.
  intros Hs Ha Ha' Hp Hp' Ba Ba' Bp.
  assert (length a = (2 * 2)%nat /\ length a' = (2 * 2)%nat /\ length p = (2 * 1)%nat) as (La & La' & Lp)
    by (unfold len in *; lia).
  assert (length (to_be 2 p') = (2 * 1)%nat) as Lp' by (unfold to_be; by rewrite length_reverse, length_to_le).
  destruct (adjust_spec old_sum 2 a a' Hs La La' Ba Ba' ltac:(lia)) as [H1 [k1 Hk1]].
  destruct (adjust_spec (adjust_checksum old_sum a a') 1 p (to_be 2 p') H1 Lp Lp' Bp (bytes_to_be 2 p') ltac:(lia))
    as [H2 [k2 Hk2]].
  eexists. split; [done|]. split; [done|]. exists (k1 + k2). lia.
Qed.

Lemma outbound_ok s ip' port' :
  segment_ok s -> len ip' = 4 -> bytes_ok ip' -> is_u16 port' ->
  exists cks' sum', rewrite_tcp_outbound (packet_of s) ip' port' =
      Ok (packet_of (with_source s ip' (to_be 2 port') cks' sum'), true) /\
    segment_ok (with_source s ip' (to_be 2 port') cks' sum') /\
    verifies (words_sum (concat [g_head s; cks'; ip'; g_dst s])) = true /\
    verifies (seg_sum (with_source s ip' (to_be 2 port') cks' sum')) = verifies (seg_sum s).
Proof.
  intros Hok Hip Bip Hport. destruct (seg_bytes s Hok) as (B1 & B2 & B3 & B4 & B5 & B6 & B7 & B8 & B9 & B10).
  destruct (g_sum_u16 s Hok) as [Hsum Hws]. pose proof Hok as Hok'. lens Hok'.
  unfold rewrite_tcp_outbound, rewrite_end. rewrite (tcp_offset_segment s Hok), (split_segment s Hok). cbn [rbind].
  unfold u16_at, slice, slice_copy, tcp_fields, ip_fields. cbn [fst snd].
  read_field 3%nat 4%nat. read_field 2%nat 3%nat. read_field 0%nat 1%nat. rewrite !concat_one.
  destruct (adjust_twice (of_be (g_sum s)) (g_src s) ip' (g_sport s) port') as (sum & -> & Hu & k & Hk); try done.
  write_field 3%nat. write_field 0%nat. write_field 2%nat.
  set (s1 := with_source s ip' (to_be 2 port') (g_cks s) (to_be 2 sum)).
  assert (segment_ok s1) as Hs1.
  { eapply (segment_ok_update s); try done; [by field_lengths|apply bytes_to_be|apply bytes_to_be]. }
  destruct (rewrite_ip_spec s1 Hs1) as (cks' & Hr & Hc & Bc & Hv). unfold ip_fields, s1, with_source, with_destination in Hr.
  cbn [g_head g_cks g_src g_dst g_options] in Hr.
  rewrite Hr. cbn [rbind]. exists cks', (to_be 2 sum). split; [done|].
  assert (segment_ok (with_source s ip' (to_be 2 port') cks' (to_be 2 sum))) as Hs2.
  { eapply (segment_ok_update s); try done; [by field_lengths|apply bytes_to_be|apply bytes_to_be]. }
  split_and!; [done|done|].
  apply (verifies_congr _ _ k); [by apply seg_sum_bound|by apply seg_sum_bound|].
  unfold seg_sum, with_source. cbn [g_src g_dst g_sport g_dport g_mid g_sum g_rest].
  rewrite (words_sum_u16 sum) by done. rewrite Hws. lia.
Qed.

Lemma inbound_ok s ip' port' :
  segment_ok s -> len ip' = 4 -> bytes_ok ip' -> is_u16 port' ->
  exists cks' sum', rewrite_tcp_inbound (packet_of s) ip' port' =
      Ok (packet_of (with_destination s ip' (to_be 2 port') cks' sum'), true) /\
    segment_ok (with_destination s ip' (to_be 2 port') cks' sum') /\
    verifies (words_sum (concat [g_head s; cks'; g_src s; ip'])) = true /\
    verifies (seg_sum (with_destination s ip' (to_be 2 port') cks' sum')) = verifies (seg_sum s).
Proof.
  intros Hok Hip Bip Hport. destruct (seg_bytes s Hok) as (B1 & B2 & B3 & B4 & B5 & B6 & B7 & B8 & B9 & B10).
  destruct (g_sum_u16 s Hok) as [Hsum Hws]. pose proof Hok as Hok'. lens Hok'.
  unfold rewrite_tcp_inbound, rewrite_end. rewrite (tcp_offset_segment s Hok), (split_segment s Hok). cbn [rbind].
  unfold u16_at, slice, slice_copy, tcp_fields, ip_fields. cbn [fst snd].
  read_field 3%nat 4%nat. read_field 3%nat 4%nat. read_field 1%nat 2%nat. rewrite !concat_one.
  destruct (adjust_twice (of_be (g_sum s)) (g_dst s) ip' (g_dport s) port') as (sum & -> & Hu & k & Hk); try done.
  write_field 3%nat. write_field 1%nat. write_field 3%nat.
  set (s1 := with_destination s ip' (to_be 2 port') (g_cks s) (to_be 2 sum)).
  assert (segment_ok s1) as Hs1.
  { eapply (segment_ok_update s); try done; [by field_lengths|apply bytes_to_be|apply bytes_to_be]. }
  destruct (rewrite_ip_spec s1 Hs1) as (cks' & Hr & Hc & Bc & Hv). unfold ip_fields, s1, with_source, with_destination in Hr.
  cbn [g_head g_cks g_src g_dst g_options] in Hr.
  rewrite Hr. cbn [rbind]. exists cks', (to_be 2 sum). split; [done|].
  assert (segment_ok (with_destination s ip' (to_be 2 port') cks' (to_be 2 sum))) as Hs2.
  { eapply (segment_ok_update s); try done; [by field_lengths|apply bytes_to_be|apply bytes_to_be]. }
  split_and!; [done|done|].
  apply (verifies_congr _ _ k); [by apply seg_sum_bound|by apply seg_sum_bound|].
  unfold seg_sum, with_destination. cbn [g_src g_dst g_sport g_dport g_mid g_sum g_rest].
  rewrite (words_sum_u16 sum) by done. rewrite Hws. lia.
Qed.

End TranslationFacts.
Import TranslationFacts.

(** Without options the header is the twenty bytes [rewrite_ip_checksum] sums. *)
Lemma header_verifies_plain s : segment_ok s -> g_options s = [] ->
  header_verifies (packet_of s) = verifies (words_sum (concat [g_head s; g_cks s; g_src s; g_dst s])).
Proof.
  intros Hok Ho. unfold header_verifies. rewrite (so_ihl _ Hok), Ho. lens Hok.
  unfold packet_of, ip_fields. rewrite Ho. cbn [concat]. rewrite !app_nil_r.
  rewrite ztake_app_len; [done|]. rewrite !len_app, len_nil. lia.
Qed.

(** ** MSS clamping *)

Module ClampFacts.

Lemma byte_at_in i b : 0 <= i < len b -> exists x, byte_at i b = Ok x /\ get_at i b = Some x.
Proof. intros Hi. destruct (get_at_is_Some i b Hi) as [x Hx]. exists x. unfold byte_at. by rewrite Hx. Qed.

Lemma u16_at_in i b : 0 <= i -> i + 2 <= len b -> u16_at i b = Ok (of_be (sub_range i (i + 2) b)).
Proof. intros. unfold u16_at, slice. cbn [fst snd]. by rewrite get_range_in by lia. Qed.

Lemma slice_copy_in a b src l :
  0 <= a <= b -> b <= len l -> len src = b - a ->
  exists l', @slice_copy Empty_set Z (a, b) src l = Ok l' /\ len l' = len l.
Proof.
  intros. exists (ztake a l ++ src ++ zdrop b l). split; [|llia]. unfold slice_copy. cbn [fst snd].
  by rewrite (proj2 (copy_at_Some a b src l _)) by done.
Qed.

(** The loop ends, inside the header, whatever the options are. *)
Lemma clamp_options_total fuel tcp d i :
  bytes_ok tcp -> 20 <= i -> d <= len tcp -> d - i <= Z.of_nat fuel ->
  exists tcp', clamp_options fuel tcp d i = Ok tcp' /\ len tcp' = len tcp.
Proof.
  intros Hb. revert i; induction fuel as [|fuel IH]; intros i Hi Hd Hf; cbn [clamp_options];
    (destruct (d <=? i) eqn:E; bool_hyps; [by eexists|]); [lia|].
  destruct (byte_at_in i tcp) as (k & -> & _); [lia|]. cbn [rbind].
  case_if; [by eexists|]. case_if; [apply IH; lia|]. case_if; [by eexists|]. bool_hyps.
  destruct (byte_at_in (i + 1) tcp) as (l & -> & Hl); [lia|]. cbn [rbind].
  apply get_at_ok in Hl; [|done]. case_if; [by eexists|]. bool_hyps.
  case_if; [|apply IH; lia]. bool_hyps. subst l. rewrite u16_at_in by lia. cbn [rbind].
  case_if; [|by eexists]. unfold slice. cbn [fst snd]. rewrite get_range_in by lia. cbn [or_panic rbind].
  rewrite u16_at_in by lia. cbn [rbind]. set (sum := adjust_checksum _ _ _).
  destruct (slice_copy_in 16 18 (to_be 2 sum) tcp) as (t1 & -> & Ht1); [lia|lia|llia|]. cbn [rbind].
  destruct (slice_copy_in (i + 2) (i + 4) (to_be 2 MAX_MSS) t1) as (t2 & -> & Ht2); [lia|lia|llia|].
  exists t2. split; [done|]. lia.
Qed.

(** Options the loop walks over. *)
Inductive skipped : bytes -> Prop :=
| skipped_nil : skipped []
| skipped_nop l : skipped l -> skipped (OPTION_NOP :: l)
| skipped_opt kind n body l :
    kind <> OPTION_END -> kind <> OPTION_NOP -> 2 <= n -> len body = n - 2 ->
    (kind =? OPTION_MSS) && (n =? 4) = false -> skipped l -> skipped (kind :: n :: body ++ l).

Lemma byte_at_mid a x b i : i = len a -> byte_at i (a ++ x :: b) = Ok x.
Proof. intros. unfold byte_at. by rewrite get_at_mid. Qed.

Lemma byte_at_next a x y b i : i = len a + 1 -> byte_at i (a ++ x :: y :: b) = Ok y.
Proof.
  intros ->. pose proof (byte_at_mid (a ++ [x]) y b (len a + 1)) as H.
  rewrite <- app_assoc in H. apply H. by rewrite len_app.
Qed.

Lemma range_after a x y (m t : bytes) i j :
  i = len a + 2 -> j = i + len m -> get_range i j (a ++ x :: y :: m ++ t) = Some m.
Proof.
  intros -> ->. pose proof (get_range_mid (len a + 2) (len a + 2 + len m) (a ++ [x; y]) m t) as H.
  rewrite <- app_assoc in H. apply H; by rewrite len_app.
Qed.

Lemma clamp_skip pre fuel a b d :
  skipped pre -> len a + len pre < d -> (length pre <= fuel)%nat ->
  exists fuel', (fuel - length pre <= fuel')%nat /\
    clamp_options fuel (a ++ pre ++ b) d (len a) = clamp_options fuel' (a ++ pre ++ b) d (len a + len pre).
Proof.
  intros Hs; revert fuel a; induction Hs as [|l Hs IH|kind n body l K1 K2 Hn Hbody Hm Hs IH]; intros fuel a Hd Hf.
  - exists fuel. split; [simpl; lia|]. by rewrite Z.add_0_r.
  - destruct fuel as [|fuel]; [simpl in Hf; lia|]. rewrite len_cons in Hd. nonneg_lens.
    cbn [clamp_options app]. rewrite (proj2 (Z.leb_gt _ _)) by lia. rewrite byte_at_mid by done. cbn [rbind].
    change (OPTION_NOP =? OPTION_END) with false. rewrite Z.eqb_refl. cbv iota.
    destruct (IH fuel (a ++ [OPTION_NOP])) as (f & Hf' & He); [llia|simpl in Hf; lia|].
    rewrite <- app_assoc, len_app in He. cbn [app] in He. change (len [OPTION_NOP]) with 1 in He.
    rewrite He. exists f. split; [simpl; lia|]. f_equal. rewrite len_cons. lia.
  - destruct fuel as [|fuel]; [simpl in Hf; lia|]. rewrite !len_cons, len_app in Hd. nonneg_lens.
    cbn [clamp_options app]. rewrite (proj2 (Z.leb_gt d (len a))) by lia. rewrite byte_at_mid by done. cbn [rbind].
    rewrite !(proj2 (Z.eqb_neq kind _)) by done. rewrite (proj2 (Z.leb_gt d (len a + 1))) by lia.
    rewrite byte_at_next by done.
    cbn [rbind]. rewrite (proj2 (Z.ltb_ge _ _)), (proj2 (Z.ltb_ge _ _)), Hm by lia. cbn [orb].
    destruct (IH fuel (a ++ kind :: n :: body)) as (f & Hf' & He);
      [rewrite len_app, !len_cons; lia|simpl in Hf; rewrite length_app in Hf; lia|].
    rewrite <- app_assoc, len_app, !len_cons in He. cbn [app] in He. rewrite <- (app_assoc body l b).
    replace (len a + n) with (len a + (1 + (1 + len body))) by lia. rewrite He. exists f.
    split; [simpl; rewrite length_app; unfold len in *; lia|]. f_equal. rewrite !len_cons, len_app. lia.
Qed.

End ClampFacts.
Import ClampFacts.

Definition with_rest (s : Segment) (sum' rest' : bytes) : Segment :=
  mkSegment (g_head s) (g_cks s) (g_src s) (g_dst s) (g_options s) (g_sport s) (g_dport s) (g_mid s) sum' rest'.

(** Writing [MAX_MSS] over the value of an MSS option, with the checksum updated
    for it: the segment stays one, and at an even offset the checksum stays as
    valid as it was. *)
Definition with_mss (s : Segment) (pre mss tl : bytes) : Segment :=
  with_rest s (to_be 2 (adjust_checksum (of_be (g_sum s)) mss (to_be 2 MAX_MSS)))
    (pre ++ [OPTION_MSS; 4] ++ to_be 2 MAX_MSS ++ tl).

Lemma with_mss_ok s pre mss tl :
  segment_ok s -> g_rest s = pre ++ [OPTION_MSS; 4] ++ mss ++ tl -> len mss = 2 ->
  segment_ok (with_mss s pre mss tl) /\
  (Z.even (len pre) = true -> tcp_verifies (packet_of (with_mss s pre mss tl)) = tcp_verifies (packet_of s)).
Proof.
  intros Hok Hrest Hmss. destruct (seg_bytes s Hok) as (B1 & B2 & B3 & B4 & B5 & B6 & B7 & B8 & B9 & B10).
  rewrite Hrest, !bytes_ok_app in B10. destruct B10 as (Bp & Bk & Bm & Bt).
  destruct (g_sum_u16 s Hok) as [Hsum Hws].
  destruct (adjust_spec (of_be (g_sum s)) 1 mss (to_be 2 MAX_MSS)) as [Hu [k Hk]]; try done;
    [unfold len in *; lia|apply bytes_to_be|].
  set (s' := with_mss s pre mss tl). set (sum := adjust_checksum _ _ _) in *.
  assert (segment_ok s') as Hok'.
  { pose proof Hok as Hok2. lens Hok2. unfold s', with_mss. fold sum. split; cbn [with_rest g_rest].
    - cbn [map g_head g_cks g_src g_dst g_sport g_dport g_mid g_sum with_rest].
      rewrite len_to_be. repeat (f_equal; try done).
    - unfold packet_of, ip_fields, tcp_fields. cbn [concat with_rest g_head g_cks g_src g_dst g_options g_sport g_dport g_mid g_sum g_rest].
      rewrite !bytes_ok_app. split_and!; try done; try apply bytes_to_be; constructor.
    - rewrite !len_app. change (len [OPTION_MSS; 4]) with 2. nonneg_lens. lia.
    - rewrite at_head by done. cbn [with_rest g_head]. rewrite <- (at_head s) by lia. apply Hok.
    - rewrite at_head by done. cbn [with_rest g_head]. rewrite <- (at_head s) by lia. apply Hok.
    - unfold ihl. rewrite at_head by done. cbn [with_rest g_head g_options]. rewrite <- (at_head s) by lia. apply Hok.
    - etransitivity; [|apply (so_len _ Hok)]. unfold packet_of, ip_fields, tcp_fields.
      cbn [concat with_rest g_head g_cks g_src g_dst g_options g_sport g_dport g_mid g_sum g_rest].
      rewrite Hrest, !len_app, !len_to_be. lia. }
  split; [done|]. intros Heven. unfold tcp_verifies. rewrite !tcp_sum_segment by done.
  apply (verifies_congr _ _ k); [by apply seg_sum_bound|by apply seg_sum_bound|].
  unfold seg_sum, s', with_mss. fold sum. cbn [with_rest g_src g_dst g_sport g_dport g_mid g_sum g_rest].
  rewrite Hrest, Hws. rewrite (words_sum_u16 sum) by done. rewrite !len_app, len_to_be.
  apply Z.even_spec in Heven as [m Hm].
  assert (Hsplit : forall x : bytes, len x = 2 -> words_sum (pre ++ [OPTION_MSS; 4] ++ x ++ tl) =
    words_sum pre + (words_sum [OPTION_MSS; 4] + (words_sum x + words_sum tl))).
  { intros x Hx. pose proof (len_nonneg pre). rewrite (words_sum_app (Z.to_nat m) pre), (words_sum_app 1 [OPTION_MSS; 4]),
      (words_sum_app 1 x) by (done || lia). done. }
  rewrite !Hsplit by (done || llia). lia.
Qed.

Section Clamp.
Context (s : Segment) (Hok : segment_ok s).
Context (urg pre mss tl : bytes) (Hurg : len urg = 2) (Hmss : len mss = 2).
Context (Hrest : g_rest s = urg ++ pre ++ [OPTION_MSS; 4] ++ mss ++ tl) (Hpre : skipped pre).

(** The header length field covers the option. *)
Definition data_offset : Z := Z.shiftr (at_ 8 (g_mid s)) 4 * 4.
Context (Hsyn : Z.land (at_ 9 (g_mid s)) TCP_FLAG_SYN <> 0).
Context (Hoff : 20 + len pre + 4 <= data_offset <= 18 + len (g_rest s)).

Let front : bytes := concat [g_sport s; g_dport s; g_mid s; g_sum s; urg].

Lemma tcp_front : concat (tcp_fields s) = front ++ pre ++ [OPTION_MSS; 4] ++ mss ++ tl.
Proof. unfold front, tcp_fields. cbn [concat]. rewrite Hrest, !app_nil_r, <- !app_assoc. done. Qed.

Lemma len_front : len front = 20.
Proof. lens Hok. unfold front. cbn [concat]. rewrite !len_app, len_nil. lia. Qed.

Lemma flag_bytes :
  byte_at 12 (concat (tcp_fields s)) = Ok (at_ 8 (g_mid s)) /\ byte_at 13 (concat (tcp_fields s)) = Ok (at_ 9 (g_mid s)).
Proof.
  lens Hok.
  assert (forall j, 0 <= j < 12 -> byte_at (4 + j) (concat (tcp_fields s)) = Ok (at_ j (g_mid s))) as Hj;
    [|split; [apply (Hj 8)|apply (Hj 9)]; lia].
  intros j Hj. unfold tcp_fields. cbn [concat]. rewrite (app_assoc (g_sport s)).
  assert (len (g_sport s ++ g_dport s) = 4) as Hl by (rewrite len_app; lia).
  unfold byte_at, at_, get_at. rewrite !(proj2 (Z.leb_le _ _)) by lia.
  rewrite lookup_app_r by (unfold len in *; lia).
  replace (Z.to_nat (4 + j) - length (g_sport s ++ g_dport s))%nat with (Z.to_nat j) by (unfold len in *; lia).
  rewrite lookup_app_l by (unfold len in *; lia).
  by destruct (lookup_lt_is_Some_2 (g_mid s) (Z.to_nat j)) as [x ->]; [unfold len in *; lia|].
Qed.

(** The loop arrives at the option and clamps it. *)
Lemma clamp_reaches fuel :
  (length pre + 1 <= fuel)%nat ->
  clamp_options fuel (concat (tcp_fields s)) data_offset 20 =
  if MAX_MSS <? of_be mss
  then Ok (concat [g_sport s; g_dport s; g_mid s; to_be 2 (adjust_checksum (of_be (g_sum s)) mss (to_be 2 MAX_MSS));
                   urg ++ pre ++ [OPTION_MSS; 4] ++ to_be 2 MAX_MSS ++ tl])
  else Ok (concat (tcp_fields s)).
Proof.
  intros Hf. pose proof len_front as Hlf. rewrite tcp_front.
  destruct (clamp_skip pre fuel front ([OPTION_MSS; 4] ++ mss ++ tl) data_offset Hpre) as (f & Hf' & He); [lia|lia|].
  rewrite Hlf in He. rewrite He. destruct f as [|f]; [lia|]. nonneg_lens.
  assert (front ++ pre ++ [OPTION_MSS; 4] ++ mss ++ tl = (front ++ pre) ++ OPTION_MSS :: 4 :: mss ++ tl) as Eq
    by by rewrite <- app_assoc.
  cbn [clamp_options]. rewrite (proj2 (Z.leb_gt _ _)) by lia. rewrite Eq.
  rewrite byte_at_mid by (rewrite len_app; lia). cbn [rbind].
  change (OPTION_MSS =? OPTION_END) with false. change (OPTION_MSS =? OPTION_NOP) with false. cbv iota.
  rewrite (proj2 (Z.leb_gt _ _)) by lia.
  rewrite byte_at_next by (rewrite len_app; lia).
  cbn [rbind]. change (4 <? 2) with false. rewrite (proj2 (Z.ltb_ge _ _)) by lia.
  change ((OPTION_MSS =? OPTION_MSS) && (4 =? 4)) with true. cbn [orb]. cbv iota.
  assert (get_range (20 + len pre + 2) (20 + len pre + 4) ((front ++ pre) ++ OPTION_MSS :: 4 :: mss ++ tl) = Some mss) as Hg.
  { apply range_after; rewrite ?len_app; lia. }
  unfold u16_at at 1, slice at 1. cbn [fst snd]. replace (20 + len pre + 2 + 2) with (20 + len pre + 4) by lia.
  rewrite Hg. cbn [or_panic rbind]. case_if; [|by rewrite <- Eq, <- tcp_front].
  unfold slice at 1. cbn [fst snd]. rewrite Hg. cbn [or_panic rbind].
  rewrite <- Eq, <- tcp_front. lens Hok. unfold u16_at, slice, slice_copy, tcp_fields. cbn [fst snd].
  read_field 3%nat 4%nat. rewrite concat_one. write_field 3%nat. rewrite Hrest.
  set (sum := to_be 2 (adjust_checksum _ _ _)).
  assert (concat [g_sport s; g_dport s; g_mid s; sum; urg ++ pre ++ [OPTION_MSS; 4] ++ mss ++ tl] =
    concat [g_sport s; g_dport s; g_mid s; sum; urg; pre; [OPTION_MSS; 4]; mss; tl]) as ->.
  { cbn [concat]. by rewrite ?app_nil_r, <- ?app_assoc. }
  assert (len sum = 2) by (unfold sum; llia).
  erewrite (copy_field 7); [|reflexivity|cbn [take concat]; rewrite !len_app; change (len [OPTION_MSS; 4]) with 2; llia|lia|llia].
  cbn [or_panic insert list_insert]. f_equal. cbn [concat]. by rewrite ?app_nil_r, <- ?app_assoc.
Qed.

Lemma clamp_segment :
  exists sum', clamp_mss (packet_of s) =
      Ok (packet_of (with_rest s sum' (urg ++ pre ++ [OPTION_MSS; 4] ++ to_be 2 (Z.min (of_be mss) MAX_MSS) ++ tl))) /\
    (Z.even (len pre) = true ->
     verifies (tcp_sum (packet_of (with_rest s sum'
       (urg ++ pre ++ [OPTION_MSS; 4] ++ to_be 2 (Z.min (of_be mss) MAX_MSS) ++ tl)))) =
     tcp_verifies (packet_of s)).
Proof.
  destruct (seg_bytes s Hok) as (B1 & B2 & B3 & B4 & B5 & B6 & B7 & B8 & B9 & B10).
  rewrite Hrest, !bytes_ok_app in B10. destruct B10 as (Bu & Bp & Bk & Bm & Bt).
  destruct flag_bytes as [F12 F13]. destruct (g_sum_u16 s Hok) as [Hsum Hws].
  unfold clamp_mss. rewrite (tcp_offset_segment s Hok), (split_segment s Hok). cbn [rbind].
  rewrite F13. cbn [rbind]. rewrite (proj2 (Z.eqb_neq _ _)) by done. rewrite F12. cbn [rbind]. fold data_offset.
  unfold TCP_HEADER_LEN. nonneg_lens. rewrite (proj2 (Z.leb_gt data_offset 20)) by lia.
  rewrite (proj2 (Z.ltb_ge _ _)) by (rewrite (len_tcp s Hok); lia). cbn [orb].
  rewrite clamp_reaches by (unfold len in *; lia).
  destruct (MAX_MSS <? of_be mss) eqn:E; bool_hyps; cbn [rbind].
  - rewrite Z.min_r by lia. exists (to_be 2 (adjust_checksum (of_be (g_sum s)) mss (to_be 2 MAX_MSS))).
    split; [done|]. intros Heven. destruct (with_mss_ok s (urg ++ pre) mss tl Hok) as [_ Hv]; [by rewrite <- app_assoc|done|].
    unfold with_mss in Hv. rewrite <- app_assoc in Hv. apply Hv. rewrite len_app, Hurg, Z.even_add, Heven. done.
  - rewrite Z.min_l by lia. exists (g_sum s).
    assert (with_rest s (g_sum s) (urg ++ pre ++ [OPTION_MSS; 4] ++ to_be 2 (of_be mss) ++ tl) = s) as Hs.
    { rewrite to_of_be by done. rewrite <- Hrest. by destruct s. }
    rewrite Hs. by split.
Qed.

End Clamp.
