(* ===== verification/GatewayTheorems.v ===== *)
(** * Network address translation: the properties

    The theorems over [Gateway.v], from the facts of [GatewayFacts.v]: flow
    tables, translation, clamping, datagrams, and where the code goes wrong. *)

From S2P Require Import Prelude Timers Gateway GatewayFacts.
Import nat Ones.

(** ** Flow tables *)

Module TableFacts.

Lemma matches_key k f : matches k f = true <-> key_of f = k.
Proof.
  destruct k as [[[ci cp] si] sp]. unfold matches, key_of. rewrite !andb_true_iff, !bytes_eqb_true, !Z.eqb_eq.
  split; [intros [[[-> ->] ->] ->]; done|]. intros H. by injection H as -> -> -> ->.
Qed.

Lemma key_flow_of k now : key_of (flow_of k now) = k.
Proof. by destruct k as [[[? ?] ?] ?]. Qed.

Lemma least_recent_None idle now i l m g :
  least_recent idle now i l = None -> l !! m = Some (Some g) -> is_idle idle now g = false.
Proof.
  revert i m; induction l as [|o l IH]; intros i m H Hg; [done|]. simpl in H.
  destruct m as [|m]; simpl in Hg.
  - simplify_eq. destruct (is_idle idle now g); [|done].
    destruct (least_recent _ _ _ l) as [[? ?]|]; [by case_if|done].
  - destruct (least_recent idle now (S i) l) as [[? ?]|] eqn:E2; [|by eapply IH].
    destruct o as [h|]; [|done]. by repeat case_if.
Qed.

(** The choice among idle flows: it is idle and none was used before it. *)
Lemma least_recent_Some idle now i l j t :
  least_recent idle now i l = Some (j, t) ->
  (i <= j)%nat /\ (exists f, l !! (j - i)%nat = Some (Some f) /\ is_idle idle now f = true /\ last_used_ms f = t) /\
  forall m g, l !! m = Some (Some g) -> is_idle idle now g = true -> t <= last_used_ms g.
Proof.
  revert i j t; induction l as [|o l IH]; intros i j t H; simpl in H; [done|].
  assert (Hrest : forall j t, least_recent idle now (S i) l = Some (j, t) ->
    (i <= j)%nat /\ exists f, (o :: l) !! (j - i)%nat = Some (Some f) /\ is_idle idle now f = true /\ last_used_ms f = t).
  { intros j' t' H'. apply IH in H' as (Hle & (f & Hf & Hi & Ht) & _). split; [lia|]. exists f.
    by replace (j' - i)%nat with (S (j' - S i)) by lia. }
  destruct o as [f|]; [destruct (is_idle idle now f) eqn:Ei|].
  - destruct (least_recent idle now (S i) l) as [[j' t']|] eqn:Er.
    + apply IH in Er as Hmin. destruct Hmin as (_ & _ & Hmin). case_if; bool_hyps; simplify_eq.
      * split; [lia|]. split; [exists f; by rewrite Nat.sub_diag|].
        intros [|m] g Hg Hgi; simpl in Hg; [by simplify_eq|]. specialize (Hmin m g Hg Hgi). lia.
      * destruct (Hrest j t eq_refl) as [? ?]. split; [done|]. split; [done|].
        intros [|m] g Hg Hgi; simpl in Hg; [simplify_eq; lia|]. by eapply Hmin.
    + simplify_eq. split; [lia|]. split; [exists f; by rewrite Nat.sub_diag|].
      intros [|m] g Hg Hgi; simpl in Hg; [by simplify_eq|].
      pose proof (least_recent_None _ _ _ _ _ _ Er Hg). congruence.
  - apply IH in H as Hmin. destruct Hmin as (_ & _ & Hmin). destruct (Hrest j t H) as [? ?]. split; [done|]. split; [done|].
    intros [|m] g Hg Hgi; simpl in Hg; [simplify_eq; congruence|]. by eapply Hmin.
  - apply IH in H as Hmin. destruct Hmin as (_ & _ & Hmin). destruct (Hrest j t H) as [? ?]. split; [done|]. split; [done|].
    intros [|m] g Hg Hgi; simpl in Hg; [done|]. by eapply Hmin.
Qed.

(** No flow occupies two slots. *)
Definition unique (t : table) : Prop :=
  forall i j f g, t !! i = Some (Some f) -> t !! j = Some (Some g) -> key_of f = key_of g -> i = j.

Lemma get_Some (t : table) (i : nat) f : get t i = Some f <-> t !! i = Some (Some f).
Proof. unfold get. destruct (t !! i) as [[?|]|]; simpl; naive_solver. Qed.

(** Replacing a slot's flow by one with a key no other slot holds. *)
Lemma unique_insert (t : table) (i : nat) f :
  unique t -> (forall j g, j <> i -> t !! j = Some (Some g) -> key_of g <> key_of f) -> unique (<[i := Some f]> t).
Proof.
  intros Hu Hk a b fa fb Ha Hb Hab. apply list_lookup_insert_Some in Ha, Hb.
  destruct Ha as [(<- & Ha & _)|(Hna & Ha)], Hb as [(<- & Hb & _)|(Hnb & Hb)]; try done.
  - injection Ha as <-. pose proof (Hk b fb (not_eq_sym Hnb) Hb). congruence.
  - injection Hb as <-. pose proof (Hk a fa (not_eq_sym Hna) Ha). congruence.
  - by eapply Hu.
Qed.

(** Touching a flow is storing it again. *)
Lemma alter_insert (t : table) (i : nat) f now :
  t !! i = Some (Some f) ->
  alter (fmap (fun f => with_last_used f now)) i t = <[i := Some (flow_of (key_of f) now)]> t.
Proof.
  intros Hi. apply list_eq. intros j. destruct (decide (i = j)) as [<-|Hj].
  - rewrite list_lookup_alter_eq, Hi, list_lookup_insert_eq by (by eapply lookup_lt_Some). done.
  - by rewrite list_lookup_alter_ne, list_lookup_insert_ne.
Qed.

(** The slot a new flow takes: free, or the least recently used of the idle. *)
Lemma victim_Some idle now t i :
  victim idle now t = Some i ->
  (i < length t)%nat /\ forall f, t !! i = Some (Some f) ->
    is_idle idle now f = true /\ (forall j, t !! j <> Some None) /\
    forall j g, t !! j = Some (Some g) -> is_idle idle now g = true -> last_used_ms f <= last_used_ms g.
Proof.
  unfold victim. destruct (position is_free t) as [i'|] eqn:Ef.
  - intros [= <-]. apply position_Some in Ef as (o & Ho & Hfree). split; [by eapply lookup_lt_Some|].
    intros f Hf. rewrite Ho in Hf. by simplify_eq.
  - destruct (least_recent idle now 0 t) as [[j u]|] eqn:El; [|done]. intros [= <-].
    apply least_recent_Some in El as (_ & (f & Hf & Hid & <-) & Hmin). rewrite Nat.sub_0_r in Hf.
    split; [by eapply lookup_lt_Some|]. intros f' Hf'. rewrite Hf in Hf'. simplify_eq.
    split_and!; [done| |done]. intros m Hm. by pose proof (position_None_lookup _ _ Ef _ _ Hm).
Qed.

Lemma victim_None idle now (t : table) (j : nat) o :
  victim idle now t = None -> t !! j = Some o -> exists g, o = Some g /\ is_idle idle now g = false.
Proof.
  unfold victim. destruct (position is_free t) as [i'|] eqn:Ef; [done|].
  destruct (least_recent idle now 0 t) as [[j' u]|] eqn:El; [done|]. intros _ Hj.
  pose proof (position_None_lookup _ _ Ef _ _ Hj) as Hf. destruct o as [g|]; [|done]. exists g. split; [done|].
  by eapply least_recent_None.
Qed.

(** What asking for a slot does. *)
Lemma slot_for_spec (idle now : Z) (t t' : table) (k : key) (r : option nat) :
  unique t -> slot_for idle t k now = (t', r) ->
  unique t' /\ length t' = length t /\
  (forall i, r = Some i -> get t' i = Some (flow_of k now) /\ forall j, j <> i -> t' !! j = t !! j) /\
  (forall i f, get t i = Some f -> key_of f = k -> r = Some i) /\
  (forall i f, r = Some i -> get t i = Some f -> key_of f <> k ->
     is_idle idle now f = true /\ (forall j, t !! j <> Some None) /\
     forall j g, get t j = Some g -> is_idle idle now g = true -> last_used_ms f <= last_used_ms g) /\
  (r = None -> t' = t /\ forall j o, t !! j = Some o -> exists g, o = Some g /\ is_idle idle now g = false).
Proof.
  intros Hu. unfold slot_for. destruct (position (holds k) t) as [i|] eqn:Ep.
  - apply position_Some in Ep as (o & Hi & Hh). destruct o as [f|]; [|done]. simpl in Hh.
    apply matches_key in Hh. assert (i < length t)%nat by by eapply lookup_lt_Some.
    rewrite (alter_insert t i f) by done. rewrite Hh. intros [= <- <-]. split_and!; try done.
    + apply unique_insert; [done|]. intros j g Hj Hg Hk. rewrite key_flow_of in Hk. apply Hj.
      eapply Hu; [exact Hg|exact Hi|congruence].
    + by rewrite length_insert.
    + intros j [= <-]. rewrite get_Some, list_lookup_insert_eq by done. split; [done|]. intros j Hj.
      by rewrite list_lookup_insert_ne.
    + intros j g Hg%get_Some Hk. f_equal. eapply Hu; [exact Hi|exact Hg|congruence].
    + intros j g [= <-] Hg%get_Some Hne. rewrite Hi in Hg. by simplify_eq.
  - assert (Hnk : forall j g, t !! j = Some (Some g) -> key_of g <> k).
    { intros j g Hg Hk. pose proof (position_None_lookup _ _ Ep j _ Hg) as Hn. simpl in Hn.
      apply matches_key in Hk. congruence. }
    destruct (victim idle now t) as [i|] eqn:Ev; intros [= <- <-].
    + destruct (victim_Some _ _ _ _ Ev) as [Hlt Hv]. split_and!; try done.
      * apply unique_insert; [done|]. intros j g _ Hg. rewrite key_flow_of. by eapply Hnk.
      * by rewrite length_insert.
      * intros j [= <-]. rewrite get_Some, list_lookup_insert_eq by done. split; [done|]. intros j Hj.
        by rewrite list_lookup_insert_ne.
      * intros j g Hg%get_Some Hk. by destruct (Hnk j g Hg).
      * intros j f [= <-] Hf%get_Some Hne. destruct (Hv f Hf) as (? & ? & Hmin). split_and!; try done.
        intros j g Hg%get_Some. by eapply Hmin.
    + split_and!; try done.
      * intros j g Hg%get_Some Hk. by destruct (Hnk j g Hg).
      * intros _. split; [done|]. intros j o. by apply victim_None.
Qed.

End TableFacts.
Import TableFacts.

(** How a flow gets its slot.  Asking for a flow in a table without
    duplicates leaves a table without duplicates.  The slot returned holds the
    flow, used now, and no other slot changes.  A flow that had a slot keeps it.
    One that is displaced was idle for the timeout, no slot was free, and no idle
    flow had been used longer ago; and a flow is refused only when every slot
    holds another flow that is not idle. *)
Theorem slot_for_correct (idle now : Z) (t t' : table) (k : key) (r : option nat) :
  unique t -> slot_for idle t k now = (t', r) ->
  unique t' /\ length t' = length t /\
  (forall i, r = Some i -> get t' i = Some (flow_of k now) /\ forall j, j <> i -> t' !! j = t !! j) /\
  (forall i f, get t i = Some f -> key_of f = k -> r = Some i) /\
  (forall i f, r = Some i -> get t i = Some f -> key_of f <> k ->
     is_idle idle now f = true /\ (forall j, t !! j <> Some None) /\
     forall j g, get t j = Some g -> is_idle idle now g = true -> last_used_ms f <= last_used_ms g) /\
  (r = None -> t' = t /\ forall j o, t !! j = Some o -> exists g, o = Some g /\ is_idle idle now g = false).
Proof. apply slot_for_spec. Qed.

Lemma slot_for_correct_witness :
  let t := [Some (mkFlow [10; 0; 0; 1] 5 [8; 8; 8; 8] 53 1000)] in
  let k := ([10; 0; 0; 2], 6, [9; 9; 9; 9], 53) in
  let t' := [Some (flow_of k 40000)] in
  unique t' /\ length t' = length t /\
  (forall i, Some 0%nat = Some i -> get t' i = Some (flow_of k 40000) /\ forall j, j <> i -> t' !! j = t !! j) /\
  (forall i f, get t i = Some f -> key_of f = k -> Some 0%nat = Some i) /\
  (forall i f, Some 0%nat = Some i -> get t i = Some f -> key_of f <> k ->
     is_idle IDLE_TIMEOUT_MS 40000 f = true /\ (forall j, t !! j <> Some None) /\
     forall j g, get t j = Some g -> is_idle IDLE_TIMEOUT_MS 40000 g = true -> last_used_ms f <= last_used_ms g) /\
  (Some 0%nat = None -> t' = t /\ forall j o, t !! j = Some o -> exists g, o = Some g /\ is_idle IDLE_TIMEOUT_MS 40000 g = false).
Proof.
  intros t k t'. apply (slot_for_correct IDLE_TIMEOUT_MS 40000 t t' k (Some 0%nat)).
  - intros [|i] [|j] f g Hi Hj; try done; by destruct i || destruct j.
  - vm_compute. reflexivity.
Defined.

(** ** Translation *)

Import GatewayFacts.SegmentFacts GatewayFacts.TranslationFacts GatewayFacts.ClampFacts.

(** Translation keeps a segment valid and changes nothing else.  For every
    well-formed TCP segment (options and payload of any length), rewriting it
    outbound replaces exactly the source address and port and the two checksums,
    inbound the destination address and port; without IPv4 options the header
    checksum of the result verifies, and with or without them its TCP checksum verifies if and only if that of the original
    did (the incremental update neither breaks nor repairs it). *)
Theorem translation_preserves_checksums (s : Segment) (ip' : bytes) (port' : Z) :
  segment_ok s -> len ip' = 4 -> bytes_ok ip' -> is_u16 port' ->
  (exists cks' sum', let s' := with_source s ip' (to_be 2 port') cks' sum' in
     rewrite_tcp_outbound (packet_of s) ip' port' = Ok (packet_of s', true) /\ segment_ok s' /\
     (g_options s' = [] -> header_verifies (packet_of s') = true) /\ tcp_verifies (packet_of s') = tcp_verifies (packet_of s)) /\
  (exists cks' sum', let s' := with_destination s ip' (to_be 2 port') cks' sum' in
     rewrite_tcp_inbound (packet_of s) ip' port' = Ok (packet_of s', true) /\ segment_ok s' /\
     (g_options s' = [] -> header_verifies (packet_of s') = true) /\ tcp_verifies (packet_of s') = tcp_verifies (packet_of s)).
Proof.
  intros Hok Hip Bip Hport. unfold tcp_verifies. split.
  - destruct (outbound_ok s ip' port' Hok Hip Bip Hport) as (cks' & sum' & Hr & Hs & Hh & Ht).
    exists cks', sum'. cbv zeta. rewrite !tcp_sum_segment by done. split_and!; try done.
    intros Ho. by rewrite header_verifies_plain.
  - destruct (inbound_ok s ip' port' Hok Hip Bip Hport) as (cks' & sum' & Hr & Hs & Hh & Ht).
    exists cks', sum'. cbv zeta. rewrite !tcp_sum_segment by done. split_and!; try done.
    intros Ho. by rewrite header_verifies_plain.
Qed.

(** A SYN from 10.0.0.2:1234 to 1.2.3.4:80 with an MSS of 1460. *)
Definition example_segment : Segment :=
  mkSegment [0x45; 0; 0; 44; 0; 0; 0x40; 0; 64; 6] [0; 0] [10; 0; 0; 2] [1; 2; 3; 4] []
    [4; 210] [0; 80] [0; 0; 0; 1; 0; 0; 0; 0; 0x60; 2; 16; 0] [0x63; 0xb2] [0; 0; 2; 4; 5; 180].

Lemma example_segment_ok : segment_ok example_segment.
Proof.
  split; try (vm_compute; reflexivity || discriminate).
  vm_compute. repeat constructor; discriminate.
Qed.

Lemma translation_preserves_checksums_witness :
  (exists cks' sum', let s' := with_source example_segment [192; 168; 4; 1] (to_be 2 41000) cks' sum' in
     rewrite_tcp_outbound (packet_of example_segment) [192; 168; 4; 1] 41000 = Ok (packet_of s', true) /\ segment_ok s' /\
     (g_options s' = [] -> header_verifies (packet_of s') = true) /\ tcp_verifies (packet_of s') = tcp_verifies (packet_of example_segment)) /\
  (exists cks' sum', let s' := with_destination example_segment [192; 168; 4; 1] (to_be 2 41000) cks' sum' in
     rewrite_tcp_inbound (packet_of example_segment) [192; 168; 4; 1] 41000 = Ok (packet_of s', true) /\ segment_ok s' /\
     (g_options s' = [] -> header_verifies (packet_of s') = true) /\ tcp_verifies (packet_of s') = tcp_verifies (packet_of example_segment)).
Proof.
  apply (translation_preserves_checksums example_segment [192; 168; 4; 1] 41000);
    [apply example_segment_ok|reflexivity|repeat constructor; vm_compute; discriminate|split; vm_compute; (reflexivity || discriminate)].
Defined.

(** ** Clamping *)

(** Clamping always ends and never leaves the segment.  For any packet at
    all [clamp_mss] returns a packet of the same length: the option loop
    terminates and no access is out of range. *)
Theorem clamp_mss_total (packet : bytes) :
  bytes_ok packet -> exists packet', clamp_mss packet = Ok packet' /\ len packet' = len packet.
Proof.
  intros Hb. unfold clamp_mss. destruct (tcp_offset packet) as [h|] eqn:Eo; [|by eexists].
  unfold tcp_offset in Eo. repeat case_if; try done. injection Eo as <-. bool_hyps.
  assert (0 <= ihl packet) as H0.
  { unfold ihl. change 0x0f with (Z.ones 4). rewrite Z.land_ones by lia.
    pose proof (Z.mod_pos_bound (at_ 0 packet) (2 ^ 4)). lia. }
  set (h := ihl packet) in *. unfold TCP_HEADER_LEN in *.
  unfold split_at, slice. cbn [fst snd]. rewrite !get_range_in by lia. cbn [or_panic rbind].
  set (tcp := sub_range h (len packet) packet). assert (len tcp = len packet - h) as Hl by (unfold tcp; rewrite len_sub_range; lia).
  assert (len (sub_range 0 h packet) = h) as Hl0 by (rewrite len_sub_range; lia).
  destruct (byte_at_in 13 tcp) as (fl & -> & _); [lia|]. cbn [rbind]. case_if; [by eexists|].
  destruct (byte_at_in 12 tcp) as (off & -> & Hoff); [lia|]. cbn [rbind].
  assert (bytes_ok tcp) as Ht by by apply bytes_ok_sub_range. apply get_at_ok in Hoff; [|done].
  case_if; [by eexists|]. bool_hyps.
  destruct (clamp_options_total (Z.to_nat (Z.shiftr off 4 * 4)) tcp (Z.shiftr off 4 * 4) 20) as (t' & -> & Ht');
    try done; try lia. cbn [rbind]. eexists. split; [done|]. rewrite len_app. lia.
Qed.

Lemma clamp_mss_total_witness :
  exists packet', clamp_mss (packet_of example_segment) = Ok packet' /\ len packet' = 44.
Proof. apply (clamp_mss_total (packet_of example_segment)). apply example_segment_ok. Defined.

(** What clamping does to a SYN.  Behind any options the loop walks over,
    the MSS option's value becomes the smaller of itself and [MAX_MSS], nothing
    else but the checksum changes, and when the option starts at an even offset
    the TCP checksum verifies if and only if it did before. *)
Theorem clamp_mss_exact (s : Segment) (urg pre mss tl : bytes) :
  segment_ok s -> len urg = 2 -> len mss = 2 ->
  g_rest s = urg ++ pre ++ [OPTION_MSS; 4] ++ mss ++ tl -> skipped pre ->
  Z.land (at_ 9 (g_mid s)) TCP_FLAG_SYN <> 0 ->
  20 + len pre + 4 <= data_offset s <= 18 + len (g_rest s) ->
  exists sum',
    let s' := with_rest s sum' (urg ++ pre ++ [OPTION_MSS; 4] ++ to_be 2 (Z.min (of_be mss) MAX_MSS) ++ tl) in
    clamp_mss (packet_of s) = Ok (packet_of s') /\
    (Z.even (len pre) = true -> tcp_verifies (packet_of s') = tcp_verifies (packet_of s)).
Proof. intros. by apply clamp_segment. Qed.

Lemma clamp_mss_exact_witness :
  exists sum',
    let s' := with_rest example_segment sum' ([0; 0] ++ [] ++ [OPTION_MSS; 4] ++ to_be 2 (Z.min (of_be [5; 180]) MAX_MSS) ++ []) in
    clamp_mss (packet_of example_segment) = Ok (packet_of s') /\
    (Z.even (len (@nil Z)) = true -> tcp_verifies (packet_of s') = tcp_verifies (packet_of example_segment)).
Proof.
  apply (clamp_mss_exact example_segment [0; 0] [] [5; 180] []);
    first [apply example_segment_ok | apply skipped_nil | vm_compute; (reflexivity || discriminate) | vm_compute; intuition discriminate].
Defined.

(** ** Datagrams *)

(** The sum a receiver of a UDP datagram verifies. *)
Definition udp_sum (packet : bytes) : Z :=
  let udp := zdrop 20 packet in
  pseudo_header_sum (sub_range 12 16 packet) (sub_range 16 20 packet) (len udp) + words_sum udp.

Section Udp.
Context (si di payload : bytes) (sp dp : Z).
Context (Hsi : len si = 4) (Hdi : len di = 4) (Bsi : bytes_ok si) (Bdi : bytes_ok di).
Context (Hsp : is_u16 sp) (Hdp : is_u16 dp) (Bp : bytes_ok payload) (Hp : len payload <= 65507).

Definition udp_fields (cks sum : bytes) : list bytes :=
  [[0x45]; [0]; to_be 2 (28 + len payload); [0; 0]; to_be 2 0x4000; [64]; [PROTO_UDP]; cks; si; di;
   to_be 2 sp; to_be 2 dp; to_be 2 (8 + len payload); sum; payload].

Ltac ufield k := unfold set_at; write_field k.

(** The checksums [build_udp4] computes. *)
Let head : bytes := concat (take 10 (udp_fields [0; 0] [0; 0])).
Let body : bytes := concat (drop 10 (udp_fields [0; 0] [0; 0])).
Definition header_sum : Z := inner.checksum head.
Definition datagram_sum : Z :=
  let sum := checksum_with_carry body (pseudo_header_sum si di (8 + len payload)) in if sum =? 0 then 0xffff else sum.

Lemma build_udp4_layout o :
  28 + len payload <= len o ->
  build_udp4 si sp di dp payload o =
  Ok (Some (concat (udp_fields (to_be 2 header_sum) (to_be 2 datagram_sum)) ++ zdrop (28 + len payload) o, 28 + len payload)).
Proof.
  intros Ho. unfold build_udp4, IPV4_HEADER_LEN, UDP_HEADER_LEN. nonneg_lens.
  replace (20 + 8 + len payload) with (28 + len payload) by lia.
  rewrite get_range_in by lia.
  assert (len (sub_range 0 (28 + len payload) o) = 28 + len payload) as Hl by (rewrite len_sub_range; lia).
  revert Hl. generalize (sub_range 0 (28 + len payload) o). intros buf Hl.
  name_fields buf [1; 1; 2; 2; 2; 1; 1; 2; 4; 4; 2; 2; 2; 2; len payload]. clear Hl.
  unfold slice_copy, fill_zero, slice. cbn [fst snd].
  ufield 0%nat. ufield 1%nat. ufield 2%nat. ufield 3%nat. ufield 4%nat. ufield 5%nat. ufield 6%nat. ufield 7%nat.
  ufield 8%nat. ufield 9%nat.
  rewrite (get_fields 0 10); [|lia|done|cbn [take drop concat Nat.sub]; llia].
  cbn [or_panic rbind take drop Nat.sub]. ufield 7%nat. ufield 10%nat. ufield 11%nat. ufield 12%nat. ufield 13%nat. ufield 14%nat.
  rewrite (get_fields 10 15); [|lia|cbn [take concat]; llia|cbn [take drop concat Nat.sub]; llia].
  cbn [or_panic rbind take drop Nat.sub]. ufield 13%nat.
  unfold wrap. rewrite (Z.mod_small (8 + len payload)) by (change (2 ^ 16) with 65536; lia). reflexivity.
Qed.

Lemma head_split : head = concat (take 7 (udp_fields [0; 0] [0; 0])) ++ [0; 0] ++ si ++ di.
Proof. unfold head, udp_fields. cbn [take concat]. by rewrite !app_nil_r, <- !app_assoc. Qed.

Lemma body_split : body = (to_be 2 sp ++ to_be 2 dp ++ to_be 2 (8 + len payload)) ++ [0; 0] ++ payload.
Proof. unfold body, udp_fields. cbn [drop concat]. by rewrite !app_nil_r, <- !app_assoc. Qed.

Lemma head_bound : 0 < words_sum head < 2 ^ 32 - 65536.
Proof using Hsi Hdi Bsi Bdi.
  assert (bytes_ok head) as Hb.
  { rewrite head_split, !bytes_ok_app. split_and!; try done; [|repeat constructor; lia].
    cbn [udp_fields take concat]. rewrite !bytes_ok_app. split_and!; try apply bytes_to_be; repeat constructor; vm_compute; discriminate. }
  pose proof (words_sum_bound head Hb) as Hw. assert (len head = 20) as Hl.
  { rewrite head_split. cbn [udp_fields take concat]. llia. }
  split; [|lia]. unfold head, udp_fields. cbn [take concat app].
  apply Forall_cons_iff in Hb as [_ Hb]. apply Forall_cons_iff in Hb as [_ Hb].
  pose proof (words_sum_bound _ Hb) as Hr. unfold words_sum in *. cbn [words foldr].
  unfold of_be, reverse. cbn [rev_append of_le]. cbn [take concat app] in Hr. lia.
Qed.

Lemma header_sum_ok :
  is_u16 header_sum /\ verifies (words_sum (concat (take 10 (udp_fields (to_be 2 header_sum) [0; 0])))) = true.
Proof using Hsi Hdi Bsi Bdi.
  pose proof head_bound as Hb. destruct (finish_spec (words_sum head)) as [Hf _]; [lia|]. split; [exact Hf|].
  replace (concat _) with (concat (take 7 (udp_fields [0; 0] [0; 0])) ++ to_be 2 header_sum ++ si ++ di)
    by (unfold udp_fields; cbn [take concat]; by rewrite !app_nil_r, <- !app_assoc).
  rewrite (words_sum_store 5), <- head_split; [apply finish_verifies; lia|cbn [udp_fields take concat]; llia|exact Hf].
Qed.

Lemma datagram_sum_ok :
  is_u16 datagram_sum /\ datagram_sum <> 0 /\
  verifies (pseudo_header_sum si di (8 + len payload) +
            words_sum ((to_be 2 sp ++ to_be 2 dp ++ to_be 2 (8 + len payload)) ++ to_be 2 datagram_sum ++ payload)) = true.
Proof using Hsi Hdi Bsi Bdi Bp Hp.
  assert (bytes_ok body) as Hb.
  { rewrite body_split, !bytes_ok_app. split_and!; try done; try apply bytes_to_be. repeat constructor; lia. }
  assert (pseudo_header_sum si di (8 + len payload) = words_sum (si ++ di) + 25 + len payload) as Hps.
  { unfold pseudo_header_sum, words_sum. rewrite !(pairs_even 2), (words_app 2) by (unfold len in Hsi, Hdi; lia). unfold PROTO_UDP. lia. }
  assert (bytes_ok (si ++ di)) as Ba by by apply bytes_ok_app.
  pose proof (words_sum_bound body Hb) as Hw. pose proof (words_sum_bound _ Ba) as Hwa. nonneg_lens.
  assert (len body = 8 + len payload) as Hl by (rewrite body_split; llia).
  assert (len (si ++ di) = 8) as Hla by llia. clear Hsi Hdi.
  set (s := pseudo_header_sum si di (8 + len payload) + words_sum body).
  assert (0 < s < 2 ^ 32 - 65536) as Hs by (unfold s; lia).
  destruct (finish_spec s) as [Hf _]; [lia|]. change datagram_sum with (if finish s =? 0 then 0xffff else finish s).
  assert (is_u16 (if finish s =? 0 then 0xffff else finish s)) as Hd by (unfold is_uint; case_if; lia).
  split_and!; [done|case_if; bool_hyps; lia|].
  rewrite (words_sum_store 3), <- body_split; [|llia|done]. rewrite Z.add_assoc. fold s. by apply finish_verifies_nonzero.
Qed.

Ltac ufound i j :=
  etransitivity;
  [apply (get_fields i j); first [lia | cbn [udp_fields take drop concat Nat.sub]; llia]
  |first [reflexivity | cbn [udp_fields take drop concat Nat.sub]; by rewrite ?app_nil_r]].

(** The datagram as [parse_udp4] reads it. *)
Lemma parse_udp4_layout cks sum :
  len cks = 2 -> len sum = 2 -> parse_udp4 (concat (udp_fields cks sum)) = Ok (Some (mkUdp4 si di sp dp payload)).
Proof using Hsi Hdi Hsp Hdp Hp.
  intros Hc Hs. set (p := concat (udp_fields cks sum)). set (u := concat (drop 10 (udp_fields cks sum))).
  assert (len p = 28 + len payload) as Hl by (unfold p; cbn [udp_fields concat]; llia).
  assert (len u = 8 + len payload) as Hlu by (unfold u; cbn [udp_fields drop concat]; llia).
  assert (at_ 0 p = 0x45) as P0 by done.
  assert (at_ 9 p = PROTO_UDP) as P9 by (unfold p, udp_fields; cbn [concat app]; reflexivity).
  assert (get_range 6 8 p = Some (to_be 2 0x4000)) as G6 by ufound 4%nat 5%nat.
  assert (get_range 12 16 p = Some si) as G12 by ufound 8%nat 9%nat.
  assert (get_range 16 20 p = Some di) as G16 by ufound 9%nat 10%nat.
  assert (get_range 20 (len p) p = Some u) as G20 by (rewrite Hl; ufound 10%nat 15%nat).
  assert (get_range 0 2 u = Some (to_be 2 sp)) as U0 by ufound 0%nat 1%nat.
  assert (get_range 2 4 u = Some (to_be 2 dp)) as U2 by ufound 1%nat 2%nat.
  assert (get_range 4 6 u = Some (to_be 2 (8 + len payload))) as U4 by ufound 2%nat 3%nat.
  assert (get_range 8 (8 + len payload) u = Some payload) as U8 by ufound 4%nat 5%nat.
  clearbody p u. pose proof (len_nonneg payload).
  unfold parse_udp4, not_ipv4, ihl, IPV4_HEADER_LEN, UDP_HEADER_LEN, u16_at, slice. rewrite P0, P9, Hl. cbn [fst snd].
  rewrite (proj2 (Z.ltb_ge _ _)) by lia. change (Z.land 0x45 0x0f * 4) with 20. rewrite <- Hl, G20.
  change (0 + 2) with 2. change (2 + 2) with 4. change (4 + 2) with 6. change (6 + 2) with 8.
  rewrite G6, G12, G16, U0, U2, U4, Hlu. cbn [or_panic rbind].
  rewrite !of_to_be_small by (first [done | simpl; lia]).
  rewrite (proj2 (Z.ltb_ge _ _)), !(proj2 (Z.leb_le _ _)), U8 by lia. reflexivity.
Qed.


Lemma udp_receiver cks sum :
  len cks = 2 -> len sum = 2 ->
  let p := concat (udp_fields cks sum) in
  header_verifies p = verifies (words_sum (concat (take 10 (udp_fields cks [0; 0])))) /\
  udp_sum p = pseudo_header_sum si di (8 + len payload) +
    words_sum ((to_be 2 sp ++ to_be 2 dp ++ to_be 2 (8 + len payload)) ++ sum ++ payload) /\
  sub_range 26 28 p = sum.
Proof using Hsi Hdi.
  intros Hc Hs p. unfold header_verifies, udp_sum. change (ihl p) with 20.
  set (hd := concat (take 10 (udp_fields cks [0; 0]))).
  set (bd := (to_be 2 sp ++ to_be 2 dp ++ to_be 2 (8 + len payload)) ++ sum ++ payload).
  assert (p = hd ++ bd) as Hsplit.
  { unfold p, hd, bd, udp_fields. cbn [take concat]. by rewrite !app_nil_r, <- !app_assoc. }
  assert (len hd = 20) as Hh by (unfold hd; cbn [udp_fields take concat]; llia).
  assert (len bd = 8 + len payload) as Hb by (unfold bd; llia).
  assert (get_range 12 16 p = Some si) as G12 by ufound 8%nat 9%nat.
  assert (get_range 16 20 p = Some di) as G16 by ufound 9%nat 10%nat.
  assert (get_range 26 28 p = Some sum) as G26 by ufound 13%nat 14%nat.
  apply get_range_Some in G12 as (_ & _ & S12), G16 as (_ & _ & S16), G26 as (_ & _ & S26).
  rewrite <- S12, <- S16, <- S26, Hsplit.
  rewrite ztake_app_len, zdrop_app_len by done. by rewrite Hb.
Qed.

End Udp.

(** A datagram that fits: how it is built, and read. *)
Lemma udp_built (si di payload o : bytes) (sp dp : Z) :
  len si = 4 -> len di = 4 -> bytes_ok (si ++ di ++ payload) -> is_u16 sp -> is_u16 dp -> len payload <= 65507 ->
  28 + len payload <= len o ->
  exists packet, build_udp4 si sp di dp payload o = Ok (Some (packet ++ zdrop (28 + len payload) o, len packet)) /\
    len packet = 28 + len payload /\
    parse_udp4 packet = Ok (Some (mkUdp4 si di sp dp payload)) /\
    header_verifies packet = true /\ verifies (udp_sum packet) = true /\ of_be (sub_range 26 28 packet) <> 0 /\
    exists tl, packet = [0x45; 0] ++ to_be 2 (28 + len payload) ++ tl.
Proof.
  intros Hsi Hdi Hb Hsp Hdp Hp Ho. rewrite !bytes_ok_app in Hb. destruct Hb as (Bs & Bd & Bp).
  exists (concat (udp_fields si di payload sp dp (to_be 2 (header_sum si di payload sp dp)) (to_be 2 (datagram_sum si di payload sp dp)))).
  destruct (header_sum_ok si di payload sp dp) as [Hh Vh]; try done.
  destruct (datagram_sum_ok si di payload sp dp) as (Hd & Nd & Vd); try done.
  destruct (udp_receiver si di payload sp dp Hsi Hdi _ (to_be 2 (datagram_sum si di payload sp dp))
    (len_to_be 2 (header_sum si di payload sp dp)) (len_to_be 2 _)) as (-> & -> & ->).
  assert (forall c s, len c = 2 -> len s = 2 -> len (concat (udp_fields si di payload sp dp c s)) = 28 + len payload) as Hlen
    by (intros; cbn [udp_fields concat]; llia).
  rewrite Hlen by apply len_to_be. rewrite build_udp4_layout by done. split_and!; try done.
  - by apply parse_udp4_layout; try apply len_to_be.
  - by rewrite of_to_be_small.
  - by eexists.
Qed.

(** Datagrams are built as they are parsed.  With room in the buffer,
    [build_udp4] writes a datagram in front of it and leaves the rest alone;
    [parse_udp4] reads it back as the addresses, ports and payload it was built
    from; the header checksum and the UDP checksum verify, and the latter is never
    the zero that means none.  Without room nothing is built. *)
Theorem udp_roundtrip (si di payload o : bytes) (sp dp : Z) :
  len si = 4 -> len di = 4 -> bytes_ok (si ++ di ++ payload) -> is_u16 sp -> is_u16 dp -> len payload <= 65507 ->
  (len o < 28 + len payload -> build_udp4 si sp di dp payload o = Ok None) /\
  (28 + len payload <= len o ->
   exists packet, build_udp4 si sp di dp payload o = Ok (Some (packet ++ zdrop (28 + len payload) o, len packet)) /\
     len packet = 28 + len payload /\
     parse_udp4 packet = Ok (Some (mkUdp4 si di sp dp payload)) /\
     header_verifies packet = true /\ verifies (udp_sum packet) = true /\ of_be (sub_range 26 28 packet) <> 0).
Proof.
  intros Hsi Hdi Hb Hsp Hdp Hp. split; intros Ho; [|destruct (udp_built si di payload o sp dp) as (packet & ?); try done; exists packet; tauto].
  unfold build_udp4, IPV4_HEADER_LEN, UDP_HEADER_LEN. by rewrite (proj2 (get_range_None _ _ _)) by lia.
Qed.

Lemma udp_roundtrip_witness :
  (len (zeros 40) < 31 -> build_udp4 [10; 0; 0; 1] 53 [10; 0; 0; 2] 4000 [1; 2; 3] (zeros 40) = Ok None) /\
  (31 <= len (zeros 40) ->
   exists packet, build_udp4 [10; 0; 0; 1] 53 [10; 0; 0; 2] 4000 [1; 2; 3] (zeros 40)
       = Ok (Some (packet ++ zdrop 31 (zeros 40), len packet)) /\
     len packet = 31 /\
     parse_udp4 packet = Ok (Some (mkUdp4 [10; 0; 0; 1] [10; 0; 0; 2] 53 4000 [1; 2; 3])) /\
     header_verifies packet = true /\ verifies (udp_sum packet) = true /\ of_be (sub_range 26 28 packet) <> 0).
Proof.
  apply (udp_roundtrip [10; 0; 0; 1] [10; 0; 0; 2] [1; 2; 3] (zeros 40) 53 4000);
    first [reflexivity | repeat constructor; vm_compute; discriminate | vm_compute; discriminate | split; vm_compute; (reflexivity || discriminate)].
Defined.

(** ** Echo replies *)

(** An ICMP packet by its fields. *)
Definition icmp_fields (v : Z) (h : bytes) (ttl : Z) (cks src dst options : bytes) (ty code : Z) (icks rest : bytes) : list bytes :=
  [[v]; h; [ttl]; [inner.PROTO_ICMP]; cks; src; dst; options; [ty]; [code]; icks; rest].

Section Echo.
Context (v ttl code : Z) (h cks src dst options icks rest o : bytes).
Context (Hv : Z.shiftr v 4 = 4) (Hihl : Z.land v 0x0f * 4 = 20 + len options).
Context (Hh : len h = 7) (Hc : len cks = 2) (Hs : len src = 4) (Hd : len dst = 4) (Hi : len icks = 2) (Hr : 4 <= len rest).

Let packet : bytes := concat (icmp_fields v h ttl cks src dst options inner.ECHO_REQUEST code icks rest).
Let head : bytes := concat (take 8 (icmp_fields v h 64 [0; 0] dst src options 0 code [0; 0] rest)).
Let body : bytes := concat (drop 8 (icmp_fields v h 64 [0; 0] dst src options 0 code [0; 0] rest)).

Ltac efound i j :=
  etransitivity;
  [apply (get_fields i j); first [lia | unfold icmp_fields; cbn [take drop concat Nat.sub]; llia]
  |first [reflexivity | unfold icmp_fields; cbn [take drop concat Nat.sub]; by rewrite ?app_nil_r]].
Ltac efield k := unfold set_at; write_field k.

Lemma echo_layout :
  len packet <= len o ->
  inner.icmp_echo_reply packet dst o =
  Ok (Some (concat (icmp_fields v h 64 (to_be 2 (inner.checksum head)) dst src options 0 code (to_be 2 (inner.checksum body)) rest)
            ++ zdrop (len packet) o, len packet)).
Proof.
  intros Ho. pose proof (len_nonneg options). assert (len packet = 24 + len options + len rest) as Hl.
  { unfold packet, icmp_fields. cbn [concat]. llia. }
  assert (at_ 0 packet = v) as P0 by done.
  assert (at_ 9 packet = inner.PROTO_ICMP) as P9.
  { unfold packet, icmp_fields. replace (concat _) with (([v] ++ h ++ [ttl]) ++ inner.PROTO_ICMP ::
      concat [cks; src; dst; options; [inner.ECHO_REQUEST]; [code]; icks; rest]) by (cbn [concat]; by rewrite <- !app_assoc).
    apply at_mid. llia. }
  assert (get_at (20 + len options) packet = Some inner.ECHO_REQUEST) as P20.
  { unfold packet, icmp_fields. replace (concat _) with (([v] ++ h ++ [ttl] ++ [inner.PROTO_ICMP] ++ cks ++ src ++ dst ++ options) ++
      inner.ECHO_REQUEST :: concat [[code]; icks; rest]) by (cbn [concat]; by rewrite <- !app_assoc).
    apply get_at_mid. llia. }
  assert (get_range 12 16 packet = Some src) as G12 by efound 5%nat 6%nat.
  assert (get_range 16 20 packet = Some dst) as G16 by efound 6%nat 7%nat.
  unfold inner.icmp_echo_reply, byte_at, slice, slice_copy, fill_zero. cbn [fst snd].
  rewrite P0, P9, Hv, Hihl, P20, G12, G16, (get_range_in 0 (len packet)) by lia. cbn [or_panic rbind].
  rewrite (proj2 (bytes_eqb_true dst dst) eq_refl), Hl, !(proj2 (Z.ltb_ge _ _)) by lia.
  cbn [or_panic rbind negb orb Z.eqb Pos.eqb inner.ECHO_REQUEST inner.PROTO_ICMP].
  unfold packet, icmp_fields. efield 6%nat. efield 5%nat. efield 2%nat. efield 4%nat.
  rewrite (get_fields 0 8); [|lia|done|cbn [take drop concat Nat.sub]; llia].
  cbn [or_panic rbind take drop Nat.sub]. efield 4%nat. efield 8%nat. efield 10%nat.
  rewrite (get_fields 8 12); [|lia|cbn [take concat]; llia|cbn [take drop concat Nat.sub]; llia].
  cbn [or_panic rbind take drop Nat.sub]. efield 10%nat.
  replace (20 + len options + 4 - (20 + len options + 2)) with 2 by lia. reflexivity.
Qed.

Context (Bytes : bytes_ok packet) (Hlen : len packet <= 65535).

Lemma echo_bytes : bytes_ok head /\ bytes_ok body /\ len head = 20 + len options /\ len body = 4 + len rest.
Proof using Hh Hs Hd Bytes.
  unfold packet, icmp_fields in Bytes. cbn [concat] in Bytes. rewrite !bytes_ok_app in Bytes. destruct_and! Bytes.
  unfold head, body, icmp_fields. cbn [take drop concat]. rewrite !bytes_ok_app. split_and!; try done; try llia;
    repeat constructor; lia.
Qed.

(** What the checksums the reply carries complete. *)
Lemma echo_sums :
  verifies (words_sum (concat (take 8 (icmp_fields v h 64 (to_be 2 (inner.checksum head)) dst src options 0 code [0; 0] rest)))) = true /\
  verifies (words_sum (concat (drop 8 (icmp_fields v h 64 [0; 0] dst src options 0 code (to_be 2 (inner.checksum body)) rest)))) = true.
Proof using Hh Hs Hd Hc Hi Hr Bytes Hlen.
  destruct echo_bytes as (Bh & Bb & Lh & Lb).
  assert (len packet = 24 + len options + len rest) as Hl by (unfold packet, icmp_fields; cbn [concat]; llia).
  pose proof (words_sum_bound _ Bh) as Wh. pose proof (words_sum_bound _ Bb) as Wb. nonneg_lens.
  assert (forall c, concat (take 8 (icmp_fields v h 64 c dst src options 0 code [0; 0] rest)) =
    ([v] ++ h ++ [64] ++ [inner.PROTO_ICMP]) ++ c ++ dst ++ src ++ options) as Eh.
  { intros c. unfold icmp_fields. cbn [take concat]. by rewrite !app_nil_r, <- !app_assoc. }
  assert (forall c, concat (drop 8 (icmp_fields v h 64 [0; 0] dst src options 0 code c rest)) = [0; code] ++ c ++ rest) as Eb.
  { intros c. unfold icmp_fields. cbn [drop concat app]. by rewrite !app_nil_r. }
  destruct (finish_spec (words_sum head)) as [Fh _]; [lia|]. destruct (finish_spec (words_sum body)) as [Fb _]; [lia|].
  rewrite Eh, Eb, (words_sum_store 5), (words_sum_store 1), <- Eh, <- Eb by (first [done | llia]).
  split; apply finish_verifies; fold head; fold body; lia.
Qed.

End Echo.

(** The receiver's view of an ICMP packet: header, then message. *)
Lemma icmp_receiver v h ttl cks src dst options ty code icks rest :
  len h = 7 -> len cks = 2 -> len src = 4 -> len dst = 4 -> Z.land v 0x0f * 4 = 20 + len options ->
  let p := concat (icmp_fields v h ttl cks src dst options ty code icks rest) in
  header_verifies p = verifies (words_sum (concat (take 8 (icmp_fields v h ttl cks src dst options ty code [0; 0] rest)))) /\
  zdrop (ihl p) p = concat (drop 8 (icmp_fields v h ttl [0; 0] src dst options ty code icks rest)).
Proof.
  intros Hh Hc Hs Hd Hi p. unfold header_verifies. change (ihl p) with (Z.land v 0x0f * 4). rewrite Hi.
  assert (p = concat (take 8 (icmp_fields v h ttl cks src dst options ty code icks rest)) ++
              concat (drop 8 (icmp_fields v h ttl cks src dst options ty code icks rest))) as ->
    by (by rewrite <- concat_app, take_drop).
  rewrite ztake_app_len, zdrop_app_len; [done|..]; unfold icmp_fields; cbn [take concat]; llia.
Qed.

(** A ping is answered.  An echo request for our address (IPv4 options and
    data of any length) is answered, when the buffer has room, by the same packet
    with source and destination exchanged, a fresh time to live, type echo reply
    and both checksums valid; identifier, sequence number and data are unchanged,
    and so is the rest of the buffer. *)
Theorem echo_reply_correct (v ttl code : Z) (h cks src dst options icks rest o : bytes) :
  let packet := concat (icmp_fields v h ttl cks src dst options inner.ECHO_REQUEST code icks rest) in
  Z.shiftr v 4 = 4 -> Z.land v 0x0f * 4 = 20 + len options -> len h = 7 ->
  map len [cks; src; dst; icks] = [2; 4; 4; 2] -> 4 <= len rest -> bytes_ok packet -> len packet <= 65535 ->
  len packet <= len o ->
  exists cks' icks',
    let reply := concat (icmp_fields v h 64 cks' dst src options inner.ECHO_REPLY code icks' rest) in
    inner.icmp_echo_reply packet dst o = Ok (Some (reply ++ zdrop (len packet) o, len packet)) /\
    len reply = len packet /\ header_verifies reply = true /\ verifies (words_sum (zdrop (ihl reply) reply)) = true.
Proof.
  intros packet Hv Hi Hh Hl Hr Hb Hlen Ho. cbn [map] in Hl. injection Hl as Hc Hs Hd Hk. do 2 eexists. cbv zeta.
  destruct (echo_sums v ttl code h cks src dst options icks rest) as [Vh Vb]; try done.
  split; [by apply echo_layout|]. change inner.ECHO_REPLY with 0.
  edestruct (icmp_receiver v h 64 (to_be 2 (inner.checksum (concat (take 8 (icmp_fields v h 64 [0; 0] dst src options 0 code [0; 0] rest)))))
    dst src options 0 code) as [-> ->]; try done.
  split_and!; [|exact Vh|exact Vb]. unfold packet, icmp_fields. cbn [concat]. llia.
Qed.

Lemma echo_reply_correct_witness :
  let packet := concat (icmp_fields 0x45 [0; 0; 30; 0; 0; 0; 0] 9 [1; 1] [10; 0; 0; 1] [10; 0; 0; 2] [] 8 0 [7; 7] [0; 1; 0; 2; 104; 105]) in
  exists cks' icks',
    let reply := concat (icmp_fields 0x45 [0; 0; 30; 0; 0; 0; 0] 64 cks' [10; 0; 0; 2] [10; 0; 0; 1] [] inner.ECHO_REPLY 0 icks' [0; 1; 0; 2; 104; 105]) in
    inner.icmp_echo_reply packet [10; 0; 0; 2] (zeros 64) = Ok (Some (reply ++ zdrop (len packet) (zeros 64), len packet)) /\
    len reply = len packet /\ header_verifies reply = true /\ verifies (words_sum (zdrop (ihl reply) reply)) = true.
Proof.
  apply (echo_reply_correct 0x45 9 0 [0; 0; 30; 0; 0; 0; 0] [1; 1] [10; 0; 0; 1] [10; 0; 0; 2] [] [7; 7] [0; 1; 0; 2; 104; 105] (zeros 64));
    first [reflexivity | vm_compute; discriminate | vm_compute; repeat constructor; discriminate].
Defined.

(** ** What goes wrong *)

(** A segment whose header length field is zero is taken for TCP, and then
    translating it panics: [ip[12..16]] is outside the empty header. *)
Definition short_header : bytes := [0x40; 0; 0; 40; 0; 0; 0; 0; 64; 6] ++ zeros 30.

(** A header length below 20 is never rejected, and a packet that has one
    is accepted by the parser and then panics the translation, both ways. *)
Theorem short_header_panics (ip' : bytes) (port' : Z) :
  (exists info, parse_tcp4 short_header = Ok (Some info)) /\
  rewrite_tcp_outbound short_header ip' port' = Panic /\ rewrite_tcp_inbound short_header ip' port' = Panic.
Proof. split_and!; [by eexists|done|done]. Qed.

(** A SYN with a NOP in front of its MSS option. *)
Definition odd_segment : Segment :=
  mkSegment [0x45; 0; 0; 48; 0; 0; 0x40; 0; 64; 6] [0; 0] [10; 0; 0; 2] [1; 2; 3; 4] []
    [4; 210] [0; 80] [0; 0; 0; 1; 0; 0; 0; 0; 0x70; 2; 16; 0] [179; 168] [0; 0; 1; 2; 4; 5; 180; 0; 0; 0].

(** At an odd offset the clamped value is split over two words, which the
    update of the checksum does not take into account: a SYN whose checksum
    verifies leaves with one that does not. *)
Theorem odd_option_breaks_checksum :
  segment_ok odd_segment /\ tcp_verifies (packet_of odd_segment) = true /\
  exists packet', clamp_mss (packet_of odd_segment) = Ok packet' /\ tcp_verifies packet' = false.
Proof.
  split; [|split; [vm_compute; reflexivity|eexists; split; [vm_compute; reflexivity|vm_compute; reflexivity]]].
  split; try (vm_compute; reflexivity || discriminate). vm_compute. repeat constructor; discriminate.
Qed.

(** A segment with an IPv4 option (router alert) and a valid header checksum. *)
Definition option_segment : Segment :=
  mkSegment [0x46; 0; 0; 44; 0; 0; 0x40; 0; 64; 6] [151; 192] [10; 0; 0; 2] [1; 2; 3; 4] [0x94; 4; 0; 0]
    [4; 210] [0; 80] [0; 0; 0; 1; 0; 0; 0; 0; 0x50; 2; 16; 0] [0; 0] [0; 0].

(** The header checksum is computed over twenty bytes although longer
    headers are translated, so with options it is wrong afterwards. *)
Theorem options_break_header :
  segment_ok option_segment /\ header_verifies (packet_of option_segment) = true /\
  exists packet', rewrite_tcp_outbound (packet_of option_segment) [192; 168; 4; 1] 41000 = Ok (packet', true) /\
    header_verifies packet' = false.
Proof.
  split; [|split; [vm_compute; reflexivity|eexists; split; [vm_compute; reflexivity|vm_compute; reflexivity]]].
  split; try (vm_compute; reflexivity || discriminate). vm_compute. repeat constructor; discriminate.
Qed.
