(* ===== verification/Control.v ===== *)
(** * The control-plane transport

    [crates/ts-noise]: the record layer ([record.rs]), the reader of the early
    payload ([early.rs]) and the client side of the Noise IK handshake ([ik.rs]).
    The primitives are those of [Crypto.v].  The server's side of the handshake is
    not part of the repository; [Responder] is Noise IK's own description of it,
    the specification the client is proved against. *)

From S2P Require Import Prelude Timers Messages Crypto Noise.

Module control.

Inductive Error :=
| Malformed | Decryption | InvalidPublicKey | BufferTooSmall
| RecordTooLong | Exhausted | UpgradeRefused | Incomplete.

Definition CAPABILITY_VERSION : Z := 131.

End control.

(** ** Records *)

Module record.
Import control.

Definition TYPE_RECORD : Z := 4.
Definition HEADER_LEN : Z := 3.
Definition MAX_MESSAGE : Z := 4096.
Definition MAX_PLAINTEXT : Z := MAX_MESSAGE - HEADER_LEN - TAG_LEN.
Definition MAX_COUNTER : Z := U64_MAX - 1.

Record Cipher := mkCipher { key : bytes; counter : Z }.

(** Four zero bytes, then the counter big-endian. *)
Definition nonce (c : Cipher) : bytes := zeros 4 ++ to_be 8 (counter c).

Definition advance (c : Cipher) : res Error Cipher :=
  if MAX_COUNTER <=? counter c then Err Exhausted else Ok (mkCipher (key c) (counter c + 1)).

Record Session := mkSession { tx : Cipher; rx : Cipher }.

Definition new (tx rx : bytes) : Session := mkSession (mkCipher tx 0) (mkCipher rx 0).

Section Records.
Context `{P : Primitives}.

(** The record written into [out], which has its length. *)
Definition seal_into (c : Cipher) (plaintext out : bytes) : res Error bytes :=
  let n := len plaintext in
  let! out := or_panic (set_at 0 TYPE_RECORD out) in
  let! out := slice_copy (1, 3) (to_be 2 (wrap 16 (n + TAG_LEN))) out in
  let! out := slice_copy (HEADER_LEN, HEADER_LEN + n) plaintext out in
  let! body := slice (HEADER_LEN, HEADER_LEN + n) out in
  let (sealed, tag) := aead_seal_nonce (key c) (nonce c) [] body in
  let! out := slice_copy (HEADER_LEN, HEADER_LEN + n) sealed out in
  slice_copy (HEADER_LEN + n, len out) tag out.

(** The result is [out[..total]]. *)
Definition seal (s : Session) (plaintext out : bytes) : Session * res Error bytes :=
  if MAX_PLAINTEXT <? len plaintext then (s, Err RecordTooLong) else
  match get_range 0 (HEADER_LEN + len plaintext + TAG_LEN) out with
  | None => (s, Err BufferTooSmall)
  | Some out =>
      match (let! out := seal_into (tx s) plaintext out in
             let! tx := advance (tx s) in Ok (tx, out)) with
      | Ok (tx, out) => (mkSession tx (rx s), Ok out)
      | Err e => (s, Err e)
      | Panic => (s, Panic)
      | Hang => (s, Hang)
      end
  end.

Definition ciphertext_len (header : bytes) : res Error Z :=
  if len header <? HEADER_LEN then Err Incomplete else
  if negb (at_ 0 header =? TYPE_RECORD) then Err Malformed else
  let n := of_be [at_ 1 header; at_ 2 header] in
  if negb ((TAG_LEN <=? n) && (n <=? MAX_MESSAGE - HEADER_LEN)) then Err RecordTooLong else Ok n.

(** The result is the plaintext left in [out]. *)
Definition open (s : Session) (ciphertext out : bytes) : Session * res Error bytes :=
  let n := len ciphertext - TAG_LEN in
  if n <? 0 then (s, Err Malformed) else
  match get_range 0 n out with
  | None => (s, Err BufferTooSmall)
  | Some _ =>
      match (let! body := slice (0, n) ciphertext in
             let! tag := slice (n, len ciphertext) ciphertext in
             let! plain := map_err (fun _ => Decryption) (aead_open_nonce (key (rx s)) (nonce (rx s)) [] body tag) in
             let! rx := advance (rx s) in Ok (rx, plain)) with
      | Ok (rx, plain) => (mkSession (tx s) rx, Ok plain)
      | Err e => (s, Err e)
      | Panic => (s, Panic)
      | Hang => (s, Hang)
      end
  end.

Definition counters (s : Session) : Z * Z := (counter (tx s), counter (rx s)).

End Records.
End record.

(** ** The early payload *)

Module early.
Import control.

Definition MAGIC : bytes := [0xff; 0xff; 0xff; 84; 83].
Definition PROBE_LEN : Z := len MAGIC + 4.
Definition MAX_PAYLOAD : Z := 1024.

Inductive Early := Payload (b : bytes) | PushBack (b : bytes).

Record EarlyReader := mkReader { buffer : bytes; filled : Z; payload_len : option Z }.

Definition new : EarlyReader := mkReader (zeros (PROBE_LEN + MAX_PAYLOAD)) 0 None.

Definition wanted (r : EarlyReader) : Z :=
  match payload_len r with
  | None => saturating_sub PROBE_LEN (filled r)
  | Some n => saturating_sub (PROBE_LEN + n) (filled r)
  end.

Definition is_complete (r : EarlyReader) : bool := wanted r =? 0.

Definition magic_matches (r : EarlyReader) : bool := bytes_eqb (ztake (len MAGIC) (buffer r)) MAGIC.

(** [None] where the declared length is refused; the reader is unchanged then. *)
Definition resolve_length (r : EarlyReader) : option EarlyReader :=
  if (match payload_len r with Some _ => true | None => false end)
     || (filled r <? PROBE_LEN) || negb (magic_matches r) then Some r else
  let n := of_be (sub_range 5 9 (buffer r)) in
  if MAX_PAYLOAD <? n then None else Some (mkReader (buffer r) (filled r) (Some n)).

(** The loop of [push] from [consumed] of [b] on. *)
Fixpoint push_loop (fuel : nat) (r : EarlyReader) (b : bytes) (consumed : Z) : EarlyReader * res Error Z :=
  match fuel with
  | O => (r, Hang)
  | S fuel =>
      let w := wanted r in
      if (w =? 0) || (consumed =? len b) then (r, Ok consumed) else
      let take := Z.min (len b - consumed) w in
      match (let? src := get_range consumed (consumed + take) b in
             copy_at (filled r) (filled r + take) src (buffer r)) with
      | None => (r, Panic)
      | Some buf =>
          let r := mkReader buf (filled r + take) (payload_len r) in
          match resolve_length r with
          | None => (r, Err RecordTooLong)
          | Some r => push_loop fuel r b (consumed + take)
          end
      end
  end.

(** One turn for the probe, one for the payload, one that finds nothing to do. *)
Definition push (r : EarlyReader) (b : bytes) : EarlyReader * res Error Z := push_loop 3 r b 0.

Definition finish (r : EarlyReader) : res Error Early :=
  if negb (is_complete r) then Err Incomplete else
  match payload_len r with
  | Some n => let! b := slice (PROBE_LEN, PROBE_LEN + n) (buffer r) in Ok (Payload b)
  | None => let! b := slice (0, PROBE_LEN) (buffer r) in Ok (PushBack b)
  end.

End early.

(** ** The handshake *)

Module ik.
Import control.

(** b"Noise_IK_25519_ChaChaPoly_BLAKE2s" *)
Definition PROTOCOL_NAME : bytes :=
  [78; 111; 105; 115; 101; 95; 73; 75; 95; 50; 53; 53; 49; 57; 95; 67; 104; 97; 67; 104; 97; 80;
   111; 108; 121; 95; 66; 76; 65; 75; 69; 50; 115].
(** b"Tailscale Control Protocol v" *)
Definition PROLOGUE_PREFIX : bytes :=
  [84; 97; 105; 108; 115; 99; 97; 108; 101; 32; 67; 111; 110; 116; 114; 111; 108; 32; 80; 114; 111;
   116; 111; 99; 111; 108; 32; 118].
Definition PROLOGUE_MAX : Z := 28 + 5.
Definition TYPE_INITIATION : Z := 1.
Definition TYPE_RESPONSE : Z := 2.
Definition INITIATION_LEN : Z := 5 + 32 + (32 + TAG_LEN) + TAG_LEN.
Definition RESPONSE_LEN : Z := 3 + 32 + TAG_LEN.
Definition INITIATION_BODY_LEN : Z := wrap 16 (INITIATION_LEN - 5).
Definition RESPONSE_BODY_LEN : Z := wrap 16 (RESPONSE_LEN - 3).
Definition HANDSHAKE_NONCE : bytes := zeros NONCE_LEN.

(** The digits of [value], least significant first, into [digits[count..]]. *)
Fixpoint digits_loop (fuel : nat) (digits : bytes) (count value : Z) : res Error (bytes * Z) :=
  match fuel with
  | O => Hang
  | S fuel =>
      let! digits := or_panic (set_at count (48 + value mod 10) digits) in
      if value / 10 =? 0 then Ok (digits, count + 1) else digits_loop fuel digits (count + 1) (value / 10)
  end.

(** [out[len] = digits[count - 1 - i]; len += 1] for [count] values of [i]. *)
Fixpoint copy_digits (n : nat) (digits out : bytes) (at_len : Z) : res Error (bytes * Z) :=
  match n with
  | O => Ok (out, at_len)
  | S n =>
      let! d := or_panic (get_at (Z.of_nat n) digits) in
      let! out := or_panic (set_at at_len d out) in
      copy_digits n digits out (at_len + 1)
  end.

Definition prologue (version : Z) (out : bytes) : res Error bytes :=
  let! out := slice_copy (0, len PROLOGUE_PREFIX) PROLOGUE_PREFIX out in
  let! '(digits, count) := digits_loop 6 (zeros 5) 0 version in
  let! '(out, n) := copy_digits (Z.to_nat count) digits out (len PROLOGUE_PREFIX) in
  slice (0, n) out.

Record Handshake := mkHandshake {
  machine_private : bytes;
  ephemeral : bytes;
  chaining_key : bytes;
  hs_hash : bytes;
}.

Section Client.
Context `{P : Primitives}.

Definition dh (secret public : bytes) : res Error bytes :=
  map_err (fun _ => InvalidPublicKey) (Crypto.dh secret public).

(** The result is [out[..INITIATION_LEN]] and the state to keep. *)
Definition initiate (machine_private server_public ephemeral_private out : bytes) : res Error (bytes * Handshake) :=
  let! out := ok_or (get_range 0 INITIATION_LEN out) BufferTooSmall in
  let ck := hash [PROTOCOL_NAME] in
  let! prologue := prologue CAPABILITY_VERSION (zeros PROLOGUE_MAX) in
  let h := hash [ck; prologue] in
  let h := hash [h; server_public] in
  let! out := slice_copy (0, 2) (to_be 2 CAPABILITY_VERSION) out in
  let! out := or_panic (set_at 2 TYPE_INITIATION out) in
  let! out := slice_copy (3, 5) (to_be 2 INITIATION_BODY_LEN) out in
  let ephemeral_public := x25519_base ephemeral_private in
  let! out := slice_copy (5, 37) ephemeral_public out in
  let h := hash [h; ephemeral_public] in
  let! es := dh ephemeral_private server_public in
  let (ck, key) := kdf2 ck es in
  let! out := slice_copy (37, 69) (x25519_base machine_private) out in
  let! plain := slice (37, 69) out in
  let (sealed, tag) := aead_seal_nonce key HANDSHAKE_NONCE h plain in
  let! out := slice_copy (37, 69) sealed out in
  let! out := slice_copy (69, 85) tag out in
  let! static := slice (37, 85) out in
  let h := hash [h; static] in
  let! ss := dh machine_private server_public in
  let (ck, key) := kdf2 ck ss in
  let (_, tag) := aead_seal_nonce key HANDSHAKE_NONCE h [] in
  let! out := slice_copy (85, 101) tag out in
  let! last := slice (85, 101) out in
  let h := hash [h; last] in
  Ok (out, mkHandshake machine_private ephemeral_private ck h).

Definition consume_response (hs : Handshake) (msg : bytes) : res Error record.Session :=
  if negb (len msg =? RESPONSE_LEN) || negb (at_ 0 msg =? TYPE_RESPONSE) then Err Malformed else
  if negb (of_be [at_ 1 msg; at_ 2 msg] =? RESPONSE_BODY_LEN) then Err Malformed else
  let! peer_ephemeral := slice (3, 35) msg in
  let h := hash [hs_hash hs; peer_ephemeral] in
  let! ee := dh (ephemeral hs) peer_ephemeral in
  let (ck, _) := kdf2 (chaining_key hs) ee in
  let! se := dh (machine_private hs) peer_ephemeral in
  let (ck, key) := kdf2 ck se in
  let! tag := slice (35, 51) msg in
  let! _ := map_err (fun _ => Decryption) (aead_open_nonce key HANDSHAKE_NONCE h [] tag) in
  let (tx, rx) := kdf2 ck [] in
  Ok (record.new tx rx).

End Client.
End ik.
