(* ===== verification/ControlEarly.v ===== *)
(** * The early payload: independence of record boundaries

    Over [Control.v]: what the reader makes of a stream depends on the stream
    alone, not on the records it arrives in. *)

From S2P Require Import Prelude Timers Control.
Import control early.

(** ** What a stream says *)

(** The length a complete probe with the magic declares. *)
Definition declared (s : bytes) : option Z :=
  if (PROBE_LEN <=? len s) && bytes_eqb (ztake (len MAGIC) s) MAGIC
  then Some (of_be (sub_range 5 9 s)) else None.

(** How much of the stream belongs to the reader, as far as [s] tells. *)
Definition limit (s : bytes) : Z := PROBE_LEN + default 0 (declared s).
Definition taken (s : bytes) : bytes := ztake (limit s) s.
Definition too_long (s : bytes) : bool := MAX_PAYLOAD <? default 0 (declared s).

(** The reader that has consumed exactly [p]. *)
Definition reader_of (p : bytes) : EarlyReader :=
  mkReader (p ++ zeros (PROBE_LEN + MAX_PAYLOAD - len p)) (len p) (declared p).

(** [reader_of] is used on streams the reader still follows. *)
Record followed (p : bytes) : Prop := {
  fo_bytes : bytes_ok p;
  fo_limit : len p <= limit p;
  fo_short : too_long p = false;
}.

Module EarlyFacts.

Lemma declared_nonneg s : bytes_ok s -> 0 <= default 0 (declared s).
Proof.
  intros Hs. unfold declared. case_if; [|done]. simpl.
  pose proof (of_be_bound (sub_range 5 9 s) (bytes_ok_sub_range 5 9 s Hs)). lia.
Qed.

Lemma ztake_app_le {A} n (a b : list A) : n <= len a -> ztake n (a ++ b) = ztake n a.
Proof. intros. unfold ztake. apply take_app_le. unfold len in *. lia. Qed.

Lemma sub_range_app_le {A} i j (a b : list A) : 0 <= i -> i <= j -> j <= len a -> sub_range i j (a ++ b) = sub_range i j a.
Proof.
  intros. unfold sub_range, zdrop. rewrite drop_app_le by (unfold len in *; lia).
  apply ztake_app_le. unfold len in *. rewrite length_drop. lia.
Qed.

(** A complete probe decides: what follows does not matter. *)
Lemma declared_app p c : PROBE_LEN <= len p -> declared (p ++ c) = declared p.
Proof.
  intros Hp. unfold declared, PROBE_LEN in *. change (len MAGIC) with 5 in *. pose proof (len_nonneg c).
  rewrite !(proj2 (Z.leb_le _ _)) by (rewrite ?len_app; lia).
  by rewrite ztake_app_le, sub_range_app_le by lia.
Qed.

Lemma declared_short p : len p < PROBE_LEN -> declared p = None.
Proof. intros. unfold declared. by rewrite (proj2 (Z.leb_gt _ _)) by lia. Qed.

(** The reader's view of its buffer is the view of the stream. *)
Lemma resolve_reader p c :
  PROBE_LEN <= len (p ++ c) <= PROBE_LEN + MAX_PAYLOAD ->
  (PROBE_LEN <= len p \/ declared p = None) ->
  resolve_length (mkReader ((p ++ c) ++ zeros (PROBE_LEN + MAX_PAYLOAD - len (p ++ c))) (len (p ++ c)) (declared p)) =
  if too_long (p ++ c) && (match declared p with None => true | Some _ => false end) then None else Some (reader_of (p ++ c)).
Proof.
  intros Hl Hd. unfold resolve_length, magic_matches, reader_of, too_long. cbn [payload_len filled buffer].
  destruct (declared p) as [n|] eqn:E.
  - destruct Hd as [Hd|Hd]; [|done]. rewrite declared_app, E by done. by rewrite andb_false_r.
  - rewrite (proj2 (Z.ltb_ge _ _)), andb_true_r by lia. cbn [orb]. unfold declared, PROBE_LEN in *.
    change (len MAGIC) with 5 in *. rewrite (proj2 (Z.leb_le _ _)) by lia. cbn [andb].
    rewrite ztake_app_le, sub_range_app_le by lia. case_if; bool_hyps.
    + by rewrite Hif.
    + rewrite Hif. cbn [from_option id]. by case_if.
Qed.

Lemma resolve_next p t :
  followed p -> len (p ++ t) <= PROBE_LEN + MAX_PAYLOAD ->
  resolve_length (mkReader ((p ++ t) ++ zeros (PROBE_LEN + MAX_PAYLOAD - len (p ++ t))) (len (p ++ t)) (declared p)) =
  if too_long (p ++ t) then None else Some (reader_of (p ++ t)).
Proof.
  intros [_ Hl Hs] Hb. destruct (Z_lt_le_dec (len (p ++ t)) PROBE_LEN) as [H|H].
  - assert (declared p = None) as -> by (apply declared_short; llia).
    unfold too_long, reader_of. rewrite (declared_short (p ++ t)) by done. unfold resolve_length. cbn [payload_len filled].
    by rewrite (proj2 (Z.ltb_lt _ _)).
  - destruct (Z_lt_le_dec (len p) PROBE_LEN) as [Hp|Hp].
    + rewrite resolve_reader by (try lia; right; by apply declared_short).
      rewrite (declared_short p) by done. by rewrite andb_true_r.
    + rewrite resolve_reader by (lia || by left). unfold too_long in *. rewrite declared_app by done. by rewrite Hs.
Qed.

Lemma wanted_reader p : followed p -> wanted (reader_of p) = limit p - len p.
Proof.
  intros [_ Hl _]. unfold wanted, reader_of, limit, saturating_sub in *. cbn [payload_len filled].
  destruct (declared p); cbn [from_option id] in *; lia.
Qed.

Lemma zeros_split a b : 0 <= a -> 0 <= b -> zeros (a + b) = zeros a ++ zeros b.
Proof. intros. unfold zeros. rewrite Z2Nat.inj_add by lia. apply replicate_add. Qed.

(** Storing the next bytes behind those consumed. *)
Lemma store_next p t :
  len (p ++ t) <= PROBE_LEN + MAX_PAYLOAD ->
  copy_at (len p) (len p + len t) t (p ++ zeros (PROBE_LEN + MAX_PAYLOAD - len p)) =
  Some ((p ++ t) ++ zeros (PROBE_LEN + MAX_PAYLOAD - len (p ++ t))).
Proof.
  intros Hl. rewrite len_app in *. nonneg_lens.
  replace (PROBE_LEN + MAX_PAYLOAD - len p) with (len t + (PROBE_LEN + MAX_PAYLOAD - (len p + len t))) by lia.
  rewrite zeros_split by lia. rewrite copy_at_mid; [by rewrite <- app_assoc|done|..]; rewrite len_zeros; lia.
Qed.

(** A turn with nothing to do. *)
Lemma push_stop f p b1 c :
  followed p -> limit p = len p \/ c = [] ->
  push_loop (S f) (reader_of p) (b1 ++ c) (len b1) = (reader_of p, Ok (len b1)).
Proof.
  intros Hf Hs. cbn [push_loop]. rewrite wanted_reader by done.
  destruct Hs as [Hs|Hs]; [rewrite (proj2 (Z.eqb_eq _ 0)) by lia; done|]. subst c. rewrite app_nil_r, Z.eqb_refl. by rewrite orb_true_r.
Qed.

(** The bytes the next turn takes from [c]. *)
Definition next (p c : bytes) : bytes := ztake (limit p - len p) c.

Lemma followed_next p c : followed p -> bytes_ok c -> len (p ++ next p c) <= limit p.
Proof. intros [_ Hl _] _. unfold next. llia. Qed.

Lemma limit_bound p : followed p -> limit p <= PROBE_LEN + MAX_PAYLOAD.
Proof. intros [_ _ Ht]. unfold too_long in Ht. bool_hyps. unfold limit. lia. Qed.

(** A turn that takes bytes. *)
Lemma push_take f p b1 c :
  followed p -> bytes_ok c -> len p < limit p -> c <> [] ->
  let t := next p c in
  (too_long (p ++ t) = false ->
   push_loop (S f) (reader_of p) (b1 ++ c) (len b1) = push_loop f (reader_of (p ++ t)) (b1 ++ c) (len b1 + len t)) /\
  (too_long (p ++ t) = true -> snd (push_loop (S f) (reader_of p) (b1 ++ c) (len b1)) = Err RecordTooLong).
Proof.
  intros Hf Hc Hl Hn t. assert (0 < len c) by (destruct c; [done|llia]). pose proof (limit_bound p Hf) as Hb.
  pose proof (followed_next p c Hf Hc) as Hlt. fold t in Hlt.
  assert (len t = Z.min (len c) (limit p - len p)) as Ht by (unfold t, next; llia).
  cbn [push_loop]. rewrite wanted_reader by done.
  rewrite len_app, !(proj2 (Z.eqb_neq _ _)) by lia. cbn [orb].
  replace (len b1 + len c - len b1) with (len c) by lia. rewrite <- Ht.
  assert (get_range (len b1) (len b1 + len t) (b1 ++ c) = Some t) as ->.
  { replace c with (t ++ zdrop (limit p - len p) c) by apply ztake_zdrop. by apply get_range_mid. }
  change (filled (reader_of p)) with (len p). change (payload_len (reader_of p)) with (declared p).
  change (buffer (reader_of p)) with (p ++ zeros (PROBE_LEN + MAX_PAYLOAD - len p)).
  rewrite store_next by lia. rewrite <- (len_app p t), (resolve_next p t) by (done || lia).
  split; intros ->; done.
Qed.

(** Following on. *)
Lemma followed_app p c :
  followed p -> bytes_ok c -> too_long (p ++ next p c) = false -> followed (p ++ next p c).
Proof.
  intros Hf Hc Hs. pose proof (followed_next p c Hf Hc) as Hl. assert (bytes_ok (p ++ next p c)) as Hb.
  { apply bytes_ok_app. split; [apply Hf|by apply bytes_ok_ztake]. }
  split; try done. pose proof (declared_nonneg _ Hb) as Hd.
  destruct (Z_lt_le_dec (len p) PROBE_LEN) as [Hp|Hp].
  - unfold limit in *. rewrite (declared_short p Hp) in Hl. cbn [from_option id] in Hl. lia.
  - unfold limit in *. rewrite declared_app in * by done. lia.
Qed.

Lemma ztake_app_ge {A} n (a b : list A) : len a <= n -> ztake n (a ++ b) = a ++ ztake (n - len a) b.
Proof.
  intros. unfold ztake. rewrite take_app_ge by (unfold len in *; lia). f_equal. f_equal. unfold len. lia.
Qed.

(** What one turn takes, as the stream's share when the probe is complete. *)
Lemma taken_next p c : followed p -> PROBE_LEN <= len p -> taken (p ++ c) = p ++ next p c.
Proof.
  intros [_ Hl _] Hp. unfold taken, next. unfold limit at 1. rewrite declared_app by done. by apply ztake_app_ge.
Qed.

(** With the probe complete, one turn takes what remains and the next stops. *)
Lemma push_decided f p b1 c :
  followed p -> bytes_ok c -> PROBE_LEN <= len p ->
  push_loop (S (S f)) (reader_of p) (b1 ++ c) (len b1) =
    (reader_of (taken (p ++ c)), Ok (len b1 + len (taken (p ++ c)) - len p)) /\ followed (taken (p ++ c)).
Proof.
  intros Hf Hc Hp. rewrite taken_next by done.
  assert (too_long (p ++ next p c) = false) as Hs by (unfold too_long; rewrite declared_app by done; apply Hf).
  pose proof (followed_app p c Hf Hc Hs) as Hf'. split; [|done].
  destruct (decide (limit p = len p \/ c = [])) as [Hd|Hd].
  { rewrite push_stop by done. assert (next p c = []) as ->.
    { destruct Hd as [Hd| ->]; unfold next; [apply ztake_0; lia|]. unfold ztake. by rewrite take_nil. }
    rewrite app_nil_r. f_equal. f_equal. lia. }
  destruct (push_take (S f) p b1 c) as [-> _]; try done; [pose proof (fo_limit p Hf); lia|naive_solver|].
  assert (b1 ++ c = (b1 ++ next p c) ++ zdrop (limit p - len p) c) as Hb
    by (rewrite <- app_assoc; unfold next; by rewrite ztake_zdrop).
  rewrite Hb, <- len_app, push_stop; [f_equal; f_equal; rewrite !len_app; lia|done|].
  unfold next, limit in *. rewrite declared_app by done. pose proof (fo_limit p Hf) as Hl. unfold limit in Hl.
  destruct (Z_lt_le_dec (len c) (PROBE_LEN + default 0 (declared p) - len p)).
  - right. apply zdrop_all. lia.
  - left. llia.
Qed.

(** One [push], from any stream followed so far: exactly the reader's share of
    the stream is consumed, or the declared length is refused. *)
Lemma push_followed p b :
  followed p -> bytes_ok b ->
  (too_long (p ++ b) = false -> push (reader_of p) b = (reader_of (taken (p ++ b)), Ok (len (taken (p ++ b)) - len p)) /\
                                followed (taken (p ++ b))) /\
  (too_long (p ++ b) = true -> snd (push (reader_of p) b) = Err RecordTooLong).
Proof.
  intros Hf Hb. destruct (Z_lt_le_dec (len p) PROBE_LEN) as [Hp|Hp].
  2: { destruct (push_decided 1 p [] b) as [H1 H2]; try done. unfold push. rewrite <- (app_nil_l b) at 2 6.
       change 0 with (len (@nil Z)). rewrite H1. split; [by split|].
       unfold too_long. rewrite declared_app by done. pose proof (fo_short p Hf) as Hs. unfold too_long in Hs. congruence. }
  assert (limit p = PROBE_LEN) as Hl by (unfold limit; rewrite declared_short by done; done).
  set (t := next p b). set (c := zdrop (PROBE_LEN - len p) b).
  assert (b = t ++ c) as Hbt by (unfold t, c, next; rewrite Hl; by rewrite ztake_zdrop).
  destruct (Z_lt_le_dec (len (p ++ b)) PROBE_LEN) as [Hs|Hs].
  - (* the probe stays incomplete *)
    assert (taken (p ++ b) = p ++ b /\ too_long (p ++ b) = false /\ next p b = b) as (-> & Ht & Hn).
    { unfold taken, limit, too_long. rewrite declared_short by done. split_and!; [apply ztake_all; simpl; lia|done|].
      unfold next. rewrite Hl. apply ztake_all. rewrite len_app in Hs. lia. }
    rewrite Ht. split; [|done]. intros _. pose proof (followed_app p b Hf Hb) as Hf'. rewrite Hn in Hf'. split; [|by apply Hf'].
    destruct (decide (b = [])) as [-> |Hne].
    { rewrite app_nil_r. unfold push. etransitivity; [apply (push_stop 2 p [] []); [done|by right]|]. by rewrite Z.sub_diag. }
    unfold push. destruct (push_take 2 p [] b) as [H1 _]; try done; [lia|]. cbn [app] in H1. change (len []) with 0 in H1.
    rewrite Hn in H1. rewrite H1 by done.
    pose proof (push_stop 1 (p ++ b) b [] (Hf' Ht) (or_intror eq_refl)) as H4. rewrite app_nil_r in H4.
    change (0 + len b) with (len b). rewrite H4. f_equal. f_equal. rewrite len_app. lia.
  - (* the probe is completed *)
    assert (len (p ++ t) = PROBE_LEN) as Hpt by (unfold t, next; rewrite Hl, len_app, len_ztake; rewrite len_app in Hs; lia).
    assert (b <> []) as Hne by (intros ->; rewrite app_nil_r in Hs; lia).
    assert (declared (p ++ b) = declared (p ++ t)) as Hd by (rewrite Hbt, app_assoc; apply declared_app; lia).
    destruct (push_take 2 p [] b) as [H1 H2]; try done; [lia|]. cbn [app] in H1, H2. change (len []) with 0 in H1, H2.
    fold t in H1, H2. unfold push, too_long in *. rewrite Hd. split; [|done]. intros Hsh. rewrite H1 by done.
    assert (followed (p ++ t)) as Hf' by (by apply followed_app).
    destruct (push_decided 0 (p ++ t) t c) as [H3 H4]; try done; [by apply bytes_ok_zdrop|lia|].
    rewrite <- app_assoc, <- Hbt in H3, H4. split; [|done]. change (0 + len t) with (len t). rewrite H3.
    f_equal. f_equal. rewrite len_app. lia.
Qed.

(** Dropping what is past the reader's share changes nothing of what it says. *)
Lemma declared_taken s c : bytes_ok s -> declared (taken s ++ c) = declared (s ++ c).
Proof.
  intros Hs. pose proof (declared_nonneg s Hs) as Hd. unfold taken, limit.
  destruct (Z_lt_le_dec (len s) PROBE_LEN) as [H|H]; [rewrite ztake_all by lia; done|].
  assert (PROBE_LEN <= len (ztake (PROBE_LEN + default 0 (declared s)) s)) as Hl by (rewrite len_ztake; lia).
  rewrite !declared_app by done. rewrite <- (ztake_zdrop (PROBE_LEN + default 0 (declared s)) s) at 3. by rewrite declared_app.
Qed.

Lemma taken_taken s c : bytes_ok s -> taken (taken s ++ c) = taken (s ++ c).
Proof.
  intros Hs. unfold taken at 1 3. unfold limit. rewrite declared_taken by done. pose proof (declared_nonneg s Hs) as Hd.
  destruct (Z_lt_le_dec (len s) (limit s)) as [H|H]; [by assert (taken s = s) as -> by (apply ztake_all; lia)|].
  unfold taken. assert (PROBE_LEN <= len s) as Hp by (unfold limit in H; lia). rewrite declared_app by done.
  change (PROBE_LEN + default 0 (declared s)) with (limit s). rewrite !ztake_app_le by (rewrite ?len_ztake; unfold limit in *; lia).
  rewrite ztake_ztake. by rewrite Z.min_id.
Qed.

(** A refused length stays refused. *)
Lemma too_long_app s c : bytes_ok s -> too_long (s ++ c) = false -> too_long s = false.
Proof.
  intros Hs. unfold too_long. destruct (Z_lt_le_dec (len s) PROBE_LEN) as [H|H].
  - by rewrite (declared_short s) by done.
  - by rewrite declared_app by done.
Qed.

Lemma finish_reader s : bytes_ok s -> too_long s = false ->
  finish (reader_of (taken s)) =
  if len s <? limit s then Err Incomplete else
  Ok (match declared s with Some n => Payload (sub_range PROBE_LEN (PROBE_LEN + n) s) | None => PushBack (ztake PROBE_LEN s) end).
Proof.
  intros Hs Ht. pose proof (declared_nonneg s Hs) as Hd. pose proof (declared_taken s [] Hs) as Hdt. rewrite !app_nil_r in Hdt.
  assert (len (taken s) = Z.min (limit s) (len s)) as Hl by (unfold taken; rewrite len_ztake; unfold limit, PROBE_LEN in *; llia).
  unfold finish, is_complete, wanted, reader_of. cbn [payload_len filled buffer]. rewrite Hdt. unfold slice. cbn [fst snd].
  assert (forall x, len x = limit s -> get_range PROBE_LEN (limit s) (x ++ zeros (PROBE_LEN + MAX_PAYLOAD - len x)) = Some (zdrop PROBE_LEN x)) as Hg.
  { intros x Hx. unfold limit in *. rewrite <- (ztake_zdrop PROBE_LEN x) at 1. rewrite <- app_assoc.
    unfold PROBE_LEN in *. change (len MAGIC) with 5 in *. apply get_range_mid; llia. }
  destruct (Z.ltb_spec (len s) (limit s)) as [Hls|Hge].
  - unfold limit in *. destruct (declared s); cbn [from_option id] in *; unfold saturating_sub;
      rewrite (proj2 (Z.eqb_neq _ 0)) by lia; done.
  - destruct (declared s) as [n|] eqn:E; unfold saturating_sub.
    + assert (limit s = PROBE_LEN + n) as He by (unfold limit; by rewrite E). rewrite <- He.
      rewrite (proj2 (Z.eqb_eq _ 0)) by lia. rewrite Hg by lia. cbn [negb or_panic rbind]. do 2 f_equal.
      unfold sub_range, taken, ztake, zdrop. rewrite skipn_firstn_comm. f_equal. by rewrite Z2Nat.inj_sub.
    + assert (limit s = PROBE_LEN) as He by (unfold limit; by rewrite E). rewrite He in *.
      rewrite (proj2 (Z.eqb_eq _ 0)) by lia. cbn [negb].
      pose proof (get_range_mid 0 PROBE_LEN [] (taken s) (zeros (PROBE_LEN + MAX_PAYLOAD - len (taken s)))) as H.
      cbn [app] in H. rewrite H by (reflexivity || (change (len (@nil Z)) with 0; lia)). cbn [or_panic rbind]. unfold taken. by rewrite He.
Qed.

End EarlyFacts.
Import EarlyFacts.

(** ** Any number of records *)

(** The records' plaintexts pushed one after another, and how much was consumed. *)
Fixpoint push_all (r : EarlyReader) (records : list bytes) : EarlyReader * res Error Z :=
  match records with
  | [] => (r, Ok 0)
  | b :: records =>
      match push r b with
      | (r, Ok n) =>
          match push_all r records with (r, Ok m) => (r, Ok (n + m)) | e => e end
      | e => e
      end
  end.

Lemma push_all_followed records p :
  followed p -> bytes_ok (concat records) -> taken p = p ->
  let s := p ++ concat records in
  (too_long s = false -> push_all (reader_of p) records = (reader_of (taken s), Ok (len (taken s) - len p))) /\
  (too_long s = true -> snd (push_all (reader_of p) records) = Err RecordTooLong).
Proof.
  revert p; induction records as [|b records IH]; intros p Hf Hb Hp s; unfold s; cbn [concat push_all].
  { rewrite app_nil_r, Hp. split; [intros _; f_equal; f_equal; lia|]. pose proof (fo_short p Hf). congruence. }
  cbn [concat] in Hb. apply bytes_ok_app in Hb as [Hb Hr]. rewrite app_assoc.
  assert (bytes_ok (p ++ b)) as Hpb by (apply bytes_ok_app; split; [apply Hf|done]).
  destruct (push_followed p b Hf Hb) as [H1 H2]. destruct (too_long (p ++ b)) eqn:E.
  - specialize (H2 eq_refl). destruct (push (reader_of p) b) as [r x]. simpl in H2. subst x.
    split; [intros Ht; apply too_long_app in Ht; [congruence|done]|done].
  - destruct (H1 eq_refl) as [-> Hf']. pose proof (taken_taken (p ++ b) [] Hpb) as Ht. rewrite !app_nil_r in Ht.
    destruct (IH _ Hf' Hr Ht) as [I1 I2]. unfold too_long in *. rewrite declared_taken in * by done.
    rewrite taken_taken in I1 by done. split; intros Hs.
    + rewrite I1 by done. f_equal. f_equal. lia.
    + specialize (I2 Hs). destruct (push_all _ records) as [r x]. simpl in I2. by subst x.
Qed.

(** The early payload does not depend on record boundaries.  However the
    decrypted stream [s] is cut into records, pushing them consumes exactly the
    reader's share (the probe, and the payload its magic announces) and leaves
    the rest; the outcome is the payload if the stream begins with the magic, the
    nine bytes to push back if it does not, [Incomplete] while bytes are missing,
    and an error exactly when more than 1024 bytes are announced.  Nothing panics
    or hangs. *)
Theorem early_reader_exact (records : list bytes) :
  bytes_ok (concat records) ->
  let s := concat records in
  (too_long s = false ->
   exists r, push_all early.new records = (r, Ok (len (taken s))) /\
     finish r = if len s <? limit s then Err Incomplete else
       Ok (match declared s with
           | Some n => Payload (sub_range PROBE_LEN (PROBE_LEN + n) s)
           | None => PushBack (ztake PROBE_LEN s)
           end)) /\
  (too_long s = true -> snd (push_all early.new records) = Err RecordTooLong).
Proof.
  intros Hb s. destruct (push_all_followed records []) as [H1 H2]; try done.
  { split; try done. constructor. }
  split; [|exact H2]. intros Ht. exists (reader_of (taken s)). rewrite <- (finish_reader s) by done. split; [|done].
  change early.new with (reader_of []). rewrite H1 by done. cbn [app]. fold s. change (len (@nil Z)) with 0. by rewrite Z.sub_0_r.
Qed.

(** The captured session: magic, length and JSON in records of their own. *)
Lemma early_reader_exact_witness :
  let records := [[0xff; 0xff; 0xff; 84; 83]; [0; 0; 0; 2]; [123; 125]; [0; 0; 0]] in
  let s := concat records in
  (too_long s = false ->
   exists r, push_all early.new records = (r, Ok (len (taken s))) /\
     finish r = if len s <? limit s then Err Incomplete else
       Ok (match declared s with
           | Some n => Payload (sub_range PROBE_LEN (PROBE_LEN + n) s)
           | None => PushBack (ztake PROBE_LEN s)
           end)) /\
  (too_long s = true -> snd (push_all early.new records) = Err RecordTooLong).
Proof.
  apply (early_reader_exact [[0xff; 0xff; 0xff; 84; 83]; [0; 0; 0; 2]; [123; 125]; [0; 0; 0]]).
  vm_compute. repeat constructor; discriminate.
Defined.
