(* ===== verification/ControlSession.v ===== *)
(** * The control-plane transport: properties

    Over [Control.v]: records travel in order through any byte stream, no nonce
    is used twice, and the handshake agrees with Noise IK's responder. *)

From S2P Require Import Prelude Timers Messages Crypto Noise Control.
Import control.

(** ** Records *)

Module RecordFacts.
Import record.

Section Records.
Context `{P : Primitives} {POk : PrimitivesOk P}.
#[local] Hint Rewrite len_seal len_tag : len.

(** The bytes of a record. *)
Definition record_bytes (c : Cipher) (p : bytes) : bytes :=
  concat [[TYPE_RECORD]; to_be 2 (len p + TAG_LEN);
          fst (chacha_seal (key c) (nonce c) [] p); snd (chacha_seal (key c) (nonce c) [] p)].

Lemma len_record c p : len (record_bytes c p) = HEADER_LEN + len p + TAG_LEN.
Proof. unfold record_bytes, HEADER_LEN, TAG_LEN. cbn [concat]. llia. Qed.

Definition bump (c : Cipher) : Cipher := mkCipher (key c) (counter c + 1).

Lemma advance_ok c : counter c < MAX_COUNTER -> advance c = Ok (bump c).
Proof. intros. unfold advance. by rewrite (proj2 (Z.leb_gt _ _)). Qed.

Lemma seal_into_layout c p out :
  len p <= MAX_PLAINTEXT -> len out = HEADER_LEN + len p + TAG_LEN -> seal_into c p out = Ok (record_bytes c p).
Proof.
  unfold MAX_PLAINTEXT, MAX_MESSAGE, HEADER_LEN, TAG_LEN. intros Hp Ho. pose proof (len_nonneg p).
  name_fields out [1; 2; len p; 16]. clear Ho.
  unfold seal_into, slice_copy, slice, set_at, aead_seal_nonce, HEADER_LEN, TAG_LEN. cbn [fst snd].
  write_field 0%nat. write_field 1%nat. write_field 2%nat.
  rewrite (get_fields 2 3); [|lia|cbn [take concat]; llia|cbn [take drop concat Nat.sub]; llia].
  cbn [or_panic rbind take drop Nat.sub]. replace (concat [p]) with p by (cbn [concat]; by rewrite app_nil_r).
  pose proof (len_seal (key c) (nonce c) [] p) as Hs. pose proof (len_tag (key c) (nonce c) [] p) as Ht.
  unfold record_bytes. destruct (chacha_seal (key c) (nonce c) [] p) as [sealed tag]. cbn [fst snd] in *.
  write_field 2%nat. erewrite (copy_field 3); [|reflexivity|cbn [take concat]; llia|cbn [concat]; llia|llia].
  cbn [or_panic insert list_insert]. unfold wrap. rewrite Z.mod_small by lia. reflexivity.
Qed.

Lemma record_seal_layout s p out :
  len p <= MAX_PLAINTEXT -> HEADER_LEN + len p + TAG_LEN <= len out -> counter (tx s) < MAX_COUNTER ->
  seal s p out = (mkSession (bump (tx s)) (rx s), Ok (record_bytes (tx s) p)).
Proof.
  intros Hp Ho Hc. pose proof (len_nonneg p). unfold seal. rewrite (proj2 (Z.ltb_ge _ _)) by lia.
  rewrite get_range_in by (unfold HEADER_LEN, TAG_LEN in *; lia).
  rewrite seal_into_layout; [|done|rewrite len_sub_range; unfold HEADER_LEN, TAG_LEN in *; lia].
  cbn [rbind]. by rewrite advance_ok.
Qed.

(** A receiver in step opens the body of the record. *)
Lemma open_layout s c p out :
  key (rx s) = key c -> counter (rx s) = counter c -> counter c < MAX_COUNTER -> len p <= len out ->
  open s (zdrop HEADER_LEN (record_bytes c p)) out = (mkSession (tx s) (bump (rx s)), Ok p).
Proof.
  intros Hk Hn Hc Ho. pose proof (len_nonneg p). pose proof (open_seal (key c) (nonce c) [] p) as Hop.
  pose proof (len_seal (key c) (nonce c) [] p) as Hs. pose proof (len_tag (key c) (nonce c) [] p) as Ht.
  unfold record_bytes. destruct (chacha_seal (key c) (nonce c) [] p) as [sealed tag] eqn:E. cbn [fst snd] in *.
  replace (zdrop HEADER_LEN _) with (sealed ++ tag).
  2: { cbn [concat]. rewrite app_nil_r, app_assoc. symmetry. apply zdrop_app_len. unfold HEADER_LEN. llia. }
  unfold open, slice. rewrite len_app, Hs, Ht. unfold TAG_LEN. replace (len p + 16 - 16) with (len p) by lia.
  rewrite (proj2 (Z.ltb_ge _ _)), get_range_in by lia. cbn [fst snd].
  pose proof (get_range_mid 0 (len p) [] sealed tag) as G1. cbn [app] in G1. rewrite G1 by (change (len (@nil Z)) with 0; lia).
  pose proof (get_range_mid (len p) (len p + 16) sealed tag []) as G2. rewrite app_nil_r in G2. rewrite G2 by lia.
  cbn [or_panic rbind]. unfold aead_open_nonce. rewrite Ht. change (negb (16 =? TAG_LEN)) with false. cbv iota.
  assert (nonce (rx s) = nonce c) as -> by (unfold nonce; by rewrite Hn). rewrite Hk, Hop. cbn [ok_or map_err rbind].
  by rewrite advance_ok by lia.
Qed.

(** The header says how long the body is. *)
Lemma header_layout c p : len p <= MAX_PLAINTEXT ->
  ciphertext_len (ztake HEADER_LEN (record_bytes c p)) = Ok (len p + TAG_LEN).
Proof.
  unfold MAX_PLAINTEXT, MAX_MESSAGE, HEADER_LEN, TAG_LEN. intros Hp. pose proof (len_nonneg p).
  unfold record_bytes. cbn [concat].
  rewrite (app_assoc [TYPE_RECORD]), ztake_app_len by llia. pose proof (len_to_be 2 (len p + TAG_LEN)) as Hl.
  pose proof (of_to_be_small 2 (len p + TAG_LEN)) as Hv. unfold TAG_LEN in *.
  destruct (to_be 2 (len p + 16)) as [|x [|y [|? ?]]]; try (exfalso; llia). unfold ciphertext_len. cbn [app].
  change (at_ 0 _) with TYPE_RECORD. change (at_ 1 _) with x. change (at_ 2 _) with y. rewrite Hv by (simpl; lia).
  change (len [TYPE_RECORD; x; y] <? HEADER_LEN) with false. cbv iota. rewrite Z.eqb_refl. cbn [negb].
  unfold TAG_LEN, MAX_MESSAGE, HEADER_LEN. by rewrite !(proj2 (Z.leb_le _ _)) by lia.
Qed.

End Records.
End RecordFacts.
Import RecordFacts.

Section Stream.
Context `{P : Primitives}.

(** Sealing plaintexts one after another into a stream. *)
Fixpoint send_all (s : record.Session) (ps : list bytes) (out : bytes) : record.Session * res Error bytes :=
  match ps with
  | [] => (s, Ok [])
  | p :: ps =>
      match record.seal s p out with
      | (s, Ok r) => match send_all s ps out with (s, Ok rest) => (s, Ok (r ++ rest)) | e => e end
      | e => e
      end
  end.

(** Reading [n] records off a stream as the callers do: the header, the length
    it gives, that many bytes. *)
Fixpoint receive_all (n : nat) (s : record.Session) (stream out : bytes) : record.Session * res Error (list bytes * bytes) :=
  match n with
  | O => (s, Ok ([], stream))
  | S n =>
      match (let! k := record.ciphertext_len (ztake record.HEADER_LEN stream) in
             ok_or (get_range record.HEADER_LEN (record.HEADER_LEN + k) stream) Incomplete) with
      | Ok body =>
          match record.open s body out with
          | (s, Ok p) =>
              match receive_all n s (zdrop (record.HEADER_LEN + len body) stream) out with
              | (s, Ok (ps, rest)) => (s, Ok (p :: ps, rest))
              | (s, Err e) => (s, Err e) | (s, Panic) => (s, Panic) | (s, Hang) => (s, Hang)
              end
          | (s, Err e) => (s, Err e) | (s, Panic) => (s, Panic) | (s, Hang) => (s, Hang)
          end
      | Err e => (s, Err e) | Panic => (s, Panic) | Hang => (s, Hang)
      end
  end.

(** A receiver in step with a sender. *)
Definition in_step (a b : record.Session) : Prop :=
  record.key (record.tx a) = record.key (record.rx b) /\ record.counter (record.tx a) = record.counter (record.rx b).

Context {POk : PrimitivesOk P}.

(** One record off the front of a stream. *)
Lemma receive_one a b p rest :
  in_step a b -> len p <= record.MAX_PLAINTEXT ->
  let stream := record_bytes (record.tx a) p ++ rest in
  let body := zdrop record.HEADER_LEN (record_bytes (record.tx a) p) in
  (let! k := record.ciphertext_len (ztake record.HEADER_LEN stream) in
   ok_or (get_range record.HEADER_LEN (record.HEADER_LEN + k) stream) Incomplete) = Ok body /\
  zdrop (record.HEADER_LEN + len body) stream = rest.
Proof.
  intros [Hk Hc] Hp stream body. pose proof (len_record (record.tx a) p) as Hl. unfold record.HEADER_LEN, TAG_LEN in *.
  pose proof (len_nonneg p). set (r := record_bytes (record.tx a) p) in *.
  assert (r = ztake 3 r ++ body) as Hr by (unfold body; by rewrite ztake_zdrop).
  assert (len (ztake 3 r) = 3) as H3 by llia. assert (len body = len p + 16) as Hb by (unfold body; llia).
  split.
  - unfold stream. rewrite Hr at 1. rewrite <- app_assoc, ztake_app_len by done.
    pose proof (header_layout (record.tx a) p Hp) as Hh. unfold record.HEADER_LEN, TAG_LEN in Hh. fold r in Hh. rewrite Hh. cbn [rbind].
    rewrite Hr, <- app_assoc. rewrite get_range_mid by lia. done.
  - unfold stream. apply zdrop_app_len. lia.
Qed.

(** The record layer carries a stream in order.  Sealing any number of
    plaintexts of at most [MAX_PLAINTEXT] bytes and reading as many records off
    the stream (with anything behind it) by their length headers gives back
    exactly the plaintexts and exactly what is behind; the two counters move in
    step, so the sessions are ready for the next records. *)
Theorem record_stream_roundtrip (ps : list bytes) (a b : record.Session) (out out' rest : bytes) :
  in_step a b -> record.counter (record.tx a) + Z.of_nat (length ps) <= record.MAX_COUNTER ->
  Forall (fun p => len p <= record.MAX_PLAINTEXT) ps -> record.MAX_MESSAGE <= len out -> record.MAX_PLAINTEXT <= len out' ->
  exists a' b' stream,
    send_all a ps out = (a', Ok stream) /\
    receive_all (length ps) b (stream ++ rest) out' = (b', Ok (ps, rest)) /\
    in_step a' b' /\ record.counters a' = (record.counter (record.tx a) + Z.of_nat (length ps), record.counter (record.rx a)).
Proof.
  revert a b; induction ps as [|p ps IH]; intros a b Hs Hc Hp Ho Ho'.
  { exists a, b, []. split_and!; try done. unfold record.counters. simpl. by rewrite Z.add_0_r. }
  apply Forall_cons_iff in Hp as [Hp Hps]. simpl length in Hc.
  assert (record.HEADER_LEN + len p + TAG_LEN <= len out) as Hroom.
  { unfold record.MAX_PLAINTEXT, record.HEADER_LEN, TAG_LEN in *. lia. }
  set (a1 := record.mkSession (bump (record.tx a)) (record.rx a)). set (b1 := record.mkSession (record.tx b) (bump (record.rx b))).
  destruct Hs as [Hk Hn].
  destruct (IH a1 b1) as (a' & b' & stream & Hsend & Hrecv & Hin & Hcs); try done.
  { split; simpl; [done|lia]. }
  { simpl. lia. }
  exists a', b', (record_bytes (record.tx a) p ++ stream). split_and!; [| |done|].
  - cbn [send_all]. rewrite record_seal_layout by (done || lia). fold a1. by rewrite Hsend.
  - cbn [receive_all length]. rewrite <- app_assoc.
    destruct (receive_one a b p (stream ++ rest)) as [-> ->]; [by split|done|].
    rewrite open_layout by (done || lia). fold b1. by rewrite Hrecv.
  - rewrite Hcs. simpl. f_equal. lia.
Qed.

(** The nonces of the records that were sealed, over any sequence of calls. *)
Fixpoint sealed_nonces (s : record.Session) (calls : list (bytes * bytes)) : list bytes :=
  match calls with
  | [] => []
  | (p, out) :: calls =>
      match record.seal s p out with
      | (s', Ok _) => record.nonce (record.tx s) :: sealed_nonces s' calls
      | (s', _) => sealed_nonces s' calls
      end
  end.

Lemma seal_counter s p out s' r :
  record.seal s p out = (s', r) ->
  match r with
  | Ok _ => record.tx s' = bump (record.tx s) /\ record.counter (record.tx s) < record.MAX_COUNTER
  | _ => s' = s
  end.
Proof.
  unfold record.seal. case_if; [by intros [= <- <-]|]. destruct (get_range _ _ out) as [o|]; [|by intros [= <- <-]].
  destruct (record.seal_into _ _ _) as [o'| | |]; cbn [rbind]; try by intros [= <- <-].
  unfold record.advance. case_if; cbn [rbind]; [by intros [= <- <-]|]. intros [= <- <-]. bool_hyps. done.
Qed.

Lemma nonces_above calls s n :
  0 <= record.counter (record.tx s) -> n ∈ sealed_nonces s calls ->
  exists c, n = zeros 4 ++ to_be 8 c /\ record.counter (record.tx s) <= c < record.MAX_COUNTER.
Proof.
  revert s; induction calls as [|[p out] calls IH]; intros s H0 Hin; simpl in Hin; [by apply not_elem_of_nil in Hin|].
  destruct (record.seal s p out) as [s' r] eqn:E. pose proof (seal_counter _ _ _ _ _ E) as Hs.
  destruct r; try (subst s'; by apply IH). destruct Hs as [Ht Hlt]. apply elem_of_cons in Hin as [-> |Hin].
  - by exists (record.counter (record.tx s)).
  - apply IH in Hin as (c & -> & Hc); rewrite Ht in *; simpl in *; [|lia]. exists c. split; [done|lia].
Qed.

(** No nonce twice.  Over any sequence of calls of [seal] with any
    plaintexts and buffers, failed ones among them, the records that were sealed
    carry pairwise different nonces. *)
Theorem record_nonces_unique (calls : list (bytes * bytes)) (s : record.Session) :
  0 <= record.counter (record.tx s) -> NoDup (sealed_nonces s calls).
Proof.
  revert s; induction calls as [|[p out] calls IH]; intros s H0; simpl; [constructor|].
  destruct (record.seal s p out) as [s' r] eqn:E. pose proof (seal_counter _ _ _ _ _ E) as Hs.
  destruct r; try (subst s'; by apply IH). destruct Hs as [Ht Hlt]. constructor.
  - intros Hin. apply nonces_above in Hin as (c & Hn & Hc); rewrite Ht in *; simpl in *; [|lia].
    unfold record.nonce in Hn. apply (app_inv_head (zeros 4)) in Hn. unfold record.MAX_COUNTER, U64_MAX in *.
    apply to_be_inj in Hn; [lia|..]; change (256 ^ Z.of_nat 8) with (2 ^ 64); lia.
  - apply IH. rewrite Ht. simpl. lia.
Qed.

End Stream.

(** ** The handshake *)

(** Noise IK's responder, [<- s; -> e, es, s, ss; <- e, ee, se], over the wire
    layout of the two messages: the client's key, the response, and the session. *)
Module Responder.

Section Responder.
Context `{P : Primitives}.

(** b"Tailscale Control Protocol v131" *)
Definition PROLOGUE : bytes := ik.PROLOGUE_PREFIX ++ [49; 51; 49].
Definition nonce0 : bytes := zeros 12.

Definition respond (server_private ephemeral msg : bytes) : res Error (bytes * bytes * record.Session) :=
  guard! (len msg =? 101) && bytes_eqb (ztake 5 msg) [0; 131; 1; 0; 96] else Malformed in
  let ck := hash [ik.PROTOCOL_NAME] in
  let h := hash [ck; PROLOGUE] in
  let h := hash [h; x25519_base server_private] in
  let! e := slice (5, 37) msg in
  let h := hash [h; e] in
  let! es := ik.dh server_private e in
  let (ck, k) := kdf2 ck es in
  let! sealed := slice (37, 69) msg in
  let! tag := slice (69, 85) msg in
  let! static := ok_or (chacha_open k nonce0 h sealed tag) Decryption in
  let h := hash [h; sealed ++ tag] in
  let! ss := ik.dh server_private static in
  let (ck, k) := kdf2 ck ss in
  let! tag := slice (85, 101) msg in
  let! _ := ok_or (chacha_open k nonce0 h [] tag) Decryption in
  let h := hash [h; tag] in
  let e' := x25519_base ephemeral in
  let h := hash [h; e'] in
  let! ee := ik.dh ephemeral e in
  let (ck, _) := kdf2 ck ee in
  let! se := ik.dh ephemeral static in
  let (ck, k) := kdf2 ck se in
  let tag := snd (chacha_seal k nonce0 h []) in
  let (client_tx, client_rx) := kdf2 ck [] in
  Ok (static, [2; 0; 48] ++ e' ++ tag, record.new client_rx client_tx).

End Responder.
End Responder.

Section Agreement.
Context `{P : Primitives} {POk : PrimitivesOk P}.

(** The prologue is the text with the version in decimal. *)
Lemma prologue_text : ik.prologue CAPABILITY_VERSION (zeros ik.PROLOGUE_MAX) = Ok Responder.PROLOGUE.
Proof. vm_compute. reflexivity. Qed.

(** Opening an empty payload that was sealed. *)
Lemma seal_empty k n ad : exists t, chacha_seal k n ad [] = ([], t) /\ len t = 16 /\ chacha_open k n ad [] t = Some [].
Proof.
  pose proof (len_seal k n ad []) as Hs. pose proof (len_tag k n ad []) as Ht. pose proof (open_seal k n ad []) as Ho.
  destruct (chacha_seal k n ad []) as [c t]. cbn [fst snd] in *. apply len_zero_nil in Hs as ->. by exists t.
Qed.

Lemma seal_32 k n ad p : len p = 32 -> exists c t, chacha_seal k n ad p = (c, t) /\ len c = 32 /\ len t = 16 /\ chacha_open k n ad c t = Some p.
Proof.
  intros Hp. pose proof (len_seal k n ad p) as Hs. pose proof (len_tag k n ad p) as Ht. pose proof (open_seal k n ad p) as Ho.
  destruct (chacha_seal k n ad p) as [c t]. cbn [fst snd] in *. exists c, t. split_and!; try done. lia.
Qed.

Definition initiation_fields (e sealed tag tag' : bytes) : list bytes :=
  [to_be 2 CAPABILITY_VERSION; [ik.TYPE_INITIATION]; to_be 2 ik.INITIATION_BODY_LEN; e; sealed; tag; tag'].

Lemma initiation_parts e sealed tag tag' :
  len e = 32 -> len sealed = 32 -> len tag = 16 -> len tag' = 16 ->
  let msg := concat (initiation_fields e sealed tag tag') in
  len msg = 101 /\ ztake 5 msg = [0; 131; 1; 0; 96] /\ get_range 5 37 msg = Some e /\
  get_range 37 69 msg = Some sealed /\ get_range 69 85 msg = Some tag /\ get_range 85 101 msg = Some tag'.
Proof.
  intros He Hs Ht Ht' msg. unfold msg, initiation_fields.
  assert (forall i j a b x, (i <= j)%nat -> a = len (concat (take i (initiation_fields e sealed tag tag'))) ->
    concat (take (j - i) (drop i (initiation_fields e sealed tag tag'))) = x -> b = a + len x ->
    get_range a b (concat (initiation_fields e sealed tag tag')) = Some x) as G.
  { intros i j a b x Hij Ha <- Hb. by apply get_fields. }
  split_and!; [cbn [concat]; llia|done|apply (G 3%nat 4%nat)|apply (G 4%nat 5%nat)|apply (G 5%nat 6%nat)|apply (G 6%nat 7%nat)];
    try lia; try (unfold initiation_fields; cbn [take drop Nat.sub concat]; by rewrite ?app_nil_r);
    unfold initiation_fields; cbn [take concat]; llia.
Qed.

Lemma response_parts e' tag :
  len e' = 32 -> len tag = 16 ->
  let msg := [2; 0; 48] ++ e' ++ tag in
  len msg = 51 /\ at_ 0 msg = 2 /\ of_be [at_ 1 msg; at_ 2 msg] = 48 /\ get_range 3 35 msg = Some e' /\ get_range 35 51 msg = Some tag.
Proof.
  intros He Ht msg. unfold msg. split_and!; try done; [llia|apply get_range_mid; llia|].
  pose proof (get_range_mid 35 51 ([2; 0; 48] ++ e') tag []) as G. rewrite app_nil_r, <- app_assoc in G. apply G; llia.
Qed.

(** The initiation, and the state it leaves. *)
Lemma initiate_layout mp sp e out es ss :
  ik.INITIATION_LEN <= len out -> ik.dh e sp = Ok es -> ik.dh mp sp = Ok ss ->
  exists sealed tag tag', let ep := x25519_base e in
    let h := hash [hash [hash [hash [ik.PROTOCOL_NAME]; Responder.PROLOGUE]; sp]; ep] in
    let (ck1, k1) := kdf2 (hash [ik.PROTOCOL_NAME]) es in
    let (ck2, k2) := kdf2 ck1 ss in
    let h' := hash [h; sealed ++ tag] in
    ik.initiate mp sp e out = Ok (concat (initiation_fields ep sealed tag tag'), ik.mkHandshake mp e ck2 (hash [h'; tag'])) /\
    map len [sealed; tag; tag'] = [32; 16; 16] /\
    chacha_open k1 (zeros 12) h sealed tag = Some (x25519_base mp) /\ chacha_open k2 (zeros 12) h' [] tag' = Some [].
Proof.
  intros Ho He Hs. set (ep := x25519_base e).
  set (h := hash [hash [hash [hash [ik.PROTOCOL_NAME]; Responder.PROLOGUE]; sp]; ep]).
  destruct (kdf2 (hash [ik.PROTOCOL_NAME]) es) as [ck1 k1] eqn:E1. destruct (kdf2 ck1 ss) as [ck2 k2] eqn:E2.
  destruct (seal_32 k1 (zeros 12) h (x25519_base mp) (len_base mp)) as (c & t & S1 & Lc & Lt & O1).
  destruct (seal_empty k2 (zeros 12) (hash [h; c ++ t])) as (t' & S2 & Lt' & O2).
  exists c, t, t'. cbv zeta. split_and!; try done; [|cbn [map]; congruence].
  unfold ik.initiate, ik.INITIATION_LEN, TAG_LEN in *. change (5 + 32 + (32 + 16) + 16) with 101 in *.
  rewrite get_range_in by lia. cbn [ok_or rbind]. rewrite prologue_text. cbn [rbind].
  assert (len (sub_range 0 101 out) = 101) as Hl by (rewrite len_sub_range; lia).
  revert Hl. generalize (sub_range 0 101 out). intros buf Hl. name_fields buf [2; 1; 2; 32; 32; 16; 16]. clear Hl.
  pose proof (len_base e) as Hle. pose proof (len_base mp) as Hlm. fold ep in Hle.
  unfold slice_copy, slice, set_at, aead_seal_nonce, ik.HANDSHAKE_NONCE, NONCE_LEN. cbn [fst snd]. fold ep. fold h.
  write_field 0%nat. write_field 1%nat. write_field 2%nat. write_field 3%nat. rewrite He. cbn [rbind]. rewrite E1. write_field 4%nat.
  rewrite (get_fields 4 5); [|lia|cbn [take concat]; llia|cbn [take drop concat Nat.sub]; llia].
  cbn [or_panic rbind take drop Nat.sub]. rewrite concat_1, S1. write_field 4%nat. write_field 5%nat.
  rewrite (get_fields 4 6); [|lia|cbn [take concat]; llia|cbn [take drop concat Nat.sub]; llia].
  cbn [or_panic rbind take drop Nat.sub]. replace (concat [c; t]) with (c ++ t) by (cbn [concat]; by rewrite app_nil_r).
  rewrite Hs. cbn [rbind]. rewrite E2, S2. write_field 6%nat.
  rewrite (get_fields 6 7); [|lia|cbn [take concat]; llia|cbn [take drop concat Nat.sub]; llia].
  cbn [or_panic rbind take drop Nat.sub]. by rewrite concat_1.
Qed.

(** Both sides of the handshake. *)
Lemma ik_agrees (mp sp e se out s1 s2 s3 s4 : bytes) :
  ik.INITIATION_LEN <= len out ->
  ik.dh e (x25519_base sp) = Ok s1 -> ik.dh mp (x25519_base sp) = Ok s2 ->
  ik.dh se (x25519_base e) = Ok s3 -> ik.dh se (x25519_base mp) = Ok s4 ->
  exists msg hs response server session,
    ik.initiate mp (x25519_base sp) e out = Ok (msg, hs) /\ len msg = ik.INITIATION_LEN /\
    Responder.respond sp se msg = Ok (x25519_base mp, response, server) /\
    ik.consume_response hs response = Ok session /\ len response = ik.RESPONSE_LEN /\
    in_step session server /\ in_step server session /\ record.counters session = (0, 0).
Proof.
  intros Ho H1 H2 H3 H4.
  destruct (initiate_layout mp (x25519_base sp) e out s1 s2 Ho H1 H2) as (c & t & t' & Hi). cbv zeta in Hi.
  set (h0 := hash [hash [hash [ik.PROTOCOL_NAME]; Responder.PROLOGUE]; x25519_base sp]) in *.
  destruct (kdf2 (hash [ik.PROTOCOL_NAME]) s1) as [ck1 k1] eqn:E1. destruct (kdf2 ck1 s2) as [ck2 k2] eqn:E2.
  destruct Hi as (Hi & Hl & O1 & O2). cbn [map] in Hl. injection Hl as Lc Lt Lt'.
  destruct (initiation_parts (x25519_base e) c t t') as (Lm & Pm & G1 & G2 & G3 & G4); try done; [apply len_base|].
  set (msg := concat (initiation_fields (x25519_base e) c t t')) in *. clearbody msg.
  set (h := hash [hash [hash [h0; x25519_base e]; c ++ t]; t']) in *.
  destruct (kdf2 ck2 s3) as [ck3 k3] eqn:E3. destruct (kdf2 ck3 s4) as [ck4 k4] eqn:E4. destruct (kdf2 ck4 []) as [tx rx] eqn:E5.
  destruct (seal_empty k4 (zeros 12) (hash [h; x25519_base se])) as (t4 & S4 & L4 & O4).
  destruct (response_parts (x25519_base se) t4) as (Lr & R0 & R1 & R3 & R35); [apply len_base|done|].
  exists msg, (ik.mkHandshake mp e ck2 h), ([2; 0; 48] ++ x25519_base se ++ t4), (record.new rx tx), (record.new tx rx).
  assert (Hcomm : forall a b, ik.dh a (x25519_base b) = ik.dh b (x25519_base a)) by (intros; unfold ik.dh; by rewrite dh_comm).
  split_and!; try done.
  - unfold Responder.respond, slice, Responder.nonce0. cbn [fst snd]. rewrite Lm, Pm, G1, G2, G3, G4. rewrite bytes_eqb_refl.
    change (101 =? 101) with true. cbn [andb or_panic rbind]. rewrite Hcomm, H1. cbn [rbind]. rewrite E1. fold h0. rewrite O1.
    cbn [ok_or rbind]. rewrite Hcomm, H2. cbn [rbind]. rewrite E2, O2. cbn [ok_or rbind]. fold h. rewrite H3. cbn [rbind].
    rewrite E3, H4. cbn [rbind]. by rewrite E4, S4, E5.
  - unfold ik.consume_response, slice. cbn [fst snd]. set (r := [2; 0; 48] ++ x25519_base se ++ t4) in *. clearbody r.
    rewrite Lr, R0, R1, R3, R35. change (51 =? ik.RESPONSE_LEN) with true. change (2 =? ik.TYPE_RESPONSE) with true.
    change (48 =? ik.RESPONSE_BODY_LEN) with true. cbn [negb orb or_panic rbind ik.ephemeral ik.machine_private ik.chaining_key ik.hs_hash].
    rewrite Hcomm, H3. cbn [rbind]. rewrite E3, Hcomm, H4. cbn [rbind]. rewrite E4. unfold aead_open_nonce.
    rewrite L4. change (negb (16 =? TAG_LEN)) with false. change ik.HANDSHAKE_NONCE with (zeros 12). cbv iota.
    rewrite O4. cbn [ok_or map_err rbind]. by rewrite E5.
Qed.

(** The client's handshake agrees with Noise IK.  Whenever the four
    Diffie-Hellman results are contributory and the buffer holds an initiation, the
    initiation is accepted by a Noise IK responder bound to protocol version 131,
    which learns the client's machine key; its response is accepted by the client;
    and the two sessions are in step in both directions from their first record. *)
Theorem ik_agreement (mp sp e se out s1 s2 s3 s4 : bytes) :
  ik.INITIATION_LEN <= len out ->
  ik.dh e (x25519_base sp) = Ok s1 -> ik.dh mp (x25519_base sp) = Ok s2 ->
  ik.dh se (x25519_base e) = Ok s3 -> ik.dh se (x25519_base mp) = Ok s4 ->
  exists msg hs response server session,
    ik.initiate mp (x25519_base sp) e out = Ok (msg, hs) /\ len msg = ik.INITIATION_LEN /\
    Responder.respond sp se msg = Ok (x25519_base mp, response, server) /\
    ik.consume_response hs response = Ok session /\
    in_step session server /\ in_step server session /\ record.counters session = (0, 0).
Proof.
  intros Ho H1 H2 H3 H4. destruct (ik_agrees mp sp e se out s1 s2 s3 s4 Ho H1 H2 H3 H4)
    as (msg & hs & response & server & session & ? & ? & ? & ? & _ & ? & ? & ?).
  by exists msg, hs, response, server, session.
Qed.

End Agreement.

#[local] Existing Instance Toy.prims.
#[local] Existing Instance Toy.prims_ok.

Lemma ik_agreement_witness :
  let mp := replicate 32 3 in let sp := replicate 32 5 in let e := replicate 32 9 in let se := replicate 32 11 in
  exists msg hs response server session,
    ik.initiate mp (x25519_base sp) e (zeros 101) = Ok (msg, hs) /\ len msg = ik.INITIATION_LEN /\
    Responder.respond sp se msg = Ok (x25519_base mp, response, server) /\
    ik.consume_response hs response = Ok session /\
    in_step session server /\ in_step server session /\ record.counters session = (0, 0).
Proof.
  intros mp sp e se.
  apply (ik_agreement mp sp e se (zeros 101) (replicate 32 14) (replicate 32 8) (replicate 32 20) (replicate 32 14));
    solve [vm_compute; reflexivity | vm_compute; discriminate].
Defined.

Lemma record_stream_roundtrip_witness :
  let a := record.new [1] [2] in let b := record.new [2] [1] in let ps := [[104; 105]; []; [7]] in
  exists a' b' stream,
    send_all a ps (zeros 4096) = (a', Ok stream) /\
    receive_all 3 b (stream ++ [9; 9]) (zeros 4096) = (b', Ok (ps, [9; 9])) /\
    in_step a' b' /\ record.counters a' = (3, 0).
Proof.
  apply (record_stream_roundtrip [[104; 105]; []; [7]] (record.new [1] [2]) (record.new [2] [1]) (zeros 4096) (zeros 4096) [9; 9]);
    solve [split; reflexivity | vm_compute; discriminate | repeat constructor; vm_compute; discriminate].
Defined.

Lemma record_nonces_unique_witness :
  NoDup (sealed_nonces (record.new [1] [2]) [([104], zeros 64); ([105], zeros 8); ([106], zeros 64)]).
Proof. apply record_nonces_unique. vm_compute. discriminate. Defined.
