(* ===== verification/Keys.v ===== *)
(** * Keys

    [crates/ts-keys]: the three kinds of key a node holds ([lib.rs]), the
    [prefix:hex] text they are written in ([encoding.rs]), the blob an identity is
    kept in and the loading of it from a store ([store.rs]).

    X25519 is the class [Curve]: a secret is made from bytes and gives bytes back,
    and a public key is 32 bytes with the library's own equality, which need not be
    equality of the bytes. *)

From S2P Require Import Prelude Utf8.

(** ** The text form *)

Module encoding.

Definition KEY_LEN : Z := 32.
Definition MAX_ENCODED_LEN : Z := 9 + KEY_LEN * 2.

Inductive DecodeError := WrongPrefix | WrongLength | NotHex | BufferTooSmall.

Definition nibble (c : Z) : res DecodeError Z :=
  if between 48 57 c then Ok (c - 48) else
  if between 97 102 c then Ok (c - 97 + 10) else
  if between 65 70 c then Ok (c - 65 + 10) else
  Err NotHex.

(** The loop over the output: [n] slots left, the next one [i]. *)
Fixpoint decode_slots (n : nat) (i : Z) (b : bytes) : res DecodeError bytes :=
  match n with
  | O => Ok []
  | S n =>
      let! c := or_panic (get_at (i * 2) b) in
      let! high := nibble c in
      let! c := or_panic (get_at (i * 2 + 1) b) in
      let! low := nibble c in
      let! rest := decode_slots n (i + 1) b in
      Ok (Z.lor (wrap 8 (Z.shiftl high 4)) low :: rest)
  end.

Definition decode_hex (text : bytes) : res DecodeError bytes :=
  if negb (len text =? KEY_LEN * 2) then Err WrongLength else
  decode_slots (Z.to_nat KEY_LEN) 0 text.

(** [text.strip_prefix(p)] *)
Definition strip_prefix (p text : bytes) : option bytes :=
  if starts_with p text then Some (drop (length p) text) else None.

Definition decode_prefixed (prefix text : bytes) : res DecodeError bytes :=
  let! rest := ok_or (let? r := strip_prefix prefix text in strip_prefix [58] r) WrongPrefix in
  decode_hex rest.

Definition DIGITS : bytes := [48; 49; 50; 51; 52; 53; 54; 55; 56; 57; 97; 98; 99; 100; 101; 102].

(** The loop over the bytes: the next one is number [i]. *)
Fixpoint write_hex_from (i : Z) (b out : bytes) : option bytes :=
  match b with
  | [] => Some out
  | x :: b =>
      let? high := get_at (Z.shiftr x 4) DIGITS in
      let? out := set_at (i * 2) high out in
      let? low := get_at (Z.land x 0xf) DIGITS in
      let? out := set_at (i * 2 + 1) low out in
      write_hex_from (i + 1) b out
  end.

Definition write_hex (b out : bytes) : option bytes := write_hex_from 0 b out.

(** The output buffer afterwards, and the text in front of it. *)
Definition encode_prefixed (prefix key out : bytes) : bytes * res DecodeError bytes :=
  let total := len prefix + 1 + KEY_LEN * 2 in
  match get_range 0 total out with
  | None => (out, Err BufferTooSmall)
  | Some text =>
      match (let? text := copy_at 0 (len prefix) prefix text in
             let? text := set_at (len prefix) 58 text in
             let? hex := get_range (len prefix + 1) (len text) text in
             let? hex := write_hex key hex in
             let? text := copy_at (len prefix + 1) (len text) hex text in
             if utf8_valid text then Some text else None) with
      | None => (out, Panic)
      | Some text => (text ++ zdrop total out, Ok text)
      end
  end.

(** [ct_eq] of slices: lengths first, then every byte. *)
Definition ct_eq (a b : bytes) : bool := bytes_eqb a b.

End encoding.

(** ** The three kinds of key *)

Module keys.
Import encoding.

Inductive Kind := Machine | Node | Disco.

#[export] Instance kind_eq_dec : EqDecision Kind.
Proof. solve_decision. Defined.

(** [$public::PREFIX]: mkey, nodekey, discokey *)
Definition PREFIX (k : Kind) : bytes :=
  match k with
  | Machine => [109; 107; 101; 121]
  | Node => [110; 111; 100; 101; 107; 101; 121]
  | Disco => [100; 105; 115; 99; 111; 107; 101; 121]
  end.

(** What the code uses of [x25519_dalek]. *)
Class Curve := {
  StaticSecret : Type;
  secret_from : bytes -> StaticSecret;
  secret_to_bytes : StaticSecret -> bytes;
  public_from : StaticSecret -> bytes;
  (* [==] on public keys *)
  public_eq : bytes -> bytes -> bool;
}.

Class CurveOk (C : Curve) := {
  len_secret s : len (secret_to_bytes s) = 32;
  secret_bytes s : bytes_ok (secret_to_bytes s);
  secret_from_to s : secret_from (secret_to_bytes s) = s;
  len_public s : len (public_from s) = 32;
  public_bytes_ok s : bytes_ok (public_from s);
  public_eq_refl p : public_eq p p = true;
  public_eq_sym p q : public_eq p q = public_eq q p;
  public_eq_trans p q r : public_eq p q = true -> public_eq q r = true -> public_eq p r = true;
}.

(** The macro [key_type!] makes a pair of new types per kind; here the kind is an
    index of one type, so that a key of one kind is not a key of another. *)
Record Public (k : Kind) := mkPublic { as_bytes : bytes }.
Arguments mkPublic {k} as_bytes.
Arguments as_bytes {k} p.

#[export] Instance public_eq_dec k : EqDecision (Public k).
Proof. solve_decision. Defined.

Abbreviation MachinePublic := (Public Machine).
Abbreviation NodePublic := (Public Node).
Abbreviation DiscoPublic := (Public Disco).

Definition from_bytes {k} (b : bytes) : Public k := mkPublic b.

Definition parse {k} (text : bytes) : res DecodeError (Public k) :=
  let! b := decode_prefixed (PREFIX k) text in Ok (from_bytes b).

Definition encode {k} (p : Public k) (out : bytes) : bytes * res DecodeError bytes :=
  encode_prefixed (PREFIX k) (as_bytes p) out.

(** [write!(f, "{byte:02x}")] *)
Definition lower_hex2 (x : Z) : bytes :=
  [default 0 (get_at (x / 16) DIGITS); default 0 (get_at (x mod 16) DIGITS)].

(** [Display] *)
Definition display {k} (p : Public k) : bytes := PREFIX k ++ [58] ++ concat (map lower_hex2 (as_bytes p)).

Section Secrets.
Context `{C : Curve}.

Record Private (k : Kind) := mkPrivate { secret : StaticSecret }.
Arguments mkPrivate {k} secret.
Arguments secret {k} p.

Definition private_from_bytes {k} (b : bytes) : Private k := mkPrivate (secret_from b).
Definition to_bytes {k} (p : Private k) : bytes := secret_to_bytes (secret p).
Definition public {k} (p : Private k) : Public k := mkPublic (public_from (secret p)).

(** The generator is the tape of bytes it will produce: the key and the rest. *)
Definition generate {k} (rng : bytes) : option (Private k * bytes) :=
  let? b := get_range 0 KEY_LEN rng in Some (private_from_bytes b, zdrop KEY_LEN rng).

Record Identity := mkIdentity { machine : Private Machine; node : Private Node; disco : Private Disco }.

Definition generate_identity (rng : bytes) : option (Identity * bytes) :=
  let? (m, rng) := generate rng in
  let? (n, rng) := generate rng in
  let? (d, rng) := generate rng in
  Some (mkIdentity m n d, rng).

End Secrets.
Arguments Private {C} k.
Arguments Identity {C}.
Arguments mkIdentity {C} machine node disco.
Arguments secret {C k} p.
Arguments mkPrivate {C k} secret.
Arguments machine {C} i.
Arguments node {C} i.
Arguments disco {C} i.

End keys.

(** ** A curve that satisfies the laws

    Secrets are 32 bytes; other input is padded and reduced.  The public key is the
    secret itself and equality of public keys ignores the top bit, as X25519's
    does. *)

Module ToyCurve.
Import keys.

Definition is_secret (b : bytes) : Prop := len b = 32 /\ bytes_ok b.

#[export] Instance is_secret_dec b : Decision (is_secret b).
Proof. unfold is_secret, bytes_ok, is_uint. apply _. Defined.

Definition fix32 (b : bytes) : bytes := map (fun x => x mod 256) (ztake 32 (b ++ zeros 32)).

Lemma fix32_secret b : is_secret (fix32 b).
Proof.
  unfold fix32. split; [rewrite len_map; llia|]. unfold bytes_ok. rewrite Forall_map.
  apply Forall_true. intros x. unfold is_uint. simpl. apply Z.mod_pos_bound. lia.
Qed.

Lemma fix32_id b : is_secret b -> fix32 b = b.
Proof.
  intros [Hl Hb]. unfold fix32. rewrite ztake_app_len by done. clear Hl.
  induction Hb as [|x b Hx _ IH]; [done|]. simpl. rewrite IH. unfold is_uint in Hx. by rewrite Z.mod_small.
Qed.

Definition low_bits (b : bytes) : bytes := map (fun x => x mod 128) b.

#[export] Instance curve : Curve := {|
  StaticSecret := dsig is_secret;
  secret_from b := dexist (fix32 b) (fix32_secret b);
  secret_to_bytes s := `s;
  public_from s := `s;
  public_eq p q := bytes_eqb (low_bits p) (low_bits q);
|}.

#[export] Instance curve_ok : CurveOk curve.
Proof.
  assert (Hs : forall s : dsig is_secret, is_secret (`s)) by (intros s; apply (proj2_dsig s)).
  constructor; simpl; intros; try (apply Hs); rewrite ?bytes_eqb_refl; try done.
  - apply dsig_eq. simpl. apply fix32_id, Hs.
  - unfold bytes_eqb. by apply bool_decide_ext.
  - rewrite bytes_eqb_true in *. congruence.
Qed.

End ToyCurve.
