(* ===== verification/KeysFacts.v ===== *)
(** * The text form of keys

    What the decoder of [Keys.v] accepts, and that it reads what the encoder
    writes. *)

From S2P Require Import Prelude Utf8 Keys.
Import encoding keys.

(** The value of a hexadecimal digit, of either case. *)
Definition hex_value (c : Z) : option Z :=
  if between 48 57 c then Some (c - 48) else
  if between 97 102 c then Some (c - 87) else
  if between 65 70 c then Some (c - 55) else None.

(** The byte string two digits per byte stand for. *)
Inductive hex_text : bytes -> bytes -> Prop :=
| hex_nil : hex_text [] []
| hex_cons a b x y t k : hex_value a = Some x -> hex_value b = Some y -> hex_text t k ->
    hex_text (a :: b :: t) (x * 16 + y :: k).

Definition key_ok (b : bytes) : Prop := len b = KEY_LEN /\ bytes_ok b.

Lemma nibble_spec c : nibble c = ok_or (hex_value c) NotHex.
Proof.
  unfold nibble, hex_value. repeat case_match; simpl; try done; do 2 f_equal; lia.
Qed.

Lemma hex_value_range c x : hex_value c = Some x -> 0 <= x < 16.
Proof.
  unfold hex_value, between. intros H. repeat case_match; bool_hyps; simplify_eq; lia.
Qed.

Lemma join_nibbles x y : 0 <= x < 16 -> 0 <= y < 16 -> Z.lor (wrap 8 (Z.shiftl x 4)) y = x * 16 + y.
Proof.
  intros Hx Hy.
  assert (H : forallb (fun x => forallb (fun y => Z.lor (wrap 8 (Z.shiftl x 4)) y =? x * 16 + y) (seqZ 0 16)) (seqZ 0 16) = true)
    by (vm_compute; reflexivity).
  pose proof (check_below _ 16 H x Hx) as H1. by apply (check_below _ 16 H1 y), Z.eqb_eq in Hy.
Qed.

Lemma hex_text_len t k : hex_text t k -> len t = 2 * len k.
Proof. induction 1; [done|]. autorewrite with len. lia. Qed.

Lemma hex_text_bytes t k : hex_text t k -> bytes_ok k.
Proof.
  induction 1 as [|a b x y t k Hx Hy _ IH]; constructor; [|done].
  apply hex_value_range in Hx, Hy. unfold is_uint. lia.
Qed.

Lemma hex_text_inj t k k' : hex_text t k -> hex_text t k' -> k = k'.
Proof.
  intros H; revert k'. induction H as [|a b x y t k Hx Hy _ IH]; intros k' H'; inversion H'; subst; [done|].
  simplify_eq. by f_equal; [..|apply IH].
Qed.

(** The loop decodes the text from the slot it is at. *)
Lemma decode_slots_ok n i pre t k : len pre = i * 2 -> hex_text t k -> n = length k -> decode_slots n i (pre ++ t) = Ok k.
Proof.
  intros Hi H; revert n i pre Hi. induction H as [|a b x y t k Hx Hy _ IH]; intros n i pre Hi ->; [done|].
  simpl. rewrite get_at_mid by lia. simpl. rewrite nibble_spec, Hx. simpl.
  change (pre ++ a :: b :: t) with (pre ++ [a] ++ b :: t). rewrite app_assoc.
  rewrite get_at_mid by (autorewrite with len; lia). simpl. rewrite nibble_spec, Hy. simpl.
  change (b :: t) with ([b] ++ t). rewrite app_assoc, (IH (length k)); try done.
  - simpl. rewrite join_nibbles; eauto using hex_value_range.
  - autorewrite with len. lia.
Qed.

Lemma decode_slots_inv n i pre t : 0 <= i -> len pre = i * 2 -> len t = 2 * Z.of_nat n ->
  (exists k, hex_text t k /\ decode_slots n i (pre ++ t) = Ok k) \/
  ((forall k, ~ hex_text t k) /\ decode_slots n i (pre ++ t) = Err NotHex).
Proof.
  revert i pre t; induction n as [|n IH]; intros i pre t Hi Hpre Ht.
  { left. exists []. rewrite (len_zero_nil t) by lia. split; [constructor|done]. }
  destruct t as [|a [|b t]]; [by autorewrite with len in Ht; lia..|].
  simpl. rewrite get_at_mid by lia. simpl. rewrite nibble_spec.
  destruct (hex_value a) as [x|] eqn:Hx; simpl;
    [|right; split; [intros k H; inversion H; simplify_eq|done]].
  change (pre ++ a :: b :: t) with (pre ++ [a] ++ b :: t). rewrite app_assoc.
  rewrite get_at_mid by (autorewrite with len; lia). simpl. rewrite nibble_spec.
  destruct (hex_value b) as [y|] eqn:Hy; simpl;
    [|right; split; [intros k H; inversion H; simplify_eq|done]].
  change (b :: t) with ([b] ++ t). rewrite app_assoc.
  destruct (IH (i + 1) ((pre ++ [a]) ++ [b]) t) as [(k & Hk & ->)|[Hno ->]]; try (autorewrite with len in *; lia).
  - left. exists (x * 16 + y :: k). split; [by constructor|]. simpl.
    rewrite join_nibbles; eauto using hex_value_range.
  - right. split; [|done]. intros k H. inversion H; subst. eapply Hno; eauto.
Qed.

Lemma decode_hex_exact text :
  (len text <> KEY_LEN * 2 /\ decode_hex text = Err WrongLength) \/
  (len text = KEY_LEN * 2 /\
   ((exists k, hex_text text k /\ decode_hex text = Ok k) \/
    ((forall k, ~ hex_text text k) /\ decode_hex text = Err NotHex))).
Proof.
  unfold decode_hex. destruct (len text =? KEY_LEN * 2) eqn:E; bool_hyps; simpl; [right|by left].
  split; [done|]. by apply (decode_slots_inv (Z.to_nat KEY_LEN) 0 [] text).
Qed.

Lemma strip_prefix_app p l : strip_prefix p (p ++ l) = Some l.
Proof. unfold strip_prefix. by rewrite starts_with_app, drop_app_length. Qed.

Lemma strip_prefix_Some p t r : strip_prefix p t = Some r <-> t = p ++ r.
Proof.
  split; [|intros ->; apply strip_prefix_app].
  unfold strip_prefix. destruct (starts_with p t) eqn:E; [|done].
  intros [= <-]. apply starts_with_true in E as [k ->]. by rewrite drop_app_length.
Qed.

Lemma decode_prefixed_strip p t :
  decode_prefixed p t = match strip_prefix (p ++ [58]) t with Some r => decode_hex r | None => Err WrongPrefix end.
Proof.
  unfold decode_prefixed. destruct (strip_prefix p t) as [r|] eqn:E.
  - apply strip_prefix_Some in E as ->. destruct (strip_prefix [58] r) as [r'|] eqn:E'; simpl.
    + apply strip_prefix_Some in E' as ->. by rewrite app_assoc, strip_prefix_app.
    + destruct (strip_prefix (p ++ [58]) (p ++ r)) as [r'|] eqn:E2; [|done].
      apply strip_prefix_Some in E2. rewrite <- app_assoc in E2. apply app_inv_head in E2 as ->.
      by rewrite strip_prefix_app in E'.
  - simpl. destruct (strip_prefix (p ++ [58]) t) as [r'|] eqn:E2; [|done].
    apply strip_prefix_Some in E2 as ->. by rewrite <- app_assoc, strip_prefix_app in E.
Qed.

(** *** Writing *)

Lemma digit_of x : 0 <= x < 16 -> exists c, get_at x DIGITS = Some c /\ hex_value c = Some x /\ 0 <= c < 128.
Proof.
  intros Hx.
  assert (H : forallb (fun x => match get_at x DIGITS with
    | Some c => bool_decide (hex_value c = Some x) && (0 <=? c) && (c <? 128) | None => false end) (seqZ 0 16) = true)
    by (vm_compute; reflexivity).
  pose proof (check_below _ 16 H x Hx) as H1. simpl in H1. destruct (get_at x DIGITS) as [c|]; [|done].
  exists c. bool_hyps. split_and!; [done|by eapply bool_decide_eq_true|lia..].
Qed.

Lemma split_byte x : is_u8 x -> 0 <= x / 16 < 16 /\ 0 <= x mod 16 < 16 /\ x = x / 16 * 16 + x mod 16.
Proof. unfold is_uint. intros H. split_and!; try (apply Z.div_lt_upper_bound || apply Z.mod_pos_bound); try lia;
  [apply Z.div_pos; lia|]. rewrite (Z.div_mod x 16) at 1; lia. Qed.

Lemma lower_hex2_spec x : is_u8 x -> exists a b, lower_hex2 x = [a; b] /\
  get_at (Z.shiftr x 4) DIGITS = Some a /\ get_at (Z.land x 0xf) DIGITS = Some b /\
  hex_value a = Some (x / 16) /\ hex_value b = Some (x mod 16) /\ 0 <= a < 128 /\ 0 <= b < 128.
Proof.
  intros Hx. destruct (split_byte x Hx) as (H1 & H2 & _).
  destruct (digit_of _ H1) as (a & Ha & Ha' & ?), (digit_of _ H2) as (b & Hb & Hb' & ?).
  exists a, b. unfold lower_hex2. rewrite Ha, Hb. split_and!; try done; try lia.
  - by rewrite Z.shiftr_div_pow2 by lia.
  - by change 0xf with (Z.ones 4); rewrite Z.land_ones by lia.
Qed.

Definition hex_of (b : bytes) : bytes := concat (map lower_hex2 b).

Lemma hex_of_spec b : bytes_ok b -> hex_text (hex_of b) b /\ Forall (fun c => 0 <= c < 128) (hex_of b).
Proof.
  induction 1 as [|x b Hx _ [IH1 IH2]]; [split; constructor|]. unfold hex_of in *. cbn [map concat].
  destruct (lower_hex2_spec x Hx) as (a & c & -> & _ & _ & Ha & Hc & ? & ?). cbn [app]. split; [|by do 2 (constructor; [lia|])].
  rewrite (proj2 (proj2 (split_byte x Hx))) at 1. by constructor.
Qed.

Lemma set_at_mid {A} i (x y : A) l k : i = len l -> set_at i x (l ++ y :: k) = Some (l ++ x :: k).
Proof.
  intros ->. unfold set_at. change (y :: k) with ([y] ++ k).
  rewrite (copy_at_mid _ _ _ l [y] k); autorewrite with len; try done; lia.
Qed.

Lemma write_hex_from_spec b i pre rest post : bytes_ok b -> len pre = i * 2 -> len rest = 2 * len b ->
  write_hex_from i b (pre ++ rest ++ post) = Some (pre ++ hex_of b ++ post).
Proof.
  intros Hb; revert i pre rest. induction Hb as [|x b Hx _ IH]; intros i pre rest Hpre Hrest.
  { by rewrite (len_zero_nil rest). }
  destruct rest as [|r1 [|r2 rest]]; [autorewrite with len in Hrest; pose proof (len_nonneg b); lia..|].
  destruct (lower_hex2_spec x Hx) as (a & c & Hac & Ha & Hc & _). unfold hex_of. cbn [write_hex_from map concat].
  rewrite Ha, Hac. simpl app. rewrite set_at_mid by lia. rewrite Hc.
  change (pre ++ a :: r2 :: rest ++ post) with (pre ++ [a] ++ r2 :: rest ++ post).
  rewrite app_assoc, set_at_mid by (autorewrite with len; lia).
  change (c :: rest ++ post) with ([c] ++ rest ++ post). rewrite (app_assoc (pre ++ [a])), IH.
  - by rewrite <- !app_assoc.
  - autorewrite with len. lia.
  - autorewrite with len in *. lia.
Qed.

Definition ascii (l : bytes) : Prop := Forall (fun c => 0 <= c < 128) l.

(** With room for it the text is written to the front of the buffer. *)
Lemma encode_prefixed_spec prefix key out : ascii prefix -> key_ok key ->
  encode_prefixed prefix key out =
  if len prefix + 65 <=? len out
  then ((prefix ++ [58] ++ hex_of key) ++ zdrop (len prefix + 65) out, Ok (prefix ++ [58] ++ hex_of key))
  else (out, Err BufferTooSmall).
Proof.
  intros Hp [Hl Hk]. unfold encode_prefixed, KEY_LEN in *. pose proof (len_nonneg prefix).
  replace (len prefix + 1 + 32 * 2) with (len prefix + 65) by lia.
  destruct (len prefix + 65 <=? len out) eqn:E; bool_hyps; [|by rewrite (proj2 (get_range_None 0 (len prefix + 65) out)) by lia].
  destruct (split_len (len prefix + 65) out) as (text & rest & -> & Ht); [lia|].
  rewrite get_range_front by done.
  destruct (split_len (len prefix) text) as (p & t & -> & Hp'); [lia|].
  autorewrite with len in Ht. destruct t as [|c h]; [autorewrite with len in Ht; lia|].
  autorewrite with len in Ht.
  pose proof (copy_at_mid 0 (len prefix) prefix [] p (c :: h)) as Hc1. simpl app in Hc1.
  rewrite Hc1 by (autorewrite with len; lia). rewrite set_at_mid by done.
  change (58 :: h) with ([58] ++ h). rewrite app_assoc.
  rewrite get_range_back by (autorewrite with len; lia).
  unfold write_hex. pose proof (write_hex_from_spec key 0 [] h [] Hk) as Hw. rewrite !app_nil_r in Hw. simpl in Hw.
  rewrite Hw by (autorewrite with len; lia).
  destruct (hex_of_spec key Hk) as [Hx Ha]. pose proof (hex_text_len _ _ Hx).
  pose proof (copy_at_mid (len prefix + 1) (len ((prefix ++ [58]) ++ h)) (hex_of key) (prefix ++ [58]) h []) as Hc.
  rewrite !app_nil_r in Hc. rewrite Hc by (autorewrite with len; lia).
  rewrite utf8_ascii by (repeat apply Forall_app_2; [done|by repeat constructor|done]).
  rewrite zdrop_app_len by (autorewrite with len; lia). by rewrite <- !app_assoc.
Qed.

Lemma prefix_ascii k : ascii (PREFIX k).
Proof. destruct k; repeat (constructor; [lia|]); constructor. Qed.

(** A prefix with its colon is no prefix of another kind's. *)
Lemma kinds_apart k k' t : k <> k' -> strip_prefix (PREFIX k' ++ [58]) (PREFIX k ++ [58] ++ t) = None.
Proof. by destruct k, k'. Qed.

(** The text of a key.  Encoding a key writes its text to the front of any buffer
    with room and leaves the rest of it, and refuses a shorter buffer untouched;
    the text is what [Display] prints and at most [MAX_ENCODED_LEN] long; parsing
    it gives the key back, and under another kind it is refused for its prefix. *)
Theorem key_text_roundtrip {k} (p : Public k) (out : bytes) : key_ok (as_bytes p) ->
  encode p out = (if len (display p) <=? len out
                  then (display p ++ zdrop (len (display p)) out, Ok (display p))
                  else (out, Err BufferTooSmall)) /\
  len (display p) <= MAX_ENCODED_LEN /\
  parse (display p) = Ok p /\
  (forall k', k' <> k -> @parse k' (display p) = Err WrongPrefix).
Proof.
  intros Hk. destruct (hex_of_spec (as_bytes p)) as [Hx _]; [apply Hk|].
  assert (Hlen : len (display p) = len (PREFIX k) + 65).
  { unfold display. autorewrite with len. fold (hex_of (as_bytes p)). rewrite (hex_text_len _ _ Hx). destruct Hk as [-> _].
    unfold KEY_LEN. lia. }
  split_and!.
  - unfold encode. rewrite encode_prefixed_spec, Hlen; [done|apply prefix_ascii|done].
  - rewrite Hlen. by destruct k.
  - unfold parse, display. rewrite decode_prefixed_strip, app_assoc, strip_prefix_app.
    destruct (decode_hex_exact (concat (map lower_hex2 (as_bytes p)))) as [[H _]|[_ [(b & Hb & ->)|[H _]]]].
    + destruct H. fold (hex_of (as_bytes p)). rewrite (hex_text_len _ _ Hx). by destruct Hk as [-> _].
    + simpl. rewrite (hex_text_inj _ _ _ Hb Hx). by destruct p.
    + by destruct (H (as_bytes p)).
  - intros k' Hk'. unfold parse, display. by rewrite decode_prefixed_strip, kinds_apart.
Qed.

Lemma key_text_roundtrip_witness :
  let p : NodePublic := mkPublic (replicate 32 171) in
  key_ok (as_bytes p) /\ parse (display p) = Ok p /\ (forall k', k' <> Node -> @parse k' (display p) = Err WrongPrefix).
Proof.
  intros p. assert (H : key_ok (as_bytes p)) by (split; [done|repeat (constructor; [split; done|]); constructor]).
  destruct (key_text_roundtrip p [] H) as (_ & _ & H1 & H2). auto.
Defined.

Lemma parse_key_ok {k} text (p : Public k) : parse text = Ok p -> key_ok (as_bytes p).
Proof.
  unfold parse. rewrite decode_prefixed_strip. destruct (strip_prefix _ text) as [r|]; [|done].
  destruct (decode_hex_exact r) as [[_ ->]|[Hl [(b & Hb & ->)|[_ ->]]]]; simpl; try done. intros [= <-]. simpl.
  split; [|by eapply hex_text_bytes]. apply hex_text_len in Hb. unfold KEY_LEN in *. lia.
Qed.

(** Parsing is exact and total.  It returns a key if and only if the text is the
    prefix, a colon and 64 hexadecimal digits of either case, and the key is the 32
    bytes they stand for; otherwise it returns an error that tells which of the
    three conditions failed first. *)
Theorem parse_exact {k} (text : bytes) :
  match @parse k text with
  | Ok p => exists h, text = PREFIX k ++ [58] ++ h /\ hex_text h (as_bytes p) /\ key_ok (as_bytes p)
  | Err WrongPrefix => forall h, text <> PREFIX k ++ [58] ++ h
  | Err WrongLength => exists h, text = PREFIX k ++ [58] ++ h /\ len h <> 64
  | Err NotHex => exists h, text = PREFIX k ++ [58] ++ h /\ len h = 64 /\ forall b, ~ hex_text h b
  | _ => False
  end.
Proof.
  unfold parse. rewrite decode_prefixed_strip.
  destruct (strip_prefix (PREFIX k ++ [58]) text) as [r|] eqn:E.
  - apply strip_prefix_Some in E as ->. rewrite <- app_assoc.
    destruct (decode_hex_exact r) as [[Hl ->]|[Hl [(b & Hb & ->)|[Hno ->]]]]; simpl; [by eauto| |by eauto].
    exists r. split_and!; [done|done|split; [|by eapply hex_text_bytes]].
    apply hex_text_len in Hb. unfold KEY_LEN in *. lia.
  - cbn [rbind]. intros h ->. by rewrite app_assoc, strip_prefix_app in E.
Qed.
