(* ===== verification/KeyStore.v ===== *)
(** * The identity and where it is kept

    [crates/ts-keys/src/store.rs]: the blob of an identity, the interface of a
    store and [load_or_create].  A store's methods take [&self] and change
    something outside the program, so they are functions on a world [W]. *)

From S2P Require Import Prelude Keys.
Import encoding keys.

Module store.

Definition BLOB_LEN : Z := 4 + 1 + KEY_LEN * 3.
Definition MAGIC : bytes := [84; 83; 73; 68].
Definition VERSION : Z := 1.

Inductive StoreError := Unrecognised | WrongLength.

Inductive IdentityError (E : Type) := Store_ (e : E) | Format (e : StoreError).
Arguments Store_ {E} e.
Arguments Format {E} e.

(** [trait Store]: [load] also gives the buffer it was handed back. *)
Class Store (W E : Type) := {
  load : W -> bytes -> W * bytes * res E (option Z);
  save : W -> bytes -> W * res E unit;
}.

Section Blob.
Context `{C : Curve}.

Definition to_blob (i : Identity) : res StoreError bytes :=
  let out := zeros BLOB_LEN in
  let! out := slice_copy (0, 4) MAGIC out in
  let! out := or_panic (set_at 4 VERSION out) in
  let! out := slice_copy (5, 37) (to_bytes (machine i)) out in
  let! out := slice_copy (37, 69) (to_bytes (node i)) out in
  slice_copy (69, 101) (to_bytes (disco i)) out.

Definition from_blob (b : bytes) : res StoreError Identity :=
  if negb (len b =? BLOB_LEN) then Err WrongLength else
  let! magic := slice (0, 4) b in
  let! version := or_panic (get_at 4 b) in
  if negb (bytes_eqb magic MAGIC) || negb (version =? VERSION) then Err Unrecognised else
  let! m := slice (5, 37) b in
  let! n := slice (37, 69) b in
  let! d := slice (69, 101) b in
  Ok (mkIdentity (private_from_bytes m) (private_from_bytes n) (private_from_bytes d)).

Context {W E : Type} `{S : Store W E}.

(** The identity and whether it is new; [rng] is what the generator produces. *)
Definition load_or_create (w : W) (rng : bytes) : W * res (IdentityError E) (Identity * bool) :=
  let '(w, buffer, existing) := load w (zeros BLOB_LEN) in
  match existing with
  | Ok (Some n) =>
      (w, let! b := slice (0, n) buffer in
          let! i := map_err Format (from_blob b) in Ok (i, false))
  | Ok None =>
      match generate_identity rng with
      | None => (w, Hang)
      | Some (i, _) =>
          match to_blob i with
          | Ok blob => let (w, r) := save w blob in (w, let! _ := map_err Store_ r in Ok (i, true))
          | Err _ | Panic => (w, Panic)
          | Hang => (w, Hang)
          end
      end
  | Err e => (w, Err (Store_ e))
  | Panic => (w, Panic)
  | Hang => (w, Hang)
  end.

End Blob.

(** What a store promises: loading tells what is stored and changes nothing, a
    successful save replaces it, and a save that fails leaves the old blob or the
    new one. *)
Class StoreOk {W E : Type} (S : Store W E) := {
  stored : W -> option bytes;
  load_keeps w out : stored (load w out).1.1 = stored w;
  load_none w out : (load w out).2 = Ok None -> stored w = None;
  load_some w out n : (load w out).2 = Ok (Some n) ->
    exists b, stored w = Some b /\ n = len b /\ n <= len out /\ (load w out).1.2 = b ++ zdrop n out;
  save_stores w b : (save w b).2 = Ok tt -> stored (save w b).1 = Some b;
  save_atomic w b : stored (save w b).1 = stored w \/ stored (save w b).1 = Some b;
}.

End store.
Import store.

(** ** Properties *)

Section Facts.
Context `{C : Curve} {COk : CurveOk C}.

Lemma len_MAGIC : len MAGIC = 4.
Proof. done. Qed.
#[local] Hint Rewrite len_secret len_MAGIC : len.

Lemma to_blob_layout i :
  to_blob i = Ok (concat [MAGIC; [VERSION]; to_bytes (machine i); to_bytes (node i); to_bytes (disco i)]).
Proof.
  unfold to_blob, slice_copy, set_at, BLOB_LEN, KEY_LEN, to_bytes. cbn [fst snd].
  assert (zeros (4 + 1 + 32 * 3) = concat [zeros 4; zeros 1; zeros 32; zeros 32; zeros 32]) as -> by reflexivity.
  write_field 0%nat. write_field 1%nat. write_field 2%nat. write_field 3%nat. by write_field 4%nat.
Qed.

(** What the parser makes of the fields of a blob. *)
Lemma from_blob_fields mg v m n d : len mg = 4 -> len m = 32 -> len n = 32 -> len d = 32 ->
  from_blob (concat [mg; [v]; m; n; d]) =
  if bytes_eqb mg MAGIC && (v =? VERSION)
  then Ok (mkIdentity (private_from_bytes m) (private_from_bytes n) (private_from_bytes d)) else Err Unrecognised.
Proof.
  intros Hmg Hm Hn Hd. unfold from_blob, slice. cbn [fst snd].
  rewrite (proj2 (Z.eqb_eq _ _)) by (unfold BLOB_LEN, KEY_LEN; cbn [concat]; llia). cbn [negb].
  read_field 0%nat 1%nat. replace (concat [mg]) with mg by (symmetry; apply app_nil_r).
  assert (get_at 4 (concat [mg; [v]; m; n; d]) = Some v) as -> by (apply get_at_mid; lia). cbn [or_panic rbind].
  rewrite <- negb_andb. destruct (bytes_eqb mg MAGIC && (v =? VERSION)); [|done]. cbn [negb].
  read_field 2%nat 3%nat. read_field 3%nat 4%nat. read_field 4%nat 5%nat. cbn [concat]. by rewrite !app_nil_r.
Qed.

Lemma to_from_blob i : exists blob, to_blob i = Ok blob /\ len blob = BLOB_LEN /\ from_blob blob = Ok i.
Proof.
  eexists. split; [apply to_blob_layout|]. split; [unfold BLOB_LEN, KEY_LEN, to_bytes; cbn [concat]; llia|].
  rewrite from_blob_fields by (unfold to_bytes; llia). simpl. unfold private_from_bytes, to_bytes.
  rewrite !secret_from_to. by destruct i as [[] [] []].
Qed.

(** The blob of an identity: its layout is fixed, it parses back to the identity,
    and parsing never panics: it refuses exactly a wrong length, and exactly a
    wrong magic or version. *)
Theorem blob_roundtrip (i : Identity) (b : bytes) :
  (exists blob, to_blob i = Ok blob /\ len blob = BLOB_LEN /\ from_blob blob = Ok i) /\
  match from_blob b with
  | Ok j => len b = BLOB_LEN /\ exists keys, b = MAGIC ++ [VERSION] ++ keys
  | Err WrongLength => len b <> BLOB_LEN
  | Err Unrecognised => len b = BLOB_LEN /\ forall keys, b <> MAGIC ++ [VERSION] ++ keys
  | _ => False
  end.
Proof.
  split.
  - apply to_from_blob.
  - destruct (Z.eq_dec (len b) BLOB_LEN) as [E|E].
    + unfold BLOB_LEN, KEY_LEN in E. name_fields b [4; 1; 32; 32; 32]. destruct f0 as [|v [|? ?]]; [llia| |llia].
      rewrite from_blob_fields by lia. destruct (bytes_eqb f MAGIC && (v =? VERSION)) eqn:Eh.
      * bool_hyps. apply bytes_eqb_true in H4 as ->. subst v. split; [done|]. by eexists.
      * split; [done|]. intros keys Hk. change (concat [f; [v]; f1; f2; f3]) with (f ++ [v] ++ concat [f1; f2; f3]) in Hk.
        apply app_inj_1 in Hk as [-> Hk]; [|unfold len in *; simpl in *; lia]. injection Hk as -> _.
        by rewrite bytes_eqb_refl in Eh.
    + unfold from_blob. by rewrite (proj2 (Z.eqb_neq _ _) E).
Qed.

(** *** Restarts *)

Context {W E : Type} `{S : Store W E} {SOk : StoreOk S}.

(** What is stored is the identity [i]. *)
Definition keeps (w : W) (i : Identity) : Prop := exists b, stored w = Some b /\ from_blob b = Ok i.

Lemma load_or_create_keeps w rng w' i fresh : load_or_create w rng = (w', Ok (i, fresh)) -> keeps w' i.
Proof.
  unfold load_or_create, keeps.
  pose proof (load_keeps w (zeros BLOB_LEN)) as Hk. pose proof (load_some w (zeros BLOB_LEN)) as Hs.
  destruct (load w (zeros BLOB_LEN)) as [[w1 buffer] [[n|]| | |]]; simpl in *; try done.
  - destruct (Hs n eq_refl) as (b & Hb & -> & Hn & ->). unfold slice. cbn [fst snd]. rewrite get_range_front by done. simpl.
    intros [= <- H]. exists b. split; [congruence|]. destruct (from_blob b); simpl in H; congruence.
  - destruct (generate_identity rng) as [[j rest]|]; [|done].
    destruct (to_from_blob j) as (blob & -> & _ & Hb). pose proof (save_stores w1 blob) as Hsv.
    destruct (save w1 blob) as [w2 [[]| | |]]; simpl in *; intros H; simplify_eq. eauto.
Qed.

(** With an identity stored, whatever is started next returns it or fails to load,
    and the store keeps it. *)
Lemma load_or_create_again w rng i : keeps w i ->
  match load_or_create w rng with
  | (w', Ok (j, fresh)) => j = i /\ fresh = false /\ keeps w' i
  | (w', Err (Format _)) => False
  | (w', _) => keeps w' i
  end.
Proof.
  intros (b & Hb & Hi). unfold load_or_create, keeps.
  pose proof (load_keeps w (zeros BLOB_LEN)) as Hk. pose proof (load_some w (zeros BLOB_LEN)) as Hs.
  pose proof (load_none w (zeros BLOB_LEN)) as Hn0.
  destruct (load w (zeros BLOB_LEN)) as [[w1 buffer] [[n|]| | |]]; simpl in *; rewrite ?Hk; eauto.
  - destruct (Hs n eq_refl) as (b' & Hb' & -> & Hn & ->). assert (b' = b) as -> by congruence. unfold slice. cbn [fst snd].
    rewrite get_range_front by done. simpl. rewrite Hi. simpl. eauto.
  - rewrite Hn0 in Hb; done.
Qed.

(** Starting the program any number of times, each time with other random bytes. *)
Fixpoint starts (w : W) (rngs : list bytes) : list (res (IdentityError E) (Identity * bool)) :=
  match rngs with
  | [] => []
  | rng :: rngs => let (w, r) := load_or_create w rng in r :: starts w rngs
  end.

Lemma starts_keep w rngs i n : keeps w i ->
  match starts w rngs !! n with Some (Ok (j, fresh)) => j = i /\ fresh = false | _ => True end.
Proof.
  revert w n; induction rngs as [|rng rngs IH]; intros w n Hw; [done|]. simpl.
  pose proof (load_or_create_again w rng i Hw) as H. destruct (load_or_create w rng) as [w' r].
  destruct n as [|n]; simpl.
  - destruct r as [[]| | |]; naive_solver.
  - apply IH. destruct r as [[]|[]| |]; naive_solver.
Qed.

Lemma starts_agree w rngs m n i x j y : (m < n)%nat ->
  starts w rngs !! m = Some (Ok (i, x)) -> starts w rngs !! n = Some (Ok (j, y)) -> i = j /\ y = false.
Proof.
  revert w m n; induction rngs as [|rng rngs IH]; intros w m n Hmn; [done|]. simpl.
  destruct (load_or_create w rng) as [w' r] eqn:Hrun. destruct n as [|n]; [lia|]. destruct m as [|m]; simpl.
  - intros [= ->] Hn. apply load_or_create_keeps in Hrun. pose proof (starts_keep w' rngs i n Hrun) as H. rewrite Hn in H. naive_solver.
  - apply IH. lia.
Qed.

End Facts.

Import ToyCurve.

(** An identity of the concrete curve of [Keys.v]. *)
Definition toy_identity : Identity :=
  mkIdentity (private_from_bytes (replicate 32 1)) (private_from_bytes (replicate 32 2)) (private_from_bytes (replicate 32 3)).

Lemma blob_roundtrip_witness :
  exists blob, to_blob toy_identity = Ok blob /\ len blob = BLOB_LEN /\ from_blob blob = Ok toy_identity.
Proof. exact (proj1 (blob_roundtrip toy_identity [])). Defined.
