(* ===== verification/StoreFile.v ===== *)
(** * The file an identity is kept in

    [harness/src/store.rs]: paths without an allocator and the store in a file,
    written to a temporary name, synced and renamed.  The system calls are the
    class [Posix]; a call answers, fails, or never returns because the power went
    ([Hang]), so that a world in which a method ended with [Hang] is a world in
    which the machine stopped at that call. *)

From S2P Require Import Prelude Crypto Keys KeyStore.

Module file_store.

Definition MAGIC : bytes := [69; 83; 80; 71].
Definition VERSION : Z := 1.
Definition CHECKSUM_LEN : Z := 16.
Definition HEADER_LEN : Z := 4 + 1 + 2.
Definition MAX_PAYLOAD : Z := 256.
Definition PATH_MAX : Z := 256.

Inductive Errno := EXIST | NOENT | INTR | Other (raw : Z).

Inductive StoreError := BadPath | Errno_ (e : Errno) | Corrupt | TooLarge.

(** ** Paths *)

Record Path := mkPath { path_bytes : bytes; path_len : Z }.

Fixpoint push_parts (p : Path) (parts : list bytes) : res StoreError Path :=
  match parts with
  | [] => Ok p
  | b :: parts =>
      if (PATH_MAX <=? path_len p + len b) || bool_decide (0 ∈ b) then Err BadPath else
      let! bs := or_panic (copy_at (path_len p) (path_len p + len b) b (path_bytes p)) in
      push_parts (mkPath bs (path_len p + len b)) parts
  end.

Definition path_new (parts : list bytes) : res StoreError Path := push_parts (mkPath (zeros PATH_MAX) 0) parts.

(** [CStr::from_bytes_with_nul]: one NUL, at the end. *)
Definition from_bytes_with_nul (b : bytes) : option bytes :=
  let? s := get_range 0 (len b - 1) b in
  let? z := get_at (len b - 1) b in
  if (z =? 0) && negb (bool_decide (0 ∈ s)) then Some s else None.

Definition as_c_str (p : Path) : option bytes :=
  let? b := get_range 0 (path_len p + 1) (path_bytes p) in from_bytes_with_nul b.

(** ** The system *)

(** The calls the store makes.  [open_trunc] opens for writing, creating or
    emptying the file. *)
Class Posix (W : Type) := {
  Fd : Type;
  mkdir : W -> bytes -> W * res Errno unit;
  open_read : W -> bytes -> W * res Errno Fd;
  open_trunc : W -> bytes -> W * res Errno Fd;
  read : W -> Fd -> Z -> W * res Errno bytes;
  write : W -> Fd -> bytes -> W * res Errno Z;
  fsync : W -> Fd -> W * res Errno unit;
  rename : W -> bytes -> bytes -> W * res Errno unit;
  unlink : W -> bytes -> W * res Errno unit;
}.

(** ** The store *)

Section Store.
Context `{P : Primitives} {W : Type} `{OS : Posix W}.

Record FileStore := mkFileStore { path : Path; temporary : Path }.

Definition file_store_new (w : W) (directory name : bytes) : W * res StoreError FileStore :=
  let separator := if bool_decide (last directory = Some 47) then [] else [47] in
  match path_new [directory] with
  | Ok p =>
      match as_c_str p with
      | None => (w, Panic)
      | Some s =>
          let (w, r) := mkdir w s in
          (w, match r with
              | Ok _ | Err EXIST =>
                  let! path := path_new [directory; separator; name] in
                  let! temporary := path_new [directory; separator; name; [46; 116; 109; 112]] in
                  Ok (mkFileStore path temporary)
              | Err e => Err (Errno_ e)
              | Panic => Panic
              | Hang => Hang
              end)
      end
  | Err e => (w, Err e)
  | Panic => (w, Panic)
  | Hang => (w, Hang)
  end.

Definition BUFFER_LEN : Z := HEADER_LEN + MAX_PAYLOAD + CHECKSUM_LEN.

(** The loop that reads the file: the buffer and how much of it is filled. *)
Fixpoint read_loop (fuel : nat) (w : W) (file : Fd) (blob : bytes) (filled : Z) : W * res StoreError (bytes * Z) :=
  match fuel with
  | O => (w, Hang)
  | S fuel =>
      if filled =? len blob then (w, Err Corrupt) else
      let (w, r) := read w file (len blob - filled) in
      match r with
      | Ok [] => (w, Ok (blob, filled))
      | Ok d =>
          match copy_at filled (filled + len d) d blob with
          | Some blob => read_loop fuel w file blob (filled + len d)
          | None => (w, Panic)
          end
      | Err INTR => read_loop fuel w file blob filled
      | Err e => (w, Err (Errno_ e))
      | Panic => (w, Panic)
      | Hang => (w, Hang)
      end
  end.

(** What the filled part of the buffer holds, and the caller's buffer with it. *)
Definition check_blob (blob : bytes) (filled : Z) (out : bytes) : res StoreError (bytes * Z) :=
  let! magic := slice (0, 4) blob in
  let! version := or_panic (get_at 4 blob) in
  if (filled <? HEADER_LEN + CHECKSUM_LEN) || negb (bytes_eqb magic MAGIC) || negb (version =? VERSION) then Err Corrupt else
  let! l := slice (5, 7) blob in
  let length := of_le l in
  if (MAX_PAYLOAD <? length) || negb (filled =? HEADER_LEN + length + CHECKSUM_LEN) then Err Corrupt else
  let end_ := HEADER_LEN + length in
  let! front := slice (0, end_) blob in
  let! expected := slice (0, CHECKSUM_LEN) (hash [front]) in
  let! checksum := slice (end_, filled) blob in
  if negb (ct_eq expected checksum) then Err Corrupt else
  let! _ := ok_or (get_range 0 length out) TooLarge in
  let! payload := slice (HEADER_LEN, end_) blob in
  let! out := or_panic (copy_at 0 length payload out) in
  Ok (out, length).

(** [patience] bounds the turns of the loops that retry interrupted calls. *)
Definition load (patience : nat) (s : FileStore) (w : W) (out : bytes) : W * bytes * res StoreError (option Z) :=
  match as_c_str (path s) with
  | None => (w, out, Panic)
  | Some name =>
      let (w, r) := open_read w name in
      match r with
      | Ok file =>
          let (w, r) := read_loop patience w file (zeros BUFFER_LEN) 0 in
          match (let! '(blob, filled) := r in check_blob blob filled out) with
          | Ok (out, length) => (w, out, Ok (Some length))
          | Err e => (w, out, Err e)
          | Panic => (w, out, Panic)
          | Hang => (w, out, Hang)
          end
      | Err NOENT => (w, out, Ok None)
      | Err e => (w, out, Err (Errno_ e))
      | Panic => (w, out, Panic)
      | Hang => (w, out, Hang)
      end
  end.

Fixpoint write_loop (fuel : nat) (w : W) (file : Fd) (blob : bytes) (written : Z) : W * res StoreError unit :=
  match fuel with
  | O => (w, Hang)
  | S fuel =>
      if len blob <=? written then (w, Ok tt) else
      match get_range written (len blob) blob with
      | None => (w, Panic)
      | Some rest =>
          let (w, r) := write w file rest in
          match r with
          | Ok n => if n =? 0 then (w, Err Corrupt) else write_loop fuel w file blob (written + n)
          | Err INTR => write_loop fuel w file blob written
          | Err e => (w, Err (Errno_ e))
          | Panic => (w, Panic)
          | Hang => (w, Hang)
          end
      end
  end.

Definition write_temporary (patience : nat) (s : FileStore) (w : W) (blob : bytes) : W * res StoreError unit :=
  match as_c_str (temporary s) with
  | None => (w, Panic)
  | Some name =>
      let (w, r) := open_trunc w name in
      match map_err Errno_ r with
      | Ok file =>
          let (w, r) := write_loop patience w file blob 0 in
          match r with
          | Ok _ => let (w, r) := fsync w file in (w, map_err Errno_ r)
          | _ => (w, r)
          end
      | Err e => (w, Err e)
      | Panic => (w, Panic)
      | Hang => (w, Hang)
      end
  end.

(** The bytes of the file for a payload. *)
Definition build_blob (payload : bytes) : res StoreError bytes :=
  let blob := zeros BUFFER_LEN in
  let! blob := slice_copy (0, 4) MAGIC blob in
  let! blob := or_panic (set_at 4 VERSION blob) in
  let! blob := slice_copy (5, 7) (to_le 2 (wrap 16 (len payload))) blob in
  let! blob := slice_copy (HEADER_LEN, HEADER_LEN + len payload) payload blob in
  let end_ := HEADER_LEN + len payload in
  let! front := slice (0, end_) blob in
  let! checksum := slice (0, CHECKSUM_LEN) (hash [front]) in
  let! blob := slice_copy (end_, end_ + CHECKSUM_LEN) checksum blob in
  slice (0, end_ + CHECKSUM_LEN) blob.

Definition save (patience : nat) (s : FileStore) (w : W) (payload : bytes) : W * res StoreError unit :=
  if MAX_PAYLOAD <? len payload then (w, Err TooLarge) else
  match build_blob payload with
  | Ok blob =>
      match as_c_str (temporary s), as_c_str (path s) with
      | Some tmp, Some name =>
          let (w, r) := write_temporary patience s w blob in
          match r with
          | Ok _ => let (w, r) := rename w tmp name in (w, map_err Errno_ r)
          | Err e => let (w, r') := unlink w tmp in
              (w, match r' with Hang => Hang | Panic => Panic | _ => Err e end)
          | Panic => (w, Panic)
          | Hang => (w, Hang)
          end
      | _, _ => (w, Panic)
      end
  | Err e => (w, Err e)
  | Panic => (w, Panic)
  | Hang => (w, Hang)
  end.

(** [impl ts_keys::store::Store for FileStore] *)
#[export] Instance file_store_store (patience : nat) (s : FileStore) : store.Store W StoreError := {
  store.load := load patience s;
  store.save := save patience s;
}.

(** [read_file]: a whole file into [out]. *)
Fixpoint read_file_loop (fuel : nat) (w : W) (file : Fd) (out : bytes) (filled : Z) : W * bytes * res StoreError Z :=
  match fuel with
  | O => (w, out, Hang)
  | S fuel =>
      if filled =? len out then (w, out, Err TooLarge) else
      let (w, r) := read w file (len out - filled) in
      match r with
      | Ok [] => (w, out, Ok filled)
      | Ok d =>
          match copy_at filled (filled + len d) d out with
          | Some out => read_file_loop fuel w file out (filled + len d)
          | None => (w, out, Panic)
          end
      | Err INTR => read_file_loop fuel w file out filled
      | Err e => (w, out, Err (Errno_ e))
      | Panic => (w, out, Panic)
      | Hang => (w, out, Hang)
      end
  end.

Definition read_file (patience : nat) (w : W) (name out : bytes) : W * bytes * res StoreError Z :=
  match (let! p := path_new [name] in or_panic (as_c_str p)) with
  | Ok s =>
      let (w, r) := open_read w s in
      match map_err Errno_ r with
      | Ok file => read_file_loop patience w file out 0
      | Err e => (w, out, Err e)
      | Panic => (w, out, Panic)
      | Hang => (w, out, Hang)
      end
  | Err e => (w, out, Err e)
  | Panic => (w, out, Panic)
  | Hang => (w, out, Hang)
  end.

End Store.
End file_store.
