(* ===== verification/StoreTheorems.v ===== *)
(** * The file store is atomic

    What the calls of [StoreFile.v] promise ([PosixOk], after POSIX), and that the
    store built on them keeps the last blob written whole: through errors, through
    interrupted and partial writes, and through a loss of power at any call. *)

From stdpp Require Import gmap.
From S2P Require Import Prelude Crypto Keys KeyStore StoreFile.

Import file_store.

(** [file] is what a path holds, [durable] what may be found there after a loss
    of power; [unread] and [writing] describe open descriptors; [synced w p c]
    says that the contents [c] of [p] reached the disk. *)
Class PosixOk {W : Type} (OS : Posix W) := {
  file : W -> bytes -> option bytes;
  durable : W -> bytes -> option bytes -> Prop;
  unread : W -> Fd -> option bytes;
  writing : W -> Fd -> option bytes;
  synced : W -> bytes -> bytes -> Prop;
  same w w' q := file w' q = file w q /\ forall x, durable w' q x -> durable w q x;
  mkdir_same w p q : same w (mkdir w p).1 q;
  open_read_same w p q : same w (open_read w p).1 q;
  open_read_ok w p fd : (open_read w p).2 = Ok fd ->
    exists c, file w p = Some c /\ unread (open_read w p).1 fd = Some c;
  open_read_noent w p : (open_read w p).2 = Err NOENT -> file w p = None;
  read_same w fd n q : same w (read w fd n).1 q;
  read_ok w fd n c d : unread w fd = Some c -> 0 < n -> (read w fd n).2 = Ok d ->
    exists c', c = d ++ c' /\ len d <= n /\ unread (read w fd n).1 fd = Some c' /\ (d = [] -> c = []);
  read_intr w fd n c : unread w fd = Some c -> (read w fd n).2 = Err INTR -> unread (read w fd n).1 fd = Some c;
  open_trunc_same w p q : q <> p -> same w (open_trunc w p).1 q;
  open_trunc_ok w p fd : (open_trunc w p).2 = Ok fd ->
    writing (open_trunc w p).1 fd = Some p /\ file (open_trunc w p).1 p = Some [];
  write_same w fd b p q : writing w fd = Some p -> q <> p -> same w (write w fd b).1 q;
  write_ok w fd b p c n : writing w fd = Some p -> file w p = Some c -> (write w fd b).2 = Ok n ->
    0 <= n <= len b /\ writing (write w fd b).1 fd = Some p /\ file (write w fd b).1 p = Some (c ++ ztake n b);
  write_intr w fd b p c : writing w fd = Some p -> file w p = Some c -> (write w fd b).2 = Err INTR ->
    writing (write w fd b).1 fd = Some p /\ file (write w fd b).1 p = Some c;
  fsync_same w fd p q : writing w fd = Some p -> q <> p -> same w (fsync w fd).1 q;
  fsync_ok w fd p c : writing w fd = Some p -> file w p = Some c -> (fsync w fd).2 = Ok tt ->
    file (fsync w fd).1 p = Some c /\ synced (fsync w fd).1 p c;
  rename_file w p p' : file (rename w p p').1 p' = file w p' \/ file (rename w p p').1 p' = file w p;
  rename_ok w p p' c : file w p = Some c -> (rename w p p').2 = Ok tt -> file (rename w p p').1 p' = Some c;
  rename_durable w p p' c x : synced w p c -> durable (rename w p p').1 p' x -> durable w p' x \/ x = Some c;
  unlink_same w p q : q <> p -> same w (unlink w p).1 q;
}.

Lemma bytes_eqb_sym a b : bytes_eqb a b = bytes_eqb b a.
Proof. unfold bytes_eqb. by apply bool_decide_ext. Qed.

Section Facts.
Context `{P : Primitives} {POk : PrimitivesOk P}.

#[local] Hint Rewrite len_hash : len.

(** ** The blob *)

(** The bytes of a file that holds [payload]. *)
Definition blob_front (payload : bytes) : bytes := MAGIC ++ [VERSION] ++ to_le 2 (len payload) ++ payload.
Definition checksum_of (front : bytes) : bytes := ztake CHECKSUM_LEN (hash [front]).
Definition blob_of (payload : bytes) : bytes := blob_front payload ++ checksum_of (blob_front payload).

Lemma len_checksum_of f : len (checksum_of f) = 16.
Proof. unfold checksum_of, CHECKSUM_LEN. llia. Qed.

Lemma len_blob_front p : len (blob_front p) = 7 + len p.
Proof. unfold blob_front, MAGIC. llia. Qed.
#[local] Hint Rewrite len_checksum_of len_blob_front : len.

(** The payload a file holds, when it holds one. *)
Definition decode_blob (c : bytes) : option bytes :=
  let? front := get_range 0 (len c - CHECKSUM_LEN) c in
  let? payload := get_range HEADER_LEN (len front) front in
  if bytes_eqb (ztake 5 front) (MAGIC ++ [VERSION]) && (of_le (sub_range 5 7 front) =? len payload) &&
     (len payload <=? MAX_PAYLOAD) && bytes_eqb (zdrop (len front) c) (checksum_of front)
  then Some payload else None.

Definition fields_ok (mg l p ck : bytes) : bool :=
  bytes_eqb mg (MAGIC ++ [VERSION]) && (of_le l =? len p) && (len p <=? MAX_PAYLOAD) && bytes_eqb ck (checksum_of (mg ++ l ++ p)).

Lemma decode_blob_fields mg l p ck : len mg = 5 -> len l = 2 -> len ck = 16 ->
  decode_blob (mg ++ l ++ p ++ ck) = if fields_ok mg l p ck then Some p else None.
Proof.
  intros Hmg Hl Hck. unfold decode_blob, CHECKSUM_LEN, HEADER_LEN.
  replace (mg ++ l ++ p ++ ck) with ((mg ++ l ++ p) ++ ck) by by rewrite <- !app_assoc.
  rewrite get_range_front by llia. rewrite zdrop_app_len by done.
  rewrite ztake_app_len by done. rewrite sub_range_mid by llia.
  rewrite (app_assoc mg l p) at 1 2. by rewrite get_range_back by llia.
Qed.

Lemma decode_blob_of p : len p <= MAX_PAYLOAD -> decode_blob (blob_of p) = Some p.
Proof.
  intros Hp. pose proof (len_nonneg p). unfold MAX_PAYLOAD in *. unfold blob_of. unfold blob_front at 1. rewrite <- !app_assoc.
  rewrite (app_assoc MAGIC). rewrite decode_blob_fields by (unfold MAGIC; llia).
  unfold fields_ok. rewrite of_to_le_small by (simpl; lia). rewrite <- app_assoc. fold (blob_front p).
  rewrite !bytes_eqb_refl, Z.eqb_refl. unfold MAX_PAYLOAD. by rewrite (proj2 (Z.leb_le _ _) Hp).
Qed.

(** Checking a buffer that was filled from a file. *)
Lemma check_blob_fields mg l p ck pad out : len mg = 5 -> len l = 2 -> len ck = 16 ->
  check_blob (mg ++ l ++ p ++ ck ++ pad) (23 + len p) out =
  if fields_ok mg l p ck
  then if len p <=? len out then Ok (p ++ zdrop (len p) out, len p) else Err TooLarge
  else Err Corrupt.
Proof.
  intros Hmg Hl Hck. pose proof (len_nonneg p).
  destruct (split_len 4 mg) as (m4 & m1 & -> & H4); [lia|]. destruct m1 as [|v [|? ?]]; [llia| |llia].
  assert (E : (m4 ++ [v]) ++ l ++ p ++ ck ++ pad = concat [m4; [v]; l; p; ck; pad]) by (cbn [concat]; by rewrite <- !app_assoc, app_nil_r).
  rewrite E. unfold check_blob, slice, fields_ok, CHECKSUM_LEN, HEADER_LEN, MAX_PAYLOAD. cbn [fst snd].
  read_field 0%nat 1%nat. rewrite concat_1.
  assert (get_at 4 (concat [m4; [v]; l; p; ck; pad]) = Some v) as -> by (apply get_at_mid; lia). cbn [or_panic rbind].
  rewrite (proj2 (Z.ltb_ge _ _)) by lia. cbn [orb].
  replace (bytes_eqb (m4 ++ [v]) (MAGIC ++ [VERSION])) with (bytes_eqb m4 MAGIC && (v =? VERSION)).
  2:{ apply eq_bool_prop_intro. rewrite !Is_true_true, andb_true_iff, Z.eqb_eq, !bytes_eqb_true. split.
      - by intros [-> ->].
      - intros H1. apply app_inj_2 in H1 as [-> [= ->]]; done. }
  rewrite <- negb_andb. destruct (bytes_eqb m4 MAGIC && (v =? VERSION)); [|done]. cbn [negb andb].
  read_field 2%nat 3%nat. rewrite concat_1.
  destruct (of_le l =? len p) eqn:El; bool_hyps; cbn [andb].
  2:{ rewrite (proj2 (Z.eqb_neq (23 + len p) _)) by lia. by rewrite orb_true_r. }
  rewrite El, (proj2 (Z.eqb_eq (23 + len p) _)) by lia. cbn [negb]. rewrite orb_false_r, Z.ltb_antisym.
  destruct (len p <=? 256); [|done]. cbn [negb andb].
  read_field 0%nat 4%nat.
  assert (get_range 0 16 (hash [concat [m4; [v]; l; p]]) = Some (checksum_of ((m4 ++ [v]) ++ l ++ p))) as ->.
  { unfold checksum_of, CHECKSUM_LEN. rewrite get_range_in by llia. unfold sub_range. rewrite zdrop_0 by lia.
    cbn [concat]. by rewrite app_nil_r, <- app_assoc. }
  cbn [or_panic rbind]. read_field 4%nat 5%nat. rewrite concat_1.
  unfold ct_eq. rewrite (bytes_eqb_sym ck). destruct (bytes_eqb _ ck); [|done]. cbn [negb].
  destruct (len p <=? len out) eqn:Eo; bool_hyps; [|by rewrite (proj2 (get_range_None 0 (len p) out)) by lia].
  rewrite get_range_in by lia. cbn [ok_or rbind]. read_field 3%nat 4%nat. rewrite concat_1.
  destruct (split_len (len p) out) as (o1 & o2 & -> & Ho); [lia|].
  pose proof (copy_at_mid 0 (len p) p [] o1 o2) as Hc. cbn [app] in Hc. rewrite Hc by llia. cbn [or_panic rbind].
  by rewrite zdrop_app_len.
Qed.

Lemma build_blob_spec p : len p <= MAX_PAYLOAD -> build_blob p = Ok (blob_of p).
Proof.
  unfold MAX_PAYLOAD. intros Hp. pose proof (len_nonneg p).
  unfold build_blob, slice_copy, slice, set_at, CHECKSUM_LEN, HEADER_LEN. cbn [fst snd].
  assert (Hz : len (zeros BUFFER_LEN) = 279) by done. set (buf := zeros BUFFER_LEN) in *. clearbody buf.
  name_fields buf [4; 1; 2; len p; 16; 256 - len p]. clear Hz.
  assert (Hm : len MAGIC = 4) by done. write_field 0%nat. write_field 1%nat. write_field 2%nat. write_field 3%nat.
  read_field 0%nat 4%nat.
  assert (E : concat [MAGIC; [VERSION]; to_le 2 (wrap 16 (len p)); p] = blob_front p).
  { unfold wrap. rewrite Z.mod_small by lia. cbn [concat]. by rewrite app_nil_r. }
  rewrite E. assert (get_range 0 16 (hash [blob_front p]) = Some (checksum_of (blob_front p))) as ->.
  { unfold checksum_of, CHECKSUM_LEN. rewrite get_range_in by llia. unfold sub_range. by rewrite zdrop_0 by lia. }
  cbn [or_panic rbind]. write_field 4%nat. read_field 0%nat 5%nat. unfold blob_of. rewrite <- E. cbn [concat]. by rewrite <- !app_assoc, app_nil_r.
Qed.

(** ** The calls *)

Context {W : Type} `{OS : Posix W} {OOk : PosixOk OS}.

Lemma same_refl w q : same w w q.
Proof. by split. Qed.

Lemma same_trans w1 w2 w3 q : same w1 w2 q -> same w2 w3 q -> same w1 w3 q.
Proof. intros [H1 D1] [H2 D2]. split; [congruence|]. auto. Qed.
#[local] Hint Resolve same_refl open_read_same read_same mkdir_same : tf.

Lemma read_loop_spec fuel w fd c pre rest w' r : unread w fd = Some c ->
  read_loop fuel w fd (pre ++ rest) (len pre) = (w', r) ->
  (forall q, same w w' q) /\
  match r with
  | Ok (blob, filled) => exists pad, blob = pre ++ c ++ pad /\ filled = len pre + len c /\ len blob = len pre + len rest /\ len c < len rest
  | Err Corrupt => len rest <= len c
  | Err (Errno_ _) | Hang | Panic => True
  | Err _ => False
  end.
Proof.
  revert w c pre rest; induction fuel as [|fuel IH]; intros w c pre rest Hu; simpl.
  { intros [= <- <-]. auto with tf. }
  rewrite len_app. pose proof (len_nonneg rest). pose proof (len_nonneg c).
  destruct (Z.eqb_spec (len pre) (len pre + len rest)) as [He|He]; [intros [= <- <-]; split; auto with tf; lia|].
  replace (len pre + len rest - len pre) with (len rest) by lia.
  pose proof (read_same w fd (len rest)) as Hs. pose proof (read_ok w fd (len rest) c) as Hok.
  pose proof (read_intr w fd (len rest) c Hu) as Hi.
  destruct (read w fd (len rest)) as [w1 r1]. simpl in *. destruct r1 as [d|[| | |]| |].
  - destruct (Hok d Hu ltac:(lia) eq_refl) as (c' & -> & Hl & Hu' & Hd). destruct d as [|x d'].
    + intros [= <- <-]. split; [done|]. exists rest. rewrite (Hd eq_refl), len_nil. simpl. split_and!; [done|lia|llia|lia].
    + set (d := x :: d') in *. destruct (split_len (len d) rest) as (a & rest' & -> & Ha); [llia|].
      rewrite (copy_at_mid (len pre) (len pre + len d) d pre a rest') by llia.
      rewrite app_assoc. rewrite <- len_app. intros Hrun. destruct (IH _ _ _ _ Hu' Hrun) as [Hs' Hr].
      split; [intros q; eapply same_trans; eauto|].
      destruct r as [[blob filled]|[]| |]; try done; [|llia].
      destruct Hr as (pad & -> & -> & Hlb & Hlt). exists pad. rewrite <- !app_assoc in *. split_and!; [done|llia|llia|llia].
  - intros [= <- <-]. auto.
  - intros [= <- <-]. auto.
  - intros Hrun. destruct (IH _ _ _ _ (Hi eq_refl) Hrun) as [Hs' Hr]. split; [intros q; eapply same_trans; eauto|done].
  - intros [= <- <-]. auto.
  - intros [= <- <-]. auto.
  - intros [= <- <-]. auto.
Qed.

(** Checking what was read agrees with what the file holds. *)
Lemma check_blob_spec c pad out : len (c ++ pad) = BUFFER_LEN ->
  check_blob (c ++ pad) (len c) out =
  match decode_blob c with
  | Some p => if len p <=? len out then Ok (p ++ zdrop (len p) out, len p) else Err TooLarge
  | None => Err Corrupt
  end.
Proof.
  intros Hl. pose proof (len_nonneg c). destruct (Z.le_gt_cases 23 (len c)) as [Hc|Hc].
  - name_fields c [5; 2; len c - 23; 16]. cbn [concat] in *. rewrite app_nil_r in *. rewrite <- !app_assoc.
    replace (len (f ++ f0 ++ f1 ++ f2)) with (23 + len f1) by llia.
    rewrite check_blob_fields, decode_blob_fields by lia. by destruct (fields_ok f f0 f1 f2).
  - assert (decode_blob c = None) as ->.
    { unfold decode_blob, CHECKSUM_LEN, HEADER_LEN. destruct (get_range 0 (len c - 16) c) as [front|] eqn:E; [|done].
      apply get_range_Some in E as (? & ? & ->). rewrite (proj2 (get_range_None _ _ _)); [done|].
      rewrite len_sub_range by lia. lia. }
    unfold check_blob, slice, BUFFER_LEN, HEADER_LEN, CHECKSUM_LEN, MAX_PAYLOAD in *. cbn [fst snd].
    rewrite get_range_in by lia. destruct (get_at_is_Some 4 (c ++ pad)) as [v ->]; [lia|]. cbn [or_panic rbind].
    by rewrite (proj2 (Z.ltb_lt _ _)) by lia.
Qed.

Lemma load_spec patience s name w out : as_c_str (path s) = Some name ->
  let '(w', out', r) := load patience s w out in
  (forall q, same w w' q) /\
  match r with
  | Ok None => file w name = None
  | Ok (Some n) => exists c p, file w name = Some c /\ decode_blob c = Some p /\ n = len p /\ n <= len out /\ out' = p ++ zdrop n out
  | Err Corrupt => exists c, file w name = Some c /\ (decode_blob c = None \/ BUFFER_LEN <= len c)
  | Err TooLarge => exists c p, file w name = Some c /\ decode_blob c = Some p /\ len out < len p
  | Err BadPath => False
  | _ => True
  end.
Proof.
  intros Hn. unfold load. rewrite Hn.
  pose proof (open_read_same w name) as Hs. pose proof (open_read_ok w name) as Hok. pose proof (open_read_noent w name) as Hno.
  destruct (open_read w name) as [w1 [fd|[| | |]| |]]; simpl in *; auto.
  destruct (Hok fd eq_refl) as (c & Hc & Hu). destruct (read_loop patience w1 fd (zeros BUFFER_LEN) 0) as [w2 r] eqn:Hrun.
  pose proof (read_loop_spec patience w1 fd c [] (zeros BUFFER_LEN) w2 r Hu Hrun) as [Hs2 Hr].
  assert (Hss : forall q, same w w2 q) by (intros q; eapply same_trans; eauto).
  destruct r as [[blob filled]|[]| |]; simpl; try done; [|split; [done|exists c; split; [done|by right]]].
  destruct Hr as (pad & -> & -> & Hlb & Hlt). cbn [app] in *. rewrite len_nil, Z.add_0_l in *.
  rewrite check_blob_spec by exact Hlb. destruct (decode_blob c) as [p|] eqn:Hd; [|split; [done|]; eauto].
  case_if; bool_hyps; (split; [done|]); exists c, p; auto.
Qed.

(** ** Writing *)

Lemma write_loop_spec fuel w fd p pre rest w' r : writing w fd = Some p -> file w p = Some pre ->
  write_loop fuel w fd (pre ++ rest) (len pre) = (w', r) ->
  (forall q, q <> p -> same w w' q) /\ (r = Ok tt -> writing w' fd = Some p /\ file w' p = Some (pre ++ rest)).
Proof.
  revert w pre rest; induction fuel as [|fuel IH]; intros w pre rest Hw Hf; simpl.
  { intros [= <- <-]. split; [auto with tf|done]. }
  rewrite len_app. pose proof (len_nonneg rest).
  destruct (Z.leb_spec (len pre + len rest) (len pre)) as [He|He].
  { intros [= <- <-]. split; [auto with tf|]. rewrite (len_zero_nil rest), app_nil_r by lia. auto. }
  rewrite get_range_back by lia.
  pose proof (fun q => write_same w fd rest p q Hw) as Hs. pose proof (fun n => write_ok w fd rest p pre n Hw Hf) as Hok.
  pose proof (write_intr w fd rest p pre Hw Hf) as Hi.
  destruct (write w fd rest) as [w1 [n|[| | |]| |]]; simpl in *; try (intros [= <- <-]; split; [auto|done]).
  - destruct (Z.eqb_spec n 0); [intros [= <- <-]; split; [auto|done]|].
    destruct (Hok n eq_refl) as (Hn & Hw' & Hf'). destruct (split_len n rest) as (a & rest' & -> & Ha); [lia|].
    rewrite ztake_app_len in Hf' by done. rewrite app_assoc. replace (len pre + n) with (len (pre ++ a)) by llia.
    intros Hrun. destruct (IH _ _ _ Hw' Hf' Hrun) as [Hs' Hr]. split; [|done].
    intros q Hq. eapply same_trans; eauto.
  - destruct (Hi eq_refl) as [Hw' Hf']. intros Hrun. destruct (IH _ _ _ Hw' Hf' Hrun) as [Hs' Hr]. split; [|done].
    intros q Hq. eapply same_trans; eauto.
Qed.

Lemma write_temporary_spec patience s tmp blob w w' r : as_c_str (temporary s) = Some tmp ->
  write_temporary patience s w blob = (w', r) ->
  (forall q, q <> tmp -> same w w' q) /\ (r = Ok tt -> file w' tmp = Some blob /\ synced w' tmp blob).
Proof.
  intros Hn. unfold write_temporary. rewrite Hn.
  pose proof (open_trunc_same w tmp) as Hs. pose proof (open_trunc_ok w tmp) as Hok.
  destruct (open_trunc w tmp) as [w1 [fd|e| |]]; simpl in *; try (intros [= <- <-]; split; [auto|done]).
  destruct (Hok fd eq_refl) as [Hw Hf]. destruct (write_loop patience w1 fd blob 0) as [w2 r2] eqn:Hrun.
  destruct (write_loop_spec patience w1 fd tmp [] blob w2 r2 Hw Hf Hrun) as [Hs2 Hr2].
  assert (Hss : forall q, q <> tmp -> same w w2 q) by (intros q Hq; eapply same_trans; eauto).
  destruct r2 as [[]|e| |]; try (intros [= <- <-]; split; [auto|done]).
  destruct (Hr2 eq_refl) as [Hw2 Hf2]. pose proof (fun q => fsync_same w2 fd tmp q Hw2) as Hs3.
  pose proof (fsync_ok w2 fd tmp blob Hw2 Hf2) as Hok3. destruct (fsync w2 fd) as [w3 r3]. simpl in *.
  intros [= <- <-]. split; [intros q Hq; apply same_trans with w2; auto|]. destruct r3 as [[]| | |]; simpl; try done. auto.
Qed.

(** A store whose two names are paths, and different ones. *)
Record names_ok (s : FileStore) (name tmp : bytes) : Prop := {
  name_path : as_c_str (path s) = Some name;
  tmp_path : as_c_str (temporary s) = Some tmp;
  names_differ : name <> tmp;
}.

(** Whatever the calls answer and wherever the power goes, the file holds what it
    held or the new blob, also after the power comes back. *)
Lemma save_spec patience s name tmp w p : names_ok s name tmp ->
  let (w', r) := save patience s w p in
  (file w' name = file w name \/ len p <= MAX_PAYLOAD /\ file w' name = Some (blob_of p)) /\
  (forall x, durable w' name x -> durable w name x \/ len p <= MAX_PAYLOAD /\ x = Some (blob_of p)) /\
  (r = Ok tt -> len p <= MAX_PAYLOAD /\ file w' name = Some (blob_of p)).
Proof.
  intros [Hn Ht Hd]. unfold save. destruct (Z.ltb_spec MAX_PAYLOAD (len p)); [split_and!; [by left|by auto|done]|].
  rewrite build_blob_spec, Hn, Ht by done.
  destruct (write_temporary patience s w (blob_of p)) as [w1 r1] eqn:Hrun.
  destruct (write_temporary_spec _ _ _ _ _ _ _ Ht Hrun) as [Hs Hr]. destruct (Hs name Hd) as [Hf Hu].
  destruct r1 as [[]|e| |]; [|destruct (unlink_same w1 tmp name Hd) as [Hf' Hu'];
    destruct (unlink w1 tmp) as [w2 r2]; simpl in *; split_and!; [left; congruence|by auto|by destruct r2]|split_and!; [by left|by auto|done]..].
  destruct (Hr eq_refl) as [Hft Hsy]. pose proof (rename_file w1 tmp name) as Hrf.
  pose proof (rename_ok w1 tmp name (blob_of p) Hft) as Hro. pose proof (fun x => rename_durable w1 tmp name (blob_of p) x Hsy) as Hrd.
  destruct (rename w1 tmp name) as [w2 r2]. simpl in *. split_and!.
  - destruct Hrf as [-> | ->]; [by left|by right; rewrite Hft].
  - intros x Hx. destruct (Hrd x Hx) as [|]; auto.
  - destruct r2 as [[]| | |]; simpl; try done. auto.
Qed.

(** ** Paths *)

(** A buffer that holds [c] and nothing else. *)
Definition holds (p : Path) (c : bytes) : Prop :=
  path_len p = len c /\ len c < PATH_MAX /\ (0 ∉ c) /\ path_bytes p = c ++ zeros (PATH_MAX - len c).

Lemma holds_as_c_str p c : holds p c -> as_c_str p = Some c.
Proof.
  intros (Hl & Hc & Hz & Hb). unfold as_c_str. rewrite Hl, Hb. pose proof (len_nonneg c).
  assert (zeros (PATH_MAX - len c) = [0] ++ zeros (PATH_MAX - len c - 1)) as ->.
  { unfold zeros. replace (Z.to_nat (PATH_MAX - len c)) with (S (Z.to_nat (PATH_MAX - len c - 1))) by lia. done. }
  rewrite app_assoc, get_range_front by llia. unfold from_bytes_with_nul. autorewrite with len.
  replace (len c + (1 + 0) - 1) with (len c) by lia. rewrite get_range_front, get_at_mid by done. simpl.
  by rewrite bool_decide_eq_false_2.
Qed.

Lemma push_parts_holds parts p c q : holds p c -> push_parts p parts = Ok q -> holds q (c ++ concat parts).
Proof.
  revert p c; induction parts as [|b parts IH]; intros p c Hp; simpl.
  { intros [= <-]. by rewrite app_nil_r. }
  destruct Hp as (Hl & Hc & Hz & Hb). pose proof (len_nonneg b). case_if; [done|]. bool_hyps. apply bool_decide_eq_false in H1.
  destruct (copy_at _ _ b (path_bytes p)) as [bs|] eqn:E; [|done]. simpl. rewrite app_assoc. apply IH.
  unfold holds. simpl. autorewrite with len. split_and!; [lia|lia|rewrite elem_of_app; naive_solver|].
  apply copy_at_Some in E as (_ & _ & _ & ->).
  rewrite Hl, Hb, ztake_app_len by done. rewrite <- app_assoc. do 2 f_equal.
  unfold zdrop, zeros. rewrite drop_app_ge by (unfold len; lia). rewrite drop_replicate. f_equal. unfold len in *. lia.
Qed.

Lemma path_new_holds parts p : path_new parts = Ok p -> holds p (concat parts).
Proof. intros H. apply (push_parts_holds parts _ [] p) in H; [done|]. repeat split. set_solver. Qed.

Lemma file_store_new_names w directory name w' s : file_store_new w directory name = (w', Ok s) ->
  exists target tmp, names_ok s target tmp.
Proof.
  unfold file_store_new. set (sep := if bool_decide _ then _ else _). intros H.
  destruct (path_new [directory]) as [d| | |]; try done. destruct (as_c_str d) as [dn|]; [|done].
  destruct (mkdir w dn) as [w1 r].
  assert (Hs : (let! path := path_new [directory; sep; name] in
                let! temporary := path_new [directory; sep; name; [46; 116; 109; 112]] in
                Ok (mkFileStore path temporary)) = Ok s) by (destruct r as [|[]| |]; congruence).
  destruct (path_new [directory; sep; name]) as [p| | |] eqn:E1; try done.
  destruct (path_new [directory; sep; name; [46; 116; 109; 112]]) as [t| | |] eqn:E2; try done.
  injection Hs as <-. apply path_new_holds in E1, E2. do 2 eexists.
  split; [by apply holds_as_c_str|by apply holds_as_c_str|]. intros Heq. apply (f_equal len) in Heq. cbn [concat] in Heq. llia.
Qed.

(** ** The interface *)

#[export] Instance file_store_ok patience s name tmp (N : names_ok s name tmp) : store.StoreOk (file_store_store patience s).
Proof.
  refine {| store.stored := fun w => match file w name with Some c => decode_blob c | None => None end |}; simpl.
  - intros w out. pose proof (load_spec patience s name w out (name_path _ _ _ N)) as H.
    destruct (load patience s w out) as [[w' out'] r]. simpl. by destruct H as [H _]; destruct (H name) as [-> _].
  - intros w out. pose proof (load_spec patience s name w out (name_path _ _ _ N)) as H.
    destruct (load patience s w out) as [[w' out'] r]. simpl. intros ->. by destruct H as [_ ->].
  - intros w out n. pose proof (load_spec patience s name w out (name_path _ _ _ N)) as H.
    destruct (load patience s w out) as [[w' out'] r]. simpl. intros ->. destruct H as [_ (c & p & -> & Hp & -> & Hl & ->)]. eauto.
  - intros w b. pose proof (save_spec patience s name tmp w b N) as H. destruct (save patience s w b) as [w' r]. simpl.
    intros ->. destruct H as (_ & _ & H). destruct (H eq_refl) as [Hl ->]. by apply decode_blob_of.
  - intros w b. pose proof (save_spec patience s name tmp w b N) as H. destruct (save patience s w b) as [w' r]. simpl.
    destruct H as ([-> | [Hl ->]] & _ & _); [by left|right]. by apply decode_blob_of.
Defined.

End Facts.

(** * What the stored identity survives

    The theorems about [StoreFile.v] and [KeyStore.v], and a concrete disk on which
    their hypotheses hold. *)

Import keys store file_store.

(** ** A disk

    A read or a write moves at most 100 bytes.  One descriptor of each kind is
    open at a time; everything written is durable at once. *)

Module ToyDisk.

Record Disk := mkDisk { files : gmap bytes bytes; reading : option bytes; target : option bytes }.

Definition append (d : Disk) (b : bytes) : Disk :=
  match target d with
  | Some p => mkDisk (<[p := default [] (files d !! p) ++ b]> (files d)) (reading d) (target d)
  | None => d
  end.

#[export] Instance disk : Posix Disk := {|
  Fd := unit;
  mkdir d p := (d, Err EXIST);
  open_read d p :=
    match files d !! p with
    | Some c => (mkDisk (files d) (Some c) (target d), Ok tt)
    | None => (d, Err NOENT)
    end;
  open_trunc d p := (mkDisk (<[p := []]> (files d)) (reading d) (Some p), Ok tt);
  read d _ n :=
    let c := default [] (reading d) in let k := Z.min n 100 in
    (mkDisk (files d) (Some (zdrop k c)) (target d), Ok (ztake k c));
  write d _ b := (append d (ztake 100 b), Ok (Z.min 100 (len b)));
  fsync d _ := (d, Ok tt);
  rename d p p' :=
    match files d !! p with
    | Some c => (mkDisk (<[p' := c]> (delete p (files d))) (reading d) (target d), Ok tt)
    | None => (d, Err NOENT)
    end;
  unlink d p := (mkDisk (delete p (files d)) (reading d) (target d), Ok tt);
|}.

#[export] Instance disk_ok : PosixOk disk.
Proof.
  refine {| file := fun d p => files d !! p; durable := fun d p x => x = files d !! p;
            unread := fun d _ => reading d; writing := fun d _ => target d;
            synced := fun d p c => files d !! p = Some c |}; simpl; unfold append;
    intros; repeat case_match; simplify_eq/=;
    rewrite ?lookup_insert_eq, ?lookup_insert_ne, ?lookup_delete_ne by done; try by naive_solver.
  - rewrite H. simpl. eexists. split_and!; [by rewrite ztake_zdrop|llia|done|].
    intros Hd. apply (f_equal len) in Hd. apply len_zero_nil. llia.
  - rewrite H0. simpl. split_and!; [llia..|done|]. do 2 f_equal.
    destruct (Z.le_gt_cases (len b) 100); [by rewrite !ztake_all by lia|]. f_equal. lia.
Qed.

End ToyDisk.

(** ** Theorems *)

Section Theorems.
Context `{P : Primitives} {POk : PrimitivesOk P} {W : Type} `{OS : Posix W} {OOk : PosixOk OS}.

(** C33: Saving is atomic.  For a store that was opened, whatever the calls answer,
    however writes are cut and wherever the power goes, the file afterwards holds
    what it held before or the complete new blob, and so does what may be found
    there when the power comes back; a save that reports success has replaced it,
    and a payload over [MAX_PAYLOAD] is never written. *)
Theorem file_store_atomic (w0 w1 : W) (directory name : bytes) (s : FileStore) :
  file_store_new w0 directory name = (w1, Ok s) ->
  exists target, as_c_str (path s) = Some target /\
  forall patience w payload, let (w', r) := save patience s w payload in
    (file w' target = file w target \/ len payload <= MAX_PAYLOAD /\ file w' target = Some (blob_of payload)) /\
    (forall x, durable w' target x -> durable w target x \/ len payload <= MAX_PAYLOAD /\ x = Some (blob_of payload)) /\
    (r = Ok tt -> len payload <= MAX_PAYLOAD /\ file w' target = Some (blob_of payload)).
Proof.
  intros (target & tmp & N)%file_store_new_names. exists target. split; [apply N|].
  intros patience w payload. by apply save_spec with tmp.
Qed.

(** What was saved is loaded.  After a successful save, as long as the file is not
    touched, loading gives the payload in front of the caller's buffer, unless a
    call fails or the buffer is too short; but a payload of exactly [MAX_PAYLOAD]
    bytes, which saving accepts, is reported as corrupt. *)
Theorem load_after_save (w0 w1 : W) (directory name : bytes) (s : FileStore) patience patience' (w w' w2 : W) payload out target :
  file_store_new w0 directory name = (w1, Ok s) -> as_c_str (path s) = Some target ->
  save patience s w payload = (w', Ok tt) -> file w2 target = file w' target ->
  let '(_, out', r) := load patience' s w2 out in
  match r with
  | Ok None => False
  | Ok (Some n) => n = len payload /\ n <= len out /\ out' = payload ++ zdrop n out
  | Err Corrupt => len payload = MAX_PAYLOAD
  | Err TooLarge => len out < len payload
  | Err BadPath => False
  | Err (Errno_ _) | Panic | Hang => True
  end.
Proof.
  intros (target' & tmp & N)%file_store_new_names Ht Hsave Hf. pose proof (save_spec patience s target' tmp w payload N) as Hs.
  pose proof (load_spec patience' s target w2 out Ht) as Hl. assert (target' = target) as -> by (destruct N; congruence).
  rewrite Hsave in Hs. destruct Hs as (_ & _ & Hs). destruct (Hs eq_refl) as [Hmax Hw']. rewrite Hf, Hw' in Hl.
  pose proof (decode_blob_of payload Hmax) as Hd.
  destruct (load patience' s w2 out) as [[w3 out'] r]. destruct Hl as [_ Hl].
  destruct r as [[n|]|[]| |]; try done.
  - destruct Hl as (c & p & Hc & Hp & -> & Hn & ->). simplify_eq. done.
  - destruct Hl as (c & Hc & [Hn|Hn]); simplify_eq.
    unfold blob_of, BUFFER_LEN, HEADER_LEN, CHECKSUM_LEN, MAX_PAYLOAD in *.
    rewrite len_app, len_blob_front, len_checksum_of in Hn. lia.
  - destruct Hl as (c & p & Hc & Hp & Hn). by simplify_eq.
Qed.

End Theorems.

(** The identity survives restarts.  Over any store that keeps its promises, the
    program may be started any number of times with any random bytes: every start
    that gets an identity gets the same one, and only the first of them can report
    it as new. *)
Theorem identity_survives `{C : Curve} {COk : CurveOk C} {W E : Type} `{S : Store W E} {SOk : StoreOk S}
    (w : W) (rngs : list bytes) (m n : nat) (i j : Identity) (x y : bool) :
  (m < n)%nat -> starts w rngs !! m = Some (Ok (i, x)) -> starts w rngs !! n = Some (Ok (j, y)) -> i = j /\ y = false.
Proof. apply starts_agree. Qed.

(** ** Witnesses *)

Import Toy ToyCurve ToyDisk.

Definition empty_disk : Disk := mkDisk ∅ None None.
Definition toy_store : FileStore :=
  match file_store_new empty_disk [97] [98] with (_, Ok s) => s | _ => mkFileStore (mkPath [] 0) (mkPath [] 0) end.

Lemma toy_store_new : file_store_new empty_disk [97] [98] = (empty_disk, Ok toy_store).
Proof. vm_compute. reflexivity. Qed.

Definition toy_target : bytes := [97; 47; 98].

Lemma file_store_atomic_witness :
  exists target, as_c_str (path toy_store) = Some target /\
  let (w', r) := save 10 toy_store empty_disk [1; 2; 3] in r = Ok tt -> file w' target = Some (blob_of [1; 2; 3]).
Proof.
  destruct (file_store_atomic _ _ _ _ _ toy_store_new) as (target & Ht & H). exists target. split; [exact Ht|].
  specialize (H 10%nat empty_disk [1; 2; 3]). destruct (save 10 toy_store empty_disk [1; 2; 3]) as [w' r].
  intros Hr. exact (proj2 (proj2 (proj2 H) Hr)).
Defined.

Definition saved_disk : Disk := (save 10 toy_store empty_disk [1; 2; 3]).1.

Lemma load_after_save_witness :
  (load 10 toy_store saved_disk (zeros 5)).2 = Ok (Some 3) /\ (load 10 toy_store saved_disk (zeros 5)).1.2 = [1; 2; 3; 0; 0].
Proof.
  assert (Hs : save 10 toy_store empty_disk [1; 2; 3] = (saved_disk, Ok tt)) by (vm_compute; reflexivity).
  assert (Ht : as_c_str (path toy_store) = Some toy_target) by (vm_compute; reflexivity).
  pose proof (load_after_save empty_disk empty_disk [97] [98] toy_store 10 10 empty_disk saved_disk saved_disk [1; 2; 3] (zeros 5)
    toy_target toy_store_new Ht Hs eq_refl) as H.
  assert (Hr : (load 10 toy_store saved_disk (zeros 5)).2 = Ok (Some 3)) by (vm_compute; reflexivity).
  destruct (load 10 toy_store saved_disk (zeros 5)) as [[w out] r]. simpl in Hr. subst r.
  split; [reflexivity|]. exact (proj2 (proj2 H)).
Defined.

Lemma toy_names : names_ok toy_store toy_target (toy_target ++ [46; 116; 109; 112]).
Proof. split; [vm_compute; reflexivity..|]. discriminate. Qed.

(** Two starts on an empty disk: the first makes an identity, the second reads it. *)
Definition two_starts := starts (S := file_store_store 10 toy_store) empty_disk [replicate 96 7; replicate 96 9].

Definition outcome {E A} (r : res E (A * bool)) : option bool := match r with Ok (_, fresh) => Some fresh | _ => None end.

Lemma outcome_Some {E A} (l : list (res E (A * bool))) n b : map outcome l !! n = Some (Some b) ->
  exists i, l !! n = Some (Ok (i, b)).
Proof.
  rewrite list_lookup_fmap_Some. intros (r & Hr & Hl). destruct r as [[i f]| | |]; simplify_eq/=. eauto.
Qed.

Lemma identity_survives_witness : exists i, two_starts = [Ok (i, true); Ok (i, false)].
Proof.
  assert (E : map outcome two_starts = [Some true; Some false]) by (vm_compute; reflexivity).
  destruct (outcome_Some two_starts 0 true) as [i Hi]; [by rewrite E|].
  destruct (outcome_Some two_starts 1 false) as [j Hj]; [by rewrite E|].
  destruct (@identity_survives curve curve_ok Disk StoreError _ (file_store_ok 10 toy_store _ _ toy_names)
    empty_disk _ 0 1 i j true false ltac:(lia) Hi Hj) as [-> _].
  exists j. apply (f_equal length) in E. rewrite length_map in E.
  destruct two_starts as [|a [|b [|? ?]]]; try discriminate. simpl in Hi, Hj. congruence.
Defined.
