(* ===== verification/NetAddr.v ===== *)
(** * Addresses as text

    [core::net]: the parsers of [IpAddr] and [SocketAddr] and the unsigned
    [str::parse] the network map is read with.  A reader takes the front of the text
    and gives the rest; one that fails leaves the text as it was. *)

From Stdlib Require Import Strings.String Strings.Ascii.
From S2P Require Import Prelude Utf8.

(** A literal of the source. *)
Definition str (s : string) : bytes := map (fun c => Z.of_N (N_of_ascii c)) (list_ascii_of_string s).

(** ** Numbers *)

(** [char::to_digit(radix)] *)
Definition to_digit (radix b : Z) : option Z :=
  let? d := (if between 48 57 b then Some (b - 48) else
             if between 97 122 b then Some (b - 97 + 10) else
             if between 65 90 b then Some (b - 65 + 10) else None) in
  if d <? radix then Some d else None.

(** [str::parse] to an unsigned type of maximum [max]: an optional plus sign and at
    least one decimal digit. *)
Fixpoint parse_digits (max acc : Z) (l : bytes) : option Z :=
  match l with
  | [] => Some acc
  | b :: l =>
      let? d := to_digit 10 b in
      let acc := acc * 10 + d in
      if acc <=? max then parse_digits max acc l else None
  end.

Definition parse_uint (max : Z) (l : bytes) : option Z :=
  match l with
  | [] => None
  | b :: rest => if b =? 43 then match rest with [] => None | _ => parse_digits max 0 rest end
                 else parse_digits max 0 l
  end.

(** ** Readers *)

Definition Reader (A : Type) : Type := bytes -> option (A * bytes).

Definition read_given_char (c : Z) : Reader unit := fun l =>
  match l with b :: rest => if b =? c then Some (tt, rest) else None | [] => None end.

(** The digits in front: how many, their value and the rest. *)
Fixpoint read_digits (radix : Z) (count acc : Z) (l : bytes) : Z * Z * bytes :=
  match l with
  | [] => (count, acc, l)
  | b :: rest =>
      match to_digit radix b with
      | Some d => read_digits radix (count + 1) (acc * radix + d) rest
      | None => (count, acc, l)
      end
  end.

(** At most [max_digits] digits with a value up to [max]; a zero in front of other
    digits only when allowed. *)
Definition read_number (radix : Z) (max_digits : option Z) (allow_zero_prefix : bool) (max : Z) : Reader Z := fun l =>
  let '(count, value, rest) := read_digits radix 0 0 l in
  let leading_zero := match l with b :: _ => b =? 48 | [] => false end in
  if count =? 0 then None else
  if match max_digits with Some m => m <? count | None => false end then None else
  if negb allow_zero_prefix && leading_zero && (1 <? count) then None else
  if value <=? max then Some (value, rest) else None.

(** [read_separator]: the separator in front of every element but the first. *)
Definition read_separator {A} (sep index : Z) (inner : Reader A) : Reader A := fun l =>
  if 0 <? index then let? (_, l) := read_given_char sep l in inner l else inner l.

Fixpoint read_octets (n : nat) (i : Z) : Reader bytes := fun l =>
  match n with
  | O => Some ([], l)
  | S n =>
      let? (x, l) := read_separator 46 i (read_number 10 (Some 3) false 255) l in
      let? (xs, l) := read_octets n (i + 1) l in Some (x :: xs, l)
  end.

Definition read_ipv4_addr : Reader bytes := read_octets 4 0.

(** Up to [n] groups from number [i] on; whether they end in an IPv4 address. *)
Fixpoint read_groups (n : nat) (i : Z) (l : bytes) : list Z * bool * bytes :=
  match n with
  | O => ([], false, l)
  | S n' =>
      match (if (1 <? Z.of_nat n) then read_separator 58 i read_ipv4_addr l else None) with
      | Some (o, rest) => ([of_be (ztake 2 o); of_be (zdrop 2 o)], true, rest)
      | None =>
          match read_separator 58 i (read_number 16 (Some 4) true U16_MAX) l with
          | Some (g, rest) => let '(gs, v4, rest) := read_groups n' (i + 1) rest in (g :: gs, v4, rest)
          | None => ([], false, l)
          end
      end
  end.

Definition read_ipv6_addr : Reader (list Z) := fun l =>
  let '(head, head_ipv4, l) := read_groups 8 0 l in
  if len head =? 8 then Some (head, l) else
  if head_ipv4 then None else
  let? (_, l) := read_given_char 58 l in
  let? (_, l) := read_given_char 58 l in
  let '(tail, _, l) := read_groups (8 - (length head + 1)) 0 l in
  Some (head ++ replicate (8 - length head - length tail) 0 ++ tail, l).

(** [IpAddr] by octets and by groups. *)
Inductive IpAddr := V4 (octets : bytes) | V6 (groups : list Z).

Definition is_ipv4 (a : IpAddr) : bool := match a with V4 _ => true | V6 _ => false end.

Definition read_ip_addr : Reader IpAddr := fun l =>
  match read_ipv4_addr l with
  | Some (o, l) => Some (V4 o, l)
  | None => let? (g, l) := read_ipv6_addr l in Some (V6 g, l)
  end.

(** [SocketAddr]; the text never carries a flow label. *)
Inductive SocketAddr := Sock4 (octets : bytes) (port : Z) | Sock6 (groups : list Z) (port scope : Z).

Definition read_port : Reader Z := fun l =>
  let? (_, l) := read_given_char 58 l in read_number 10 None true U16_MAX l.

Definition read_scope_id : Reader Z := fun l =>
  let? (_, l) := read_given_char 37 l in read_number 10 None true U32_MAX l.

Definition read_socket_addr_v4 : Reader SocketAddr := fun l =>
  let? (o, l) := read_ipv4_addr l in let? (port, l) := read_port l in Some (Sock4 o port, l).

Definition read_socket_addr_v6 : Reader SocketAddr := fun l =>
  let? (_, l) := read_given_char 91 l in
  let? (g, l) := read_ipv6_addr l in
  let (scope, l) := match read_scope_id l with Some (s, l) => (s, l) | None => (0, l) end in
  let? (_, l) := read_given_char 93 l in
  let? (port, l) := read_port l in
  Some (Sock6 g port scope, l).

(** [parse_with]: the whole text. *)
Definition parse_with {A} (inner : Reader A) (l : bytes) : option A :=
  match inner l with Some (a, []) => Some a | _ => None end.

Definition parse_ip_addr (l : bytes) : option IpAddr := parse_with read_ip_addr l.

Definition parse_socket_addr (l : bytes) : option SocketAddr :=
  parse_with (fun l => match read_socket_addr_v4 l with Some r => Some r | None => read_socket_addr_v6 l end) l.

(** Examples of what the parsers accept and refuse. *)
Example parse_ip_examples :
  parse_ip_addr (str "100.64.0.1") = Some (V4 [100; 64; 0; 1]) /\
  parse_ip_addr (str "fd7a:115c:a1e0::1") = Some (V6 [0xfd7a; 0x115c; 0xa1e0; 0; 0; 0; 0; 1]) /\
  parse_ip_addr (str "::ffff:1.2.3.4") = Some (V6 [0; 0; 0; 0; 0; 0xffff; 0x102; 0x304]) /\
  parse_ip_addr (str "::") = Some (V6 (replicate 8 0)) /\
  parse_ip_addr (str "1:2:3:4:5:6:7::") = Some (V6 [1; 2; 3; 4; 5; 6; 7; 0]) /\
  parse_ip_addr (str "01.2.3.4") = None /\ parse_ip_addr (str "1.2.3.256") = None /\
  parse_ip_addr (str "1:2:3:4:5:6:7:8:9") = None /\ parse_ip_addr (str "1.2.3") = None /\
  parse_socket_addr (str "10.0.0.5:41641") = Some (Sock4 [10; 0; 0; 5] 41641) /\
  parse_socket_addr (str "[fe80::1%3]:80") = Some (Sock6 [0xfe80; 0; 0; 0; 0; 0; 0; 1] 80 3) /\
  parse_socket_addr (str "10.0.0.5") = None /\ parse_uint 255 (str "+032") = Some 32 /\ parse_uint 255 (str "256") = None.
Proof. vm_compute. done. Qed.
