(* ===== verification/BTree.v ===== *)
(** * Ordered maps

    The standard library's [BTreeMap] as the conformance suite uses it: the entries
    in key order, [entry] with a default, lookup and iteration.  Two maps in order
    are equal when they have the same lookups. *)

From stdpp Require Import sorting.
From S2P Require Import Prelude.

(** The order of the keys, as [Ord] gives it. *)
Class KeyOrder (K : Type) := key_ltb : K -> K -> bool.

Class KeyOrderOk (K : Type) `{KeyOrder K} := {
  key_irrefl k : key_ltb k k = false;
  key_trans a b c : key_ltb a b = true -> key_ltb b c = true -> key_ltb a c = true;
  key_total a b : key_ltb a b = false -> key_ltb b a = false -> a = b }.

#[export] Instance Z_order : KeyOrder Z := Z.ltb.
#[export] Instance pair_order {A B} `{KeyOrder A} `{KeyOrder B} : KeyOrder (A * B) := fun x y =>
  key_ltb x.1 y.1 || (negb (key_ltb y.1 x.1) && key_ltb x.2 y.2).

(** Strings and slices compare byte by byte. *)
Fixpoint bytes_ltb (a b : bytes) : bool :=
  match a, b with
  | _, [] => false
  | [], _ :: _ => true
  | x :: a, y :: b => (x <? y) || ((x =? y) && bytes_ltb a b)
  end.
#[export] Instance bytes_order : KeyOrder bytes := bytes_ltb.

#[export] Instance Z_order_ok : KeyOrderOk Z.
Proof. split; unfold key_ltb, Z_order; intros; bool_hyps; [apply Z.ltb_irrefl|apply Z.ltb_lt; lia|lia]. Qed.

#[export] Instance bytes_order_ok : KeyOrderOk bytes.
Proof.
  split; unfold key_ltb, bytes_order.
  - induction k as [|x k IH]; [done|]. cbn [bytes_ltb]. by rewrite Z.ltb_irrefl, Z.eqb_refl, IH.
  - induction a as [|x a IH]; intros [|y b] [|z c]; cbn [bytes_ltb]; intros H1 H2; try done.
    apply orb_true_iff in H1 as [H1|H1]; apply orb_true_iff in H2 as [H2|H2]; bool_hyps.
    + apply orb_true_iff. left. apply Z.ltb_lt. lia.
    + apply orb_true_iff. left. apply Z.ltb_lt. lia.
    + apply orb_true_iff. left. apply Z.ltb_lt. lia.
    + rewrite (IH b c) by done. apply orb_true_iff. right. apply andb_true_iff. split; [apply Z.eqb_eq; lia|done].
  - induction a as [|x a IH]; intros [|y b]; cbn [bytes_ltb]; intros H1 H2; try done.
    bool_hyps. assert (x = y) as -> by lia. rewrite Z.eqb_refl in *. f_equal. by apply IH.
Qed.

Lemma pair_ltb {A B} `{KeyOrder A} `{KeyOrder B} (x y : A * B) :
  key_ltb x y = key_ltb x.1 y.1 || (negb (key_ltb y.1 x.1) && key_ltb x.2 y.2).
Proof. done. Qed.

#[export] Instance pair_order_ok {A B} `{KeyOrderOk A} `{KeyOrderOk B} : KeyOrderOk (A * B).
Proof.
  split.
  - intros [a b]. rewrite pair_ltb. cbn [fst snd]. by rewrite !key_irrefl.
  - intros [a b] [a' b'] [a'' b'']. rewrite !pair_ltb. cbn [fst snd]. intros H3 H4.
    apply orb_true_iff. apply orb_true_iff in H3 as [H3|H3]; apply orb_true_iff in H4 as [H4|H4]; bool_hyps.
    + left. by apply (key_trans _ a').
    + destruct (key_ltb a a'') eqn:E; [by left|exfalso].
      destruct (key_ltb a' a'') eqn:E'; [by rewrite (key_trans a a' a'') in E|].
      assert (a' = a'') as <- by (by apply key_total). congruence.
    + destruct (key_ltb a a'') eqn:E; [by left|exfalso].
      destruct (key_ltb a a') eqn:E'; [by rewrite (key_trans a a' a'') in E|].
      assert (a = a') as <- by (by apply key_total). congruence.
    + assert (a = a' \/ key_ltb a a' = true) as [->|E]; [destruct (key_ltb a a') eqn:E; [by right|left; by apply key_total]| |].
      * destruct (key_ltb a' a'') eqn:E'; [by left|]. right. rewrite (key_total a' a'') by done. rewrite key_irrefl. cbn [negb andb].
        by apply (key_trans _ b').
      * left. destruct (key_ltb a' a'') eqn:E'; [by apply (key_trans _ a')|]. by rewrite <- (key_total a' a'').
  - intros [a b] [a' b']. rewrite !pair_ltb. cbn [fst snd]. intros H3 H4. bool_hyps.
    assert (a = a') as -> by (by apply key_total). rewrite !key_irrefl in *. cbn [negb andb] in *. f_equal. by apply key_total.
Qed.

Module btree.
Section Map.
Context {K V : Type} `{KeyOrder K}.

Definition tree := list (K * V).

Fixpoint lookup (k : K) (m : tree) : option V :=
  match m with
  | [] => None
  | (k', v) :: m => if key_ltb k k' then None else if key_ltb k' k then lookup k m else Some v
  end.

(** [*m.entry(k).or_default()] changed by [f], which gets [None] for a new entry. *)
Fixpoint upsert (k : K) (f : option V -> V) (m : tree) : tree :=
  match m with
  | [] => [(k, f None)]
  | (k', v) :: m' =>
      if key_ltb k k' then (k, f None) :: m
      else if key_ltb k' k then (k', v) :: upsert k f m'
      else (k, f (Some v)) :: m'
  end.

(** [insert], and [collect] into a map. *)
Definition insert (k : K) (v : V) (m : tree) : tree := upsert k (fun _ => v) m.
Definition collect (l : list (K * V)) : tree := foldl (fun m '(k, v) => insert k v m) [] l.

Definition key_lt (a b : K) : Prop := key_ltb a b = true.
Definition ordered (m : tree) : Prop := StronglySorted key_lt (map fst m).

Context `{!KeyOrderOk K}.

Lemma lookup_upsert_eq k f m : lookup k (upsert k f m) = Some (f (lookup k m)).
Proof.
  induction m as [|[k' v] m IH]; cbn [upsert lookup]; [by rewrite key_irrefl|].
  destruct (key_ltb k k') eqn:E; [cbn [lookup]; by rewrite key_irrefl|].
  destruct (key_ltb k' k) eqn:E'; cbn [lookup]; [by rewrite E, E'|by rewrite key_irrefl].
Qed.

Lemma lookup_below k m : Forall (key_lt k) (map fst m) -> lookup k m = None.
Proof. destruct m as [|[k' v] m]; [done|]. cbn [map fst]. rewrite Forall_cons. intros [Hk _]. cbn [lookup]. by rewrite Hk. Qed.

Lemma lookup_upsert_ne k k' f m : ordered m -> k <> k' -> lookup k (upsert k' f m) = lookup k m.
Proof.
  unfold ordered. intros Ho Hne. induction m as [|[a v] m IH]; cbn [upsert].
  - cbn [lookup]. destruct (key_ltb k k') eqn:E; [done|]. destruct (key_ltb k' k) eqn:E'; [done|]. by destruct Hne; apply key_total.
  - cbn [map fst] in Ho. inversion Ho as [|?? Ho' Hf]; subst.
    destruct (key_ltb k' a) eqn:E; [|destruct (key_ltb a k') eqn:E'].
    + cbn [lookup]. destruct (key_ltb k k') eqn:E1.
      * by rewrite (key_trans k k' a).
      * destruct (key_ltb k' k) eqn:E2; [done|]. by destruct Hne; apply key_total.
    + cbn [lookup]. by rewrite IH.
    + assert (a = k') as -> by (by apply key_total). cbn [lookup].
      destruct (key_ltb k k') eqn:E1; [done|]. destruct (key_ltb k' k) eqn:E2; [done|]. by destruct Hne; apply key_total.
Qed.

Lemma upsert_keys k f m a : In a (map fst (upsert k f m)) -> a = k \/ In a (map fst m).
Proof.
  induction m as [|[k' v] m IH]; cbn [upsert]; [cbn; intuition congruence|].
  destruct (key_ltb k k'); [|destruct (key_ltb k' k)]; cbn [map fst In]; intuition congruence.
Qed.

Lemma ordered_upsert k f m : ordered m -> ordered (upsert k f m).
Proof.
  unfold ordered. induction m as [|[a v] m IH]; cbn [upsert]; intros Ho; [repeat constructor|].
  cbn [map fst] in Ho. inversion Ho as [|?? Ho' Hf]; subst.
  destruct (key_ltb k a) eqn:E; [|destruct (key_ltb a k) eqn:E']; cbn [map fst].
  - constructor; [done|]. constructor; [done|]. eapply Forall_impl; [done|]. intros x Hx. by apply (key_trans k a x).
  - constructor; [auto|]. rewrite Forall_forall in *. intros x Hx.
    apply list_elem_of_In, upsert_keys in Hx as [->|Hx]; [done|]. apply Hf. by apply list_elem_of_In.
  - assert (a = k) as -> by (by apply key_total). by constructor.
Qed.

Lemma ordered_nil : ordered [].
Proof. constructor. Qed.

(** An ordered map is determined by its lookups. *)
Lemma tree_ext m m' : ordered m -> ordered m' -> (forall k, lookup k m = lookup k m') -> m = m'.
Proof.
  unfold ordered. revert m'. induction m as [|[a v] m IH]; intros [|[a' v'] m'] Ho Ho' Heq; [done| | |].
  - specialize (Heq a'). cbn [lookup] in Heq. by rewrite key_irrefl in Heq.
  - specialize (Heq a). cbn [lookup] in Heq. by rewrite key_irrefl in Heq.
  - cbn [map fst] in *. inversion Ho as [|?? Ho1 Hf]; inversion Ho' as [|?? Ho1' Hf']; subst.
    assert (a = a') as <-.
    { pose proof (Heq a) as H1. pose proof (Heq a') as H2. cbn [lookup] in H1, H2. rewrite !key_irrefl in *.
      apply key_total; [destruct (key_ltb a a') eqn:E|destruct (key_ltb a' a) eqn:E]; done. }
    pose proof (Heq a) as H1. cbn [lookup] in H1. rewrite key_irrefl in H1. injection H1 as <-. f_equal.
    apply IH; [done..|]. intros k. specialize (Heq k). cbn [lookup] in Heq.
    destruct (key_ltb k a) eqn:E; [|destruct (key_ltb a k) eqn:E'].
    + assert (forall l : tree, Forall (key_lt a) (map fst l) -> lookup k l = None) as Hb.
      { intros l Hl. apply lookup_below. eapply Forall_impl; [done|]. intros x. by apply key_trans. }
      by rewrite !Hb.
    + done.
    + rewrite <- (key_total a k E' E). by rewrite !lookup_below.
Qed.

Lemma lookup_in k v m : ordered m -> In (k, v) m -> lookup k m = Some v.
Proof.
  unfold ordered. induction m as [|[a w] m IH]; [done|]. cbn [map fst In lookup]. intros Ho [Heq|Hin].
  - injection Heq as -> ->. by rewrite key_irrefl.
  - inversion Ho as [|?? Ho' Hf]; subst. rewrite Forall_forall in Hf.
    assert (key_ltb a k = true) as E. { apply Hf. apply list_elem_of_In, in_map_iff. by exists (k, v). }
    destruct (key_ltb k a) eqn:E'; [pose proof (key_trans k a k E' E) as Hc; by rewrite key_irrefl in Hc|]. rewrite E. by apply IH.
Qed.

Lemma lookup_Some_in k v m : lookup k m = Some v -> In (k, v) m.
Proof.
  induction m as [|[a w] m IH]; [done|]. cbn [lookup In].
  destruct (key_ltb k a) eqn:E; [done|]. destruct (key_ltb a k) eqn:E'; [auto|]. intros [= <-]. left. f_equal. by apply key_total.
Qed.

Lemma insert_last k v m : Forall (fun a => key_lt a k) (map fst m) -> insert k v m = m ++ [(k, v)].
Proof.
  unfold insert. induction m as [|[a w] m IH]; [done|]. cbn [map fst upsert]. rewrite Forall_cons. intros [Ha Hm].
  destruct (key_ltb k a) eqn:E; [pose proof (key_trans k a k E Ha) as Hc; by rewrite key_irrefl in Hc|].
  rewrite Ha. cbn [app]. by rewrite IH.
Qed.

Lemma collect_ordered l : ordered l -> collect l = l.
Proof.
  unfold collect, ordered. intros Ho. enough (forall m, StronglySorted key_lt (map fst (m ++ l)) ->
    foldl (fun m '(k, v) => insert k v m) m l = m ++ l) as Hl by apply (Hl []), Ho.
  clear Ho. induction l as [|[k v] l IH]; intros m Ho; cbn [foldl]; [by rewrite app_nil_r|].
  rewrite insert_last.
  - rewrite IH; rewrite <- app_assoc; done.
  - rewrite map_app in Ho. apply Forall_forall. intros x Hx.
    apply (StronglySorted_app_1_elem_of _ _ _ x k Ho Hx). left.
Qed.

End Map.

Lemma lookup_map {K V V'} `{KeyOrder K} (f : V -> V') k (m : list (K * V)) :
  lookup k (map (fun '(k, v) => (k, f v)) m) = option_map f (lookup k m).
Proof.
  induction m as [|[a v] m IH]; [done|]. cbn [map lookup]. destruct (key_ltb k a); [done|]. by destruct (key_ltb a k).
Qed.

Lemma ordered_map {K V V'} `{KeyOrder K} (f : V -> V') (m : list (K * V)) :
  ordered m -> ordered (map (fun '(k, v) => (k, f v)) m).
Proof.
  unfold ordered. enough (map fst (map (fun '(k, v) => (k, f v)) m) = map fst m) as -> by done.
  induction m as [|[k v] m IH]; [done|]. cbn [map fst]. by rewrite IH.
Qed.

Arguments tree : clear implicits.
End btree.
