(* ===== verification/Pcap.v ===== *)
(** * The capture reader of the conformance suite

    [crates/ts-conformance/src/pcap.rs]: a classic pcap file is taken apart into TCP
    directions, whose segments are joined in the order of their sequence numbers.
    The suite runs on a 64-bit host, so no offset overflows. *)

From stdpp Require Import sorting.
From S2P Require Import Prelude BTree.

Module pcap.

Inductive Error := NotAPcap | UnsupportedLinkType (n : Z) | Truncated | Io.

Definition MAGIC_LE : Z := 0xa1b2c3d4.
Definition MAGIC_BE : Z := 0xd4c3b2a1.
Definition LINKTYPE_ETHERNET : Z := 1.
Definition ETHERTYPE_IPV4 : Z := 0x0800.

(** One direction: its bytes, where they are discontinuous, and in how many TCP
    segments they came. *)
Record Stream := mkStream { bytes_ : bytes; gaps : list (Z * Z); segments : Z }.

Definition Ports : Type := Z * Z.
Record Capture := mkCapture { streams : btree.tree Ports Stream; packets : Z }.

(** [l.get(a..)] *)
Definition get_from {A} (a : Z) (l : list A) : option (list A) := get_range a (len l) l.

Definition tcp_payload (frame : bytes) : option (Ports * Z * bytes) :=
  let? ethertype := get_range 12 14 frame in
  if negb (of_be ethertype =? ETHERTYPE_IPV4) then None else
  let? ip := get_from 14 frame in
  let? first := get_at 0 ip in
  if negb (Z.shiftr first 4 =? 4) then None else
  let ihl := Z.land first 0x0f * 4 in
  if ihl <? 20 then None else
  let? protocol := get_at 9 ip in
  if negb (protocol =? 6) then None else
  let? total := get_range 2 4 ip in
  let? ip := get_range 0 (Z.min (of_be total) (len ip)) ip in
  let? tcp := get_from ihl ip in
  let? src := get_range 0 2 tcp in
  let? dst := get_range 2 4 tcp in
  let? seq := get_range 4 8 tcp in
  let? offset := get_at 12 tcp in
  let data_offset := Z.shiftr offset 4 * 4 in
  if data_offset <? 20 then None else
  let? payload := get_from data_offset tcp in
  Some ((of_be src, of_be dst), of_be seq, payload).

(** The segments of one direction by sequence number, and how many there were. *)
Definition Segments : Type := btree.tree Z bytes * Z.

(** The longer of two payloads with the same sequence number is kept. *)
Definition longer (payload : bytes) (slot : option bytes) : bytes :=
  let slot := default [] slot in
  if len slot <? len payload then payload else slot.

Definition add_segment (seq : Z) (payload : bytes) (entry : option Segments) : Segments :=
  let '(segs, count) := default ([], 0) entry in
  (btree.upsert seq (longer payload) segs, count + 1).

(** What one frame adds. *)
Definition collect_frame (frame : bytes) (collected : btree.tree Ports Segments) : btree.tree Ports Segments :=
  match tcp_payload frame with
  | None => collected
  | Some (ports, seq, payload) =>
      if len payload =? 0 then collected else btree.upsert ports (add_segment seq payload) collected
  end.

Definition u32_at (big_endian : bool) (b : bytes) : Z := if big_endian then of_be b else of_le b.

(** The loop over the records; every turn moves on by at least sixteen bytes. *)
Fixpoint read_records (fuel : nat) (big_endian : bool) (b : bytes) (offset : Z) (collected : btree.tree Ports Segments)
    (packets : Z) : res Error (btree.tree Ports Segments * Z) :=
  if len b <=? offset then Ok (collected, packets) else
  match fuel with
  | O => Hang
  | S fuel =>
      let! record := ok_or (get_range offset (offset + 16) b) Truncated in
      let! field := slice (8, 12) record in
      let captured := u32_at big_endian field in
      let offset := offset + 16 in
      let! frame := ok_or (get_range offset (offset + captured) b) Truncated in
      read_records fuel big_endian b (offset + captured) (collect_frame frame collected) (packets + 1)
  end.

(** The loop that joins the segments of a direction; [expected] is the sequence
    number after the last one. *)
Fixpoint join (segs : list (Z * bytes)) (expected : option Z) (s : Stream) : Stream :=
  match segs with
  | [] => s
  | (seq, payload) :: segs =>
      let s := match expected with
               | Some want => if seq =? want then s
                              else mkStream (bytes_ s) (gaps s ++ [(len (bytes_ s), wrap 32 (seq - want))]) (segments s)
               | None => s
               end in
      join segs (Some (wrap 32 (seq + wrap 32 (len payload))))
        (mkStream (bytes_ s ++ payload) (gaps s) (segments s))
  end.

Definition stream_of (s : Segments) : Stream := join s.1 None (mkStream [] [] s.2).

(** [streams.insert] for every direction, in port order. *)
Definition streams_of (collected : btree.tree Ports Segments) : btree.tree Ports Stream :=
  btree.collect (map (fun '(ports, s) => (ports, stream_of s)) collected).

Definition parse (b : bytes) : res Error Capture :=
  let! header := ok_or (get_range 0 24 b) Truncated in
  let! m := slice (0, 4) header in
  let magic := of_le m in
  let! big_endian := (if magic =? MAGIC_LE then Ok false else if magic =? MAGIC_BE then Ok true else Err NotAPcap) in
  let! l := slice (20, 24) header in
  let link_type := u32_at big_endian l in
  if negb (link_type =? LINKTYPE_ETHERNET) then Err (UnsupportedLinkType link_type) else
  let! '(collected, packets) := read_records (length b) big_endian b 24 [] 0 in
  Ok (mkCapture (streams_of collected) packets).

(** [Capture::stream] *)
Definition stream (c : Capture) (src dst : Z) : option Stream := btree.lookup (src, dst) (streams c).

End pcap.

(** * What the capture reader reads

    A file written as the format says is read packet by packet; a direction whose
    segments are the pieces of one byte string, in any order, repeated or cut short,
    comes out as that string without a gap, unless the sequence numbers wrap. *)

Import pcap.

(** ** The file format *)

Record Packet := mkPacket { stamp : bytes; original : bytes; frame : bytes }.

Definition u32_bytes (big_endian : bool) (x : Z) : bytes := if big_endian then to_be 4 x else to_le 4 x.

Definition record_bytes (be : bool) (p : Packet) : bytes :=
  stamp p ++ u32_bytes be (len (frame p)) ++ original p ++ frame p.

(** A file; [middle] is the version, the time zone, the accuracy and the snapshot
    length, which are not looked at. *)
Definition pcap_file (be : bool) (middle : bytes) (ps : list Packet) : bytes :=
  to_le 4 (if be then MAGIC_BE else MAGIC_LE) ++ middle ++ u32_bytes be LINKTYPE_ETHERNET ++ concat (map (record_bytes be) ps).

Definition packet_ok (p : Packet) : Prop := len (stamp p) = 8 /\ len (original p) = 4 /\ len (frame p) < 2 ^ 32.

Definition collect_all (c : btree.tree Ports Segments) (frames : list bytes) : btree.tree Ports Segments :=
  foldl (fun c f => collect_frame f c) c frames.

Lemma len_u32_bytes be x : len (u32_bytes be x) = 4.
Proof. destruct be; unfold u32_bytes; llia. Qed.

Lemma u32_at_bytes be x : 0 <= x < 2 ^ 32 -> u32_at be (u32_bytes be x) = x.
Proof. intros Hx. destruct be; unfold u32_at, u32_bytes; [apply of_to_be_small|apply of_to_le_small]; done. Qed.

Lemma read_records_all be ps : Forall packet_ok ps -> forall pre fuel c n, (length ps <= fuel)%nat ->
  read_records fuel be (pre ++ concat (map (record_bytes be) ps)) (len pre) c n
  = Ok (collect_all c (map frame ps), n + len ps).
Proof.
  induction 1 as [|p ps (Hs & Ho & Hf) _ IH]; intros pre fuel c n Hfuel.
  - destruct fuel; cbn [map concat read_records]; rewrite app_nil_r, Z.leb_refl; by replace (n + len []) with n by llia.
  - destruct fuel as [|fuel]; [simpl in Hfuel; lia|]. cbn [map concat read_records].
    pose proof (len_u32_bytes be (len (frame p))) as Hu.
    rewrite (proj2 (Z.leb_gt _ _)) by (unfold record_bytes; llia).
    set (rest := concat (map (record_bytes be) ps)) in *.
    set (head := stamp p ++ u32_bytes be (len (frame p)) ++ original p).
    replace (record_bytes be p ++ rest) with (head ++ frame p ++ rest)
      by (subst head; unfold record_bytes; by rewrite <- !app_assoc).
    rewrite get_range_mid by (subst head; llia). cbn [ok_or rbind]. unfold slice. cbn [fst snd]. subst head.
    rewrite get_range_mid by llia. cbn [or_panic rbind]. rewrite u32_at_bytes by llia.
    set (head := stamp p ++ u32_bytes be (len (frame p)) ++ original p) in *.
    assert (len head = 16) as Hh by (subst head; llia).
    rewrite (app_assoc pre head), get_range_mid by llia. cbn [ok_or rbind].
    rewrite app_assoc. replace (len pre + 16 + len (frame p)) with (len ((pre ++ head) ++ frame p)) by llia.
    rewrite IH by (simpl in Hfuel; lia). cbn [foldl]. f_equal. f_equal. llia.
Qed.

Lemma length_records be ps : (length ps <= length (concat (map (record_bytes be) ps)))%nat \/ Exists (fun p => ~ packet_ok p) ps.
Proof.
  induction ps as [|p ps [IH|IH]]; [left; simpl; lia| |right; by right].
  destruct (decide (len (stamp p) = 8)) as [Hs|Hs]; [|right; left; unfold packet_ok; tauto].
  left. cbn [map concat]. rewrite length_app. unfold record_bytes at 1. rewrite length_app. unfold len in Hs. simpl. lia.
Qed.

Lemma parse_file be middle ps : len middle = 16 -> Forall packet_ok ps ->
  parse (pcap_file be middle ps) = Ok (mkCapture (streams_of (collect_all [] (map frame ps))) (len ps)).
Proof.
  intros Hm Hps. unfold parse, pcap_file.
  set (magic := to_le 4 _). set (link := u32_bytes be LINKTYPE_ETHERNET). set (recs := concat _).
  assert (len magic = 4) as Hmg by (subst magic; llia). assert (len link = 4) as Hl by apply len_u32_bytes.
  replace (magic ++ middle ++ link ++ recs) with ((magic ++ middle ++ link) ++ recs) by (by rewrite <- !app_assoc).
  rewrite get_range_front by llia. cbn [ok_or rbind]. unfold slice. cbn [fst snd].
  rewrite get_range_front by done. cbn [or_panic rbind].
  assert (Hbe : (if of_le magic =? MAGIC_LE then Ok (E := Error) false
     else if of_le magic =? MAGIC_BE then Ok true else Err NotAPcap) = Ok be) by (subst magic; by destruct be).
  rewrite Hbe. cbn [rbind].
  replace (magic ++ middle ++ link) with ((magic ++ middle) ++ link ++ []) by (by rewrite app_nil_r, <- app_assoc).
  rewrite get_range_mid by llia. cbn [or_panic rbind]. subst link. rewrite u32_at_bytes by (unfold LINKTYPE_ETHERNET; lia).
  cbn [negb Z.eqb LINKTYPE_ETHERNET Pos.eqb]. rewrite app_nil_r.
  set (pre := (magic ++ middle) ++ u32_bytes be LINKTYPE_ETHERNET).
  replace 24 with (len pre) by (subst pre; llia). subst recs. rewrite read_records_all; [done|done|].
  destruct (length_records be ps) as [H|H]; [rewrite length_app; lia|].
  apply Exists_exists in H as (p & Hin & Hp). rewrite Forall_forall in Hps. by destruct Hp; apply Hps.
Qed.

(** ** What is collected *)

(** The segments of one direction that the frames carry, in file order. *)
Definition segment_of (ports : Ports) (f : bytes) : option (Z * bytes) :=
  match tcp_payload f with
  | Some (p, seq, payload) => if bool_decide (p = ports) && negb (len payload =? 0) then Some (seq, payload) else None
  | None => None
  end.
Definition segments_of (ports : Ports) (frames : list bytes) : list (Z * bytes) := omap (segment_of ports) frames.

Definition add_all (e : option Segments) (l : list (Z * bytes)) : option Segments :=
  foldl (fun e '(seq, payload) => Some (add_segment seq payload e)) e l.

Lemma add_all_cons e seq payload l : add_all e ((seq, payload) :: l) = add_all (Some (add_segment seq payload e)) l.
Proof. done. Qed.

Lemma ordered_collect_frame f c : btree.ordered c -> btree.ordered (collect_frame f c).
Proof.
  intros Hc. unfold collect_frame. destruct (tcp_payload f) as [[[ports seq] payload]|]; [|done].
  case_if; [done|]. by apply btree.ordered_upsert.
Qed.

Lemma ordered_collect_all frames c : btree.ordered c -> btree.ordered (collect_all c frames).
Proof. revert c. induction frames as [|f frames IH]; intros c Hc; [done|]. by apply IH, ordered_collect_frame. Qed.

Lemma lookup_collect_frame ports f c : btree.ordered c ->
  btree.lookup ports (collect_frame f c)
  = match segment_of ports f with Some (seq, payload) => Some (add_segment seq payload (btree.lookup ports c)) | None => btree.lookup ports c end.
Proof.
  intros Hc. unfold collect_frame, segment_of. destruct (tcp_payload f) as [[[p seq] payload]|]; [|done].
  destruct (len payload =? 0) eqn:E; [by rewrite andb_false_r|]. rewrite andb_true_r.
  case_bool_decide as Hp; [subst p; apply btree.lookup_upsert_eq|]. by apply btree.lookup_upsert_ne.
Qed.

Lemma lookup_collect_all ports frames c : btree.ordered c ->
  btree.lookup ports (collect_all c frames) = add_all (btree.lookup ports c) (segments_of ports frames).
Proof.
  revert c. induction frames as [|f frames IH]; intros c Hc; [done|]. cbn [collect_all foldl].
  change (foldl (fun c f => collect_frame f c) (collect_frame f c) frames) with (collect_all (collect_frame f c) frames).
  rewrite IH by (by apply ordered_collect_frame). rewrite lookup_collect_frame by done.
  unfold segments_of. cbn [omap list_omap]. by destruct (segment_of ports f) as [[seq payload]|].
Qed.

(** The map of one direction's segments, and their number. *)
Definition gathered (l : list (Z * bytes)) : btree.tree Z bytes :=
  foldl (fun m '(seq, payload) => btree.upsert seq (longer payload) m) [] l.

Lemma add_all_some l m n :
  add_all (Some (m, n)) l = Some (foldl (fun m '(seq, payload) => btree.upsert seq (longer payload) m) m l, n + len l).
Proof.
  revert m n. induction l as [|[seq payload] l IH]; intros m n.
  - unfold add_all. cbn [foldl]. f_equal. f_equal. llia.
  - rewrite add_all_cons. change (add_segment seq payload (Some (m, n))) with (btree.upsert seq (longer payload) m, n + 1).
    rewrite IH. cbn [foldl]. f_equal. f_equal. llia.
Qed.

Lemma add_all_gathered l : l <> [] -> add_all None l = Some (gathered l, len l).
Proof.
  destruct l as [|[seq payload] l]; [done|]. intros _. rewrite add_all_cons.
  change (add_segment seq payload None) with (btree.upsert seq (longer payload) [], 1). rewrite add_all_some. unfold gathered. cbn [foldl]. f_equal. f_equal. llia.
Qed.

Lemma streams_lookup c ports : btree.ordered c ->
  btree.lookup ports (streams_of c) = option_map stream_of (btree.lookup ports c).
Proof.
  intros Hc. unfold streams_of. rewrite btree.collect_ordered by (by apply btree.ordered_map). apply btree.lookup_map.
Qed.

(** ** Joining the pieces of a byte string *)

(** The pieces, each with the sequence number of its first byte. *)
Fixpoint laid (start : Z) (pieces : list bytes) : list (Z * bytes) :=
  match pieces with
  | [] => []
  | p :: pieces => (start, p) :: laid (start + len p) pieces
  end.

Lemma laid_from start pieces x : In x (map fst (laid start pieces)) -> start <= x.
Proof. revert start. induction pieces as [|p pieces IH]; intros start; [done|]. cbn [laid map fst In]. intros [<-|H%IH]; llia. Qed.

Lemma ordered_laid start pieces : Forall (fun p => p <> []) pieces -> btree.ordered (laid start pieces).
Proof.
  unfold btree.ordered. intros Hp. revert start. induction Hp as [|p pieces Hp _ IH]; intros start; cbn [laid map fst]; constructor; [done|].
  apply Forall_forall. intros x Hx%list_elem_of_In%laid_from. apply Z.ltb_lt.
  destruct p; [done|]. llia.
Qed.

Lemma ordered_gathered l : btree.ordered (gathered l).
Proof.
  unfold gathered. assert (btree.ordered (@nil (Z * bytes))) as Ho by constructor. revert Ho.
  generalize (@nil (Z * bytes)). induction l as [|[seq p] l IH]; intros m Hm; [done|]. by apply IH, btree.ordered_upsert.
Qed.

(** The payload kept for one sequence number. *)
Definition kept (k : Z) (e : option bytes) (l : list (Z * bytes)) : option bytes :=
  foldl (fun e '(seq, p) => if seq =? k then Some (longer p e) else e) e l.

Lemma kept_cons k e seq p l : kept k e ((seq, p) :: l) = kept k (if seq =? k then Some (longer p e) else e) l.
Proof. done. Qed.

Lemma lookup_gathered k l : btree.lookup k (gathered l) = kept k None l.
Proof.
  unfold gathered. assert (btree.ordered (@nil (Z * bytes))) as Ho by constructor. revert Ho.
  change (@None bytes) with (btree.lookup k (@nil (Z * bytes))). generalize (@nil (Z * bytes)).
  induction l as [|[seq p] l IH]; intros m Hm; [done|]. cbn [foldl]. rewrite IH by (by apply btree.ordered_upsert).
  rewrite kept_cons. f_equal. destruct (seq =? k) eqn:E; bool_hyps.
  - subst seq. apply btree.lookup_upsert_eq.
  - apply btree.lookup_upsert_ne; [done|lia].
Qed.

Lemma longer_full q e : from_option (fun p => p `prefix_of` q) True e -> longer q e = q.
Proof.
  intros He. unfold longer. case_if; [done|]. bool_hyps. destruct e as [p|]; cbn [from_option id] in *; unfold id in *.
  - destruct He as [r ->]. assert (r = []) as -> by (apply len_zero_nil; llia). by rewrite app_nil_r.
  - destruct q; [done|]. exfalso. llia.
Qed.

Lemma longer_prefix p q : p `prefix_of` q -> longer p (Some q) = q.
Proof. intros [r ->]. unfold longer. cbn [from_option]. unfold id. rewrite (proj2 (Z.ltb_ge _ _)); [done|]. llia. Qed.

Lemma kept_full k q l : (forall p, In (k, p) l -> p `prefix_of` q) -> forall e,
  e = Some q \/ from_option (fun p => p `prefix_of` q) True e /\ In (k, q) l -> kept k e l = Some q.
Proof.
  induction l as [|[seq p] l IH]; intros Hp e He.
  - by destruct He as [->|[_ []]].
  - rewrite kept_cons. apply IH; [intros; apply Hp; by right|].
    destruct (seq =? k) eqn:E; bool_hyps; [subst seq|].
    + assert (p `prefix_of` q) as Hpq by (apply Hp; by left).
      destruct He as [->|[He [[= ->]|Hin]]]; [left; by rewrite longer_prefix|left; by rewrite longer_full|].
      right. split; [|done]. cbn [from_option]. unfold longer. case_if; [done|]. destruct e; [done|]. cbn. by apply prefix_nil.
    + destruct He as [->|[He [[= -> ->]|Hin]]]; [by left|lia|by right].
Qed.

Lemma kept_none k l e : (forall p, ~ In (k, p) l) -> kept k e l = e.
Proof.
  revert e. induction l as [|[seq p] l IH]; intros e Hn; [done|]. rewrite kept_cons. destruct (seq =? k) eqn:E; bool_hyps.
  - subst. by destruct (Hn p); left.
  - apply IH. intros q Hq. apply (Hn q). by right.
Qed.

(** Segments that are the pieces, in any order, repeated or cut short at the end,
    are gathered as the pieces. *)
Lemma gathered_laid start pieces l : Forall (fun p => p <> []) pieces ->
  Forall (fun '(seq, p) => exists q, In (seq, q) (laid start pieces) /\ p `prefix_of` q) l ->
  Forall (fun x => In x l) (laid start pieces) ->
  gathered l = laid start pieces.
Proof.
  intros Hne Hl Hall. pose proof (ordered_laid start pieces Hne) as Ho. rewrite Forall_forall in Hl, Hall.
  apply btree.tree_ext; [apply ordered_gathered|done|]. intros k. rewrite lookup_gathered.
  destruct (btree.lookup k (laid start pieces)) as [q|] eqn:E.
  - apply btree.lookup_Some_in in E as Hin. apply kept_full.
    + intros p Hp. destruct (Hl (k, p)) as (q' & Hq' & Hpre); [by apply list_elem_of_In|].
      apply btree.lookup_in in Hq'; [|done]. congruence.
    + right. split; [done|]. apply Hall. by apply list_elem_of_In.
  - apply kept_none. intros p Hp. destruct (Hl (k, p)) as (q' & Hq' & _); [by apply list_elem_of_In|].
    apply btree.lookup_in in Hq'; [congruence|done].
Qed.

Lemma join_laid start pieces b g n e : 0 <= start -> start + len (concat pieces) <= 2 ^ 32 -> Forall (fun p => p <> []) pieces ->
  (e = None \/ e = Some (wrap 32 start)) ->
  join (laid start pieces) e (mkStream b g n) = mkStream (b ++ concat pieces) g n.
Proof.
  intros Hs Hb Hp. revert start b e Hs Hb. induction Hp as [|p pieces Hp _ IH]; intros start b e Hs Hb He.
  - cbn [laid join concat]. by rewrite app_nil_r.
  - cbn [laid join concat] in *. rewrite app_assoc. rewrite len_app in Hb.
    assert (0 < len p) by (destruct p; [done|llia]). nonneg_lens.
    assert ((match e with Some want => if start =? want then mkStream b g n
      else mkStream b (g ++ [(len b, wrap 32 (start - want))]) n | None => mkStream b g n end) = mkStream b g n) as Hst.
    { destruct He as [->| ->]; [done|]. unfold wrap. by rewrite Z.mod_small, Z.eqb_refl by lia. }
    cbn [bytes_ gaps segments]. rewrite Hst. cbn [bytes_ gaps segments].
    rewrite IH; [done|lia|lia|]. right. f_equal. unfold wrap. by rewrite Zplus_mod_idemp_r.
Qed.

Lemma stream_laid start pieces n : 0 <= start -> start + len (concat pieces) <= 2 ^ 32 -> Forall (fun p => p <> []) pieces ->
  stream_of (laid start pieces, n) = mkStream (concat pieces) [] n.
Proof. intros. unfold stream_of. cbn [fst snd]. rewrite join_laid by auto. done. Qed.

(** ** A frame *)

(** A TCP segment in an IPv4 packet in an Ethernet frame: the fields the reader does
    not look at, the options of both headers, and what Ethernet padded. *)
Record Wrapping := mkWrapping {
  addresses : bytes; ip_a : bytes; ip_b : bytes; ip_c : bytes; ip_options : bytes;
  tcp_a : bytes; tcp_low : Z; tcp_b : bytes; tcp_options : bytes; padding : bytes }.

Definition wrapping_ok (w : Wrapping) : Prop :=
  len (addresses w) = 12 /\ len (ip_a w) = 1 /\ len (ip_b w) = 5 /\ len (ip_c w) = 10 /\
  len (tcp_a w) = 4 /\ 0 <= tcp_low w < 16 /\ len (tcp_b w) = 7 /\
  (exists i, len (ip_options w) = 4 * i /\ 0 <= i <= 10) /\ (exists t, len (tcp_options w) = 4 * t /\ 0 <= t <= 10).

Definition tcp_frame (w : Wrapping) (src dst seq : Z) (payload : bytes) : bytes :=
  let ihl := 20 + len (ip_options w) in
  let data_offset := 20 + len (tcp_options w) in
  addresses w ++ to_be 2 ETHERTYPE_IPV4 ++
  ((0x40 + ihl / 4) :: ip_a w ++ to_be 2 (ihl + data_offset + len payload) ++ ip_b w ++ 6 :: ip_c w ++ ip_options w ++
   (to_be 2 src ++ to_be 2 dst ++ to_be 4 seq ++ tcp_a w ++ (16 * (data_offset / 4) + tcp_low w) :: tcp_b w ++ tcp_options w ++ payload) ++
   padding w).

Lemma first_byte i : 0 <= i <= 10 -> Z.shiftr (0x40 + (20 + 4 * i) / 4) 4 = 4 /\ Z.land (0x40 + (20 + 4 * i) / 4) 0x0f * 4 = 20 + 4 * i.
Proof.
  intros Hi. replace (20 + 4 * i) with ((5 + i) * 4) by ring. rewrite Z.div_mul by lia.
  assert (i = 0 \/ i = 1 \/ i = 2 \/ i = 3 \/ i = 4 \/ i = 5 \/ i = 6 \/ i = 7 \/ i = 8 \/ i = 9 \/ i = 10) as Hc by lia.
  by repeat destruct Hc as [->|Hc]; [..|subst i].
Qed.

Lemma offset_byte t low : 0 <= t -> 0 <= low < 16 -> Z.shiftr (16 * ((20 + 4 * t) / 4) + low) 4 * 4 = 20 + 4 * t.
Proof.
  intros Ht Hl. replace (20 + 4 * t) with ((5 + t) * 4) by ring. rewrite Z.div_mul, Z.shiftr_div_pow2 by lia.
  change (2 ^ 4) with 16. rewrite (Z.mul_comm 16), Z.div_add_l by lia. rewrite (Z.div_small low) by lia. lia.
Qed.

Lemma tcp_payload_frame w src dst seq payload : wrapping_ok w -> is_u16 src -> is_u16 dst -> is_u32 seq ->
  40 + len (ip_options w) + len (tcp_options w) + len payload < 2 ^ 16 ->
  tcp_payload (tcp_frame w src dst seq payload) = Some ((src, dst), seq, payload).
Proof.
  intros (Ha & Hia & Hib & Hic & Hta & Hlow & Htb & (i & Hi & Hi') & (t & Ht & Ht')) Hsrc Hdst Hseq Htot.
  destruct (first_byte i Hi') as [Hf1 Hf2]. pose proof (offset_byte t (tcp_low w) (proj1 Ht') Hlow) as Ho.
  unfold tcp_payload, tcp_frame. rewrite Hi, Ht in *.
  set (first := 0x40 + _) in *. set (off := 16 * _ + _) in *. set (total := 20 + 4 * i + (20 + 4 * t) + len payload).
  set (tcp := to_be 2 src ++ _). assert (Htcp : len tcp = 20 + 4 * t + len payload) by (subst tcp; llia).
  set (ip := first :: _). rewrite get_range_mid by llia.
  rewrite of_to_be_small by (unfold ETHERTYPE_IPV4; lia). rewrite Z.eqb_refl. cbn [negb].
  unfold get_from. rewrite app_assoc, get_range_back by llia.
  change (get_at 0 ip) with (Some first). cbv beta iota. rewrite Hf1, Hf2, Z.eqb_refl. cbn [negb].
  rewrite (proj2 (Z.ltb_ge _ _)) by lia.
  set (front := first :: ip_a w ++ to_be 2 total ++ ip_b w ++ 6 :: ip_c w ++ ip_options w).
  assert (Hfront : len front = 20 + 4 * i) by (subst front; llia).
  assert (Hip : ip = (front ++ tcp) ++ padding w) by (subst ip front; by simplify_list_eq).
  assert (get_at 9 ip = Some 6) as ->.
  { replace ip with ((first :: ip_a w ++ to_be 2 total ++ ip_b w) ++ 6 :: ip_c w ++ ip_options w ++ tcp ++ padding w)
      by (subst ip; cbn [app]; by rewrite <- !app_assoc).
    apply get_at_mid. llia. }
  rewrite Z.eqb_refl. cbn [negb].
  assert (get_range 2 4 ip = Some (to_be 2 total)) as ->.
  { subst ip. change (first :: ?x) with ([first] ++ x). rewrite app_assoc. apply get_range_mid; llia. }
  rewrite of_to_be_small by (subst total; change (256 ^ Z.of_nat 2) with (2 ^ 16); llia).
  rewrite Hip, Z.min_l by (subst total; llia). rewrite get_range_front by (subst total; llia).
  rewrite get_range_back by llia. subst tcp.
  rewrite get_range_front by llia. rewrite get_range_mid by llia. rewrite (app_assoc (to_be 2 src)), get_range_mid by llia.
  set (head := (to_be 2 src ++ to_be 2 dst) ++ to_be 4 seq ++ tcp_a w).
  replace ((to_be 2 src ++ to_be 2 dst) ++ to_be 4 seq ++ tcp_a w ++ off :: tcp_b w ++ tcp_options w ++ payload)
    with (head ++ off :: tcp_b w ++ tcp_options w ++ payload) by (subst head; by rewrite <- !app_assoc).
  rewrite get_at_mid by (subst head; llia). rewrite Ho, (proj2 (Z.ltb_ge _ _)) by lia.
  replace (head ++ off :: tcp_b w ++ tcp_options w ++ payload) with ((head ++ off :: tcp_b w ++ tcp_options w) ++ payload)
    by (rewrite <- !app_assoc; cbn [app]; by rewrite <- !app_assoc).
  rewrite get_range_back by (subst head; llia). by rewrite !of_to_be_small.
Qed.

(** ** Directions of a capture *)

(** What a frame of the capture says about one direction: a segment of it, or
    nothing, being empty, another direction's, another protocol's, or not IPv4 at
    all. *)
Inductive carries (src dst : Z) : bytes -> option (Z * bytes) -> Prop :=
| carries_segment w seq payload :
    wrapping_ok w -> is_u32 seq -> 40 + len (ip_options w) + len (tcp_options w) + len payload < 2 ^ 16 -> payload <> [] ->
    carries src dst (tcp_frame w src dst seq payload) (Some (seq, payload))
| carries_empty w seq :
    wrapping_ok w -> is_u32 seq -> carries src dst (tcp_frame w src dst seq []) None
| carries_other w src' dst' seq payload :
    wrapping_ok w -> is_u16 src' -> is_u16 dst' -> is_u32 seq ->
    40 + len (ip_options w) + len (tcp_options w) + len payload < 2 ^ 16 -> (src', dst') <> (src, dst) ->
    carries src dst (tcp_frame w src' dst' seq payload) None
| carries_protocol a first front protocol rest :
    len a = 12 -> len front = 8 -> protocol <> 6 ->
    carries src dst (a ++ to_be 2 ETHERTYPE_IPV4 ++ first :: front ++ protocol :: rest) None
| carries_foreign a ethertype rest :
    len a = 12 -> is_u16 ethertype -> ethertype <> ETHERTYPE_IPV4 -> carries src dst (a ++ to_be 2 ethertype ++ rest) None.

Lemma carries_read src dst f s : is_u16 src -> is_u16 dst -> carries src dst f s -> segment_of (src, dst) f = s.
Proof.
  intros Hs Hd [w seq payload Hw Hq Ht Hp|w seq Hw Hq|w src' dst' seq payload Hw Hs' Hd' Hq Ht Hne
    |a first front protocol rest Ha Hfr Hne|a et rest Ha He Hne]; unfold segment_of.
  - rewrite tcp_payload_frame by done. rewrite bool_decide_eq_true_2 by done.
    rewrite (proj2 (Z.eqb_neq _ _)); [done|]. destruct payload; [done|llia].
  - rewrite tcp_payload_frame; [by rewrite andb_false_r|done..|].
    destruct Hw as (_ & _ & _ & _ & _ & _ & _ & (i & Hi & ?) & (t & Ht & ?)). rewrite Hi, Ht. llia.
  - rewrite tcp_payload_frame by done. by rewrite bool_decide_eq_false_2.
  - unfold tcp_payload. rewrite get_range_mid by llia. rewrite of_to_be_small by (unfold ETHERTYPE_IPV4; lia).
    cbn [Z.eqb negb]. rewrite Z.eqb_refl. cbn [negb]. unfold get_from. rewrite app_assoc, get_range_back by llia.
    change (get_at 0 (first :: front ++ protocol :: rest)) with (Some first). cbv beta iota. case_if; [done|]. case_if; [done|].
    change (first :: front ++ protocol :: rest) with ((first :: front) ++ protocol :: rest).
    rewrite get_at_mid by llia. by rewrite (proj2 (Z.eqb_neq _ _)).
  - unfold tcp_payload. rewrite get_range_mid by llia. rewrite of_to_be_small by done. by rewrite (proj2 (Z.eqb_neq _ _)).
Qed.

Lemma carries_all src dst fs ss : is_u16 src -> is_u16 dst -> Forall2 (carries src dst) fs ss ->
  segments_of (src, dst) fs = omap id ss.
Proof.
  intros Hs Hd. unfold segments_of. induction 1 as [|f s fs ss Hf _ IH]; [done|]. cbn [omap list_omap].
  rewrite (carries_read src dst f s) by done. unfold id at 1. rewrite IH. by destruct s.
Qed.

Lemma stream_gathered be middle ps src dst ss : len middle = 16 -> Forall packet_ok ps -> is_u16 src -> is_u16 dst ->
  Forall2 (carries src dst) (map frame ps) ss -> omap id ss <> [] -> exists c,
  parse (pcap_file be middle ps) = Ok c /\ packets c = len ps /\
  stream c src dst = Some (stream_of (gathered (omap id ss), len (omap id ss))).
Proof.
  intros Hm Hps Hsrc Hdst Hc Hne. eexists. rewrite parse_file by done. split_and!; [done|done|].
  unfold stream. cbn [streams]. assert (btree.ordered (@nil (Ports * Segments))) as Hnil by constructor.
  rewrite streams_lookup by (by apply ordered_collect_all). rewrite lookup_collect_all by done.
  rewrite (carries_all src dst _ ss) by done. cbn [btree.lookup]. by rewrite add_all_gathered.
Qed.

(** C31: Reading a capture file, of either byte order, gives for a TCP direction the
    byte string its segments were cut from, without a gap and with the number of
    segments that carried it, whatever frames of other directions and protocols and
    whatever empty segments the file holds besides.  The segments may come in any order
    and with any options and padding; every piece of the string is there whole at least
    once, any other segment is a piece or a front part of one, and the sequence numbers
    of the direction do not wrap. *)
Theorem capture_reassembled be middle ps src dst ss start pieces :
  len middle = 16 -> Forall packet_ok ps -> is_u16 src -> is_u16 dst ->
  Forall2 (carries src dst) (map frame ps) ss ->
  pieces <> [] -> Forall (fun p => p <> []) pieces -> 0 <= start -> start + len (concat pieces) <= 2 ^ 32 ->
  Forall (fun '(seq, p) => exists q, In (seq, q) (laid start pieces) /\ p `prefix_of` q) (omap id ss) ->
  Forall (fun x => In x (omap id ss)) (laid start pieces) ->
  exists c, parse (pcap_file be middle ps) = Ok c /\ packets c = len ps /\
    stream c src dst = Some (mkStream (concat pieces) [] (len (omap id ss))).
Proof.
  intros Hm Hps Hsrc Hdst Hc Hp Hpne Hs Hb Hl Hall.
  destruct (stream_gathered be middle ps src dst ss) as (c & H1 & H2 & H3); [done..| |].
  { destruct pieces as [|p pieces]; [done|]. cbn [laid] in Hall. inversion Hall as [|?? Hin]; subst. by destruct (omap id ss). }
  exists c. split_and!; [done|done|]. by rewrite H3, (gathered_laid start pieces), stream_laid.
Qed.

(** A call that returns a value or an error of its own. *)
Definition returns {E A} (r : res E A) : Prop := match r with Ok _ | Err _ => True | Panic | Hang => False end.

Lemma read_records_total be b fuel offset c n : 0 <= offset -> len b - offset <= Z.of_nat fuel ->
  returns (read_records fuel be b offset c n).
Proof.
  revert offset c n. induction fuel as [|fuel IH]; intros offset c n Ho Hf; cbn [read_records]; (case_if; [done|]); [bool_hyps; lia|].
  destruct (get_range offset (offset + 16) b) as [r|] eqn:Er; [|done]. cbn [ok_or rbind].
  apply get_range_Some in Er as (_ & Hend & Hr). assert (len r = 16) as Hl by (subst r; rewrite len_sub_range; lia).
  unfold slice. cbn [fst snd]. rewrite get_range_in by lia. cbn [or_panic rbind].
  destruct (get_range (offset + 16) _ b) as [frame|] eqn:Eg; [|done]. cbn [ok_or rbind].
  apply get_range_Some in Eg as (Hg & _ & _). apply IH; lia.
Qed.

(** No file makes the reader panic or run for ever. *)
Theorem parse_total b : returns (parse b).
Proof.
  unfold parse. destruct (get_range 0 24 b) as [h|] eqn:Eh; [|done]. cbn [ok_or rbind].
  apply get_range_Some in Eh as (_ & Hb & Hh). assert (len h = 24) as Hl by (subst h; rewrite len_sub_range; lia).
  unfold slice. cbn [fst snd]. rewrite !get_range_in by lia. cbn [or_panic rbind].
  assert (forall be, returns (let! '(collected, n) := read_records (length b) be b 24 [] 0 in
    Ok (E := Error) (mkCapture (streams_of collected) n))) as Hr.
  { intros be. pose proof (read_records_total be b (length b) 24 [] 0 ltac:(lia) ltac:(unfold len; lia)) as Ht.
    by destruct (read_records _ _ _ _ _ _) as [[? ?]| | |]. }
  destruct (of_le _ =? MAGIC_LE); [|destruct (of_le _ =? MAGIC_BE)]; cbn [rbind]; [| |done]; (case_if; [done|apply Hr]).
Qed.

(** A direction whose sequence numbers wrap comes out with its end first, and a gap
    reported where nothing is missing. *)
Theorem wrapped_stream_misjoined be middle ps src dst p q :
  len middle = 16 -> Forall packet_ok ps -> is_u16 src -> is_u16 dst -> p <> [] -> q <> [] -> len p + len q < 2 ^ 32 ->
  Forall2 (carries src dst) (map frame ps) [Some (2 ^ 32 - len p, p); Some (0, q)] ->
  exists c, parse (pcap_file be middle ps) = Ok c /\
    stream c src dst = Some (mkStream (q ++ p) [(len q, 2 ^ 32 - len p - len q)] 2).
Proof.
  intros Hm Hps Hsrc Hdst Hp Hq Hlen Hc.
  destruct (stream_gathered be middle ps src dst _ Hm Hps Hsrc Hdst Hc) as (c & H1 & _ & H3); [done|].
  exists c. split; [done|]. rewrite H3. f_equal.
  assert (0 < len p) by (destruct p; [done|llia]). assert (0 < len q) by (destruct q; [done|llia]).
  cbn [omap list_omap id gathered foldl btree.upsert]. unfold key_ltb, Z_order.
  rewrite (proj2 (Z.ltb_lt _ _)) by lia. unfold stream_of. cbn [fst snd join].
  assert (forall l : bytes, l <> [] -> longer l None = l) as Hlonger.
  { intros [|x l] Hx; [done|]. unfold longer. cbn [from_option]. by rewrite (proj2 (Z.ltb_lt _ _)) by llia. }
  rewrite !Hlonger by done. cbn [bytes_ gaps segments app]. unfold wrap.
  rewrite Z.add_0_l, Z.mod_mod, (Z.mod_small (len q)), (proj2 (Z.eqb_neq _ _)) by lia. cbn [bytes_ gaps segments app].
  rewrite (Z.mod_small (2 ^ 32 - len p - len q)) by lia. done.
Qed.

(** ** A capture *)

Module PcapDemo.

Definition wrapping : Wrapping :=
  mkWrapping (zeros 12) (zeros 1) (zeros 5) (zeros 10) [] (zeros 4) 0 (zeros 7) [1; 1; 1; 0] (zeros 3).
Definition packet (seq : Z) (payload : bytes) : Packet := mkPacket (zeros 8) (zeros 4) (tcp_frame wrapping 1111 2222 seq payload).
Definition hello : bytes := [104; 101; 108; 108; 111].
Definition world : bytes := [119; 111; 114; 108; 100].

(** The second half first, then the first half cut short, whole, and the second again. *)
Definition packets_ : list Packet := [packet 1000 world; packet 995 [104; 101]; packet 995 hello; packet 1000 world].
Definition found : list (option (Z * bytes)) :=
  [Some (1000, world); Some (995, [104; 101]); Some (995, hello); Some (1000, world)].

Lemma wrapping_fits : wrapping_ok wrapping.
Proof. unfold wrapping_ok. split_and!; try done; [by exists 0|by exists 1]. Qed.

Lemma found_carried : Forall2 (carries 1111 2222) (map frame packets_) found.
Proof. repeat constructor; try apply wrapping_fits; done. Qed.

Lemma capture_reassembled_witness : exists c,
  parse (pcap_file false (zeros 16) packets_) = Ok c /\ packets c = len packets_ /\
  stream c 1111 2222 = Some (mkStream (concat [hello; world]) [] (len (omap id found))).
Proof.
  apply (capture_reassembled false (zeros 16) packets_ 1111 2222 found 995 [hello; world]); try done.
  - repeat constructor.
  - exact found_carried.
  - repeat constructor; done.
  - apply Forall_forall. intros [seq p] Hin. cbn in Hin.
    repeat (apply elem_of_cons in Hin as [[= -> ->]|Hin]); [| | | |by apply elem_of_nil in Hin];
      [exists world|exists hello|exists hello|exists world]; (split; [cbn; tauto|]); first [by exists []|by exists [108; 108; 111]].
  - repeat constructor; cbn; tauto.
Defined.

(** The same halves across the end of the sequence space. *)
Definition wrapped_ : list Packet := [packet (2 ^ 32 - 5) hello; packet 0 world].

Lemma wrapped_stream_misjoined_witness : exists c,
  parse (pcap_file false (zeros 16) wrapped_) = Ok c /\
  stream c 1111 2222 = Some (mkStream (world ++ hello) [(5, 2 ^ 32 - 5 - 5)] 2).
Proof.
  apply (wrapped_stream_misjoined false (zeros 16) wrapped_ 1111 2222 hello world); try done.
  - repeat constructor.
  - repeat constructor; try apply wrapping_fits; done.
Defined.

End PcapDemo.
