(* ===== verification/Conformance.v ===== *)
(** * The conformance suite: reports and baselines

    The report of [crates/ts-conformance/src/lib.rs], the comparison with a recorded
    baseline of [baseline.rs] and the exit code of [main.rs].  Strings are their
    bytes.  JSON text is read and written by a library, which is a parameter here. *)

From Stdlib Require Import Strings.String.
From stdpp Require Import sorting countable.
From S2P Require Import Prelude NetAddr BTree.

(** What is used of [serde_json]'s documents. *)
Class JsonLib (V : Type) := {
  index : V -> bytes -> V;
  as_object : V -> option (btree.tree bytes V);
  as_str : V -> option bytes;
  of_str : bytes -> V;
  of_map : btree.tree bytes V -> V;
  to_text : V -> bytes;
  from_str : bytes -> option V }.

(** What the library documents of it. *)
Class JsonLibOk (V : Type) `{JsonLib V} := {
  as_str_of s : as_str (of_str s) = Some s;
  as_object_of m : btree.ordered m -> as_object (of_map m) = Some m;
  index_of m k v : btree.lookup k m = Some v -> index (of_map m) k = v;
  from_to_text v : from_str (to_text v) = Some v }.

Module conformance.

(** ** Reports *)

Inductive Target := HeadscaleLab | TailscaleSaas.

Definition target_text (t : Target) : bytes :=
  match t with HeadscaleLab => str "Headscale (local lab)" | TailscaleSaas => str "Tailscale (hosted)" end.

(** In the order of the declaration, which is the order they are sorted in. *)
Inductive Area := DataPlane | Keys | Control | Netmap | Derp | Disco | ExitNode | Transport.

Inductive Status :=
| Pass (detail : bytes)
| External (detail : bytes)
| Fail_ (detail : bytes)
| Todo (detail : bytes)
| Skip (detail : bytes).

Definition is_compatible (s : Status) : bool := match s with Pass _ | External _ => true | _ => false end.
Definition is_counted (s : Status) : bool := match s with Skip _ => false | _ => true end.
Definition is_failure (s : Status) : bool := match s with Fail_ _ => true | _ => false end.

Definition kind (s : Status) : bytes :=
  match s with
  | Pass _ => str "pass"
  | External _ => str "external"
  | Fail_ _ => str "fail"
  | Todo _ => str "todo"
  | Skip _ => str "skip"
  end.

Definition detail (s : Status) : bytes := match s with Pass d | External d | Fail_ d | Todo d | Skip d => d end.

Record Outcome := mkOutcome { id : bytes; area : Area; status : Status }.
Record Report := mkReport { target : Target; outcomes : list Outcome }.

(** One required behaviour: what it is and how it is judged. *)
Record Check_ (Env : Type) := mkCheck { check_id : bytes; check_area : Area; run_check : Env -> Status }.
Arguments mkCheck {Env}. Arguments check_id {Env}. Arguments check_area {Env}. Arguments run_check {Env}.

(** [Report::run] *)
Definition run {Env} (checks : list (Check_ Env)) (t : Target) (env : Env) : Report :=
  mkReport t (map (fun c => mkOutcome (check_id c) (check_area c) (run_check c env)) checks).

Definition count (f : Status -> bool) (r : Report) : Z := len (List.filter (fun o => f (status o)) (outcomes r)).
Definition compatible (r : Report) : Z := count is_compatible r.
Definition counted (r : Report) : Z := count is_counted r.
Definition failures (r : Report) : list Outcome := List.filter (fun o => is_failure (status o)) (outcomes r).

(** The statuses by check, as a report and a baseline record them. *)
Definition kinds (r : Report) : btree.tree bytes bytes := btree.collect (map (fun o => (id o, kind (status o))) (outcomes r)).

(** ** Baselines *)

Record Baseline := mkBaseline { checks : btree.tree bytes bytes; recorded_target : option bytes }.

Record Change := mkChange { changed_id : bytes; from_ : bytes; to_ : bytes; change_detail : bytes }.

Definition rank (k : bytes) : Z :=
  if bytes_eqb k (str "pass") || bytes_eqb k (str "external") then 3
  else if bytes_eqb k (str "todo") then 2
  else if bytes_eqb k (str "fail") then 1
  else 0.

Definition is_regression (c : Change) : bool := rank (to_ c) <? rank (from_ c).

Record Comparison := mkComparison {
  changed : list Change; missing : list bytes; unexpected : list bytes;
  baseline_target : option bytes; run_target : bytes }.

(** One entry of the baseline against the run. *)
Definition compare_entry (r : Report) (actual : btree.tree bytes bytes) (c : Comparison) (e : bytes * bytes) : Comparison :=
  let '(i, expected) := e in
  match btree.lookup i actual with
  | None => mkComparison (changed c) (missing c ++ [i]) (unexpected c) (baseline_target c) (run_target c)
  | Some got =>
      if bytes_eqb got expected then c else
      let d := match find (fun o => bytes_eqb (id o) i) (outcomes r) with Some o => detail (status o) | None => [] end in
      mkComparison (changed c ++ [mkChange i expected got d]) (missing c) (unexpected c) (baseline_target c) (run_target c)
  end.

Definition compare (b : Baseline) (r : Report) : Comparison :=
  let actual := kinds r in
  let c := foldl (compare_entry r actual) (mkComparison [] [] [] (recorded_target b) (target_text (target r))) (checks b) in
  mkComparison (changed c) (missing c)
    (unexpected c ++ List.filter (fun i => match btree.lookup i (checks b) with Some _ => false | None => true end) (map fst actual))
    (baseline_target c) (run_target c).

Definition agrees (c : Comparison) : bool :=
  match changed c, missing c, unexpected c with [], [], [] => true | _, _, _ => false end.

Definition target_mismatch (c : Comparison) : bool :=
  match baseline_target c with Some t => negb (bytes_eqb t (run_target c)) | None => false end.

(** ** Baselines as files *)

Inductive LoadError := NotJson | NoChecks | NotAString (id : bytes).

Section Files.
Context {V : Type} `{JsonLib V} (comment : bytes).

(** The loop that turns the entries of the object into strings. *)
Fixpoint load_checks (l : list (bytes * V)) : res LoadError (list (bytes * bytes)) :=
  match l with
  | [] => Ok []
  | (i, v) :: l =>
      let! s := ok_or (as_str v) (NotAString i) in
      let! rest := load_checks l in
      Ok ((i, s) :: rest)
  end.

(** [Baseline::load] of a file's text. *)
Definition load (text : bytes) : res LoadError Baseline :=
  let! document := ok_or (from_str text) NotJson in
  let! object := ok_or (as_object (index document (str "checks"))) NoChecks in
  let! l := load_checks object in
  Ok (mkBaseline (btree.collect l) (as_str (index document (str "target")))).

(** [Baseline::write]: the text of the file, up to the end of line. *)
Definition write (r : Report) : bytes :=
  to_text (of_map (btree.collect [
    (str "_comment", of_str comment);
    (str "target", of_str (target_text (target r)));
    (str "checks", of_map (btree.collect (map (fun o => (id o, of_str (kind (status o)))) (outcomes r))))])).

(** The exit code of [main.rs]: a baseline that was named decides, and without one
    the failures do. *)
Definition exit_code (expect : option bytes) (r : Report) : res LoadError Z :=
  match expect with
  | Some text => let! b := load text in Ok (if agrees (compare b r) then 0 else 1)
  | None => Ok (match failures r with [] => 0 | _ => 1 end)
  end.

End Files.
End conformance.

(** * What a baseline decides

    A comparison agrees exactly when the run has the recorded statuses and no others;
    a baseline written from one run is read back as it was written and accepts
    exactly the runs with the same statuses. *)

Import conformance.

Lemma collect_is_ordered {K V} `{KeyOrderOk K} (l : list (K * V)) : btree.ordered (btree.collect l).
Proof.
  unfold btree.collect. assert (btree.ordered (@nil (K * V))) as Ho by constructor. revert Ho. generalize (@nil (K * V)).
  induction l as [|[k v] l IH]; intros m Hm; [done|]. by apply IH, btree.ordered_upsert.
Qed.

Lemma insert_map {K V V'} `{KeyOrder K} (f : V -> V') k v m :
  btree.insert k (f v) (map (fun '(k, v) => (k, f v)) m) = map (fun '(k, v) => (k, f v)) (btree.insert k v m).
Proof.
  unfold btree.insert. induction m as [|[a w] m IH]; [done|]. cbn [map btree.upsert].
  destruct (key_ltb k a); [done|]. destruct (key_ltb a k); [|done]. cbn [map]. by rewrite IH.
Qed.

Lemma collect_map {K V V'} `{KeyOrder K} (f : V -> V') (l : list (K * V)) :
  btree.collect (map (fun '(k, v) => (k, f v)) l) = map (fun '(k, v) => (k, f v)) (btree.collect l).
Proof.
  unfold btree.collect. change (@nil (K * V')) with (map (fun '(k, v) => (k, f v)) (@nil (K * V))). generalize (@nil (K * V)).
  induction l as [|[k v] l IH]; intros m; [done|]. cbn [map foldl]. by rewrite insert_map, IH.
Qed.

Lemma ordered_kinds r : btree.ordered (kinds r).
Proof. apply collect_is_ordered. Qed.

(** ** Comparing *)

(** What the loop over the baseline leaves untouched, and when it adds nothing. *)
Lemma compare_entries r actual l c :
  let c' := foldl (compare_entry r actual) c l in
  unexpected c' = unexpected c /\ baseline_target c' = baseline_target c /\ run_target c' = run_target c /\
  (changed c' = [] /\ missing c' = [] <->
   changed c = [] /\ missing c = [] /\ Forall (fun '(i, k) => btree.lookup i actual = Some k) l).
Proof.
  revert c. induction l as [|[i k] l IH]; intros c; cbn zeta; cbn [foldl]; [rewrite Forall_nil; tauto|].
  destruct (IH (compare_entry r actual c (i, k))) as (H1 & H2 & H3 & H4). rewrite H1, H2, H3, H4, Forall_cons.
  unfold compare_entry. destruct (btree.lookup i actual) as [got|] eqn:E.
  - destruct (bytes_eqb got k) eqn:Eb.
    + apply bytes_eqb_true in Eb as ->. intuition (congruence || eauto).
    + cbn [changed missing unexpected baseline_target run_target]. split_and!; [done..|].
      split; [intros (Hc & _); by destruct (changed c)|]. intros (_ & _ & [= ->] & _). by rewrite bytes_eqb_refl in Eb.
  - cbn [changed missing unexpected baseline_target run_target]. split_and!; [done..|].
    split; [intros (_ & Hm & _); by destruct (missing c)|intuition (congruence || eauto)].
Qed.

Lemma filter_nil {A} (f : A -> bool) l : List.filter f l = [] <-> Forall (fun x => f x = false) l.
Proof.
  induction l as [|x l IH]; cbn [List.filter]; [by rewrite Forall_nil|]. rewrite Forall_cons.
  destruct (f x) eqn:E; [intuition (congruence || eauto)|]. rewrite IH. tauto.
Qed.

Lemma agrees_same b r : btree.ordered (checks b) -> agrees (compare b r) = true <-> checks b = kinds r.
Proof.
  intros Ho. unfold compare. pose proof (compare_entries r (kinds r) (checks b)
    (mkComparison [] [] [] (recorded_target b) (target_text (target r)))) as (H1 & _ & _ & H4). cbn zeta in *.
  set (c := foldl _ _ _) in *. cbn [changed missing unexpected] in *. unfold agrees. cbn [changed missing unexpected].
  rewrite H1. cbn [app]. set (extra := List.filter _ _).
  assert ((match changed c, missing c, extra with [], [], [] => true | _, _, _ => false end) = true <->
    (changed c = [] /\ missing c = []) /\ extra = []) as ->
    by (destruct (changed c), (missing c), extra; intuition (congruence || eauto)).
  rewrite H4. subst extra. rewrite filter_nil. pose proof (ordered_kinds r) as Hk. split.
  - intros [(_ & _ & Hall) Hex]. rewrite Forall_forall in Hall. rewrite Forall_forall in Hex. apply btree.tree_ext; [done..|]. intros i.
    destruct (btree.lookup i (checks b)) as [k|] eqn:E.
    + apply btree.lookup_Some_in, list_elem_of_In, Hall in E. done.
    + destruct (btree.lookup i (kinds r)) as [k|] eqn:E'; [|done].
      specialize (Hex i). rewrite E in Hex. discriminate Hex. apply list_elem_of_In, in_map_iff.
      exists (i, k). split; [done|]. by apply btree.lookup_Some_in.
  - intros Heq. rewrite <- Heq. split_and!; [done|done| |].
    + apply Forall_forall. intros [i k] Hin%list_elem_of_In. by apply btree.lookup_in.
    + apply Forall_forall. intros i Hin%list_elem_of_In. apply in_map_iff in Hin as ([j k] & <- & Hin). cbn [fst].
      by rewrite (btree.lookup_in j k).
Qed.

(** A check that no longer runs is never taken for one that passed: losing the
    measurement is reported as a regression. *)
Lemma compare_changed r actual l c x : x ∈ changed c -> x ∈ changed (foldl (compare_entry r actual) c l).
Proof.
  revert c. induction l as [|[i k] l IH]; intros c Hx; [done|]. apply IH. unfold compare_entry.
  destruct (btree.lookup i actual); [|done]. case_if; [done|]. cbn [changed]. set_solver.
Qed.

Theorem lost_measurement_is_regression b r i k : btree.ordered (checks b) ->
  btree.lookup i (checks b) = Some k -> 0 < rank k -> btree.lookup i (kinds r) = Some (str "skip") ->
  exists c, c ∈ changed (compare b r) /\ changed_id c = i /\ is_regression c = true.
Proof.
  intros Ho Hb Hk Hr. unfold compare. cbn [changed].
  apply btree.lookup_Some_in, in_split in Hb as (l1 & l2 & ->).
  rewrite foldl_app. cbn [foldl]. set (c := foldl _ _ l1). clearbody c. unfold compare_entry at 2. rewrite Hr.
  assert (bytes_eqb (str "skip") k = false) as ->.
  { destruct (bytes_eqb (str "skip") k) eqn:E; [|done]. apply bytes_eqb_true in E. subst k. vm_compute in Hk. discriminate. }
  eexists. split; [apply compare_changed; cbn [changed]; apply elem_of_app; right; left|]. split; [done|].
  unfold is_regression. cbn [to_ from_]. apply Z.ltb_lt. by change (rank (str "skip")) with 0.
Qed.

(** ** Files *)

Section Files.
Context {V : Type} `{JsonLibOk V} (comment : bytes).

Lemma load_checks_all (m : list (bytes * bytes)) : load_checks (map (fun '(i, k) => (i, of_str k)) m) = Ok m.
Proof. induction m as [|[i k] m IH]; [done|]. cbn [map load_checks]. rewrite as_str_of. cbn [ok_or rbind]. by rewrite IH. Qed.

Lemma load_written r : load (write comment r) = Ok (mkBaseline (kinds r) (Some (target_text (target r)))).
Proof.
  unfold load, write. rewrite from_to_text. cbn [ok_or rbind].
  replace (map (fun o => (id o, of_str (kind (status o)))) (outcomes r))
    with (map (fun '(i, k) => (i, of_str k)) (map (fun o => (id o, kind (status o))) (outcomes r)))
    by (rewrite map_map; by apply map_ext).
  rewrite collect_map. fold (kinds r). set (entries := map _ (kinds r)).
  set (doc := btree.collect _). assert (btree.ordered doc) as Hd by apply collect_is_ordered.
  rewrite (index_of doc (str "checks") (of_map entries)) by done.
  rewrite (index_of doc (str "target") (of_str (target_text (target r)))) by done.
  rewrite as_object_of by (apply btree.ordered_map, ordered_kinds). cbn [ok_or rbind].
  subst entries. rewrite load_checks_all. cbn [rbind]. by rewrite as_str_of, btree.collect_ordered by apply ordered_kinds.
Qed.

(** A baseline written from one run and named in another is read back, and the
    suite then exits with success exactly when the second run has the status of
    every check of the first, no check missing and none new; without a baseline it
    succeeds exactly when nothing failed, however much was skipped. *)
Theorem baseline_accepts_exactly r r' :
  exit_code (Some (write comment r)) r' = Ok (if bool_decide (kinds r' = kinds r) then 0 else 1) /\
  exit_code None r' = Ok (if forallb (fun o => negb (is_failure (status o))) (outcomes r') then 0 else 1).
Proof.
  split; unfold exit_code.
  - rewrite load_written. cbn [rbind]. set (b := mkBaseline _ _).
    pose proof (agrees_same b r' (ordered_kinds r)) as Ha. cbn [checks] in Ha. subst b. cbn [checks] in Ha.
    destruct (agrees _); case_bool_decide as Hk; try done; exfalso.
    + by apply Hk; symmetry; apply Ha.
    + by discriminate (proj2 Ha (eq_sym Hk)).
  - unfold failures. destruct (forallb _ (outcomes r')) eqn:E.
    + rewrite forallb_forall in E. assert (List.filter (fun o => is_failure (status o)) (outcomes r') = []) as ->; [|done].
      apply filter_nil, Forall_forall. intros o Ho%list_elem_of_In. specialize (E o Ho). by apply negb_true_iff.
    + destruct (List.filter _ _) eqn:Ef; [|done]. apply filter_nil in Ef. rewrite Forall_forall in Ef. exfalso.
      assert (forallb (fun o => negb (is_failure (status o))) (outcomes r') = true) as Ht; [|congruence].
      apply forallb_forall. intros o Ho. rewrite Ef; [done|]. by apply list_elem_of_In.
Qed.

End Files.

(** ** A library, and two runs *)

Module ConformanceDemo.
(** Documents as trees whose text is their number in an enumeration. *)
Abbreviation Doc := (gen_tree bytes).

Fixpoint pairs (l : list Doc) : list (bytes * Doc) :=
  match l with GenLeaf k :: v :: l => (k, v) :: pairs l | _ => [] end.
Fixpoint flat (m : list (bytes * Doc)) : list Doc :=
  match m with (k, v) :: m => GenLeaf k :: v :: flat m | [] => [] end.

Lemma pairs_flat m : pairs (flat m) = m.
Proof. induction m as [|[k v] m IH]; [done|]. cbn [flat pairs]. by rewrite IH. Qed.

Definition object (v : Doc) : option (btree.tree bytes Doc) := match v with GenNode _ l => Some (pairs l) | GenLeaf _ => None end.

#[export] Instance doc_lib : JsonLib Doc := {|
  index v k := default (GenLeaf []) (m ← object v; btree.lookup k m);
  as_object := object;
  as_str v := match v with GenLeaf s => Some s | GenNode _ _ => None end;
  of_str := GenLeaf;
  of_map m := GenNode 0 (flat m);
  to_text v := [Zpos (encode v)];
  from_str b := match b with [Zpos p] => decode p | _ => None end |}.

#[export] Instance doc_lib_ok : JsonLibOk Doc.
Proof.
  split.
  - done.
  - intros m _. cbn. by rewrite pairs_flat.
  - intros m k v Hl. cbn. by rewrite pairs_flat, Hl.
  - intros v. cbn. apply decode_encode.
Qed.

Definition first_run : Report := mkReport HeadscaleLab
  [mkOutcome (str "wg.replay") DataPlane (Pass []); mkOutcome (str "disco.ping") Disco (Fail_ (str "silent"))].
Definition second_run : Report := mkReport HeadscaleLab
  [mkOutcome (str "wg.replay") DataPlane (Skip (str "no lab")); mkOutcome (str "disco.ping") Disco (Skip [])].

(** The second run measured nothing: it would pass, and the baseline refuses it. *)
Lemma baseline_accepts_exactly_witness :
  exit_code (Some (write (V := Doc) [] first_run)) second_run
    = Ok (if bool_decide (kinds second_run = kinds first_run) then 0 else 1) /\
  exit_code (V := Doc) None second_run = Ok (if forallb (fun o => negb (is_failure (status o))) (outcomes second_run) then 0 else 1).
Proof. exact (baseline_accepts_exactly [] first_run second_run). Defined.

Lemma second_run_judged :
  bool_decide (kinds second_run = kinds first_run) = false /\
  forallb (fun o => negb (is_failure (status o))) (outcomes second_run) = true.
Proof. by vm_compute. Qed.

End ConformanceDemo.
