(* ===== verification/Netmap.v ===== *)
(** * Reading network maps

    [crates/ts-netmap]: the incremental JSON scanner ([scanner.rs]) and the reader
    that splits a long poll into responses ([frame.rs]).  The scanner's methods
    change the scanner and call back with tokens, and the callback can fail; they
    are written in a monad over the scanner and the callback's own state. *)

From S2P Require Import Prelude Utf8.

Module netmap.

Definition MAX_STRING : Z := 256.

Inductive Error := Json | Full | Malformed | FrameTooLarge.

End netmap.

(** ** The scanner *)

Module scanner.
Import netmap.

Definition MAX_DEPTH : Z := 16.

Inductive Token :=
| StartObject | EndObject | StartArray | EndArray
| Key (s : bytes) | Str (s : bytes) | Int (i : Z) | Bool (b : bool) | Null.

Inductive Container := Object (expecting_key : bool) | Array.

Inductive State :=
| Value | InString | Escape | Unicode (seen : Z) | InNumber | InLiteral | AfterValue | ExpectColon.

(** The stack is written top first. *)
Record Scanner := mkScanner {
  state : State;
  stack : list Container;
  buffer : bytes;
  code_point : Z;
  pending_surrogate : option Z;
  done : bool;
}.

Definition new : Scanner := mkScanner Value [] [] 0 None false.

Definition is_done (s : Scanner) : bool := done s.

Definition with_state (s : Scanner) (x : State) : Scanner :=
  mkScanner x (stack s) (buffer s) (code_point s) (pending_surrogate s) (done s).
Definition with_stack (s : Scanner) (x : list Container) : Scanner :=
  mkScanner (state s) x (buffer s) (code_point s) (pending_surrogate s) (done s).
Definition with_buffer (s : Scanner) (x : bytes) : Scanner :=
  mkScanner (state s) (stack s) x (code_point s) (pending_surrogate s) (done s).
Definition with_code_point (s : Scanner) (x : Z) : Scanner :=
  mkScanner (state s) (stack s) (buffer s) x (pending_surrogate s) (done s).
Definition with_pending (s : Scanner) (x : option Z) : Scanner :=
  mkScanner (state s) (stack s) (buffer s) (code_point s) x (done s).
Definition with_done (s : Scanner) (x : bool) : Scanner :=
  mkScanner (state s) (stack s) (buffer s) (code_point s) (pending_surrogate s) x.

(** *** Bytes *)

Definition is_ascii_whitespace (b : Z) : bool :=
  (b =? 32) || (b =? 9) || (b =? 10) || (b =? 12) || (b =? 13).
Definition is_ascii_digit (b : Z) : bool := between 48 57 b.
Definition is_ascii_alphabetic (b : Z) : bool := between 65 90 b || between 97 122 b.

(** [b'0'..=b'9' | b'-' | b'+' | b'.' | b'e' | b'E'] *)
Definition is_number_byte (b : Z) : bool :=
  is_ascii_digit b || (b =? 45) || (b =? 43) || (b =? 46) || (b =? 101) || (b =? 69).

(** The byte a one-letter escape stands for. *)
Definition escape_byte (b : Z) : option Z :=
  if b =? 34 then Some 34 else if b =? 92 then Some 92 else if b =? 47 then Some 47 else
  if b =? 98 then Some 8 else if b =? 102 then Some 12 else if b =? 110 then Some 10 else
  if b =? 114 then Some 13 else if b =? 116 then Some 9 else None.

Definition hex_digit (b : Z) : option Z :=
  if is_ascii_digit b then Some (b - 48) else
  if between 97 102 b then Some (b - 97 + 10) else
  if between 65 70 b then Some (b - 65 + 10) else None.

(** [char::from_u32(v).encode_utf8()] *)
Definition encode_utf8 (v : Z) : option bytes :=
  if (v <? 0) || (0x10ffff <? v) || between 0xd800 0xdfff v then None else
  if v <? 0x80 then Some [v] else
  if v <? 0x800 then Some [0xc0 + v / 64; 0x80 + v mod 64] else
  if v <? 0x10000 then Some [0xe0 + v / 4096; 0x80 + v / 64 mod 64; 0x80 + v mod 64] else
  Some [0xf0 + v / 262144; 0x80 + v / 4096 mod 64; 0x80 + v / 64 mod 64; 0x80 + v mod 64].

(** The value of a string of digits, [None] on any other byte. *)
Fixpoint digits_value (acc : Z) (l : bytes) : option Z :=
  match l with
  | [] => Some acc
  | b :: l => if is_ascii_digit b then digits_value (acc * 10 + (b - 48)) l else None
  end.

Definition in_i64 (v : Z) : option Z := if (- 2 ^ 63 <=? v) && (v <? 2 ^ 63) then Some v else None.

(** [text.parse::<i64>()] *)
Definition parse_i64 (text : bytes) : option Z :=
  match text with
  | [] => None
  | b :: rest =>
      if b =? 45 then match rest with [] => None | _ => let? v := digits_value 0 rest in in_i64 (- v) end else
      if b =? 43 then match rest with [] => None | _ => let? v := digits_value 0 rest in in_i64 v end else
      let? v := digits_value 0 text in in_i64 v
  end.

Definition literal_token (b : bytes) : option Token :=
  if bytes_eqb b [116; 114; 117; 101] then Some (Bool true) else
  if bytes_eqb b [102; 97; 108; 115; 101] then Some (Bool false) else
  if bytes_eqb b [110; 117; 108; 108] then Some Null else None.

(** *** The machine *)

Section Scan.
Context {C : Type} (on_token : C -> Token -> C * res Error unit).

Definition M (A : Type) : Type := Scanner -> C -> Scanner * C * res Error A.

Definition ret {A} (a : A) : M A := fun s c => (s, c, Ok a).
Definition fail {A} (e : Error) : M A := fun s c => (s, c, Err e).
Definition bind {A B} (m : M A) (k : A -> M B) : M B :=
  fun s c =>
    match m s c with
    | (s, c, Ok a) => k a s c
    | (s, c, Err e) => (s, c, Err e)
    | (s, c, Panic) => (s, c, Panic)
    | (s, c, Hang) => (s, c, Hang)
    end.
Definition get {A} (f : Scanner -> A) : M A := fun s c => (s, c, Ok (f s)).
Definition modify (f : Scanner -> Scanner) : M unit := fun s c => (f s, c, Ok tt).
Definition emit (t : Token) : M unit := fun s c => let (c, r) := on_token c t in (s, c, r).
Definition or_fail {A} (o : option A) (e : Error) : M A :=
  match o with Some a => ret a | None => fail e end.

Notation "x <- m ;; k" := (bind m (fun x => k)) (at level 100, m at next level, right associativity).
Notation "m ;;; k" := (bind m (fun _ => k)) (at level 100, right associativity).

Definition set_state (x : State) : M unit := modify (fun s => with_state s x).

Definition push_byte (b : Z) : M unit :=
  l <- get (fun s => len (buffer s)) ;;
  if MAX_STRING <=? l then fail Full else modify (fun s => with_buffer s (buffer s ++ [b])).

Fixpoint push_bytes (l : bytes) : M unit :=
  match l with [] => ret tt | b :: l => push_byte b ;;; push_bytes l end.

Definition clear_buffer : M unit := modify (fun s => with_buffer s []).

Definition set_expecting_key (expecting : bool) : M unit :=
  modify (fun s => match stack s with
                   | Object _ :: k => with_stack s (Object expecting :: k)
                   | _ => s
                   end).

Definition open (c : Container) : M unit :=
  l <- get (fun s => len (stack s)) ;;
  if MAX_DEPTH <=? l then fail Full else
  modify (fun s => with_stack s (c :: stack s)) ;;; set_state Value.

Definition close (byte : Z) : M unit :=
  k <- get stack ;;
  match k with
  | [] => fail Json
  | top :: rest =>
      modify (fun s => with_stack s rest) ;;;
      (if byte =? 125 then match top with Object _ => emit EndObject | Array => fail Json end
       else match top with Array => emit EndArray | Object _ => fail Json end) ;;;
      set_state AfterValue ;;;
      match rest with [] => modify (fun s => with_done s true) | _ => ret tt end
  end.

Definition emit_number : M unit :=
  text <- get buffer ;;
  if utf8_valid text then
    emit (Int (default 0 (parse_i64 text))) ;;; set_state AfterValue
  else fail Json.

Definition emit_literal : M unit :=
  text <- get buffer ;;
  t <- or_fail (literal_token text) Json ;;
  emit t ;;; set_state AfterValue.

(** [self.pending_surrogate.take()] *)
Definition take_pending : M (option Z) :=
  p <- get pending_surrogate ;; modify (fun s => with_pending s None) ;;; ret p.

Definition finish_escape : M unit :=
  value <- get (fun s => wrap 16 (code_point s)) ;;
  if between 0xd800 0xdbff value then
    modify (fun s => with_pending s (Some value)) ;;; set_state InString
  else
    scalar <-
      (if between 0xdc00 0xdfff value then
         p <- take_pending ;;
         high <- or_fail p Json ;;
         ret (0x10000 + Z.shiftl (high - 0xd800) 10 + (value - 0xdc00))
       else
         p <- take_pending ;;
         match p with Some _ => fail Json | None => ret value end) ;;
    encoded <- or_fail (encode_utf8 scalar) Json ;;
    push_bytes encoded ;;; set_state InString.

Definition step_value (byte : Z) : M bool :=
  if is_ascii_whitespace byte then ret true else
  if byte =? 123 then open (Object true) ;;; emit StartObject ;;; ret true else
  if byte =? 91 then open Array ;;; emit StartArray ;;; ret true else
  if (byte =? 125) || (byte =? 93) then close byte ;;; ret true else
  if byte =? 34 then clear_buffer ;;; set_state InString ;;; ret true else
  if (byte =? 45) || is_ascii_digit byte then clear_buffer ;;; push_byte byte ;;; set_state InNumber ;;; ret true else
  if (byte =? 116) || (byte =? 102) || (byte =? 110)
  then clear_buffer ;;; push_byte byte ;;; set_state InLiteral ;;; ret true else
  fail Json.

Definition step_string (byte : Z) : M bool :=
  if byte =? 34 then
    p <- get pending_surrogate ;;
    match p with
    | Some _ => fail Json
    | None =>
        k <- get stack ;;
        text <- get buffer ;;
        if negb (utf8_valid text) then fail Json else
        match k with
        | Object true :: _ => emit (Key text) ;;; set_expecting_key false ;;; set_state ExpectColon ;;; ret true
        | _ => emit (Str text) ;;; set_state AfterValue ;;; ret true
        end
    end
  else if byte =? 92 then set_state Escape ;;; ret true
  else if byte <=? 0x1f then fail Json
  else push_byte byte ;;; ret true.

Definition step_escape (byte : Z) : M bool :=
  if byte =? 117 then modify (fun s => with_code_point s 0) ;;; set_state (Unicode 0) ;;; ret true else
  literal <- or_fail (escape_byte byte) Json ;;
  push_byte literal ;;; set_state InString ;;; ret true.

Definition step_unicode (seen byte : Z) : M bool :=
  digit <- or_fail (hex_digit byte) Json ;;
  modify (fun s => with_code_point s (Z.lor (wrap 32 (Z.shiftl (code_point s) 4)) digit)) ;;;
  if seen <? 3 then set_state (Unicode (seen + 1)) ;;; ret true else
  finish_escape ;;; ret true.

Definition step_after (byte : Z) : M bool :=
  if is_ascii_whitespace byte then ret true else
  if byte =? 44 then set_expecting_key true ;;; set_state Value ;;; ret true else
  if (byte =? 125) || (byte =? 93) then close byte ;;; ret true else
  fail Json.

(** Process one byte; whether it was consumed. *)
Definition step (byte : Z) : M bool :=
  st <- get state ;;
  match st with
  | Value => step_value byte
  | InString => step_string byte
  | Escape => step_escape byte
  | Unicode seen => step_unicode seen byte
  | InNumber => if is_number_byte byte then push_byte byte ;;; ret true else emit_number ;;; ret false
  | InLiteral => if is_ascii_alphabetic byte then push_byte byte ;;; ret true else emit_literal ;;; ret false
  | AfterValue => step_after byte
  | ExpectColon =>
      if is_ascii_whitespace byte then ret true else
      if negb (byte =? 58) then fail Json else set_state Value ;;; ret true
  end.

Fixpoint push_loop (fuel : nat) (l : bytes) : M unit :=
  match l with
  | [] => ret tt
  | b :: rest =>
      match fuel with
      | O => fun s c => (s, c, Hang)
      | S fuel => advance <- step b ;; push_loop fuel (if advance : bool then rest else l)
      end
  end.

(** No byte takes more than two turns. *)
Definition push (l : bytes) : M unit := push_loop (2 * length l) l.

Definition finish : M unit :=
  st <- get state ;;
  match st with
  | InNumber => emit_number
  | InLiteral => emit_literal
  | Value | AfterValue => ret tt
  | _ => fail Json
  end ;;;
  k <- get stack ;;
  match k with [] => ret tt | _ => fail Json end.

End Scan.
End scanner.

(** ** Responses *)

Module frame_reader.
Import netmap.

Definition HEADER_LEN : Z := 4.

Inductive Chunk := Body (b : bytes) | End_ | Need.

Record FrameReader := mkReader { header : bytes; header_filled : Z; remaining : option Z }.

Definition new : FrameReader := mkReader (zeros HEADER_LEN) 0 None.

(** What to do with the front of [input], and how much of it was consumed. *)
Definition next (r : FrameReader) (input : bytes) : FrameReader * res Error (Chunk * Z) :=
  match remaining r with
  | None =>
      let take := Z.min (len input) (HEADER_LEN - header_filled r) in
      match (let? src := get_range 0 take input in
             copy_at (header_filled r) (header_filled r + take) src (header r)) with
      | None => (r, Panic)
      | Some h =>
          let filled := header_filled r + take in
          if filled <? HEADER_LEN then (mkReader h filled None, Ok (Need, take))
          else (mkReader h 0 (Some (of_le h)), Ok (Need, take))
      end
  | Some n =>
      if n =? 0 then (mkReader (header r) (header_filled r) None, Ok (End_, 0)) else
      match input with
      | [] => (r, Ok (Need, 0))
      | _ =>
          let take := Z.min (len input) n in
          match get_range 0 take input with
          | None => (r, Panic)
          | Some b => (mkReader (header r) (header_filled r) (Some (n - take)), Ok (Body b, take))
          end
      end
  end.

Definition is_complete (r : FrameReader) : bool :=
  match remaining r with Some n => n =? 0 | None => false end.

Definition finish_response (r : FrameReader) : FrameReader := mkReader (header r) 0 None.

End frame_reader.
