(* ===== verification/NetmapScan.v ===== *)
(** * The scanner: totality and chunks

    Over [Netmap.v], for any callback: scanning returns, within the bounds of its
    buffers, and only the concatenation of the chunks matters. *)

From S2P Require Import Prelude Utf8 Netmap.
Import netmap scanner.

Section Any.
Context {C : Type} (on_token : C -> Token -> C * res Error unit).

(** ** A predicate transformer *)

(** From a state within bounds, [m] returns in one. *)
Definition within (s : Scanner) : Prop := len (stack s) <= MAX_DEPTH /\ len (buffer s) <= MAX_STRING.

Definition good {A} (m : M (C := C) A) : Prop :=
  forall s c, within s -> let '(s', _, r) := m s c in within s' /\ returns r.

Lemma good_ret {A} (a : A) : good (ret a).
Proof. intros s c H. done. Qed.
Lemma good_fail {A} e : good (@fail C A e).
Proof. intros s c H. done. Qed.
Lemma good_get {A} (f : Scanner -> A) : good (get f).
Proof. intros s c H. done. Qed.
Lemma good_or_fail {A} (o : option A) e : good (or_fail o e).
Proof. by destruct o. Qed.
Lemma good_bind {A B} (m : M A) (k : A -> M B) : good m -> (forall a, good (k a)) -> good (bind m k).
Proof.
  intros Hm Hk s c H. specialize (Hm s c H). unfold bind. destruct (m s c) as [[s' c'] r].
  destruct Hm as [Hs Hr]. destruct r; try done. by apply Hk.
Qed.
Lemma good_modify (f : Scanner -> Scanner) : (forall s, within s -> within (f s)) -> good (modify f).
Proof. intros Hf s c H. split; [by apply Hf|done]. Qed.
Lemma good_set_state x : good (set_state x).
Proof. by apply good_modify. Qed.
Lemma good_clear : good clear_buffer.
Proof. apply good_modify. intros s [H1 H2]. split; [done|]. unfold MAX_STRING. vm_compute. discriminate. Qed.
Lemma good_push_byte b : good (push_byte b).
Proof.
  intros s c [H1 H2]. unfold push_byte, bind, get. case_if; [done|]. bool_hyps. split; [|done]. split; [done|].
  simpl. rewrite len_app. change (len [b]) with 1. lia.
Qed.
Lemma good_push_bytes l : good (push_bytes l).
Proof. induction l as [|b l IH]; simpl; [apply good_ret|]. apply good_bind; [apply good_push_byte|done]. Qed.
Lemma good_expecting b : good (set_expecting_key b).
Proof. apply good_modify. intros s [H1 H2]. by destruct (stack s) as [|[?|] k] eqn:E; unfold within; rewrite ?E. Qed.
Lemma good_open k : good (open k).
Proof.
  intros s c [H1 H2]. unfold open, bind, get. case_if; [done|]. bool_hyps. split; [|done].
  split; [|done]. simpl. rewrite len_cons. lia.
Qed.

Context (Hcb : forall c t, returns (snd (on_token c t))).

Lemma good_emit t : good (emit on_token t).
Proof. intros s c H. unfold emit. specialize (Hcb c t). by destruct (on_token c t). Qed.

Lemma good_close b : good (close on_token b).
Proof.
  intros s c Hs. unfold close, bind, get. destruct (stack s) as [|top rest] eqn:E; [done|].
  assert (within (with_stack s rest)) as Hw.
  { destruct Hs as [H1 H2]. split; [|done]. simpl. rewrite E, len_cons in H1. unfold MAX_DEPTH in *. lia. }
  change (modify _ s c) with (with_stack s rest, c, Ok (E := Error) tt). cbv iota.
  enough (good (bind (if b =? 125 then match top with Object _ => emit on_token EndObject | Array => fail Json end
     else match top with Array => emit on_token EndArray | Object _ => fail Json end)
    (fun _ => bind (set_state AfterValue) (fun _ => match rest with [] => modify (fun s => with_done s true) | _ => ret tt end)))) as Hg.
  { specialize (Hg (with_stack s rest) c Hw). unfold bind in Hg. exact Hg. }
  apply good_bind; [destruct (b =? 125), top; first [apply good_emit | apply good_fail]|]. intros _.
  apply good_bind; [apply good_set_state|]. intros _. destruct rest; [by apply good_modify|apply good_ret].
Qed.

End Any.

Create HintDb scan.
#[export] Hint Resolve good_ret good_fail good_get good_or_fail good_set_state good_clear good_push_byte
  good_push_bytes good_expecting good_open good_emit good_close : scan.

(** Break a computation into its steps. *)
Ltac good_steps :=
  repeat first
  [ solve [eauto with scan]
  | apply good_bind; [|intros ?]
  | apply good_modify; by intros ?s []
  | match goal with
    | |- good (if ?b then _ else _) => destruct b
    | |- good (match ?x with _ => _ end) => destruct x
    end ].

Section Total.
Context {C : Type} (on_token : C -> Token -> C * res Error unit) (Hcb : forall c t, returns (snd (on_token c t))).

Lemma good_finish_escape : good (C := C) finish_escape.
Proof. unfold finish_escape, take_pending. good_steps. Qed.
Lemma good_emit_number : good (emit_number on_token).
Proof. unfold emit_number. good_steps. Qed.
Lemma good_emit_literal : good (emit_literal on_token).
Proof. unfold emit_literal. good_steps. Qed.
Hint Resolve good_finish_escape good_emit_number good_emit_literal : scan.

Lemma good_step b : good (step on_token b).
Proof. unfold step, step_value, step_string, step_escape, step_unicode, step_after. good_steps. Qed.

(** ** One byte at a time *)

(** A byte that only ended a number or a literal is read again. *)
Definition feed (b : Z) : M unit :=
  bind (step on_token b) (fun advance => if advance then ret tt else
    bind (step on_token b) (fun advance => if advance then ret tt else fun s c => (s, c, Hang))).

Fixpoint feed_all (l : bytes) : M unit :=
  match l with [] => ret tt | b :: l => bind (feed b) (fun _ => feed_all l) end.

(** A step that does not consume its byte leaves the machine after a value... *)
Definition no_false (m : M (C := C) bool) : Prop := forall s c s' c', m s c <> (s', c', Ok false).

Lemma no_false_bind {A} (m : M A) (k : A -> M bool) : (forall a, no_false (k a)) -> no_false (bind m k).
Proof. intros Hk s c s' c'. unfold bind. destruct (m s c) as [[s1 c1] [a| | |]]; try done. apply Hk. Qed.
Lemma no_false_eq (m : M bool) s c s' c' : no_false m -> m s c = (s', c', Ok false) -> False.
Proof. intros Hm H. by apply Hm in H. Qed.
Lemma no_false_ret : no_false (ret true).
Proof. done. Qed.
Lemma no_false_fail e : no_false (fail e).
Proof. done. Qed.

Ltac no_false_steps :=
  repeat first
  [ apply no_false_ret | apply no_false_fail
  | apply no_false_bind; intros ?
  | match goal with
    | |- no_false (if ?b then _ else _) => destruct b
    | |- no_false (match ?x with _ => _ end) => destruct x
    end ].

Lemma emit_number_after s c s' c' u : emit_number on_token s c = (s', c', Ok u) -> state s' = AfterValue.
Proof.
  unfold emit_number, bind, get, emit, set_state, modify. case_if; [|done].
  destruct (on_token c _) as [c1 [?| | |]]; naive_solver.
Qed.
Lemma emit_literal_after s c s' c' u : emit_literal on_token s c = (s', c', Ok u) -> state s' = AfterValue.
Proof.
  unfold emit_literal, bind, get, emit, set_state, modify, or_fail, ret. destruct (literal_token _); [|done].
  destruct (on_token c _) as [c1 [?| | |]]; naive_solver.
Qed.

Lemma step_false b s c s' c' : step on_token b s c = (s', c', Ok false) -> state s' = AfterValue.
Proof.
  unfold step. unfold bind at 1. unfold get at 1. destruct (state s) eqn:E; intros H;
    try solve [exfalso; eapply no_false_eq; [|exact H];
      unfold step_value, step_string, step_escape, step_unicode, step_after; no_false_steps].
  - revert H. case_if.
    + intros H. exfalso. eapply no_false_eq; [|exact H]. no_false_steps.
    + unfold bind. destruct (emit_number on_token s c) as [[s1 c1] [u| | |]] eqn:En; try done.
      intros [= <- <-]. by eapply emit_number_after.
  - revert H. case_if.
    + intros H. exfalso. eapply no_false_eq; [|exact H]. no_false_steps.
    + unfold bind. destruct (emit_literal on_token s c) as [[s1 c1] [u| | |]] eqn:En; try done.
      intros [= <- <-]. by eapply emit_literal_after.
Qed.

(** ... where every byte is consumed. *)
Lemma step_after_true b s c s' c' : state s = AfterValue -> step on_token b s c <> (s', c', Ok false).
Proof.
  intros E. unfold step. unfold bind at 1. unfold get at 1. rewrite E.
  enough (no_false (step_after on_token b)) as H by apply H. unfold step_after. no_false_steps.
Qed.

(** So two turns a byte are enough. *)
Lemma push_loop_feed l fuel s c : (2 * length l <= fuel)%nat -> push_loop on_token fuel l s c = feed_all l s c.
Proof.
  revert fuel s c; induction l as [|b l IH]; intros fuel s c Hf; [by destruct fuel|].
  simpl in Hf. destruct fuel as [|[|fuel]]; try lia. cbn [feed_all]. unfold feed. unfold bind at 1 2 3.
  cbn [push_loop]. unfold bind at 1. destruct (step on_token b s c) as [[s1 c1] r] eqn:E1. destruct r as [[]| | |]; try done.
  - change (push_loop on_token (S fuel) l s1 c1 = feed_all l s1 c1). apply IH. lia.
  - cbn [push_loop]. unfold bind. destruct (step on_token b s1 c1) as [[s2 c2] r] eqn:E2. destruct r as [[]| | |]; try done.
    + apply IH. lia.
    + exfalso. revert E2. apply step_after_true. by eapply step_false.
Qed.

Lemma push_feed l s c : push on_token l s c = feed_all l s c.
Proof. by apply push_loop_feed. Qed.

Lemma feed_all_app a b s c : feed_all (a ++ b) s c = bind (feed_all a) (fun _ => feed_all b) s c.
Proof.
  revert s c; induction a as [|x a IH]; intros s c; [done|]. cbn [app feed_all]. unfold bind at 1 2 3.
  by destruct (feed x s c) as [[s1 c1] [u| | |]].
Qed.

Lemma good_feed b : good (feed b).
Proof.
  intros s c Hs. unfold feed, bind. pose proof (good_step b s c Hs) as G1.
  destruct (step on_token b s c) as [[s1 c1] r] eqn:E1. destruct G1 as [W1 R1]. destruct r as [[]| | |]; try done.
  pose proof (good_step b s1 c1 W1) as G2. destruct (step on_token b s1 c1) as [[s2 c2] r] eqn:E2.
  destruct G2 as [W2 R2]. destruct r as [[]| | |]; try done. exfalso. revert E2. apply step_after_true. by eapply step_false.
Qed.

Lemma good_feed_all l : good (feed_all l).
Proof. induction l as [|b l IH]; simpl; [apply good_ret|]. apply good_bind; [apply good_feed|done]. Qed.

(** Pushing chunks one after another. *)
Fixpoint push_chunks (chunks : list bytes) : M unit :=
  match chunks with [] => ret tt | x :: chunks => bind (push on_token x) (fun _ => push_chunks chunks) end.

Lemma push_chunks_feed chunks s c : push_chunks chunks s c = feed_all (concat chunks) s c.
Proof.
  revert s c; induction chunks as [|x chunks IH]; intros s c; [done|]. cbn [push_chunks concat].
  rewrite feed_all_app. unfold bind. rewrite push_feed. by destruct (feed_all x s c) as [[s1 c1] [u| | |]].
Qed.

End Total.

(** Scanning is total, bounded and blind to chunk boundaries.  For any
    callback that returns and any cut of the input into chunks, pushing the
    chunks one by one gives the same scanner, the same callback state and the
    same result as pushing their concatenation at once; it neither panics nor
    loops, and at most [MAX_DEPTH] containers and [MAX_STRING] bytes are held. *)
Theorem scanner_chunks {C : Type} (on_token : C -> Token -> C * res Error unit) (chunks : list bytes) (s : Scanner) (c : C) :
  (forall c t, returns (snd (on_token c t))) -> within s ->
  push_chunks on_token chunks s c = push on_token (concat chunks) s c /\
  let '(s', _, r) := push on_token (concat chunks) s c in within s' /\ returns r.
Proof.
  intros Hcb Hs. rewrite push_chunks_feed, push_feed by done. split; [done|]. by apply good_feed_all.
Qed.

(** The callback that collects the tokens. *)
Definition collect (ts : list Token) (t : Token) : list Token * res Error unit := (ts ++ [t], Ok tt).

Lemma scanner_chunks_witness :
  push_chunks collect [[91; 49]; [50; 44]; [93]] scanner.new [] = push collect [91; 49; 50; 44; 93] scanner.new [] /\
  let '(s', _, r) := push collect [91; 49; 50; 44; 93] scanner.new [] in within s' /\ returns r.
Proof.
  apply (scanner_chunks collect [[91; 49]; [50; 44]; [93]] scanner.new []); [done|]. split; vm_compute; discriminate.
Defined.
