(* ===== verification/NetmapGrammar.v ===== *)
(** * The scanner reads JSON

    The grammar of RFC 8259 as inductive predicates that relate the spelling of a
    value to its tokens, stated without the tables of the scanner, and the theorem
    that the scanner of [Netmap.v] turns every document of the grammar into exactly
    its tokens. *)

From S2P Require Import Prelude Utf8 Netmap NetmapScan.
Import netmap scanner.

(** ** The grammar *)

Definition ws (l : bytes) : Prop := Forall (fun b => is_ascii_whitespace b = true) l.

(** A hexadecimal digit and its value; four of them. *)
Definition hex1 (b x : Z) : Prop :=
  (48 <= b <= 57 /\ x = b - 48) \/ (97 <= b <= 102 /\ x = b - 87) \/ (65 <= b <= 70 /\ x = b - 55).
Definition hex4 (h : bytes) (v : Z) : Prop :=
  exists a b c d x y z w, h = [a; b; c; d] /\ hex1 a x /\ hex1 b y /\ hex1 c z /\ hex1 d w /\
    v = ((x * 16 + y) * 16 + z) * 16 + w.

(** The one-letter escapes: quote, backslash, solidus, and b, f, n, r, t. *)
Definition escapes : list (Z * Z) :=
  [(34, 34); (92, 92); (47, 47); (98, 8); (102, 12); (110, 10); (114, 13); (116, 9)].

(** The inside of a string and the text it spells. *)
Inductive chars : bytes -> bytes -> Prop :=
| ch_nil : chars [] []
| ch_raw b l t : 0x20 <= b -> b <> 34 -> b <> 92 -> chars l t -> chars (b :: l) (b :: t)
| ch_escape b x l t : (b, x) ∈ escapes -> chars l t -> chars (92 :: b :: l) (x :: t)
| ch_unicode h v e l t :
    hex4 h v -> between 0xd800 0xdfff v = false -> encode_utf8 v = Some e -> chars l t ->
    chars (92 :: 117 :: h ++ l) (e ++ t)
| ch_pair h1 v1 h2 v2 e l t :
    hex4 h1 v1 -> between 0xd800 0xdbff v1 = true -> hex4 h2 v2 -> between 0xdc00 0xdfff v2 = true ->
    encode_utf8 (0x10000 + (v1 - 0xd800) * 1024 + (v2 - 0xdc00)) = Some e -> chars l t ->
    chars (92 :: 117 :: h1 ++ 92 :: 117 :: h2 ++ l) (e ++ t).

(** A string the scanner has room for. *)
Definition text (l t : bytes) : Prop := chars l t /\ len t <= MAX_STRING /\ utf8_valid t = true.

(** The literals. *)
Definition literals : list (bytes * Token) :=
  [([116; 114; 117; 101], Bool true); ([102; 97; 108; 115; 101], Bool false); ([110; 117; 108; 108], Null)].

(** Numbers: an integer with its value, then a fraction and an exponent, within the
    buffer.  A number is read as its value if it is an integer of 64 bits and as 0
    otherwise.  Leading zeros are allowed, which the RFC forbids. *)
Definition digits (ds : bytes) : Prop := ds <> [] /\ Forall (fun b => is_ascii_digit b = true) ds.
Definition decimal (ds : bytes) : Z := fold_left (fun v b => v * 10 + (b - 48)) ds 0.
Definition integer (l : bytes) (v : Z) : Prop :=
  exists ds, digits ds /\ ((l = ds /\ v = decimal ds) \/ (l = 45 :: ds /\ v = - decimal ds)).
Definition fraction (l : bytes) : Prop := l = [] \/ exists ds, digits ds /\ l = 46 :: ds.
Definition exponent (l : bytes) : Prop :=
  l = [] \/ exists e sign ds, (e = 101 \/ e = 69) /\ (sign = [] \/ sign = [43] \/ sign = [45]) /\
    digits ds /\ l = e :: sign ++ ds.
Inductive number : bytes -> Z -> Prop :=
| n_fits l v : integer l v -> - 2 ^ 63 <= v < 2 ^ 63 -> len l <= MAX_STRING -> number l v
| n_large l v : integer l v -> ~ (- 2 ^ 63 <= v < 2 ^ 63) -> len l <= MAX_STRING -> number l 0
| n_real l v f e :
    integer l v -> fraction f -> exponent e -> f ++ e <> [] -> len (l ++ f ++ e) <= MAX_STRING ->
    number (l ++ f ++ e) 0.

(** Values nested at most [n] deep, and their tokens. *)
Inductive value : nat -> bytes -> list Token -> Prop :=
| v_literal n l t : (l, t) ∈ literals -> value n l [t]
| v_number n l v : number l v -> value n l [Int v]
| v_string n l t : text l t -> value n (34 :: l ++ [34]) [Str t]
| v_empty_array n w : ws w -> value (S n) (91 :: w ++ [93]) [StartArray; EndArray]
| v_array n l ts : elements n l ts -> value (S n) (91 :: l ++ [93]) (StartArray :: ts ++ [EndArray])
| v_empty_object n w : ws w -> value (S n) (123 :: w ++ [125]) [StartObject; EndObject]
| v_object n l ts : members n l ts -> value (S n) (123 :: l ++ [125]) (StartObject :: ts ++ [EndObject])
with elements : nat -> bytes -> list Token -> Prop :=
| e_one n w l w' ts : ws w -> ws w' -> value n l ts -> elements n (w ++ l ++ w') ts
| e_more n w l w' ts l' ts' :
    ws w -> ws w' -> value n l ts -> elements n l' ts' -> elements n (w ++ l ++ w' ++ 44 :: l') (ts ++ ts')
with members : nat -> bytes -> list Token -> Prop :=
| m_one n w k key w1 w2 l w' ts :
    ws w -> ws w1 -> ws w2 -> ws w' -> text k key -> value n l ts ->
    members n (w ++ 34 :: k ++ 34 :: w1 ++ 58 :: w2 ++ l ++ w') (Key key :: ts)
| m_more n w k key w1 w2 l w' ts l' ts' :
    ws w -> ws w1 -> ws w2 -> ws w' -> text k key -> value n l ts -> members n l' ts' ->
    members n (w ++ 34 :: k ++ 34 :: w1 ++ 58 :: w2 ++ l ++ w' ++ 44 :: l') (Key key :: ts ++ ts').

Scheme value_mut := Induction for value Sort Prop
with elements_mut := Induction for elements Sort Prop
with members_mut := Induction for members Sort Prop.
Combined Scheme json_ind from value_mut, elements_mut, members_mut.

(** ** Reading *)

(** [s] reads [l], emitting what takes [ts] to [ts'], and is then [s']. *)
Definition reads (s : Scanner) (ts : list Token) (l : bytes) (s' : Scanner) (ts' : list Token) : Prop :=
  feed_all collect l s ts = (s', ts', Ok tt).

Module GrammarFacts.

(** *** The tables of the scanner *)

Lemma hex1_digit b x : hex1 b x <-> hex_digit b = Some x.
Proof.
  unfold hex1, hex_digit, is_ascii_digit, between. split.
  - intros [[? ->]|[[? ->]|[? ->]]]; repeat case_if; bool_hyps; f_equal; lia.
  - repeat case_if; intros [= <-]; bool_hyps; lia.
Qed.

Lemma escapes_byte b x : (b, x) ∈ escapes -> escape_byte b = Some x.
Proof. intros H. repeat (apply elem_of_cons in H as [[= -> ->]|H]; [done|]). by apply not_elem_of_nil in H. Qed.

Lemma literals_token l t : (l, t) ∈ literals -> literal_token l = Some t.
Proof. intros H. repeat (apply elem_of_cons in H as [[= -> ->]|H]; [done|]). by apply not_elem_of_nil in H. Qed.

(** *** Numbers *)

(** What the scanner collects as a number. *)
Definition spelled (l : bytes) : Prop :=
  match l with
  | [] => False
  | b :: rest => ((b =? 45) || is_ascii_digit b) = true /\ Forall (fun b => is_number_byte b = true) rest /\ len l <= MAX_STRING
  end.

Lemma digits_decimal ds rest acc :
  Forall (fun b => is_ascii_digit b = true) ds ->
  digits_value acc (ds ++ rest) = digits_value (fold_left (fun v b => v * 10 + (b - 48)) ds acc) rest.
Proof. intros H; revert acc; induction H as [|b ds Hb _ IH]; intros acc; [done|]. cbn [app digits_value]. by rewrite Hb, IH. Qed.

Lemma digits_bytes ds : Forall (fun b => is_ascii_digit b = true) ds -> Forall (fun b => is_number_byte b = true) ds.
Proof. intros H. eapply Forall_impl; [exact H|]. intros b Hb. unfold is_number_byte. by rewrite Hb. Qed.

(** An integer and what may follow it, as [parse_i64] reads them. *)
Lemma parse_integer l v rest :
  integer l v -> Forall (fun b => is_number_byte b = true) rest -> len (l ++ rest) <= MAX_STRING ->
  spelled (l ++ rest) /\
  (rest = [] -> parse_i64 (l ++ rest) = in_i64 v) /\
  (match rest with b :: _ => is_ascii_digit b = false | [] => False end -> parse_i64 (l ++ rest) = None).
Proof.
  intros (ds & [Hne Hd] & Hl) Hrest Hlen.
  assert (Hval : digits_value 0 (ds ++ rest) = digits_value (decimal ds) rest) by by apply digits_decimal.
  assert (Hnone : match rest with b :: _ => is_ascii_digit b = false | [] => False end -> digits_value (decimal ds) rest = None)
    by (destruct rest as [|b rest']; [done|]; intros Hb; cbn [digits_value]; by rewrite Hb).
  assert (Hall : Forall (fun b => is_number_byte b = true) (ds ++ rest)) by (apply Forall_app; split; [by apply digits_bytes|done]).
  destruct Hl as [[-> ->]|[-> ->]].
  - destruct ds as [|b ds]; [done|]. pose proof Hd as [Hb _]%Forall_cons_iff.
    apply Forall_cons_iff in Hall as [_ Hall]. cbn [app] in *. split.
    { unfold spelled. rewrite Hb, orb_true_r. by split_and!. }
    unfold is_ascii_digit, between in Hb. bool_hyps. unfold parse_i64.
    rewrite (proj2 (Z.eqb_neq b 45)), (proj2 (Z.eqb_neq b 43)), Hval by lia. split; [intros ->; done|].
    intros Hr. by rewrite Hnone.
  - cbn [app] in *. split; [by split_and!|]. unfold parse_i64. cbn [Z.eqb Pos.eqb].
    destruct (ds ++ rest) eqn:E; [by apply app_eq_nil in E as [-> _]|]. rewrite Hval. split; [intros ->; done|].
    intros Hr. by rewrite Hnone.
Qed.

Lemma in_i64_value v : default 0 (in_i64 v) = if bool_decide (- 2 ^ 63 <= v < 2 ^ 63) then v else 0.
Proof. unfold in_i64. case_bool_decide; case_if; bool_hyps; simpl; lia. Qed.

Lemma number_spelled l v : number l v -> spelled l /\ default 0 (parse_i64 l) = v.
Proof.
  assert (Hint : forall l v, integer l v -> len l <= MAX_STRING ->
    spelled l /\ default 0 (parse_i64 l) = if bool_decide (- 2 ^ 63 <= v < 2 ^ 63) then v else 0).
  { intros l1 v1 Hi Hl. destruct (parse_integer l1 v1 [] Hi) as (Hs & Hp & _); [constructor|by rewrite app_nil_r|].
    rewrite app_nil_r in *. by rewrite Hp, in_i64_value. }
  intros [l1 v1 Hi Hr Hl|l1 v1 Hi Hr Hl|l1 v1 f e Hi Hf He Hne Hl].
  - destruct (Hint l1 v1 Hi Hl) as [Hs ->]. by rewrite bool_decide_true.
  - destruct (Hint l1 v1 Hi Hl) as [Hs ->]. by rewrite bool_decide_false.
  - assert (Forall (fun b => is_number_byte b = true) (f ++ e) /\
      match f ++ e with b :: _ => is_ascii_digit b = false | [] => False end) as [Hb Hh].
    { destruct Hf as [->|(ds & [_ Hd] & ->)], He as [->|(c & sign & es & Hc & Hs & [_ Hes] & ->)]; cbn [app] in *; try done.
      1, 3: assert (Forall (fun b => is_number_byte b = true) (c :: sign ++ es)) as He
        by (constructor; [by destruct Hc as [-> | ->]|apply Forall_app; split; [by destruct Hs as [->|[-> | ->]]; repeat constructor|by apply digits_bytes]]).
      - split; [exact He|by destruct Hc as [-> | ->]].
      - split; [|done]. constructor; [done|]. apply Forall_app. split; [by apply digits_bytes|exact He].
      - rewrite app_nil_r. split; [|done]. constructor; [done|by apply digits_bytes]. }
    destruct (parse_integer l1 v1 (f ++ e) Hi Hb Hl) as (Hs & _ & Hn). split; [exact Hs|]. by rewrite (Hn Hh).
Qed.

(** One digit. *)
Lemma number_digit b : 48 <= b <= 57 -> number [b] (b - 48).
Proof.
  intros Hb. apply n_fits; [|lia|by unfold MAX_STRING, len]. exists [b]. split.
  - split; [done|]. constructor; [|constructor]. unfold is_ascii_digit, between.
    by rewrite !(proj2 (Z.leb_le _ _)) by lia.
  - left. split; [done|]. unfold decimal. simpl. lia.
Qed.

(** *** Reading *)

Lemma reads_nil s ts : reads s ts [] s ts.
Proof. done. Qed.

Lemma reads_app s ts l s1 ts1 l' s2 ts2 : reads s ts l s1 ts1 -> reads s1 ts1 l' s2 ts2 -> reads s ts (l ++ l') s2 ts2.
Proof. unfold reads. intros H1 H2. rewrite feed_all_app. unfold bind. by rewrite H1. Qed.

Lemma reads_cons s ts b s1 ts1 l s2 ts2 :
  step collect b s ts = (s1, ts1, Ok true) -> reads s1 ts1 l s2 ts2 -> reads s ts (b :: l) s2 ts2.
Proof. unfold reads. intros H1 H2. cbn [feed_all]. unfold feed, bind. by rewrite H1. Qed.

Lemma reads_one s ts b s1 ts1 : step collect b s ts = (s1, ts1, Ok true) -> reads s ts [b] s1 ts1.
Proof. intros H. eapply reads_cons; [exact H|apply reads_nil]. Qed.

(** Where white space is skipped. *)
Definition skips (x : State) : Prop := x = Value \/ x = AfterValue \/ x = ExpectColon.

Lemma reads_ws s ts w : skips (state s) -> ws w -> reads s ts w s ts.
Proof.
  intros Hs Hw. induction Hw as [|b w Hb _ IH]; [apply reads_nil|]. eapply reads_cons; [|exact IH].
  unfold step, bind, get. destruct Hs as [-> |[-> | ->]]; unfold step_value, step_after; by rewrite Hb.
Qed.

(** The parts of a state the grammar depends on. *)
Record stands (x : State) (k : list Container) (s : Scanner) : Prop := {
  st_state : state s = x;
  st_stack : stack s = k;
  st_pending : pending_surrogate s = None;
}.

(** Inside a string, with [buf] read so far and a high surrogate or none. *)
Record in_string (k : list Container) (buf : bytes) (p : option Z) (s : Scanner) : Prop := {
  is_state : state s = InString;
  is_stack : stack s = k;
  is_buffer : buffer s = buf;
  is_pending : pending_surrogate s = p;
}.

(** *** Strings *)

Lemma push_byte_ok b s (ts : list Token) :
  len (buffer s) < MAX_STRING -> push_byte b s ts = (with_buffer s (buffer s ++ [b]), ts, Ok tt).
Proof. intros H. unfold push_byte, bind, get. by rewrite (proj2 (Z.leb_gt _ _)). Qed.

Lemma push_bytes_ok l s (ts : list Token) :
  len (buffer s) + len l <= MAX_STRING -> push_bytes l s ts = (with_buffer s (buffer s ++ l), ts, Ok tt).
Proof.
  revert s; induction l as [|b l IH]; intros s H; cbn [push_bytes].
  - rewrite app_nil_r. by destruct s.
  - rewrite len_cons in H. pose proof (len_nonneg l). unfold bind. rewrite push_byte_ok by lia.
    rewrite IH by (simpl; rewrite len_app; change (len [b]) with 1; lia). simpl. rewrite <- app_assoc. done.
Qed.

Lemma lor_digit v d : 0 <= v < 2 ^ 16 -> 0 <= d < 16 -> Z.lor (wrap 32 (Z.shiftl v 4)) d = v * 16 + d.
Proof.
  intros Hv Hd. unfold wrap. rewrite Z.shiftl_mul_pow2 by lia. rewrite Z.mod_small by lia. change (2 ^ 4) with 16.
  pose proof (Z.add_lor_land (v * 16) d) as Ha. enough (Z.land (v * 16) d = 0) by lia.
  replace d with (Z.land (Z.ones 4) d).
  - rewrite Z.land_assoc, Z.land_ones by lia. change (2 ^ 4) with 16. rewrite Z.mod_mul by lia. apply Z.land_0_l.
  - rewrite Z.land_comm, Z.land_ones by lia. apply Z.mod_small. lia.
Qed.

Lemma hex_bound b x : hex_digit b = Some x -> 0 <= x < 16.
Proof.
  unfold hex_digit, is_ascii_digit, between. repeat case_if; intros [= <-]; bool_hyps; lia.
Qed.

Definition unicode_state (s : Scanner) (seen cp : Z) : Scanner := with_state (with_code_point s cp) (Unicode seen).

Lemma step_hex s ts b x seen cp :
  hex_digit b = Some x -> 0 <= seen < 3 -> 0 <= cp < 2 ^ 12 ->
  step collect b (unicode_state s seen cp) ts = (unicode_state s (seen + 1) (cp * 16 + x), ts, Ok true).
Proof.
  intros Hx Hs Hc. pose proof (hex_bound b x Hx) as Hb. unfold step, bind, get, unicode_state. simpl.
  unfold step_unicode, bind. rewrite Hx. simpl. rewrite (proj2 (Z.ltb_lt _ _)) by lia. simpl.
  rewrite lor_digit by lia. done.
Qed.

Lemma step_hex_last s ts b x cp :
  hex_digit b = Some x -> 0 <= cp < 2 ^ 12 ->
  step collect b (unicode_state s 3 cp) ts =
  (let '(s', ts', r) := finish_escape (unicode_state s 3 (cp * 16 + x)) ts in
   match r with Ok _ => (s', ts', Ok true) | Err e => (s', ts', Err e) | Panic => (s', ts', Panic) | Hang => (s', ts', Hang) end).
Proof.
  intros Hx Hc. pose proof (hex_bound b x Hx) as Hb. unfold step, bind, get, unicode_state. simpl.
  unfold step_unicode, bind. rewrite Hx. simpl. rewrite lor_digit by lia.
  by destruct (finish_escape _ ts) as [[s' ts'] [u| | |]].
Qed.

Lemma hex4_bound h v : hex4 h v -> 0 <= v < 2 ^ 16.
Proof.
  intros (a & b & c & d & x & y & z & w & _ & Hx & Hy & Hz & Hw & ->).
  apply hex1_digit, hex_bound in Hx, Hy, Hz, Hw. lia.
Qed.
(** A [\u] escape up to what its four digits mean. *)
Lemma reads_hex s ts h v s' :
  hex4 h v -> state s = InString -> finish_escape (unicode_state s 3 v) ts = (s', ts, Ok tt) ->
  reads s ts (92 :: 117 :: h) s' ts.
Proof.
  intros (a & b & c & d & x & y & z & w & -> & Hx & Hy & Hz & Hw & ->) Hs Hf. rewrite hex1_digit in Hx, Hy, Hz, Hw.
  pose proof (hex_bound _ _ Hx). pose proof (hex_bound _ _ Hy). pose proof (hex_bound _ _ Hz). pose proof (hex_bound _ _ Hw).
  eapply (reads_cons _ _ _ (with_state s Escape)).
  { unfold step, bind, get. rewrite Hs. done. }
  eapply (reads_cons _ _ _ (unicode_state s 0 0)); [done|].
  eapply reads_cons; [apply (step_hex s ts a x 0 0 Hx); lia|]. eapply reads_cons; [apply (step_hex _ _ _ _ _ _ Hy); lia|].
  eapply reads_cons; [apply (step_hex _ _ _ _ _ _ Hz); lia|]. apply reads_one.
  change (0 + 1 + 1 + 1) with 3. change (0 * 16 + x) with x. rewrite (step_hex_last _ _ _ _ _ Hw) by lia. by rewrite Hf.
Qed.

(** An escape for a character of the basic plane. *)
Lemma escape_basic s ts k buf h v e :
  in_string k buf None s -> hex4 h v -> between 0xd800 0xdfff v = false -> encode_utf8 v = Some e ->
  len buf + len e <= MAX_STRING ->
  exists s', reads s ts (92 :: 117 :: h) s' ts /\ in_string k (buf ++ e) None s'.
Proof.
  intros [Hst Hk Hb Hp] Hh Hv He Hl. pose proof (hex4_bound h v Hh) as Hbd. eexists. split.
  - eapply reads_hex; [done|done|]. unfold finish_escape, bind, get. cbn [unicode_state with_state with_code_point code_point].
    unfold wrap. rewrite Z.mod_small by lia.
    unfold between in *. destruct (0xd800 <=? v) eqn:E1; destruct (v <=? 0xdfff) eqn:E2; try done; bool_hyps.
    all: rewrite ?(proj2 (Z.leb_gt v _)), ?(proj2 (Z.leb_gt _ v)), ?andb_false_r by lia; cbn [andb].
    all: unfold take_pending, bind, get, modify, ret; cbn [pending_surrogate unicode_state with_state with_code_point]; rewrite Hp; rewrite He; cbn [or_fail ret].
    all: rewrite push_bytes_ok by (simpl; rewrite Hb; lia); done.
  - by split; simpl; rewrite ?Hb.
Qed.

(** A surrogate pair: the first half is kept, the second completes it. *)
Lemma escape_high s ts k buf h v :
  in_string k buf None s -> hex4 h v -> between 0xd800 0xdbff v = true ->
  exists s', reads s ts (92 :: 117 :: h) s' ts /\ in_string k buf (Some v) s'.
Proof.
  intros [Hst Hk Hb Hp] Hh Hv. pose proof (hex4_bound h v Hh) as Hbd. eexists. split.
  - eapply reads_hex; [done|done|]. unfold finish_escape, bind, get. cbn [unicode_state with_state with_code_point code_point].
    unfold wrap. rewrite Z.mod_small by lia. by rewrite Hv.
  - by split.
Qed.

Lemma escape_low s ts k buf high h v e :
  in_string k buf (Some high) s -> hex4 h v -> between 0xdc00 0xdfff v = true ->
  encode_utf8 (0x10000 + (high - 0xd800) * 1024 + (v - 0xdc00)) = Some e -> len buf + len e <= MAX_STRING ->
  exists s', reads s ts (92 :: 117 :: h) s' ts /\ in_string k (buf ++ e) None s'.
Proof.
  intros [Hst Hk Hb Hp] Hh Hv He Hl. pose proof (hex4_bound h v Hh) as Hbd. eexists. split.
  - eapply reads_hex; [done|done|]. unfold finish_escape, bind, get. cbn [unicode_state with_state with_code_point code_point].
    unfold wrap. rewrite Z.mod_small by lia. rewrite Hv.
    assert (between 0xd800 0xdbff v = false) as ->.
    { unfold between in *. bool_hyps. rewrite (proj2 (Z.leb_gt v 0xdbff)) by lia. by rewrite andb_false_r. }
    unfold take_pending, bind, get, modify, ret. cbn [pending_surrogate unicode_state with_state with_code_point].
    rewrite Hp. cbn [or_fail ret]. rewrite Z.shiftl_mul_pow2 by lia. change (2 ^ 10) with 1024. rewrite He. cbn [or_fail ret].
    rewrite push_bytes_ok by (simpl; rewrite Hb; lia). done.
  - by split; simpl; rewrite ?Hb.
Qed.

Lemma escape_range b x : escape_byte b = Some x -> b <> 117.
Proof. intros H ->. done. Qed.

(** The inside of a string is read as its text. *)
Lemma reads_chars l t : chars l t ->
  forall s ts k buf, in_string k buf None s -> len buf + len t <= MAX_STRING ->
  exists s', reads s ts l s' ts /\ in_string k (buf ++ t) None s'.
Proof.
  induction 1 as [|b l t Hb1 Hb2 Hb3 _ IH|b x l t He _ IH|h v e l t Hh Hv He _ IH|h1 v1 h2 v2 e l t H1 V1 H2 V2 He _ IH];
    intros s ts k buf Hs Hl; rewrite ?len_cons, ?len_app in Hl; nonneg_lens.
  - exists s. rewrite app_nil_r. split; [apply reads_nil|done].
  - destruct Hs as [Hst Hk Hb Hp].
    destruct (IH (with_buffer s (buf ++ [b])) ts k (buf ++ [b])) as (s' & Hr & Hs'); [by split|llia|].
    exists s'. rewrite <- app_assoc in Hs'. split; [|done]. eapply reads_cons; [|exact Hr].
    unfold step, bind, get. rewrite Hst. unfold step_string. rewrite !(proj2 (Z.eqb_neq _ _)) by done.
    rewrite (proj2 (Z.leb_gt _ _)) by lia. unfold bind. rewrite push_byte_ok by (rewrite Hb; lia). by rewrite Hb.
  - apply escapes_byte in He. destruct Hs as [Hst Hk Hb Hp].
    destruct (IH (with_buffer s (buf ++ [x])) ts k (buf ++ [x])) as (s' & Hr & Hs'); [by split|llia|].
    exists s'. rewrite <- app_assoc in Hs'. split; [|done].
    eapply (reads_cons _ _ _ (with_state s Escape)); [unfold step, bind, get; by rewrite Hst|].
    eapply reads_cons; [|exact Hr]. unfold step, bind, get. cbn [state with_state]. unfold step_escape.
    rewrite (proj2 (Z.eqb_neq _ _)) by (by eapply escape_range). unfold bind. rewrite He. cbn [or_fail ret].
    rewrite push_byte_ok by (simpl; rewrite Hb; lia). simpl. rewrite Hb. by destruct s; simpl in *; subst.
  - destruct (escape_basic s ts k buf h v e Hs Hh Hv He) as (s1 & R1 & S1); [lia|].
    destruct (IH s1 ts k (buf ++ e) S1) as (s2 & R2 & S2); [llia|]. exists s2. rewrite <- app_assoc in S2. split; [|done].
    change (92 :: 117 :: h ++ l) with ((92 :: 117 :: h) ++ l). by eapply reads_app.
  - destruct (escape_high s ts k buf h1 v1 Hs H1 V1) as (s1 & R1 & S1).
    destruct (escape_low s1 ts k buf v1 h2 v2 e S1 H2 V2 He) as (s2 & R2 & S2); [lia|].
    destruct (IH s2 ts k (buf ++ e) S2) as (s3 & R3 & S3); [llia|]. exists s3. rewrite <- app_assoc in S3. split; [|done].
    change (92 :: 117 :: h1 ++ 92 :: 117 :: h2 ++ l) with ((92 :: 117 :: h1) ++ (92 :: 117 :: h2) ++ l).
    eapply reads_app; [done|]. by eapply reads_app.
Qed.

(** A whole string: a key where one is expected, a value elsewhere. *)
Definition value_place (k : list Container) : Prop := match k with Object true :: _ => False | _ => True end.

Lemma reads_quoted s ts k l t :
  stands Value k s -> text l t ->
  exists s1, reads s ts (34 :: l) s1 ts /\ in_string k t None s1.
Proof.
  intros [Hst Hk Hp] (Hc & Hl & _).
  destruct (reads_chars l t Hc (with_state (with_buffer s []) InString) ts k []) as (s1 & R & S1); [by split|done|].
  exists s1. split; [|done]. eapply reads_cons; [|exact R]. unfold step, bind, get. by rewrite Hst.
Qed.

Lemma reads_string s ts k l t :
  stands Value k s -> value_place k -> text l t ->
  exists s', reads s ts (34 :: l ++ [34]) s' (ts ++ [Str t]) /\ stands AfterValue k s'.
Proof.
  intros Hs Hk Ht. destruct (reads_quoted s ts k l t Hs Ht) as (s1 & R & [I1 I2 I3 I4]). destruct Ht as (_ & _ & Hu).
  exists (with_state s1 AfterValue). split; [|by split].
  change (34 :: l ++ [34]) with ((34 :: l) ++ [34]). eapply reads_app; [done|]. apply reads_one.
  unfold step, bind, get. rewrite I1. unfold step_string. cbn [Z.eqb Pos.eqb]. unfold bind, get. rewrite I4, I3, Hu, I2.
  by destruct k as [|[[]|] k].
Qed.

Lemma reads_key s ts k l t :
  stands Value (Object true :: k) s -> text l t ->
  exists s', reads s ts (34 :: l ++ [34]) s' (ts ++ [Key t]) /\ stands ExpectColon (Object false :: k) s'.
Proof.
  intros Hs Ht. destruct (reads_quoted s ts _ l t Hs Ht) as (s1 & R & [I1 I2 I3 I4]). destruct Ht as (_ & _ & Hu).
  exists (with_state (with_stack s1 (Object false :: k)) ExpectColon). split; [|by split].
  change (34 :: l ++ [34]) with ((34 :: l) ++ [34]). eapply reads_app; [done|]. apply reads_one.
  unfold step, bind, get. rewrite I1. unfold step_string. cbn [Z.eqb Pos.eqb]. unfold bind, get. rewrite I4, I3, Hu, I2.
  cbn [negb]. unfold emit, collect, set_expecting_key, set_state, modify, ret. by rewrite I2.
Qed.

(** *** Numbers and literals *)

(** Bytes collected one by one. *)
Lemma reads_run (x : State) (p : Z -> bool) l :
  (forall b s ts, state s = x -> p b = true -> step collect b s ts = bind (push_byte b) (fun _ => ret true) s ts) ->
  Forall (fun b => p b = true) l -> forall s ts k, stands x k s -> len (buffer s) + len l <= MAX_STRING ->
  exists s', reads s ts l s' ts /\ stands x k s' /\ buffer s' = buffer s ++ l.
Proof.
  intros Hp. induction 1 as [|b l Hb _ IH]; intros s ts k Hs Hl.
  { exists s. rewrite app_nil_r. split; [apply reads_nil|done]. }
  rewrite len_cons in Hl. pose proof (len_nonneg l). destruct Hs as [H1 H2 H3].
  destruct (IH (with_buffer s (buffer s ++ [b])) ts k) as (s' & R & S' & B'); [by split|simpl; llia|].
  exists s'. rewrite B'. simpl. rewrite <- app_assoc. split_and!; try done. eapply reads_cons; [|exact R].
  rewrite Hp by done. unfold bind. by rewrite push_byte_ok by lia.
Qed.

Lemma reads_number s ts k l :
  stands Value k s -> spelled l -> exists s', reads s ts l s' ts /\ stands InNumber k s' /\ buffer s' = l.
Proof.
  intros [H1 H2 H3] Hn. destruct l as [|b l]; [done|]. destruct Hn as (Hb & Hl & Hlen). rewrite len_cons in Hlen.
  destruct (reads_run InNumber is_number_byte l) with (s := with_state (with_buffer s [b]) InNumber) (ts := ts) (k := k)
    as (s' & R & S' & B'); [|done|by split|done|].
  { intros c s0 ts0 Hs Hc. unfold step, bind, get. by rewrite Hs, Hc. }
  exists s'. split_and!; try done. eapply reads_cons; [|exact R]. unfold step, bind, get. rewrite H1.
  unfold step_value. assert (b = 45 \/ 48 <= b <= 57) as Hr.
  { unfold is_ascii_digit, between in Hb. apply orb_true_iff in Hb as [Hb|Hb]; bool_hyps; lia. }
  unfold is_ascii_whitespace. rewrite !(proj2 (Z.eqb_neq b _)) by lia. cbn [orb] in *.
  destruct (Z.eqb_spec b 45) as [-> |Hne]; [done|]. cbn [orb] in Hb. rewrite Hb. done.
Qed.

Lemma reads_literal s ts k l t :
  stands Value k s -> literal_token l = Some t -> exists s', reads s ts l s' ts /\ stands InLiteral k s' /\ buffer s' = l.
Proof.
  intros [H1 H2 H3] Hl.
  assert (exists b rest, l = b :: rest /\ (b = 116 \/ b = 102 \/ b = 110) /\ Forall (fun b => is_ascii_alphabetic b = true) rest /\ len rest <= 10)
    as (b & rest & -> & Hb & Hr & Hlen).
  { unfold literal_token in Hl. repeat case_if; try done;
      match goal with H : bytes_eqb _ _ = true |- _ => apply bytes_eqb_true in H; subst l end;
      do 2 eexists; (split; [done|]); (split; [lia|]); (split; [repeat constructor|vm_compute; discriminate]). }
  destruct (reads_run InLiteral is_ascii_alphabetic rest) with (s := with_state (with_buffer s [b]) InLiteral) (ts := ts) (k := k)
    as (s' & R & S' & B'); [|done|by split|unfold MAX_STRING; simpl; change (len [b]) with 1; lia|].
  { intros c s0 ts0 Hs Hc. unfold step, bind, get. by rewrite Hs, Hc. }
  exists s'. split_and!; try done. eapply reads_cons; [|exact R]. unfold step, bind, get. rewrite H1.
  by destruct Hb as [-> |[-> | ->]].
Qed.

(** A value has ended, with [ts'] its last tokens once the next byte shows it. *)
Definition ends (k : list Container) (s : Scanner) (ts ts' : list Token) : Prop :=
  (stands AfterValue k s /\ ts = ts') \/
  (stands InNumber k s /\ utf8_valid (buffer s) = true /\ ts ++ [Int (default 0 (parse_i64 (buffer s)))] = ts') \/
  (stands InLiteral k s /\ exists t, literal_token (buffer s) = Some t /\ ts ++ [t] = ts').

Definition delimits (d : Z) : Prop := is_number_byte d = false /\ is_ascii_alphabetic d = false.

Lemma ends_feed k s ts ts' d :
  ends k s ts ts' -> delimits d ->
  exists s1, stands AfterValue k s1 /\
    forall s2 ts2, step collect d s1 ts' = (s2, ts2, Ok true) -> reads s ts [d] s2 ts2.
Proof.
  intros [[Hs <-]|[(Hs & Hu & <-)|(Hs & t & Ht & <-)]] [Dn Da]; destruct Hs as [H1 H2 H3].
  - exists s. split; [by split|]. intros s2 ts2 H. by apply reads_one.
  - exists (with_state s AfterValue). split; [by split|]. intros s2 ts2 H. unfold reads. cbn [feed_all]. unfold feed, bind.
    assert (step collect d s ts = (with_state s AfterValue, ts ++ [Int (default 0 (parse_i64 (buffer s)))], Ok false)) as ->.
    { unfold step, bind, get. rewrite H1, Dn. unfold emit_number, bind, get. by rewrite Hu. }
    by rewrite H.
  - exists (with_state s AfterValue). split; [by split|]. intros s2 ts2 H. unfold reads. cbn [feed_all]. unfold feed, bind.
    assert (step collect d s ts = (with_state s AfterValue, ts ++ [t], Ok false)) as ->.
    { unfold step, bind, get. rewrite H1, Da. unfold emit_literal, bind, get. by rewrite Ht. }
    by rewrite H.
Qed.

Lemma ws_delimits b : is_ascii_whitespace b = true -> delimits b.
Proof.
  unfold is_ascii_whitespace. rewrite !orb_true_iff, !Z.eqb_eq. intros H. by repeat destruct H as [H|H]; subst b.
Qed.

Lemma ends_ws k s ts ts' w : ends k s ts ts' -> ws w -> exists s' ts1, reads s ts w s' ts1 /\ ends k s' ts1 ts'.
Proof.
  intros He Hw. destruct Hw as [|b w Hb Hw]; [exists s, ts; split; [apply reads_nil|done]|].
  destruct (ends_feed k s ts ts' b He (ws_delimits b Hb)) as (s1 & S1 & Hr).
  exists s1, ts'. split; [|left; done]. change (b :: w) with ([b] ++ w). eapply reads_app.
  - apply Hr. unfold step, bind, get. rewrite (st_state _ _ _ S1). unfold step_after. by rewrite Hb.
  - apply reads_ws; [right; left; apply S1|done].
Qed.

(** *** Containers *)

Lemma open_step s ts k c b t :
  stands Value k s -> len k < MAX_DEPTH ->
  (b, c, t) = (91, Array, StartArray) \/ (b, c, t) = (123, Object true, StartObject) ->
  exists s', reads s ts [b] s' (ts ++ [t]) /\ stands Value (c :: k) s'.
Proof.
  intros [H1 H2 H3] Hk Hb. exists (with_state (with_stack s (c :: k)) Value). split; [|by split]. apply reads_one.
  unfold step, bind, get. rewrite H1. destruct Hb as [[= -> -> ->]|[= -> -> ->]]; unfold step_value; cbn [Z.eqb Pos.eqb orb is_ascii_whitespace];
    unfold open, bind, get; rewrite H2, (proj2 (Z.leb_gt _ _)) by done; unfold modify; by rewrite H2.
Qed.

Lemma close_step s ts x k c b t :
  x = Value \/ x = AfterValue -> stands x (c :: k) s ->
  (b = 93 /\ c = Array /\ t = EndArray) \/ (b = 125 /\ (exists e, c = Object e) /\ t = EndObject) ->
  exists s', step collect b s ts = (s', ts ++ [t], Ok true) /\ stands AfterValue k s'.
Proof.
  intros Hx [H1 H2 H3] Hb.
  exists (let s' := with_state (with_stack s k) AfterValue in match k with [] => with_done s' true | _ => s' end).
  split; [|by destruct k; split]. unfold step, bind, get. rewrite H1.
  destruct Hb as [(-> & -> & ->)|(-> & [e ->] & ->)], Hx as [-> | ->]; unfold step_value, step_after;
    cbn [Z.eqb Pos.eqb orb is_ascii_whitespace]; unfold close, bind, get; rewrite H2; by destruct k.
Qed.

Lemma comma_step s ts k : stands AfterValue k s ->
  exists s', step collect 44 s ts = (s', ts, Ok true) /\
    stands Value (match k with Object _ :: k => Object true :: k | _ => k end) s'.
Proof.
  intros [H1 H2 H3]. eexists. split.
  - unfold step, bind, get. rewrite H1. unfold step_after. cbn [Z.eqb Pos.eqb orb is_ascii_whitespace].
    unfold set_expecting_key, set_state, modify, bind, ret. reflexivity.
  - rewrite H2. by destruct k as [|[?|] k]; split.
Qed.

(** A value that has ended, then a comma or a closing bracket. *)
Lemma ends_comma k s ts ts' : ends k s ts ts' ->
  exists s', reads s ts [44] s' ts' /\ stands Value (match k with Object _ :: k => Object true :: k | _ => k end) s'.
Proof.
  intros He. destruct (ends_feed k s ts ts' 44 He) as (s1 & S1 & Hr); [done|].
  destruct (comma_step s1 ts' k S1) as (s2 & H2 & S2). exists s2. split; [by apply Hr|done].
Qed.

Lemma ends_close k c s ts ts' b t : ends (c :: k) s ts ts' ->
  (b = 93 /\ c = Array /\ t = EndArray) \/ (b = 125 /\ (exists e, c = Object e) /\ t = EndObject) ->
  exists s', reads s ts [b] s' (ts' ++ [t]) /\ stands AfterValue k s'.
Proof.
  intros He Hb. destruct (ends_feed (c :: k) s ts ts' b He) as (s1 & S1 & Hr); [by destruct Hb as [(-> & _)|(-> & _)]|].
  destruct (close_step s1 ts' AfterValue k c b t) as (s2 & H2 & S2); [by right|done|done|]. exists s2. split; [by apply Hr|done].
Qed.

(** An empty container. *)
Lemma reads_empty s ts k w c b b' t t' :
  stands Value k s -> len k < MAX_DEPTH -> ws w ->
  (b, c, t) = (91, Array, StartArray) \/ (b, c, t) = (123, Object true, StartObject) ->
  (b' = 93 /\ c = Array /\ t' = EndArray) \/ (b' = 125 /\ (exists e, c = Object e) /\ t' = EndObject) ->
  exists s', reads s ts (b :: w ++ [b']) s' (ts ++ [t; t']) /\ stands AfterValue k s'.
Proof.
  intros Hs Hk Hw Hb Hb'. destruct (open_step s ts k c b t Hs Hk Hb) as (s1 & R1 & S1).
  destruct (close_step s1 (ts ++ [t]) Value k c b' t') as (s2 & R2 & S2); [by left|done|done|].
  exists s2. split; [|done]. change (b :: w ++ [b']) with ([b] ++ w ++ [b']). eapply reads_app; [exact R1|].
  eapply reads_app; [apply reads_ws; [left; apply S1|done]|]. replace (ts ++ [t; t']) with ((ts ++ [t]) ++ [t']) by by rewrite <- app_assoc.
  by apply reads_one.
Qed.

(** A container around what ends with its stack. *)
Lemma reads_container s ts k l ts' c c' b b' t t' :
  stands Value k s -> len k < MAX_DEPTH ->
  (b, c, t) = (91, Array, StartArray) \/ (b, c, t) = (123, Object true, StartObject) ->
  (b' = 93 /\ c' = Array /\ t' = EndArray) \/ (b' = 125 /\ (exists e, c' = Object e) /\ t' = EndObject) ->
  (forall s1, stands Value (c :: k) s1 -> exists s2 ts2, reads s1 (ts ++ [t]) l s2 ts2 /\ ends (c' :: k) s2 ts2 ((ts ++ [t]) ++ ts')) ->
  exists s', reads s ts (b :: l ++ [b']) s' (ts ++ t :: ts' ++ [t']) /\ stands AfterValue k s'.
Proof.
  intros Hs Hk Hb Hb' Hin. destruct (open_step s ts k c b t Hs Hk Hb) as (s1 & R1 & S1).
  destruct (Hin s1 S1) as (s2 & ts2 & R2 & E2). destruct (ends_close k c' s2 ts2 _ b' t' E2 Hb') as (s3 & R3 & S3).
  exists s3. split; [|done]. change (b :: l ++ [b']) with ([b] ++ l ++ [b']). eapply reads_app; [exact R1|].
  eapply reads_app; [exact R2|]. by rewrite <- !app_assoc in R3.
Qed.

(** A member up to its value. *)
Lemma reads_member s ts k w l key w1 w2 :
  stands Value (Object true :: k) s -> ws w -> ws w1 -> ws w2 -> text l key ->
  exists s', reads s ts (w ++ 34 :: l ++ 34 :: w1 ++ 58 :: w2) s' (ts ++ [Key key]) /\ stands Value (Object false :: k) s'.
Proof.
  intros Hs Hw H1 H2 Ht. destruct (reads_key s ts k l key Hs Ht) as (s1 & R1 & S1).
  exists (with_state s1 Value). split; [|by destruct S1; split].
  eapply reads_app; [apply reads_ws; [left; apply Hs|done]|].
  replace (34 :: l ++ 34 :: w1 ++ 58 :: w2) with ((34 :: l ++ [34]) ++ w1 ++ [58] ++ w2) by (simpl; by rewrite <- app_assoc).
  eapply reads_app; [exact R1|]. eapply reads_app; [apply reads_ws; [right; right; apply S1|done]|].
  eapply reads_app; [apply reads_one|apply reads_ws; [by left|done]]. unfold step, bind, get. by rewrite (st_state _ _ _ S1).
Qed.

Lemma spelled_utf8 l : spelled l -> utf8_valid l = true.
Proof.
  intros Hn. destruct l as [|b l]; [done|]. destruct Hn as (Hb & Hl & _). apply utf8_ascii. constructor.
  - unfold is_ascii_digit, between in Hb. apply orb_true_iff in Hb as [Hb|Hb]; bool_hyps; lia.
  - eapply Forall_impl; [exact Hl|]. intros x. unfold is_number_byte, is_ascii_digit, between.
    rewrite !orb_true_iff, andb_true_iff, !Z.eqb_eq, !Z.leb_le. lia.
Qed.

End GrammarFacts.
Import GrammarFacts.

(** ** The theorem *)

Ltac flatten_apps := repeat (progress (rewrite <- ?app_assoc; cbn [app])).

Definition reads_value (n : nat) (l : bytes) (ts : list Token) : Prop :=
  forall s ts0 k, stands Value k s -> value_place k -> len k + Z.of_nat n <= MAX_DEPTH ->
  exists s' ts1, reads s ts0 l s' ts1 /\ ends k s' ts1 (ts0 ++ ts).
Definition reads_elements (n : nat) (l : bytes) (ts : list Token) : Prop :=
  forall s ts0 k, stands Value (Array :: k) s -> 1 + len k + Z.of_nat n <= MAX_DEPTH ->
  exists s' ts1, reads s ts0 l s' ts1 /\ ends (Array :: k) s' ts1 (ts0 ++ ts).
Definition reads_members (n : nat) (l : bytes) (ts : list Token) : Prop :=
  forall s ts0 k, stands Value (Object true :: k) s -> 1 + len k + Z.of_nat n <= MAX_DEPTH ->
  exists s' ts1, reads s ts0 l s' ts1 /\ ends (Object false :: k) s' ts1 (ts0 ++ ts).

(** White space around a value. *)
Lemma value_padded n w l w' ts : ws w -> ws w' -> reads_value n l ts -> reads_value n (w ++ l ++ w') ts.
Proof.
  intros Hw Hw' IH s ts0 k Hs Hk Hd. destruct (IH s ts0 k Hs Hk Hd) as (s1 & ts1 & R1 & E1).
  destruct (ends_ws _ _ _ _ w' E1 Hw') as (s2 & ts2 & R2 & E2). exists s2, ts2. split; [|done].
  eapply reads_app; [apply reads_ws; [left; apply Hs|done]|]. by eapply reads_app.
Qed.

(** A value and a comma, ready for what follows. *)
Lemma value_comma n l ts s ts0 k : reads_value n l ts -> stands Value k s -> value_place k -> len k + Z.of_nat n <= MAX_DEPTH ->
  exists s', reads s ts0 (l ++ [44]) s' (ts0 ++ ts) /\
    stands Value (match k with Object _ :: k => Object true :: k | _ => k end) s'.
Proof.
  intros IH Hs Hk Hd. destruct (IH s ts0 k Hs Hk Hd) as (s1 & ts1 & R1 & E1).
  destruct (ends_comma _ _ _ _ E1) as (s2 & R2 & S2). exists s2. split; [by eapply reads_app|done].
Qed.

Lemma elements_one n l ts : reads_value n l ts -> reads_elements n l ts.
Proof. intros IH s ts0 k Hs Hd. apply (IH s ts0 (Array :: k) Hs I). rewrite len_cons. lia. Qed.

Lemma elements_more n l ts l' ts' : reads_value n l ts -> reads_elements n l' ts' -> reads_elements n (l ++ 44 :: l') (ts ++ ts').
Proof.
  intros IH IH' s ts0 k Hs Hd. destruct (value_comma n l ts s ts0 (Array :: k) IH Hs I) as (s1 & R1 & S1); [rewrite len_cons; lia|].
  destruct (IH' s1 (ts0 ++ ts) k S1 Hd) as (s2 & ts2 & R2 & E2). exists s2, ts2. rewrite (app_assoc ts0). split; [|done].
  change (44 :: l') with ([44] ++ l'). rewrite app_assoc. by eapply reads_app.
Qed.

(** A member name, its colon and what its value is. *)
Lemma members_name n w q key w1 w2 l ts ts' :
  ws w -> ws w1 -> ws w2 -> text q key ->
  (forall s ts0 k, stands Value (Object false :: k) s -> 1 + len k + Z.of_nat n <= MAX_DEPTH ->
     exists s' ts1, reads s ts0 l s' ts1 /\ ends (Object false :: k) s' ts1 (ts0 ++ ts ++ ts')) ->
  reads_members n ((w ++ 34 :: q ++ 34 :: w1 ++ 58 :: w2) ++ l) (Key key :: ts ++ ts').
Proof.
  intros Hw H1 H2 Ht IH s ts0 k Hs Hd. destruct (reads_member s ts0 k w q key w1 w2 Hs Hw H1 H2 Ht) as (s0 & R0 & S0).
  destruct (IH s0 (ts0 ++ [Key key]) k S0 Hd) as (s1 & ts1 & R1 & E1). exists s1, ts1. rewrite <- app_assoc in E1.
  split; [by eapply reads_app|done].
Qed.

Lemma members_one n w q key w1 w2 l ts :
  ws w -> ws w1 -> ws w2 -> text q key -> reads_value n l ts ->
  reads_members n ((w ++ 34 :: q ++ 34 :: w1 ++ 58 :: w2) ++ l) (Key key :: ts).
Proof.
  intros Hw H1 H2 Ht IH. rewrite <- (app_nil_r ts). apply members_name; try done. intros s ts0 k Hs Hd.
  rewrite app_nil_r. apply (IH s ts0 (Object false :: k) Hs I). rewrite len_cons. lia.
Qed.

Lemma members_more n w q key w1 w2 l ts l' ts' :
  ws w -> ws w1 -> ws w2 -> text q key -> reads_value n l ts -> reads_members n l' ts' ->
  reads_members n ((w ++ 34 :: q ++ 34 :: w1 ++ 58 :: w2) ++ l ++ 44 :: l') (Key key :: ts ++ ts').
Proof.
  intros Hw H1 H2 Ht IH IH'. apply members_name; try done. intros s ts0 k Hs Hd.
  destruct (value_comma n l ts s ts0 (Object false :: k) IH Hs I) as (s1 & R1 & S1); [rewrite len_cons; lia|].
  destruct (IH' s1 (ts0 ++ ts) k S1 Hd) as (s2 & ts2 & R2 & E2). exists s2, ts2. rewrite (app_assoc ts0). split; [|done].
  change (44 :: l') with ([44] ++ l'). rewrite app_assoc. by eapply reads_app.
Qed.

(** A container whose inside is read. *)
Lemma value_array n l ts : reads_elements n l ts -> reads_value (S n) (91 :: l ++ [93]) (StartArray :: ts ++ [EndArray]).
Proof.
  intros IH s ts0 k Hs _ Hd.
  destruct (reads_container s ts0 k l ts Array Array 91 93 StartArray EndArray Hs) as (s' & R & S'); [lia|by left|by left| |].
  - intros s1 S1. apply IH; [done|lia].
  - do 2 eexists. split; [exact R|by left].
Qed.

Lemma value_object n l ts : reads_members n l ts -> reads_value (S n) (123 :: l ++ [125]) (StartObject :: ts ++ [EndObject]).
Proof.
  intros IH s ts0 k Hs _ Hd.
  destruct (reads_container s ts0 k l ts (Object true) (Object false) 123 125 StartObject EndObject Hs) as (s' & R & S');
    [lia|by right|right; split_and!; [done|by eexists|done]| |].
  - intros s1 S1. apply IH; [done|lia].
  - do 2 eexists. split; [exact R|by left].
Qed.

Lemma value_empty n w (object : bool) : ws w ->
  reads_value (S n) ((if object then 123 else 91) :: w ++ [if object then 125 else 93])
    (if object then [StartObject; EndObject] else [StartArray; EndArray]).
Proof.
  intros Hw s ts0 k Hs _ Hd. destruct object.
  - destruct (reads_empty s ts0 k w (Object true) 123 125 StartObject EndObject Hs) as (s' & R & S');
      [lia|done|by right|right; split_and!; [done|by eexists|done]|]. do 2 eexists. split; [exact R|by left].
  - destruct (reads_empty s ts0 k w Array 91 93 StartArray EndArray Hs) as (s' & R & S'); [lia|done|by left|by left|].
    do 2 eexists. split; [exact R|by left].
Qed.

(** Every production is read. *)
Lemma reads_json :
  (forall n l ts, value n l ts -> reads_value n l ts) /\
  (forall n l ts, elements n l ts -> reads_elements n l ts) /\
  (forall n l ts, members n l ts -> reads_members n l ts).
Proof.
  apply json_ind.
  - intros n l t Hl%literals_token s ts0 k Hs Hk _. destruct (reads_literal s ts0 k l t Hs Hl) as (s' & R & S' & B').
    exists s', ts0. split; [done|]. right. right. split; [done|]. exists t. by rewrite B'.
  - intros n l v [Hl <-]%number_spelled s ts0 k Hs Hk _. destruct (reads_number s ts0 k l Hs Hl) as (s' & R & S' & B').
    exists s', ts0. split; [done|]. right. left. rewrite B'. split_and!; [done|by apply spelled_utf8|done].
  - intros n l t Ht s ts0 k Hs Hk _. destruct (reads_string s ts0 k l t Hs Hk Ht) as (s' & R & S').
    do 2 eexists. split; [exact R|by left].
  - intros n w Hw. by apply (value_empty n w false).
  - intros. by apply value_array.
  - intros n w Hw. by apply (value_empty n w true).
  - intros. by apply value_object.
  - intros. by apply elements_one, value_padded.
  - intros n w l w' ts l' ts' Hw Hw' _ IH _ IH'.
    replace (w ++ l ++ w' ++ 44 :: l') with ((w ++ l ++ w') ++ 44 :: l') by by rewrite <- !app_assoc.
    apply elements_more; [by apply value_padded|done].
  - intros n w q key w1 w2 l w' ts Hw H1 H2 Hw' Ht _ IH.
    replace (w ++ _) with ((w ++ 34 :: q ++ 34 :: w1 ++ 58 :: w2) ++ [] ++ l ++ w') by (flatten_apps; done).
    apply members_one; try done. apply value_padded; [constructor|done|done].
  - intros n w q key w1 w2 l w' ts l' ts' Hw H1 H2 Hw' Ht _ IH _ IH'.
    replace (w ++ _) with ((w ++ 34 :: q ++ 34 :: w1 ++ 58 :: w2) ++ ([] ++ l ++ w') ++ 44 :: l') by (flatten_apps; done).
    apply members_more; try done. apply value_padded; [constructor|done|done].
Qed.

(** The end of a document flushes a value that had no delimiter. *)
Lemma finish_ends s ts ts' : ends [] s ts ts' -> exists s', finish collect s ts = (s', ts', Ok tt).
Proof.
  intros [[[H1 H2 H3] <-]|[([H1 H2 H3] & Hu & <-)|([H1 H2 H3] & t & Ht & <-)]]; eexists;
    unfold finish, bind, get; rewrite H1.
  - unfold ret. by rewrite H2.
  - unfold emit_number, bind, get. rewrite Hu. unfold emit, collect, set_state, modify. simpl. by rewrite H2.
  - unfold emit_literal, bind, get. rewrite Ht. unfold emit, collect, set_state, modify. simpl. by rewrite H2.
Qed.

Lemma scanner_reads (n : nat) (w l w' : bytes) (ts : list Token) (chunks : list bytes) :
  value n l ts -> Z.of_nat n <= MAX_DEPTH -> ws w -> ws w' -> concat chunks = w ++ l ++ w' ->
  exists s s' ts1, push_chunks collect chunks scanner.new [] = (s, ts1, Ok tt) /\ finish collect s ts1 = (s', ts, Ok tt).
Proof.
  intros Hv Hn Hw Hw' Hc. destruct reads_json as [Hval _].
  assert (stands Value [] scanner.new) as S0 by by split.
  destruct (Hval n l ts Hv scanner.new [] [] S0 I) as (s1 & ts1 & R1 & E1); [done|].
  destruct (ends_ws _ _ _ _ w' E1 Hw') as (s2 & ts2 & R2 & E2). destruct (finish_ends s2 ts2 _ E2) as [s3 Hf].
  exists s2, s3, ts2. split; [|exact Hf]. rewrite push_chunks_feed, Hc.
  eapply reads_app; [apply reads_ws; [by left|done]|]. by eapply reads_app.
Qed.

(** C27: The scanner reads JSON.  Every document of the JSON grammar with white space
    anywhere it may stand, nested at most sixteen deep and with strings (which are
    UTF-8) and numbers of at most 256 bytes, cut into chunks in any way, is accepted,
    and the callback sees exactly the tokens of the value, in order: member names told
    from strings by position, escapes and surrogate pairs decoded, a number as its
    value if it is an integer of 64 bits and as 0 otherwise. *)
Theorem scanner_reads_json (n : nat) (w l w' : bytes) (ts : list Token) (chunks : list bytes) :
  value n l ts -> Z.of_nat n <= MAX_DEPTH -> ws w -> ws w' -> concat chunks = w ++ l ++ w' ->
  exists s s' ts1, push_chunks collect chunks scanner.new [] = (s, ts1, Ok tt) /\ finish collect s ts1 = (s', ts, Ok tt).
Proof. apply scanner_reads. Qed.

(** [{"a": [1, true]}] in three chunks. *)
Lemma scanner_reads_json_witness :
  exists s s' ts1, push_chunks collect [[123; 34; 97]; [34; 58; 32; 91; 49; 44; 32; 116; 114]; [117; 101; 93; 125; 10]] scanner.new [] = (s, ts1, Ok tt) /\
    finish collect s ts1 = (s', [StartObject; Key [97]; StartArray; Int 1; Bool true; EndArray; EndObject], Ok tt).
Proof.
  eapply (scanner_reads_json 2 [] (123 :: ([] ++ 34 :: [97] ++ 34 :: [] ++ 58 :: [32] ++
    (91 :: ([] ++ [49] ++ [] ++ 44 :: ([32] ++ [116; 114; 117; 101] ++ [])) ++ [93]) ++ []) ++ [125]) [10]
    (StartObject :: (Key [97] :: (StartArray :: ([Int 1] ++ [Bool true]) ++ [EndArray])) ++ [EndObject])).
  - apply (v_object 1), (m_one 1 [] [97] [97] [] [32] _ []); try solve [repeat constructor].
    + split_and!; [apply ch_raw; try done; constructor|vm_compute; discriminate|done].
    + apply (v_array 0), (e_more 0 [] [49] [] _ _ [Bool true]); try solve [repeat constructor].
      apply v_number, (number_digit 49). lia.
  - vm_compute. discriminate.
  - constructor.
  - by repeat constructor.
  - reflexivity.
Defined.
