(* ===== verification/NetmapFrame.v ===== *)
(** * Responses are reassembled

    Over the frame reader of [Netmap.v], driven the way the caller in
    [harness/src/control.rs] drives it: the responses of a long poll come out
    whole and in order whatever chunks the stream arrives in. *)

From S2P Require Import Prelude Netmap.
Import netmap frame_reader.

(** ** The caller's loop *)

(** The reader, the response being collected and those completed. *)
Record Driver := mkDriver { reader : FrameReader; current : bytes; responses : list bytes }.

(** One input: until the reader needs more and consumed nothing. *)
Fixpoint drive (fuel : nat) (d : Driver) (input : bytes) : res Error Driver :=
  match fuel with
  | O => Hang
  | S fuel =>
      match next (reader d) input with
      | (r, Ok (chunk, consumed)) =>
          let input := zdrop consumed input in
          match chunk with
          | Body b =>
              if is_complete r
              then drive fuel (mkDriver (finish_response r) [] (responses d ++ [current d ++ b])) input
              else drive fuel (mkDriver r (current d ++ b) (responses d)) input
          | End_ => drive fuel (mkDriver r [] (responses d ++ [current d])) input
          | Need =>
              let d := mkDriver r (current d) (responses d) in
              if consumed =? 0 then Ok d else drive fuel d input
          end
      | (_, Err e) => Err e
      | (_, Panic) => Panic
      | (_, Hang) => Hang
      end
  end.

Fixpoint drive_all (d : Driver) (chunks : list bytes) : res Error Driver :=
  match chunks with
  | [] => Ok d
  | c :: chunks => let! d := drive (2 * length c + 4) d c in drive_all d chunks
  end.

(** ** The stream, byte by byte *)

(** Inside a length prefix with [h] of it seen, or [n] bytes before the end of a
    response of which [c] was seen. *)
Inductive Place := InHeader (h : bytes) | InBody (c : bytes) (n : Z).

Definition start (n : Z) : Place * list bytes := if n =? 0 then (InHeader [], [[]]) else (InBody [] n, []).

(** The place after one byte and the response it completes. *)
Definition read_byte (p : Place) (b : Z) : Place * list bytes :=
  match p with
  | InHeader h => if len h =? 3 then start (of_le (h ++ [b])) else (InHeader (h ++ [b]), [])
  | InBody c n => if n =? 1 then (InHeader [], [c ++ [b]]) else (InBody (c ++ [b]) (n - 1), [])
  end.

Fixpoint read_all (p : Place) (l : bytes) : Place * list bytes :=
  match l with
  | [] => (p, [])
  | b :: l => let (p, out) := read_byte p b in let (p, out') := read_all p l in (p, out ++ out')
  end.

(** A response with its little-endian length. *)
Definition framed (b : bytes) : bytes := to_le 4 (len b) ++ b.

Module FrameFacts.

Lemma read_all_app p a b : read_all p (a ++ b) =
  (let (p1, o1) := read_all p a in let (p2, o2) := read_all p1 b in (p2, o1 ++ o2)).
Proof.
  revert p; induction a as [|x a IH]; intros p; simpl.
  - by destruct (read_all p b).
  - destruct (read_byte p x) as [p1 o1]. rewrite IH. destruct (read_all p1 a) as [p2 o2].
    destruct (read_all p2 b) as [p3 o3]. by rewrite app_assoc.
Qed.

Lemma read_header_part h l : len h + len l < 4 -> read_all (InHeader h) l = (InHeader (h ++ l), []).
Proof.
  revert h; induction l as [|b l IH]; intros h Hl; simpl; [by rewrite app_nil_r|].
  rewrite len_cons in Hl. pose proof (len_nonneg l). rewrite (proj2 (Z.eqb_neq _ _)) by lia.
  rewrite IH by llia. by rewrite <- app_assoc.
Qed.

Lemma read_header h l : len h < 4 -> len h + len l = 4 -> read_all (InHeader h) l = start (of_le (h ++ l)).
Proof.
  intros Hh Hl. destruct (split_len (3 - len h) l) as (a & b & -> & Ha); [pose proof (len_nonneg h); lia|].
  rewrite len_app in Hl. destruct b as [|x [|y b]]; rewrite ?len_cons in Hl; try (exfalso; llia).
  rewrite read_all_app, read_header_part by lia. cbn [read_all read_byte].
  rewrite (proj2 (Z.eqb_eq _ _)) by llia. rewrite <- app_assoc. unfold start. by case_if.
Qed.

Lemma read_body_part c n l : len l < n -> read_all (InBody c n) l = (InBody (c ++ l) (n - len l), []).
Proof.
  revert c n; induction l as [|b l IH]; intros c n Hl; simpl.
  { rewrite app_nil_r. change (len []) with 0. by rewrite Z.sub_0_r. }
  rewrite len_cons in *. pose proof (len_nonneg l). rewrite (proj2 (Z.eqb_neq _ _)) by lia.
  rewrite IH by lia. rewrite <- app_assoc. cbn [app]. by replace (n - 1 - len l) with (n - (1 + len l)) by lia.
Qed.

Lemma read_body c n l : 0 < n -> len l = n -> read_all (InBody c n) l = (InHeader [], [c ++ l]).
Proof.
  intros Hn Hl. destruct (split_len (n - 1) l) as (a & b & -> & Ha); [lia|]. rewrite len_app in Hl.
  destruct b as [|x [|y b]]; rewrite ?len_cons in Hl; try (exfalso; llia).
  rewrite read_all_app, read_body_part by lia. cbn [read_all read_byte]. rewrite (proj2 (Z.eqb_eq _ _)) by lia.
  by rewrite <- app_assoc.
Qed.

(** A framed response is read as itself. *)
Lemma read_framed b : len b < 2 ^ 32 -> read_all (InHeader []) (framed b) = (InHeader [], [b]).
Proof.
  intros Hb. unfold framed. rewrite read_all_app, read_header by (rewrite ?len_to_le; done). cbn [app].
  rewrite of_to_le_small by (split; [apply len_nonneg|exact Hb]). unfold start. case_if; bool_hyps.
  - by apply len_zero_nil in Hif as ->.
  - rewrite read_body by (pose proof (len_nonneg b); lia). done.
Qed.

Lemma read_stream bs : Forall (fun b => len b < 2 ^ 32) bs -> read_all (InHeader []) (concat (map framed bs)) = (InHeader [], bs).
Proof.
  induction 1 as [|b bs Hb _ IH]; [done|]. cbn [map concat]. by rewrite read_all_app, read_framed, IH.
Qed.

End FrameFacts.
Import FrameFacts.

(** ** The caller's loop follows the stream *)

(** The driver stands at the place [p]. *)
Definition tracks (p : Place) (r : FrameReader) (cur : bytes) : Prop :=
  len (header r) = 4 /\
  match p with
  | InHeader h => remaining r = None /\ header_filled r = len h /\ len h < 4 /\ ztake (len h) (header r) = h /\ cur = []
  | InBody c n => remaining r = Some n /\ 0 < n /\ header_filled r = 0 /\ cur = c
  end.

Module DriveFacts.

(** The next call inside a length prefix. *)
Lemma next_header r h input :
  len (header r) = 4 -> remaining r = None -> header_filled r = len h -> len h < 4 -> ztake (len h) (header r) = h ->
  exists r', let t := ztake (4 - len h) input in
    next r input = (r', Ok (Need, len t)) /\ len (header r') = 4 /\
    if len (h ++ t) <? 4
    then remaining r' = None /\ header_filled r' = len (h ++ t) /\ ztake (len (h ++ t)) (header r') = h ++ t
    else remaining r' = Some (of_le (h ++ t)) /\ header_filled r' = 0.
Proof.
  intros Hl Hn Hf Hh Ht. pose proof (len_nonneg h). pose proof (len_nonneg input). set (t := ztake (4 - len h) input).
  assert (len t = Z.min (len input) (4 - len h)) as Hlt by (unfold t; llia).
  assert (header r = h ++ zdrop (len h) (header r)) as Hr by (rewrite <- Ht at 1; by rewrite ztake_zdrop).
  destruct (split_len (len t) (zdrop (len h) (header r))) as (a & b & Hab & Ha); [llia|].
  unfold next, HEADER_LEN. rewrite Hn, Hf, <- Hlt.
  assert (get_range 0 (len t) input = Some t) as ->.
  { rewrite <- (ztake_zdrop (4 - len h) input). by apply get_range_front. }
  rewrite Hr, Hab. rewrite copy_at_mid by lia.
  assert (len (h ++ a ++ b) = 4) as H4 by (rewrite <- Hab, <- Hr; done). rewrite !len_app in H4.
  rewrite len_app. case_if; bool_hyps; eexists; cbv zeta; split_and!; try done; cbn [remaining header header_filled]; try llia.
  - rewrite app_assoc. apply ztake_app_len. by rewrite len_app.
  - assert (b = []) as -> by (apply len_zero_nil; lia). by rewrite app_nil_r.
Qed.

(** The next call inside a response. *)
Lemma next_body r n input :
  remaining r = Some n -> 0 < n -> input <> [] ->
  let t := ztake n input in next r input = (mkReader (header r) (header_filled r) (Some (n - len t)), Ok (Body t, len t)) /\ 0 < len t.
Proof.
  intros Hr Hn Hi t. assert (0 < len input) as H0 by (destruct input; [done|llia]).
  assert (len t = Z.min (len input) n) as Hlt by (unfold t; llia). unfold next. rewrite Hr, (proj2 (Z.eqb_neq _ _)) by lia.
  split; [|lia]. destruct input as [|x input]; [done|]. rewrite <- Hlt.
  rewrite <- (ztake_zdrop n (x :: input)) at 1. by rewrite get_range_front.
Qed.

(** With nothing to read the loop stops where it stands. *)
Lemma drive_nil fuel p r cur out : tracks p r cur -> exists r', drive (S fuel) (mkDriver r cur out) [] = Ok (mkDriver r' cur out) /\ tracks p r' cur.
Proof.
  intros [Hl Hp]. destruct p as [h|c n].
  - destruct Hp as (Hn & Hf & Hh & Ht & Hc). destruct (next_header r h [] Hl Hn Hf Hh Ht) as (r' & Hx & Hl' & Hr').
    cbv zeta in *. change (ztake (4 - len h) []) with (ztake (A:=Z) (4 - len h) []) in *.
    assert (ztake (A:=Z) (4 - len h) [] = []) as E by (unfold ztake; apply take_nil). rewrite E in *. rewrite app_nil_r in Hr'.
    rewrite (proj2 (Z.ltb_lt _ _)) in Hr' by done. exists r'. cbn [drive reader]. rewrite Hx. split; [done|]. split; [done|]. naive_solver.
  - destruct Hp as (Hr & Hn & Hf & Hc). exists r. cbn [drive reader]. unfold next. rewrite Hr, (proj2 (Z.eqb_neq _ _)) by lia.
    split; [done|]. by split.
Qed.

(** What one turn took off the front of the input. *)
Lemma zdrop_ztake {A} n (l : list A) : zdrop (len (ztake n l)) l = zdrop n l.
Proof.
  rewrite len_ztake. unfold zdrop. destruct (Z.le_gt_cases (len l) n); [|f_equal; unfold len in *; lia].
  rewrite !drop_ge; [done|unfold len in *; lia..].
Qed.

(** What the loop does from a place, stated of the stream. *)
Definition follows (fuel : nat) (p : Place) (input : bytes) : Prop :=
  forall r cur out, tracks p r cur ->
  exists r' cur', drive fuel (mkDriver r cur out) input = Ok (mkDriver r' cur' (out ++ snd (read_all p input))) /\
    tracks (fst (read_all p input)) r' cur'.

Lemma follows_nil fuel p : follows (S fuel) p [].
Proof.
  intros r cur out Hp. destruct (drive_nil fuel p r cur out Hp) as (r' & Hd & Ht). exists r', cur.
  simpl. rewrite app_nil_r. done.
Qed.

(** A length prefix that stays incomplete, and one that is completed. *)
Lemma follows_part fuel h input : len h + len input < 4 -> input <> [] -> follows (S (S fuel)) (InHeader h) input.
Proof.
  intros Hs Hi r cur out [Hl (Hn & Hf & Hh & Ht & Hc)]. pose proof (len_nonneg h).
  destruct (next_header r h input Hl Hn Hf Hh Ht) as (r' & Hx & Hl' & Hr'). cbv zeta in *.
  assert (ztake (4 - len h) input = input) as E by (apply ztake_all; lia). rewrite E in *.
  rewrite (proj2 (Z.ltb_lt _ _)) in Hr' by (rewrite len_app; lia).
  assert (tracks (InHeader (h ++ input)) r' cur) as Htr by (split; [done|]; rewrite len_app in *; naive_solver lia).
  destruct (drive_nil fuel _ r' cur out Htr) as (r2 & Hd & Ht2). exists r2, cur.
  rewrite read_header_part by done. cbn [fst snd]. rewrite app_nil_r. split; [|done].
  remember (S fuel) as f. cbn [drive reader]. rewrite Hx. cbn [current responses].
  rewrite (proj2 (Z.eqb_neq _ _)) by (destruct input; [done|llia]). rewrite zdrop_all by lia. by subst f.
Qed.

Lemma follows_header fuel h input :
  bytes_ok (h ++ input) -> len h < 4 -> 4 <= len h + len input ->
  (forall p, (p = InHeader [] \/ exists n, p = InBody [] n) -> forall f, (fuel <= f <= S fuel)%nat -> follows f p (zdrop (4 - len h) input)) ->
  follows (S (S fuel)) (InHeader h) input.
Proof.
  intros Hb Hh4 Hs IH r cur out [Hl (Hn & Hf & Hh & Ht & Hc)]. pose proof (len_nonneg h). apply bytes_ok_app in Hb as [Hbh Hbi].
  destruct (next_header r h input Hl Hn Hf Hh Ht) as (r' & Hx & Hl' & Hr'). cbv zeta in *.
  set (t := ztake (4 - len h) input) in *. assert (len t = 4 - len h) as Hlt by (unfold t; llia).
  rewrite (proj2 (Z.ltb_ge _ _)) in Hr' by (rewrite len_app; lia). destruct Hr' as [Hrem Hfil].
  assert (0 <= of_le (h ++ t)) as Hv.
  { apply of_le_bound, bytes_ok_app. split; [done|by apply bytes_ok_ztake]. }
  assert (input = t ++ zdrop (4 - len h) input) as Hi by (unfold t; by rewrite ztake_zdrop).
  assert (read_all (InHeader h) input = (let (p1, o1) := start (of_le (h ++ t)) in
    let (p2, o2) := read_all p1 (zdrop (4 - len h) input) in (p2, o1 ++ o2))) as Hra
    by (rewrite Hi at 1; rewrite read_all_app, read_header by lia; done).
  remember (S fuel) as f. cbn [drive reader]. rewrite Hx. cbn [current responses].
  rewrite (proj2 (Z.eqb_neq _ _)) by lia. unfold t at 1. rewrite zdrop_ztake.
  unfold start in Hra. destruct (of_le (h ++ t) =? 0) eqn:Ez; bool_hyps.
  - subst f. cbn [drive reader]. unfold next. rewrite Hrem, Ez. change (0 =? 0) with true. cbv iota. cbn [current responses].
    rewrite zdrop_0 by lia. rewrite Hc.
    destruct (IH (InHeader []) (or_introl eq_refl) fuel ltac:(lia) (mkReader (header r') (header_filled r') None) [] (out ++ [[]]))
      as (r2 & c2 & Hd & Ht2); [by split|]. exists r2, c2. rewrite Hd, Hra. destruct (read_all (InHeader []) _) as [p2 o2].
    cbn [fst snd] in *. by rewrite <- app_assoc.
  - subst f. destruct (IH (InBody [] (of_le (h ++ t))) (or_intror (ex_intro _ _ eq_refl)) (S fuel) ltac:(lia) r' cur out)
      as (r2 & c2 & Hd & Ht2); [split; [done|]; split_and!; try done; lia|]. exists r2, c2. rewrite Hd, Hra.
    destruct (read_all (InBody [] _) _) as [p2 o2]. done.
Qed.

(** A response that stays incomplete, and one that is completed. *)
Lemma follows_body fuel c n input :
  input <> [] -> (len input < n -> follows (S fuel) (InBody (c ++ input) (n - len input)) []) ->
  (n <= len input -> follows (S fuel) (InHeader []) (zdrop n input)) ->
  follows (S (S fuel)) (InBody c n) input.
Proof.
  intros Hi Hshort Hlong r cur out [Hl (Hr & Hn & Hf & Hc)]. destruct (next_body r n input Hr Hn Hi) as [Hx Ht]. cbv zeta in *.
  remember (S fuel) as f. cbn [drive reader]. rewrite Hx. cbn [current responses]. unfold is_complete. cbn [remaining].
  rewrite zdrop_ztake. set (t := ztake n input) in *. subst cur.
  assert (input = t ++ zdrop n input) as Hs by (unfold t; by rewrite ztake_zdrop).
  destruct (Z_lt_le_dec (len input) n) as [Hlt|Hge].
  - assert (t = input) as E by (apply ztake_all; lia). rewrite E, (proj2 (Z.eqb_neq _ _)), zdrop_all by lia.
    destruct (Hshort Hlt (mkReader (header r) (header_filled r) (Some (n - len input))) (c ++ input) out) as (r2 & c2 & Hd & Ht2).
    { split; [done|]. split_and!; try done. lia. }
    exists r2, c2. rewrite Hd, (read_body_part c n input) by done. done.
  - assert (len t = n) as E by (unfold t; llia). rewrite E, Z.sub_diag. change (0 =? 0) with true. cbv iota.
    destruct (Hlong Hge (finish_response (mkReader (header r) (header_filled r) (Some 0))) [] (out ++ [c ++ t])) as (r2 & c2 & Hd & Ht2).
    { by split. }
    assert (read_all (InBody c n) input = (let (p2, o2) := read_all (InHeader []) (zdrop n input) in (p2, [c ++ t] ++ o2))) as Hra
      by (rewrite Hs at 1; by rewrite read_all_app, read_body by done).
    exists r2, c2. rewrite Hd, Hra. destruct (read_all (InHeader []) (zdrop n input)) as [p2 o2]. cbn [fst snd] in *. by rewrite <- app_assoc.
Qed.

(** The loop follows any input from any place. *)
Lemma drive_follows m : forall input p fuel, (length input <= m)%nat -> (2 * length input + 4 <= fuel)%nat -> bytes_ok input ->
  (match p with InHeader h => bytes_ok h /\ len h < 4 | InBody _ _ => True end) -> follows fuel p input.
Proof.
  induction m as [|m IH]; intros input p fuel Hm Hf Hb Hp; destruct (decide (input = [])) as [-> |Hne];
    try (destruct fuel as [|fuel]; [simpl in Hf; lia|apply follows_nil]); [destruct input; [done|simpl in Hm; lia]|].
  assert (0 < length input)%nat as H0 by (destruct input; [done|simpl; lia]).
  assert (forall k, 0 < k -> (length (zdrop k input) <= length input - 1)%nat) as Hd
    by (intros k Hk; unfold zdrop; rewrite length_drop; lia).
  destruct fuel as [|[|fuel]]; try lia. destruct p as [h|c n].
  - destruct Hp as [Hbh Hh]. destruct (Z_lt_le_dec (len h + len input) 4); [by apply follows_part|].
    apply follows_header; [by apply bytes_ok_app|done|done|]. intros p Hp f Hff. pose proof (Hd (4 - len h) ltac:(lia)).
    apply IH; [lia|lia|by apply bytes_ok_zdrop|]. destruct Hp as [-> |[n ->]]; [split; [constructor|done]|done].
  - intros r cur out Htr. assert (0 < n) as Hn by apply Htr. pose proof (Hd n Hn). revert r cur out Htr.
    change (follows (S (S fuel)) (InBody c n) input). apply follows_body; [done| |].
    + intros _. apply follows_nil.
    + intros _. apply IH; [lia|lia|by apply bytes_ok_zdrop|]. split; [constructor|done].
Qed.

End DriveFacts.
Import DriveFacts.

(** Places are only ever inside a prefix by fewer than four bytes. *)
Lemma read_all_place l : forall p, bytes_ok l -> (match p with InHeader h => bytes_ok h /\ len h < 4 | InBody _ _ => True end) ->
  match fst (read_all p l) with InHeader h => bytes_ok h /\ len h < 4 | InBody _ _ => True end.
Proof.
  induction l as [|b l IH]; intros p Hb Hp; [done|]. apply Forall_cons_iff in Hb as [Hx Hb]. cbn [read_all].
  assert (match fst (read_byte p b) with InHeader h => bytes_ok h /\ len h < 4 | InBody _ _ => True end) as H1.
  { destruct p as [h|c n]; simpl; [destruct Hp as [Hh Hl]|]; unfold start; repeat case_if; simpl; try done;
      bool_hyps; split; try done; try constructor.
    - apply bytes_ok_app. split; [done|by constructor].
    - rewrite len_app. change (len [b]) with 1. lia. }
  destruct (read_byte p b) as [p1 o1]. specialize (IH p1 Hb H1). by destruct (read_all p1 l).
Qed.

Lemma drive_all_follows chunks : forall p r cur out, bytes_ok (concat chunks) ->
  (match p with InHeader h => bytes_ok h /\ len h < 4 | InBody _ _ => True end) -> tracks p r cur ->
  exists r' cur', drive_all (mkDriver r cur out) chunks = Ok (mkDriver r' cur' (out ++ snd (read_all p (concat chunks)))) /\
    tracks (fst (read_all p (concat chunks))) r' cur'.
Proof.
  induction chunks as [|c chunks IH]; intros p r cur out Hb Hp Ht; cbn [drive_all concat].
  { exists r, cur. simpl. by rewrite app_nil_r. }
  cbn [concat] in Hb. apply bytes_ok_app in Hb as [Hc Hb].
  destruct (drive_follows (length c) c p (2 * length c + 4) ltac:(lia) ltac:(lia) Hc Hp r cur out Ht) as (r1 & c1 & -> & T1).
  cbn [rbind]. pose proof (read_all_place c p Hc Hp) as P1. rewrite read_all_app.
  destruct (read_all p c) as [p1 o1]. cbn [fst snd] in *. destruct (IH p1 r1 c1 (out ++ o1) Hb P1 T1) as (r2 & c2 & -> & T2).
  exists r2, c2. destruct (read_all p1 (concat chunks)) as [p2 o2]. cbn [fst snd] in *. by rewrite app_assoc.
Qed.

Lemma stream_driven (bodies chunks : list bytes) :
  Forall (fun b => len b < 2 ^ 32) bodies -> bytes_ok (concat bodies) ->
  concat chunks = concat (map framed bodies) ->
  exists r, drive_all (mkDriver frame_reader.new [] []) chunks = Ok (mkDriver r [] bodies) /\
    remaining r = None /\ header_filled r = 0.
Proof.
  intros Hl Hb Hc. assert (bytes_ok (concat (map framed bodies))) as Hok.
  { clear -Hb. induction bodies as [|b bodies IH]; [constructor|]. cbn [map concat] in *. apply bytes_ok_app in Hb as [Hb Hbs].
    unfold framed at 1. rewrite !bytes_ok_app. split_and!; [apply bytes_to_le|done|by apply IH]. }
  destruct (drive_all_follows chunks (InHeader []) frame_reader.new [] []) as (r & cur & Hd & Ht);
    [by rewrite Hc|split; [constructor|done]|by split|].
  rewrite Hc, read_stream in Hd, Ht by done. destruct Ht as (_ & Hn & Hf & _ & _ & Hcur). cbn [fst snd] in *. subst cur. by exists r.
Qed.

(** Responses survive any chunking.  A stream of length-prefixed responses
    (empty ones included, each below 4 GiB), cut into chunks anywhere, also inside a
    length prefix, is delivered as exactly those responses in order; the loop
    never panics or hangs, and ends ready for the next prefix. *)
Theorem responses_reassembled (bodies chunks : list bytes) :
  Forall (fun b => len b < 2 ^ 32) bodies -> bytes_ok (concat bodies) ->
  concat chunks = concat (map framed bodies) ->
  exists r, drive_all (mkDriver frame_reader.new [] []) chunks = Ok (mkDriver r [] bodies) /\
    remaining r = None /\ header_filled r = 0.
Proof. apply stream_driven. Qed.

Lemma responses_reassembled_witness :
  exists r, drive_all (mkDriver frame_reader.new [] []) [[0; 0]; [0; 0; 2; 0]; [0; 0; 123]; [125]] = Ok (mkDriver r [] [[]; [123; 125]]) /\
    remaining r = None /\ header_filled r = 0.
Proof.
  apply (responses_reassembled [[]; [123; 125]] [[0; 0]; [0; 0; 2; 0]; [0; 0; 123]; [125]]);
    [repeat constructor|vm_compute; repeat constructor; discriminate|reflexivity].
Defined.
