(* ===== verification/NetmapTokens.v ===== *)
(** * The scanner is a transducer

    Over [Netmap.v]: what a callback is told does not depend on what it does.  If
    scanning some bytes gives the tokens [ts], then scanning them with any other
    callback that accepts [ts] hands it exactly those tokens and ends in the same
    scanner state.  With the grammar of [NetmapGrammar.v], a document in any chunks is
    delivered as its tokens. *)

From S2P Require Import Prelude Utf8 Netmap NetmapScan NetmapGrammar.
Import netmap scanner GrammarFacts.

Section Deliver.
Context {C : Type} (cb : C -> Token -> C * res Error unit).

(** Handing tokens to the callback one by one, up to the first failure. *)
Fixpoint deliver (c : C) (ts : list Token) : C * res Error unit :=
  match ts with
  | [] => (c, Ok tt)
  | t :: ts => match cb c t with (c, Ok _) => deliver c ts | r => r end
  end.

Lemma deliver_app c ts ts' : deliver c (ts ++ ts') = match deliver c ts with (c, Ok _) => deliver c ts' | r => r end.
Proof. revert c; induction ts as [|t ts IH]; intros c; simpl; [done|]. by destruct (cb c t) as [c' [[]| | |]]. Qed.

Lemma deliver_app_ok c ts c' ts' : deliver c ts = (c', Ok tt) -> deliver c (ts ++ ts') = deliver c' ts'.
Proof. intros H. by rewrite deliver_app, H. Qed.

(** [m2] does to the scanner what [m1] does, and delivers what [m1] collects. *)
Definition transduces {A} (m1 : M (C := list Token) A) (m2 : M (C := C) A) : Prop :=
  forall s ts, exists new s1 r, m1 s ts = (s1, ts ++ new, r) /\
    forall c c', deliver c new = (c', Ok tt) -> m2 s c = (s1, c', r).

Lemma trans_pure {A} (m1 : M A) (m2 : M A) :
  (forall s, exists s1 r, (forall ts, m1 s ts = (s1, ts, r)) /\ forall c, m2 s c = (s1, c, r)) -> transduces m1 m2.
Proof.
  intros H s ts. destruct (H s) as (s1 & r & H1 & H2). exists [], s1, r. rewrite app_nil_r. split; [done|].
  intros c c' [= <-]. done.
Qed.

Lemma trans_emit t : transduces (emit collect t) (emit cb t).
Proof.
  intros s ts. exists [t], s, (Ok tt). split; [done|]. intros c c' H. unfold emit. simpl in H.
  destruct (cb c t) as [c1 [[]| | |]]; simplify_eq; done.
Qed.

Lemma trans_bind {A B} (m1 : M A) (m2 : M A) (k1 : A -> M B) (k2 : A -> M B) :
  transduces m1 m2 -> (forall a, transduces (k1 a) (k2 a)) -> transduces (bind m1 k1) (bind m2 k2).
Proof.
  intros Hm Hk s ts. destruct (Hm s ts) as (new & s1 & r & H1 & H2). unfold bind. rewrite H1.
  destruct r as [a|e| |]; [|exists new, s1, (Err e)|exists new, s1, Panic|exists new, s1, Hang].
  2-4: split; [done|]; intros c c' Hd; by rewrite (H2 c c' Hd).
  destruct (Hk a s1 (ts ++ new)) as (new' & s2 & r' & H3 & H4). exists (new ++ new'), s2, r'. rewrite app_assoc. split; [done|].
  intros c c' Hd. rewrite deliver_app in Hd. destruct (deliver c new) as [c1 [[]| | |]] eqn:E; try done.
  rewrite (H2 c c1 E). by apply H4.
Qed.

Ltac trans_pure_now := apply trans_pure; intros ?s; do 2 eexists; split; intros; reflexivity.

Lemma trans_push_byte b : transduces (push_byte b) (push_byte b).
Proof. apply trans_pure. intros s. unfold push_byte, bind, get. destruct (_ <=? _); do 2 eexists; split; intros; reflexivity. Qed.
Lemma trans_push_bytes l : transduces (push_bytes l) (push_bytes l).
Proof. induction l as [|b l IH]; simpl; [trans_pure_now|]. apply trans_bind; [apply trans_push_byte|done]. Qed.

Ltac trans_steps :=
  repeat lazymatch goal with
  | |- transduces (bind _ _) _ => apply trans_bind; [|intros ?]
  | |- transduces (emit _ _) _ => apply trans_emit
  | |- transduces (push_byte _) _ => apply trans_push_byte
  | |- transduces (push_bytes _) _ => apply trans_push_bytes
  | |- transduces (or_fail ?o _) _ => destruct o; trans_pure_now
  | |- transduces (if ?b then _ else _) _ => destruct b
  | |- transduces (match ?x with _ => _ end) _ => destruct x
  | |- transduces (get _) _ => trans_pure_now
  | |- transduces (modify _) _ => trans_pure_now
  | |- transduces (ret _) _ => trans_pure_now
  | |- transduces (fail _) _ => trans_pure_now
  | |- transduces (set_state _) _ => trans_pure_now
  | |- transduces clear_buffer _ => trans_pure_now
  | |- transduces (set_expecting_key _) _ => trans_pure_now
  end.

Lemma trans_close b : transduces (close collect b) (close cb b).
Proof. unfold close. trans_steps. Qed.
Lemma trans_finish_escape : transduces finish_escape finish_escape.
Proof. unfold finish_escape, take_pending. trans_steps. Qed.
Lemma trans_emit_number : transduces (emit_number collect) (emit_number cb).
Proof. unfold emit_number. trans_steps. Qed.
Lemma trans_emit_literal : transduces (emit_literal collect) (emit_literal cb).
Proof. unfold emit_literal. trans_steps. Qed.

Lemma trans_step b : transduces (step collect b) (step cb b).
Proof.
  unfold step. apply trans_bind; [trans_pure_now|].
  intros []; unfold step_value, step_string, step_escape, step_unicode, step_after, open; trans_steps;
    auto using trans_close, trans_finish_escape, trans_emit_number, trans_emit_literal.
Qed.

Lemma trans_push l : transduces (push collect l) (push cb l).
Proof.
  unfold push. generalize (2 * length l)%nat as fuel. intros fuel. revert l. induction fuel as [|fuel IH]; intros [|b l]; simpl;
    try trans_pure_now. apply trans_bind; [apply trans_step|]. intros a. apply IH.
Qed.

Lemma trans_chunks chunks : transduces (push_chunks collect chunks) (push_chunks cb chunks).
Proof. induction chunks as [|x chunks IH]; simpl; [trans_pure_now|]. apply trans_bind; [apply trans_push|done]. Qed.

Lemma trans_finish : transduces (finish collect) (finish cb).
Proof. unfold finish. trans_steps; auto using trans_emit_number, trans_emit_literal. Qed.

(** A document of the grammar is delivered as its tokens. *)
Lemma document_delivered n w l w' ts chunks c c' :
  value n l ts -> Z.of_nat n <= MAX_DEPTH -> ws w -> ws w' -> concat chunks = w ++ l ++ w' -> deliver c ts = (c', Ok tt) ->
  exists s s' c1, push_chunks cb chunks scanner.new c = (s, c1, Ok tt) /\ finish cb s c1 = (s', c', Ok tt).
Proof.
  intros Hv Hn Hw Hw' Hc Hd. destruct reads_json as [Hval _].
  destruct (Hval n l ts Hv scanner.new [] [] ltac:(by split) I) as (s1 & ts1 & R1 & E1); [done|].
  destruct (ends_ws _ _ _ _ w' E1 Hw') as (s2 & ts2 & R2 & E2). destruct (finish_ends s2 ts2 _ E2) as [s3 Hf].
  assert (Hp : push_chunks collect chunks scanner.new [] = (s2, ts2, Ok tt)).
  { rewrite push_chunks_feed, Hc. eapply reads_app; [apply reads_ws; [by left|done]|]. by eapply reads_app. }
  destruct (trans_chunks chunks scanner.new []) as (a & sa & ra & Ha & Ta). rewrite Hp in Ha. injection Ha as <- Ha <-. simpl in Ha. subst a.
  destruct (trans_finish s2 ts2) as (b & sb & rb & Hb & Tb). rewrite Hf in Hb. injection Hb as <- Hb <-. simpl in Hb. subst ts.
  rewrite deliver_app in Hd. destruct (deliver c ts2) as [c1 [[]| | |]] eqn:E; try done.
  exists s2, s3, c1. split; [by apply Ta|by apply Tb].
Qed.

End Deliver.
