(* ===== verification/NetmapParser.v ===== *)
(** * The network map

    [crates/ts-netmap]: peers and their table ([peer.rs]), the relay map ([derp.rs])
    and the parser that turns tokens into updates of both ([parser.rs]).  A
    [heapless::Vec] or [heapless::String] is a list that refuses to grow past its
    capacity. *)

From Stdlib Require Import Strings.String.
From S2P Require Import Prelude Keys NetAddr Netmap.
Import keys netmap.

(** [heapless::Vec::push] *)
Definition hpush {A} (capacity : Z) (x : A) (l : list A) : option (list A) :=
  if len l <? capacity then Some (l ++ [x]) else None.

(** [let _ = vec.push(x)] *)
Definition push_or_drop {A} (capacity : Z) (x : A) (l : list A) : list A := default l (hpush capacity x l).

(** [heapless::String::try_from(s).unwrap_or_default()] *)
Definition string_or_default (capacity : Z) (s : bytes) : bytes := if len s <=? capacity then s else [].

(** [iter().find(f)] *)
Definition find_by {A} (f : A -> bool) (l : list A) : option A := let? i := position f l in l !! i.

Definition MAX_PEERS : Z := 32.
Definition MAX_ADDRESSES : Z := 4.
Definition MAX_ALLOWED_IPS : Z := 8.
Definition MAX_ENDPOINTS : Z := 8.
Definition MAX_DERP_REGIONS : Z := 8.
Definition MAX_DERP_NODES : Z := 4.

(** ** Peers *)

Module peer.

Record Cidr := mkCidr { address : IpAddr; prefix : Z }.

(** [text.split_once('/')] *)
Fixpoint split_once (c : Z) (l : bytes) : option (bytes * bytes) :=
  match l with
  | [] => None
  | b :: l => if b =? c then Some ([], l) else let? (x, y) := split_once c l in Some (b :: x, y)
  end.

Definition parse_cidr (text : bytes) : res Error Cidr :=
  let! '(a, p) := ok_or (split_once 47 text) Malformed in
  let! a := ok_or (parse_ip_addr a) Malformed in
  let! p := ok_or (parse_uint 255 p) Malformed in
  let width := if is_ipv4 a then 32 else 128 in
  if width <? p then Err Malformed else Ok (mkCidr a p).

Record Peer := mkPeer {
  id : Z;
  node_key : NodePublic;
  disco_key : option DiscoPublic;
  online : bool;
  home_derp : Z;
  addresses : list Cidr;
  allowed_ips : list Cidr;
  endpoints : list SocketAddr;
}.

Definition new (id : Z) (node_key : NodePublic) : Peer := mkPeer id node_key None false 0 [] [] [].

Definition tailscale_ipv4 (p : Peer) : option bytes :=
  let? c := find_by (fun c => is_ipv4 (address c)) (addresses p) in
  match address c with V4 o => Some o | V6 _ => None end.

Definition direct_endpoint (p : Peer) : option (bytes * Z) :=
  let? e := find_by (fun e => match e with Sock4 _ _ => true | Sock6 _ _ _ => false end) (endpoints p) in
  match e with Sock4 o port => Some (o, port) | Sock6 _ _ _ => None end.

(** *** The table, with capacity [N] *)

Abbreviation PeerTable := (list Peer).

Definition has_id (i : Z) (p : Peer) : bool := id p =? i.

Definition get (t : PeerTable) (i : Z) : option Peer := find_by (has_id i) t.

(** [get_mut], followed by the assignment [f]. *)
Definition update (t : PeerTable) (i : Z) (f : Peer -> Peer) : option PeerTable :=
  let? n := position (has_id i) t in Some (alter f n t).

Definition upsert (N : Z) (t : PeerTable) (p : Peer) : PeerTable * res Error unit :=
  match update t (id p) (fun _ => p) with
  | Some t => (t, Ok tt)
  | None => match hpush N p t with Some t => (t, Ok tt) | None => (t, Err Full) end
  end.

Definition remove (t : PeerTable) (i : Z) : PeerTable * bool :=
  match position (has_id i) t with
  | Some n => (swap_remove n t, true)
  | None => (t, false)
  end.

Definition by_node_key `{C : Curve} (t : PeerTable) (key : NodePublic) : option Peer :=
  find_by (fun p => public_eq (as_bytes (node_key p)) (as_bytes key)) t.

Definition clear (t : PeerTable) : PeerTable := [].

End peer.

(** ** Relays *)

Module derp.

Definition DEFAULT_DERP_PORT : Z := 443.

Record DerpNode := mkDerpNode { host_name : bytes; port : Z; stun_port : Z }.
Record DerpRegion := mkDerpRegion { id : Z; code : bytes; nodes : list DerpNode }.

Abbreviation DerpMap := (list DerpRegion).

Definition has_id (i : Z) (r : DerpRegion) : bool := id r =? i.

Definition region (m : DerpMap) (i : Z) : option DerpRegion := find_by (has_id i) m.

Definition insert (m : DerpMap) (r : DerpRegion) : DerpMap * res Error unit :=
  match position (has_id (id r)) m with
  | Some n => (<[n := r]> m, Ok tt)
  | None => match hpush MAX_DERP_REGIONS r m with Some m => (m, Ok tt) | None => (m, Err Full) end
  end.

Definition clear (m : DerpMap) : DerpMap := [].

End derp.

(** ** The parser *)

Module parser.
Import derp peer.

Inductive Context :=
| Root | SelfNode | PeerArray | PeerObject | PeerAddresses | PeerAllowedIps | PeerEndpoints | SelfAddresses
| PatchArray | PatchObject | PatchEndpoints | RemovedArray
| DerpMapObject | DerpRegions | DerpRegion_ | DerpNodes | DerpNode_ | Ignored.

Record Netmap := mkNetmap {
  peers : PeerTable;
  relays : DerpMap;
  own_key : option NodePublic;
  own_disco : option DiscoPublic;
  own_addresses : list Cidr;
  responses : Z;
}.

Definition netmap_new : Netmap := mkNetmap [] [] None None [] 0.

Definition with_peers (m : Netmap) (x : PeerTable) : Netmap :=
  mkNetmap x (relays m) (own_key m) (own_disco m) (own_addresses m) (responses m).
Definition with_relays (m : Netmap) (x : DerpMap) : Netmap :=
  mkNetmap (peers m) x (own_key m) (own_disco m) (own_addresses m) (responses m).
Definition with_own_key (m : Netmap) (x : option NodePublic) : Netmap :=
  mkNetmap (peers m) (relays m) x (own_disco m) (own_addresses m) (responses m).
Definition with_own_disco (m : Netmap) (x : option DiscoPublic) : Netmap :=
  mkNetmap (peers m) (relays m) (own_key m) x (own_addresses m) (responses m).
Definition with_own_addresses (m : Netmap) (x : list Cidr) : Netmap :=
  mkNetmap (peers m) (relays m) (own_key m) (own_disco m) x (responses m).
Definition with_responses (m : Netmap) (x : Z) : Netmap :=
  mkNetmap (peers m) (relays m) (own_key m) (own_disco m) (own_addresses m) x.

(** A peer being built, or a patch being collected. *)
Record Pending := mkPending {
  p_id : Z;
  p_key : option NodePublic;
  p_disco : option DiscoPublic;
  p_online : option bool;
  p_home : option Z;
  p_addresses : list Cidr;
  p_allowed : list Cidr;
  p_endpoints : list SocketAddr;
  p_endpoints_present : bool;
}.

Definition pending_new : Pending := mkPending 0 None None None None [] [] [] false.

Definition with_id (p : Pending) (x : Z) : Pending :=
  mkPending x (p_key p) (p_disco p) (p_online p) (p_home p) (p_addresses p) (p_allowed p) (p_endpoints p) (p_endpoints_present p).
Definition with_key (p : Pending) (x : option NodePublic) : Pending :=
  mkPending (p_id p) x (p_disco p) (p_online p) (p_home p) (p_addresses p) (p_allowed p) (p_endpoints p) (p_endpoints_present p).
Definition with_disco (p : Pending) (x : option DiscoPublic) : Pending :=
  mkPending (p_id p) (p_key p) x (p_online p) (p_home p) (p_addresses p) (p_allowed p) (p_endpoints p) (p_endpoints_present p).
Definition with_online (p : Pending) (x : option bool) : Pending :=
  mkPending (p_id p) (p_key p) (p_disco p) x (p_home p) (p_addresses p) (p_allowed p) (p_endpoints p) (p_endpoints_present p).
Definition with_home (p : Pending) (x : option Z) : Pending :=
  mkPending (p_id p) (p_key p) (p_disco p) (p_online p) x (p_addresses p) (p_allowed p) (p_endpoints p) (p_endpoints_present p).
Definition with_addresses (p : Pending) (x : list Cidr) : Pending :=
  mkPending (p_id p) (p_key p) (p_disco p) (p_online p) (p_home p) x (p_allowed p) (p_endpoints p) (p_endpoints_present p).
Definition with_allowed (p : Pending) (x : list Cidr) : Pending :=
  mkPending (p_id p) (p_key p) (p_disco p) (p_online p) (p_home p) (p_addresses p) x (p_endpoints p) (p_endpoints_present p).
Definition with_endpoints (p : Pending) (x : list SocketAddr) : Pending :=
  mkPending (p_id p) (p_key p) (p_disco p) (p_online p) (p_home p) (p_addresses p) (p_allowed p) x (p_endpoints_present p).
Definition with_endpoints_present (p : Pending) (x : bool) : Pending :=
  mkPending (p_id p) (p_key p) (p_disco p) (p_online p) (p_home p) (p_addresses p) (p_allowed p) (p_endpoints p) x.

(** A DERP region being built. *)
Record PendingRegion := mkPendingRegion {
  r_id : Z;
  r_code : bytes;
  r_nodes : list DerpNode;
  node_host : bytes;
  node_port : Z;
  node_stun : Z;
}.

Definition region_new : PendingRegion := mkPendingRegion 0 [] [] [] 0 0.

Definition with_region_id (r : PendingRegion) (x : Z) : PendingRegion :=
  mkPendingRegion x (r_code r) (r_nodes r) (node_host r) (node_port r) (node_stun r).
Definition with_code (r : PendingRegion) (x : bytes) : PendingRegion :=
  mkPendingRegion (r_id r) x (r_nodes r) (node_host r) (node_port r) (node_stun r).
Definition with_nodes (r : PendingRegion) (x : list DerpNode) : PendingRegion :=
  mkPendingRegion (r_id r) (r_code r) x (node_host r) (node_port r) (node_stun r).
Definition with_node (r : PendingRegion) (host : bytes) (port stun : Z) : PendingRegion :=
  mkPendingRegion (r_id r) (r_code r) (r_nodes r) host port stun.

(** The stack is written top first. *)
Record State := mkState {
  stack : list Context;
  key : bytes;
  pending : Pending;
  region : PendingRegion;
  failed : option Error;
}.

Definition state_new : State := mkState [] [] pending_new region_new None.

Definition with_stack (s : State) (x : list Context) : State := mkState x (key s) (pending s) (region s) (failed s).
Definition with_name (s : State) (x : bytes) : State := mkState (stack s) x (pending s) (region s) (failed s).
Definition with_pending (s : State) (x : Pending) : State := mkState (stack s) (key s) x (region s) (failed s).
Definition with_region (s : State) (x : PendingRegion) : State := mkState (stack s) (key s) (pending s) x (failed s).

(** [State::fail]: the first error is kept. *)
Definition fail (s : State) (e : Error) : State :=
  mkState (stack s) (key s) (pending s) (region s) (match failed s with Some e' => Some e' | None => Some e end).

Definition fail_on {A} (s : State) (r : res Error A) : State := match r with Err e => fail s e | _ => s end.

Definition context (s : State) : Context := match stack s with c :: _ => c | [] => Ignored end.

Definition MAX_STACK : Z := 16.
Definition MAX_KEY : Z := 64.

Definition named (k : bytes) (name : string) : bool := bytes_eqb k (str name).

Definition child_context (s : State) : Context :=
  let k := key s in
  match context s with
  | Root =>
      if named k "Node" then SelfNode else
      if named k "Peers" || named k "PeersChanged" then PeerArray else
      if named k "PeersChangedPatch" then PatchArray else
      if named k "PeersRemoved" then RemovedArray else
      if named k "DERPMap" then DerpMapObject else Ignored
  | SelfNode => if named k "Addresses" then SelfAddresses else Ignored
  | PeerArray => PeerObject
  | PeerObject =>
      if named k "Addresses" then PeerAddresses else
      if named k "AllowedIPs" then PeerAllowedIps else
      if named k "Endpoints" then PeerEndpoints else Ignored
  | PatchArray => PatchObject
  | PatchObject => if named k "Endpoints" then PatchEndpoints else Ignored
  | DerpMapObject => if named k "Regions" then DerpRegions else Ignored
  | DerpRegions => DerpRegion_
  | DerpRegion_ => if named k "Nodes" then DerpNodes else Ignored
  | DerpNodes => DerpNode_
  | Ignored => match stack s with [] => Root | _ => Ignored end
  | _ => Ignored
  end.

Definition on_start (s : State) : State :=
  let c := child_context s in
  let s :=
    match c with
    | PeerObject | PatchObject => with_pending s pending_new
    | DerpRegion_ => with_region s (with_region_id region_new (default 0 (parse_uint U16_MAX (key s))))
    | DerpNode_ => with_region s (with_node (region s) [] DEFAULT_DERP_PORT 0)
    | _ => s
    end in
  let s := if len (stack s) <? MAX_STACK then with_stack s (c :: stack s) else fail s Full in
  with_name s [].

Section Parser.
Context `{C : Curve} (PEERS : Z).

Definition same_key (a b : NodePublic) : bool := public_eq (as_bytes a) (as_bytes b).

Definition peer_of (p : Pending) (k : NodePublic) : Peer :=
  mkPeer (p_id p) k (p_disco p) (default false (p_online p)) (default 0 (p_home p)) (p_addresses p) (p_allowed p) (p_endpoints p).

Definition commit_peer (s : State) (m : Netmap) : State * Netmap :=
  match p_key (pending s) with
  | None => (s, m)
  | Some k =>
      if match own_key m with Some own => same_key own k | None => false end then (s, m) else
      let (t, r) := upsert PEERS (peers m) (peer_of (pending s) k) in (fail_on s r, with_peers m t)
  end.

(** Only the fields the patch mentioned. *)
Definition patched (p : Pending) (x : Peer) : Peer :=
  mkPeer (id x) (node_key x)
    (match p_disco p with Some k => Some k | None => disco_key x end)
    (default (online x) (p_online p))
    (default (home_derp x) (p_home p))
    (addresses x) (allowed_ips x)
    (if p_endpoints_present p then p_endpoints p else endpoints x).

Definition apply_patch (s : State) (m : Netmap) : Netmap :=
  match update (peers m) (p_id (pending s)) (patched (pending s)) with
  | Some t => with_peers m t
  | None => m
  end.

Definition on_end (s : State) (m : Netmap) : State * Netmap :=
  let c := context s in
  let s := with_stack s (tail (stack s)) in
  let (s, m) :=
    match c with
    | PeerObject => commit_peer s m
    | PatchObject => (s, apply_patch s m)
    | DerpNode_ =>
        let r := region s in
        (with_region s (with_nodes r (push_or_drop MAX_DERP_NODES (mkDerpNode (node_host r) (node_port r) (node_stun r)) (r_nodes r))), m)
    | DerpRegion_ =>
        let r := region s in
        let s := with_region s (with_nodes r []) in
        let (d, e) := insert (relays m) (mkDerpRegion (r_id r) (r_code r) (r_nodes r)) in
        (fail_on s e, with_relays m d)
    | Root => (s, with_responses m (responses m + 1))
    | _ => (s, m)
    end in
  (with_name s [], m).

(** The ids of the peers with our key, collected into a vector of four. *)
Definition own_ids (m : Netmap) (own : NodePublic) : option (list Z) :=
  let ids := map id (filter (fun p => Is_true (same_key (node_key p) own)) (peers m)) in
  if len ids <=? 4 then Some ids else None.

(** The key is stored before the ids are collected, so it is there also when
    collecting them panics. *)
Definition set_own_key (m : Netmap) (value : bytes) : Netmap * res Error unit :=
  match @parse Node value with
  | Ok own =>
      let m := with_own_key m (Some own) in
      match own_ids m own with
      | Some ours => (with_peers m (fold_left (fun t i => (remove t i).1) ours (peers m)), Ok tt)
      | None => (m, Panic)
      end
  | _ => (with_own_key m None, Ok tt)
  end.

(** [Result::ok] *)
Definition ok {E A} (r : res E A) : option A := match r with Ok a => Some a | _ => None end.

(** A CIDR into one of the vectors, or the error. *)
Definition add_cidr (s : State) (value : bytes) (add : State -> Cidr -> State) : State :=
  match parse_cidr value with Ok c => add s c | Err e => fail s e | _ => s end.

Definition on_string (s : State) (m : Netmap) (value : bytes) : State * Netmap * res Error unit :=
  let k := key s in
  let p := pending s in
  let done s m := (with_name s [], m, Ok tt) in
  match context s with
  | SelfNode =>
      if named k "Key" then
        match set_own_key m value with
        | (m, Panic) => (s, m, Panic)
        | (m, _) => done s m
        end
      else if named k "DiscoKey" then done s (with_own_disco m (ok (@parse Disco value)))
      else done s m
  | SelfAddresses =>
      match parse_cidr value with
      | Ok c => done s (with_own_addresses m (push_or_drop MAX_ADDRESSES c (own_addresses m)))
      | Err e => done (fail s e) m
      | _ => done s m
      end
  | PeerObject | PatchObject =>
      if named k "Key" then
        done (match parse value with Ok x => with_pending s (with_key p (Some x)) | _ => fail s Malformed end) m
      else if named k "DiscoKey" then
        done (match parse value with Ok x => with_pending s (with_disco p (Some x)) | _ => fail s Malformed end) m
      else done s m
  | PeerAddresses =>
      done (add_cidr s value (fun s c => with_pending s (with_addresses p (push_or_drop MAX_ADDRESSES c (p_addresses p))))) m
  | PeerAllowedIps =>
      done (add_cidr s value (fun s c => with_pending s (with_allowed p (push_or_drop MAX_ALLOWED_IPS c (p_allowed p))))) m
  | PeerEndpoints | PatchEndpoints =>
      let p := with_endpoints_present p true in
      let p := match parse_socket_addr value with
               | Some e => with_endpoints p (push_or_drop MAX_ENDPOINTS e (p_endpoints p))
               | None => p
               end in
      done (with_pending s p) m
  | DerpRegion_ => done (if named k "RegionCode" then with_region s (with_code (region s) (string_or_default 16 value)) else s) m
  | DerpNode_ =>
      let r := region s in
      done (if named k "HostName" then with_region s (with_node r (string_or_default 64 value) (node_port r) (node_stun r)) else s) m
  | _ => done s m
  end.

Definition on_number (s : State) (m : Netmap) (value : Z) : State * Netmap :=
  let k := key s in
  let p := pending s in
  let r := region s in
  let (s, m) :=
    match context s with
    | PeerObject | PatchObject =>
        if named k "ID" || named k "NodeID" then (with_pending s (with_id p (wrap 64 value)), m) else
        if named k "HomeDERP" || named k "DERPRegion" then (with_pending s (with_home p (Some (wrap 16 value))), m) else (s, m)
    | RemovedArray => (s, with_peers m (remove (peers m) (wrap 64 value)).1)
    | DerpRegion_ => (if named k "RegionID" then with_region s (with_region_id r (wrap 16 value)) else s, m)
    | DerpNode_ =>
        (if named k "DERPPort" then with_region s (with_node r (node_host r) (wrap 16 value) (node_stun r)) else
         if named k "STUNPort" then with_region s (with_node r (node_host r) (node_port r) (wrap 16 value)) else s, m)
    | _ => (s, m)
    end in
  (with_name s [], m).

Definition on_bool (s : State) (value : bool) : State :=
  let s :=
    match context s with
    | PeerObject | PatchObject =>
        if named (key s) "Online" then with_pending s (with_online (pending s) (Some value)) else s
    | _ => s
    end in
  with_name s [].

Definition on_token (c : State * Netmap) (t : scanner.Token) : (State * Netmap) * res Error unit :=
  let (s, m) := c in
  match t with
  | scanner.StartObject | scanner.StartArray => ((on_start s, m), Ok tt)
  | scanner.EndObject | scanner.EndArray => (on_end s m, Ok tt)
  | scanner.Key k => ((with_name s (string_or_default MAX_KEY k), m), Ok tt)
  | scanner.Str v => let '(s, m, r) := on_string s m v in ((s, m), r)
  | scanner.Int v => (on_number s m v, Ok tt)
  | scanner.Bool b => ((on_bool s b, m), Ok tt)
  | scanner.Null => ((with_name s [], m), Ok tt)
  end.

(** *** The whole *)

Record Parser := mkParser { scan : scanner.Scanner; st : State }.

Definition new : Parser := mkParser scanner.new state_new.

Definition push (p : Parser) (m : Netmap) (b : bytes) : Parser * Netmap * res Error unit :=
  let '(sc, (s, m), r) := scanner.push on_token b (scan p) (st p, m) in (mkParser sc s, m, r).

Definition is_done (p : Parser) : bool := scanner.is_done (scan p).

Definition finish (p : Parser) (m : Netmap) : Netmap * res Error unit :=
  let '(_, (s, m), r) := scanner.finish on_token (scan p) (st p, m) in
  (m, let! _ := r in match failed s with Some e => Err e | None => Ok tt end).

End Parser.
End parser.
