(* ===== verification/NetmapTable.v ===== *)
(** * The peer table is a bounded map

    Over [NetmapParser.v]: the table of peers, a vector searched by id whose
    removal moves the last element, against the specification of a finite map from
    ids to peers that holds at most [N]. *)

From stdpp Require Import gmap.
From S2P Require Import Prelude Keys NetAddr Netmap NetmapParser.
Import keys netmap peer.

Implicit Types (t : PeerTable) (p : Peer).

Definition ids t : list Z := map id t.

(** The invariant: ids are distinct and the table is within its capacity. *)
Definition table_ok (N : Z) t : Prop := NoDup (ids t) /\ len t <= N.

Definition to_map t : gmap Z Peer := list_to_map (map (fun p => (id p, p)) t).

Lemma fst_pairs t : (map (fun p => (id p, p)) t).*1 = ids t.
Proof. unfold ids. induction t as [|p t IH]; simpl; by f_equal. Qed.

Lemma to_map_lookup t i p : NoDup (ids t) -> to_map t !! i = Some p <-> p ∈ t /\ id p = i.
Proof.
  intros H. unfold to_map. rewrite <- elem_of_list_to_map by by rewrite fst_pairs.
  rewrite list_elem_of_fmap. split.
  - intros (q & [= -> ->] & Hq). done.
  - intros [Hp <-]. eauto.
Qed.

Lemma to_map_None t i : to_map t !! i = None <-> i ∉ ids t.
Proof. unfold to_map. by rewrite <- not_elem_of_list_to_map, fst_pairs. Qed.

(** *** Searching *)

Lemma find_id t i n : position (has_id i) t = Some n -> exists p, t !! n = Some p /\ id p = i.
Proof. intros (p & Hp & H)%position_Some. exists p. unfold has_id in H. bool_hyps. auto. Qed.

Lemma no_id t i : position (has_id i) t = None <-> i ∉ ids t.
Proof.
  rewrite position_None. unfold ids. rewrite list_elem_of_fmap. unfold has_id. split.
  - intros H (p & -> & Hp). specialize (H p Hp). bool_hyps. done.
  - intros H p Hp. apply Z.eqb_neq. intros <-. eauto.
Qed.

Lemma get_spec t i : NoDup (ids t) -> get t i = to_map t !! i.
Proof.
  intros Ht. unfold get, find_by. destruct (position (has_id i) t) as [n|] eqn:E.
  - apply find_id in E as (p & Hp & Hi). rewrite Hp. symmetry. apply to_map_lookup; [done|].
    split; [by eapply list_elem_of_lookup_2|done].
  - symmetry. by apply to_map_None, no_id.
Qed.

(** *** Changing *)

Lemma ids_alter f n t p : t !! n = Some p -> id (f p) = id p -> ids (alter f n t) = ids t.
Proof.
  intros Hp Hf. unfold ids. apply list_eq. intros m. rewrite !list_lookup_fmap.
  destruct (decide (m = n)) as [->|Hne]; [by rewrite list_lookup_alter_eq, Hp; simpl; rewrite Hf|by rewrite list_lookup_alter_ne].
Qed.

Lemma update_spec N t i f : table_ok N t -> (forall p, id p = i -> id (f p) = i) ->
  match update t i f with
  | Some t' => table_ok N t' /\ ids t' = ids t /\ is_Some (to_map t !! i) /\ to_map t' = alter f i (to_map t)
  | None => to_map t !! i = None
  end.
Proof.
  intros [Ht HN] Hf. unfold update. destruct (position (has_id i) t) as [n|] eqn:E; [|by apply to_map_None, no_id].
  apply find_id in E as (p & Hp & Hi). assert (Hids : ids (alter f n t) = ids t) by (eapply ids_alter; [done|rewrite Hf; done]).
  assert (Hin : to_map t !! i = Some p) by (apply to_map_lookup; eauto using list_elem_of_lookup_2).
  split_and!; [split; rewrite ?Hids; [done|unfold len in *; by rewrite length_alter]|done|eauto|].
  apply map_eq. intros j. apply option_eq. intros q.
  rewrite to_map_lookup by by rewrite Hids. rewrite lookup_alter_Some. rewrite list_elem_of_lookup. split.
  - intros [(m & Hm) <-]. rewrite list_lookup_alter in Hm. case_decide as Hmn.
    + subst m. rewrite Hp in Hm. simplify_eq/=. left. rewrite Hf by done. eauto.
    + right. split; [|by apply to_map_lookup; eauto using list_elem_of_lookup_2]. intros Hq. apply Hmn.
      eapply (NoDup_lookup (ids t)); [done|unfold ids; by rewrite list_lookup_fmap, Hp|].
      unfold ids. rewrite list_lookup_fmap, Hm. simpl. congruence.
  - intros [(-> & r & Hr & ->)|[Hne Hq]].
    + assert (r = p) as -> by congruence. split; [exists n; by rewrite list_lookup_alter_eq, Hp|]. by apply Hf.
    + apply to_map_lookup in Hq as [Hq <-]; [|done]. apply list_elem_of_lookup in Hq as [m Hm]. split; [|done].
      exists m. rewrite list_lookup_alter_ne; [done|]. intros ->. apply Hne. congruence.
Qed.

Lemma to_map_insert_new t p : NoDup (ids t) -> id p ∉ ids t -> to_map (t ++ [p]) = <[id p := p]> (to_map t).
Proof.
  intros Ht Hp. unfold to_map. rewrite map_app, list_to_map_app. simpl.
  rewrite insert_empty. symmetry. rewrite insert_union_singleton_r; [done|]. by apply to_map_None.
Qed.

Lemma size_to_map t : NoDup (ids t) -> Z.of_nat (size (to_map t)) = len t.
Proof.
  induction t as [|p t IH]; [done|]. intros [Hp Ht]%NoDup_cons. simpl in *.
  change (to_map (p :: t)) with (<[id p := p]> (to_map t)). rewrite map_size_insert_None by by apply to_map_None.
  rewrite len_cons, <- IH by done. lia.
Qed.

Lemma remove_spec N t i : table_ok N t ->
  table_ok N (remove t i).1 /\ to_map (remove t i).1 = delete i (to_map t) /\
  ((remove t i).2 = true <-> is_Some (to_map t !! i)) /\ (forall p, p ∈ (remove t i).1 <-> p ∈ t /\ id p <> i).
Proof.
  intros [Ht HN]. unfold remove. destruct (position (has_id i) t) as [n|] eqn:E; simpl.
  2:{ apply no_id in E. pose proof (proj2 (to_map_None t i) E) as Hm. split_and!; [done|by rewrite delete_id| |].
      - rewrite Hm. split; [done|by intros []].
      - intros p. split; [|by intros []]. intros Hp. split; [done|]. intros <-. apply E. by apply list_elem_of_fmap_2. }
  apply find_id in E as (p & Hp & Hi). pose proof (swap_remove_perm t n p Hp) as Hperm.
  assert (Hids : NoDup (ids (p :: swap_remove n t))) by (unfold ids; by rewrite Hperm).
  pose proof Hids as [Hnp Hnd]%NoDup_cons.
  assert (Hin : forall q, q ∈ swap_remove n t <-> q ∈ t /\ id q <> i).
  { intros q. rewrite <- (elem_of_Permutation_proper q _ _ Hperm), elem_of_cons. split.
    - intros Hq. split; [by right|]. intros <-. apply Hnp. rewrite Hi. by apply list_elem_of_fmap_2.
    - intros [[->|Hq] Hne]; done. }
  split_and!; [split; [done|]| | |done].
  - apply Permutation_length in Hperm. simpl in Hperm. unfold len in *. lia.
  - apply map_eq. intros j. apply option_eq. intros q. rewrite to_map_lookup, lookup_delete_Some, to_map_lookup, Hin by done.
    naive_solver.
  - split; [|done]. intros _. exists p. apply to_map_lookup; eauto using list_elem_of_lookup_2.
Qed.

Lemma upsert_spec N t p : table_ok N t ->
  table_ok N (upsert N t p).1 /\
  match (upsert N t p).2 with
  | Ok _ => to_map (upsert N t p).1 = <[id p := p]> (to_map t)
  | Err e => e = Full /\ (upsert N t p).1 = t /\ to_map t !! id p = None /\ len t = N
  | _ => False
  end.
Proof.
  intros Hok. unfold upsert. pose proof (update_spec N t (id p) (fun _ => p) Hok ltac:(done)) as Hu.
  destruct (update t (id p) (fun _ => p)) as [t'|]; simpl.
  - destruct Hu as (Hok' & _ & [q Hq] & ->). split; [done|].
    apply map_eq. intros j. destruct (decide (j = id p)) as [->|].
    + by rewrite lookup_alter_eq, Hq, lookup_insert_eq.
    + by rewrite lookup_alter_ne, lookup_insert_ne.
  - destruct Hok as [Ht HN]. unfold hpush. destruct (Z.ltb_spec (len t) N); simpl.
    + assert (id p ∉ ids t) by by apply to_map_None. split; [split|by apply to_map_insert_new].
      * unfold ids. rewrite map_app. apply NoDup_app. split_and!; [done|set_solver|apply NoDup_singleton].
      * llia.
    + split_and!; try done. lia.
Qed.

Lemma upsert_elem N t p q : table_ok N t -> q ∈ (upsert N t p).1 -> q = p \/ q ∈ t.
Proof.
  intros Hok. pose proof (upsert_spec N t p Hok) as [[Ht _] Hu]. destruct (upsert N t p) as [t' [[]|e| |]]; simpl in *; try done.
  - intros Hq. assert (to_map t' !! id q = Some q) as Hl by by apply to_map_lookup.
    rewrite Hu, lookup_insert_Some in Hl. destruct Hl as [[_ <-]|[_ Hl]]; [by left|right]. by apply to_map_lookup in Hl as [? _]; [|apply Hok].
  - destruct Hu as (_ & -> & _). auto.
Qed.

(** ** The specification *)

Inductive Op := Upsert (p : Peer) | Remove (i : Z) | Patch (i : Z) (d : parser.Pending) | Clear.

(** What the table answers to an operation. *)
Definition run_op (N : Z) t (o : Op) : PeerTable * res Error bool :=
  match o with
  | Upsert p => let (t, r) := upsert N t p in (t, let! _ := r in Ok true)
  | Remove i => let (t, b) := remove t i in (t, Ok b)
  | Patch i d => match update t i (parser.patched d) with Some t => (t, Ok true) | None => (t, Ok false) end
  | Clear => (clear t, Ok true)
  end.

Definition spec_op (N : Z) (m : gmap Z Peer) (o : Op) : gmap Z Peer * res Error bool :=
  match o with
  | Upsert p =>
      if bool_decide (is_Some (m !! id p)) || (Z.of_nat (size m) <? N) then (<[id p := p]> m, Ok true) else (m, Err Full)
  | Remove i => (delete i m, Ok (bool_decide (is_Some (m !! i))))
  | Patch i d => (alter (parser.patched d) i m, Ok (bool_decide (is_Some (m !! i))))
  | Clear => (∅, Ok true)
  end.

Fixpoint run_ops (N : Z) t (os : list Op) : PeerTable * list (res Error bool) :=
  match os with
  | [] => (t, [])
  | o :: os => let (t, a) := run_op N t o in let (t, l) := run_ops N t os in (t, a :: l)
  end.

Fixpoint spec_ops (N : Z) (m : gmap Z Peer) (os : list Op) : gmap Z Peer * list (res Error bool) :=
  match os with
  | [] => (m, [])
  | o :: os => let (m, a) := spec_op N m o in let (m, l) := spec_ops N m os in (m, a :: l)
  end.

Lemma op_refines N t o : 0 <= N -> table_ok N t ->
  table_ok N (run_op N t o).1 /\ (to_map (run_op N t o).1, (run_op N t o).2) = spec_op N (to_map t) o.
Proof.
  intros HN Hok. destruct o as [p|i|i d|]; simpl.
  - pose proof (upsert_spec N t p Hok) as [Hok' Hu]. pose proof Hok as [Ht Hl].
    destruct (upsert N t p) as [t' [[]|e| |]] eqn:E; simpl in *; try done.
    + split; [done|]. rewrite Hu.
      assert (bool_decide (is_Some (to_map t !! id p)) || (Z.of_nat (size (to_map t)) <? N) = true) as ->; [|done].
      apply orb_true_iff. rewrite bool_decide_eq_true, Z.ltb_lt, size_to_map by done.
      destruct (to_map t !! id p) eqn:Em; [eauto|right].
      destruct Hok' as [Ht' Hl']. rewrite <- size_to_map in Hl' by done. rewrite Hu, map_size_insert_None, Nat2Z.inj_succ, size_to_map in Hl'; [lia|done|done].
    + destruct Hu as (-> & -> & Hm & Hlen). split; [done|]. rewrite Hm, size_to_map, Hlen, Z.ltb_irrefl by done. done.
  - pose proof (remove_spec N t i Hok) as (Hok' & Hm & Hb & _). destruct (remove t i) as [t' b]. simpl in *.
    split; [done|]. rewrite Hm. do 2 f_equal. apply eq_bool_prop_intro. by rewrite bool_decide_spec, <- Hb, Is_true_true.
  - pose proof (update_spec N t i (parser.patched d) Hok ltac:(done)) as Hu.
    destruct (update t i (parser.patched d)) as [t'|]; simpl.
    + destruct Hu as (Hok' & _ & Hs & ->). split; [done|]. by rewrite bool_decide_eq_true_2.
    + split; [done|]. rewrite Hu, bool_decide_eq_false_2 by by intros []. f_equal.
      apply map_eq. intros j. destruct (decide (j = i)) as [->|]; [by rewrite lookup_alter_eq, Hu|by rewrite lookup_alter_ne].
  - split; [|done]. split; [constructor|done].
Qed.

(** The peer table is a bounded map.  Over any sequence of insertions, removals,
    patches and clears it answers like a map from ids to peers that refuses an
    insertion exactly when it holds [N] other peers; a lookup by id finds what the
    map holds; and it never holds more than [N] peers or two with one id. *)
Theorem peer_table_refines (N : Z) (os : list Op) : 0 <= N ->
  let (t, answers) := run_ops N [] os in
  let (m, spec_answers) := spec_ops N ∅ os in
  answers = spec_answers /\ (forall i, get t i = m !! i) /\ table_ok N t /\ len t = Z.of_nat (size m).
Proof.
  intros HN. assert (H : forall t, table_ok N t ->
    table_ok N (run_ops N t os).1 /\ (to_map (run_ops N t os).1, (run_ops N t os).2) = spec_ops N (to_map t) os).
  { induction os as [|o os IH]; intros t Hok; [done|]. simpl.
    destruct (op_refines N t o HN Hok) as [Hok' <-]. destruct (run_op N t o) as [t' a]. simpl in *.
    destruct (IH t' Hok') as [Hok'' <-]. by destruct (run_ops N t' os). }
  specialize (H [] ltac:(by split; [constructor|])). destruct H as [Hok H]. change (to_map []) with (∅ : gmap Z Peer) in H.
  rewrite <- H. destruct (run_ops N [] os) as [t a]. simpl in *. destruct Hok as [Ht Hl].
  split_and!; [done|intros i; by apply get_spec|done|by rewrite size_to_map].
Qed.

Lemma peer_table_refines_witness :
  let p i := new i (mkPublic []) in
  (run_ops 1 [] [Upsert (p 1); Upsert (p 2); Remove 1; Remove 1; Upsert (p 2)]).2 =
  (spec_ops 1 ∅ [Upsert (p 1); Upsert (p 2); Remove 1; Remove 1; Upsert (p 2)]).2.
Proof.
  intros p. pose proof (peer_table_refines 1 [Upsert (p 1); Upsert (p 2); Remove 1; Remove 1; Upsert (p 2)] ltac:(lia)) as H.
  destruct (run_ops _ _ _), (spec_ops _ _ _). exact (proj1 H).
Defined.
