(* ===== verification/NetmapRecords.v ===== *)
(** * What a response means

    Over [NetmapParser.v], on the level of tokens: members the parser does not know
    have no effect, whatever they hold; a record of [Peers] or [PeersChanged] with
    its fields in any order replaces or adds the peer it describes; a record of
    [PeersChangedPatch] changes, of the peer it names, the disco key, state, home
    relay and endpoints it mentions, and nothing else; keys and addresses that do not
    parse are errors. *)

From Stdlib Require Import Strings.String.
From Stdlib Require Import Strings.String Strings.Ascii.
From S2P Require Import Prelude Keys KeysFacts NetAddr Netmap NetmapScan NetmapGrammar NetmapTokens NetmapParser NetmapTable.

Import keys netmap peer parser.

Abbreviation Token := scanner.Token.
Abbreviation Key := scanner.Key.
Abbreviation Str := scanner.Str.
Abbreviation Int := scanner.Int.
Abbreviation StartArray := scanner.StartArray.
Abbreviation EndArray := scanner.EndArray.
Abbreviation StartObject := scanner.StartObject.
Abbreviation EndObject := scanner.EndObject.

Section Run.
Context `{C : Curve} (PEERS : Z).

(** Handing tokens to the parser one by one, up to the first failure. *)
Abbreviation run_tokens := (deliver (on_token PEERS)).

(** ** Members that have no effect *)

(** At [s] the next value, whatever it is, changes nothing. *)
Record inert (s : State) : Prop := {
  in_child : child_context s = Ignored;
  in_string : forall m v, on_string s m v = (with_name s [], m, Ok tt);
  in_number : forall m v, on_number s m v = (with_name s [], m);
  in_bool : forall b, on_bool s b = with_name s [];
}.

Lemma ignored_inert s k : stack s = Ignored :: k -> inert s.
Proof. intros E. split; intros; unfold child_context, on_string, on_number, on_bool, context; by rewrite E. Qed.

Lemma inert_start s k : inert s -> stack s = k -> len k < MAX_STACK -> on_start s = with_name (with_stack s (Ignored :: k)) [].
Proof. intros [H _ _ _] <- Hk. unfold on_start. rewrite H. by rewrite (proj2 (Z.ltb_lt _ _)). Qed.

Lemma ignored_end s k m : stack s = Ignored :: k -> on_end PEERS s m = (with_name (with_stack s k) [], m).
Proof. intros E. unfold on_end, context. by rewrite E. Qed.

(** An ignored container that was opened and read is closed. *)
Lemma ignored_container s k m ts a b :
  inert s -> stack s = k -> len k < MAX_STACK ->
  (a = StartArray /\ b = EndArray \/ a = StartObject /\ b = EndObject) ->
  run_tokens (with_name (with_stack s (Ignored :: k)) [], m) ts = ((with_name (with_stack s (Ignored :: k)) [], m), Ok tt) ->
  run_tokens (s, m) (a :: ts ++ [b]) = ((with_name s [], m), Ok tt).
Proof.
  intros Hs Hk Hl Hab Hts.
  assert (on_token PEERS (s, m) a = ((with_name (with_stack s (Ignored :: k)) [], m), Ok tt)) as Ha.
  { destruct Hab as [[-> ->]|[-> ->]]; simpl; by rewrite (inert_start s k). }
  cbn [deliver]. rewrite Ha, (deliver_app_ok _ _ _ _ _ Hts). cbn [deliver].
  assert (on_token PEERS (with_name (with_stack s (Ignored :: k)) [], m) b = ((with_name s [], m), Ok tt)) as ->; [|done].
  destruct Hab as [[-> ->]|[-> ->]]; simpl; rewrite (ignored_end _ k) by done; subst k; by destruct s.
Qed.

(** Any value of the grammar is skipped where the parser stands inert. *)
Lemma json_ignored :
  (forall n l ts, value n l ts -> forall s m, inert s -> len (stack s) + Z.of_nat n <= MAX_STACK ->
    run_tokens (s, m) ts = ((with_name s [], m), Ok tt)) /\
  (forall n l ts, elements n l ts -> forall s m k, stack s = Ignored :: k -> len (stack s) + Z.of_nat n <= MAX_STACK ->
    run_tokens (s, m) ts = ((with_name s [], m), Ok tt)) /\
  (forall n l ts, members n l ts -> forall s m k, stack s = Ignored :: k -> len (stack s) + Z.of_nat n <= MAX_STACK ->
    run_tokens (s, m) ts = ((with_name s [], m), Ok tt)).
Proof.
  apply json_ind.
  - intros n l t Ht%GrammarFacts.literals_token s m Hs _. unfold scanner.literal_token in Ht. repeat case_match; simplify_eq; simpl; rewrite ?(in_bool s Hs); done.
  - intros n l v _ s m Hs _. simpl. by rewrite (in_number s Hs).
  - intros n l t _ s m Hs _. simpl. by rewrite (in_string s Hs).
  - intros n w _ s m Hs Hl. apply (ignored_container s (stack s) m []); try done; [lia|by left].
  - intros n l ts _ IH s m Hs Hl. apply (ignored_container s (stack s) m); try done; [lia|by left|].
    rewrite (IH _ _ (stack s)); [by destruct s|done|]. simpl. llia.
  - intros n w _ s m Hs Hl. apply (ignored_container s (stack s) m []); try done; [lia|by right].
  - intros n l ts _ IH s m Hs Hl. apply (ignored_container s (stack s) m); try done; [lia|by right|].
    rewrite (IH _ _ (stack s)); [by destruct s|done|]. simpl. llia.
  - intros n w l w' ts _ _ _ IH s m k Hs Hl. apply IH; [by eapply ignored_inert|done].
  - intros n w l w' ts l' ts' _ _ _ IH _ IH' s m k Hs Hl.
    rewrite (deliver_app_ok _ _ _ _ _ (IH s m (ignored_inert s k Hs) Hl)). rewrite (IH' _ _ k); [by destruct s|done|done].
  - intros n w q key w1 w2 l w' ts _ _ _ _ _ _ IH s m k Hs Hl. cbn [deliver on_token].
    rewrite IH; [by destruct s|by eapply ignored_inert|done].
  - intros n w q key w1 w2 l w' ts l' ts' _ _ _ _ _ _ IH _ IH' s m k Hs Hl. cbn [deliver on_token app].
    rewrite (deliver_app_ok _ _ _ _ _ (IH (with_name s _) m (ignored_inert (with_name s _) k Hs) Hl)).
    rewrite (IH' _ _ k); [by destruct s|done|done].
Qed.

(** The members each kind of object is read for. *)
Definition known (c : Context) : list string :=
  match c with
  | Root => ["Node"; "Peers"; "PeersChanged"; "PeersChangedPatch"; "PeersRemoved"; "DERPMap"]
  | SelfNode => ["Key"; "DiscoKey"; "Addresses"]
  | PeerObject => ["Key"; "DiscoKey"; "ID"; "NodeID"; "HomeDERP"; "DERPRegion"; "Online"; "Addresses"; "AllowedIPs"; "Endpoints"]
  | PatchObject => ["Key"; "DiscoKey"; "ID"; "NodeID"; "HomeDERP"; "DERPRegion"; "Online"; "Endpoints"]
  | DerpMapObject => ["Regions"]
  | DerpRegion_ => ["RegionCode"; "RegionID"; "Nodes"]
  | DerpNode_ => ["HostName"; "DERPPort"; "STUNPort"]
  | _ => []
  end%string.

Definition is_object (c : Context) : bool :=
  match c with Root | SelfNode | PeerObject | PatchObject | DerpMapObject | DerpRegion_ | DerpNode_ => true | _ => false end.

Lemma not_named k name names : k ∉ map str names -> name ∈ names -> named k name = false.
Proof. intros Hk Hn. unfold named, bytes_eqb. apply bool_decide_eq_false. intros ->. apply Hk. by apply list_elem_of_fmap_2. Qed.

Ltac unknown_name Hn :=
  repeat match goal with
  | |- context [named ?k ?x] =>
      rewrite (not_named k x _ Hn) by (repeat first [apply list_elem_of_here | apply list_elem_of_further])
  end.

Lemma unknown_inert s c k : stack s = c :: k -> is_object c = true -> key s ∉ map str (known c) -> inert s.
Proof.
  intros Hs Hc Hn.
  destruct c; try done; split; intros; unfold child_context, on_string, on_number, on_bool, context; rewrite Hs;
    unfold known in Hn; unknown_name Hn; done.
Qed.

(** A name that is too long to keep is unknown. *)
Lemma kept_name_unknown c name : name ∉ map str (known c) -> string_or_default MAX_KEY name ∉ map str (known c).
Proof. unfold string_or_default. intros H. case_if; [done|]. destruct c; apply (bool_decide_unpack _); vm_compute; exact I. Qed.

Lemma unknown_member s c k m name n l ts : stack s = c :: k -> is_object c = true -> name ∉ map str (known c) ->
  value n l ts -> len (stack s) + Z.of_nat n <= MAX_STACK ->
  run_tokens (s, m) (Key name :: ts) = ((with_name s [], m), Ok tt).
Proof.
  intros Hs Hc Hn Hv Hl. cbn [deliver on_token]. destruct json_ignored as [Hval _].
  rewrite (Hval n l ts Hv); [by destruct s| |done]. eapply unknown_inert; [done|done|]. by apply kept_name_unknown.
Qed.

(** ** The fields of a record *)

Inductive Field :=
| FId (v : Z) | FKey (k : option NodePublic) | FDisco (k : option DiscoPublic) | FOnline (b : bool) | FHome (v : Z)
| FAddresses (l : list (res Error Cidr)) | FAllowed (l : list (res Error Cidr)) | FEndpoints (l : list (option SocketAddr))
| FUnknown.

(** Strings in an array. *)
Definition strings (l : list bytes) : list Token := StartArray :: map Str l ++ [EndArray].

(** The tokens a field is written with, inside an object of kind [c] nested [d]
    deep; a key, an address or an endpoint that does not parse is there too. *)
Inductive spells (c : Context) (d : Z) : Field -> list Token -> Prop :=
| sp_id name v : name ∈ [str "ID"; str "NodeID"] -> is_u64 v -> spells c d (FId v) [Key name; Int v]
| sp_key text k : ok (parse text) = k -> spells c d (FKey k) [Key (str "Key"); Str text]
| sp_disco text k : ok (parse text) = k -> spells c d (FDisco k) [Key (str "DiscoKey"); Str text]
| sp_online b : spells c d (FOnline b) [Key (str "Online"); scanner.Bool b]
| sp_home name v : name ∈ [str "HomeDERP"; str "DERPRegion"] -> is_u16 v -> spells c d (FHome v) [Key name; Int v]
| sp_addresses texts l : c = PeerObject -> Forall2 (fun t x => parse_cidr t = x) texts l ->
    spells c d (FAddresses l) (Key (str "Addresses") :: strings texts)
| sp_allowed texts l : c = PeerObject -> Forall2 (fun t x => parse_cidr t = x) texts l ->
    spells c d (FAllowed l) (Key (str "AllowedIPs") :: strings texts)
| sp_endpoints texts l : Forall2 (fun t x => parse_socket_addr t = x) texts l ->
    spells c d (FEndpoints l) (Key (str "Endpoints") :: strings texts)
| sp_unknown name n l ts : name ∉ map str (known c) -> value n l ts -> d + Z.of_nat n <= MAX_STACK ->
    spells c d FUnknown (Key name :: ts).

(** Appending to a vector of capacity [cap], what does not fit being dropped. *)
Definition add_all {A} (cap : Z) (l xs : list A) : list A := ztake cap (l ++ xs).

(** What a field contributes to the record. *)
Definition set_field (p : Pending) (f : Field) : Pending :=
  match f with
  | FId v => with_id p v
  | FKey (Some k) => with_key p (Some k)
  | FDisco (Some k) => with_disco p (Some k)
  | FKey None | FDisco None => p
  | FOnline b => with_online p (Some b)
  | FHome v => with_home p (Some v)
  | FAddresses l => with_addresses p (add_all MAX_ADDRESSES (p_addresses p) (omap ok l))
  | FAllowed l => with_allowed p (add_all MAX_ALLOWED_IPS (p_allowed p) (omap ok l))
  | FEndpoints [] => p
  | FEndpoints l => with_endpoints_present (with_endpoints p (add_all MAX_ENDPOINTS (p_endpoints p) (omap (fun x => x) l))) true
  | FUnknown => p
  end.

(** The first of two errors. *)
Definition first_error (a b : option Error) : option Error := match a with Some e => Some e | None => b end.

Lemma first_error_assoc a b c : first_error (first_error a b) c = first_error a (first_error b c).
Proof. by destruct a. Qed.
Lemma first_error_none a : first_error a None = a.
Proof. by destruct a. Qed.

Fixpoint cidr_error (l : list (res Error Cidr)) : option Error :=
  match l with [] => None | Err e :: _ => Some e | _ :: l => cidr_error l end.

(** What is wrong with a field: a key or an address that does not parse. *)
Definition field_error (f : Field) : option Error :=
  match f with
  | FKey None | FDisco None => Some Malformed
  | FAddresses l | FAllowed l => cidr_error l
  | _ => None
  end.

Definition with_error (s : State) (e : option Error) : State :=
  mkState (stack s) (key s) (pending s) (region s) (first_error (failed s) e).

Lemma with_error_none s : with_error s None = s.
Proof. unfold with_error. rewrite first_error_none. by destruct s. Qed.
Lemma with_error_twice s a b : with_error (with_error s a) b = with_error s (first_error a b).
Proof. unfold with_error. simpl. by rewrite first_error_assoc. Qed.

Definition fits (p : Pending) : Prop :=
  len (p_addresses p) <= MAX_ADDRESSES /\ len (p_allowed p) <= MAX_ALLOWED_IPS /\ len (p_endpoints p) <= MAX_ENDPOINTS.

Lemma push_add {A} cap (x : A) l xs : len l <= cap -> 0 <= cap -> add_all cap (push_or_drop cap x l) xs = add_all cap l (x :: xs).
Proof.
  intros Hl Hc. unfold add_all, push_or_drop, hpush. destruct (Z.ltb_spec (len l) cap); simpl.
  - by rewrite <- app_assoc.
  - assert (len l = cap) by lia. by rewrite !ztake_app_len.
Qed.

Lemma add_nil {A} cap (l : list A) : len l <= cap -> add_all cap l [] = l.
Proof. intros. unfold add_all. rewrite app_nil_r. by apply ztake_all. Qed.

Lemma len_push {A} cap (x : A) l : len l <= cap -> len (push_or_drop cap x l) <= cap.
Proof. unfold push_or_drop, hpush. intros H. case_if; simpl; bool_hyps; llia. Qed.

Lemma len_add {A} cap (l xs : list A) : 0 <= cap -> len (add_all cap l xs) <= cap.
Proof. intros. unfold add_all. llia. Qed.

Lemma fits_field p f : fits p -> fits (set_field p f).
Proof.
  intros (H1 & H2 & H3). unfold fits. destruct f as [|[]|[]| | | | |[|e l]|]; simpl; split_and!; try done; by apply len_add.
Qed.

(** *** Arrays of strings *)

Lemma run_cidrs (get : Pending -> list Cidr) (set : Pending -> list Cidr -> Pending) cap c k texts l s m :
  (forall p x, get (set p x) = x) -> (forall p x y, set (set p x) y = set p y) -> (forall p, set p (get p) = p) -> 0 <= cap ->
  (forall s m t, stack s = c :: k -> on_string s m t =
    (with_name (add_cidr s t (fun s x => with_pending s (set (pending s) (push_or_drop cap x (get (pending s)))))) [], m, Ok tt)) ->
  stack s = c :: k -> len (get (pending s)) <= cap -> key s = [] -> Forall2 (fun t x => parse_cidr t = x) texts l ->
  run_tokens (s, m) (map Str texts) =
    ((with_error (with_pending s (set (pending s) (add_all cap (get (pending s)) (omap ok l)))) (cidr_error l), m), Ok tt).
Proof.
  intros Hgs Hss Hsg Hcap Hon. intros Hs Hl Hk Hf. revert s Hs Hl Hk. induction Hf as [|t x texts l Ht _ IH]; intros s Hs Hl Hk.
  - cbn [map deliver]. cbn [omap list_omap cidr_error]. rewrite add_nil, Hsg, with_error_none by done. by destruct s.
  - cbn [map deliver on_token]. rewrite (Hon s m t Hs). unfold add_cidr. rewrite Ht. cbv iota beta.
    destruct x as [x|e| |]; cbn [omap list_omap ok cidr_error].
    + rewrite IH; [|done|simpl; rewrite Hgs; by apply len_push|done]. simpl. rewrite Hgs, Hss, push_add by done.
      destruct s; simpl in *; by subst.
    + rewrite IH by done. destruct s as [? ? ? ? []]; unfold with_error; simpl in *; by subst.
    + rewrite IH by done. destruct s; simpl in *; by subst.
    + rewrite IH by done. destruct s; simpl in *; by subst.
Qed.

Lemma run_endpoints c k texts l s m :
  c = PeerEndpoints \/ c = PatchEndpoints -> stack s = c :: k -> len (p_endpoints (pending s)) <= MAX_ENDPOINTS -> key s = [] ->
  Forall2 (fun t x => parse_socket_addr t = x) texts l ->
  run_tokens (s, m) (map Str texts) = ((with_pending s (set_field (pending s) (FEndpoints l)), m), Ok tt).
Proof.
  intros Hc Hs Hl Hk Hf. revert s Hs Hl Hk. induction Hf as [|t x texts l Ht _ IH]; intros s Hs Hl Hk; [by destruct s|].
  cbn [map deliver on_token].
  assert (on_string s m t = (with_name (with_pending s (with_endpoints_present
    (with_endpoints (pending s) (match x with Some e => push_or_drop MAX_ENDPOINTS e (p_endpoints (pending s)) | None => p_endpoints (pending s) end)) true)) [], m, Ok tt)) as ->.
  { unfold on_string, context. rewrite Hs, Ht. by destruct Hc as [-> | ->], x, (pending s). }
  rewrite IH; [|done|simpl; by destruct x; [apply len_push|]|done]. f_equal.
  destruct s as [st ky p r f]; simpl in *; subst st ky. f_equal. f_equal. clear Ht.
  destruct x as [e|], l as [|y l]; simpl; unfold with_endpoints_present, with_endpoints; simpl;
    rewrite ?push_add, ?add_nil by (try done; by apply len_push); try done.
  - f_equal. by rewrite <- push_add, add_nil by (try done; by apply len_push).
Qed.

(** *** One field, all fields, the record *)

Lemma elem_of_two {A} (x a b : A) : x ∈ [a; b] -> x = a \/ x = b.
Proof. rewrite !elem_of_cons. intros [|[|[]%elem_of_nil]]; auto. Qed.

Definition record_kind (c : Context) : Prop := c = PeerObject \/ c = PatchObject.

(** An array of strings under a known name: opened, read, closed. *)
Lemma run_strings s m c k child texts p' e : stack s = c :: k -> len (stack s) < MAX_STACK -> child_context s = child ->
  match child with PeerAddresses | PeerAllowedIps | PeerEndpoints | PatchEndpoints => true | _ => false end = true ->
  run_tokens (mkState (child :: stack s) [] (pending s) (region s) (failed s), m) (map Str texts) =
    ((mkState (child :: stack s) [] p' (region s) (first_error (failed s) e), m), Ok tt) ->
  run_tokens (s, m) (strings texts) = ((with_name (with_error (with_pending s p') e) [], m), Ok tt).
Proof.
  intros Hs Hl Hc Hchild Hrun. unfold strings. cbn [deliver on_token].
  assert (on_start s = mkState (child :: stack s) [] (pending s) (region s) (failed s)) as ->.
  { unfold on_start. rewrite Hc. destruct child; try done; by rewrite (proj2 (Z.ltb_lt _ _)). }
  rewrite (deliver_app_ok _ _ _ _ _ Hrun). cbn [deliver on_token]. unfold on_end, context. simpl. by destruct child.
Qed.

Lemma run_field c d f ts s m k : record_kind c -> stack s = c :: k -> len (stack s) = d -> d < MAX_STACK -> fits (pending s) ->
  spells c d f ts ->
  run_tokens (s, m) ts = ((with_name (with_error (with_pending s (set_field (pending s) f)) (field_error f)) [], m), Ok tt).
Proof.
  intros Hc Hs Hd Hdm Hfit Hsp. assert (Hpe : forall s, with_pending s (pending s) = s) by by intros [].
  destruct Hsp as [name v Hn Hv|text x Ht|text x Ht|b|name v Hn Hv|texts l -> Ht|texts l -> Ht|texts l Ht|name n l ts Hn Hv Hnest].
  - assert (Hsm : string_or_default MAX_KEY name = name) by by destruct (elem_of_two _ _ _ Hn) as [-> | ->].
    cbn [deliver on_token]. rewrite Hsm. unfold on_number, context. simpl. rewrite Hs. unfold is_uint in Hv.
    assert ((named name "ID" || named name "NodeID") = true) as ->
      by by destruct (elem_of_two _ _ _ Hn) as [-> | ->].
    unfold wrap. rewrite Z.mod_small, with_error_none by done. by destruct Hc as [-> | ->], s.
  - cbn [deliver on_token]. unfold on_string, context. simpl. rewrite Hs. subst x.
    destruct Hc as [-> | ->]; destruct (parse text); cbn [ok set_field field_error]; rewrite ?with_error_none; by destruct s as [? ? ? ? []].
  - cbn [deliver on_token]. unfold on_string, context. simpl. rewrite Hs. subst x.
    destruct Hc as [-> | ->]; destruct (parse text); cbn [ok set_field field_error]; rewrite ?with_error_none; by destruct s as [? ? ? ? []].
  - cbn [deliver on_token]. unfold on_bool, context. simpl. rewrite Hs, with_error_none. by destruct Hc as [-> | ->], s.
  - assert (Hsm : string_or_default MAX_KEY name = name) by by destruct (elem_of_two _ _ _ Hn) as [-> | ->].
    cbn [deliver on_token]. rewrite Hsm. unfold on_number, context. simpl. rewrite Hs. unfold is_uint in Hv.
    assert ((named name "ID" || named name "NodeID") = false /\ (named name "HomeDERP" || named name "DERPRegion") = true) as [-> ->]
      by by destruct (elem_of_two _ _ _ Hn) as [-> | ->].
    unfold wrap. rewrite Z.mod_small, with_error_none by done. by destruct Hc as [-> | ->], s.
  - cbn [deliver on_token]. destruct Hfit as (H1 & H2 & H3).
    erewrite (run_strings _ m PeerObject k PeerAddresses); [by destruct s|done|simpl; lia|unfold child_context, context; simpl; by rewrite Hs|done|].
    rewrite (run_cidrs p_addresses with_addresses MAX_ADDRESSES PeerAddresses (stack s) texts l); try done.
    + by intros [].
    + intros s' m' t Hs'. unfold on_string, context, add_cidr. rewrite Hs'. by destruct (parse_cidr t).
  - cbn [deliver on_token]. destruct Hfit as (H1 & H2 & H3).
    erewrite (run_strings _ m PeerObject k PeerAllowedIps); [by destruct s|done|simpl; lia|unfold child_context, context; simpl; by rewrite Hs|done|].
    rewrite (run_cidrs p_allowed with_allowed MAX_ALLOWED_IPS PeerAllowedIps (stack s) texts l); try done.
    + by intros [].
    + intros s' m' t Hs'. unfold on_string, context, add_cidr. rewrite Hs'. by destruct (parse_cidr t).
  - cbn [deliver on_token]. destruct Hfit as (H1 & H2 & H3). set (child := match c with PeerObject => PeerEndpoints | _ => PatchEndpoints end).
    assert (Hch : child = PeerEndpoints \/ child = PatchEndpoints) by (destruct Hc as [-> | ->]; auto).
    rewrite (run_strings _ m c k child texts (set_field (pending s) (FEndpoints l)) None); [cbn [field_error]; by destruct s|done|simpl; lia|unfold child_context, context; simpl; rewrite Hs; by destruct Hc as [-> | ->]|by destruct Hch as [-> | ->]|].
    rewrite first_error_none. rewrite (run_endpoints child (stack s) texts l); done.
  - rewrite (unknown_member s c k m name n l ts); [cbn [field_error]; rewrite with_error_none; by destruct s|done|by destruct Hc as [-> | ->]|done|done|by subst d].
Qed.

(** The record the fields describe, given in any order; a field that is repeated
    counts again. *)
Definition describe (fs : list Field) : Pending := fold_left set_field fs pending_new.

(** The first thing wrong with its fields. *)
Definition record_error (fs : list Field) : option Error := foldr (fun f => first_error (field_error f)) None fs.

Lemma run_fields c d fs tss s m k : record_kind c -> stack s = c :: k -> len (stack s) = d -> d < MAX_STACK -> fits (pending s) ->
  key s = [] -> Forall2 (spells c d) fs tss ->
  run_tokens (s, m) (concat tss) = ((with_error (with_pending s (fold_left set_field fs (pending s))) (record_error fs), m), Ok tt).
Proof.
  intros Hc Hs Hd Hdm Hfit Hk Hf. revert s Hs Hd Hfit Hk. induction Hf as [|f ts fs tss Hsp _ IH]; intros s Hs Hd Hfit Hk.
  { cbn [concat fold_left record_error foldr deliver]. rewrite with_error_none. by destruct s. }
  cbn [concat fold_left]. rewrite (deliver_app_ok _ _ _ _ _ (run_field c d f ts s m k Hc Hs Hd Hdm Hfit Hsp)).
  rewrite IH; [|done|done|by apply fits_field|done]. cbn [record_error foldr]. unfold with_error. simpl. rewrite first_error_assoc.
  destruct s; simpl in *; by subst.
Qed.

Definition record_tokens (tss : list (list Token)) : list Token := StartObject :: concat tss ++ [EndObject].

(** Where a record of kind [c] stands: in its array, below the top. *)
Definition in_array (c : Context) (s : State) (k : list Context) : Prop :=
  stack s = c :: k /\ len k + 2 < MAX_STACK /\ key s = [].

Definition kind_in (a : Context) : Context := match a with PeerArray => PeerObject | _ => PatchObject end.

Lemma run_record a fs tss s m k : a = PeerArray \/ a = PatchArray -> in_array a s k ->
  Forall2 (spells (kind_in a) (len k + 2)) fs tss ->
  run_tokens (s, m) (record_tokens tss) = (on_end PEERS (with_error (with_stack (with_pending s (describe fs)) (kind_in a :: stack s)) (record_error fs)) m, Ok tt).
Proof.
  intros Ha (Hs & Hl & Hk) Hf. unfold record_tokens. cbn [deliver on_token].
  assert (on_start s = with_stack (with_pending s pending_new) (kind_in a :: stack s)) as ->.
  { unfold on_start, child_context, context. rewrite Hs. pose proof (len_nonneg k).
    assert ((len (a :: k) <? MAX_STACK) = true) as Hlt by (apply Z.ltb_lt; llia).
    destruct Ha as [-> | ->]; simpl; rewrite Hs, Hlt; destruct s; simpl in *; by subst. }
  pose proof (run_fields (kind_in a) (len k + 2) fs tss (with_stack (with_pending s pending_new) (kind_in a :: stack s)) m (stack s)) as Hrun.
  erewrite deliver_app_ok; [|apply Hrun; try done]; [done|by destruct Ha as [-> | ->]; [left|right]|simpl; rewrite Hs; llia].
Qed.

(** *** Deltas *)

(** The peer a record describes, with what it does not mention left at its
    default. *)
Definition described (p : Pending) (k : NodePublic) : Peer :=
  {| id := p_id p; node_key := k; disco_key := p_disco p;
     online := match p_online p with Some b => b | None => false end;
     home_derp := match p_home p with Some h => h | None => 0 end;
     addresses := p_addresses p; allowed_ips := p_allowed p; endpoints := p_endpoints p |}.

(** A peer with the fields a patch mentions; its id, key and addresses stay. *)
Definition merged (p : Pending) (x : Peer) : Peer :=
  {| id := id x; node_key := node_key x;
     disco_key := match p_disco p with Some k => Some k | None => disco_key x end;
     online := match p_online p with Some b => b | None => online x end;
     home_derp := match p_home p with Some h => h | None => home_derp x end;
     addresses := addresses x; allowed_ips := allowed_ips x;
     endpoints := if p_endpoints_present p then p_endpoints p else endpoints x |}.

(** The effect of one record on the map and on the first error: what is wrong with
    its fields is the error, and the record is applied without them. *)
Definition upsert_record (c : Netmap * option Error) (fs : list Field) : Netmap * option Error :=
  let p := describe fs in
  let c := (c.1, first_error c.2 (record_error fs)) in
  match p_key p with
  | None => c
  | Some k =>
      if match own_key c.1 with Some own => same_key own k | None => false end then c else
      match upsert PEERS (peers c.1) (described p k) with
      | (t, Err e) => (with_peers c.1 t, first_error c.2 (Some e))
      | (t, _) => (with_peers c.1 t, c.2)
      end
  end.

Definition patch_record (c : Netmap * option Error) (fs : list Field) : Netmap * option Error :=
  let c := (c.1, first_error c.2 (record_error fs)) in
  match update (peers c.1) (p_id (describe fs)) (merged (describe fs)) with
  | Some t => (with_peers c.1 t, c.2)
  | None => c
  end.

Definition record_effect (a : Context) := match a with PeerArray => upsert_record | _ => patch_record end.

(** The state carries the first error; what else of it changed does not matter. *)
Definition agrees (s : State) (f : option Error) (s' : State) : Prop :=
  stack s' = stack s /\ key s' = [] /\ failed s' = f.

Lemma run_record_effect a fs tss s m k : a = PeerArray \/ a = PatchArray -> in_array a s k ->
  Forall2 (spells (kind_in a) (len k + 2)) fs tss ->
  exists s', run_tokens (s, m) (record_tokens tss) = ((s', (record_effect a (m, failed s) fs).1), Ok tt) /\
    agrees s (record_effect a (m, failed s) fs).2 s'.
Proof.
  intros Ha Hin Hf. rewrite (run_record a fs tss s m k) by done. destruct s as [sk ky pn rg fl]. destruct Ha as [-> | ->];
    unfold on_end, context, agrees; simpl.
  - unfold commit_peer, upsert_record. simpl. destruct (p_key (describe fs)) as [kk|]; [|by eexists].
    destruct (match own_key m with Some own => same_key own kk | None => false end); [by eexists|].
    destruct (upsert PEERS (peers m) _) as [t [[]|e| |]]; by eexists.
  - unfold apply_patch, patch_record. simpl. destruct (update (peers m) _ _); by eexists.
Qed.

Lemma run_records a rs tsss s m k : a = PeerArray \/ a = PatchArray -> in_array a s k ->
  Forall2 (Forall2 (spells (kind_in a) (len k + 2))) rs tsss ->
  exists s', run_tokens (s, m) (concat (map record_tokens tsss)) = ((s', (fold_left (record_effect a) rs (m, failed s)).1), Ok tt) /\
    agrees s (fold_left (record_effect a) rs (m, failed s)).2 s'.
Proof.
  intros Ha Hin Hf. revert s m Hin. induction Hf as [|fs tss rs tsss Hr _ IH]; intros s m Hin.
  { exists s. by destruct Hin as (_ & _ & Hk). }
  cbn [map concat fold_left]. destruct (run_record_effect a fs tss s m k Ha Hin Hr) as (s1 & Hrun & Hst & Hky & Hfl).
  rewrite (deliver_app_ok _ _ _ _ _ Hrun). destruct Hin as (Hs & Hl & Hk).
  destruct (IH s1 (record_effect a (m, failed s) fs).1) as (s2 & Hrun2 & Hst2 & Hky2 & Hfl2); [by repeat split; try congruence|].
  rewrite Hfl in *. rewrite <- surjective_pairing in *. exists s2. split; [done|]. split_and!; congruence.
Qed.

(** *** Responses *)

(** The members of a response that change the peers. *)
Inductive Delta :=
| DPeers (records : list (list Field))
| DPatches (records : list (list Field))
| DRemoved (ids : list Z)
| DOther.

(** The tokens a member of a response is written with. *)
Inductive says : Delta -> list Token -> Prop :=
| says_peers name rs tsss : name ∈ [str "Peers"; str "PeersChanged"] -> Forall2 (Forall2 (spells PeerObject 3)) rs tsss ->
    says (DPeers rs) (Key name :: StartArray :: concat (map record_tokens tsss) ++ [EndArray])
| says_patches rs tsss : Forall2 (Forall2 (spells PatchObject 3)) rs tsss ->
    says (DPatches rs) (Key (str "PeersChangedPatch") :: StartArray :: concat (map record_tokens tsss) ++ [EndArray])
| says_removed ids : Forall is_u64 ids ->
    says (DRemoved ids) (Key (str "PeersRemoved") :: StartArray :: map Int ids ++ [EndArray])
| says_other name n l ts : name ∉ map str (known Root) -> value n l ts -> 1 + Z.of_nat n <= MAX_STACK ->
    says DOther (Key name :: ts).

Definition delta_effect (c : Netmap * option Error) (d : Delta) : Netmap * option Error :=
  match d with
  | DPeers rs => fold_left upsert_record rs c
  | DPatches rs => fold_left patch_record rs c
  | DRemoved ids => (with_peers c.1 (fold_left (fun t i => (remove t i).1) ids (peers c.1)), c.2)
  | DOther => c
  end.

Lemma run_removed ids s m k : stack s = RemovedArray :: k -> key s = [] -> Forall is_u64 ids ->
  run_tokens (s, m) (map Int ids) = ((s, with_peers m (fold_left (fun t i => (remove t i).1) ids (peers m))), Ok tt).
Proof.
  intros Hs Hk Hf. revert m. induction Hf as [|i ids Hi _ IH]; intros m; [by destruct m|].
  cbn [map deliver on_token fold_left]. unfold on_number, context. rewrite Hs. unfold wrap, is_uint in *. rewrite Z.mod_small by done.
  assert (with_name s [] = s) as -> by (destruct s; simpl in *; by subst). by rewrite IH.
Qed.

(** An array that is a member of the response: opened and closed. *)
Lemma run_member_array a s m ts s' m' name : stack s = [Root] -> len name <= MAX_KEY ->
  child_context (with_name s name) = a -> a = PeerArray \/ a = PatchArray \/ a = RemovedArray ->
  run_tokens (mkState [a; Root] [] (pending s) (region s) (failed s), m) ts = ((s', m'), Ok tt) -> stack s' = [a; Root] ->
  run_tokens (s, m) (Key name :: StartArray :: ts ++ [EndArray]) = ((with_name (with_stack s' [Root]) [], m'), Ok tt).
Proof.
  intros Hs Hn Hc Ha Hrun Hs'. cbn [deliver on_token]. unfold string_or_default. rewrite (proj2 (Z.leb_le _ _) Hn).
  assert (on_start (with_name s name) = mkState [a; Root] [] (pending s) (region s) (failed s)) as ->.
  { unfold on_start. rewrite Hc. destruct s; simpl in *; subst. by destruct Ha as [-> |[-> | ->]]. }
  rewrite (deliver_app_ok _ _ _ _ _ Hrun). cbn [deliver on_token]. unfold on_end, context. rewrite Hs'.
  by destruct Ha as [-> |[-> | ->]].
Qed.

Lemma run_delta d ts s m : stack s = [Root] -> says d ts ->
  exists s', run_tokens (s, m) ts = ((s', (delta_effect (m, failed s) d).1), Ok tt) /\ agrees s (delta_effect (m, failed s) d).2 s'.
Proof.
  intros Hs Hd. destruct Hd as [name rs tsss Hn Hr|rs tsss Hr|ids Hi|name n l ts Hn Hv Hl].
  - destruct (run_records PeerArray rs tsss (mkState [PeerArray; Root] [] (pending s) (region s) (failed s)) m [Root]) as (s' & Hrun & Hst & Hk & Hf);
      [by left|by repeat split|done|].
    eexists. split; [eapply (run_member_array PeerArray); [done| | |by left|exact Hrun|done]|].
    + by destruct (elem_of_two _ _ _ Hn) as [-> | ->].
    + unfold child_context, context. simpl. rewrite Hs. by destruct (elem_of_two _ _ _ Hn) as [-> | ->].
    + by split_and!.
  - destruct (run_records PatchArray rs tsss (mkState [PatchArray; Root] [] (pending s) (region s) (failed s)) m [Root]) as (s' & Hrun & Hst & Hk & Hf);
      [by right|by repeat split|done|].
    eexists. split; [eapply (run_member_array PatchArray); [done|done| |by auto|exact Hrun|done]|].
    + unfold child_context, context. simpl. by rewrite Hs.
    + by split_and!.
  - eexists. split; [eapply (run_member_array RemovedArray); [done|done| |by auto|by eapply run_removed|done]|].
    + unfold child_context, context. simpl. by rewrite Hs.
    + by split_and!.
  - eexists. split; [eapply unknown_member; [done|done|done|done|by rewrite Hs]|]. by split_and!.
Qed.

Lemma run_deltas ds tss s m : stack s = [Root] -> key s = [] -> Forall2 says ds tss ->
  exists s', run_tokens (s, m) (concat tss) = ((s', (fold_left delta_effect ds (m, failed s)).1), Ok tt) /\
    agrees s (fold_left delta_effect ds (m, failed s)).2 s'.
Proof.
  intros Hs Hk Hf. revert s m Hs Hk. induction Hf as [|d ts ds tss Hd _ IH]; intros s m Hs Hk; [by exists s|].
  cbn [concat fold_left]. destruct (run_delta d ts s m Hs Hd) as (s1 & Hrun & Hst & Hky & Hfl).
  rewrite (deliver_app_ok _ _ _ _ _ Hrun).
  destruct (IH s1 (delta_effect (m, failed s) d).1) as (s2 & Hrun2 & Hst2 & Hky2 & Hfl2); [congruence|done|].
  rewrite Hfl in *. rewrite <- surjective_pairing in *. exists s2. split; [done|]. split_and!; congruence.
Qed.

(** A whole response, from a fresh parser. *)
Lemma run_response ds tss m : Forall2 says ds tss ->
  let c := fold_left delta_effect ds (m, None) in
  exists s', run_tokens (state_new, m) (StartObject :: concat tss ++ [EndObject]) =
    ((s', with_responses c.1 (responses c.1 + 1)), Ok tt) /\ failed s' = c.2.
Proof.
  intros Hf c. cbn [deliver on_token]. change (on_start state_new) with (with_stack state_new [Root]).
  destruct (run_deltas ds tss (with_stack state_new [Root]) m eq_refl eq_refl Hf) as (s1 & Hrun & Hst & Hky & Hfl).
  rewrite (deliver_app_ok _ _ _ _ _ Hrun). cbn [deliver on_token]. unfold on_end, context. rewrite Hst. simpl. eexists. split; [done|].
  simpl. by rewrite Hfl.
Qed.

(** ** The caller *)

(** A response in chunks: pushed one by one into a fresh parser and finished. *)
Fixpoint push_all (p : Parser) (m : Netmap) (chunks : list bytes) : Parser * Netmap * res Error unit :=
  match chunks with
  | [] => (p, m, Ok tt)
  | b :: chunks => match push PEERS p m b with (p, m, Ok _) => push_all p m chunks | r => r end
  end.

Definition read_response (m : Netmap) (chunks : list bytes) : Netmap * res Error unit :=
  match push_all new m chunks with
  | (p, m, Ok _) => finish PEERS p m
  | (_, m, r) => (m, r)
  end.

Lemma push_all_scan chunks p m :
  push_all p m chunks =
  let '(sc, (s, m), r) := push_chunks (on_token PEERS) chunks (scan p) (st p, m) in (mkParser sc s, m, r).
Proof.
  revert p m; induction chunks as [|b chunks IH]; intros p m; simpl; [by destruct p|]. unfold push, scanner.bind.
  destruct (scanner.push (on_token PEERS) b (scan p) (st p, m)) as [[sc [s m']] [[]| | |]]; try done.
Qed.

End Run.

(** C32: A response is applied as its deltas.  A JSON document whose members are
    arrays of records to insert, of patches and of ids to remove, and anything under
    names the parser does not read ([Node] and [DERPMap], which it does, are not
    covered), with the fields of a record in any order, each of its type, and among
    fields of other names, with any white space, cut into chunks in any way, changes
    the map exactly as its deltas say, in their order; the document is nested at most
    sixteen deep.  A record with a key that is not this node's own replaces the peer of
    its id or is added; a patch changes, of the peer it names and of no other, the disco
    key, state, home relay and endpoints it mentions, which
    an empty list of endpoints does not do, and never the node key; unknown members
    have no effect.  The answer is an error exactly if a record did not fit the
    table or a key or an address of a record or patch did not parse, and it is the
    first of these; the rest of that record is applied all the same. *)
Theorem response_applied `{C : Curve} (PEERS : Z) (m : Netmap) (ds : list Delta) (tss : list (list Token))
    (n : nat) (w l w' : bytes) (chunks : list bytes) :
  Forall2 says ds tss -> value n l (StartObject :: concat tss ++ [EndObject]) -> Z.of_nat n <= scanner.MAX_DEPTH ->
  ws w -> ws w' -> concat chunks = w ++ l ++ w' ->
  let c := fold_left (delta_effect PEERS) ds (m, None) in
  read_response PEERS m chunks =
    (with_responses c.1 (responses c.1 + 1), match c.2 with Some e => Err e | None => Ok tt end).
Proof.
  intros Hd Hv Hn Hw Hw' Hc c. destruct (run_response PEERS ds tss m Hd) as (s' & Hrun & Hf). fold c in Hrun, Hf.
  destruct (document_delivered (on_token PEERS) n w l w' _ chunks (state_new, m) _ Hv Hn Hw Hw' Hc Hrun) as (s & s2 & [sp mp] & Hp & Hfin).
  unfold read_response. rewrite push_all_scan. simpl. rewrite Hp. unfold finish. simpl. by rewrite Hfin, <- Hf.
Qed.

(** ** A response, worked out *)

Import ToyCurve.

(** Text without escapes spells itself. *)
Definition plain (l : bytes) : bool :=
  forallb (fun b => (0x20 <=? b) && negb (b =? 34) && negb (b =? 92)) l && (len l <=? MAX_STRING) && Utf8.utf8_valid l.

Lemma plain_text l : plain l = true -> text l l.
Proof.
  unfold plain, text. intros H. bool_hyps. split_and!; [|done|done]. clear H0 H1. rename H into Hl.
  induction l as [|b l IH]; [constructor|]. simpl in Hl. bool_hyps. constructor; [done|done|done|by apply IH].
Qed.

Definition quoted (s : bytes) : bytes := 34 :: s ++ [34].

(** [{"PeersChanged":[{"ID":7,"Key":"nodekey:aa..."}],"PeersRemoved":[9]}], the key
    32 bytes of [0xaa]. *)
Definition sample_key : bytes := display (mkPublic (k := Node) (replicate 32 170)).
Definition sample_record : bytes :=
  123 :: ([] ++ 34 :: str "ID" ++ 34 :: [] ++ 58 :: [] ++ [55] ++ [] ++ 44 ::
          ([] ++ 34 :: str "Key" ++ 34 :: [] ++ 58 :: [] ++ quoted sample_key ++ [])) ++ [125].
Definition sample_document : bytes :=
  123 :: ([] ++ 34 :: str "PeersChanged" ++ 34 :: [] ++ 58 :: [] ++ (91 :: ([] ++ sample_record ++ []) ++ [93]) ++ [] ++ 44 ::
          ([] ++ 34 :: str "PeersRemoved" ++ 34 :: [] ++ 58 :: [] ++ (91 :: ([] ++ [57] ++ []) ++ [93]) ++ [])) ++ [125].

Definition sample_deltas : list Delta := [DPeers [[FId 7; FKey (Some (mkPublic (replicate 32 170)))]]; DRemoved [9]].
Definition sample_tokens : list (list Token) :=
  [ Key (str "PeersChanged") :: StartArray ::
      concat (map record_tokens [[[Key (str "ID"); Int 7]; [Key (str "Key"); Str sample_key]]]) ++ [EndArray];
    Key (str "PeersRemoved") :: StartArray :: map Int [9] ++ [EndArray] ].

Lemma sample_value : value 3 sample_document (StartObject :: concat sample_tokens ++ [EndObject]).
Proof.
  assert (Hkey : value 0 (quoted sample_key) [Str sample_key]) by (apply v_string, plain_text; vm_compute; reflexivity).
  assert (Hid : value 0 [55] [Int 7]) by (apply v_number, (GrammarFacts.number_digit 55); lia).
  assert (Hgone : value 1 [57] [Int 9]) by (apply v_number, (GrammarFacts.number_digit 57); lia).
  assert (Hrec : value 1 sample_record (StartObject :: (Key (str "ID") :: [Int 7] ++ Key (str "Key") :: [Str sample_key]) ++ [EndObject])).
  { apply v_object, m_more; try solve [constructor]; [apply plain_text; reflexivity|exact Hid|].
    apply m_one; try solve [constructor]; [apply plain_text; reflexivity|exact Hkey]. }
  replace (StartObject :: concat sample_tokens ++ [EndObject]) with
    (StartObject :: (Key (str "PeersChanged") ::
       (StartArray :: (StartObject :: (Key (str "ID") :: [Int 7] ++ Key (str "Key") :: [Str sample_key]) ++ [EndObject]) ++ [EndArray]) ++
       Key (str "PeersRemoved") :: (StartArray :: [Int 9] ++ [EndArray])) ++ [EndObject]) by (vm_compute; reflexivity).
  apply v_object, m_more; try solve [constructor]; [apply plain_text; reflexivity| |].
  - apply v_array, e_one; try solve [constructor]. exact Hrec.
  - apply m_one; try solve [constructor]; [apply plain_text; reflexivity|].
    apply v_array, e_one; try solve [constructor]. exact Hgone.
Qed.

Lemma sample_says : Forall2 says sample_deltas sample_tokens.
Proof.
  constructor; [|constructor; [|constructor]].
  - apply says_peers; [apply list_elem_of_further, list_elem_of_here|].
    constructor; [|constructor]. constructor; [|constructor; [|constructor]].
    + apply sp_id; [apply list_elem_of_here|done].
    + apply sp_key. vm_compute. reflexivity.
  - apply says_removed. by repeat constructor.
Qed.

(** The sample, in chunks of one byte: the peer with id 7 is added to an empty map. *)
Lemma response_applied_witness :
  read_response 32 netmap_new (map (fun b => [b]) sample_document) =
  (with_responses (with_peers netmap_new [described (describe [FId 7; FKey (Some (mkPublic (replicate 32 170)))]) (mkPublic (replicate 32 170))]) 1, Ok tt).
Proof.
  assert (Hc : concat (map (fun b => [b]) sample_document) = [] ++ sample_document ++ []) by (vm_compute; reflexivity).
  rewrite (response_applied 32 netmap_new sample_deltas sample_tokens 3 [] sample_document [] _ sample_says sample_value ltac:(done)
    ltac:(constructor) ltac:(constructor) Hc).
  vm_compute. reflexivity.
Defined.

(** * Where reading a network map falls short

    Concrete documents, evaluated, on which the code does not do what its comments
    or the format say. *)

Import keys netmap parser ToyCurve.

(** A document written with single quotes. *)
Fixpoint requote (s : string) : string :=
  match s with
  | EmptyString => EmptyString
  | String c s => String (if Ascii.eqb c "'" then ascii_of_nat 34 else c) (requote s)
  end.

Definition doc (s : string) : bytes := str (requote s).

(** The tokens of a document, when the scanner accepts it. *)
Definition tokens_of (s : string) : option (list Token) :=
  match scanner.push collect (doc s) scanner.new [] with
  | (sc, ts, Ok _) => match scanner.finish collect sc ts with (_, ts, Ok _) => Some ts | _ => None end
  | _ => None
  end.

Definition read (m : Netmap) (s : string) : Netmap * res Error unit := read_response 32 m [doc s].

(** The scanner accepts documents that are not JSON: a member without a value, a
    trailing comma, a value in place of a member, two values, and nothing at all. *)
Theorem scanner_accepts_malformed :
  tokens_of "{'a':}" = Some [StartObject; Key (str "a"); EndObject] /\
  tokens_of "[1,]" = Some [StartArray; Int 1; EndArray] /\
  tokens_of "{1}" = Some [StartObject; Int 1; EndObject] /\
  tokens_of "1,2" = Some [Int 1; Int 2] /\
  tokens_of "" = Some [].
Proof. vm_compute. done. Qed.

(** A high surrogate is kept until a low one comes, wherever it stands, and is
    forgotten when another one follows: text between the halves changes places with
    the character, and a lone half is silently dropped. *)
Theorem surrogates_misplaced :
  tokens_of "['\ud83dab\udcac']" = Some [StartArray; Str (str "ab" ++ [0xf0; 0x9f; 0x92; 0xac]); EndArray] /\
  tokens_of "['\ud800\ud83d\udcac']" = tokens_of "['\ud83d\udcac']".
Proof. vm_compute. done. Qed.

(** The text of a key of 32 equal bytes. *)
Definition key_text (c : string) : string := String.append "nodekey:" (String.concat "" (repeat c 64)).
Definition record_text (i c : string) : string := String.concat "" ["{'ID':"; i; ",'Key':'"; key_text c; "'}"]%string.

(** Five records with this node's own key, listed before the node itself, overflow
    the vector of four that collects them: the parser panics. *)
Theorem five_own_records_panic :
  (read netmap_new (String.concat "" ["{'Peers':["; String.concat "," (map (fun i => record_text i "a") ["1"; "2"; "3"; "4"; "5"]);
    "],'Node':{'Key':'"; key_text "a"; "'}}"])%string).2 = Panic.
Proof. vm_compute. reflexivity. Qed.

(** A patch that empties a peer's endpoints is not told from one that does not
    mention them: the old endpoint stays. *)
Theorem empty_endpoints_ignored :
  let m := (read netmap_new (String.concat "" ["{'Peers':[{'ID':7,'Key':'"; key_text "b"; "','Endpoints':['10.0.0.5:41641']}]}"])%string).1 in
  map peer.endpoints (peers m) = [[Sock4 [10; 0; 0; 5] 41641]] /\
  read m "{'PeersChangedPatch':[{'NodeID':7,'Endpoints':[]}]}" = (with_responses m 2, Ok tt).
Proof. vm_compute. done. Qed.

(** The node's own addresses are added to in every response: after four the list is
    full, and a node that is given a new address goes on with the old ones. *)
Theorem own_addresses_accumulate :
  let step m a := (read m (String.concat "" ["{'Node':{'Addresses':['"; a; "']}}"])%string).1 in
  let old := peer.mkCidr (V4 [100; 64; 0; 2]) 32 in
  own_addresses (fold_left step (repeat "100.64.0.2/32"%string 4 ++ ["100.64.0.9/32"%string]) netmap_new) = [old; old; old; old].
Proof. vm_compute. reflexivity. Qed.

(** A relay map with more regions than there is room for makes the whole response
    fail, where the comment says the regions past the limit are dropped. *)
Theorem ninth_region_fails :
  let region i := String.concat "" ["'"; i; "':{}"]%string in
  let regions := map region ["1"; "2"; "3"; "4"; "5"; "6"; "7"; "8"; "9"]%string in
  let r := read netmap_new (String.concat "" ["{'DERPMap':{'Regions':{"; String.concat "," regions; "}}}"]%string) in
  r.2 = Err Full /\ len (relays r.1) = 8.
Proof. vm_compute. done. Qed.
