(* ===== verification/NetmapBounds.v ===== *)
(** * The network map stays within its types

    Over [NetmapParser.v]: whatever bytes the server sends, cut anywhere and
    malformed anywhere, every vector stays within its capacity, every integer
    within its width, ids are unique and this node is not its own peer, as long as
    no call panics; and what a call that panics leaves. *)

From Stdlib Require Import Strings.String.
From S2P Require Import Prelude Keys KeysFacts NetAddr Netmap NetmapScan NetmapParser NetmapTable NetmapRecords.
Import keys netmap peer parser.

(** ** A property of the callback's state *)

Section Keeps.
Context {C : Type} (on_token : C -> scanner.Token -> C * res Error unit) (I K : C -> Prop).

(** [I] of a state that was returned, [K] of one a panic left. *)
Definition ended {A} (r : res Error A) (c : C) : Prop := match r with Panic => K c | _ => I c end.

Context (HI : forall c t, I c -> ended (on_token c t).2 (on_token c t).1).
Import scanner.

(** [m] only changes the callback's state, and only panics, through the callback. *)
Definition keeps {A} (m : M (C := C) A) : Prop := forall s c, I c -> ended (m s c).2 (m s c).1.2.

Lemma keeps_pure {A} (m : M A) : (forall s c, (m s c).1.2 = c /\ (m s c).2 <> Panic) -> keeps m.
Proof. intros H s c Hc. destruct (H s c) as [-> Hp]. unfold ended. by destruct (m s c).2. Qed.
Lemma keeps_emit t : keeps (emit on_token t).
Proof. intros s c Hc. unfold emit. specialize (HI c t Hc). by destruct (on_token c t). Qed.
Lemma keeps_bind {A B} (m : M A) (k : A -> M B) : keeps m -> (forall a, keeps (k a)) -> keeps (bind m k).
Proof.
  intros Hm Hk s c Hc. specialize (Hm s c Hc). unfold bind. destruct (m s c) as [[s' c'] [a| | |]]; try done. by apply Hk.
Qed.

Lemma keeps_push_byte b : keeps (push_byte b).
Proof. apply keeps_bind; [by apply keeps_pure|]. intros l. destruct (_ <=? _); by apply keeps_pure. Qed.
Lemma keeps_push_bytes l : keeps (push_bytes l).
Proof. induction l as [|b l IH]; simpl; [by apply keeps_pure|]. apply keeps_bind; [apply keeps_push_byte|done]. Qed.

Ltac keeps_steps :=
  repeat lazymatch goal with
  | |- keeps (bind _ _) => apply keeps_bind; [|intros ?]
  | |- keeps (emit _ _) => apply keeps_emit
  | |- keeps (push_byte _) => apply keeps_push_byte
  | |- keeps (push_bytes _) => apply keeps_push_bytes
  | |- keeps (or_fail ?o _) => apply keeps_pure; intros; by destruct o
  | |- keeps (if ?b then _ else _) => destruct b
  | |- keeps (match ?x with _ => _ end) => destruct x
  | |- keeps _ => apply keeps_pure; done
  end.

Lemma keeps_close b : keeps (close on_token b).
Proof. unfold close. keeps_steps. Qed.
Lemma keeps_finish_escape : keeps finish_escape.
Proof. unfold finish_escape, take_pending. keeps_steps. Qed.
Lemma keeps_emit_number : keeps (emit_number on_token).
Proof. unfold emit_number. keeps_steps. Qed.
Lemma keeps_emit_literal : keeps (emit_literal on_token).
Proof. unfold emit_literal. keeps_steps. Qed.

Lemma keeps_step b : keeps (step on_token b).
Proof.
  unfold step. apply keeps_bind; [by apply keeps_pure|]. intros []; unfold step_value, step_string, step_escape, step_unicode, step_after, open;
    keeps_steps; auto using keeps_close, keeps_finish_escape, keeps_emit_number, keeps_emit_literal.
Qed.

Lemma keeps_push l : keeps (push on_token l).
Proof.
  unfold push. generalize (2 * length l)%nat as fuel. intros fuel. revert l. induction fuel as [|fuel IH]; intros [|b l]; simpl;
    try by apply keeps_pure. apply keeps_bind; [apply keeps_step|]. intros a. apply IH.
Qed.

Lemma keeps_finish : keeps (finish on_token).
Proof. unfold finish. keeps_steps; auto using keeps_emit_number, keeps_emit_literal. Qed.

End Keeps.

(** ** The invariant *)

Definition pending_ok (p : Pending) : Prop :=
  is_u64 (p_id p) /\ len (p_addresses p) <= MAX_ADDRESSES /\ len (p_allowed p) <= MAX_ALLOWED_IPS /\
  len (p_endpoints p) <= MAX_ENDPOINTS /\ (forall h, p_home p = Some h -> is_u16 h) /\ (forall k, p_key p = Some k -> key_ok (as_bytes k)).

Definition region_ok (r : PendingRegion) : Prop :=
  is_u16 (r_id r) /\ len (r_code r) <= 16 /\ len (r_nodes r) <= MAX_DERP_NODES /\
  len (node_host r) <= 64 /\ is_u16 (node_port r) /\ is_u16 (node_stun r) /\
  Forall (fun n => len (derp.host_name n) <= 64 /\ is_u16 (derp.port n) /\ is_u16 (derp.stun_port n)) (r_nodes r).

Definition state_ok (s : State) : Prop :=
  len (stack s) <= MAX_STACK /\ len (key s) <= MAX_KEY /\ pending_ok (pending s) /\ region_ok (region s).

Definition peer_ok (p : Peer) : Prop :=
  is_u64 (id p) /\ is_u16 (home_derp p) /\ key_ok (as_bytes (node_key p)) /\
  len (addresses p) <= MAX_ADDRESSES /\ len (allowed_ips p) <= MAX_ALLOWED_IPS /\ len (endpoints p) <= MAX_ENDPOINTS.

Definition relay_ok (r : derp.DerpRegion) : Prop :=
  is_u16 (derp.id r) /\ len (derp.code r) <= 16 /\ len (derp.nodes r) <= MAX_DERP_NODES /\
  Forall (fun n => len (derp.host_name n) <= 64 /\ is_u16 (derp.port n) /\ is_u16 (derp.stun_port n)) (derp.nodes r).

Section Bounds.
Context `{C : Curve} {COk : CurveOk C} (PEERS : Z).

(** No peer has this node's own key. *)
Definition not_own (m : Netmap) : Prop :=
  forall own p, own_key m = Some own -> p ∈ peers m -> same_key (node_key p) own = false.

Record netmap_ok (m : Netmap) : Prop := {
  m_table : table_ok PEERS (peers m);
  m_peers : Forall peer_ok (peers m);
  m_relays : len (relays m) <= MAX_DERP_REGIONS /\ NoDup (map derp.id (relays m)) /\ Forall relay_ok (relays m);
  m_addresses : len (own_addresses m) <= MAX_ADDRESSES;
  m_own : not_own m;
}.

Definition both_ok (c : State * Netmap) : Prop := state_ok c.1 /\ netmap_ok c.2.

(** What a panic leaves: a map that was in order, now with an own key that more than
    four of its peers have. *)
Definition overrun (m : Netmap) : Prop :=
  exists own m0, netmap_ok m0 /\ m = with_own_key m0 (Some own) /\
    4 < len (filter (fun p => Is_true (same_key (node_key p) own)) (peers m)).
Definition both_ended (r : res Error unit) (c : State * Netmap) : Prop := ended both_ok (fun c => overrun c.2) r c.

(** *** Pieces *)

Lemma len_push_or_drop {A} cap (x : A) l : len l <= cap -> len (push_or_drop cap x l) <= cap.
Proof. unfold push_or_drop, hpush. intros H. case_if; simpl; bool_hyps; llia. Qed.

Lemma Forall_push_or_drop {A} (Q : A -> Prop) cap x l : Forall Q l -> Q x -> Forall Q (push_or_drop cap x l).
Proof. unfold push_or_drop, hpush. intros H Hx. case_if; simpl; [|done]. apply Forall_app_2; [done|by apply Forall_singleton]. Qed.

Lemma len_string_or_default cap s : 0 <= cap -> len (string_or_default cap s) <= cap.
Proof. unfold string_or_default. intros H. case_if; bool_hyps; [done|]. by rewrite len_nil. Qed.

Lemma wrap_ok b x : 0 <= b -> is_uint b (wrap b x).
Proof. intros. unfold is_uint, wrap. apply Z.mod_pos_bound. lia. Qed.

Lemma parse_digits_bound max acc l v : 0 <= acc <= max -> parse_digits max acc l = Some v -> 0 <= v <= max.
Proof.
  revert acc; induction l as [|b l IH]; intros acc Ha; simpl; [by intros [= <-]|].
  destruct (to_digit 10 b) as [d|] eqn:E; [|done]. assert (0 <= d).
  { unfold to_digit, Utf8.between in E. repeat case_match; bool_hyps; simplify_eq; lia. }
  case_if; [|done]. bool_hyps. apply IH. lia.
Qed.

Lemma parse_uint_bound max l v : 0 <= max -> parse_uint max l = Some v -> 0 <= v <= max.
Proof.
  intros Hm. unfold parse_uint. destruct l as [|b l]; [done|]. case_if; [destruct l; [done|]|]; apply parse_digits_bound; lia.
Qed.

Lemma parse_u16 l : is_u16 (default 0 (parse_uint U16_MAX l)).
Proof.
  destruct (parse_uint U16_MAX l) as [v|] eqn:E; simpl; [|done]. apply parse_uint_bound in E; [|done].
  unfold U16_MAX in E. unfold is_uint. lia.
Qed.

#[local] Hint Resolve len_push_or_drop wrap_ok : tf.

Lemma pending_new_ok : pending_ok pending_new.
Proof. by repeat split. Qed.

Lemma region_new_ok : region_ok region_new.
Proof. repeat split; try done. Qed.

Lemma state_new_ok : state_ok state_new.
Proof. split_and!; [done|done|apply pending_new_ok|apply region_new_ok]. Qed.

Lemma fail_ok s e : state_ok s -> state_ok (fail s e).
Proof. done. Qed.

Lemma fail_on_ok {A} s (r : res Error A) : state_ok s -> state_ok (fail_on s r).
Proof. by destruct r. Qed.

Lemma with_name_ok s k : state_ok s -> len k <= MAX_KEY -> state_ok (with_name s k).
Proof. intros (H1 & H2 & H3 & H4) Hk. unfold state_ok. simpl. auto. Qed.

Lemma clear_name_ok s : state_ok s -> state_ok (with_name s []).
Proof. intros H. by apply with_name_ok. Qed.

Lemma with_pending_ok s p : state_ok s -> pending_ok p -> state_ok (with_pending s p).
Proof. intros (H1 & H2 & H3 & H4) Hp. unfold state_ok. simpl. auto. Qed.

Lemma with_region_ok s r : state_ok s -> region_ok r -> state_ok (with_region s r).
Proof. intros (H1 & H2 & H3 & H4) Hr. unfold state_ok. simpl. auto. Qed.

Lemma on_start_ok s : state_ok s -> state_ok (on_start s).
Proof.
  intros Hs. unfold on_start. apply clear_name_ok.
  match goal with |- state_ok (if _ then with_stack ?x _ else _) => set (s' := x) end.
  assert (Hs' : state_ok s').
  { pose proof Hs as (_ & _ & _ & Hr). unfold s'. destruct (child_context s); try done;
      first [apply with_pending_ok, pending_new_ok; done|apply with_region_ok; [done|]].
    - unfold region_ok. simpl. split_and!; try done. apply parse_u16.
    - destruct Hr as (? & ? & ? & ? & ? & ? & ?). unfold region_ok. simpl. by split_and!. }
  clearbody s'. case_if; [|by apply fail_ok]. bool_hyps. destruct Hs' as (H1 & H2 & H3 & H4). unfold state_ok. simpl.
  split_and!; try done. unfold MAX_STACK in *. llia.
Qed.

(** *** Updates of the map *)

Lemma not_own_peers m t : not_own m -> (forall p, p ∈ t -> exists q, q ∈ peers m /\ node_key p = node_key q) -> not_own (with_peers m t).
Proof. intros H Ht own p Ho Hp. destruct (Ht p Hp) as (q & Hq & ->). by eapply H. Qed.

Lemma remove_netmap_ok m i : netmap_ok m -> netmap_ok (with_peers m (remove (peers m) i).1).
Proof.
  intros [H1 H2 H3 H4 H5]. pose proof (remove_spec PEERS (peers m) i H1) as (Hok & _ & _ & Hin).
  split; simpl; try done.
  - apply Forall_forall. intros p [Hp _]%Hin. by eapply Forall_forall in H2.
  - apply not_own_peers; [done|]. intros p [Hp _]%Hin. eauto.
Qed.

Lemma patch_netmap_ok s m : state_ok s -> netmap_ok m -> netmap_ok (apply_patch s m).
Proof.
  intros (_ & _ & Hp & _) [H1 H2 H3 H4 H5]. unfold apply_patch.
  pose proof (update_spec PEERS (peers m) (p_id (pending s)) (patched (pending s)) H1 ltac:(done)) as Hu.
  destruct (update (peers m) _ _) as [t|] eqn:E; [|done]. destruct Hu as (Hok & _).
  unfold update in E. destruct (position _ (peers m)) as [n|]; [|done]. injection E as <-.
  assert (Hin : forall p, p ∈ alter (patched (pending s)) n (peers m) -> exists q, q ∈ peers m /\ (p = q \/ p = patched (pending s) q)).
  { intros p [k Hk]%list_elem_of_lookup. rewrite list_lookup_alter in Hk. case_decide.
    - subst k. destruct (peers m !! n) as [q|] eqn:Eq; [|done]. injection Hk as <-. eauto using list_elem_of_lookup_2.
    - exists p. split; [by eapply list_elem_of_lookup_2|by left]. }
  split; simpl; try done.
  - apply Forall_forall. intros p (q & Hq & Hpq)%Hin. rewrite Forall_forall in H2. specialize (H2 q Hq).
    destruct Hpq as [-> | ->]; [done|]. destruct H2 as (? & ? & ? & ? & ? & ?). destruct Hp as (? & ? & ? & ? & Hh & ?).
    unfold peer_ok. simpl. split_and!; try done.
    + destruct (p_home (pending s)); simpl; auto.
    + by destruct (p_endpoints_present (pending s)).
  - apply not_own_peers; [done|]. intros p (q & Hq & [-> | ->])%Hin; eauto.
Qed.

Lemma commit_netmap_ok s m : state_ok s -> netmap_ok m ->
  state_ok (commit_peer PEERS s m).1 /\ netmap_ok (commit_peer PEERS s m).2.
Proof.
  intros Hs [H1 H2 H3 H4 H5]. pose proof Hs as (_ & _ & Hp & _). unfold commit_peer.
  destruct (p_key (pending s)) as [k|] eqn:Ek; [|done].
  destruct (match own_key m with Some own => same_key own k | None => false end) eqn:Eown; [done|].
  assert (Hpeer : peer_ok (peer_of (pending s) k)).
  { destruct Hp as (? & ? & ? & ? & Hh & Hk). unfold peer_ok. simpl. split_and!; try done; [|by apply Hk].
    destruct (p_home (pending s)); simpl; auto. done. }
  pose proof (upsert_spec PEERS (peers m) (peer_of (pending s) k) H1) as [Hok Hu].
  pose proof (fun q => upsert_elem PEERS (peers m) (peer_of (pending s) k) q H1) as Hin.
  destruct (upsert PEERS (peers m) _) as [t r]. simpl in *. split; [by apply fail_on_ok|]. split; simpl; try done.
  - apply Forall_forall. intros p [-> |Hq]%Hin; [done|]. by eapply Forall_forall in H2.
  - intros own p Ho [-> |Hq]%Hin; simpl in *; [|by eapply H5]. rewrite Ho in Eown. unfold same_key in *. by rewrite public_eq_sym.
Qed.

Lemma relay_netmap_ok m r : netmap_ok m -> relay_ok r -> netmap_ok (with_relays m (derp.insert (relays m) r).1).
Proof.
  intros [H1 H2 (H3 & H3' & H3'') H4 H5] Hr. split; try done. simpl. unfold derp.insert.
  destruct (position _ (relays m)) as [n|] eqn:E; simpl.
  - apply position_Some in E as (x & Hx & Hid). unfold derp.has_id in Hid. bool_hyps. split_and!.
    + by rewrite len_insert.
    + enough (map derp.id (<[n:=r]> (relays m)) = map derp.id (relays m)) as -> by done.
      change (map derp.id ?l) with (derp.id <$> l). rewrite list_fmap_insert. apply list_insert_id. by rewrite list_lookup_fmap, Hx; simpl; f_equal.
    + by apply Forall_insert.
  - unfold hpush. destruct (Z.ltb_spec (len (relays m)) MAX_DERP_REGIONS); simpl; [|done]. split_and!; [llia| |].
    + rewrite map_app. apply NoDup_app. split_and!; [done| |apply NoDup_singleton].
      intros i (x & -> & Hx)%list_elem_of_fmap Hi%list_elem_of_singleton.
      rewrite position_None in E. specialize (E x Hx). unfold derp.has_id in E. bool_hyps. done.
    + apply Forall_app_2; [done|by apply Forall_singleton].
Qed.

Lemma on_end_ok s m : state_ok s -> netmap_ok m -> state_ok (on_end PEERS s m).1 /\ netmap_ok (on_end PEERS s m).2.
Proof.
  intros Hs Hm. unfold on_end. set (s' := with_stack s (tail (stack s))).
  assert (Hs' : state_ok s').
  { destruct Hs as (H1 & H2 & H3 & H4). unfold state_ok, s'. simpl. split_and!; try done. destruct (stack s); [done|]. simpl. llia. }
  clearbody s'. clear Hs. pose proof Hs' as (_ & _ & _ & (Hr1 & Hr2 & Hr3 & Hr4 & Hr5 & Hr6 & Hr7)).
  destruct (context s); try (split; [by apply clear_name_ok|done]).
  - split; [by apply clear_name_ok|]. by destruct Hm.
  - pose proof (commit_netmap_ok s' m Hs' Hm) as [H1 H2]. destruct (commit_peer PEERS s' m) as [s'' m']. split; [by apply clear_name_ok|done].
  - split; [by apply clear_name_ok|by apply patch_netmap_ok].
  - pose proof (relay_netmap_ok m (derp.mkDerpRegion (r_id (region s')) (r_code (region s')) (r_nodes (region s'))) Hm) as Hi.
    destruct (derp.insert _ _) as [d e]. simpl in *. split; [apply clear_name_ok, fail_on_ok, with_region_ok; [done|]|by apply Hi].
    unfold region_ok. simpl. by split_and!.
  - split; [|done]. apply clear_name_ok, with_region_ok; [done|]. unfold region_ok. simpl. split_and!; try done.
    + by apply len_push_or_drop.
    + by apply Forall_push_or_drop.
Qed.

Lemma remove_all_elem l t p : table_ok PEERS t ->
  p ∈ fold_left (fun t i => (remove t i).1) l t <-> p ∈ t /\ id p ∉ l.
Proof.
  revert t; induction l as [|i l IH]; intros t Ht; simpl; [set_solver|].
  pose proof (remove_spec PEERS t i Ht) as (Hok & _ & _ & Hin). rewrite IH, Hin, not_elem_of_cons by done. naive_solver.
Qed.

Lemma remove_all_ok l t : table_ok PEERS t -> table_ok PEERS (fold_left (fun t i => (remove t i).1) l t).
Proof.
  revert t; induction l as [|i l IH]; intros t Ht; simpl; [done|]. apply IH. by apply remove_spec.
Qed.

Lemma set_own_key_ok m value : netmap_ok m ->
  match set_own_key m value with (m', Panic) => overrun m' | (m', _) => netmap_ok m' end.
Proof.
  intros [H1 H2 H3 H4 H5]. unfold set_own_key. destruct (@parse Node value) as [own|e| |]; simpl.
  2-4: by split.
  unfold own_ids. simpl. case_if; bool_hyps; cycle 1.
  { exists own, m. split_and!; [by split|done|]. simpl. unfold len in *. by rewrite length_map in *. }
  set (ours := map id _). pose proof (fun p => remove_all_elem ours (peers m) p H1) as Hin. split; simpl; try done.
  - by apply remove_all_ok.
  - apply Forall_forall. intros p [Hp _]%Hin. by eapply Forall_forall in H2.
  - intros own' p [= <-] [Hp Hid]%Hin. apply not_true_iff_false. intros Hk. apply Hid. unfold ours.
    apply list_elem_of_fmap_2, list_elem_of_filter. split; [by apply Is_true_true|done].
Qed.

Lemma add_cidr_ok s value add : state_ok s -> (forall c, state_ok (add s c)) -> state_ok (add_cidr s value add).
Proof. intros Hs Ha. unfold add_cidr. by destruct (parse_cidr value). Qed.

Lemma on_string_ok s m v : state_ok s -> netmap_ok m -> both_ended (on_string s m v).2 (on_string s m v).1.
Proof.
  intros Hs Hm. unfold both_ended, ended. pose proof Hs as (_ & _ & Hp & (Hr1 & Hr2 & Hr3 & Hr4 & Hr5 & Hr6 & Hr7)).
  pose proof Hp as (Hp1 & Hp2 & Hp3 & Hp4 & Hp5 & Hp6). unfold on_string.
  destruct (context s); try (split; [by apply clear_name_ok|done]).
  - case_if; [|case_if; (split; [by apply clear_name_ok|by destruct Hm])].
    pose proof (set_own_key_ok m v Hm) as Hk. destruct (set_own_key m v) as [m' [| | |]]; try done; (split; [by apply clear_name_ok|done]).
  - repeat case_if; (split; [|done]); apply clear_name_ok; try done.
    + destruct (parse v) as [k| | |] eqn:E; try by apply fail_ok. apply with_pending_ok; [done|]. unfold pending_ok. simpl. split_and!; try done.
      intros k' [= <-]. by eapply parse_key_ok.
    + destruct (parse v) as [k| | |] eqn:E; try by apply fail_ok. by apply with_pending_ok.
  - split; [|done]. apply clear_name_ok, add_cidr_ok; [done|]. intros c. apply with_pending_ok; [done|].
    unfold pending_ok. simpl. split_and!; try done. by apply len_push_or_drop.
  - split; [|done]. apply clear_name_ok, add_cidr_ok; [done|]. intros c. apply with_pending_ok; [done|].
    unfold pending_ok. simpl. split_and!; try done. by apply len_push_or_drop.
  - split; [|done]. apply clear_name_ok, with_pending_ok; [done|]. destruct (parse_socket_addr v); [|done].
    unfold pending_ok. simpl. split_and!; try done. by apply len_push_or_drop.
  - destruct (parse_cidr v); (split; [by apply clear_name_ok|]); destruct Hm; split; try done. simpl. by apply len_push_or_drop.
  - repeat case_if; (split; [|done]); apply clear_name_ok; try done.
    + destruct (parse v) as [k| | |] eqn:E; try by apply fail_ok. apply with_pending_ok; [done|]. unfold pending_ok. simpl. split_and!; try done.
      intros k' [= <-]. by eapply parse_key_ok.
    + destruct (parse v) as [k| | |] eqn:E; try by apply fail_ok. by apply with_pending_ok.
  - split; [|done]. apply clear_name_ok, with_pending_ok; [done|]. destruct (parse_socket_addr v); [|done].
    unfold pending_ok. simpl. split_and!; try done. by apply len_push_or_drop.
  - split; [|done]. apply clear_name_ok. case_if; [|done]. apply with_region_ok; [done|]. unfold region_ok. simpl. split_and!; try done.
    by apply len_string_or_default.
  - split; [|done]. apply clear_name_ok. case_if; [|done]. apply with_region_ok; [done|]. unfold region_ok. simpl. split_and!; try done.
    by apply len_string_or_default.
Qed.

Lemma on_number_ok s m v : state_ok s -> netmap_ok m -> state_ok (on_number s m v).1 /\ netmap_ok (on_number s m v).2.
Proof.
  intros Hs Hm. pose proof Hs as (_ & _ & Hp & (Hr1 & Hr2 & Hr3 & Hr4 & Hr5 & Hr6 & Hr7)).
  pose proof Hp as (Hp1 & Hp2 & Hp3 & Hp4 & Hp5 & Hp6). unfold on_number.
  assert (H16 : is_u16 (wrap 16 v)) by by apply wrap_ok. assert (H64 : is_u64 (wrap 64 v)) by by apply wrap_ok.
  destruct (context s); try (split; [by apply clear_name_ok|done]).
  1,2: repeat case_if; (split; [|done]); apply clear_name_ok; first [done|apply with_pending_ok; [done|]]; unfold pending_ok; simpl;
    split_and!; try done; by intros h [= <-].
  - split; [by apply clear_name_ok|by apply remove_netmap_ok].
  - split; [|done]. apply clear_name_ok. case_if; [|done]. apply with_region_ok; [done|]. unfold region_ok. simpl. by split_and!.
  - split; [|done]. apply clear_name_ok. repeat case_if; try done; (apply with_region_ok; [done|]); unfold region_ok; simpl; by split_and!.
Qed.

Lemma on_bool_ok s b : state_ok s -> state_ok (on_bool s b).
Proof.
  intros Hs. unfold on_bool. apply clear_name_ok. pose proof Hs as (_ & _ & Hp & _).
  destruct (context s); try done; case_if; try done; by apply with_pending_ok.
Qed.

Lemma on_token_ok c t : both_ok c -> both_ended (on_token PEERS c t).2 (on_token PEERS c t).1.
Proof.
  destruct c as [s m]. unfold both_ended, ended, both_ok. simpl. intros [Hs Hm]. destruct t as [| | | |k|v|v|b|]; simpl; auto using on_start_ok, on_bool_ok, clear_name_ok.
  - by apply on_end_ok.
  - by apply on_end_ok.
  - split; [|done]. apply with_name_ok; [done|]. by apply len_string_or_default.
  - pose proof (on_string_ok s m v Hs Hm) as H. by destruct (on_string s m v) as [[s' m'] r].
  - by apply on_number_ok.
Qed.

(** ** Every run *)

(** A caller feeds bytes and finishes responses, in any order and whatever errors
    the calls answer; a finished parser is replaced by a fresh one.  A panic ends it. *)
Inductive Call := Push (b : bytes) | Finish.

Definition run_call (c : Parser * Netmap) (x : Call) : Parser * Netmap * res Error unit :=
  match x with
  | Push b => push PEERS c.1 c.2 b
  | Finish => let (m, r) := finish PEERS c.1 c.2 in (new, m, r)
  end.

Fixpoint run_calls (calls : list Call) (c : Parser * Netmap) : Parser * Netmap * bool :=
  match calls with
  | [] => (c, false)
  | x :: calls => let (c, r) := run_call c x in match r with Panic => (c, true) | _ => run_calls calls c end
  end.

Lemma run_call_ok c x : state_ok (st c.1) /\ netmap_ok c.2 ->
  match run_call c x with (c', Panic) => overrun c'.2 | (c', _) => state_ok (st c'.1) /\ netmap_ok c'.2 end.
Proof.
  destruct c as [p m]. simpl. intros H. destruct x as [b|]; simpl.
  - unfold push. pose proof (keeps_push (on_token PEERS) both_ok (fun c => overrun c.2) on_token_ok b (scan p) (st p, m) H) as Hk.
    destruct (scanner.push (on_token PEERS) b (scan p) (st p, m)) as [[sc [s m']] r]. by destruct r.
  - unfold finish. pose proof (keeps_finish (on_token PEERS) both_ok (fun c => overrun c.2) on_token_ok (scan p) (st p, m) H) as Hk.
    destruct (scanner.finish (on_token PEERS) (scan p) (st p, m)) as [[sc [s m']] r]. unfold ended in Hk. simpl in *.
    destruct r as [[]|e| |]; simpl in *; [destruct (failed s); (split; [apply state_new_ok|apply Hk])|..]; try done;
      (split; [apply state_new_ok|apply Hk]).
Qed.

Lemma run_calls_ok calls c : state_ok (st c.1) /\ netmap_ok c.2 ->
  let '(c', panicked) := run_calls calls c in if panicked then overrun c'.2 else netmap_ok c'.2.
Proof.
  revert c; induction calls as [|x calls IH]; intros c Hc; cbn [run_calls]; [apply Hc|].
  pose proof (run_call_ok c x Hc) as H. destruct (run_call c x) as [c' r]. destruct r; try done; by apply IH.
Qed.

End Bounds.

(** C36: The network map stays well formed.  Whatever bytes a server sends, in whatever
    pieces, valid or not, after any number of responses, as long as no call panicked:
    every vector and string is within its fixed capacity, every id, port and region
    within its width, every peer has a 32-byte key, no two peers or relays share an
    id, and no peer has this node's own key.  A call panics only if more than four
    peers have the key the response gives this node; the map is then as it was, with
    that key in place, so all but the last of these still hold. *)
Theorem netmap_well_formed `{C : Curve} {COk : CurveOk C} (PEERS : Z) (calls : list Call) : 0 <= PEERS ->
  let '(_, m, panicked) := run_calls PEERS calls (new, netmap_new) in
  if panicked
  then exists own m0, netmap_ok PEERS m0 /\ m = with_own_key m0 (Some own) /\
    4 < len (filter (fun p => Is_true (same_key (node_key p) own)) (peers m))
  else netmap_ok PEERS m.
Proof.
  intros HP. pose proof (run_calls_ok PEERS calls (new, netmap_new)) as H.
  destruct (run_calls PEERS calls (new, netmap_new)) as [[p m] panicked]. apply H. split; [apply state_new_ok|].
  split; simpl; [by split; [constructor|]|done|by split_and!; [|constructor|]|done|by intros own q [=]].
Qed.

Import ToyCurve.

(** A node with one peer and one relay, told its key only afterwards, and its own
    record among the peers. *)
Definition sample_calls : list Call := [
  Push (doc (String.concat "" ["{'Peers':["; record_text "1" "a"; ","; record_text "2" "b"; "]"])%string);
  Push (doc ",'DERPMap':{'Regions':{'7':{'RegionID':7,'RegionCode':'fra','Nodes':[{'HostName':'relay.example'}]}}}"%string);
  Push (doc (String.concat "" [",'Node':{'Key':'"; key_text "a"; "'}}"])%string);
  Finish; Push [125]].

Lemma netmap_well_formed_witness :
  exists p m, run_calls 32 sample_calls (new, netmap_new) = (p, m, false) /\ netmap_ok 32 m /\
    map id (peers m) = [2] /\ map derp.id (relays m) = [7].
Proof.
  assert (Hr : (run_calls 32 sample_calls (new, netmap_new)).2 = false) by (vm_compute; reflexivity).
  assert (Hp : map id (peers (run_calls 32 sample_calls (new, netmap_new)).1.2) = [2]) by (vm_compute; reflexivity).
  assert (Hd : map derp.id (relays (run_calls 32 sample_calls (new, netmap_new)).1.2) = [7]) by (vm_compute; reflexivity).
  pose proof (netmap_well_formed 32 sample_calls ltac:(lia)) as H.
  destruct (run_calls 32 sample_calls (new, netmap_new)) as [[p m] b]. cbn [fst snd] in *. subst b. exists p, m. by split_and!.
Defined.
