(* ===== verification/NetmapStream.v ===== *)
(** * The long poll, end to end

    The loop of [harness/src/control.rs] that reads the body of a map request: the
    frame reader cuts it into responses, a parser per response updates the network
    map.  It does what reading each response on its own would do. *)

From S2P Require Import Prelude Keys Netmap NetmapScan NetmapFrame NetmapParser NetmapRecords.
Import keys netmap parser.

Section Stream.
Context `{C : Curve} (PEERS : Z).

(** The reader, the parser of the response being read, the map and how many
    responses were applied. *)
Record Poll := mkPoll { frames : frame_reader.FrameReader; parsing : Parser; netmap_ : Netmap; applied : Z }.

Definition poll_new (m : Netmap) : Poll := mkPoll frame_reader.new new m 0.

(** One chunk of the body: until the reader needs more and consumed nothing. *)
Fixpoint poll (fuel : nat) (p : Poll) (input : bytes) : res Error Poll :=
  match fuel with
  | O => Hang
  | S fuel =>
      match frame_reader.next (frames p) input with
      | (r, Ok (chunk, consumed)) =>
          let input := zdrop consumed input in
          match chunk with
          | frame_reader.Body b =>
              match push PEERS (parsing p) (netmap_ p) b with
              | (parser, m, Ok _) =>
                  if frame_reader.is_complete r then
                    match finish PEERS parser m with
                    | (m, Ok _) => poll fuel (mkPoll (frame_reader.finish_response r) new m (applied p + 1)) input
                    | (_, Err e) => Err e
                    | (_, Panic) => Panic
                    | (_, Hang) => Hang
                    end
                  else poll fuel (mkPoll r parser m (applied p)) input
              | (_, _, Err e) => Err e
              | (_, _, Panic) => Panic
              | (_, _, Hang) => Hang
              end
          | frame_reader.End_ => poll fuel (mkPoll r (parsing p) (netmap_ p) (applied p + 1)) input
          | frame_reader.Need =>
              let p := mkPoll r (parsing p) (netmap_ p) (applied p) in
              if consumed =? 0 then Ok p else poll fuel p input
          end
      | (_, Err e) => Err e
      | (_, Panic) => Panic
      | (_, Hang) => Hang
      end
  end.

(** The chunks of the body, one after another. *)
Fixpoint poll_all (p : Poll) (chunks : list bytes) : res Error Poll :=
  match chunks with
  | [] => Ok p
  | c :: chunks => let! p := poll (2 * length c + 4) p c in poll_all p chunks
  end.

(** ** The specification *)

(** Responses applied one by one; an empty one is a keepalive. *)
Definition apply_response (m : Netmap) (body : bytes) : res Error Netmap :=
  match body with
  | [] => Ok m
  | _ => let (m, r) := read_response PEERS m [body] in let! _ := r in Ok m
  end.

Fixpoint apply_responses (m : Netmap) (bodies : list bytes) : res Error Netmap :=
  match bodies with
  | [] => Ok m
  | b :: bodies => let! m := apply_response m b in apply_responses m bodies
  end.

(** A response of which [cur] has been read. *)
Definition reading (m : Netmap) (cur : bytes) : res Error (Parser * Netmap) :=
  match cur with
  | [] => Ok (new, m)
  | _ => let '(p, m, r) := push PEERS new m cur in let! _ := r in Ok (p, m)
  end.

(** Where the stream stands: responses read and the part of the next one. *)
Definition standing (m : Netmap) (out : list bytes) (cur : bytes) : res Error (Parser * Netmap) :=
  let! m := apply_responses m out in reading m cur.

Lemma apply_responses_app m a b : apply_responses m (a ++ b) = let! m := apply_responses m a in apply_responses m b.
Proof. revert m; induction a as [|x a IH]; intros m; simpl; [done|]. destruct (apply_response m x); simpl; [apply IH|done..]. Qed.

Lemma push_app m p a b : push PEERS p m (a ++ b) =
  match push PEERS p m a with (p, m, Ok _) => push PEERS p m b | r => r end.
Proof.
  unfold push. rewrite push_feed, feed_all_app. unfold scanner.bind.
  rewrite <- (push_feed _ a). destruct (scanner.push (on_token PEERS) a (scan p) (st p, m)) as [[sc [s m']] [[]| | |]]; try done.
  by rewrite <- push_feed.
Qed.

Lemma push_nil p m : push PEERS p m [] = (p, m, Ok tt).
Proof. by destruct p. Qed.

Lemma reading_push m cur : reading m cur = let '(p, m, r) := push PEERS new m cur in let! _ := r in Ok (p, m).
Proof. destruct cur; [by rewrite push_nil|done]. Qed.

(** More of the response. *)
Lemma standing_more m out cur b : standing m out (cur ++ b) =
  let! '(p, m) := standing m out cur in let '(p, m, r) := push PEERS p m b in let! _ := r in Ok (p, m).
Proof.
  unfold standing. destruct (apply_responses m out) as [m1| | |]; simpl; try done. rewrite !reading_push, push_app.
  by destruct (push PEERS new m1 cur) as [[p m2] [[]| | |]].
Qed.

(** The rest of the response. *)
Lemma standing_done m out cur b : b <> [] -> standing m (out ++ [cur ++ b]) [] =
  let! '(p, m) := standing m out cur in
  let '(p, m, r) := push PEERS p m b in
  let! _ := r in let (m, r) := finish PEERS p m in let! _ := r in Ok (new, m).
Proof.
  intros Hb. unfold standing. rewrite apply_responses_app. destruct (apply_responses m out) as [m1| | |]; simpl; try done.
  rewrite reading_push. unfold apply_response. destruct (cur ++ b) as [|x l] eqn:E; [by destruct cur, b|]. rewrite <- E. clear E.
  unfold read_response. simpl. rewrite push_app.
  destruct (push PEERS new m1 cur) as [[p m2] [[]| | |]]; simpl; try done.
  destruct (push PEERS p m2 b) as [[p2 m3] [[]| | |]]; simpl; try done.
  by destruct (finish PEERS p2 m3) as [m4 [[]| | |]].
Qed.

(** A keepalive. *)
Lemma standing_empty m out : standing m (out ++ [[]]) [] = standing m out [].
Proof. unfold standing. rewrite apply_responses_app. by destruct (apply_responses m out). Qed.

(** ** The loop follows the reader *)

(** Between responses nothing of the next one was read. *)
Definition between_ok (d : Driver) : Prop :=
  frame_reader.remaining (reader d) = None \/ frame_reader.remaining (reader d) = Some 0 -> current d = [].

(** What the loop makes of a driver's position. *)
Definition poll_of (m : Netmap) (d : Driver) : res Error Poll :=
  let! '(p, m) := standing m (NetmapFrame.responses d) (current d) in
  Ok (mkPoll (reader d) p m (len (NetmapFrame.responses d))).

Lemma next_cases r input r' chunk n : frame_reader.next r input = (r', Ok (chunk, n)) ->
  match chunk with
  | frame_reader.Body b => b <> [] /\ exists k, frame_reader.remaining r' = Some k
  | frame_reader.End_ => frame_reader.remaining r = Some 0 /\ frame_reader.remaining r' = None
  | frame_reader.Need => frame_reader.remaining r = None \/ r' = r
  end.
Proof.
  unfold frame_reader.next. destruct (frame_reader.remaining r) as [k|] eqn:Er.
  - destruct (Z.eqb_spec k 0) as [-> |]; [by intros [= <- <- <-]|]. destruct input as [|x input]; [intros [= <- <- <-]; by right|].
    destruct (get_range 0 (Z.min (len (x :: input)) k) (x :: input)) as [b|] eqn:Eg; [|done]. intros [= <- <- <-].
    split; [|by eexists]. apply get_range_Some in Eg as (Hk & Hl & ->). intros E. apply (f_equal len) in E.
    rewrite len_sub_range in E by lia. llia.
  - destruct (let? src := _ in _) as [h|]; [|done]. case_if; intros [= <- <- <-]; by left.
Qed.

(** Whatever the driver does, the loop does, or stops at the error of the response
    it is in, which the whole stream then has. *)
Lemma poll_follows fuel : forall d input d' m, between_ok d -> drive fuel d input = Ok d' ->
  between_ok d' /\ (let! p := poll_of m d in poll fuel p input) = poll_of m d'.
Proof.
  induction fuel as [|fuel IH]; intros d input d' m Hd; [done|]. cbn [drive].
  destruct (frame_reader.next (reader d) input) as [r [[chunk n]| | |]] eqn:En; try done.
  pose proof (next_cases _ _ _ _ _ En) as Hn. destruct chunk as [b| |].
  - destruct Hn as [Hb [k Hk]]. unfold frame_reader.is_complete. rewrite Hk.
    destruct (Z.eqb_spec k 0) as [-> |Hk0]; intros Hdrive.
    + apply (IH _ _ _ m) in Hdrive as [Hd' Hp]; [|by intros _]. split; [done|]. rewrite <- Hp. unfold poll_of at 2. simpl.
      rewrite standing_done by done. unfold poll_of. destruct (standing m _ (current d)) as [[p m1]| | |]; simpl; try done.
      rewrite En. destruct (push PEERS p m1 b) as [[p2 m2] [[]| | |]]; simpl; try done.
      unfold frame_reader.is_complete. rewrite Hk. simpl. destruct (finish PEERS p2 m2) as [m3 [[]| | |]]; simpl; try done.
      by rewrite len_app.
    + apply (IH _ _ _ m) in Hdrive as [Hd' Hp]; [|intros [?|?]; simpl in *; congruence]. split; [done|]. rewrite <- Hp. unfold poll_of at 2. simpl.
      rewrite standing_more. unfold poll_of. destruct (standing m _ (current d)) as [[p m1]| | |]; simpl; try done.
      rewrite En. destruct (push PEERS p m1 b) as [[p2 m2] [[]| | |]]; simpl; try done.
      unfold frame_reader.is_complete. rewrite Hk. by rewrite (proj2 (Z.eqb_neq _ _) Hk0).
  - destruct Hn as [H0 Hnone]. rewrite (Hd (or_intror H0)). intros Hdrive.
    apply (IH _ _ _ m) in Hdrive as [Hd' Hp]; [|by intros _]. split; [done|]. rewrite <- Hp. unfold poll_of at 2. simpl.
    rewrite standing_empty. unfold poll_of. rewrite (Hd (or_intror H0)). destruct (standing m _ []) as [[p m1]| | |]; simpl; try done.
    rewrite En. by rewrite len_app.
  - assert (Hb : between_ok (mkDriver r (current d) (NetmapFrame.responses d))).
    { intros Hr. simpl in *. apply Hd. destruct Hn as [Hn | ->]; [by left|done]. }
    assert (Hsame : forall g : Poll -> res Error Poll, (let! p := poll_of m d in
        let p := mkPoll r (parsing p) (netmap_ p) (applied p) in g p) =
      let! p := poll_of m (mkDriver r (current d) (NetmapFrame.responses d)) in g p).
    { intros g. unfold poll_of. simpl. by destruct (standing m _ (current d)) as [[p m1]| | |]. }
    destruct (Z.eqb_spec n 0) as [-> |Hn0].
    + intros [= <-]. split; [done|]. transitivity (let! p := poll_of m d in let p := mkPoll r (parsing p) (netmap_ p) (applied p) in Ok p).
      * unfold poll_of. destruct (standing m _ (current d)) as [[p m1]| | |]; simpl; try done. by rewrite En.
      * rewrite (Hsame (fun p => Ok p)). by destruct (poll_of m (mkDriver r (current d) (NetmapFrame.responses d))).
    + intros Hdrive. apply (IH _ _ _ m) in Hdrive as [Hd' Hp]; [|done]. split; [done|]. rewrite <- Hp, <- Hsame.
      unfold poll_of. destruct (standing m _ (current d)) as [[p m1]| | |]; simpl; try done. rewrite En.
      by rewrite (proj2 (Z.eqb_neq _ _) Hn0).
Qed.

Lemma poll_all_follows chunks : forall d d' m, between_ok d -> drive_all d chunks = Ok d' ->
  (let! p := poll_of m d in poll_all p chunks) = poll_of m d'.
Proof.
  induction chunks as [|c chunks IH]; intros d d' m Hd; cbn [drive_all].
  { intros [= <-]. by destruct (poll_of m d). }
  destruct (drive (2 * length c + 4) d c) as [d1| | |] eqn:E; try done. cbn [rbind]. intros Hrest.
  destruct (poll_follows _ _ _ _ m Hd E) as [Hd1 Hp]. rewrite <- (IH d1 d' m Hd1 Hrest), <- Hp.
  destruct (poll_of m d) as [p| | |]; done.
Qed.

End Stream.

(** The whole loop. *)
Lemma long_poll_ok `{C : Curve} (PEERS : Z) (m : Netmap) (bodies chunks : list bytes) :
  Forall (fun b => len b < 2 ^ 32) bodies -> bytes_ok (concat bodies) -> concat chunks = concat (map framed bodies) ->
  match apply_responses PEERS m bodies with
  | Ok m' => exists p, poll_all PEERS (poll_new m) chunks = Ok p /\ netmap_ p = m' /\ applied p = len bodies /\ parsing p = new
  | Err e => poll_all PEERS (poll_new m) chunks = Err e
  | Panic => poll_all PEERS (poll_new m) chunks = Panic
  | Hang => poll_all PEERS (poll_new m) chunks = Hang
  end.
Proof.
  intros Hl Hb Hc. destruct (stream_driven bodies chunks Hl Hb Hc) as (r & Hd & _).
  pose proof (poll_all_follows PEERS chunks (mkDriver frame_reader.new [] []) _ m ltac:(done) Hd) as H.
  unfold poll_of, standing in H. simpl in H. change (mkPoll frame_reader.new new m (len [])) with (poll_new m) in H. rewrite H.
  destruct (apply_responses PEERS m bodies) as [m'| | |]; simpl; try done. by eexists.
Qed.

(** The long poll is applied response by response.  The body of a map request is a
    sequence of length-prefixed responses; however the connection cuts it, also inside
    a prefix, a string or an escape, the loop ends with the map that reading each
    response on its own gives, and with the error of the first response that fails;
    keepalives count as responses and change nothing.  The loop itself never panics or
    hangs. *)
Theorem long_poll_applied `{C : Curve} (PEERS : Z) (m : Netmap) (bodies chunks : list bytes) :
  Forall (fun b => len b < 2 ^ 32) bodies -> bytes_ok (concat bodies) -> concat chunks = concat (map framed bodies) ->
  match apply_responses PEERS m bodies with
  | Ok m' => exists p, poll_all PEERS (poll_new m) chunks = Ok p /\ netmap_ p = m' /\ applied p = len bodies /\ parsing p = new
  | Err e => poll_all PEERS (poll_new m) chunks = Err e
  | Panic => poll_all PEERS (poll_new m) chunks = Panic
  | Hang => poll_all PEERS (poll_new m) chunks = Hang
  end.
Proof. apply long_poll_ok. Qed.

Import ToyCurve.

(** The sample response of [NetmapRecords.v] and a keepalive, cut into single bytes. *)
Lemma long_poll_applied_witness :
  exists p, poll_all 32 (poll_new netmap_new) (map (fun b => [b]) (framed sample_document ++ framed [])) = Ok p /\
    map peer.id (peers (netmap_ p)) = [7] /\ applied p = 2.
Proof.
  assert (Hc : concat (map (fun b => [b]) (framed sample_document ++ framed [])) = concat (map framed [sample_document; []]))
    by (vm_compute; reflexivity).
  pose proof (long_poll_applied 32 netmap_new [sample_document; []] _ ltac:(repeat (constructor; [vm_compute; reflexivity|]); constructor)
    ltac:(apply (bool_decide_unpack _); vm_compute; exact I) Hc) as H.
  assert (E : apply_responses 32 netmap_new [sample_document; []] = Ok (read_response 32 netmap_new [sample_document]).1)
    by (vm_compute; reflexivity).
  rewrite E in H. destruct H as (p & Hp & Hm & Ha & _). exists p. split; [exact Hp|]. split; [|exact Ha].
  rewrite Hm. vm_compute. reflexivity.
Defined.
