(* ===== verification/Text.v ===== *)
(** * Searching text

    The first place a string stands in another: [windows().position()] on bytes and
    [find()] on text, which several crates use. *)

From S2P Require Import Prelude.

(** For a needle that is not empty. *)
Fixpoint position (needle b : bytes) : option Z :=
  match b with
  | [] => None
  | _ :: rest => if starts_with needle b then Some 0 else let? i := position needle rest in Some (i + 1)
  end.

Lemma position_spells needle b i : position needle b = Some i -> exists pre post, b = pre ++ needle ++ post /\ len pre = i.
Proof.
  revert i; induction b as [|x b IH]; intros i; cbn [position]; [done|]. destruct (starts_with needle (x :: b)) eqn:Hs.
  - intros [= <-]. apply starts_with_true in Hs as (k & ->). by exists [], k.
  - destruct (position needle b) as [j|]; [|done]. intros [= <-].
    destruct (IH j eq_refl) as (pre & post & -> & Hj). exists (x :: pre), post. split; [done|llia].
Qed.

Lemma position_app needle b more i : position needle b = Some i -> position needle (b ++ more) = Some i.
Proof.
  revert i; induction b as [|x b IH]; intros i; cbn [position app]; [done|]. destruct (starts_with needle (x :: b)) eqn:Hs.
  - intros [= <-]. apply starts_with_true in Hs as (k & Hk). rewrite app_comm_cons, Hk, <- app_assoc, starts_with_app. done.
  - destruct (position needle b) as [j|] eqn:Hp; [|done]. intros [= <-]. destruct (starts_with needle (x :: b ++ more)) eqn:Hs'.
    + exfalso. apply starts_with_true in Hs' as (k & Hk). apply position_spells in Hp as (pre & post & -> & _).
      assert (Hle : (length needle <= length (x :: pre ++ needle ++ post))%nat) by (simpl; rewrite !length_app; lia).
      rewrite app_comm_cons in Hk. unfold starts_with in Hs.
      apply (f_equal (take (length needle))) in Hk. rewrite take_app_length, take_app_le in Hk by done.
      rewrite Hk, bytes_eqb_refl in Hs. done.
    + by rewrite (IH j eq_refl).
Qed.

Lemma position_cut needle b i n : 0 < len needle -> position needle b = Some i -> n < i + len needle -> position needle (ztake n b) = None.
Proof.
  intros Hne Hp Hn. destruct (position needle (ztake n b)) as [j|] eqn:Hj; [|done].
  exfalso. pose proof (position_app _ _ (zdrop n b) _ Hj) as Ha. rewrite ztake_zdrop, Hp in Ha. injection Ha as <-.
  apply position_spells in Hj as (pre & post & He & Hl).
  apply (f_equal len) in He. rewrite !len_app, len_ztake in He. nonneg_lens. lia.
Qed.
