(* ===== verification/NaClBox.v ===== *)
(** * NaCl boxes

    What [ts-disco] and [ts-derp] use of the crate [crypto_box]: sealing between two
    X25519 keys, with the tag apart from the ciphertext. *)

From S2P Require Import Prelude Keys.
Import keys.

(** The other side's public key, our secret, a nonce and a text: [SalsaBox::new]
    followed by [encrypt_in_place_detached] or [decrypt_in_place_detached], with no
    additional data. *)
Class SalsaBox := {
  box_seal : bytes -> bytes -> bytes -> bytes -> option (bytes * bytes);
  box_open : bytes -> bytes -> bytes -> bytes -> bytes -> option bytes;
}.

(** Documented behaviour: sealing succeeds, keeps the length and makes a tag of 16
    bytes; what one side seals the other opens. *)
Class SalsaBoxOk (B : SalsaBox) `(C : Curve) := {
  box_seals p s n m : exists c t, box_seal p s n m = Some (c, t) /\ len c = len m /\ len t = 16;
  box_opens (a b : StaticSecret) n m c t :
    box_seal (public_from b) (secret_to_bytes a) n m = Some (c, t) ->
    box_open (public_from a) (secret_to_bytes b) n c t = Some m;
  len_box_open p s n c t m : box_open p s n c t = Some m -> len m = len c;
}.

(** A box that satisfies the laws over the concrete curve of [Keys.v]: the shared
    key is the sum of the two keys, the tag is taken from it and the nonce. *)
Module ToyBox.
Import ToyCurve.

Definition shared_key (a b : bytes) : bytes := zip_with Z.add a b.
Definition tag (k n m : bytes) : bytes := ztake 16 (to_le 8 (foldr Z.add 0 k) ++ to_le 8 (foldr Z.add (foldr Z.add 0 n) m)).

#[export] Instance box : SalsaBox := {|
  box_seal p s n m := Some (m, tag (shared_key p s) n m);
  box_open p s n c t := if bytes_eqb t (tag (shared_key p s) n c) then Some c else None;
|}.

Lemma shared_key_comm a b : shared_key a b = shared_key b a.
Proof. unfold shared_key. revert b; induction a as [|x a IH]; intros [|y b]; simpl; try done. by rewrite Z.add_comm, IH. Qed.

#[export] Instance box_ok : SalsaBoxOk box curve.
Proof.
  constructor; simpl.
  - intros p s n m. do 2 eexists. split; [done|]. split; [done|]. unfold tag. llia.
  - intros a b n m c t [= <- <-]. by rewrite shared_key_comm, bytes_eqb_refl.
  - intros p s n c t m. case_if; [|done]. by intros [= ->].
Qed.

End ToyBox.
