(* ===== verification/Disco.v ===== *)
(** * Path discovery

    [crates/ts-disco]: the three messages ([message.rs]) and the sealed packet they
    travel in ([packet.rs], [lib.rs]).  A function that writes into [out] gives the
    buffer it leaves with its result. *)

From S2P Require Import Prelude Keys NetAddr NaClBox.
Import keys.

Module disco.

Definition MAGIC : bytes := [0x54; 0x53; 0xf0; 0x9f; 0x92; 0xac].
Definition NONCE_LEN : Z := 24.
Definition TAG_LEN : Z := 16.
Definition HEADER_LEN : Z := len MAGIC + 32 + NONCE_LEN.

Inductive Error := Malformed | Decryption | Unsupported | BufferTooSmall.

Definition is_disco (datagram : bytes) : bool := starts_with MAGIC datagram.

(** [out.get_mut(..len)] and a body that fills it: the whole buffer and the result.
    Nothing is said of the buffer a failing call leaves. *)
Definition into_front {A} (out : bytes) (n : Z) (fill : bytes -> res Error (bytes * A)) : res Error (bytes * A) :=
  let! front := ok_or (get_range 0 n out) BufferTooSmall in
  let! '(front, a) := fill front in
  Ok (front ++ zdrop n out, a).

End disco.

(** ** Messages *)

Module message.
Import disco.

Definition TYPE_PING : Z := 1.
Definition TYPE_PONG : Z := 2.
Definition TYPE_CALL_ME_MAYBE : Z := 3.
Definition VERSION : Z := 0.
Definition MSG_HEADER_LEN : Z := 2.
Definition ADDRESS_LEN : Z := 18.
Definition MAX_ENDPOINTS : Z := 8.

Record Ping := mkPing { ping_tx_id : bytes; node_key : option NodePublic }.
Record Pong := mkPong { pong_tx_id : bytes; src : SocketAddr }.
Record CallMeMaybe := mkCall { endpoints : list SocketAddr }.

Inductive Message := MPing (p : Ping) | MPong (p : Pong) | MCall (c : CallMeMaybe).

(** The sixteen octets of an address: [to_ipv6_mapped().octets()] for IPv4. *)
Definition octets16 (a : SocketAddr) : bytes :=
  match a with
  | Sock4 o _ => zeros 10 ++ [0xff; 0xff] ++ o
  | Sock6 g _ _ => concat (map (to_be 2) g)
  end.

Definition port_of (a : SocketAddr) : Z := match a with Sock4 _ p | Sock6 _ p _ => p end.

Definition write_address (a : SocketAddr) (out : bytes) : res Error bytes :=
  let! out := slice_copy (0, 16) (octets16 a) out in
  slice_copy (16, 18) (to_be 2 (port_of a)) out.

(** The eight groups of sixteen octets. *)
Fixpoint groups_of (l : bytes) : list Z :=
  match l with a :: b :: l => of_be [a; b] :: groups_of l | _ => [] end.

(** [Ipv6Addr::from(octets).to_ipv4_mapped()] *)
Definition to_ipv4_mapped (octets : bytes) : option bytes :=
  if bytes_eqb (ztake 12 octets) (zeros 10 ++ [0xff; 0xff]) then Some (zdrop 12 octets) else None.

Definition read_address (b : bytes) : res Error SocketAddr :=
  let! octets := ok_or (get_range 0 16 b) Malformed in
  let! p0 := or_panic (get_at 16 b) in
  let! p1 := or_panic (get_at 17 b) in
  let port := of_be [p0; p1] in
  Ok (match to_ipv4_mapped octets with
      | Some v4 => Sock4 v4 port
      | None => Sock6 (groups_of octets) port 0
      end).

(** The loop over the endpoints: the next one is number [index]. *)
Fixpoint write_endpoints (index : Z) (l : list SocketAddr) (out : bytes) : res Error bytes :=
  match l with
  | [] => Ok out
  | e :: l =>
      let start := MSG_HEADER_LEN + index * ADDRESS_LEN in
      let! field := slice (start, start + ADDRESS_LEN) out in
      let! field := write_address e field in
      let! out := slice_copy (start, start + ADDRESS_LEN) field out in
      write_endpoints (index + 1) l out
  end.

Definition encode (m : Message) (out : bytes) : res Error (bytes * Z) :=
  match m with
  | MPing p =>
      let n := MSG_HEADER_LEN + 12 + (match node_key p with Some _ => 32 | None => 0 end) in
      into_front out n (fun out =>
        let! out := or_panic (set_at 0 TYPE_PING out) in
        let! out := or_panic (set_at 1 VERSION out) in
        let! out := slice_copy (2, 14) (ping_tx_id p) out in
        let! out := match node_key p with Some k => slice_copy (14, 46) (as_bytes k) out | None => Ok out end in
        Ok (out, n))
  | MPong p =>
      let n := MSG_HEADER_LEN + 12 + ADDRESS_LEN in
      into_front out n (fun out =>
        let! out := or_panic (set_at 0 TYPE_PONG out) in
        let! out := or_panic (set_at 1 VERSION out) in
        let! out := slice_copy (2, 14) (pong_tx_id p) out in
        let! field := slice (14, 14 + ADDRESS_LEN) out in
        let! field := write_address (src p) field in
        let! out := slice_copy (14, 14 + ADDRESS_LEN) field out in
        Ok (out, n))
  | MCall c =>
      let n := MSG_HEADER_LEN + len (endpoints c) * ADDRESS_LEN in
      into_front out n (fun out =>
        let! out := or_panic (set_at 0 TYPE_CALL_ME_MAYBE out) in
        let! out := or_panic (set_at 1 VERSION out) in
        let! out := write_endpoints 0 (endpoints c) out in
        Ok (out, n))
  end.

(** [chunks_exact(ADDRESS_LEN)] into the vector [acc] of capacity [MAX_ENDPOINTS];
    [fuel] bounds the number of chunks, and the length of the body is enough. *)
Fixpoint read_endpoints (fuel : nat) (acc : list SocketAddr) (body : bytes) : res Error (list SocketAddr) :=
  match fuel with
  | O => Ok acc
  | S fuel =>
      match get_range 0 ADDRESS_LEN body with
      | None => Ok acc
      | Some chunk =>
          let! a := read_address chunk in
          if len acc <? MAX_ENDPOINTS then read_endpoints fuel (acc ++ [a]) (zdrop ADDRESS_LEN body) else Ok acc
      end
  end.

Definition decode (b : bytes) : res Error Message :=
  if len b <? MSG_HEADER_LEN then Err Malformed else
  let! kind := or_panic (get_at 0 b) in
  let! version := or_panic (get_at 1 b) in
  let! body := slice (MSG_HEADER_LEN, len b) b in
  if negb (version =? VERSION) then Err Unsupported else
  if kind =? TYPE_PING then
    if len body <? 12 then Err Malformed else
    let! tx_id := slice (0, 12) body in
    let! key := (if 12 + 32 <=? len body then let! k := slice (12, 44) body in Ok (Some (from_bytes k)) else Ok None) in
    Ok (MPing (mkPing tx_id key))
  else if kind =? TYPE_PONG then
    if len body <? 12 + ADDRESS_LEN then Err Malformed else
    let! tx_id := slice (0, 12) body in
    let! field := slice (12, 12 + ADDRESS_LEN) body in
    let! a := read_address field in
    Ok (MPong (mkPong tx_id a))
  else if kind =? TYPE_CALL_ME_MAYBE then
    let! l := read_endpoints (length body) [] body in Ok (MCall (mkCall l))
  else Err Unsupported.

End message.

(** ** Packets *)

Module packet.
Import disco.

Definition MAX_PACKET : Z := 512.

Section Box.
Context `{C : Curve} `{B : SalsaBox}.

(** [rng] is the tape of bytes the generator will produce. *)
Definition seal (ours : Private Disco) (our_public recipient : DiscoPublic) (plaintext rng out : bytes) : res Error (bytes * Z) :=
  let total := HEADER_LEN + len plaintext + TAG_LEN in
  into_front out total (fun out =>
    let! out := slice_copy (0, len MAGIC) MAGIC out in
    let! out := slice_copy (len MAGIC, len MAGIC + 32) (as_bytes our_public) out in
    let! nonce := (match get_range 0 NONCE_LEN rng with Some n => Ok n | None => Hang end) in
    let! out := slice_copy (len MAGIC + 32, HEADER_LEN) nonce out in
    let! out := slice_copy (HEADER_LEN + TAG_LEN, total) plaintext out in
    let! '(body, tag) := ok_or (box_seal (as_bytes recipient) (to_bytes ours) nonce plaintext) Decryption in
    let! out := slice_copy (HEADER_LEN + TAG_LEN, total) body out in
    let! out := slice_copy (HEADER_LEN, HEADER_LEN + TAG_LEN) tag out in
    Ok (out, total)).

Record Opened := mkOpened { sender : DiscoPublic; opened_len : Z }.

Definition sender_key (packet : bytes) : res Error DiscoPublic :=
  if negb (starts_with MAGIC packet) || (len packet <? HEADER_LEN + TAG_LEN) then Err Malformed else
  let! key := slice (len MAGIC, len MAGIC + 32) packet in Ok (from_bytes key).

Definition open (ours : Private Disco) (expected_sender : DiscoPublic) (packet out : bytes) : bytes * res Error Opened :=
  match sender_key packet with
  | Ok sender =>
      if negb (public_eq (as_bytes sender) (as_bytes expected_sender)) then (out, Err Decryption) else
      match get_range HEADER_LEN (len packet) packet with
      | None => (out, Err Malformed)
      | Some sealed =>
          if len sealed <? TAG_LEN then (out, Err Malformed) else
          let n := len sealed - TAG_LEN in
          match get_range 0 n out with
          | None => (out, Err BufferTooSmall)
          | Some front =>
              match get_range (len MAGIC + 32) HEADER_LEN packet, get_range 0 TAG_LEN sealed, get_range TAG_LEN (len sealed) sealed with
              | Some nonce, Some tag, Some ciphertext =>
                  match box_open (as_bytes sender) (to_bytes ours) nonce ciphertext tag with
                  | Some m => (m ++ zdrop n out, Ok (mkOpened sender n))
                  (* the ciphertext was copied before it failed to open *)
                  | None => (ciphertext ++ zdrop n out, Err Decryption)
                  end
              | _, _, _ => (out, Panic)
              end
          end
      end
  | Err e => (out, Err e)
  | Panic => (out, Panic)
  | Hang => (out, Hang)
  end.

End Box.
End packet.
