(* ===== verification/DiscoFacts.v ===== *)
(** * Path discovery: what the messages and packets guarantee

    A message comes back as it was written, up to the two forms of an IPv4 address;
    whatever arrives decodes to a well-formed message or to an error; and a packet is
    opened by its recipient and told apart from the tunnel's own. *)

From S2P Require Import Prelude Keys KeysFacts NetAddr NaClBox Messages Disco.
Import keys disco message.

(** ** Addresses *)

Definition addr_ok (a : SocketAddr) : Prop :=
  match a with
  | Sock4 o p => len o = 4 /\ bytes_ok o /\ is_u16 p
  | Sock6 g p s => len g = 8 /\ Forall is_u16 g /\ is_u16 p /\ is_u32 s
  end.

#[export] Instance addr_ok_dec a : Decision (addr_ok a).
Proof. unfold addr_ok, bytes_ok, is_uint. destruct a; apply _. Defined.

(** The form an address is read in: an IPv4-mapped address is an IPv4 address, and
    the scope of an IPv6 address is lost. *)
Definition canonical (a : SocketAddr) : SocketAddr :=
  match a with
  | Sock6 [0; 0; 0; 0; 0; 0xffff; g; h] p _ => Sock4 (to_be 2 g ++ to_be 2 h) p
  | Sock6 g p _ => Sock6 g p 0
  | Sock4 _ _ => a
  end.

Lemma groups_of_concat g rest : Forall is_u16 g -> len rest < 2 -> groups_of (concat (map (to_be 2) g) ++ rest) = g.
Proof.
  intros Hg Hr. induction Hg as [|x g Hx _ IH]; cbn [map concat app].
  - destruct rest as [|a [|b rest]]; [done..|llia].
  - rewrite <- app_assoc. pose proof (len_to_be 2 x) as Hl. pose proof (of_to_be_small 2 x Hx) as Hv.
    destruct (to_be 2 x) as [|a [|b [|c t]]]; try (exfalso; llia). cbn [app groups_of]. by rewrite IH, Hv.
Qed.

Lemma groups_of_ok l : bytes_ok l -> Forall is_u16 (groups_of l) /\ 2 * len (groups_of l) <= len l <= 2 * len (groups_of l) + 1.
Proof.
  induction l as [l IH] using (induction_ltof1 _ length). unfold ltof in IH.
  destruct l as [|a [|b l]]; intros H; cbn [groups_of]; [split; [constructor|llia]..|].
  inversion H as [|?? Ha H']; subst. inversion H' as [|?? Hb H'']; subst.
  destruct (IH l) as [Hg Hl]; [simpl; lia|done|]. split; [|llia].
  constructor; [|done]. apply (of_be_bound [a; b]). unfold bytes_ok. by rewrite !Forall_cons.
Qed.

Lemma to_be_2_app x y l k : is_u16 x -> is_u16 y -> to_be 2 x ++ l = to_be 2 y ++ k -> x = y /\ l = k.
Proof.
  intros Hx Hy Heq. apply app_inj_1 in Heq as [He ->].
  - split; [|done]. by apply (to_be_inj 2) in He.
  - unfold to_be. by rewrite !length_reverse, !length_to_le.
Qed.

(** The mapped addresses are the ones whose groups start as [canonical] says. *)
Lemma mapped_groups g : len g = 8 -> Forall is_u16 g ->
  to_ipv4_mapped (concat (map (to_be 2) g)) =
    match g with [0; 0; 0; 0; 0; 0xffff; g6; g7] => Some (to_be 2 g6 ++ to_be 2 g7) | _ => None end.
Proof.
  intros Hl Hg.
  destruct g as [|g0 [|g1 [|g2 [|g3 [|g4 [|g5 [|g6 [|g7 [|]]]]]]]]]; try (exfalso; llia).
  repeat match goal with H : Forall _ (_ :: _) |- _ => inversion H; clear H; subst end.
  unfold to_ipv4_mapped. cbn [map concat]. rewrite app_nil_r.
  set (front := to_be 2 g0 ++ to_be 2 g1 ++ to_be 2 g2 ++ to_be 2 g3 ++ to_be 2 g4 ++ to_be 2 g5).
  assert (Hsplit : to_be 2 g0 ++ to_be 2 g1 ++ to_be 2 g2 ++ to_be 2 g3 ++ to_be 2 g4 ++ to_be 2 g5 ++ to_be 2 g6 ++ to_be 2 g7
    = front ++ to_be 2 g6 ++ to_be 2 g7) by (unfold front; by rewrite <- !app_assoc).
  rewrite Hsplit, ztake_app_len, zdrop_app_len by (unfold front; llia).
  assert (Hiff : front = zeros 10 ++ [255; 255] <-> [g0; g1; g2; g3; g4; g5] = [0; 0; 0; 0; 0; 0xffff]).
  { change (zeros 10 ++ [255; 255]) with (to_be 2 0 ++ to_be 2 0 ++ to_be 2 0 ++ to_be 2 0 ++ to_be 2 0 ++ to_be 2 0xffff).
    unfold front. split; [|by intros [= -> -> -> -> -> ->]]. intros Heq.
    assert (Hz : is_u16 0) by (unfold is_uint; lia). assert (Hm : is_u16 0xffff) by (unfold is_uint; lia).
    do 5 (apply to_be_2_app in Heq as [-> Heq]; [|assumption..]).
    by apply (to_be_inj 2) in Heq as ->. }
  destruct (bytes_eqb front _) eqn:He.
  - apply bytes_eqb_true, Hiff in He as [= -> -> -> -> -> ->]. done.
  - assert (Hne : [g0; g1; g2; g3; g4; g5] <> [0; 0; 0; 0; 0; 0xffff]).
    { intros Heq%Hiff. by rewrite (proj2 (bytes_eqb_true _ _) Heq) in He. }
    clear -Hne. repeat (case_match; try done).
Qed.

Lemma len_groups g : len (concat (map (to_be 2) g)) = 2 * len g.
Proof. induction g as [|x g IH]; [done|]. cbn [map concat]. llia. Qed.

Lemma len_octets16 a : addr_ok a -> len (octets16 a) = 16.
Proof.
  destruct a as [o p|g p s]; cbn [addr_ok octets16]; intros H.
  - destruct H. llia.
  - destruct H. rewrite len_groups. lia.
Qed.

Definition address_bytes (a : SocketAddr) : bytes := octets16 a ++ to_be 2 (port_of a).

Lemma len_address_bytes a : addr_ok a -> len (address_bytes a) = ADDRESS_LEN.
Proof. intros H%len_octets16. unfold address_bytes, ADDRESS_LEN. llia. Qed.

Lemma write_address_ok a out : addr_ok a -> len out = ADDRESS_LEN -> write_address a out = Ok (address_bytes a).
Proof.
  intros Ha%len_octets16 Hl. unfold ADDRESS_LEN in Hl. name_fields out [16; 2].
  unfold write_address, slice_copy, address_bytes. cbn [fst snd].
  write_field 0%nat. write_field 1%nat. cbn [concat]. by rewrite app_nil_r.
Qed.

Lemma read_address_bytes octets p : len octets = 16 -> is_u16 p ->
  read_address (octets ++ to_be 2 p) =
    Ok (match to_ipv4_mapped octets with Some v4 => Sock4 v4 p | None => Sock6 (groups_of octets) p 0 end).
Proof.
  intros Hl Hp. unfold read_address. rewrite get_range_front by done. cbn [ok_or rbind].
  pose proof (len_to_be 2 p) as Hl2. pose proof (of_to_be_small 2 p Hp) as Hv.
  destruct (to_be 2 p) as [|a [|b [|c t]]]; try (exfalso; llia).
  rewrite get_at_mid by done. cbn [or_panic rbind].
  change (octets ++ [a; b]) with (octets ++ [a] ++ [b]). rewrite app_assoc, get_at_mid by llia.
  cbn [or_panic rbind]. by rewrite Hv.
Qed.

Lemma read_write_address a : addr_ok a -> read_address (address_bytes a) = Ok (canonical a).
Proof.
  intros Ha. unfold address_bytes. pose proof (len_octets16 a Ha) as Hl.
  destruct a as [o p|g p s]; cbn [port_of]; destruct Ha as (Hlen & Hb & Hp); (rewrite read_address_bytes; [|done|by try destruct Hp]).
  - unfold octets16, to_ipv4_mapped. rewrite app_assoc, ztake_app_len, zdrop_app_len by llia. by rewrite bytes_eqb_refl.
  - cbn [octets16]. rewrite mapped_groups by done.
    rewrite <- (app_nil_r (concat _)), groups_of_concat by done.
    unfold canonical. clear. repeat (case_match; simplify_eq/=; try done).
Qed.

Lemma read_address_ok b a : bytes_ok b -> read_address b = Ok a -> addr_ok a.
Proof.
  intros Hb Ha. unfold read_address in Ha. inv_res.
  match goal with H : get_range 0 16 b = Some ?o |- _ => apply get_range_Some in H as (_ & Hl & Ho) end.
  assert (Hoct : bytes_ok a0) by (subst a0; auto with tf).
  assert (Hlen : len a0 = 16) by (subst a0; rewrite len_sub_range; lia).
  assert (Hport : is_u16 (of_be [a1; a2])).
  { apply (of_be_bound [a1; a2]). unfold bytes_ok. rewrite !Forall_cons. eauto using get_at_ok. }
  unfold to_ipv4_mapped. destruct (bytes_eqb _ _); cbn [addr_ok].
  - split; [llia|]. auto with tf.
  - destruct (groups_of_ok a0 Hoct) as [Hg Hgl]. split_and!; [lia|done|apply Hport..|done|done].
Qed.

Lemma read_address_returns b : 18 <= len b -> exists a, read_address b = Ok a.
Proof.
  intros Hl. unfold read_address. rewrite get_range_in by lia. cbn [ok_or rbind].
  destruct (get_at_is_Some 16 b) as (x & ->); [lia|]. destruct (get_at_is_Some 17 b) as (y & ->); [lia|].
  cbn [or_panic rbind]. eauto.
Qed.

(** ** Messages *)

Definition message_ok (m : Message) : Prop :=
  match m with
  | MPing p => len (ping_tx_id p) = 12 /\ bytes_ok (ping_tx_id p) /\
      (match node_key p with Some k => key_ok (as_bytes k) | None => True end)
  | MPong p => len (pong_tx_id p) = 12 /\ bytes_ok (pong_tx_id p) /\ addr_ok (src p)
  | MCall c => len (endpoints c) <= MAX_ENDPOINTS /\ Forall addr_ok (endpoints c)
  end.

Definition canonical_message (m : Message) : Message :=
  match m with
  | MPing _ => m
  | MPong p => MPong (mkPong (pong_tx_id p) (canonical (src p)))
  | MCall c => MCall (mkCall (map canonical (endpoints c)))
  end.

(** The bytes of a message. *)
Definition message_bytes (m : Message) : bytes :=
  match m with
  | MPing p => [TYPE_PING; VERSION] ++ ping_tx_id p ++ (match node_key p with Some k => as_bytes k | None => [] end)
  | MPong p => [TYPE_PONG; VERSION] ++ pong_tx_id p ++ address_bytes (src p)
  | MCall c => [TYPE_CALL_ME_MAYBE; VERSION] ++ concat (map address_bytes (endpoints c))
  end.

Lemma len_addresses l : Forall addr_ok l -> len (concat (map address_bytes l)) = len l * ADDRESS_LEN.
Proof. induction 1 as [|a l Ha _ IH]; [done|]. cbn [map concat]. rewrite len_app, (len_address_bytes a Ha), IH. llia. Qed.

Lemma write_endpoints_ok l i pre out : 0 <= i -> Forall addr_ok l -> len pre = MSG_HEADER_LEN + i * ADDRESS_LEN ->
  len out = len l * ADDRESS_LEN -> write_endpoints i l (pre ++ out) = Ok (pre ++ concat (map address_bytes l)).
Proof.
  intros Hi Hl. revert i pre out Hi. induction Hl as [|a l Ha _ IH]; intros i pre out Hi Hpre Hout; cbn [write_endpoints map concat].
  - by rewrite (len_zero_nil out).
  - unfold ADDRESS_LEN in *. destruct (split_len 18 out) as (f & rest & -> & Hf); [llia|].
    unfold slice, slice_copy. cbn [fst snd]. rewrite get_range_mid by lia. cbn [or_panic rbind].
    rewrite write_address_ok by done. cbn [rbind].
    pose proof (len_address_bytes a Ha) as Hla. unfold ADDRESS_LEN in Hla.
    rewrite copy_at_mid by lia. cbn [or_panic rbind].
    rewrite app_assoc, IH by llia. by rewrite <- app_assoc.
Qed.

Lemma set_head (x y : Z) l : set_at 0 x (y :: l) = Some (x :: l).
Proof. by apply (set_at_mid 0 x y []). Qed.

Lemma set_second (x y z : Z) l : set_at 1 x (y :: z :: l) = Some (y :: x :: l).
Proof. by apply (set_at_mid 1 x z [y]). Qed.

(** What writing the message comes to: its bytes in front of the buffer. *)
Definition placed (text out : bytes) : res Error (bytes * Z) :=
  if len text <=? len out then Ok (text ++ zdrop (len text) out, len text) else Err BufferTooSmall.

(** The header is written over the first two bytes of the front. *)
Lemma into_front_ok out n (body : bytes -> res Error (bytes * Z)) text :
  2 <= n -> n = len text ->
  (forall a b f, len f = n - 2 -> body (a :: b :: f) = Ok (text, n)) ->
  into_front out n body = placed text out.
Proof.
  intros Hn -> Hb. unfold into_front, placed. set (n := len text) in *. destruct (n <=? len out) eqn:Hl; bool_hyps.
  - destruct (split_len n out) as (f & rest & -> & Hf); [lia|]. rewrite get_range_front by done. cbn [ok_or rbind].
    destruct f as [|a [|b f]]; [exfalso; llia..|]. rewrite Hb by llia. done.
  - by rewrite (proj2 (get_range_None _ _ _)) by lia.
Qed.

Ltac header := rewrite set_head; cbn [or_panic rbind]; rewrite set_second; cbn [or_panic rbind].

Lemma encode_ping p out : message_ok (MPing p) -> encode (MPing p) out = placed (message_bytes (MPing p)) out.
Proof.
  intros Hm. cbn [message_ok encode message_bytes] in *.
  destruct Hm as (Hlen & _ & Hk).
  set (key := match node_key p with Some k => as_bytes k | None => [] end).
  assert (Hkey : len key = match node_key p with Some _ => 32 | None => 0 end).
  { subst key. destruct (node_key p); [apply Hk|done]. }
  rewrite <- Hkey. replace (MSG_HEADER_LEN + 12 + len key) with (len ([TYPE_PING; VERSION] ++ ping_tx_id p ++ key)) by (unfold MSG_HEADER_LEN; llia).
  apply into_front_ok; [llia|done|]. intros a b f Hf.
  header.
  destruct (split_len 12 f) as (x & y & -> & Hx); [llia|].
  unfold slice_copy. cbn [fst snd].
  rewrite (copy_at_mid 2 14 _ [TYPE_PING; VERSION] x y) by llia. cbn [or_panic rbind].
  destruct (node_key p) as [k|]; subst key.
  + rewrite app_assoc. rewrite <- (app_nil_r y).
    rewrite (copy_at_mid 14 46 _ ([TYPE_PING; VERSION] ++ ping_tx_id p) y []) by llia.
    cbn [or_panic rbind]. by rewrite app_nil_r, <- app_assoc.
  + cbn [rbind]. rewrite (len_zero_nil y) by llia. done.
Qed.

Lemma encode_pong p out : message_ok (MPong p) -> encode (MPong p) out = placed (message_bytes (MPong p)) out.
Proof.
  intros Hm. cbn [message_ok encode message_bytes] in *.
  destruct Hm as (Hlen & _ & Ha). pose proof (len_address_bytes _ Ha) as Hla. unfold ADDRESS_LEN in *.
  replace (MSG_HEADER_LEN + 12 + 18) with (len ([TYPE_PONG; VERSION] ++ pong_tx_id p ++ address_bytes (src p))) by (unfold MSG_HEADER_LEN; llia).
  apply into_front_ok; [llia|done|]. intros a b f Hf.
  header.
  destruct (split_len 12 f) as (x & y & -> & Hx); [llia|].
  unfold slice_copy, slice. cbn [fst snd].
  rewrite (copy_at_mid 2 14 _ [TYPE_PONG; VERSION] x y) by llia. cbn [or_panic rbind].
  rewrite app_assoc. rewrite (get_range_back 14 _ _ y) by llia. cbn [or_panic rbind].
  rewrite write_address_ok by (done || (unfold ADDRESS_LEN; llia)). cbn [rbind].
  rewrite <- (app_nil_r y), copy_at_mid by llia. cbn [or_panic rbind]. by rewrite app_nil_r, <- app_assoc.
Qed.

Lemma encode_call c out : message_ok (MCall c) -> encode (MCall c) out = placed (message_bytes (MCall c)) out.
Proof.
  intros Hm. cbn [message_ok encode message_bytes] in *.
  destruct Hm as (_ & Hc). pose proof (len_addresses _ Hc) as Hla.
  replace (MSG_HEADER_LEN + len (endpoints c) * ADDRESS_LEN)
    with (len ([TYPE_CALL_ME_MAYBE; VERSION] ++ concat (map address_bytes (endpoints c)))) by (unfold MSG_HEADER_LEN; llia).
  apply into_front_ok; [llia|done|]. intros a b f Hf.
  header.
  rewrite (write_endpoints_ok _ 0 [TYPE_CALL_ME_MAYBE; VERSION] f) by (done || (unfold MSG_HEADER_LEN in *; llia)). done.
Qed.

Lemma encode_ok m out : message_ok m -> encode m out = placed (message_bytes m) out.
Proof. destruct m; auto using encode_ping, encode_pong, encode_call. Qed.

(** Reading the endpoints: the first eight whole addresses of the body. *)
Lemma read_endpoints_ok l acc fuel rest : Forall addr_ok l -> len acc + len l <= MAX_ENDPOINTS -> len rest < ADDRESS_LEN ->
  (length l < fuel)%nat ->
  read_endpoints fuel acc (concat (map address_bytes l) ++ rest) = Ok (acc ++ map canonical l).
Proof.
  intros Hl. revert acc fuel. induction Hl as [|a l Ha _ IH]; intros acc [|fuel] Hacc Hrest Hf; try (simpl in Hf; lia);
    cbn [map concat read_endpoints].
  - rewrite (proj2 (get_range_None _ _ _)); [by rewrite app_nil_r|]. cbn [app]. lia.
  - pose proof (len_address_bytes a Ha) as Hla. rewrite <- app_assoc, get_range_front by done.
    rewrite read_write_address by done. cbn [rbind]. rewrite len_cons in Hacc. pose proof (len_nonneg l).
    rewrite (proj2 (Z.ltb_lt _ _)), zdrop_app_len, IH by (done || llia || (simpl in *; lia)). by rewrite <- app_assoc.
Qed.

Lemma slice_body kind version (body : bytes) : slice (E:=Error) (MSG_HEADER_LEN, len (kind :: version :: body)) (kind :: version :: body) = Ok body.
Proof. unfold slice. cbn [fst snd]. rewrite (get_range_back 2 _ [kind; version] body) by llia. done. Qed.

(** The header is read, and the rest handed to the type's own reader. *)
Lemma decode_header kind version body :
  decode (kind :: version :: body) =
    if negb (version =? VERSION) then Err Unsupported else
    if kind =? TYPE_PING then
      if len body <? 12 then Err Malformed else
      Ok (MPing (mkPing (ztake 12 body) (if 44 <=? len body then Some (from_bytes (sub_range 12 44 body)) else None)))
    else if kind =? TYPE_PONG then
      if len body <? 30 then Err Malformed else
      let! a := read_address (sub_range 12 30 body) in Ok (MPong (mkPong (ztake 12 body) a))
    else if kind =? TYPE_CALL_ME_MAYBE then
      let! l := read_endpoints (length body) [] body in Ok (MCall (mkCall l))
    else Err Unsupported.
Proof.
  unfold decode. rewrite (proj2 (Z.ltb_ge _ _)) by (unfold MSG_HEADER_LEN; llia).
  rewrite slice_body. change (get_at 0 (kind :: version :: body)) with (Some kind).
  change (get_at 1 (kind :: version :: body)) with (Some version). cbn [or_panic rbind].
  destruct (negb _); [done|]. destruct (kind =? TYPE_PING); [|destruct (kind =? TYPE_PONG); [|done]].
  - destruct (len body <? 12) eqn:Hl; [done|]. bool_hyps. unfold slice. cbn [fst snd].
    rewrite (get_range_in 0 12) by lia. cbn [or_panic rbind]. change (12 + 32) with 44.
    destruct (44 <=? len body) eqn:Hk; [|done]. bool_hyps. by rewrite (get_range_in 12 44) by lia.
  - change (12 + ADDRESS_LEN) with 30. destruct (len body <? 30) eqn:Hl; [done|]. bool_hyps. unfold slice. cbn [fst snd].
    rewrite (get_range_in 0 12), (get_range_in 12 30) by lia. done.
Qed.

Lemma decode_bytes m : message_ok m -> decode (message_bytes m) = Ok (canonical_message m).
Proof.
  destruct m as [p|p|c]; cbn [message_ok message_bytes canonical_message app]; rewrite decode_header.
  - intros (Hl & _ & Hk). change (negb (VERSION =? VERSION)) with false. cbn [Z.eqb TYPE_PING]. 
    destruct p as [tx [k|]]; cbn [ping_tx_id node_key] in *; rewrite (proj2 (Z.ltb_ge _ _)) by llia.
    + destruct Hk as [Hk _]. change (len (as_bytes k) = 32) in Hk. rewrite (proj2 (Z.leb_le _ _)), ztake_app_len by llia.
      rewrite <- (app_nil_r (as_bytes k)), sub_range_mid by llia. by destruct k.
    + rewrite (proj2 (Z.leb_gt _ _)), ztake_app_len by llia. done.
  - intros (Hl & _ & Ha). pose proof (len_address_bytes _ Ha) as Hla. unfold ADDRESS_LEN in Hla.
    change (negb (VERSION =? VERSION)) with false. cbn [Z.eqb TYPE_PONG TYPE_PING Pos.eqb].
    rewrite (proj2 (Z.ltb_ge _ _)) by llia. rewrite ztake_app_len by lia.
    rewrite <- (app_nil_r (address_bytes _)), sub_range_mid by llia.
    by rewrite read_write_address.
  - intros (Hl & Hc). change (negb (VERSION =? VERSION)) with false.
    pose proof (len_addresses _ Hc) as Hla. unfold ADDRESS_LEN in Hla. unfold TYPE_CALL_ME_MAYBE, TYPE_PING, TYPE_PONG. cbn [Z.eqb Pos.eqb].
    destruct (endpoints c) as [|e l] eqn:He; [done|]. rewrite <- He in *.
    rewrite <- (app_nil_r (concat _)) at 2. rewrite read_endpoints_ok; [done|done|done|done|].
    rewrite !length_len. rewrite Hla. assert (0 < len (endpoints c)) by (rewrite He; llia). lia.
Qed.

Lemma canonical_twice a : canonical (canonical a) = canonical a.
Proof. unfold canonical. repeat (case_match; simplify_eq/=; try done). Qed.

Lemma message_bytes_bound m : message_ok m -> len (message_bytes m) <= 146.
Proof.
  destruct m as [p|p|c]; cbn [message_ok message_bytes].
  - intros (Hl & _ & Hk). destruct (node_key p) as [k|]; [|llia].
    destruct Hk as [Hk _]. change (len (as_bytes k) = 32) in Hk. llia.
  - intros (Hl & _ & Ha%len_address_bytes). unfold ADDRESS_LEN in Ha. llia.
  - intros (Hl & Hc%len_addresses). unfold MAX_ENDPOINTS, ADDRESS_LEN in *. llia.
Qed.

(** A disco message written into a buffer with room for it takes exactly its
    bytes in front of the buffer, at most 146 of them, leaves the rest alone, and is
    read back as the same message, with an IPv4-mapped address turned into the IPv4
    address it stands for and the scope of an IPv6 address dropped; reading such a
    message and writing it again changes nothing more.  A smaller buffer is refused. *)
Theorem disco_message_roundtrip (m : Message) (out : bytes) : message_ok m ->
  exists text, len text <= 146 /\
    encode m out = (if len text <=? len out then Ok (text ++ zdrop (len text) out, len text) else Err BufferTooSmall) /\
    decode text = Ok (canonical_message m) /\
    canonical_message (canonical_message m) = canonical_message m.
Proof.
  intros Hm. exists (message_bytes m). rewrite encode_ok, decode_bytes by done.
  split_and!; [by apply message_bytes_bound|done|done|].
  destruct m as [p|p|c]; cbn [canonical_message pong_tx_id src endpoints]; [done|by rewrite canonical_twice|].
  do 2 f_equal. rewrite map_map. apply map_ext, canonical_twice.
Qed.

Lemma disco_message_roundtrip_witness :
  let m := MCall (mkCall [Sock4 [100; 64; 0; 1] 41641; Sock6 [0; 0; 0; 0; 0; 0xffff; 0x0a00; 5] 443 0; Sock6 [0xfe80; 0; 0; 0; 0; 0; 0; 1] 7 3]) in
  message_ok m /\
  canonical_message m = MCall (mkCall [Sock4 [100; 64; 0; 1] 41641; Sock4 [10; 0; 0; 5] 443; Sock6 [0xfe80; 0; 0; 0; 0; 0; 0; 1] 7 0]) /\
  exists text, len text <= 146 /\
    encode m (zeros 60) = (if len text <=? 60 then Ok (text ++ zdrop (len text) (zeros 60), len text) else Err BufferTooSmall) /\
    decode text = Ok (canonical_message m) /\ canonical_message (canonical_message m) = canonical_message m.
Proof.
  intros m. assert (Hm : message_ok m).
  { split; [vm_compute; discriminate|]. apply (bool_decide_unpack _). vm_compute. exact I. }
  split; [exact Hm|]. split; [vm_compute; reflexivity|].
  exact (disco_message_roundtrip m (zeros 60) Hm).
Defined.

Lemma read_endpoints_total fuel acc body : bytes_ok body -> len acc <= MAX_ENDPOINTS -> Forall addr_ok acc ->
  exists l, read_endpoints fuel acc body = Ok l /\ len l <= MAX_ENDPOINTS /\ Forall addr_ok l.
Proof.
  revert acc body. induction fuel as [|fuel IH]; intros acc body Hb Hacc Ha; cbn [read_endpoints]; [eauto|].
  destruct (get_range 0 ADDRESS_LEN body) as [chunk|] eqn:Hc; [|eauto].
  apply get_range_Some in Hc as (_ & Hl & ->). unfold ADDRESS_LEN in *.
  assert (Hcb : bytes_ok (sub_range 0 18 body)) by auto with tf.
  destruct (read_address_returns (sub_range 0 18 body)) as (a & Hr); [rewrite len_sub_range; lia|].
  rewrite Hr. cbn [rbind]. apply read_address_ok in Hr; [|done].
  destruct (len acc <? MAX_ENDPOINTS) eqn:Hroom; [|eauto]. bool_hyps.
  apply IH; [auto with tf|llia|]. rewrite Forall_app. by repeat constructor.
Qed.

(** Whatever bytes a disco packet turns out to hold, reading them gives a
    well-formed message (identifiers of 12 bytes, keys of 32, addresses whose octets,
    groups and ports are in range, at most eight endpoints) or one of the errors; it
    never panics. *)
Theorem disco_decode_typed (b : bytes) : bytes_ok b ->
  match decode b with Ok m => message_ok m | Err e => e = Malformed \/ e = Unsupported | Panic | Hang => False end.
Proof.
  intros Hb. destruct b as [|kind [|version body]]; [by left..|]. rewrite decode_header.
  inversion Hb as [|?? _ Hb']; subst. inversion Hb' as [|?? _ Hbody]; subst. clear Hb Hb'.
  destruct (negb _); [by right|]. destruct (kind =? TYPE_PING); [|destruct (kind =? TYPE_PONG); [|destruct (kind =? _); [|by right]]].
  - destruct (len body <? 12) eqn:Hl; [by left|]. bool_hyps. cbn [message_ok ping_tx_id node_key].
    split_and!; [llia|auto with tf|]. destruct (44 <=? len body) eqn:Hk; [|done]. bool_hyps.
    split; [cbn [from_bytes as_bytes]; rewrite len_sub_range; [done|lia..]|cbn [from_bytes as_bytes]; auto with tf].
  - destruct (len body <? 30) eqn:Hl; [by left|]. bool_hyps.
    destruct (read_address_returns (sub_range 12 30 body)) as (a & Hr); [rewrite len_sub_range; lia|].
    rewrite Hr. cbn [rbind message_ok pong_tx_id src]. split_and!; [llia|auto with tf|].
    apply read_address_ok in Hr; auto with tf.
  - destruct (read_endpoints_total (length body) [] body) as (l & -> & Hl & Ha); [done|done|constructor|]. done.
Qed.

Lemma disco_decode_typed_witness :
  decode [1; 0; 0; 0; 0; 0; 0; 0; 0; 0; 0; 0; 0; 5; 9] = Ok (MPing (mkPing (zeros 11 ++ [5]) None)) /\
  match decode [1; 0; 0; 0; 0; 0; 0; 0; 0; 0; 0; 0; 0; 5; 9] with
  | Ok m => message_ok m | Err e => e = Malformed \/ e = Unsupported | Panic | Hang => False end.
Proof.
  split; [vm_compute; reflexivity|]. apply (disco_decode_typed [1; 0; 0; 0; 0; 0; 0; 0; 0; 0; 0; 0; 0; 5; 9]).
  unfold bytes_ok, is_uint. apply (bool_decide_unpack _). vm_compute. exact I.
Defined.

(** ** Packets *)

Section Packets.
Context `{C : Curve} `{HC : !CurveOk C} `{B : SalsaBox} `{HB : !SalsaBoxOk B C}.
Import packet.

Definition packet_bytes (key nonce tag sealed : bytes) : bytes := MAGIC ++ key ++ nonce ++ tag ++ sealed.

Lemma seal_ok (ours : Private Disco) (our_public recipient : DiscoPublic) plain rng out :
  len (as_bytes our_public) = 32 -> NONCE_LEN <= len rng ->
  exists c t, box_seal (as_bytes recipient) (to_bytes ours) (ztake NONCE_LEN rng) plain = Some (c, t) /\ len c = len plain /\ len t = 16 /\
    seal ours our_public recipient plain rng out = placed (packet_bytes (as_bytes our_public) (ztake NONCE_LEN rng) t c) out.
Proof.
  intros Hk Hr. unfold NONCE_LEN in *.
  destruct (box_seals (as_bytes recipient) (to_bytes ours) (ztake 24 rng) plain) as (c & t & Hs & Hc & Ht).
  exists c, t. split_and!; [done..|]. unfold seal, into_front, placed, packet_bytes, NONCE_LEN.
  change HEADER_LEN with 62. change (len MAGIC) with 6. change TAG_LEN with 16. change (6 + 32) with 38. change (62 + 16) with 78.
  assert (Htot : len (MAGIC ++ as_bytes our_public ++ ztake 24 rng ++ t ++ c) = 62 + len plain + 16).
  { rewrite !len_app. change (len MAGIC) with 6. llia. }
  rewrite Htot. destruct (_ <=? len out) eqn:Hl; bool_hyps; [|by rewrite (proj2 (get_range_None _ _ _)) by lia].
  destruct (split_len (62 + len plain + 16) out) as (f & rest & -> & Hf); [llia|].
  rewrite get_range_front, zdrop_app_len by done. cbn [ok_or rbind].
  pose proof (len_nonneg plain). name_fields f [6; 32; 24; 16; len plain].
  unfold slice_copy. cbn [fst snd]. change (len MAGIC) with 6.
  rewrite (get_range_in 0 24 rng) by lia. change (sub_range 0 24 rng) with (ztake 24 rng).
  assert (Hm : len MAGIC = 6) by done. assert (Hn : len (ztake 24 rng) = 24) by llia.
  write_field 0%nat. write_field 1%nat. write_field 2%nat. write_field 4%nat.
  rewrite Hs. cbn [ok_or rbind]. write_field 4%nat. write_field 3%nat.
  cbn [concat]. by rewrite app_nil_r.
Qed.

(** A packet is long enough and starts with the magic exactly when it has the five
    fields. *)
Lemma packet_shape p : starts_with MAGIC p = true -> 78 <= len p ->
  exists key nonce tag sealed, p = packet_bytes key nonce tag sealed /\ len key = 32 /\ len nonce = 24 /\ len tag = 16.
Proof.
  intros (k & ->)%starts_with_true Hl. rewrite len_app in Hl. change (len MAGIC) with 6 in Hl.
  destruct (split_len 32 k) as (key & k1 & -> & Hkey); [lia|].
  destruct (split_len 24 k1) as (nonce & k2 & -> & Hnonce); [llia|].
  destruct (split_len 16 k2) as (tag & sealed & -> & Htag); [llia|].
  exists key, nonce, tag, sealed. done.
Qed.

(** [open] on a packet of the right shape. *)
Lemma open_fields (ours : Private Disco) expected key nonce tag sealed out :
  len key = 32 -> len nonce = 24 -> len tag = 16 ->
  sender_key (packet_bytes key nonce tag sealed) = Ok (from_bytes key) /\
  open ours expected (packet_bytes key nonce tag sealed) out =
    if negb (public_eq key (as_bytes expected)) then (out, Err Decryption) else
    if len out <? len sealed then (out, Err BufferTooSmall) else
    match box_open key (to_bytes ours) nonce sealed tag with
    | Some m => (m ++ zdrop (len sealed) out, Ok (mkOpened (from_bytes key) (len sealed)))
    | None => (sealed ++ zdrop (len sealed) out, Err Decryption)
    end.
Proof.
  intros Hk Hn Ht. assert (Hm : len MAGIC = 6) by done.
  assert (Hs : sender_key (packet_bytes key nonce tag sealed) = Ok (from_bytes key)).
  { unfold sender_key. unfold packet_bytes at 1. rewrite starts_with_app. unfold packet_bytes, slice. cbn [negb orb fst snd].
    change HEADER_LEN with 62. change TAG_LEN with 16. rewrite (proj2 (Z.ltb_ge _ _)) by llia.
    by rewrite get_range_mid by lia. }
  split; [done|]. unfold open. rewrite Hs. cbn [from_bytes as_bytes]. destruct (negb _); [done|].
  change HEADER_LEN with 62. change TAG_LEN with 16. change (len MAGIC) with 6. unfold packet_bytes.
  assert (H1 : get_range 62 (len (MAGIC ++ key ++ nonce ++ tag ++ sealed)) (MAGIC ++ key ++ nonce ++ tag ++ sealed) = Some (tag ++ sealed)).
  { replace (MAGIC ++ key ++ nonce ++ tag ++ sealed) with ((MAGIC ++ key ++ nonce) ++ tag ++ sealed) by by rewrite <- !app_assoc.
    apply get_range_back; llia. }
  assert (H2 : get_range (6 + 32) 62 (MAGIC ++ key ++ nonce ++ tag ++ sealed) = Some nonce).
  { rewrite app_assoc. apply get_range_mid; llia. }
  rewrite H1, H2. rewrite (get_range_front 16), (get_range_back 16) by llia.
  replace (len (tag ++ sealed) - 16) with (len sealed) by llia. rewrite (proj2 (Z.ltb_ge _ _)) by llia.
  destruct (len out <? len sealed) eqn:Hl; bool_hyps.
  - by rewrite (proj2 (get_range_None _ _ _)) by lia.
  - by rewrite (get_range_in 0 (len sealed)) by llia.
Qed.

Lemma packet_is_disco key nonce tag sealed : is_disco (packet_bytes key nonce tag sealed) = true.
Proof. apply starts_with_app. Qed.

Lemma seal_delivers (a b : Private Disco) (plain rng buf room : bytes) :
  NONCE_LEN <= len rng -> HEADER_LEN + TAG_LEN + len plain <= len buf -> len plain <= len room ->
  exists packet,
    seal a (public a) (public b) plain rng buf = Ok (packet ++ zdrop (len packet) buf, len packet) /\
    is_disco packet = true /\ (forall t, message_type packet = Ok t -> ~ 1 <= t <= 4) /\
    sender_key packet = Ok (public a) /\
    open b (public a) packet room = (plain ++ zdrop (len plain) room, Ok (mkOpened (public a) (len plain))).
Proof.
  intros Hr Hb Ho. destruct (seal_ok a (public a) (public b) plain rng buf) as (c & t & Hs & Hc & Ht & Hseal); [apply len_public|done|].
  exists (packet_bytes (public_from (secret a)) (ztake NONCE_LEN rng) t c). rewrite Hseal. unfold placed.
  assert (Hk : len (public_from (secret a)) = 32) by apply len_public.
  assert (Hn : len (ztake NONCE_LEN rng) = 24) by (unfold NONCE_LEN in *; llia).
  destruct (open_fields b (public a) _ _ t c room Hk Hn Ht) as [Hsender Hopen].
  rewrite Hsender, Hopen. cbn [public as_bytes].
  rewrite public_eq_refl, (proj2 (Z.ltb_ge _ _)), (proj2 (Z.leb_le _ _)) by
    (try lia; unfold packet_bytes; rewrite !len_app; change (len MAGIC) with 6; change HEADER_LEN with 62 in *; change TAG_LEN with 16 in *; lia).
  cbn [negb]. cbn [public as_bytes] in Hs. unfold to_bytes in *. rewrite (box_opens _ _ _ _ _ _ Hs), Hc.
  split_and!; try done. intros x [= <-]. lia.
Qed.

(** A message one node seals for another's disco key arrives: the recipient, told
    by the netmap to expect that sender, opens the packet to the same bytes and the
    same sender, and the packet is recognised as disco and is none of the tunnel's
    message types 1 to 4, so the two can share a socket. *)
Theorem disco_delivered (a b : Private Disco) (plain rng buf room : bytes) :
  NONCE_LEN <= len rng -> HEADER_LEN + TAG_LEN + len plain <= len buf -> len plain <= len room ->
  exists packet,
    seal a (public a) (public b) plain rng buf = Ok (packet ++ zdrop (len packet) buf, len packet) /\
    is_disco packet = true /\ (forall t, message_type packet = Ok t -> ~ 1 <= t <= 4) /\
    sender_key packet = Ok (public a) /\
    open b (public a) packet room = (plain ++ zdrop (len plain) room, Ok (mkOpened (public a) (len plain))).
Proof. apply seal_delivers. Qed.

Lemma open_exact (ours : Private Disco) (expected : DiscoPublic) (p out : bytes) :
  (forall out' o, open ours expected p out = (out', Ok o) <->
    exists key nonce tag sealed m, p = packet_bytes key nonce tag sealed /\ len key = 32 /\ len nonce = 24 /\ len tag = 16 /\
      public_eq key (as_bytes expected) = true /\ box_open key (to_bytes ours) nonce sealed tag = Some m /\
      len m <= len out /\ out' = m ++ zdrop (len m) out /\ o = mkOpened (from_bytes key) (len m)) /\
  ((exists o, (open ours expected p out).2 = Ok o) \/
    exists e, (open ours expected p out).2 = Err e /\ e <> Unsupported).
Proof.
  destruct (decide (starts_with MAGIC p = true /\ 78 <= len p)) as [[Hm Hl]|Hno].
  - destruct (packet_shape p Hm Hl) as (key & nonce & tag & sealed & -> & Hk & Hn & Ht).
    destruct (open_fields ours expected key nonce tag sealed out Hk Hn Ht) as [_ Ho]. rewrite Ho. split.
    + intros out' o. split.
      * destruct (negb _) eqn:Heq; [done|]. destruct (len out <? len sealed) eqn:Hroom; [done|]. bool_hyps.
        destruct (box_open _ _ _ _ _) as [m|] eqn:Hopen; [|done]. intros [= <- <-].
        pose proof (len_box_open _ _ _ _ _ _ Hopen) as Hlm. exists key, nonce, tag, sealed, m. rewrite Hlm. by split_and!.
      * intros (key' & nonce' & tag' & sealed' & m & Hp & Hk' & Hn' & Ht' & Heq & Hopen & Hroom & -> & ->).
        unfold packet_bytes in Hp. apply app_inv_head in Hp.
        apply app_inj_1 in Hp as [-> Hp]; [|apply Nat2Z.inj; unfold len in *; lia].
        apply app_inj_1 in Hp as [-> Hp]; [|apply Nat2Z.inj; unfold len in *; lia].
        apply app_inj_1 in Hp as [-> ->]; [|apply Nat2Z.inj; unfold len in *; lia].
        pose proof (len_box_open _ _ _ _ _ _ Hopen) as Hlm. rewrite Heq, Hopen, <- Hlm. cbn [negb].
        by rewrite (proj2 (Z.ltb_ge _ _)) by lia.
    + destruct (negb _); [eauto|]. destruct (_ <? _); [eauto|]. destruct (box_open _ _ _ _ _); eauto.
  - assert (Hs : sender_key p = Err Malformed).
    { unfold sender_key. change (HEADER_LEN + TAG_LEN) with 78. destruct (starts_with MAGIC p) eqn:Hm; [|done].
      cbn [negb orb]. destruct (len p <? 78) eqn:Hl; [done|]. bool_hyps. naive_solver. }
    unfold open. rewrite Hs. split; [|eauto]. intros out' o. split; [done|].
    intros (key & nonce & tag & sealed & m & -> & Hk & Hn & Ht & _). destruct Hno. split; [apply starts_with_app|].
    unfold packet_bytes. rewrite !len_app. change (len MAGIC) with 6. pose proof (len_nonneg sealed). lia.
Qed.

(** C35: Opening never panics, and succeeds exactly on a packet that carries the
    expected sender's key in the clear and whose box opens under that key and ours:
    a packet naming another sender is refused before its box is tried, and the only
    errors are the three documented ones. *)
Theorem disco_open_exact (ours : Private Disco) (expected : DiscoPublic) (p out : bytes) :
  (forall out' o, open ours expected p out = (out', Ok o) <->
    exists key nonce tag sealed m, p = packet_bytes key nonce tag sealed /\ len key = 32 /\ len nonce = 24 /\ len tag = 16 /\
      public_eq key (as_bytes expected) = true /\ box_open key (to_bytes ours) nonce sealed tag = Some m /\
      len m <= len out /\ out' = m ++ zdrop (len m) out /\ o = mkOpened (from_bytes key) (len m)) /\
  ((exists o, (open ours expected p out).2 = Ok o) \/
    exists e, (open ours expected p out).2 = Err e /\ e <> Unsupported).
Proof. apply open_exact. Qed.

End Packets.

Import ToyCurve ToyBox.

(** The witnesses' node: the secret whose bytes are all [x]. *)
Definition toy_disco (x : Z) : Private Disco := private_from_bytes (repeat x 32).

Lemma disco_delivered_witness :
  exists packet,
    packet.seal (toy_disco 7) (public (toy_disco 7)) (public (toy_disco 9)) [2; 0; 5] (zeros 24) (zeros 100) =
      Ok (packet ++ zdrop (len packet) (zeros 100), len packet) /\
    is_disco packet = true /\ (forall t, message_type packet = Ok t -> ~ 1 <= t <= 4) /\
    packet.sender_key packet = Ok (public (toy_disco 7)) /\
    packet.open (toy_disco 9) (public (toy_disco 7)) packet (zeros 10) =
      ([2; 0; 5] ++ zdrop 3 (zeros 10), Ok (packet.mkOpened (public (toy_disco 7)) 3)).
Proof.
  apply (disco_delivered (toy_disco 7) (toy_disco 9) [2; 0; 5] (zeros 24) (zeros 100) (zeros 10)); vm_compute; discriminate.
Defined.

Lemma disco_open_exact_witness :
  let p := packet_bytes (repeat 7 32) (zeros 24) (tag (shared_key (repeat 7 32) (repeat 9 32)) (zeros 24) [2; 0; 5]) [2; 0; 5] in
  (forall out' o, packet.open (toy_disco 9) (public (toy_disco 7)) p (zeros 3) = (out', Ok o) <->
    exists key nonce tag sealed m, p = packet_bytes key nonce tag sealed /\ len key = 32 /\ len nonce = 24 /\ len tag = 16 /\
      public_eq key (as_bytes (public (toy_disco 7))) = true /\ box_open key (to_bytes (toy_disco 9)) nonce sealed tag = Some m /\
      len m <= len (zeros 3) /\ out' = m ++ zdrop (len m) (zeros 3) /\ o = packet.mkOpened (from_bytes key) (len m)) /\
  ((exists o, (packet.open (toy_disco 9) (public (toy_disco 7)) p (zeros 3)).2 = Ok o) \/
    exists e, (packet.open (toy_disco 9) (public (toy_disco 7)) p (zeros 3)).2 = Err e /\ e <> Unsupported).
Proof.
  intros p. apply (disco_open_exact (toy_disco 9) (public (toy_disco 7)) p (zeros 3)).
Defined.
