(* ===== verification/Derp.v ===== *)
(** * The relay protocol

    [crates/ts-derp]: frames ([frame.rs]), the client's half of the handshake, the
    packets and the HTTP upgrade ([client.rs], [lib.rs]).  A function that writes into
    [out] gives the buffer it leaves with its result; nothing is said of the buffer a
    failing call leaves. *)

From Stdlib Require Import Strings.String.
From S2P Require Import Prelude Text Keys NetAddr NaClBox.
Import keys.

Module derp.

(** [DERP🔑] *)
Definition MAGIC : bytes := [68; 69; 82; 80; 0xf0; 0x9f; 0x94; 0x91].
Definition VERSION : Z := 2.
Definition PATH : bytes := str "/derp".
Definition UPGRADE_TOKEN : bytes := str "DERP".

Inductive Error := Incomplete | Malformed | Decryption | TooLarge | BufferTooSmall | Unsupported.

End derp.

(** ** Frames *)

Module derp_frame.
Import derp.

Definition HEADER_LEN : Z := 5.
Definition MAX_FRAME : Z := 4096.

Inductive FrameType :=
| ServerKey | ClientInfo | ServerInfo | SendPacket | RecvPacket | KeepAlive | NotePreferred | PeerGone
| Other (b : Z).

#[export] Instance frame_type_eq_dec : EqDecision FrameType.
Proof. solve_decision. Defined.

Definition from_byte (byte : Z) : FrameType :=
  match byte with
  | 1 => ServerKey | 2 => ClientInfo | 3 => ServerInfo | 4 => SendPacket
  | 5 => RecvPacket | 6 => KeepAlive | 7 => NotePreferred | 8 => PeerGone
  | other => Other other
  end.

Definition to_byte (t : FrameType) : Z :=
  match t with
  | ServerKey => 1 | ClientInfo => 2 | ServerInfo => 3 | SendPacket => 4
  | RecvPacket => 5 | KeepAlive => 6 | NotePreferred => 7 | PeerGone => 8
  | Other other => other
  end.

Record Frame := mkFrame { kind : FrameType; length_ : Z }.

Definition parse (b : bytes) : res Error Frame :=
  let! b := ok_or (get_range 0 HEADER_LEN b) Incomplete in
  let! be := slice (1, 5) b in
  let n := of_be be in
  if MAX_FRAME <? n then Err TooLarge else
  let! k := or_panic (get_at 0 b) in
  Ok (mkFrame (from_byte k) n).

Definition write (k : FrameType) (payload out : bytes) : res Error (bytes * Z) :=
  let total := HEADER_LEN + len payload in
  let! front := ok_or (get_range 0 total out) BufferTooSmall in
  let! front := or_panic (set_at 0 (to_byte k) front) in
  let! front := slice_copy (1, 5) (to_be 4 (wrap 32 (len payload))) front in
  let! front := slice_copy (HEADER_LEN, total) payload front in
  Ok (front ++ zdrop total out, total).

End derp_frame.

(** ** The client *)

Module derp_client.
Import derp derp_frame.

Definition MAX_PACKET : Z := MAX_FRAME - 32.
Definition NONCE_LEN : Z := 24.
Definition TAG_LEN : Z := 16.
Definition KEY_LEN : Z := 32.

(** [{"version":2}], with the quotes as numbers. *)
Definition CLIENT_INFO : bytes := [123; 34] ++ str "version" ++ [34; 58; 50; 125].

Record Client := mkClient { server : NodePublic }.

Definition read_server_key (f : Frame) (payload : bytes) : res Error NodePublic :=
  if negb (bool_decide (kind f = ServerKey)) then Err Malformed else
  if len payload <? len MAGIC + KEY_LEN then Err Malformed else
  let! magic := slice (0, len MAGIC) payload in
  if negb (bytes_eqb magic MAGIC) then Err Malformed else
  let! key := slice (len MAGIC, len MAGIC + KEY_LEN) payload in
  Ok (from_bytes key).

Section Box.
Context `{C : Curve} `{B : SalsaBox}.

(** [rng] is the tape of bytes the generator will produce. *)
Definition write_client_info (ours : Private Node) (our_public server : NodePublic) (rng out : bytes) : res Error (bytes * Z) :=
  let payload := zeros (KEY_LEN + NONCE_LEN + 128) in
  let sealed_len := len CLIENT_INFO + TAG_LEN in
  let total := KEY_LEN + NONCE_LEN + sealed_len in
  if len payload <? total then Err BufferTooSmall else
  let! payload := slice_copy (0, KEY_LEN) (as_bytes our_public) payload in
  let! nonce := (match get_range 0 NONCE_LEN rng with Some n => Ok n | None => Hang end) in
  let! payload := slice_copy (KEY_LEN, KEY_LEN + NONCE_LEN) nonce payload in
  let body_start := KEY_LEN + NONCE_LEN + TAG_LEN in
  let! payload := slice_copy (body_start, body_start + len CLIENT_INFO) CLIENT_INFO payload in
  let! text := slice (body_start, body_start + len CLIENT_INFO) payload in
  let! '(body, tag) := ok_or (box_seal (as_bytes server) (to_bytes ours) nonce text) Decryption in
  let! payload := slice_copy (body_start, body_start + len CLIENT_INFO) body payload in
  let! payload := slice_copy (KEY_LEN + NONCE_LEN, body_start) tag payload in
  let! hello := slice (0, total) payload in
  write ClientInfo hello out.

Definition read_server_info (ours : Private Node) (server : NodePublic) (f : Frame) (payload out : bytes) : bytes * res Error Client :=
  if negb (bool_decide (kind f = ServerInfo)) then (out, Err Malformed) else
  match get_range NONCE_LEN (len payload) payload with
  | None => (out, Err Malformed)
  | Some sealed =>
      if len sealed <? TAG_LEN then (out, Err Malformed) else
      let n := len sealed - TAG_LEN in
      match get_range 0 n out with
      | None => (out, Err BufferTooSmall)
      | Some _ =>
          match get_range 0 NONCE_LEN payload, get_range 0 TAG_LEN sealed, get_range TAG_LEN (len sealed) sealed with
          | Some nonce, Some tag, Some ciphertext =>
              match box_open (as_bytes server) (to_bytes ours) nonce ciphertext tag with
              | Some m => (m ++ zdrop n out, Ok (mkClient server))
              | None => (ciphertext ++ zdrop n out, Err Decryption)
              end
          | _, _, _ => (out, Panic)
          end
      end
  end.

End Box.

Definition send_packet (destination : NodePublic) (packet out : bytes) : res Error (bytes * Z) :=
  if MAX_PACKET <? len packet then Err TooLarge else
  let payload := zeros MAX_FRAME in
  let! payload := slice_copy (0, KEY_LEN) (as_bytes destination) payload in
  let! payload := slice_copy (KEY_LEN, KEY_LEN + len packet) packet payload in
  let! text := slice (0, KEY_LEN + len packet) payload in
  write SendPacket text out.

Definition read_packet (f : Frame) (payload : bytes) : res Error (NodePublic * bytes) :=
  if negb (bool_decide (kind f = RecvPacket)) then Err Malformed else
  if len payload <? KEY_LEN then Err Malformed else
  let! key := slice (0, KEY_LEN) payload in
  let! packet := slice (KEY_LEN, len payload) payload in
  Ok (from_bytes key, packet).

Definition write_note_preferred (preferred : bool) (out : bytes) : res Error (bytes * Z) :=
  write NotePreferred [if preferred then 1 else 0] out.

(** *** The upgrade *)

(** The loop over the parts: [n] bytes are written. *)
Fixpoint write_parts (n : Z) (parts : list bytes) (out : bytes) : res Error (bytes * Z) :=
  match parts with
  | [] => Ok (out, n)
  | part :: parts =>
      let finish := n + len part in
      let! _ := ok_or (get_range n finish out) BufferTooSmall in
      let! out := slice_copy (n, finish) part out in
      write_parts finish parts out
  end.

Definition CRLF2 : bytes := [13; 10; 13; 10].

(** The buffer, and the request in front of it. *)
Definition write_upgrade_request (host out : bytes) : res Error (bytes * bytes) :=
  let parts := [str "GET "; PATH; str " HTTP/1.1" ++ [13; 10] ++ str "Host: "; host;
                [13; 10] ++ str "Connection: Upgrade" ++ [13; 10] ++ str "Upgrade: "; UPGRADE_TOKEN] in
  let! '(out, n) := write_parts 0 parts out in
  let finish := n + len CRLF2 in
  let! _ := ok_or (get_range n finish out) BufferTooSmall in
  let! out := slice_copy (n, finish) CRLF2 out in
  let! request := slice (0, finish) out in
  Ok (out, request).

(** [haystack.windows(needle.len()).any(|w| w == needle)] *)
Definition contains (haystack needle : bytes) : bool := bool_decide (is_Some (position needle haystack)).

Definition parse_upgrade (b : bytes) : res Error Z :=
  let! finish := ok_or (let? i := position CRLF2 b in Some (i + 4)) Incomplete in
  let! head := slice (0, finish) b in
  if negb (starts_with (str "HTTP/1.1 101") head) then Err Malformed else
  if negb (contains head (str "Derp-Version: 2")) && negb (contains head (str "derp-version: 2")) then Err Unsupported else
  Ok finish.

End derp_client.
