(* ===== verification/DerpFacts.v ===== *)
(** * The relay protocol: what the client guarantees

    Frames round trip, the handshake completes with a server that holds its key, a
    packet sent through a relay arrives with its source, and the upgrade is recognised
    whatever follows it.  The server and the relay are specifications: [relay_server]
    says what the other side is documented to send and accept. *)

From Stdlib Require Import Strings.String.
From S2P Require Import Prelude Text Keys KeysFacts NetAddr NaClBox Derp.
Import keys derp derp_frame derp_client.

(** ** Frames *)

Definition frame_type_ok (t : FrameType) : Prop :=
  match t with Other b => b = 0 \/ 9 <= b < 256 | _ => True end.

Lemma from_to_byte t : frame_type_ok t -> from_byte (to_byte t) = t.
Proof.
  destruct t as [| | | | | | | |b]; try done. cbn [frame_type_ok to_byte]. intros Hb. unfold from_byte.
  repeat (case_match; try done; try (exfalso; lia)).
Qed.

Lemma to_byte_range t : frame_type_ok t -> is_u8 (to_byte t).
Proof. unfold is_uint. destruct t; cbn [frame_type_ok to_byte]; lia. Qed.

Lemma to_from_byte b : to_byte (from_byte b) = b.
Proof. unfold from_byte. repeat (case_match; try done). Qed.

(** The bytes of a frame. *)
Definition frame_bytes (t : FrameType) (payload : bytes) : bytes :=
  [to_byte t] ++ to_be 4 (len payload) ++ payload.

(** What writing some text comes to: the text in front of the buffer. *)
Definition laid (text out : bytes) : res Error (bytes * Z) :=
  if len text <=? len out then Ok (text ++ zdrop (len text) out, len text) else Err BufferTooSmall.

Lemma write_ok t payload out : len payload < 2 ^ 32 -> write t payload out = laid (frame_bytes t payload) out.
Proof.
  intros Hp. unfold write, laid, frame_bytes, HEADER_LEN.
  assert (Hw : wrap 32 (len payload) = len payload) by (apply Z.mod_small; llia). rewrite Hw.
  replace (len ([to_byte t] ++ to_be 4 (len payload) ++ payload)) with (5 + len payload) by llia.
  destruct (_ <=? len out) eqn:Hl; bool_hyps; [|by rewrite (proj2 (get_range_None _ _ _)) by lia].
  pose proof (len_nonneg payload). destruct (split_len (5 + len payload) out) as (f & rest & -> & Hf); [llia|].
  rewrite get_range_front, zdrop_app_len by done. cbn [ok_or rbind].
  name_fields f [1; 4; len payload]. unfold set_at, slice_copy. cbn [fst snd].
  write_field 0%nat. write_field 1%nat. write_field 2%nat. cbn [concat]. by rewrite app_nil_r.
Qed.

Lemma parse_frame_header k n rest : is_u8 k -> is_u32 n ->
  parse (k :: to_be 4 n ++ rest) = if MAX_FRAME <? n then Err TooLarge else Ok (mkFrame (from_byte k) n).
Proof.
  intros Hk Hn. unfold parse, HEADER_LEN. change (k :: to_be 4 n ++ rest) with ((k :: to_be 4 n) ++ rest).
  rewrite get_range_front by llia. cbn [ok_or rbind]. unfold slice. cbn [fst snd].
  change (k :: to_be 4 n) with ([k] ++ to_be 4 n). rewrite (get_range_back 1 5) by llia. cbn [or_panic rbind].
  rewrite of_to_be_small by done. done.
Qed.

Lemma parse_short b : len b < 5 -> parse b = Err Incomplete.
Proof. intros H. unfold parse, HEADER_LEN. by rewrite (proj2 (get_range_None _ _ _)) by lia. Qed.

Lemma parse_frame t payload rest : frame_type_ok t -> len payload <= MAX_FRAME ->
  parse (frame_bytes t payload ++ rest) = Ok (mkFrame t (len payload)).
Proof.
  intros Ht Hp. unfold frame_bytes. cbn [app]. rewrite <- app_assoc. unfold MAX_FRAME in *.
  rewrite parse_frame_header; [|by apply to_byte_range|unfold is_uint; llia].
  unfold MAX_FRAME. by rewrite (proj2 (Z.ltb_ge _ _)), from_to_byte by (done || lia).
Qed.

(** A frame written into a buffer with room is read back with its type and its
    payload's length, and the payload is what follows the header; a smaller buffer is
    refused, and so is the header of a frame above the limit, whose payload is never
    read.  Fewer bytes than a header are asked to be completed. *)
Theorem derp_frame_roundtrip (t : FrameType) (payload rest out : bytes) :
  frame_type_ok t -> len payload < 2 ^ 32 ->
  exists frame, len frame = HEADER_LEN + len payload /\
    write t payload out = (if len frame <=? len out then Ok (frame ++ zdrop (len frame) out, len frame) else Err BufferTooSmall) /\
    parse (frame ++ rest) = (if len payload <=? MAX_FRAME then Ok (mkFrame t (len payload)) else Err TooLarge) /\
    get_range HEADER_LEN (HEADER_LEN + len payload) (frame ++ rest) = Some payload /\
    (forall n, 0 <= n < HEADER_LEN -> parse (ztake n frame) = Err Incomplete).
Proof.
  intros Ht Hp. exists (frame_bytes t payload).
  assert (Hl : len (frame_bytes t payload) = HEADER_LEN + len payload) by (unfold frame_bytes, HEADER_LEN; llia).
  split_and!; [done|by rewrite write_ok| | |].
  - destruct (_ <=? MAX_FRAME) eqn:Hm; bool_hyps; [by apply parse_frame|].
    unfold frame_bytes. cbn [app]. rewrite <- app_assoc, parse_frame_header; [|by apply to_byte_range|unfold is_uint; llia].
    by rewrite (proj2 (Z.ltb_lt _ _)).
  - unfold frame_bytes, HEADER_LEN. rewrite app_assoc. rewrite <- app_assoc. apply get_range_mid; llia.
  - intros n Hn. apply parse_short. unfold HEADER_LEN in *. llia.
Qed.

Lemma derp_frame_roundtrip_witness :
  exists frame, len frame = HEADER_LEN + 3 /\
    write (Other 0x2a) [1; 2; 3] (zeros 10) = (if len frame <=? 10 then Ok (frame ++ zdrop (len frame) (zeros 10), len frame) else Err BufferTooSmall) /\
    parse (frame ++ [7]) = (if 3 <=? MAX_FRAME then Ok (mkFrame (Other 0x2a) 3) else Err TooLarge) /\
    get_range HEADER_LEN (HEADER_LEN + 3) (frame ++ [7]) = Some [1; 2; 3] /\
    (forall n, 0 <= n < HEADER_LEN -> parse (ztake n frame) = Err Incomplete).
Proof.
  apply (derp_frame_roundtrip (Other 0x2a) [1; 2; 3] [7] (zeros 10)); [right; lia|vm_compute; reflexivity].
Defined.

(** ** Packets through a relay *)

(** What the relay does with a client's [SendPacket]: the destination it reads and
    the [RecvPacket] frame it hands to that client, naming the source. *)
Definition relay_server (source : NodePublic) (sent : bytes) : option (NodePublic * bytes) :=
  match parse sent with
  | Ok f =>
      if bool_decide (kind f = SendPacket) && (KEY_LEN <=? length_ f) && (len sent =? HEADER_LEN + length_ f) then
        let body := zdrop HEADER_LEN sent in
        Some (from_bytes (ztake KEY_LEN body), frame_bytes RecvPacket (as_bytes source ++ zdrop KEY_LEN body))
      else None
  | _ => None
  end.

Lemma send_packet_ok (d : NodePublic) packet out : len (as_bytes d) = 32 ->
  send_packet d packet out =
    if MAX_PACKET <? len packet then Err TooLarge else laid (frame_bytes SendPacket (as_bytes d ++ packet)) out.
Proof.
  intros Hd. unfold send_packet. destruct (_ <? _) eqn:Hl; [done|]. bool_hyps. unfold MAX_PACKET, MAX_FRAME, KEY_LEN in *.
  pose proof (len_nonneg packet). assert (Hz : len (zeros 4096) = 32 + len packet + (4064 - len packet)) by llia.
  set (z := zeros 4096) in *. clearbody z. name_fields z [32; len packet; 4064 - len packet].
  unfold slice_copy, slice. cbn [fst snd]. write_field 0%nat. write_field 1%nat.
  read_field 0%nat 2%nat. cbn [concat]. rewrite app_nil_r. apply write_ok. llia.
Qed.

(** What was sent is read by the relay and handed on. *)
Lemma relay_server_sent (source destination : NodePublic) packet : len (as_bytes destination) = 32 -> len packet <= MAX_PACKET ->
  relay_server source (frame_bytes SendPacket (as_bytes destination ++ packet)) = Some (destination, frame_bytes RecvPacket (as_bytes source ++ packet)).
Proof.
  intros Hd Hl. unfold MAX_PACKET, MAX_FRAME, KEY_LEN in Hl.
  assert (Hfl : len (frame_bytes SendPacket (as_bytes destination ++ packet)) = 5 + (32 + len packet)) by (unfold frame_bytes; llia).
  assert (Hdrop : forall t p, zdrop 5 (frame_bytes t p) = p).
  { intros t p. unfold frame_bytes. rewrite app_assoc. apply zdrop_app_len. llia. }
  unfold relay_server. rewrite <- (app_nil_r (frame_bytes SendPacket _)) at 1.
  rewrite parse_frame by (done || (unfold MAX_FRAME; llia)). cbn [kind length_]. rewrite Hfl. unfold HEADER_LEN, KEY_LEN.
  rewrite (proj2 (Z.leb_le _ _)), (proj2 (Z.eqb_eq _ _)), Hdrop, ztake_app_len, zdrop_app_len by llia. by destruct destination.
Qed.

Lemma read_packet_ok (s : NodePublic) packet n : len (as_bytes s) = 32 ->
  read_packet (mkFrame RecvPacket n) (as_bytes s ++ packet) = Ok (s, packet).
Proof.
  intros Hs. unfold read_packet, KEY_LEN. cbn [kind]. rewrite (proj2 (Z.ltb_ge _ _)) by llia.
  rewrite bool_decide_eq_true_2 by done. cbn [negb]. unfold slice. cbn [fst snd].
  rewrite get_range_front, (get_range_back 32) by llia. by destruct s.
Qed.

(** A packet sent to a node's key and carried by the relay arrives as the same
    bytes with the sender's key; the relay learns nothing but the destination.  A
    packet above the limit is refused, so what is sent always fits the receiver's
    frame limit. *)
Theorem derp_relayed (source destination : NodePublic) (packet out : bytes) :
  len (as_bytes source) = 32 -> len (as_bytes destination) = 32 ->
  if MAX_PACKET <? len packet then send_packet destination packet out = Err TooLarge else
  HEADER_LEN + KEY_LEN + len packet <= len out ->
  exists sent got payload,
    send_packet destination packet out = Ok (sent ++ zdrop (len sent) out, len sent) /\
    relay_server source sent = Some (destination, got) /\
    parse got = Ok (mkFrame RecvPacket (len payload)) /\ zdrop HEADER_LEN got = payload /\
    read_packet (mkFrame RecvPacket (len payload)) payload = Ok (source, packet).
Proof.
  intros Hs Hd. rewrite send_packet_ok by done. destruct (_ <? _) eqn:Hl; [done|]. bool_hyps. intros Ho.
  unfold MAX_PACKET, MAX_FRAME, HEADER_LEN, KEY_LEN in *.
  exists (frame_bytes SendPacket (as_bytes destination ++ packet)), (frame_bytes RecvPacket (as_bytes source ++ packet)), (as_bytes source ++ packet).
  assert (Hfl : len (frame_bytes SendPacket (as_bytes destination ++ packet)) = 5 + (32 + len packet)) by (unfold frame_bytes; llia).
  assert (Hdrop : forall t p, zdrop 5 (frame_bytes t p) = p).
  { intros t p. unfold frame_bytes. rewrite app_assoc. apply zdrop_app_len. llia. }
  split_and!.
  - unfold laid. by rewrite (proj2 (Z.leb_le _ _)) by llia.
  - by apply relay_server_sent.
  - rewrite <- (app_nil_r (frame_bytes RecvPacket _)). apply parse_frame; [done|unfold MAX_FRAME; llia].
  - apply Hdrop.
  - by apply read_packet_ok.
Qed.

Lemma derp_relayed_witness :
  let a : NodePublic := from_bytes (repeat 7 32) in let b : NodePublic := from_bytes (repeat 9 32) in
  exists sent got payload,
    send_packet b [4; 0; 0; 0; 9] (zeros 64) = Ok (sent ++ zdrop (len sent) (zeros 64), len sent) /\
    relay_server a sent = Some (b, got) /\
    parse got = Ok (mkFrame RecvPacket (len payload)) /\ zdrop HEADER_LEN got = payload /\
    read_packet (mkFrame RecvPacket (len payload)) payload = Ok (a, [4; 0; 0; 0; 9]).
Proof.
  intros a b. assert (H := derp_relayed a b [4; 0; 0; 0; 9] (zeros 64) ltac:(reflexivity) ltac:(reflexivity)).
  apply H. vm_compute. discriminate.
Defined.

(** ** The upgrade *)

(** The head of a response: it ends at its first blank line. *)
Definition is_head (head : bytes) : Prop := position CRLF2 head = Some (len head - 4).

Definition verdict (head : bytes) : res Error Z :=
  if negb (starts_with (str "HTTP/1.1 101") head) then Err Malformed else
  if negb (contains head (str "Derp-Version: 2")) && negb (contains head (str "derp-version: 2")) then Err Unsupported else
  Ok (len head).

Lemma parse_upgrade_head head rest : is_head head -> parse_upgrade (head ++ rest) = verdict head.
Proof.
  intros Hh. unfold parse_upgrade. rewrite (position_app _ _ _ _ Hh). cbn [ok_or rbind].
  replace (len head - 4 + 4) with (len head) by lia. unfold slice. cbn [fst snd]. rewrite get_range_front by done. done.
Qed.

(** Reading the relay's answer to the upgrade does not depend on how it was
    delivered: any shorter part of the head asks for more, and from the whole head on
    the verdict is the same whatever frames follow, with the head's length saying
    where they start.  The head is accepted only with status 101 and version 2. *)
Theorem derp_upgrade_stable (head rest : bytes) : is_head head ->
  (forall n, n < len head -> parse_upgrade (ztake n head) = Err Incomplete) /\
  parse_upgrade (head ++ rest) =
    (if starts_with (str "HTTP/1.1 101") head then
      if contains head (str "Derp-Version: 2") || contains head (str "derp-version: 2") then Ok (len head) else Err Unsupported
     else Err Malformed).
Proof.
  intros Hh. split.
  - intros n Hn. unfold parse_upgrade. rewrite (position_cut _ _ (len head - 4) n); [done..|]. change (len CRLF2) with 4. lia.
  - rewrite parse_upgrade_head by done. unfold verdict. by destruct (starts_with _ _), (contains head _), (contains head _).
Qed.

Definition sample_head : bytes :=
  str "HTTP/1.1 101 Switching Protocols" ++ [13; 10] ++ str "Upgrade: DERP" ++ [13; 10] ++ str "Derp-Version: 2" ++ CRLF2.

Lemma derp_upgrade_stable_witness :
  is_head sample_head /\
  (forall n, n < len sample_head -> parse_upgrade (ztake n sample_head) = Err Incomplete) /\
  parse_upgrade (sample_head ++ [1; 0]) =
    (if starts_with (str "HTTP/1.1 101") sample_head then
      if contains sample_head (str "Derp-Version: 2") || contains sample_head (str "derp-version: 2") then Ok (len sample_head) else Err Unsupported
     else Err Malformed) /\
  parse_upgrade (sample_head ++ [1; 0]) = Ok (len sample_head).
Proof.
  assert (H : is_head sample_head) by (vm_compute; reflexivity). split; [exact H|].
  destruct (derp_upgrade_stable sample_head [1; 0] H) as [Ha Hb]. split; [exact Ha|]. split; [exact Hb|]. vm_compute. reflexivity.
Defined.

(** The version is looked for as text anywhere in the head: a relay that states
    version 20, and a head whose only mention is in another header, are accepted; a
    header name in another case is not recognised. *)
Theorem derp_version_is_a_substring :
  let head v := str "HTTP/1.1 101 Switching Protocols" ++ [13; 10] ++ v ++ CRLF2 in
  parse_upgrade (head (str "Derp-Version: 20")) = Ok 54 /\
  parse_upgrade (head (str "X-Note: no Derp-Version: 2 here")) = Ok 69 /\
  parse_upgrade (head (str "DERP-VERSION: 2")) = Err Unsupported.
Proof. vm_compute. done. Qed.

Lemma write_parts_ok parts pre out : 
  write_parts (len pre) parts (pre ++ out) =
    if len (concat parts) <=? len out then Ok (pre ++ concat parts ++ zdrop (len (concat parts)) out, len pre + len (concat parts))
    else Err BufferTooSmall.
Proof.
  revert pre out. induction parts as [|p parts IH]; intros pre out; cbn [write_parts concat].
  - rewrite (proj2 (Z.leb_le _ _)) by llia. rewrite zdrop_0 by done. cbn [app]. do 2 f_equal. llia.
  - destruct (decide (len p <= len out)) as [Hp|Hp].
    + pose proof (len_nonneg p). destruct (split_len (len p) out) as (f & rest & -> & Hf); [lia|].
      rewrite get_range_mid by lia. cbn [ok_or rbind]. unfold slice_copy. cbn [fst snd].
      rewrite copy_at_mid by lia. cbn [or_panic rbind]. rewrite app_assoc, <- len_app, IH.
      rewrite !len_app, <- !app_assoc. nonneg_lens.
      destruct (_ <=? len rest) eqn:Hl; bool_hyps;
        [rewrite (proj2 (Z.leb_le _ _)) by lia|by rewrite (proj2 (Z.leb_gt _ _)) by lia].
      rewrite <- zdrop_zdrop, (zdrop_app_len (len p)) by lia. do 2 f_equal. lia.
    + rewrite (proj2 (get_range_None _ _ _)) by llia. cbn [ok_or rbind].
      by rewrite (proj2 (Z.leb_gt _ _)) by llia.
Qed.

(** The request's text. *)
Definition upgrade_request (host : bytes) : bytes :=
  str "GET /derp HTTP/1.1" ++ [13; 10] ++ str "Host: " ++ host ++ [13; 10] ++
  str "Connection: Upgrade" ++ [13; 10] ++ str "Upgrade: DERP" ++ CRLF2.

Lemma write_parts_app n parts more out :
  write_parts n (parts ++ more) out = let! '(out, n) := write_parts n parts out in write_parts n more out.
Proof.
  revert n out. induction parts as [|p parts IH]; intros n out; cbn [write_parts app rbind]; [done|].
  destruct (get_range _ _ out); cbn [ok_or rbind]; [|done]. destruct (slice_copy _ _ out); cbn [rbind]; auto.
Qed.

(** The upgrade request is the documented text with the host in it, in front of
    the buffer, or the buffer is too small. *)
Lemma derp_request_exact (host out : bytes) :
  write_upgrade_request host out =
    let text := upgrade_request host in
    if len text <=? len out then Ok (text ++ zdrop (len text) out, text) else Err BufferTooSmall.
Proof.
  unfold write_upgrade_request. set (parts := [_; _; _; _; _; _]).
  assert (Hc : concat (parts ++ [CRLF2]) = upgrade_request host).
  { subst parts. unfold upgrade_request, PATH, UPGRADE_TOKEN. cbn [concat app]. by rewrite app_nil_r. }
  pose proof (write_parts_ok (parts ++ [CRLF2]) [] out) as Hw. rewrite Hc, write_parts_app in Hw. cbn [app len] in Hw.
  change (len (@nil Z)) with 0 in Hw. rewrite Z.add_0_l in Hw.
  destruct (write_parts 0 parts out) as [[o n]| | |] eqn:Hp; cbn [rbind write_parts] in *; cbn zeta in *; try (by destruct (_ <=? _); simplify_eq).
  destruct (ok_or (get_range n (n + len CRLF2) o) BufferTooSmall) as [x| | |]; cbn [rbind] in *; try (by destruct (_ <=? _); simplify_eq).
  destruct (slice_copy (n, n + len CRLF2) CRLF2 o) as [o'| | |]; cbn [rbind] in *; try (by destruct (_ <=? _); simplify_eq).
  destruct (_ <=? _); [|done]. 
  assert (Ho : o' = upgrade_request host ++ zdrop (len (upgrade_request host)) out) by congruence.
  assert (Hn : n + len CRLF2 = len (upgrade_request host)) by congruence.
  subst o'. unfold slice. cbn [fst snd]. by rewrite get_range_front.
Qed.

(** ** The handshake *)

Section Handshake.
Context `{C : Curve} `{HC : !CurveOk C} `{B : SalsaBox} `{HB : !SalsaBoxOk B C}.

(** The server's side, as documented: its opening payload, what it reads from the
    client's hello and the payload it answers with. *)
Definition server_greeting (s : Private Node) : bytes := MAGIC ++ as_bytes (public s).

Definition server_reads (s : Private Node) (payload : bytes) : option (NodePublic * bytes) :=
  let? key := get_range 0 32 payload in
  let? nonce := get_range 32 56 payload in
  let? tag := get_range 56 72 payload in
  let? hello := box_open key (to_bytes s) nonce (zdrop 72 payload) tag in
  Some (from_bytes key, hello).

Definition server_answers (s : Private Node) (client : NodePublic) (nonce info : bytes) : option bytes :=
  let? (c, t) := box_seal (as_bytes client) (to_bytes s) nonce info in Some (nonce ++ t ++ c).

Lemma read_server_key_ok (s : Private Node) rest n :
  read_server_key (mkFrame ServerKey n) (server_greeting s ++ rest) = Ok (public s).
Proof.
  unfold read_server_key, server_greeting, KEY_LEN. rewrite <- app_assoc. cbn [kind].
  assert (Hk : len (as_bytes (public s)) = 32) by apply len_public. assert (Hm : len MAGIC = 8) by done.
  rewrite bool_decide_eq_true_2, (proj2 (Z.ltb_ge _ _)) by (done || llia). cbn [negb]. unfold slice. cbn [fst snd].
  rewrite get_range_front by done. cbn [or_panic rbind]. rewrite bytes_eqb_refl. cbn [negb].
  by rewrite get_range_mid by lia.
Qed.

Lemma write_client_info_ok (ours : Private Node) (server : NodePublic) rng out : NONCE_LEN <= len rng ->
  exists c t, box_seal (as_bytes server) (to_bytes ours) (ztake NONCE_LEN rng) CLIENT_INFO = Some (c, t) /\ len c = 13 /\ len t = 16 /\
    write_client_info ours (public ours) server rng out =
      laid (frame_bytes ClientInfo (as_bytes (public ours) ++ ztake NONCE_LEN rng ++ t ++ c)) out.
Proof.
  intros Hr. unfold NONCE_LEN in *.
  destruct (box_seals (as_bytes server) (to_bytes ours) (ztake 24 rng) CLIENT_INFO) as (c & t & Hs & Hc & Ht).
  change (len CLIENT_INFO) with 13 in Hc. exists c, t. split_and!; [done..|]. unfold write_client_info, KEY_LEN, TAG_LEN, NONCE_LEN.
  change (len CLIENT_INFO) with 13. change (len (zeros (32 + 24 + 128)) <? 32 + 24 + (13 + 16)) with false. cbn zeta.
  assert (Hz : len (zeros (32 + 24 + 128)) = 184) by done.
  set (z := zeros (32 + 24 + 128)) in *. clearbody z. name_fields z [32; 24; 16; 13; 99].
  assert (Hk : len (as_bytes (public ours)) = 32) by apply len_public. assert (Hn : len (ztake 24 rng) = 24) by llia.
  assert (Hi : len CLIENT_INFO = 13) by done.
  unfold slice_copy, slice. cbn [fst snd]. write_field 0%nat.
  rewrite (get_range_in 0 24 rng) by lia. change (sub_range 0 24 rng) with (ztake 24 rng). cbn [rbind].
  write_field 1%nat. write_field 3%nat. read_field 3%nat 4%nat. rewrite concat_1, Hs. cbn [ok_or rbind].
  write_field 3%nat. write_field 2%nat. read_field 0%nat 4%nat.
  cbn [concat]. rewrite app_nil_r. apply write_ok. llia.
Qed.

Lemma read_server_info_ok (ours : Private Node) (server : NodePublic) n nonce t c m out :
  len nonce = 24 -> len t = 16 -> len m = len c -> len c <= len out ->
  box_open (as_bytes server) (to_bytes ours) nonce c t = Some m ->
  read_server_info ours server (mkFrame ServerInfo n) (nonce ++ t ++ c) out = (m ++ zdrop (len m) out, Ok (mkClient server)).
Proof.
  intros Hn Ht Hm Ho Hopen. unfold read_server_info, NONCE_LEN, TAG_LEN. cbn [kind].
  rewrite bool_decide_eq_true_2 by done. cbn [negb].
  rewrite (get_range_back 24), (get_range_front 24), (get_range_front 16), (get_range_back 16) by llia.
  replace (len (t ++ c) - 16) with (len c) by llia.
  rewrite (proj2 (Z.ltb_ge _ _)) by llia. rewrite (get_range_in 0 (len c)) by llia. by rewrite Hopen, Hm.
Qed.

(** The server opens the hello [write_client_info] makes. *)
Lemma server_reads_hello (ours srv : Private Node) rng c t : NONCE_LEN <= len rng ->
  box_seal (as_bytes (public srv)) (to_bytes ours) (ztake NONCE_LEN rng) CLIENT_INFO = Some (c, t) -> len c = 13 -> len t = 16 ->
  server_reads srv (as_bytes (public ours) ++ ztake NONCE_LEN rng ++ t ++ c) = Some (public ours, CLIENT_INFO).
Proof.
  intros Hr Hs Hc Ht. unfold NONCE_LEN in *.
  assert (Hk : len (as_bytes (public ours)) = 32) by apply len_public. assert (Hnr : len (ztake 24 rng) = 24) by llia.
  unfold server_reads. rewrite get_range_front, get_range_mid by lia.
  assert (H1 : get_range 56 72 (as_bytes (public ours) ++ ztake 24 rng ++ t ++ c) = Some t)
    by (rewrite app_assoc; apply get_range_mid; llia).
  assert (H2 : zdrop 72 (as_bytes (public ours) ++ ztake 24 rng ++ t ++ c) = c)
    by (rewrite !app_assoc; apply zdrop_app_len; llia).
  rewrite H1, H2. unfold to_bytes in *. cbn [public as_bytes] in *. by rewrite (box_opens _ _ _ _ _ _ Hs).
Qed.

Lemma server_answers_some (srv : Private Node) client nonce info : exists answer, server_answers srv client nonce info = Some answer.
Proof.
  unfold server_answers. destruct (box_seals (as_bytes client) (to_bytes srv) nonce info) as (c & t & -> & _). eauto.
Qed.

(** The client opens the server's answer. *)
Lemma read_answer (ours srv : Private Node) nonce info answer room : len nonce = NONCE_LEN -> len info <= len room ->
  server_answers srv (public ours) nonce info = Some answer ->
  len answer = 40 + len info /\
  read_server_info ours (public srv) (mkFrame ServerInfo (len answer)) answer room =
    (info ++ zdrop (len info) room, Ok (mkClient (public srv))).
Proof.
  intros Hn Hi. unfold server_answers, to_bytes, NONCE_LEN in *. cbn [public as_bytes].
  destruct (box_seals (public_from (secret ours)) (secret_to_bytes (secret srv)) nonce info) as (c & t & Hs & Hc & Ht).
  rewrite Hs. intros [= <-]. split; [llia|]. apply read_server_info_ok; try lia. by apply (box_opens (secret srv) (secret ours)).
Qed.

(** The handshake completes with a server that holds its key: the client learns
    that key from the greeting, the server opens the client's hello under the key the
    client claims and finds the version there, and the client accepts the server's
    sealed answer and remembers the server. *)
Theorem derp_handshake_completes (ours srv : Private Node) (rng nonce info out room : bytes) :
  NONCE_LEN <= len rng -> len nonce = NONCE_LEN -> 90 <= len out -> len info <= len room ->
  read_server_key (mkFrame ServerKey (len (server_greeting srv))) (server_greeting srv) = Ok (public srv) /\
  exists hello payload, write_client_info ours (public ours) (public srv) rng out = Ok (hello ++ zdrop (len hello) out, len hello) /\
    parse hello = Ok (mkFrame ClientInfo (len payload)) /\ zdrop HEADER_LEN hello = payload /\
    server_reads srv payload = Some (public ours, CLIENT_INFO) /\
  exists answer, server_answers srv (public ours) nonce info = Some answer /\
    read_server_info ours (public srv) (mkFrame ServerInfo (len answer)) answer room =
      (info ++ zdrop (len info) room, Ok (mkClient (public srv))).
Proof.
  intros Hr Hn Ho Hi. unfold NONCE_LEN in *.
  split; [rewrite <- (app_nil_r (server_greeting srv)) at 2; apply read_server_key_ok|].
  destruct (write_client_info_ok ours (public srv) rng out Hr) as (c & t & Hs & Hc & Ht & Hw). unfold NONCE_LEN in *.
  set (payload := as_bytes (public ours) ++ ztake 24 rng ++ t ++ c) in *.
  assert (Hk : len (as_bytes (public ours)) = 32) by apply len_public. assert (Hnr : len (ztake 24 rng) = 24) by llia.
  assert (Hp : len payload = 85) by (subst payload; llia).
  exists (frame_bytes ClientInfo payload), payload. split_and!.
  - rewrite Hw. unfold laid. rewrite (proj2 (Z.leb_le _ _)); [done|]. unfold frame_bytes. llia.
  - rewrite <- (app_nil_r (frame_bytes _ _)). apply parse_frame; [done|unfold MAX_FRAME; lia].
  - unfold frame_bytes, HEADER_LEN. rewrite app_assoc. apply zdrop_app_len. llia.
  - by apply server_reads_hello.
  - destruct (server_answers_some srv (public ours) nonce info) as (answer & Ha). exists answer. split; [done|].
    destruct (read_answer ours srv nonce info answer room) as [_ ->]; done.
Qed.

End Handshake.

Import ToyCurve ToyBox.

Lemma derp_handshake_completes_witness :
  let a : Private Node := private_from_bytes (repeat 7 32) in let s : Private Node := private_from_bytes (repeat 9 32) in
  read_server_key (mkFrame ServerKey (len (server_greeting s))) (server_greeting s) = Ok (public s) /\
  exists hello payload, write_client_info a (public a) (public s) (zeros 24) (zeros 512) = Ok (hello ++ zdrop (len hello) (zeros 512), len hello) /\
    parse hello = Ok (mkFrame ClientInfo (len payload)) /\ zdrop HEADER_LEN hello = payload /\
    server_reads s payload = Some (public a, CLIENT_INFO) /\
  exists answer, server_answers s (public a) (repeat 5 24) [1; 2] = Some answer /\
    read_server_info a (public s) (mkFrame ServerInfo (len answer)) answer (zeros 9) =
      ([1; 2] ++ zdrop 2 (zeros 9), Ok (mkClient (public s))).
Proof.
  intros a s. apply (derp_handshake_completes a s (zeros 24) (repeat 5 24) [1; 2] (zeros 512) (zeros 9));
    vm_compute; first [reflexivity | discriminate].
Defined.
