(* ===== verification/HarnessNet.v ===== *)
(** * The harness: a socket

    [harness/src/net.rs]'s stream as its reader sees it.  A stream is the list of
    what each arrival makes available, in order; a read takes from the first one.
    Waiting for readiness is not visible, except that a stream with nothing more to
    say keeps its reader waiting for ever ([Hang]) unless it ended with an error. *)

From S2P Require Import Prelude.

(** ** [net.rs] *)

Module net.

Inductive NetError := Errno (n : Z) | Closed | NotIpv4.

Record TcpStream := mkStream { arrivals : list bytes; ending : option NetError }.

(** [TcpStream::read] into a buffer of [cap] bytes: a system call that reports no
    bytes, as it does for an empty buffer, is taken for the end of the stream. *)
Definition read (cap : Z) (s : TcpStream) : res NetError (bytes * TcpStream) :=
  if cap <=? 0 then Err Closed else
  match arrivals s with
  | [] => match ending s with Some e => Err e | None => Hang end
  | seg :: rest =>
      if len seg =? 0 then Err Closed else
      Ok (ztake cap seg, mkStream (if cap <? len seg then zdrop cap seg :: rest else rest) (ending s))
  end.

(** [read_exact]: [n] bytes of the buffer are still to be filled. *)
Fixpoint read_exact (fuel : nat) (n : Z) (s : TcpStream) : res NetError (bytes * TcpStream) :=
  if n <=? 0 then Ok ([], s) else
  match fuel with
  | O => Hang
  | S fuel =>
      let! '(got, s) := read n s in
      let! '(more, s) := read_exact fuel (n - len got) s in
      Ok (got ++ more, s)
  end.

End net.


(** ** What a reader of a stream gets *)

Import net.

(** An arrival brings at least one byte. *)
Abbreviation cut := (Forall (fun seg : bytes => 0 < len seg)).

Lemma cut_nil segs : cut segs -> len (concat segs) = 0 -> segs = [].
Proof. destruct 1 as [|seg segs Hs _]; [done|]. cbn [concat]. intros. exfalso. llia. Qed.

Lemma read_seg cap seg rest e : 0 < len seg <= cap -> read cap (mkStream (seg :: rest) e) = Ok (seg, mkStream rest e).
Proof.
  intros H. unfold read. cbn [arrivals ending].
  rewrite (proj2 (Z.leb_gt _ _)), (proj2 (Z.eqb_neq _ _)), (proj2 (Z.ltb_ge _ _)), ztake_all by lia. done.
Qed.

(** What is still to come on a stream. *)
Definition coming (s : TcpStream) : bytes := concat (arrivals s).

(** A read takes some bytes off the front of what is coming, at least one. *)
Lemma read_some cap s : cut (arrivals s) -> 0 < cap -> 0 < len (coming s) ->
  exists got s', read cap s = Ok (got, s') /\ 0 < len got <= cap /\ coming s = got ++ coming s' /\
    cut (arrivals s') /\ ending s' = ending s.
Proof.
  unfold coming, read. destruct s as [[|seg segs] e]; cbn [arrivals ending concat]; [intros _ _ H; llia|].
  intros [Hs Hc]%Forall_cons_iff Hcap _. rewrite (proj2 (Z.leb_gt _ _)), (proj2 (Z.eqb_neq _ _)) by lia.
  do 2 eexists. split; [done|]. cbn [arrivals ending]. destruct (cap <? len seg) eqn:E; bool_hyps; cbn [concat].
  - split_and!; [llia|llia|by rewrite app_assoc, ztake_zdrop| |done]. constructor; [llia|done].
  - rewrite ztake_all by lia. by split_and!.
Qed.

(** Reading a number of bytes that is coming gives exactly these. *)
Lemma read_exact_ok fuel n s : cut (arrivals s) -> 0 <= n <= len (coming s) -> n < Z.of_nat fuel ->
  exists s', read_exact fuel n s = Ok (ztake n (coming s), s') /\ coming s' = zdrop n (coming s) /\
    cut (arrivals s') /\ ending s' = ending s.
Proof.
  revert n s; induction fuel as [|fuel IH]; intros n s Hc Hn Hf; [lia|]. cbn [read_exact].
  destruct (n <=? 0) eqn:E; bool_hyps.
  - exists s. rewrite ztake_0, zdrop_0 by lia. by split_and!.
  - destruct (read_some n s Hc) as (got & s1 & -> & Hg & Hcom & Hc1 & He1); [lia|lia|]. cbn [rbind].
    rewrite Hcom, len_app in Hn. destruct (IH (n - len got) s1 Hc1) as (s2 & -> & Hcom2 & Hc2 & He2); [lia|lia|].
    cbn [rbind]. exists s2. rewrite Hcom2, Hcom, He2. split_and!; [|  |done|done].
    + do 3 f_equal. destruct (split_len (n - len got) (coming s1)) as (x & y & -> & Hx); [lia|].
      rewrite ztake_app_len, app_assoc, ztake_app_len by (rewrite ?len_app; lia). done.
    + destruct (split_len (n - len got) (coming s1)) as (x & y & -> & Hx); [lia|].
      by rewrite zdrop_app_len, app_assoc, zdrop_app_len by (rewrite ?len_app; lia).
Qed.

(** [read_exact] of a buffer of [n] bytes. *)
Definition fill_buffer (n : Z) (s : TcpStream) : res NetError (bytes * TcpStream) := read_exact (S (Z.to_nat n)) n s.

Lemma fill_buffer_ok x y s : cut (arrivals s) -> coming s = x ++ y ->
  exists s', fill_buffer (len x) s = Ok (x, s') /\ coming s' = y /\ cut (arrivals s') /\ ending s' = ending s.
Proof.
  intros Hc Hx. unfold fill_buffer.
  destruct (read_exact_ok (S (Z.to_nat (len x))) (len x) s Hc) as (s' & -> & Hs' & Hc' & He); [rewrite Hx; llia|nonneg_lens; lia|].
  exists s'. by rewrite Hs', Hx, ztake_app_len, zdrop_app_len.
Qed.
