(* ===== verification/Json.v ===== *)
(** * Writing JSON

    [crates/ts-control/src/json.rs]: the writer into a fixed buffer that keeps track of
    commas and nesting, one definition per method.  A method that returns the writer
    for chaining is a function on writers. *)

From Stdlib Require Import Strings.String.
From S2P Require Import Prelude Utf8 Keys NetAddr.

Module json.

Inductive JsonError := Overflow | TooDeep.

Definition MAX_DEPTH : Z := 8.

Record Writer := mkWriter {
  out : bytes;
  wlen : Z;
  empty : list bool;
  depth : Z;
  failed : option JsonError;
}.

Definition with_empty (w : Writer) (e : list bool) : Writer := mkWriter (out w) (wlen w) e (depth w) (failed w).
Definition with_depth (w : Writer) (d : Z) : Writer := mkWriter (out w) (wlen w) (empty w) d (failed w).
Definition with_failed (w : Writer) (e : JsonError) : Writer := mkWriter (out w) (wlen w) (empty w) (depth w) (Some e).

Definition new (out : bytes) : Writer := mkWriter out 0 (repeat true (Z.to_nat MAX_DEPTH)) 0 None.

Definition finish (w : Writer) : res JsonError bytes :=
  match failed w with
  | Some e => Err e
  | None => slice (0, wlen w) (out w)
  end.

(** The range is checked before it is written, so the copy does not panic. *)
Definition raw (b : bytes) (w : Writer) : Writer :=
  match failed w with
  | Some _ => w
  | None =>
      let finish := wlen w + len b in
      if len (out w) <? finish then with_failed w Overflow else
      mkWriter (default (out w) (copy_at (wlen w) finish b (out w))) finish (empty w) (depth w) None
  end.

(** [self.empty[self.depth - 1]]: the depth is at most [MAX_DEPTH], the length of the
    array, and here it is not zero. *)
Definition separate (w : Writer) : Writer :=
  if depth w =? 0 then w else
  let i := Z.to_nat (depth w - 1) in
  if default false (empty w !! i) then with_empty w (<[i := false]> (empty w)) else raw [44] w.

Definition push_depth (w : Writer) : Writer :=
  if MAX_DEPTH <=? depth w then with_failed w TooDeep else
  with_depth (with_empty w (<[Z.to_nat (depth w) := true]> (empty w))) (depth w + 1).

Definition pop_depth (w : Writer) : Writer := with_depth w (saturating_sub (depth w) 1).

Definition begin_object (w : Writer) : Writer := push_depth (raw [123] (separate w)).
Definition end_object (w : Writer) : Writer := raw [125] (pop_depth w).
Definition begin_array (w : Writer) : Writer := push_depth (raw [91] (separate w)).
Definition end_array (w : Writer) : Writer := raw [93] (pop_depth w).

(** The escape of a byte, where it needs one; [Some []] is a control character with no
    short form. *)
Definition escape_of (b : Z) : option bytes :=
  if b =? 34 then Some [92; 34] else
  if b =? 92 then Some [92; 92] else
  if b =? 10 then Some [92; 110] else
  if b =? 13 then Some [92; 114] else
  if b =? 9 then Some [92; 116] else
  if between 0 0x1f b then Some [] else None.

(** The loop over the bytes: [rest] is what is left of [value], from index [i], and
    the bytes from [start] on are not written yet. *)
Fixpoint literal_loop (rest value : bytes) (i start : Z) (w : Writer) : Writer * Z :=
  match rest with
  | [] => (w, start)
  | byte :: rest =>
      match escape_of byte with
      | None => literal_loop rest value (i + 1) start w
      | Some e =>
          let w := raw (sub_range start i value) w in
          let w := match e with
                   | [] => raw ([92; 117; 48; 48] ++ keys.lower_hex2 byte) w
                   | _ => raw e w
                   end in
          literal_loop rest value (i + 1) (i + 1) w
      end
  end.

Definition string_literal (value : bytes) (w : Writer) : Writer :=
  let w := raw [34] w in
  let '(w, start) := literal_loop value value 0 0 w in
  raw [34] (raw (zdrop start value) w).

Definition key (name : bytes) (w : Writer) : Writer :=
  let w := raw [58] (string_literal name (separate w)) in
  if 0 <? depth w then with_empty w (<[Z.to_nat (depth w - 1) := true]> (empty w)) else w.

Definition write_str (value : bytes) (w : Writer) : Writer := string_literal value (separate w).

(** [write!(buffer, "{value}")]: the decimal digits; twenty are enough for 64 bits. *)
Fixpoint decimal (fuel : nat) (n : Z) : bytes :=
  match fuel with
  | O => []
  | S fuel => (if n <? 10 then [] else decimal fuel (n / 10)) ++ [48 + n mod 10]
  end.

Definition write_u64 (value : Z) (w : Writer) : Writer := raw (decimal 20 value) (separate w).
Definition write_bool (value : bool) (w : Writer) : Writer := raw (if value then str "true" else str "false") (separate w).
Definition null (w : Writer) : Writer := raw (str "null") (separate w).
Definition raw_value (value : bytes) (w : Writer) : Writer := raw value (separate w).

Definition field_str (name value : bytes) (w : Writer) : Writer := write_str value (key name w).
Definition field_u64 (name : bytes) (value : Z) (w : Writer) : Writer := write_u64 value (key name w).
Definition field_bool (name : bytes) (value : bool) (w : Writer) : Writer := write_bool value (key name w).

End json.
