(* ===== verification/HarnessH2.v ===== *)
(** * The harness: HTTP/2 over the control channel

    [harness/src/h2.rs]: HTTP/2 frames inside Noise records inside a TCP stream,
    three framings with nothing in common.  The client keeps a buffer of decrypted
    bytes, tops it up a record at a time and hands out whole frames.

    A method that fails leaves a client its callers drop, so a method is a function
    to the client after it, or its error.  What was written to the stream is kept in
    order; writing waits for the peer and does not otherwise show.  At the end stands
    the error type of [control.rs]. *)

From Stdlib Require Import Strings.String.
From S2P Require Import Prelude Timers Messages Crypto Noise Utf8 H2Frame HpackInt HpackTable Huffman Hpack H2Conn NetAddr HarnessNet Control.
Import net.

Module harness_h2.

Definition BUFFER : Z := 2 * (frame.HEADER_LEN + frame.DEFAULT_MAX_FRAME).
Definition OUT_BUFFER : Z := 4096.

Inductive H2Error : Type :=
| Net (e : NetError)
| Noise (e : control.Error)
| Http2Error (e : H2Frame.H2Error)
| FrameTooLarge.

Record Http2 := mkHttp2 {
  stream : TcpStream;
  sent : bytes;
  session : record.Session;
  connection : conn.Connection;
  buffer : bytes;
  filled : Z;
  status : Z;
}.

Definition with_sent (c : Http2) (session : record.Session) (b : bytes) : Http2 :=
  mkHttp2 (stream c) (sent c ++ b) session (connection c) (buffer c) (filled c) (status c).
Definition with_buffer (c : Http2) (buffer : bytes) (filled : Z) : Http2 :=
  mkHttp2 (stream c) (sent c) (session c) (connection c) buffer filled (status c).
Definition with_connection (c : Http2) (connection : conn.Connection) (status : Z) : Http2 :=
  mkHttp2 (stream c) (sent c) (session c) connection (buffer c) (filled c) status.

(** Every turn of a loop below takes a byte from the stream or the buffer. *)
Definition patience (c : Http2) : nat := S (Z.to_nat (filled c) + length (coming (stream c))).

Section Client.
Context `{P : Primitives}.
Context (USIZE_BITS : Z).

(** The loop of [send]: what is left to seal, the records so far. *)
Fixpoint send_loop (fuel : nat) (s : record.Session) (plaintext : bytes) : res H2Error (record.Session * bytes) :=
  if len plaintext =? 0 then Ok (s, []) else
  match fuel with
  | O => Hang
  | S fuel =>
      let take := Z.min (len plaintext) record.MAX_PLAINTEXT in
      let! chunk := slice (0, take) plaintext in
      let (s, r) := record.seal s chunk (zeros record.MAX_MESSAGE) in
      let! record := map_err Noise r in
      let! rest := slice (take, len plaintext) plaintext in
      let! '(s, more) := send_loop fuel s rest in
      Ok (s, record ++ more)
  end.

Definition send (c : Http2) (plaintext : bytes) : res H2Error Http2 :=
  let! '(s, records) := send_loop (S (length plaintext)) (session c) plaintext in
  Ok (with_sent c s records).

(** [start] *)
Definition start (stream : TcpStream) (session : record.Session) (pushback : bytes) : res H2Error Http2 :=
  let! buffer := slice_copy (0, len pushback) pushback (zeros BUFFER) in
  let c := mkHttp2 stream [] session conn.new buffer (len pushback) 0 in
  let! '(out, n) := map_err Http2Error (conn.start (zeros 256)) in
  let! out := slice (0, n) out in
  send c out.

Definition send_request (c : Http2) (method path authority request_body : bytes) : res H2Error (Http2 * Z) :=
  let '(connection, r) := conn.request (connection c) method path authority (str "http")
    [(str "content-type", str "application/json")] request_body (zeros OUT_BUFFER) in
  let! '(i, out, n) := map_err Http2Error r in
  let! out := slice (0, n) out in
  let! c := send (with_connection c connection (status c)) out in
  Ok (c, i).

(** Decrypt one record onto the end of the buffer. *)
Definition fill (c : Http2) : res H2Error Http2 :=
  let! '(header, s) := map_err Net (fill_buffer record.HEADER_LEN (stream c)) in
  let! n := map_err Noise (record.ciphertext_len header) in
  let! _ := slice (0, n) (zeros record.MAX_MESSAGE) in
  let! '(ciphertext, s) := map_err Net (fill_buffer n s) in
  let! room := slice (filled c, len (buffer c)) (buffer c) in
  let (session, r) := record.open (session c) ciphertext room in
  let! plain := map_err Noise r in
  let! buffer := slice_copy (filled c, filled c + len plain) plain (buffer c) in
  Ok (mkHttp2 s (sent c) session (connection c) buffer (filled c + len plain) (status c)).

(** Read until a whole frame is buffered; its total length. *)
Fixpoint next_frame (fuel : nat) (c : Http2) : res H2Error (Http2 * Z) :=
  match fuel with
  | O => Hang
  | S fuel =>
      let! total :=
        (if frame.HEADER_LEN <=? filled c then
           let! h := map_err Http2Error (frame.parse (buffer c)) in
           let total := frame.HEADER_LEN + frame.fh_length h in
           if len (buffer c) <? total then Err FrameTooLarge else
           Ok (if total <=? filled c then Some total else None)
         else Ok None) in
      match total with
      | Some total => Ok (c, total)
      | None => let! c := fill c in next_frame fuel c
      end
  end.

(** Drop a consumed frame: [buffer.copy_within(n..filled, 0)]. *)
Definition consume (c : Http2) (n : Z) : res H2Error Http2 :=
  let! rest := slice (n, filled c) (buffer c) in
  let! buffer := slice_copy (0, len rest) rest (buffer c) in
  Ok (with_buffer c buffer (filled c - n)).

(** The closure given to [recv]: the last [:status] decoded. *)
Definition read_status (old : Z) (headers : list (bytes * bytes)) : Z :=
  fold_left (fun status '(name, value) =>
    if bytes_eqb name (str ":status") then default 0 (parse_uint U16_MAX value) else status) headers old.

(** What an event means for the response on stream [s]: the data to hand out,
    whether the stream has ended, or the error. *)
Definition on_event (s room : Z) (ev : conn.Event) : bytes * bool * option H2Error :=
  match ev with
  | conn.EHeaders s' e => if s' =? s then ([], e, None) else ([], false, None)
  | conn.EData s' data e =>
      if s' =? s then (if room <? len data then ([], e, Some FrameTooLarge) else (data, e, None))
      else ([], false, None)
  | conn.EReset s' _ => if s' =? s then ([], false, Some (Http2Error StreamReset)) else ([], false, None)
  | conn.EGoAway _ => ([], false, Some (Http2Error GoAway))
  | conn.Nothing => ([], false, None)
  end.

(** The next piece of a response body, written to the front of a slice of [room]
    bytes, and whether the stream has ended. *)
Fixpoint read_chunk (fuel : nat) (c : Http2) (s room : Z) : res H2Error (Http2 * bytes * bool) :=
  match fuel with
  | O => Hang
  | S fuel =>
      let! '(c, n) := next_frame (patience c) c in
      let! frame := slice (0, n) (buffer c) in
      let '(connection, headers, r) := conn.recv USIZE_BITS (connection c) frame (zeros 256) in
      let! '(ev, replies, reply_len) := map_err Http2Error r in
      let c := with_connection c connection (read_status (status c) headers) in
      let '(written, finished, failed) := on_event s room ev in
      let! c := consume c n in
      let! c := (if 0 <? reply_len then let! reply := slice (0, reply_len) replies in send c reply else Ok c) in
      match failed with
      | Some e => Err e
      | None =>
          if (0 <? len written) || finished then Ok (c, written, finished) else read_chunk fuel c s room
      end
  end.

(** The loop of [request]: the body so far fills the front of [body_out]. *)
Fixpoint read_body (fuel : nat) (c : Http2) (s : Z) (body body_out : bytes) : res H2Error (Http2 * Z * bytes) :=
  match fuel with
  | O => Hang
  | S fuel =>
      let! room := slice (len body, len body_out) body_out in
      let! '(c, data, finished) := read_chunk (patience c) c s (len room) in
      let body := body ++ data in
      if finished then Ok (c, status c, body) else read_body fuel c s body body_out
  end.

Definition request (c : Http2) (method path authority request_body body_out : bytes)
  : res H2Error (Http2 * Z * bytes) :=
  let! '(c, s) := send_request c method path authority request_body in
  read_body (patience c) c s [] body_out.

End Client.
End harness_h2.

(** ** What can go wrong

    [ControlError] of [control.rs]: the errors of every part, and four of its own. *)

From S2P Require Import Keys KeyStore StoreFile Netmap Json Disco Derp.

Module control_error.

Inductive ControlError :=
| Net (e : net.NetError)
| Noise (e : control.Error)
| Store (e : file_store.StoreError)
| Identity (e : store.StoreError)
| Keys (e : encoding.DecodeError)
| Netmap (e : netmap.Error)
| Disco (e : disco.Error)
| Derp (e : derp.Error)
| Http2 (e : harness_h2.H2Error)
| Json (e : json.JsonError)
| Rejected
| NoServerKey
| UnexpectedStatus (status : Z)
| ResponseTooLong.

End control_error.
