(* ===== verification/JsonFacts.v ===== *)
(** * Writing JSON: the writer against a tree

    A document is a tree; [write_doc] drives the writer over it and [render] is its text.
    The writer produces the text of the tree or fails, and the text is read back by
    the project's own scanner as the tokens of the tree. *)

From Stdlib Require Import Strings.String.
From S2P Require Import Prelude Utf8 Keys KeysFacts NetAddr Netmap NetmapScan NetmapGrammar Json.
Import json.

(** ** Documents *)

#[local] Unset Elimination Schemes.
Inductive doc :=
| DStr (s : bytes) | DNum (n : Z) | DBool (b : bool) | DNull
| DArr (l : list doc) | DObj (l : list (bytes * doc)).
#[local] Set Elimination Schemes.

Section DocInd.
Context (P : doc -> Prop).
Context (HS : forall s, P (DStr s)) (HN : forall n, P (DNum n)) (HB : forall b, P (DBool b)) (H0 : P DNull).
Context (HA : forall l, Forall P l -> P (DArr l)) (HO : forall l, Forall (fun m => P m.2) l -> P (DObj l)).

Fixpoint doc_ind (d : doc) : P d :=
  match d with
  | DStr s => HS s
  | DNum n => HN n
  | DBool b => HB b
  | DNull => H0
  | DArr l => HA l ((fix go l := match l return Forall P l with [] => Forall_nil_2 _ | d :: l => Forall_cons_2 _ _ _ (doc_ind d) (go l) end) l)
  | DObj l => HO l ((fix go l := match l return Forall (fun m => P m.2) l with
                                 | [] => Forall_nil_2 _ | m :: l => Forall_cons_2 _ _ _ (doc_ind m.2) (go l) end) l)
  end.
End DocInd.

Fixpoint nesting (d : doc) : Z :=
  match d with
  | DArr l => 1 + foldr Z.max 0 (map nesting l)
  | DObj l => 1 + foldr Z.max 0 (map (fun m => nesting m.2) l)
  | _ => 0
  end.

(** The bytes of a string, escaped. *)
Definition escape1 (b : Z) : bytes :=
  match escape_of b with None => [b] | Some [] => [92; 117; 48; 48] ++ keys.lower_hex2 b | Some e => e end.

Definition quoted (s : bytes) : bytes := [34] ++ concat (map escape1 s) ++ [34].

Fixpoint commas (l : list bytes) : bytes :=
  match l with [] => [] | x :: l => x ++ match l with [] => [] | _ => 44 :: commas l end end.

Fixpoint render (d : doc) : bytes :=
  match d with
  | DStr s => quoted s
  | DNum n => decimal 20 n
  | DBool b => if b then str "true" else str "false"
  | DNull => str "null"
  | DArr l => [91] ++ commas (map render l) ++ [93]
  | DObj l => [123] ++ commas (map (fun m => quoted m.1 ++ [58] ++ render m.2) l) ++ [125]
  end.

(** The calls that write a tree. *)
Fixpoint write_doc (d : doc) (w : Writer) : Writer :=
  match d with
  | DStr s => write_str s w
  | DNum n => write_u64 n w
  | DBool b => write_bool b w
  | DNull => null w
  | DArr l => end_array (foldl (fun w d => write_doc d w) (begin_array w) l)
  | DObj l => end_object (foldl (fun w m => write_doc m.2 (key m.1 w)) (begin_object w) l)
  end.

(** ** The writer's state as the text written so far *)

Record holds (buf : bytes) (w : Writer) (text : bytes) (k : list bool) : Prop := {
  h_out : len (out w) = len buf;
  h_depth : depth w = len k;
  h_empty : len (empty w) = MAX_DEPTH /\ ztake (depth w) (empty w) = k;
  h_text : match failed w with
    | None => wlen w = len text /\ len text <= len buf /\ out w = text ++ zdrop (len text) buf
    | Some Overflow => len buf < len text
    | Some TooDeep => False
    end;
}.

Lemma holds_new buf : holds buf (new buf) [] [].
Proof. split; cbn; [done|done|done|]. split_and!; [done|llia|done]. Qed.

Lemma holds_finish buf w text k : holds buf w text k ->
  finish w = if len text <=? len buf then Ok text else Err Overflow.
Proof.
  intros [_ _ _ Ht]. unfold finish. destruct (failed w) as [[]|].
  - by rewrite (proj2 (Z.leb_gt _ _)).
  - done.
  - destruct Ht as (Hl & Hle & ->). rewrite (proj2 (Z.leb_le _ _)) by done. unfold slice. cbn [fst snd].
    by rewrite get_range_front.
Qed.

Lemma holds_raw buf w text k b : holds buf w text k -> holds buf (raw b w) (text ++ b) k.
Proof.
  intros [Ho Hd He Ht]. unfold raw. destruct (failed w) as [[]|] eqn:Hf.
  - split; try done. rewrite Hf. llia.
  - done.
  - destruct Ht as (Hl & Hle & Hout). rewrite Ho, Hl. destruct (_ <? _) eqn:Hfit; bool_hyps.
    + split; try done. cbn. llia.
    + destruct (split_len (len b) (zdrop (len text) buf)) as (f & r & Hz & Hfl); [llia|].
      rewrite Hout, Hz, copy_at_mid by lia. cbn [from_option id].
      assert (Hr : r = zdrop (len (text ++ b)) buf).
      { rewrite len_app, <- (zdrop_zdrop (len b)), Hz by apply len_nonneg. by rewrite zdrop_app_len. }
      split; cbn [out wlen empty depth failed]; [| |done|].
      * apply (f_equal len) in Hz. llia.
      * done.
      * rewrite <- Hr, len_app, <- app_assoc. split_and!; [done|lia|done].
Qed.

(** The comma a position needs, and the position afterwards. *)
Definition comma (k : list bool) : bytes := match last k with Some false => [44] | _ => [] end.
Definition after_item (k : list bool) : list bool := match k with [] => [] | _ => ztake (len k - 1) k ++ [false] end.

Lemma after_item_snoc k e : after_item (k ++ [e]) = k ++ [false].
Proof. unfold after_item. destruct (k ++ [e]) eqn:Hk; [by destruct k|]. rewrite <- Hk. by rewrite ztake_app_len by llia. Qed.

Lemma comma_snoc k e : comma (k ++ [e]) = if e then [] else [44].
Proof. unfold comma. rewrite last_snoc. by destruct e. Qed.

Lemma holds_separate buf w text k : holds buf w text k -> holds buf (separate w) (text ++ comma k) (after_item k).
Proof.
  intros H. pose proof H as [Ho Hd [Hl He] Ht]. unfold separate.
  destruct k as [|e k _] using rev_ind.
  - cbn in Hd. rewrite Hd. cbn. by rewrite app_nil_r.
  - rewrite (proj2 (Z.eqb_neq _ _)) by llia. rewrite after_item_snoc, comma_snoc. rewrite len_app, len_cons in Hd.
    change (len (@nil bool)) with 0 in Hd.
    assert (Hsplit : empty w = k ++ e :: zdrop (len k + 1) (empty w)).
    { rewrite <- (ztake_zdrop (depth w) (empty w)), He, <- app_assoc at 1. cbn [app]. do 3 f_equal. lia. }
    replace (Z.to_nat (depth w - 1)) with (length k) by (unfold len in *; lia).
    rewrite Hsplit, list_lookup_middle by done. cbn [from_option id]. destruct e.
    + rewrite app_nil_r. split; cbn [out wlen empty depth failed with_empty]; [done|llia| |done].
      rewrite insert_app_r_alt, Nat.sub_diag by done. cbn [insert list_insert]. split.
      * rewrite Hsplit in Hl. llia.
      * change (k ++ false :: zdrop (len k + 1) (empty w)) with (k ++ [false] ++ zdrop (len k + 1) (empty w)).
        rewrite app_assoc. apply ztake_app_len. llia.
    + by apply holds_raw.
Qed.

Lemma holds_push buf w text k : len k < MAX_DEPTH -> holds buf w text k -> holds buf (push_depth w) text (k ++ [true]).
Proof.
  intros Hk [Ho Hd [Hl He] Ht]. unfold push_depth. rewrite (proj2 (Z.leb_gt _ _)) by lia.
  split; cbn [out wlen empty depth failed with_empty with_depth]; [done|llia| |done].
  rewrite len_insert. split; [done|].
  rewrite <- (ztake_zdrop (depth w) (empty w)), He.
  rewrite insert_app_r_alt by (unfold len in *; lia).
  replace (Z.to_nat (depth w) - length k)%nat with 0%nat by (unfold len in *; lia).
  destruct (zdrop (depth w) (empty w)) as [|x r] eqn:Hz; [apply (f_equal len) in Hz; exfalso; llia|].
  cbn [insert list_insert]. change (k ++ true :: r) with (k ++ [true] ++ r). rewrite app_assoc. apply ztake_app_len. llia.
Qed.

Lemma holds_pop buf w text k e : holds buf w text (k ++ [e]) -> holds buf (pop_depth w) text k.
Proof.
  intros [Ho Hd [Hl He] Ht]. unfold pop_depth, saturating_sub. rewrite len_app in Hd. change (len [e]) with 1 in Hd.
  pose proof (len_nonneg k). split; cbn [out wlen empty depth failed with_depth]; [done|lia| |done]. split; [done|].
  apply (f_equal (ztake (len k))) in He. rewrite ztake_app_len in He by done. rewrite <- He, ztake_ztake. f_equal. lia.
Qed.

(** The member's name leaves its object expecting a value, with no comma. *)
Lemma holds_reset buf w text k : k <> [] -> holds buf w text (after_item k) ->
  holds buf (if 0 <? depth w then with_empty w (<[Z.to_nat (depth w - 1) := true]> (empty w)) else w) text (ztake (len k - 1) k ++ [true]).
Proof.
  intros Hk [Ho Hd [Hl He] Ht]. destruct k as [|e k _] using rev_ind; [done|]. clear Hk.
  rewrite after_item_snoc in *. rewrite ztake_app_len by llia. rewrite len_app in Hd. change (len [false]) with 1 in Hd.
  pose proof (len_nonneg k). rewrite (proj2 (Z.ltb_lt _ _)) by lia.
  split; cbn [out wlen empty depth failed with_empty]; [done|llia| |done]. rewrite len_insert. split; [done|].
  rewrite <- (ztake_zdrop (depth w) (empty w)), He, <- app_assoc.
  replace (Z.to_nat (depth w - 1)) with (length k) by (unfold len in *; lia).
  rewrite insert_app_r_alt, Nat.sub_diag by done. cbn [insert list_insert app].
  change (k ++ true :: ?r) with (k ++ [true] ++ r). rewrite app_assoc. apply ztake_app_len. llia.
Qed.

(** ** Strings *)

Lemma escape1_none b : escape_of b = None -> escape1 b = [b].
Proof. unfold escape1. by intros ->. Qed.

Lemma holds_literal_loop buf k rest : forall value i start w text,
  0 <= start <= i -> zdrop i value = rest -> i + len rest = len value ->
  Forall (fun b => escape_of b = None) (sub_range start i value) -> holds buf w text k ->
  exists text', holds buf (literal_loop rest value i start w).1 text' k /\
    text' ++ zdrop (literal_loop rest value i start w).2 value = text ++ sub_range start i value ++ concat (map escape1 rest).
Proof.
  induction rest as [|b rest IH]; intros value i start w text Hs Hr Hl Hp H; cbn [literal_loop map concat].
  - exists text. split; [done|]. cbn [fst snd]. rewrite app_nil_r. f_equal. unfold sub_range.
    rewrite ztake_all; [done|]. llia.
  - assert (Hi : zdrop (i + 1) value = rest).
    { rewrite <- zdrop_zdrop, Hr by lia. done. }
    assert (Hgrow : sub_range start (i + 1) value = sub_range start i value ++ [b]).
    { unfold sub_range. rewrite <- (ztake_zdrop (i - start) (zdrop start value)) at 1.
      rewrite zdrop_zdrop by lia. replace (start + (i - start)) with i by lia. rewrite Hr.
      change (b :: rest) with ([b] ++ rest). rewrite app_assoc. apply ztake_app_len. llia. }
    rewrite len_cons in Hl. destruct (escape_of b) as [e|] eqn:He.
    + set (w' := match e with [] => _ | _ => _ end).
      assert (Hw : holds buf w' (text ++ sub_range start i value ++ escape1 b) k).
      { subst w'. unfold escape1. rewrite He. rewrite app_assoc. destruct e; apply holds_raw; by apply holds_raw. }
      destruct (IH value (i + 1) (i + 1) w' (text ++ sub_range start i value ++ escape1 b) ltac:(lia) Hi ltac:(lia)) as (text' & Ht & Heq); [|exact Hw|].
      { unfold sub_range. rewrite ztake_0 by lia. constructor. }
      exists text'. split; [done|]. rewrite Heq. unfold sub_range at 2. rewrite ztake_0 by lia. change (?x ++ [] ++ ?y) with (x ++ y). by rewrite <- !app_assoc.
    + destruct (IH value (i + 1) start w text ltac:(lia) Hi ltac:(lia)) as (text' & Ht & Heq); [|exact H|].
      { rewrite Hgrow. apply Forall_app. by repeat constructor. }
      exists text'. split; [done|]. rewrite Heq, Hgrow, (escape1_none _ He). by rewrite <- !app_assoc.
Qed.

Lemma holds_string buf w text k s : holds buf w text k -> holds buf (string_literal s w) (text ++ quoted s) k.
Proof.
  intros H. unfold string_literal, quoted. apply (holds_raw _ _ _ _ [34]) in H.
  destruct (holds_literal_loop buf k s s 0 0 _ _ ltac:(lia) eq_refl ltac:(lia) ltac:(constructor) H) as (text' & Ht & Heq).
  destruct (literal_loop s s 0 0 (raw [34] w)) as [w' start]. cbn [fst snd] in *.
  rewrite app_assoc, (app_assoc (text ++ [34])). apply holds_raw.
  change (sub_range 0 0 s) with (@nil Z) in Heq. cbn [app] in Heq. rewrite <- Heq. by apply holds_raw.
Qed.

(** ** Trees *)

Lemma len_after_item k : len (after_item k) = len k.
Proof. unfold after_item. destruct k; [done|]. llia. Qed.

Lemma holds_key buf w text k e name : holds buf w text (k ++ [e]) ->
  holds buf (key name w) (text ++ comma (k ++ [e]) ++ quoted name ++ [58]) (k ++ [true]).
Proof.
  intros H. apply holds_separate in H. apply (holds_string _ _ _ _ name) in H. apply (holds_raw _ _ _ _ [58]) in H.
  apply holds_reset in H; [|by destruct k]. rewrite ztake_app_len in H by llia. by rewrite <- !app_assoc in H.
Qed.

(** The text of a list of items after one more or fewer. *)
Definition lead (e : bool) (l : list bytes) : bytes :=
  match l with [] => [] | _ => (if e then [] else [44]) ++ commas l end.

Lemma holds_items {A} buf k (f : A -> Writer -> Writer) (r : A -> bytes) l :
  Forall (fun x => forall w text e, holds buf w text (k ++ [e]) -> holds buf (f x w) (text ++ comma (k ++ [e]) ++ r x) (k ++ [false])) l ->
  forall w text e, holds buf w text (k ++ [e]) ->
  exists e', holds buf (foldl (fun w x => f x w) w l) (text ++ lead e (map r l)) (k ++ [e']).
Proof.
  induction 1 as [|x l Hx _ IH]; intros w text e H; cbn [foldl map lead].
  - exists e. by rewrite app_nil_r.
  - apply Hx in H. destruct (IH _ _ _ H) as (e' & H'). exists e'.
    rewrite comma_snoc in H'. cbn [commas]. destruct l as [|y l]; cbn [map lead] in *; rewrite <- !app_assoc in H'; done.
Qed.

Lemma holds_nested buf w text k o c (body : Writer -> Writer) inner :
  len k < MAX_DEPTH -> holds buf w text k ->
  (forall w text, holds buf w text (after_item k ++ [true]) -> exists e, holds buf (body w) (text ++ inner) (after_item k ++ [e])) ->
  holds buf (raw [c] (pop_depth (body (push_depth (raw [o] (separate w)))))) (text ++ comma k ++ [o] ++ inner ++ [c]) (after_item k).
Proof.
  intros Hk H Hb. apply holds_separate in H. apply (holds_raw _ _ _ _ [o]) in H.
  apply holds_push in H; [|by rewrite len_after_item]. destruct (Hb _ _ H) as (e & H').
  apply holds_pop in H'. apply (holds_raw _ _ _ _ [c]) in H'. by rewrite <- !app_assoc in H'.
Qed.

Lemma foldr_max_nonneg l : 0 <= foldr Z.max 0 l.
Proof. induction l; simpl; lia. Qed.

Lemma nesting_member {A} (f : A -> Z) l x : x ∈ l -> f x <= foldr Z.max 0 (map f l).
Proof. induction 1; simpl; lia. Qed.

Lemma write_doc_holds d : forall buf w text k, len k + nesting d <= MAX_DEPTH -> holds buf w text k ->
  holds buf (write_doc d w) (text ++ comma k ++ render d) (after_item k).
Proof.
  induction d as [s|n|b| |l IH|l IH] using doc_ind; intros buf w text k Hn H; cbn [write_doc render nesting] in *;
    rewrite ?app_assoc; try (apply holds_raw; by apply holds_separate); try (apply holds_string; by apply holds_separate).
  - rewrite <- !app_assoc. pose proof (foldr_max_nonneg (map nesting l)).
    apply (holds_nested buf w text k 91 93 (fun w => foldl (fun w d => write_doc d w) w l)); [lia|done|].
    intros w' text' H'. destruct (holds_items buf (after_item k) write_doc render l) with (w := w') (text := text') (e := true) as (e' & He); [|done|].
    + rewrite Forall_forall in IH. apply Forall_forall. intros d Hd w1 t1 e1 H1. rewrite <- (after_item_snoc _ e1).
      apply IH; [done| |done]. pose proof (nesting_member nesting l d Hd). rewrite len_app, len_after_item. change (len [e1]) with 1. lia.
    + exists e'. by destruct l.
  - rewrite <- !app_assoc. pose proof (foldr_max_nonneg (map (fun m => nesting m.2) l)).
    apply (holds_nested buf w text k 123 125 (fun w => foldl (fun w m => write_doc m.2 (key m.1 w)) w l)); [lia|done|].
    intros w' text' H'.
    destruct (holds_items buf (after_item k) (fun m w => write_doc m.2 (key m.1 w)) (fun m => quoted m.1 ++ [58] ++ render m.2) l)
      with (w := w') (text := text') (e := true) as (e' & He); [|done|].
    + rewrite Forall_forall in IH. apply Forall_forall. intros m Hm w1 t1 e1 H1. rewrite <- (after_item_snoc _ true).
      apply (holds_key _ _ _ _ _ m.1) in H1.
      apply (IH m Hm) in H1; [by rewrite (comma_snoc _ true), <- !app_assoc in H1|].
      pose proof (nesting_member (fun m => nesting m.2) l m Hm). rewrite len_app, len_after_item. change (len [true]) with 1. cbn beta in *. lia.
    + exists e'. by destruct l.
Qed.

(** ** The text as JSON *)

Import netmap scanner.

Definition text_ok (s : bytes) : Prop := bytes_ok s /\ len s <= MAX_STRING /\ utf8_valid s = true.

(** What the scanner has room for. *)
Fixpoint readable (d : doc) : Prop :=
  match d with
  | DStr s => text_ok s
  | DNum n => 0 <= n < 2 ^ 63
  | DBool _ | DNull => True
  | DArr l => foldr and True (map readable l)
  | DObj l => foldr and True (map (fun m => text_ok m.1 /\ readable m.2) l)
  end.

Fixpoint tokens (d : doc) : list Token :=
  match d with
  | DStr s => [Str s]
  | DNum n => [Int n]
  | DBool b => [Bool b]
  | DNull => [Null]
  | DArr l => StartArray :: concat (map tokens l) ++ [EndArray]
  | DObj l => StartObject :: concat (map (fun m => Key m.1 :: tokens m.2) l) ++ [EndObject]
  end.

Lemma control_escape b : 0 <= b < 32 ->
  hex4 (48 :: 48 :: keys.lower_hex2 b) b /\ between 0xd800 0xdfff b = false /\ encode_utf8 b = Some [b].
Proof.
  intros Hb.
  assert (Hc : match keys.lower_hex2 b with
    | [x; y] => bool_decide (hex_digit x = Some (b / 16)) && bool_decide (hex_digit y = Some (b mod 16)) | _ => false end
    && negb (between 0xd800 0xdfff b) && bool_decide (encode_utf8 b = Some [b]) = true).
  { revert b Hb. apply check_below. vm_compute. reflexivity. }
  destruct (keys.lower_hex2 b) as [|x [|y [|]]]; try done. bool_hyps.
  repeat match goal with H : bool_decide _ = true |- _ => apply bool_decide_eq_true in H end.
  split_and!; [|done|done]. exists 48, 48, x, y, 0, 0, (b / 16), (b mod 16).
  rewrite !GrammarFacts.hex1_digit. split_and!; try done.
  rewrite (Z.div_mod b 16) at 1 by lia. lia.
Qed.

(** A byte the writer spells as a one-letter escape. *)
Ltac escaped := apply ch_escape; [by repeat constructor|done].

Lemma chars_escaped s : bytes_ok s -> chars (concat (map escape1 s)) s.
Proof.
  induction 1 as [|b s Hb _ IH]; cbn [map concat]; [constructor|]. unfold escape1, escape_of.
  destruct (b =? 34) eqn:E1; [apply Z.eqb_eq in E1 as ->; escaped|].
  destruct (b =? 92) eqn:E2; [apply Z.eqb_eq in E2 as ->; escaped|].
  destruct (b =? 10) eqn:E3; [apply Z.eqb_eq in E3 as ->; escaped|].
  destruct (b =? 13) eqn:E4; [apply Z.eqb_eq in E4 as ->; escaped|].
  destruct (b =? 9) eqn:E5; [apply Z.eqb_eq in E5 as ->; escaped|].
  destruct (between 0 31 b) eqn:E6; unfold between in E6.
  - apply andb_true_iff in E6 as [E6 E7]. bool_hyps. destruct (control_escape b) as (Hh & Hbt & He); [lia|].
    apply (ch_unicode (48 :: 48 :: keys.lower_hex2 b) b [b]); done.
  - apply ch_raw; [|bool_hyps; lia..|done].
    unfold is_uint in Hb. apply andb_false_iff in E6. destruct E6; bool_hyps; lia.
Qed.

Lemma quoted_text s : text_ok s -> text (concat (map escape1 s)) s.
Proof. intros (H1 & H2 & H3). split; [by apply chars_escaped|done]. Qed.

Lemma digits_value_app acc l k : digits_value acc (l ++ k) = let? v := digits_value acc l in digits_value v k.
Proof. revert acc; induction l as [|b l IH]; intros acc; cbn [digits_value app]; [done|]. by destruct (is_ascii_digit b). Qed.

Lemma decimal_digit n : is_ascii_digit (48 + n mod 10) = true.
Proof.
  pose proof (Z.mod_pos_bound n 10). unfold is_ascii_digit, between.
  by rewrite !(proj2 (Z.leb_le _ _)) by lia.
Qed.

Lemma decimal_value f n : 0 <= n < 10 ^ Z.of_nat (S f) -> digits_value 0 (decimal (S f) n) = Some n.
Proof.
  revert n; induction f as [|f IH]; intros n Hn.
  - cbn [decimal]. rewrite (proj2 (Z.ltb_lt _ _)) by lia. cbn [app digits_value]. rewrite decimal_digit.
    rewrite Z.mod_small by lia. f_equal. lia.
  - cbn [decimal]. change (digits_value 0 ((if n <? 10 then [] else decimal (S f) (n / 10)) ++ [48 + n mod 10]) = Some n).
    rewrite digits_value_app. destruct (n <? 10) eqn:H; bool_hyps; cbn [digits_value].
    + rewrite decimal_digit, Z.mod_small by lia. f_equal. lia.
    + rewrite IH.
      * rewrite decimal_digit. f_equal. rewrite (Z.div_mod n 10) at 3 by lia. lia.
      * rewrite Nat2Z.inj_succ, Z.pow_succ_r in Hn by lia. split; [apply Z.div_pos; lia|apply Z.div_lt_upper_bound; lia].
Qed.

Lemma decimal_digits f n : Forall (fun b => is_ascii_digit b = true) (decimal f n) /\ len (decimal f n) <= Z.of_nat f.
Proof.
  revert n; induction f as [|f IH]; intros n; cbn [decimal]; [split; [constructor|done]|]. destruct (IH (n / 10)) as [H1 H2]. split.
  - apply Forall_app. split; [by destruct (n <? 10)|]. constructor; [apply decimal_digit|constructor].
  - destruct (n <? 10); llia.
Qed.

Lemma decimal_not_nil f n : decimal (S f) n <> [].
Proof. cbn [decimal]. destruct (n <? 10); [done|]. by destruct (decimal f (n / 10)). Qed.

Lemma decimal_number n : 0 <= n < 2 ^ 63 -> number (decimal 20 n) n.
Proof.
  intros Hn. destruct (decimal_digits 20 n) as [Hd Hl]. apply n_fits; [|lia|unfold MAX_STRING; lia].
  exists (decimal 20 n). split; [split; [apply decimal_not_nil|done]|]. left. split; [done|].
  assert (Hv : digits_value 0 (decimal 20 n) = Some n) by (apply (decimal_value 19); lia).
  rewrite <- (app_nil_r (decimal 20 n)), GrammarFacts.digits_decimal in Hv by done. cbn [digits_value] in Hv. by injection Hv.
Qed.

Lemma elements_commas n (ls : list bytes) (ts : list (list Token)) :
  Forall2 (value n) ls ts -> ls <> [] -> elements n (commas ls) (concat ts).
Proof.
  induction 1 as [|l ts1 ls ts Hv Hr IH]; [done|]. intros _. destruct Hr as [|l2 t2 ls' ts' Hv2 Hr].
  - cbn [commas concat]. rewrite !app_nil_r. rewrite <- (app_nil_r l). apply (e_one n [] l []); [constructor|constructor|done].
  - cbn [commas]. change (concat (ts1 :: t2 :: ts')) with (ts1 ++ concat (t2 :: ts')).
    apply (e_more n [] l []); [constructor|constructor|done|]. by apply IH.
Qed.

Lemma values_of n l : Forall (fun d => value n (render d) (tokens d)) l -> Forall2 (value n) (map render l) (map tokens l).
Proof. induction 1; cbn [map]; by constructor. Qed.

Lemma members_commas n (l : list (bytes * doc)) :
  Forall (fun m => text_ok m.1 /\ value n (render m.2) (tokens m.2)) l -> l <> [] ->
  members n (commas (map (fun m => quoted m.1 ++ [58] ++ render m.2) l)) (concat (map (fun m => Key m.1 :: tokens m.2) l)).
Proof.
  induction 1 as [|m l (Ht & Hv) Hr IH]; [done|]. intros _. apply quoted_text in Ht.
  destruct Hr as [|m2 l Hm2 Hr].
  - cbn [map commas concat]. rewrite !app_nil_r. unfold quoted. cbn [app].
    pose proof (m_one n [] _ m.1 [] [] (render m.2) [] _ ltac:(constructor) ltac:(constructor) ltac:(constructor) ltac:(constructor) Ht Hv) as Hm.
    cbn [app] in Hm. by rewrite app_nil_r, <- app_assoc in *.
  - pose proof (m_more n [] _ m.1 [] [] (render m.2) [] _ _ _ ltac:(constructor) ltac:(constructor) ltac:(constructor) ltac:(constructor) Ht Hv (IH ltac:(done))) as Hm.
    cbn [map commas concat app] in *. unfold quoted in *. cbn [app] in *. rewrite <- !app_assoc in *. cbn [app] in *. done.
Qed.

Lemma foldr_and_Forall {A} (P : A -> Prop) l : foldr and True (map P l) <-> Forall P l.
Proof. induction l; simpl; [split; constructor|]. rewrite Forall_cons. naive_solver. Qed.

Lemma render_value d : forall n, readable d -> nesting d <= Z.of_nat n -> value n (render d) (tokens d).
Proof.
  induction d as [s|x|b| |l IH|l IH] using doc_ind; intros n Hr Hn; cbn [readable render tokens nesting] in *.
  - unfold quoted. cbn [app]. apply v_string. by apply quoted_text.
  - by apply v_number, decimal_number.
  - apply v_literal. destruct b; by repeat constructor.
  - apply v_literal. by repeat constructor.
  - pose proof (foldr_max_nonneg (map nesting l)). destruct n as [|n]; [lia|]. cbn [app].
    destruct l as [|d l]; [by apply (v_empty_array n []); constructor|]. apply v_array, elements_commas; [|done].
    apply foldr_and_Forall in Hr. apply values_of. apply Forall_forall.
    intros x Hx. rewrite !Forall_forall in *. apply IH; [done|by apply Hr|].
    pose proof (nesting_member nesting _ x Hx). lia.
  - pose proof (foldr_max_nonneg (map (fun m => nesting m.2) l)). destruct n as [|n]; [lia|]. cbn [app].
    destruct l as [|m l]; [by apply (v_empty_object n []); constructor|]. apply v_object, members_commas; [|done].
    apply foldr_and_Forall in Hr. rewrite !Forall_forall in *. intros x Hx. destruct (Hr x Hx) as [Ht Hx2]. split; [done|].
    apply IH; [done|done|]. pose proof (nesting_member (fun m => nesting m.2) _ x Hx). cbn beta in *. lia.
Qed.

(** ** The theorems *)

Lemma write_doc_finish d buf : nesting d <= json.MAX_DEPTH ->
  json.finish (write_doc d (json.new buf)) = if len (render d) <=? len buf then Ok (render d) else Err Overflow.
Proof.
  intros Hn. pose proof (write_doc_holds d buf _ _ [] Hn (holds_new buf)) as H. cbn [app] in H.
  by apply holds_finish in H.
Qed.

(** A document within the writer's depth, cut anywhere, is read back as its tokens. *)
Lemma doc_read_back d chunks : nesting d <= json.MAX_DEPTH -> readable d -> concat chunks = render d ->
  exists s s' ts, push_chunks collect chunks scanner.new [] = (s, ts, Ok tt) /\ finish collect s ts = (s', tokens d, Ok tt).
Proof.
  intros Hn Hr Hc. apply (scanner_reads (Z.to_nat (nesting d)) [] (render d) []); [|unfold json.MAX_DEPTH, MAX_DEPTH in *; lia|constructor|constructor|].
  - apply render_value; [done|]. lia.
  - by rewrite app_nil_r.
Qed.

(** C34: What the JSON writer is told to write is what the project's own scanner reads:
    a tree of values nested at most eight deep, driven through the writer into any
    buffer, gives its text, with commas and escapes in place, or the overflow error
    if the text does not fit; and if its strings and names are UTF-8 of at most 256
    bytes and its numbers below 2^63, which the scanner needs, that text, cut into
    chunks in any way, is accepted by the scanner and yields exactly the tokens of the
    tree. *)
Theorem json_roundtrip (d : doc) (buf : bytes) (chunks : list bytes) :
  nesting d <= json.MAX_DEPTH ->
  json.finish (write_doc d (json.new buf)) = (if len (render d) <=? len buf then Ok (render d) else Err Overflow) /\
  (readable d -> concat chunks = render d ->
   exists s s' ts, push_chunks collect chunks scanner.new [] = (s, ts, Ok tt) /\ finish collect s ts = (s', tokens d, Ok tt)).
Proof.
  intros Hn. split; [by apply write_doc_finish|]. by apply doc_read_back.
Qed.

Definition sample_doc : doc :=
  DObj [(str "Name", DStr [34; 10; 1; 195; 169]); (str "List", DArr [DNum 0; DBool true; DNull; DObj []]); (str "Big", DNum 18446744073)].

Lemma json_roundtrip_witness :
  json.finish (write_doc sample_doc (json.new (zeros 100))) = (if len (render sample_doc) <=? 100 then Ok (render sample_doc) else Err Overflow) /\
  (readable sample_doc -> concat [ztake 10 (render sample_doc); zdrop 10 (render sample_doc)] = render sample_doc ->
   exists s s' ts, push_chunks collect [ztake 10 (render sample_doc); zdrop 10 (render sample_doc)] scanner.new [] = (s, ts, Ok tt) /\
     finish collect s ts = (s', tokens sample_doc, Ok tt)) /\
  json.finish (write_doc sample_doc (json.new (zeros 100))) = Ok (render sample_doc) /\ readable sample_doc.
Proof.
  destruct (json_roundtrip sample_doc (zeros 100) [ztake 10 (render sample_doc); zdrop 10 (render sample_doc)]) as [H1 H2];
    [vm_compute; discriminate|].
  split; [exact H1|]. split; [exact H2|]. split; [vm_compute; reflexivity|].
  unfold sample_doc. cbn [readable map foldr fst snd]. unfold text_ok, bytes_ok, is_uint.
  repeat split; try lia; try exact I; try (apply (bool_decide_unpack _); vm_compute; exact I); vm_compute; try reflexivity; discriminate.
Defined.

(** The error reported is not always the first: nesting too deep replaces an overflow
    that came before it. *)
Theorem later_error_replaces_first :
  let deep := DArr [DArr [DArr [DArr [DArr [DArr [DArr [DArr [DArr []]]]]]]]] in
  failed (begin_array (begin_array (begin_array (json.new (zeros 2))))) = Some Overflow /\
  json.finish (write_doc deep (json.new (zeros 2))) = Err TooDeep.
Proof. vm_compute. done. Qed.
