(* ===== verification/ControlMessages.v ===== *)
(** * The control messages

    [crates/ts-control]: what a node says about itself ([hostinfo.rs]), the request for
    the network map ([map.rs]), the registration request and the scan of its response
    ([register.rs]).  Text is UTF-8 bytes. *)

From Stdlib Require Import Strings.String.
From S2P Require Import Prelude Utf8 Keys KeysFacts NetAddr Netmap NetmapScan NetmapGrammar Text Json JsonFacts.

Import keys json.

Module hostinfo.

Definition EXIT_NODE_ROUTES : list bytes := [str "0.0.0.0/0"; str "::/0"].

Record Hostinfo := mkHostinfo { hostname : bytes; version : bytes; os : bytes; routable_ips : list bytes }.

Definition DEFAULT_HOSTNAME : bytes := str "esp-gateway".

(** The package's version comes from the build. *)
Definition default_hostinfo (pkg_version : bytes) : Hostinfo :=
  mkHostinfo DEFAULT_HOSTNAME (str "esp-gateway-" ++ pkg_version) (str "esp32") [].

(** [for x in l { writer.str(x); }] *)
Definition write_strs (l : list bytes) (w : Writer) : Writer := foldl (fun w x => write_str x w) w l.

Definition write (h : Hostinfo) (w : Writer) : Writer :=
  let w := begin_object w in
  let w := field_str (str "IPNVersion") (version h) w in
  let w := field_str (str "OS") (os h) w in
  let w := field_str (str "Hostname") (hostname h) w in
  let w := match routable_ips h with
           | [] => w
           | _ => end_array (write_strs (routable_ips h) (begin_array (key (str "RoutableIPs") w)))
           end in
  let w := end_array (begin_array (key (str "Services") w)) in
  end_object w.

End hostinfo.

(** [key.encode(&mut text).map_err(|_| JsonError::Overflow)?] into 128 bytes. *)
Definition key_text {k} (p : Public k) : res JsonError bytes :=
  map_err (fun _ => Overflow) (encode p (zeros 128)).2.

Module map_request.
Import hostinfo.

Definition PATH : bytes := str "/machine/map".
Definition FRAME_HEADER_LEN : Z := 4.

Record MapRequest := mkMapRequest {
  version : Z;
  node_key : NodePublic;
  disco_key : DiscoPublic;
  hostinfo : Hostinfo;
  stream : bool;
  omit_peers : bool;
  read_only : bool;
  endpoints : list bytes;
}.

Definition write (r : MapRequest) (out : bytes) : res JsonError bytes :=
  let! node_key := key_text (node_key r) in
  let! disco_key := key_text (disco_key r) in
  let w := new out in
  let w := begin_object w in
  let w := field_u64 (str "Version") (version r) w in
  let w := field_str (str "NodeKey") node_key w in
  let w := field_str (str "DiscoKey") disco_key w in
  let w := field_bool (str "Stream") (stream r) w in
  let w := field_bool (str "OmitPeers") (omit_peers r) w in
  let w := field_bool (str "ReadOnly") (read_only r) w in
  let w := begin_array (key (str "Endpoints") w) in
  let w := write_strs (endpoints r) w in
  let w := end_array w in
  let w := key (str "Hostinfo") w in
  let w := hostinfo.write (hostinfo r) w in
  let w := end_object w in
  finish w.

Definition frame_len (header : bytes) : option Z :=
  let? b := get_range 0 FRAME_HEADER_LEN header in Some (of_le b).

End map_request.

Module register.
Import hostinfo.

Definition PATH : bytes := str "/machine/register".
Definition NO_EXPIRY : bytes := str "0001-01-01T00:00:00Z".

Record RegisterRequest := mkRegisterRequest {
  version : Z;
  node_key : NodePublic;
  old_node_key : option NodePublic;
  auth_key : bytes;
  hostinfo : Hostinfo;
  ephemeral : bool;
}.

(** [nodekey:] and sixty-four zeros. *)
Definition ZERO_NODE_KEY : bytes := str "nodekey:" ++ repeat 48 64.

Definition write (r : RegisterRequest) (out : bytes) : res JsonError bytes :=
  let! node_key := key_text (node_key r) in
  let! old_node_key := match old_node_key r with Some k => key_text k | None => Ok ZERO_NODE_KEY end in
  let w := new out in
  let w := begin_object w in
  let w := field_u64 (str "Version") (version r) w in
  let w := field_str (str "NodeKey") node_key w in
  let w := field_str (str "OldNodeKey") old_node_key w in
  let w := field_str (str "Expiry") NO_EXPIRY w in
  let w := field_bool (str "Ephemeral") (ephemeral r) w in
  let w := begin_object (key (str "Auth") w) in
  let w := field_str (str "AuthKey") (auth_key r) w in
  let w := end_object w in
  let w := key (str "Hostinfo") w in
  let w := hostinfo.write (hostinfo r) w in
  let w := end_object w in
  finish w.

(** *** The response *)

Record RegisterResponse := mkResponse { machine_authorized : bool; login_name : bytes; auth_url : bytes; error : bytes }.

(** How many bytes the white-space character in front takes, if one is there:
    [char::is_whitespace] in UTF-8. *)
Definition space_front (b : bytes) : nat :=
  match b with
  | x :: rest =>
      if between 9 13 x || (x =? 32) then 1%nat else
      match rest with
      | y :: rest =>
          if (x =? 0xc2) && ((y =? 0x85) || (y =? 0xa0)) then 2%nat else
          match rest with
          | z :: _ =>
              if (x =? 0xe1) && (y =? 0x9a) && (z =? 0x80) then 3%nat else
              if (x =? 0xe2) && (y =? 0x80) && (between 0x80 0x8a z || (z =? 0xa8) || (z =? 0xa9) || (z =? 0xaf)) then 3%nat else
              if (x =? 0xe2) && (y =? 0x81) && (z =? 0x9f) then 3%nat else
              if (x =? 0xe3) && (y =? 0x80) && (z =? 0x80) then 3%nat else 0%nat
          | [] => 0%nat
          end
      | [] => 0%nat
      end
  | [] => 0%nat
  end.

(** [trim_start()]; each turn removes a byte at least. *)
Fixpoint trim_loop (fuel : nat) (b : bytes) : bytes :=
  match fuel with
  | O => b
  | S fuel => match space_front b with O => b | n => trim_loop fuel (drop n b) end
  end.
Definition trim_start (b : bytes) : bytes := trim_loop (length b) b.

(** The needle is built in a string of 64 bytes. *)
Definition find_value (body field : bytes) : option bytes :=
  if 64 <? len field + 2 then None else
  let needle := [34] ++ field ++ [34] in
  let? i := position needle body in
  let? rest := encoding.strip_prefix [58] (trim_start (zdrop (i + len needle) body)) in
  Some (trim_start rest).

Definition string_field (body field : bytes) : option bytes :=
  let? value := find_value body field in
  let? rest := encoding.strip_prefix [34] value in
  let? finish := position [34] rest in
  Some (ztake finish rest).

Definition bool_field (body field : bytes) : option bool :=
  let? rest := find_value body field in
  if starts_with (str "true") rest then Some true else
  if starts_with (str "false") rest then Some false else None.

Definition parse (body : bytes) : RegisterResponse :=
  mkResponse (default false (bool_field body (str "MachineAuthorized")))
             (default [] (string_field body (str "LoginName")))
             (default [] (string_field body (str "AuthURL")))
             (default [] (string_field body (str "Error"))).

Definition is_success (r : RegisterResponse) : bool := machine_authorized r && (len (error r) =? 0).

End register.

(** * The control messages: what is written and what is read

    The requests are the documents they are meant to be, and the project's scanner
    reads them back; the scan of the registration response finds a field exactly
    where its text stands. *)

Import keys json hostinfo.

(** ** Requests as documents *)

Definition strs (l : list bytes) : doc := DArr (map DStr l).

Definition hostinfo_doc (h : Hostinfo) : doc :=
  DObj ([(str "IPNVersion", DStr (hostinfo.version h)); (str "OS", DStr (os h)); (str "Hostname", DStr (hostname h))] ++
        (match routable_ips h with [] => [] | l => [(str "RoutableIPs", strs l)] end) ++
        [(str "Services", DArr [])]).

Definition map_doc (r : map_request.MapRequest) : doc :=
  DObj [(str "Version", DNum (map_request.version r));
        (str "NodeKey", DStr (display (map_request.node_key r)));
        (str "DiscoKey", DStr (display (map_request.disco_key r)));
        (str "Stream", DBool (map_request.stream r));
        (str "OmitPeers", DBool (map_request.omit_peers r));
        (str "ReadOnly", DBool (map_request.read_only r));
        (str "Endpoints", strs (map_request.endpoints r));
        (str "Hostinfo", hostinfo_doc (map_request.hostinfo r))].

Definition register_doc (r : register.RegisterRequest) : doc :=
  DObj [(str "Version", DNum (register.version r));
        (str "NodeKey", DStr (display (register.node_key r)));
        (str "OldNodeKey", DStr (match register.old_node_key r with Some k => display k | None => register.ZERO_NODE_KEY end));
        (str "Expiry", DStr register.NO_EXPIRY);
        (str "Ephemeral", DBool (register.ephemeral r));
        (str "Auth", DObj [(str "AuthKey", DStr (register.auth_key r))]);
        (str "Hostinfo", hostinfo_doc (register.hostinfo r))].

Lemma write_strs_doc l w : write_strs l w = foldl (fun w d => write_doc d w) w (map DStr l).
Proof. unfold write_strs. revert w; induction l as [|x l IH]; intros w; cbn [map foldl]; [done|]. apply IH. Qed.

Lemma hostinfo_written h w : hostinfo.write h w = write_doc (hostinfo_doc h) w.
Proof.
  unfold hostinfo.write, hostinfo_doc, strs, field_str.
  destruct (routable_ips h) as [|r l]; rewrite ?write_strs_doc; cbn [app write_doc foldl fst snd]; reflexivity.
Qed.

Lemma len_display {k} (p : Public k) : key_ok (as_bytes p) -> len (display p) = len (PREFIX k) + 65.
Proof.
  intros [Hl Hb]. destruct (hex_of_spec (as_bytes p) Hb) as [Hx _]. unfold display. rewrite !len_app.
  fold (hex_of (as_bytes p)). rewrite (hex_text_len _ _ Hx), Hl. change (len [58]) with 1. unfold encoding.KEY_LEN. lia.
Qed.

Lemma key_text_ok {k} (p : Public k) : key_ok (as_bytes p) -> key_text p = Ok (display p).
Proof.
  intros Hk. unfold key_text, encode. rewrite encode_prefixed_spec by (done || apply prefix_ascii).
  rewrite (proj2 (Z.leb_le _ _)); [done|]. by destruct k.
Qed.

Lemma display_ok {k} (p : Public k) : key_ok (as_bytes p) -> text_ok (display p).
Proof.
  intros Hk. pose proof (len_display p Hk) as Hl. destruct Hk as [_ Hb]. destruct (hex_of_spec (as_bytes p) Hb) as [_ Ha].
  assert (Hascii : ascii (display p)).
  { unfold display. repeat apply Forall_app_2; [apply prefix_ascii|by repeat constructor|exact Ha]. }
  split_and!.
  - eapply Forall_impl; [exact Hascii|]. unfold is_uint. lia.
  - rewrite Hl. by destruct k.
  - by apply utf8_ascii.
Qed.

Lemma nesting_strs l : nesting (strs l) = 1.
Proof. unfold strs. cbn [nesting]. induction l as [|x l IH]; [done|]. cbn [map foldr nesting] in *. lia. Qed.

Lemma nesting_hostinfo h : nesting (hostinfo_doc h) = 2.
Proof. unfold hostinfo_doc. destruct (routable_ips h) as [|r l]; [done|]. cbn [app nesting map foldr snd]. by rewrite (nesting_strs (r :: l)). Qed.

Lemma map_request_written (r : map_request.MapRequest) out :
  key_ok (as_bytes (map_request.node_key r)) -> key_ok (as_bytes (map_request.disco_key r)) ->
  map_request.write r out = if len (render (map_doc r)) <=? len out then Ok (render (map_doc r)) else Err Overflow.
Proof.
  intros Hn Hd. unfold map_request.write. rewrite !key_text_ok by done. cbn [rbind].
  rewrite <- write_doc_finish; [|unfold map_doc; cbn [nesting map foldr snd]; rewrite nesting_strs, nesting_hostinfo; done].
  rewrite write_strs_doc, hostinfo_written. unfold map_doc, strs, field_str, field_u64, field_bool.
  cbn [write_doc foldl fst snd]. reflexivity.
Qed.

Lemma register_request_written (r : register.RegisterRequest) out :
  key_ok (as_bytes (register.node_key r)) -> (forall k, register.old_node_key r = Some k -> key_ok (as_bytes k)) ->
  register.write r out = if len (render (register_doc r)) <=? len out then Ok (render (register_doc r)) else Err Overflow.
Proof.
  intros Hn Ho. unfold register.write. rewrite key_text_ok by done. cbn [rbind].
  rewrite <- write_doc_finish; [|unfold register_doc; cbn [nesting map foldr snd]; rewrite nesting_hostinfo; done].
  unfold register_doc. destruct (register.old_node_key r) as [k|]; [rewrite key_text_ok by by apply Ho|];
    cbn [rbind]; rewrite hostinfo_written; unfold field_str, field_u64, field_bool; cbn [write_doc foldl fst snd]; reflexivity.
Qed.

(** *** What the caller fills in *)

Definition hostinfo_ok (h : Hostinfo) : Prop :=
  text_ok (hostinfo.version h) /\ text_ok (os h) /\ text_ok (hostname h) /\ Forall text_ok (routable_ips h).

Lemma literal_ok s : bool_decide (text_ok (str s)) = true -> text_ok (str s).
Proof. apply bool_decide_eq_true. Qed.

Lemma readable_strs l : Forall text_ok l -> readable (strs l).
Proof. intros H. unfold strs. cbn [readable]. apply foldr_and_Forall. apply Forall_map. eapply Forall_impl; [exact H|]. done. Qed.

(** Member names are literals. *)
Ltac literal := apply literal_ok; vm_compute; reflexivity.

Lemma readable_hostinfo h : hostinfo_ok h -> readable (hostinfo_doc h).
Proof.
  intros (Hv & Ho & Hn & Hr). unfold hostinfo_doc. pose proof (readable_strs _ Hr) as Hs.
  destruct (routable_ips h) as [|r l] eqn:Hl; cbn [app readable map foldr fst snd]; split_and!; try done; try literal.
Qed.

Definition map_request_ok (r : map_request.MapRequest) : Prop :=
  is_u16 (map_request.version r) /\ key_ok (as_bytes (map_request.node_key r)) /\ key_ok (as_bytes (map_request.disco_key r)) /\
  Forall text_ok (map_request.endpoints r) /\ hostinfo_ok (map_request.hostinfo r).

Definition register_request_ok (r : register.RegisterRequest) : Prop :=
  is_u16 (register.version r) /\ key_ok (as_bytes (register.node_key r)) /\
  (match register.old_node_key r with Some k => key_ok (as_bytes k) | None => True end) /\
  text_ok (register.auth_key r) /\ hostinfo_ok (register.hostinfo r).

Lemma readable_map r : map_request_ok r -> readable (map_doc r).
Proof.
  intros (Hv & Hn & Hd & He & Hh). unfold map_doc. cbn [readable map foldr fst snd]. unfold is_uint in Hv.
  split_and!; try literal; try done; try lia; auto using display_ok, readable_strs, readable_hostinfo.
Qed.

Lemma readable_register r : register_request_ok r -> readable (register_doc r).
Proof.
  intros (Hv & Hn & Ho & Ha & Hh). unfold register_doc. cbn [readable map foldr fst snd]. unfold is_uint in Hv.
  assert (Hold : text_ok (match register.old_node_key r with Some k => display k | None => register.ZERO_NODE_KEY end)).
  { destruct (register.old_node_key r) as [k|]; [by apply display_ok|]. apply (bool_decide_unpack _). vm_compute. exact I. }
  assert (He : text_ok register.NO_EXPIRY) by literal.
  split_and!; try literal; try done; try lia; auto using display_ok, readable_hostinfo.
Qed.

(** The two requests a node sends are the documents they are meant to be: the
    registration and the request for the map, written into any buffer with room, are
    exactly the text of the tree of their fields, keys in their printed form, the
    absent previous key as zeros and the list of routes left out when it is empty; a
    smaller buffer is refused.  Cut anywhere, the text is read back by the scanner as
    that tree. *)
Theorem control_requests_written (m : map_request.MapRequest) (r : register.RegisterRequest) (out : bytes) :
  map_request_ok m -> register_request_ok r ->
  (map_request.write m out = (if len (render (map_doc m)) <=? len out then Ok (render (map_doc m)) else Err Overflow) /\
   register.write r out = (if len (render (register_doc r)) <=? len out then Ok (render (register_doc r)) else Err Overflow)) /\
  (forall d chunks, d = map_doc m \/ d = register_doc r -> concat chunks = render d ->
   exists s s' ts, push_chunks collect chunks scanner.new [] = (s, ts, Ok tt) /\ scanner.finish collect s ts = (s', tokens d, Ok tt)).
Proof.
  intros Hm Hr. split.
  - destruct Hm as (_ & Hn & Hd & _), Hr as (_ & Hn' & Ho & _). split; [by apply map_request_written|].
    apply register_request_written; [done|]. intros k Hk. by rewrite Hk in Ho.
  - intros d chunks Hd Hc. apply doc_read_back; [| |done]; destruct Hd as [-> | ->].
    + unfold map_doc. cbn [nesting map foldr snd]. by rewrite nesting_strs, nesting_hostinfo.
    + unfold register_doc. cbn [nesting map foldr snd]. by rewrite nesting_hostinfo.
    + by apply readable_map.
    + by apply readable_register.
Qed.

Definition sample_map : map_request.MapRequest :=
  map_request.mkMapRequest 113 (mkPublic (repeat 7 32)) (mkPublic (repeat 9 32))
    (mkHostinfo DEFAULT_HOSTNAME (str "esp-gateway-0.1.0") (str "esp32") EXIT_NODE_ROUTES) true false false [str "10.0.0.1:41641"].

Definition sample_register : register.RegisterRequest :=
  register.mkRegisterRequest 113 (mkPublic (repeat 7 32)) None [107; 34; 92] (default_hostinfo (str "0.1.0")) false.

Lemma control_requests_written_witness :
  (map_request.write sample_map (zeros 600) = (if len (render (map_doc sample_map)) <=? 600 then Ok (render (map_doc sample_map)) else Err Overflow) /\
   register.write sample_register (zeros 600) = (if len (render (register_doc sample_register)) <=? 600 then Ok (render (register_doc sample_register)) else Err Overflow)) /\
  (forall d chunks, d = map_doc sample_map \/ d = register_doc sample_register -> concat chunks = render d ->
   exists s s' ts, push_chunks collect chunks scanner.new [] = (s, ts, Ok tt) /\ scanner.finish collect s ts = (s', tokens d, Ok tt)).
Proof.
  apply (control_requests_written sample_map sample_register (zeros 600));
    unfold map_request_ok, register_request_ok, hostinfo_ok, key_ok, bytes_ok, is_uint; apply (bool_decide_unpack _); vm_compute; exact I.
Defined.

(** ** The registration response *)

Import register.

(** A white-space character, and text made of them. *)
Definition is_space (c : bytes) : Prop := c <> [] /\ space_front c = length c.

Inductive spaces : bytes -> Prop :=
| sp_nil : spaces []
| sp_cons c w : is_space c -> spaces w -> spaces (c ++ w).

Lemma space_front_app c rest : is_space c -> space_front (c ++ rest) = length c.
Proof.
  intros [Hne Hc]. destruct c as [|x [|y [|z [|u c]]]]; [done|..]; cbn [app space_front length] in *;
    repeat (case_match; try done).
Qed.

Lemma space_front_le b : (space_front b <= length b)%nat.
Proof. unfold space_front. repeat case_match; simpl; lia. Qed.

Lemma space_front_take b : space_front b <> 0%nat -> is_space (take (space_front b) b).
Proof.
  intros H. pose proof (space_front_le b) as Hle. unfold is_space. rewrite length_take, Nat.min_l by done. split.
  - intros Hn. apply (f_equal length) in Hn. rewrite length_take in Hn. simpl in Hn. lia.
  - destruct b as [|x [|y [|z b]]]; [done|..]; cbn [space_front] in *; repeat (case_match; try done);
      cbn [take space_front]; simplify_eq; repeat (case_match; simplify_eq; try done).
Qed.

Lemma trim_loop_spaces fuel w : (length w <= fuel)%nat -> forall rest, spaces w -> space_front rest = 0%nat ->
  trim_loop (fuel + length rest) (w ++ rest) = rest.
Proof.
  intros Hf rest Hw Hr. revert fuel Hf. induction Hw as [|c w Hc Hw IH]; intros fuel Hf.
  - cbn [app]. destruct (fuel + length rest)%nat; [done|]. cbn [trim_loop]. by rewrite Hr.
  - rewrite length_app in Hf. destruct Hc as [Hne Hc']. assert (0 < length c)%nat by (destruct c; [done|simpl; lia]).
    destruct fuel as [|fuel]; [lia|]. cbn [Nat.add trim_loop]. rewrite <- app_assoc, space_front_app by done.
    destruct (length c) as [|n] eqn:Hl; [lia|]. rewrite <- Hl, drop_app_length.
    assert (Hle : (length w <= fuel)%nat) by lia. by apply IH.
Qed.

Lemma trim_spaces w rest : spaces w -> space_front rest = 0%nat -> trim_start (w ++ rest) = rest.
Proof. intros Hw Hr. unfold trim_start. rewrite length_app. by apply trim_loop_spaces. Qed.

Lemma trim_loop_inv fuel b : (length b <= fuel)%nat -> exists w, spaces w /\ b = w ++ trim_loop fuel b /\ space_front (trim_loop fuel b) = 0%nat.
Proof.
  revert b; induction fuel as [|fuel IH]; intros b Hf; cbn [trim_loop].
  - exists []. split; [constructor|]. by destruct b; [|simpl in Hf; lia].
  - destruct (space_front b) as [|n] eqn:Hs; [exists []; split; [constructor|done]|].
    destruct (IH (drop (S n) b)) as (w & Hw & Hb & Ht); [rewrite length_drop; lia|].
    exists (take (S n) b ++ w). split; [constructor; [|done]; rewrite <- Hs; apply space_front_take; lia|].
    split; [|done]. rewrite <- app_assoc, <- Hb. by rewrite take_drop.
Qed.

Lemma trim_inv b : exists w, spaces w /\ b = w ++ trim_start b /\ space_front (trim_start b) = 0%nat.
Proof. by apply trim_loop_inv. Qed.

Lemma position_quote v rest : ~ 34 ∈ v -> position [34] (v ++ 34 :: rest) = Some (len v).
Proof.
  induction v as [|x v IH]; intros Hv; cbn [position app]; [done|].
  assert (Hs : starts_with [34] (x :: v ++ 34 :: rest) = false).
  { unfold starts_with. cbn [length take]. apply bool_decide_eq_false. intros [= ->]. destruct Hv. constructor. }
  rewrite Hs, IH by (intros Hin; destruct Hv; by constructor). f_equal. llia.
Qed.

Lemma position_quote_inv b i : position [34] b = Some i -> ~ 34 ∈ ztake i b.
Proof.
  revert i; induction b as [|x b IH]; intros i; cbn [position]; [done|]. destruct (starts_with [34] (x :: b)) eqn:Hs.
  - intros [= <-]. by apply not_elem_of_nil.
  - destruct (position [34] b) as [j|] eqn:Hj; [|done]. intros [= <-].
    pose proof (position_spells _ _ _ Hj) as (pre & post & _ & Hp). pose proof (len_nonneg pre).
    unfold ztake. replace (Z.to_nat (j + 1)) with (S (Z.to_nat j)) by lia. cbn [take]. rewrite not_elem_of_cons. split.
    + intros <-. unfold starts_with in Hs. cbn in Hs. done.
    + by apply IH.
Qed.

Lemma space_front_colon r : space_front (58 :: r) = 0%nat.
Proof. by destruct r as [|y [|z r]]. Qed.

(** Where the scan finds the value of a field: after the first place the quoted name
    stands, a colon with white space around it, and then the value. *)
Definition value_at (body field rest : bytes) : Prop :=
  exists pre w1 w2, position ([34] ++ field ++ [34]) body = Some (len pre) /\
    body = pre ++ ([34] ++ field ++ [34]) ++ w1 ++ [58] ++ w2 ++ rest /\ spaces w1 /\ spaces w2 /\ space_front rest = 0%nat.

Lemma find_value_exact body field rest : len field <= 62 -> find_value body field = Some rest <-> value_at body field rest.
Proof.
  intros Hf. unfold find_value, value_at. rewrite (proj2 (Z.ltb_ge _ _)) by lia. set (needle := [34] ++ field ++ [34]).
  split.
  - destruct (position needle body) as [i|] eqn:Hp; [|done]. destruct (position_spells _ _ _ Hp) as (pre & post & Hb & Hi).
    rewrite Hb, app_assoc, zdrop_app_len by llia.
    destruct (trim_inv post) as (w1 & Hw1 & Hpost & _).
    destruct (encoding.strip_prefix [58] (trim_start post)) as [r|] eqn:Hs; [|done]. apply strip_prefix_Some in Hs.
    intros [= <-]. destruct (trim_inv r) as (w2 & Hw2 & Hr & Hz). exists pre, w1, w2. split_and!; try done; [congruence|].
    rewrite Hpost, Hs. rewrite Hr at 1. by rewrite <- !app_assoc.
  - intros (pre & w1 & w2 & Hp & Hb & Hw1 & Hw2 & Hz). rewrite Hp. cbn [app]. rewrite Hb, (app_assoc pre needle), zdrop_app_len by llia.
    rewrite (trim_spaces w1) by (done || apply space_front_colon). rewrite (strip_prefix_app [58]). by rewrite trim_spaces.
Qed.

(** The scan of a registration response finds a text field exactly when its quoted
    name, at the first place it stands anywhere in the body, is followed by a colon
    and a quoted string, white space allowed around the colon, and gives the bytes up
    to the next quote; it finds a flag exactly when the same place holds [true] or
    [false]. *)
Theorem response_fields_exact (body field v : bytes) (b : bool) : len field <= 62 ->
  (string_field body field = Some v <-> (exists post, value_at body field ([34] ++ v ++ [34] ++ post)) /\ ~ 34 ∈ v) /\
  (bool_field body field = Some b <-> exists post, value_at body field ((if b then str "true" else str "false") ++ post)).
Proof.
  intros Hf. split.
  - unfold string_field. split.
    + destruct (find_value body field) as [rest|] eqn:Hv; [|done]. apply find_value_exact in Hv; [|done].
      destruct (encoding.strip_prefix [34] rest) as [r|] eqn:Hs; [|done]. apply strip_prefix_Some in Hs as ->.
      destruct (position [34] r) as [n|] eqn:Hp; [|done]. intros [= <-]. split; [|by apply position_quote_inv].
      apply position_spells in Hp as (pre & post & -> & Hn). exists post. by rewrite ztake_app_len.
    + intros [(post & Hv) Hq]. apply find_value_exact in Hv as ->; [|done].
      rewrite strip_prefix_app. cbn [app]. rewrite position_quote by done. by rewrite ztake_app_len.
  - unfold bool_field. split.
    + destruct (find_value body field) as [rest|] eqn:Hv; [|done]. apply find_value_exact in Hv; [|done].
      destruct (starts_with (str "true") rest) eqn:Ht.
      * intros [= <-]. apply starts_with_true in Ht as (k & ->). eauto.
      * destruct (starts_with (str "false") rest) eqn:Hff; [|done]. intros [= <-]. apply starts_with_true in Hff as (k & ->). eauto.
    + intros (post & Hv). apply find_value_exact in Hv as ->; [|done].
      destruct b; by rewrite ?starts_with_app.
Qed.

Definition sample_response : bytes :=
  [123] ++ quoted (str "Login") ++ [58; 123] ++ quoted (str "LoginName") ++ [58; 32] ++ quoted (str "alice") ++ [125; 44] ++
  quoted (str "MachineAuthorized") ++ [58] ++ str "true" ++ [44] ++ quoted (str "Error") ++ [58] ++ quoted [] ++ [125].

Lemma response_fields_exact_witness :
  (string_field sample_response (str "LoginName") = Some (str "alice") <->
    (exists post, value_at sample_response (str "LoginName") ([34] ++ str "alice" ++ [34] ++ post)) /\ ~ 34 ∈ str "alice") /\
  (bool_field sample_response (str "LoginName") = Some true <->
    exists post, value_at sample_response (str "LoginName") (str "true" ++ post)) /\
  register.parse sample_response = mkResponse true (str "alice") [] [] /\ is_success (register.parse sample_response) = true.
Proof.
  destruct (response_fields_exact sample_response (str "LoginName") (str "alice") true) as [H1 H2]; [vm_compute; discriminate|].
  split; [exact H1|]. split; [exact H2|]. vm_compute. done.
Defined.

(** The scan does not know where it is in the document.  A value that spells a field's
    name hides the field: a refusal is reported as success.  An escaped quote ends the
    text it stands in. *)
Theorem response_scan_misreads :
  let refused := DObj [(str "LoginName", DStr (str "Error")); (str "MachineAuthorized", DBool true); (str "Error", DStr (str "denied"))] in
  let quote := DObj [(str "MachineAuthorized", DBool false); (str "Error", DStr (str "key " ++ [34] ++ str "k1" ++ [34] ++ str " expired"))] in
  is_success (register.parse (render refused)) = true /\ error (register.parse (render refused)) = [] /\
  error (register.parse (render quote)) = str "key " ++ [92].
Proof. vm_compute. done. Qed.

(** [frame_len] is the little-endian length of a response frame's header. *)
Lemma frame_len_ok n rest : is_u32 n -> map_request.frame_len (to_le 4 n ++ rest) = Some n.
Proof. intros Hn. unfold map_request.frame_len. rewrite get_range_front by by rewrite len_to_le. by rewrite of_to_le_small. Qed.
