(* ===== verification/Upgrade.v ===== *)
(** * The HTTP exchange before the control session

    [crates/ts-noise/src/upgrade.rs]: the two requests, with the initiation in base64,
    and reading far enough into a response to find its status and its end.  A writer
    method gives the writer it leaves; what a failing call leaves is not looked at. *)

From Stdlib Require Import Strings.String.
From S2P Require Import Prelude Utf8 Control NetAddr Text.

Import control.

Module upgrade.

Definition UPGRADE_TOKEN : bytes := str "tailscale-control-protocol".
Definition HANDSHAKE_HEADER_LEN : Z := 136.
Definition MAX_REQUEST : Z := 512.

(** ** The writer *)

Record Writer := mkWriter { out : bytes; wlen : Z }.

Definition new (out : bytes) : Writer := mkWriter out 0.

Definition put (b : bytes) (w : Writer) : res Error Writer :=
  let finish := wlen w + len b in
  if len (out w) <? finish then Err BufferTooSmall else
  let! out := slice_copy (wlen w, finish) b (out w) in
  Ok (mkWriter out finish).

(** The loop over [0..count], with [n] turns left. *)
Fixpoint put_digits (n : nat) (digits : bytes) (w : Writer) : res Error Writer :=
  match n with
  | O => Ok w
  | S n =>
      let! d := or_panic (get_at (Z.of_nat n) digits) in
      let! w := put [d] w in
      put_digits n digits w
  end.

(** The loop that makes the digits is the one of the handshake's prologue. *)
Definition put_u16 (value : Z) (w : Writer) : res Error Writer :=
  let! '(digits, count) := ik.digits_loop 6 (zeros 5) 0 value in
  put_digits (Z.to_nat count) digits w.

Definition ALPHABET : bytes := str "ABCDEFGHIJKLMNOPQRSTUVWXYZabcdefghijklmnopqrstuvwxyz0123456789+/".

(** The four characters of a chunk of [n] bytes, filled up with zeros. *)
Definition group (n b0 b1 b2 : Z) : res Error bytes :=
  let v := Z.lor (Z.lor (wrap 32 (Z.shiftl b0 16)) (wrap 32 (Z.shiftl b1 8))) b2 in
  let! c0 := or_panic (get_at (Z.land (Z.shiftr v 18) 63) ALPHABET) in
  let! c1 := or_panic (get_at (Z.land (Z.shiftr v 12) 63) ALPHABET) in
  let! c2 := or_panic (get_at (Z.land (Z.shiftr v 6) 63) ALPHABET) in
  let! c3 := or_panic (get_at (Z.land v 63) ALPHABET) in
  let c3 := if n <? 3 then 61 else c3 in
  let c2 := if n <? 2 then 61 else c2 in
  Ok [c0; c1; c2; c3].

(** [for chunk in input.chunks(3)] *)
Fixpoint base64 (input : bytes) (w : Writer) : res Error Writer :=
  match input with
  | [] => Ok w
  | [b0] => let! g := group 1 b0 0 0 in put g w
  | [b0; b1] => let! g := group 2 b0 b1 0 in put g w
  | b0 :: b1 :: b2 :: input =>
      let! g := group 3 b0 b1 b2 in
      let! w := put g w in
      base64 input w
  end.

Definition finish (w : Writer) : res Error bytes := slice (0, wlen w) (out w).

(** ** Requests *)

Definition CRLF : bytes := [13; 10].

Definition write_key_request (host out : bytes) : res Error bytes :=
  let w := new out in
  let! w := put (str "GET /key?v=") w in
  let! w := put_u16 CAPABILITY_VERSION w in
  let! w := put (str " HTTP/1.1" ++ CRLF ++ str "Host: ") w in
  let! w := put host w in
  let! w := put (CRLF ++ str "Connection: close" ++ CRLF ++ CRLF) w in
  finish w.

Definition write_upgrade_request (host initiation out : bytes) : res Error bytes :=
  let w := new out in
  let! w := put (str "POST /ts2021 HTTP/1.1" ++ CRLF ++ str "Host: ") w in
  let! w := put host w in
  let! w := put (CRLF ++ str "User-Agent: ts-noise" ++ CRLF ++ str "Content-Length: 0" ++ CRLF ++
                 str "Connection: upgrade" ++ CRLF ++ str "Upgrade: ") w in
  let! w := put UPGRADE_TOKEN w in
  let! w := put (CRLF ++ str "X-Tailscale-Handshake: ") w in
  let! w := base64 initiation w in
  let! w := put (CRLF ++ CRLF) w in
  finish w.

(** ** Responses *)

Record Response := mkResponse { status : Z; header_len : Z }.

Definition BLANK_LINE : bytes := [13; 10; 13; 10].

Definition find_blank_line (b : bytes) : option Z := let? i := position BLANK_LINE b in Some (i + 4).

(** [value] is what is read so far; both operations are checked. *)
Fixpoint ascii_u16_from (value : Z) (digits : bytes) : option Z :=
  match digits with
  | [] => Some value
  | c :: digits =>
      if negb (between 48 57 c) then None else
      if U16_MAX <? value * 10 then None else
      if U16_MAX <? value * 10 + (c - 48) then None else
      ascii_u16_from (value * 10 + (c - 48)) digits
  end.
Definition ascii_u16 (digits : bytes) : option Z := ascii_u16_from 0 digits.

Definition parse_response (b : bytes) : res Error Response :=
  if len b <? 12 then Err Incomplete else
  if negb (starts_with (str "HTTP/1.1 ") b) && negb (starts_with (str "HTTP/1.0 ") b) then Err Malformed else
  let! digits := slice (9, 12) b in
  let! status := ok_or (ascii_u16 digits) Malformed in
  let! header_len := ok_or (find_blank_line b) Incomplete in
  Ok (mkResponse status header_len).

(** [to_ascii_lowercase] *)
Definition lower (c : Z) : Z := if between 65 90 c then c + 32 else c.

(** A window of the needle's length that equals it in every letter but for case. *)
Fixpoint contains_ignoring_case (haystack needle : bytes) : bool :=
  match haystack with
  | [] => false
  | _ :: rest => bytes_eqb (map lower (take (length needle) haystack)) (map lower needle) || contains_ignoring_case rest needle
  end.

Definition is_upgrade (b : bytes) (r : Response) : res Error bool :=
  if negb (status r =? 101) then Ok false else
  let! head := slice (0, header_len r) b in
  Ok (contains_ignoring_case head UPGRADE_TOKEN).

End upgrade.

(** * The HTTP exchange: requests and responses

    The requests are the documented text, the base64 in them decodes to the
    initiation, and a response is read the same however much of it has arrived. *)

Import control upgrade.

(** ** Base64 as RFC 4648 decodes it *)

Fixpoint index_of (c : Z) (l : bytes) : option Z :=
  match l with [] => None | x :: l => if c =? x then Some 0 else let? i := index_of c l in Some (i + 1) end.

(** Four characters at a time; padding only at the end, with no bits left over. *)
Fixpoint base64_decode (l : bytes) : option bytes :=
  match l with
  | [] => Some []
  | [a; b; c; d] =>
      let? x := index_of a ALPHABET in
      let? y := index_of b ALPHABET in
      if c =? 61 then
        if (d =? 61) && ((x * 64 + y) mod 16 =? 0) then Some [(x * 64 + y) / 16] else None
      else
        let? z := index_of c ALPHABET in
        if d =? 61 then
          let v := (x * 64 + y) * 64 + z in
          if v mod 4 =? 0 then Some [v / 1024; v / 4 mod 256] else None
        else
          let? u := index_of d ALPHABET in
          let v := ((x * 64 + y) * 64 + z) * 64 + u in
          Some [v / 65536; v / 256 mod 256; v mod 256]
  | a :: b :: c :: d :: l =>
      let? x := index_of a ALPHABET in
      let? y := index_of b ALPHABET in
      let? z := index_of c ALPHABET in
      let? u := index_of d ALPHABET in
      let v := ((x * 64 + y) * 64 + z) * 64 + u in
      let? rest := base64_decode l in
      Some (v / 65536 :: v / 256 mod 256 :: v mod 256 :: rest)
  | _ => None
  end.

(** The character of six bits. *)
Definition sextet (i : Z) : Z := at_ i ALPHABET.

Lemma sextet_ok i : 0 <= i < 64 ->
  get_at i ALPHABET = Some (sextet i) /\ index_of (sextet i) ALPHABET = Some i /\ sextet i <> 61.
Proof.
  intros Hi.
  assert (H : bool_decide (get_at i ALPHABET = Some (sextet i)) && bool_decide (index_of (sextet i) ALPHABET = Some i) && negb (sextet i =? 61) = true).
  { revert i Hi. apply check_below. vm_compute. reflexivity. }
  bool_hyps. repeat match goal with H : bool_decide _ = true |- _ => apply bool_decide_eq_true in H end. auto.
Qed.

Lemma lor_low a b k : 0 <= k -> 0 <= a -> 0 <= b < 2 ^ k -> Z.lor (a * 2 ^ k) b = a * 2 ^ k + b.
Proof.
  intros Hk Ha Hb. pose proof (Z.add_lor_land (a * 2 ^ k) b) as H. enough (Z.land (a * 2 ^ k) b = 0) by lia.
  destruct (decide (b = 0)) as [-> | Hne]; [apply Z.land_0_r|].
  apply Z.bits_inj'. intros n Hn. rewrite Z.land_spec, Z.bits_0.
  destruct (decide (n < k)); [by rewrite Z.mul_pow2_bits_low by lia|].
  rewrite (Z.bits_above_log2 b), andb_false_r; [done|lia|].
  apply Z.log2_lt_pow2; [lia|]. eapply Z.lt_le_trans; [apply Hb|]. apply Z.pow_le_mono_r; lia.
Qed.

Lemma group_value b0 b1 b2 : is_u8 b0 -> is_u8 b1 -> is_u8 b2 ->
  Z.lor (Z.lor (wrap 32 (Z.shiftl b0 16)) (wrap 32 (Z.shiftl b1 8))) b2 = b0 * 65536 + b1 * 256 + b2.
Proof.
  unfold is_uint, wrap. intros H0 H1 H2. rewrite !Z.shiftl_mul_pow2 by lia. rewrite !Z.mod_small by lia.
  rewrite (lor_low b0 (b1 * 2 ^ 8) 16) by lia.
  replace (b0 * 2 ^ 16 + b1 * 2 ^ 8) with ((b0 * 256 + b1) * 2 ^ 8) by lia. rewrite lor_low by lia. lia.
Qed.

(** The four characters. *)
Definition chars4 (n b0 b1 b2 : Z) : bytes :=
  let v := b0 * 65536 + b1 * 256 + b2 in
  [sextet (v / 262144); sextet (v / 4096 mod 64); if n <? 2 then 61 else sextet (v / 64 mod 64); if n <? 3 then 61 else sextet (v mod 64)].

Lemma group_ok n b0 b1 b2 : is_u8 b0 -> is_u8 b1 -> is_u8 b2 -> group n b0 b1 b2 = Ok (chars4 n b0 b1 b2).
Proof.
  intros H0 H1 H2. unfold group. rewrite group_value by done. unfold chars4, is_uint in *. cbn zeta.
  set (v := b0 * 65536 + b1 * 256 + b2). assert (Hv : 0 <= v < 2 ^ 24) by (subst v; lia).
  rewrite !Z.shiftr_div_pow2 by lia. change 63 with (Z.ones 6). rewrite !Z.land_ones by lia.
  change (2 ^ 18) with 262144. change (2 ^ 12) with 4096. change (2 ^ 6) with 64.
  assert (Htop : v / 262144 < 64) by (apply Z.div_lt_upper_bound; lia).
  assert (Hpos : 0 <= v / 262144) by (apply Z.div_pos; lia).
  rewrite (Z.mod_small (v / 262144)) by lia.
  rewrite (proj1 (sextet_ok (v / 262144) ltac:(lia))). cbn [or_panic rbind].
  rewrite !(proj1 (sextet_ok (_ mod 64) ltac:(apply Z.mod_pos_bound; lia))). cbn [or_panic rbind]. done.
Qed.

Fixpoint base64_text (l : bytes) : bytes :=
  match l with
  | [] => []
  | [b0] => chars4 1 b0 0 0
  | [b0; b1] => chars4 2 b0 b1 0
  | b0 :: b1 :: b2 :: l => chars4 3 b0 b1 b2 ++ base64_text l
  end.

(** Induction three bytes at a time. *)
Lemma chunks3_ind (P : bytes -> Prop) :
  P [] -> (forall a, P [a]) -> (forall a b, P [a; b]) -> (forall a b c l, P l -> P (a :: b :: c :: l)) -> forall l, P l.
Proof.
  intros H0 H1 H2 H3 l. induction l as [l IH] using (induction_ltof1 _ length). unfold ltof in IH.
  destruct l as [|a [|b [|c l]]]; auto. apply H3, IH. simpl. lia.
Qed.

Lemma decode_more a b c d e l :
  base64_decode (a :: b :: c :: d :: e :: l) =
    (let? x := index_of a ALPHABET in
     let? y := index_of b ALPHABET in
     let? z := index_of c ALPHABET in
     let? u := index_of d ALPHABET in
     let v := ((x * 64 + y) * 64 + z) * 64 + u in
     let? rest := base64_decode (e :: l) in
     Some (v / 65536 :: v / 256 mod 256 :: v mod 256 :: rest)).
Proof. done. Qed.

Lemma decode_group_3 b0 b1 b2 l rest : is_u8 b0 -> is_u8 b1 -> is_u8 b2 -> base64_decode l = Some rest ->
  base64_decode (chars4 3 b0 b1 b2 ++ l) = Some (b0 :: b1 :: b2 :: rest).
Proof.
  unfold is_uint. intros H0 H1 H2 Hl. unfold chars4. cbn [app Z.ltb Z.compare Pos.compare Pos.compare_cont].
  set (v := b0 * 65536 + b1 * 256 + b2). assert (Hv : 0 <= v < 2 ^ 24) by (subst v; lia).
  assert (Htop : 0 <= v / 262144 < 64) by (split; [apply Z.div_pos; lia|apply Z.div_lt_upper_bound; lia]).
  destruct (sextet_ok (v / 262144) Htop) as (_ & E0 & _).
  destruct (sextet_ok (v / 4096 mod 64) ltac:(apply Z.mod_pos_bound; lia)) as (_ & E1 & _).
  destruct (sextet_ok (v / 64 mod 64) ltac:(apply Z.mod_pos_bound; lia)) as (_ & E2 & N2).
  destruct (sextet_ok (v mod 64) ltac:(apply Z.mod_pos_bound; lia)) as (_ & E3 & N3).
  assert (Hsum : ((v / 262144 * 64 + v / 4096 mod 64) * 64 + v / 64 mod 64) * 64 + v mod 64 = v) by (clear; Z.to_euclidean_division_equations; lia).
  assert (Hb : v / 65536 = b0 /\ v / 256 mod 256 = b1 /\ v mod 256 = b2) by (subst v; clear -H0 H1 H2; Z.to_euclidean_division_equations; lia).
  destruct Hb as (Hb0 & Hb1 & Hb2). 
  destruct l as [|x l].
  - cbn [base64_decode]. rewrite E0, E1, E2, E3. injection Hl as <-. rewrite (proj2 (Z.eqb_neq _ _) N2), (proj2 (Z.eqb_neq _ _) N3), Hsum. by rewrite Hb0, Hb1, Hb2.
  - rewrite decode_more, E0, E1, E2, E3. cbn zeta. rewrite Hl, Hsum. by rewrite Hb0, Hb1, Hb2.
Qed.

Lemma decode_group_1 b0 : is_u8 b0 -> base64_decode (chars4 1 b0 0 0) = Some [b0].
Proof.
  unfold is_uint. intros H0. unfold chars4. cbn [Z.ltb Z.compare Pos.compare Pos.compare_cont]. set (v := b0 * 65536 + 0 * 256 + 0).
  assert (Htop : 0 <= v / 262144 < 64) by (subst v; split; [apply Z.div_pos; lia|apply Z.div_lt_upper_bound; lia]).
  destruct (sextet_ok (v / 262144) Htop) as (_ & E0 & _).
  destruct (sextet_ok (v / 4096 mod 64) ltac:(apply Z.mod_pos_bound; lia)) as (_ & E1 & _).
  cbn [base64_decode]. rewrite E0, E1, Z.eqb_refl. cbn [andb].
  assert (Hb : (v / 262144 * 64 + v / 4096 mod 64) mod 16 = 0 /\ (v / 262144 * 64 + v / 4096 mod 64) / 16 = b0)
    by (subst v; clear -H0; Z.to_euclidean_division_equations; lia).
  destruct Hb as [-> ->]. done.
Qed.

Lemma decode_group_2 b0 b1 : is_u8 b0 -> is_u8 b1 -> base64_decode (chars4 2 b0 b1 0) = Some [b0; b1].
Proof.
  unfold is_uint. intros H0 H1. unfold chars4. cbn [Z.ltb Z.compare Pos.compare Pos.compare_cont]. set (v := b0 * 65536 + b1 * 256 + 0).
  assert (Htop : 0 <= v / 262144 < 64) by (subst v; split; [apply Z.div_pos; lia|apply Z.div_lt_upper_bound; lia]).
  destruct (sextet_ok (v / 262144) Htop) as (_ & E0 & _).
  destruct (sextet_ok (v / 4096 mod 64) ltac:(apply Z.mod_pos_bound; lia)) as (_ & E1 & _).
  destruct (sextet_ok (v / 64 mod 64) ltac:(apply Z.mod_pos_bound; lia)) as (_ & E2 & N2).
  cbn [base64_decode]. rewrite E0, E1, (proj2 (Z.eqb_neq _ _) N2), E2, Z.eqb_refl. cbn zeta.
  set (s := (v / 262144 * 64 + v / 4096 mod 64) * 64 + v / 64 mod 64).
  assert (Hs : s = b0 * 1024 + b1 * 4) by (subst s v; clear -H0 H1; Z.to_euclidean_division_equations; lia).
  rewrite Hs. assert (Hb : (b0 * 1024 + b1 * 4) mod 4 = 0 /\ (b0 * 1024 + b1 * 4) / 1024 = b0 /\ (b0 * 1024 + b1 * 4) / 4 mod 256 = b1)
    by (clear -H0 H1; Z.to_euclidean_division_equations; lia).
  destruct Hb as (-> & -> & ->). done.
Qed.

Lemma base64_roundtrip l : bytes_ok l -> base64_decode (base64_text l) = Some l.
Proof.
  induction l as [|a|a b|a b c l IH] using chunks3_ind; intros H; cbn [base64_text]; [done|..];
    unfold bytes_ok in *; rewrite ?Forall_cons in H; destruct_and?.
  - by apply decode_group_1.
  - by apply decode_group_2.
  - apply decode_group_3; auto.
Qed.

Lemma len_base64 l : len (base64_text l) = (len l + 2) / 3 * 4.
Proof.
  induction l as [|a|a b|a b c l IH] using chunks3_ind; [done..|]. cbn [base64_text]. rewrite len_app, IH, !len_cons.
  change (len (chars4 3 a b c)) with 4. clear. Z.to_euclidean_division_equations. lia.
Qed.

(** ** What a sequence of writes adds *)

Section Adds.
Context (buf : bytes).

Definition wrote (text : bytes) : Writer := mkWriter (text ++ zdrop (len text) buf) (len text).

(** The call appends [t], or fails for lack of room. *)
Definition adds (m : Writer -> res Error Writer) (t : bytes) : Prop :=
  forall text, len text <= len buf ->
    m (wrote text) = if len (text ++ t) <=? len buf then Ok (wrote (text ++ t)) else Err BufferTooSmall.

Lemma adds_put t : adds (put t) t.
Proof.
  intros text Hl. unfold put, wrote. cbn [out wlen]. rewrite len_app, len_zdrop. pose proof (len_nonneg text).
  rewrite Z.max_r, Z.min_l, len_app by lia.
  destruct (_ <=? len buf) eqn:Hf; bool_hyps; [rewrite (proj2 (Z.ltb_ge _ _)) by lia|by rewrite (proj2 (Z.ltb_lt _ _)) by lia].
  destruct (split_len (len t) (zdrop (len text) buf)) as (f & r & Hz & Hfl); [llia|].
  unfold slice_copy. cbn [fst snd]. rewrite Hz, copy_at_mid by lia. cbn [or_panic rbind].
  rewrite <- (zdrop_zdrop (len t)), Hz, zdrop_app_len by (done || apply len_nonneg). by rewrite <- app_assoc.
Qed.

Lemma adds_nil : adds Ok [].
Proof. intros text Hl. rewrite app_nil_r. by rewrite (proj2 (Z.leb_le _ _)). Qed.

Lemma adds_then m1 t1 m2 t2 : adds m1 t1 -> adds m2 t2 -> adds (fun w => let! w := m1 w in m2 w) (t1 ++ t2).
Proof.
  intros H1 H2 text Hl. rewrite H1 by done. rewrite app_assoc. destruct (len (text ++ t1) <=? len buf) eqn:Hf; cbn [rbind].
  - bool_hyps. by rewrite H2.
  - bool_hyps. rewrite (proj2 (Z.leb_gt _ _)); [done|]. rewrite len_app. pose proof (len_nonneg t2). lia.
Qed.

Lemma adds_ext m m' t : (forall w, m w = m' w) -> adds m t -> adds m' t.
Proof. intros He H text Hl. rewrite <- He. by apply H. Qed.

Lemma adds_base64 l : bytes_ok l -> adds (base64 l) (base64_text l).
Proof.
  induction l as [|a|a b|a b c l IH] using chunks3_ind; intros H; unfold bytes_ok in *; rewrite ?Forall_cons in H; destruct_and?; cbn [base64_text].
  - apply adds_nil.
  - apply (adds_ext (put (chars4 1 a 0 0))); [|apply adds_put]. intros w. cbn [base64]. by rewrite group_ok.
  - apply (adds_ext (put (chars4 2 a b 0))); [|apply adds_put]. intros w. cbn [base64]. by rewrite group_ok.
  - apply (adds_ext (fun w => let! w := put (chars4 3 a b c) w in base64 l w)); [|apply adds_then; [apply adds_put|auto]].
    intros w. cbn [base64]. by rewrite group_ok.
Qed.

Lemma adds_version : adds (put_u16 CAPABILITY_VERSION) (str "131").
Proof.
  apply (adds_ext (fun w => let! w := put [49] w in let! w := put [51] w in let! w := put [49] w in Ok w)); [done|].
  change (str "131") with ([49] ++ [51] ++ [49] ++ []).
  repeat (apply adds_then; [apply adds_put|]). apply adds_nil.
Qed.

(** The rest of a request, up to its text. *)
Definition ends (k : Writer -> res Error bytes) (t : bytes) : Prop :=
  forall text, len text <= len buf ->
    k (wrote text) = if len (text ++ t) <=? len buf then Ok (text ++ t) else Err BufferTooSmall.

Lemma ends_finish : ends finish [].
Proof.
  intros text Hl. rewrite app_nil_r, (proj2 (Z.leb_le _ _)) by done. unfold finish, wrote, slice. cbn [fst snd out wlen].
  by rewrite get_range_front.
Qed.

Lemma ends_then m t1 k t2 : adds m t1 -> ends k t2 -> ends (fun w => let! w := m w in k w) (t1 ++ t2).
Proof.
  intros H1 H2 text Hl. rewrite H1 by done. rewrite app_assoc. destruct (len (text ++ t1) <=? len buf) eqn:Hf; cbn [rbind].
  - bool_hyps. by rewrite H2.
  - bool_hyps. rewrite (proj2 (Z.leb_gt _ _)); [done|]. rewrite len_app. pose proof (len_nonneg t2). lia.
Qed.

Lemma ends_new k t : ends k t -> k (new buf) = if len t <=? len buf then Ok t else Err BufferTooSmall.
Proof.
  intros H. assert (Hnew : new buf = wrote []) by done. rewrite Hnew, H by (change (len (@nil Z)) with 0; apply len_nonneg). done.
Qed.

End Adds.

(** ** Requests *)

Definition key_request (host : bytes) : bytes :=
  str "GET /key?v=131 HTTP/1.1" ++ CRLF ++ str "Host: " ++ host ++ CRLF ++ str "Connection: close" ++ CRLF ++ CRLF.

Definition upgrade_head (host : bytes) : bytes :=
  str "POST /ts2021 HTTP/1.1" ++ CRLF ++ str "Host: " ++ host ++ CRLF ++ str "User-Agent: ts-noise" ++ CRLF ++
  str "Content-Length: 0" ++ CRLF ++ str "Connection: upgrade" ++ CRLF ++ str "Upgrade: tailscale-control-protocol" ++ CRLF ++
  str "X-Tailscale-Handshake: ".

Ltac add_all := repeat first [apply ends_finish | apply ends_then; [first [apply adds_put | apply adds_version | by apply adds_base64]|]].

Lemma key_request_written host out :
  write_key_request host out = if len (key_request host) <=? len out then Ok (key_request host) else Err BufferTooSmall.
Proof.
  assert (He : key_request host = str "GET /key?v=" ++ str "131" ++ (str " HTTP/1.1" ++ CRLF ++ str "Host: ") ++ host ++
    (CRLF ++ str "Connection: close" ++ CRLF ++ CRLF) ++ []) by (unfold key_request; by rewrite app_nil_r, <- !app_assoc).
  rewrite He. apply (ends_new out (fun w => let! w := put (str "GET /key?v=") w in _)). add_all.
Qed.

Lemma upgrade_request_written host initiation out : bytes_ok initiation ->
  write_upgrade_request host initiation out =
    let text := upgrade_head host ++ base64_text initiation ++ CRLF ++ CRLF in
    if len text <=? len out then Ok text else Err BufferTooSmall.
Proof.
  intros Hi. cbn zeta.
  assert (He : upgrade_head host ++ base64_text initiation ++ CRLF ++ CRLF =
    (str "POST /ts2021 HTTP/1.1" ++ CRLF ++ str "Host: ") ++ host ++
    (CRLF ++ str "User-Agent: ts-noise" ++ CRLF ++ str "Content-Length: 0" ++ CRLF ++ str "Connection: upgrade" ++ CRLF ++ str "Upgrade: ") ++
    UPGRADE_TOKEN ++ (CRLF ++ str "X-Tailscale-Handshake: ") ++ base64_text initiation ++ (CRLF ++ CRLF) ++ [])
    by (unfold upgrade_head; rewrite app_nil_r, <- !app_assoc; done).
  rewrite He. apply (ends_new out (fun w => let! w := put (str "POST /ts2021 HTTP/1.1" ++ CRLF ++ str "Host: ") w in _)). add_all.
Qed.

(** The end of a head is looked for past text with no carriage return, and past a
    line break that another line follows. *)
Lemma blank_skip_text l r : ~ 13 ∈ l -> position BLANK_LINE (l ++ r) = let? i := position BLANK_LINE r in Some (len l + i).
Proof.
  induction l as [|x l IH]; intros Hl; cbn [app].
  - destruct (position BLANK_LINE r); done.
  - rewrite not_elem_of_cons in Hl. destruct Hl as [Hx Hl]. cbn [position].
    assert (Hs : starts_with BLANK_LINE (x :: l ++ r) = false).
    { unfold starts_with. apply bool_decide_eq_false. intros Hq. apply Hx. unfold BLANK_LINE in Hq; simpl in Hq; congruence. }
    rewrite Hs, IH by done. destruct (position BLANK_LINE r); [|done]. f_equal. llia.
Qed.

Lemma blank_skip_break x r : x <> 13 -> position BLANK_LINE (CRLF ++ x :: r) = let? i := position BLANK_LINE (x :: r) in Some (2 + i).
Proof.
  intros Hx. change (CRLF ++ x :: r) with (13 :: 10 :: x :: r).
  assert (H1 : starts_with BLANK_LINE (13 :: 10 :: x :: r) = false).
  { unfold starts_with. apply bool_decide_eq_false. intros Hq. apply Hx. unfold BLANK_LINE in Hq; simpl in Hq; congruence. }
  assert (H2 : starts_with BLANK_LINE (10 :: x :: r) = false).
  { unfold starts_with. apply bool_decide_eq_false. intros Hq. unfold BLANK_LINE in Hq; simpl in Hq; congruence. }
  change (position BLANK_LINE (13 :: 10 :: x :: r)) with
    (if starts_with BLANK_LINE (13 :: 10 :: x :: r) then Some 0 else
     let? i := (if starts_with BLANK_LINE (10 :: x :: r) then Some 0 else let? i := position BLANK_LINE (x :: r) in Some (i + 1)) in Some (i + 1)).
  rewrite H1, H2. destruct (position BLANK_LINE (x :: r)); [|done]. f_equal. lia.
Qed.

Lemma sextet_text i : sextet i <> 13.
Proof.
  unfold sextet, at_. destruct (get_at i ALPHABET) as [c|] eqn:H; [|done]. cbn. intros ->.
  assert (Hno : Forall (fun c => c <> 13) ALPHABET) by (apply (bool_decide_unpack _); vm_compute; exact I).
  unfold get_at in H. destruct (0 <=? i); [|done]. apply (Forall_lookup_1 _ _ _ _ Hno) in H. done.
Qed.

Lemma base64_no_break l : ~ 13 ∈ base64_text l.
Proof.
  assert (H4 : forall n a b c, ~ 13 ∈ chars4 n a b c).
  { intros n a b c. unfold chars4. cbn zeta. pose proof sextet_text as Hs.
    rewrite !not_elem_of_cons. split_and!; try (apply not_eq_sym, Hs); [destruct (n <? 2)|destruct (n <? 3)|apply not_elem_of_nil];
      try done; apply not_eq_sym, Hs. }
  induction l as [|a|a b|a b c l IH] using chunks3_ind; cbn [base64_text]; [apply not_elem_of_nil|apply H4..|].
  rewrite not_elem_of_app. auto.
Qed.

Ltac no_break := apply (bool_decide_unpack _); vm_compute; exact I.

Lemma literal_no_break s : bool_decide (13 ∈ str s) = false -> ~ 13 ∈ str s.
Proof. apply bool_decide_eq_false. Qed.

(** The request ends at its only blank line. *)
Lemma upgrade_request_head host initiation : ~ 13 ∈ host ->
  let text := upgrade_head host ++ base64_text initiation ++ CRLF ++ CRLF in
  position BLANK_LINE text = Some (len text - 4).
Proof.
  intros Hh text. subst text. unfold upgrade_head. rewrite <- !app_assoc.
  assert (Hlast : position BLANK_LINE (CRLF ++ CRLF) = Some 0) by done.
  assert (Hb : forall pre c s r, str s = c :: pre -> c <> 13 -> position BLANK_LINE (CRLF ++ str s ++ r) =
    let? i := position BLANK_LINE (str s ++ r) in Some (2 + i)).
  { intros pre c s r -> Hc. by apply blank_skip_break. }
  rewrite blank_skip_text by (apply literal_no_break; done).
  rewrite (Hb (str "ost: ") 72) by done. rewrite blank_skip_text by (apply literal_no_break; done).
  rewrite blank_skip_text by done.
  rewrite (Hb (str "ser-Agent: ts-noise") 85) by done. rewrite blank_skip_text by (apply literal_no_break; done).
  rewrite (Hb (str "ontent-Length: 0") 67) by done. rewrite blank_skip_text by (apply literal_no_break; done).
  rewrite (Hb (str "onnection: upgrade") 67) by done. rewrite blank_skip_text by (apply literal_no_break; done).
  rewrite (Hb (str "pgrade: tailscale-control-protocol") 85) by done. rewrite blank_skip_text by (apply literal_no_break; done).
  rewrite (Hb (str "-Tailscale-Handshake: ") 88) by done. rewrite blank_skip_text by (apply literal_no_break; done).
  rewrite blank_skip_text by apply base64_no_break. rewrite Hlast. f_equal. rewrite !len_app.
  change (len CRLF) with 2. lia.
Qed.

(** The upgrade request carries the handshake: for any host name without a line
    break and any initiation it is the documented text, or the buffer is too small;
    its head ends with its only blank line; and the header's value is the standard
    base64 of the initiation, which decodes to it, 136 characters for the 101 bytes
    of the protocol's initiation. *)
Theorem upgrade_request_carries (host initiation out : bytes) : bytes_ok initiation -> ~ 13 ∈ host ->
  exists encoded,
    write_upgrade_request host initiation out =
      (let text := upgrade_head host ++ encoded ++ CRLF ++ CRLF in if len text <=? len out then Ok text else Err BufferTooSmall) /\
    base64_decode encoded = Some initiation /\
    (len initiation = ik.INITIATION_LEN -> len encoded = HANDSHAKE_HEADER_LEN) /\
    position BLANK_LINE (upgrade_head host ++ encoded ++ CRLF ++ CRLF) = Some (len (upgrade_head host ++ encoded ++ CRLF ++ CRLF) - 4).
Proof.
  intros Hi Hh. exists (base64_text initiation). split_and!.
  - by apply upgrade_request_written.
  - by apply base64_roundtrip.
  - intros Hl. rewrite len_base64, Hl. done.
  - by apply upgrade_request_head.
Qed.

Lemma upgrade_request_carries_witness :
  exists encoded,
    write_upgrade_request (str "127.0.0.1:8080") [255; 0; 171; 1] (zeros 512) =
      (let text := upgrade_head (str "127.0.0.1:8080") ++ encoded ++ CRLF ++ CRLF in if len text <=? 512 then Ok text else Err BufferTooSmall) /\
    base64_decode encoded = Some [255; 0; 171; 1] /\
    (len [255; 0; 171; 1] = ik.INITIATION_LEN -> len encoded = HANDSHAKE_HEADER_LEN) /\
    position BLANK_LINE (upgrade_head (str "127.0.0.1:8080") ++ encoded ++ CRLF ++ CRLF) =
      Some (len (upgrade_head (str "127.0.0.1:8080") ++ encoded ++ CRLF ++ CRLF) - 4).
Proof.
  apply (upgrade_request_carries (str "127.0.0.1:8080") [255; 0; 171; 1] (zeros 512)).
  - unfold bytes_ok, is_uint. no_break.
  - intros H. apply (bool_decide_eq_true_2 _) in H. vm_compute in H. discriminate H.
Defined.

(** ** Responses *)

Definition digits3 (a b c : Z) : Prop := between 48 57 a = true /\ between 48 57 b = true /\ between 48 57 c = true.

Lemma ascii_u16_three a b c : digits3 a b c -> ascii_u16 [a; b; c] = Some ((a - 48) * 100 + (b - 48) * 10 + (c - 48)).
Proof.
  intros (Ha & Hb & Hc). unfold ascii_u16. cbn [ascii_u16_from]. rewrite Ha, Hb, Hc. cbn [negb].
  unfold between, U16_MAX in *. bool_hyps. rewrite !(proj2 (Z.ltb_ge _ _)) by lia. f_equal. lia.
Qed.

Lemma contains_exact h n : n <> [] ->
  contains_ignoring_case h n = true <-> exists pre w post, h = pre ++ w ++ post /\ map lower w = map lower n.
Proof.
  intros Hn. induction h as [|x h IH]; cbn [contains_ignoring_case].
  - split; [done|]. intros (pre & w & post & Hh & Hw). symmetry in Hh. apply app_eq_nil in Hh as [_ Hh]. apply app_eq_nil in Hh as [-> _].
    destruct n; done.
  - rewrite orb_true_iff, bytes_eqb_true, IH. split.
    + intros [H|(pre & w & post & -> & Hw)]; [|by exists (x :: pre), w, post].
      exists [], (take (length n) (x :: h)), (drop (length n) (x :: h)). by rewrite take_drop.
    + intros (pre & w & post & Hh & Hw). destruct pre as [|y pre].
      * left. rewrite Hh. cbn [app]. apply (f_equal length) in Hw as Hl. rewrite !length_map in Hl. by rewrite <- Hl, take_app_length.
      * right. injection Hh as -> ->. eauto.
Qed.

(** A response is read the same however much of it has arrived: until its blank
    line is there the answer is to wait, and from then on the status and the length
    of the head are final whatever bytes of the session follow.  It is taken for the
    upgrade exactly if the status is 101 and its head names the protocol, in any
    case. *)
Theorem upgrade_response_read (minor a b c : Z) (tail rest : bytes) :
  let head := str "HTTP/1." ++ [minor; 32; a; b; c] ++ tail in
  let code := (a - 48) * 100 + (b - 48) * 10 + (c - 48) in
  minor = 48 \/ minor = 49 -> digits3 a b c -> position BLANK_LINE head = Some (len head - 4) ->
  (forall n, n < len head -> parse_response (ztake n head) = Err Incomplete) /\
  parse_response (head ++ rest) = Ok (mkResponse code (len head)) /\
  exists answer, is_upgrade (head ++ rest) (mkResponse code (len head)) = Ok answer /\
    (answer = true <-> code = 101 /\ exists pre w post, head = pre ++ w ++ post /\ map lower w = map lower UPGRADE_TOKEN).
Proof.
  intros head code Hminor Hd Hp.
  assert (Hhead : head = (str "HTTP/1." ++ [minor; 32]) ++ [a; b; c] ++ tail) by done.
  assert (Hstatus : forall more, let l := (str "HTTP/1." ++ [minor; 32; a; b; c]) ++ more in
    parse_response l = let! n := ok_or (find_blank_line l) Incomplete in Ok (mkResponse code n)).
  { intros more l. unfold parse_response. subst l.
    rewrite (proj2 (Z.ltb_ge _ _)) by (rewrite len_app; change (len (str "HTTP/1." ++ [minor; 32; a; b; c])) with 12; pose proof (len_nonneg more); lia).
    assert (Hs : negb (starts_with (str "HTTP/1.1 ") ((str "HTTP/1." ++ [minor; 32; a; b; c]) ++ more)) &&
      negb (starts_with (str "HTTP/1.0 ") ((str "HTTP/1." ++ [minor; 32; a; b; c]) ++ more)) = false) by (destruct Hminor as [-> | ->]; done).
    rewrite Hs. unfold slice. cbn [fst snd].
    change ((str "HTTP/1." ++ [minor; 32; a; b; c]) ++ more) with ((str "HTTP/1." ++ [minor; 32]) ++ [a; b; c] ++ more).
    rewrite get_range_mid by done. cbn [or_panic rbind]. by rewrite ascii_u16_three. }
  split_and!.
  - intros n Hn. destruct (decide (n < 12)) as [Hs|Hs].
    + unfold parse_response. rewrite (proj2 (Z.ltb_lt _ _)); [done|]. rewrite len_ztake. lia.
    + assert (Ht : ztake n head = (str "HTTP/1." ++ [minor; 32; a; b; c]) ++ ztake (n - 12) tail).
      { unfold head, ztake. replace (Z.to_nat n) with (12 + Z.to_nat (n - 12))%nat by lia. done. }
      rewrite Ht, Hstatus, <- Ht. unfold find_blank_line. rewrite (position_cut BLANK_LINE head (len head - 4)); [done|done|done|change (len BLANK_LINE) with 4; lia].
  - change (head ++ rest) with ((str "HTTP/1." ++ [minor; 32; a; b; c]) ++ (tail ++ rest)). rewrite Hstatus.
    change ((str "HTTP/1." ++ [minor; 32; a; b; c]) ++ (tail ++ rest)) with (head ++ rest). unfold find_blank_line.
    rewrite (position_app _ _ _ _ Hp). cbn [ok_or rbind]. do 2 f_equal. lia.
  - unfold is_upgrade. cbn [status header_len]. destruct (code =? 101) eqn:Hc; bool_hyps; cbn [negb].
    + unfold slice. cbn [fst snd]. rewrite get_range_front by done. cbn [or_panic rbind]. eexists. split; [done|].
      rewrite contains_exact by done. naive_solver.
    + exists false. split; [done|]. split; [done|]. naive_solver.
Qed.

Definition sample_switch : bytes :=
  [32] ++ str "Switching Protocols" ++ CRLF ++ str "Upgrade: Tailscale-Control-Protocol" ++ BLANK_LINE.

Lemma upgrade_response_read_witness :
  let head := str "HTTP/1." ++ [49; 32; 49; 48; 49] ++ sample_switch in
  (forall n, n < len head -> parse_response (ztake n head) = Err Incomplete) /\
  parse_response (head ++ [0; 51]) = Ok (mkResponse 101 (len head)) /\
  (exists answer, is_upgrade (head ++ [0; 51]) (mkResponse 101 (len head)) = Ok answer /\
    (answer = true <-> 101 = 101 /\ exists pre w post, head = pre ++ w ++ post /\ map lower w = map lower UPGRADE_TOKEN)) /\
  is_upgrade (head ++ [0; 51]) (mkResponse 101 (len head)) = Ok true.
Proof.
  intros head. destruct (upgrade_response_read 49 49 48 49 sample_switch [0; 51]) as (H1 & H2 & H3);
    [by right|done|vm_compute; reflexivity|].
  split; [exact H1|]. split; [exact H2|]. split; [exact H3|]. vm_compute. reflexivity.
Defined.
