(* ===== verification/GatewaySegments.v ===== *)
(** * Packets the gateway meets

    The parsers and the rewriting of [Gateway.v] on arbitrary packets: the
    parsers and the echo responder return on every input, a packet taken for TCP
    with a header of at least twenty bytes is a [Segment], and clamping changes no
    field of it before the checksum and, of the rest, one MSS value ([clamped]); what
    a translation leaves as it was is [translated]. *)

From S2P Require Import Prelude Timers Gateway GatewayFacts.
Import nat Ones.
Import GatewayFacts.SegmentFacts GatewayFacts.TranslationFacts GatewayFacts.ClampFacts.

(** ** The parsers *)

Lemma ihl_nonneg packet : 0 <= ihl packet.
Proof.
  unfold ihl. change 0x0f with (Z.ones 4). rewrite Z.land_ones by lia.
  pose proof (Z.mod_pos_bound (at_ 0 packet) (2 ^ 4)). lia.
Qed.

Lemma slice_in {E A} a b (l : list A) : 0 <= a -> a <= b -> b <= len l -> @slice E A (a, b) l = Ok (sub_range a b l).
Proof. intros. unfold slice. cbn [fst snd]. by rewrite get_range_in. Qed.

Lemma not_ipv4_false proto packet : not_ipv4 proto packet = false -> 20 <= len packet /\ at_ 9 packet = proto.
Proof. unfold not_ipv4, IPV4_HEADER_LEN. intros H. bool_hyps. by split. Qed.

Lemma u16_at_small i b : bytes_ok b -> 0 <= i -> i + 2 <= len b -> is_u16 (of_be (sub_range i (i + 2) b)).
Proof.
  intros Hb H0 Hi. pose proof (of_be_bound _ (bytes_ok_sub_range i (i + 2) b Hb)) as H.
  rewrite len_sub_range in H by lia. replace (i + 2 - i) with 2 in H by lia. done.
Qed.

(** What a UDP packet was read from. *)
Lemma parse_udp4_returns packet :
  bytes_ok packet -> exists o, parse_udp4 packet = Ok o /\
    forall u, o = Some u -> len (u_src_ip u) = 4 /\ len (u_dst_ip u) = 4 /\ bytes_ok (u_src_ip u) /\
      bytes_ok (u_dst_ip u) /\ is_u16 (u_src_port u) /\ is_u16 (u_dst_port u) /\ bytes_ok (u_payload u).
Proof.
  intros Hb. unfold parse_udp4. destruct (not_ipv4 PROTO_UDP packet) eqn:En; [by eexists|].
  apply not_ipv4_false in En as [Hl _]. rewrite u16_at_in by lia. cbn [rbind]. case_if; [by eexists|].
  destruct (get_range _ _ packet) as [udp|] eqn:Eg; [|by eexists]. apply get_range_Some in Eg as (_ & _ & ->).
  set (udp := sub_range _ _ _). assert (bytes_ok udp) as Bu by by apply bytes_ok_sub_range.
  unfold UDP_HEADER_LEN. case_if; [by eexists|]. bool_hyps. rewrite u16_at_in by lia. cbn [rbind].
  case_if; [by eexists|]. bool_hyps. rewrite !(slice_in _ _ packet), !u16_at_in by lia. cbn [rbind].
  rewrite slice_in by lia. cbn [rbind]. eexists. split; [done|]. intros u [= <-].
  cbn [u_src_ip u_dst_ip u_src_port u_dst_port u_payload]. rewrite !len_sub_range by lia.
  split_and!; try done; auto using bytes_ok_sub_range, u16_at_small with lia; apply u16_at_small; done || lia.
Qed.

(** What a TCP packet was read from. *)
Lemma parse_tcp4_returns packet :
  bytes_ok packet -> exists o, parse_tcp4 packet = Ok o /\
    forall info, o = Some info -> tcp_offset packet = Some (ihl packet) /\
      len (src_ip info) = 4 /\ len (dst_ip info) = 4 /\ bytes_ok (src_ip info) /\ bytes_ok (dst_ip info) /\
      is_u16 (src_port info) /\ is_u16 (dst_port info).
Proof.
  intros Hb. unfold parse_tcp4, tcp_offset. destruct (not_ipv4 PROTO_TCP packet) eqn:En; [by eexists|].
  apply not_ipv4_false in En as [Hl _].
  destruct (get_range _ _ packet) as [tcp|] eqn:Eg; [|by eexists]. apply get_range_Some in Eg as (Hr & _ & ->).
  set (tcp := sub_range _ _ _). assert (bytes_ok tcp) as Bt by by apply bytes_ok_sub_range.
  assert (len tcp = len packet - ihl packet) as Hlt by (unfold tcp; rewrite len_sub_range; lia).
  unfold TCP_HEADER_LEN. case_if; [by eexists|]. bool_hyps.
  rewrite !u16_at_in, !(slice_in _ _ packet) by lia. cbn [rbind].
  destruct (byte_at_in 13 tcp) as (fl & -> & _); [lia|]. cbn [rbind]. eexists. split; [done|].
  intros info [= <-]. cbn [src_ip dst_ip src_port dst_port]. rewrite !len_sub_range by lia.
  rewrite (proj2 (Z.ltb_ge _ _)) by lia.
  split_and!; try done; auto using bytes_ok_sub_range; apply u16_at_small; done || lia.
Qed.

(** The echo responder returns on any packet, and what it wrote fits. *)
Lemma set_at_in i x (l : bytes) : 0 <= i < len l -> exists l', @or_panic Empty_set _ (set_at i x l) = Ok l' /\ len l' = len l.
Proof. intros. unfold set_at. apply (slice_copy_in i (i + 1) [x]); [lia|lia|]. change (len [x]) with 1. lia. Qed.

Lemma fill_zero_in a b (l : bytes) : 0 <= a <= b -> b <= len l -> exists l', @or_panic Empty_set _ (fill_zero a b l) = Ok l' /\ len l' = len l.
Proof. intros. unfold fill_zero. apply (slice_copy_in a b); [lia|lia|llia]. Qed.

Lemma echo_reply_returns packet our_ip o :
  exists r, inner.icmp_echo_reply packet our_ip o = Ok r /\
    forall b n, r = Some (b, n) -> 0 <= n <= len b.
Proof.
  unfold inner.icmp_echo_reply. case_if; [by eexists|]. bool_hyps. fold (ihl packet). pose proof (ihl_nonneg packet) as Hihl.
  case_if; [by eexists|]. bool_hyps. rewrite !slice_in by lia. cbn [rbind].
  destruct (byte_at_in (ihl packet) packet) as (ty & -> & _); [lia|]. cbn [rbind]. case_if; [by eexists|].
  destruct (get_range 0 _ o) eqn:Eo; [|by eexists]. apply get_range_Some in Eo as (_ & Ho & _).
  edestruct (slice_copy_in 16 20) as (r1 & -> & L1); [lia|lia|rewrite len_sub_range; lia|cbn [rbind]].
  edestruct (slice_copy_in 12 16) as (r2 & -> & L2); [lia|lia|rewrite len_sub_range; lia|cbn [rbind]].
  edestruct (set_at_in 8) as (r3 & -> & L3); [|cbn [rbind]]; [lia|].
  edestruct (fill_zero_in 10 12) as (r4 & -> & L4); [| |cbn [rbind]]; [lia|lia|].
  rewrite slice_in by lia. cbn [rbind].
  edestruct (slice_copy_in 10 12) as (r5 & -> & L5); [lia| |rewrite len_to_be; done|cbn [rbind]]; [lia|].
  edestruct (set_at_in (ihl packet)) as (r6 & -> & L6); [|cbn [rbind]]; [lia|].
  edestruct (fill_zero_in (ihl packet + 2) (ihl packet + 4)) as (r7 & -> & L7); [| |cbn [rbind]]; [lia|lia|].
  rewrite slice_in by lia. cbn [rbind].
  edestruct (slice_copy_in (ihl packet + 2) (ihl packet + 4)) as (r8 & -> & L8); [lia| |rewrite len_to_be; lia|cbn [rbind]]; [lia|].
  eexists. split; [done|]. intros b n [= <- <-]. rewrite len_app, len_zdrop. nonneg_lens. lia.
Qed.

(** ** Segments *)

(** A packet taken for TCP, unless its header is shorter than twenty bytes, is a
    segment. *)
Lemma segment_of packet :
  tcp_offset packet = Some (ihl packet) -> 20 <= ihl packet -> bytes_ok packet -> len packet <= 65535 ->
  exists s, packet = packet_of s /\ segment_ok s.
Proof.
  intros Ht Hi Hb Hl. unfold tcp_offset in Ht. destruct (not_ipv4 PROTO_TCP packet) eqn:En; [done|].
  unfold not_ipv4 in En. bool_hyps. unfold TCP_HEADER_LEN in Ht. case_if; [done|]. bool_hyps.
  destruct (split_fields [10; 2; 4; 4; ihl packet - 20; 2; 2; 12; 2; len packet - ihl packet - 18] packet) as (fs & E & Hfs);
    [repeat constructor; lia|simpl; lia|].
  do 10 (destruct fs as [|? fs]; [done|]). destruct fs; [|done]. cbn [map] in Hfs.
  injection Hfs; intros.
  match type of E with packet = concat [?a; ?b; ?c; ?d; ?e; ?f; ?g; ?h; ?i; ?j] =>
    exists (mkSegment a b c d e f g h i j); assert (packet = packet_of (mkSegment a b c d e f g h i j)) as E' end.
  { rewrite E. unfold packet_of, ip_fields, tcp_fields. cbn [concat g_head g_cks g_src g_dst g_options g_sport g_dport g_mid g_sum g_rest].
    by rewrite !app_nil_r, <- !app_assoc. }
  split; [done|].
  split; try rewrite <- E'; cbn [g_head g_cks g_src g_dst g_options g_sport g_dport g_mid g_sum g_rest map]; try done; try lia.
  congruence.
Qed.

(** The segment's own description, as the parser reads it. *)
Definition info_of (s : Segment) : TcpInfo :=
  mkTcpInfo (of_be (g_sport s)) (of_be (g_dport s)) (g_src s) (g_dst s)
    (negb (Z.land (at_ 9 (g_mid s)) TCP_FLAG_RST =? 0)).

Lemma parse_segment s : segment_ok s -> parse_tcp4 (packet_of s) = Ok (Some (info_of s)).
Proof.
  intros Hok. pose proof (tcp_offset_segment s Hok) as Ht. unfold tcp_offset in Ht. unfold parse_tcp4.
  destruct (not_ipv4 PROTO_TCP (packet_of s)); [done|]. case_if; [done|]. bool_hyps.
  pose proof (len_ip s Hok) as Li. pose proof (so_ihl _ Hok) as Hi. lens Hok.
  assert (get_range (ihl (packet_of s)) (len (packet_of s)) (packet_of s) = Some (concat (tcp_fields s))) as ->.
  { unfold packet_of at 3. apply get_range_back; [lia|]. unfold packet_of. apply len_app. }
  pose proof (so_rest _ Hok). rewrite (len_tcp s Hok). unfold TCP_HEADER_LEN. rewrite (proj2 (Z.ltb_ge _ _)) by lia.
  unfold u16_at, slice. cbn [fst snd]. unfold tcp_fields at 1 2. read_field 0%nat 1%nat. read_field 1%nat 2%nat.
  unfold packet_of, ip_fields at 1 2. rewrite <- !concat_app. cbn [app]. unfold tcp_fields at 1 2. cbn [app].
  read_field 2%nat 3%nat. read_field 3%nat 4%nat.
  destruct (flag_bytes s Hok) as [_ ->]; [exact []..|]. cbn [rbind]. by rewrite !concat_one.
Qed.

(** Clamping returns, and nothing in front of the checksum changes. *)
Lemma copy_keeps a b src (l : bytes) n :
  0 <= a <= b -> b <= len l -> len src = b - a -> 0 <= n <= a -> bytes_ok l -> bytes_ok src ->
  exists l', @slice_copy Empty_set Z (a, b) src l = Ok l' /\ len l' = len l /\ bytes_ok l' /\ ztake n l' = ztake n l.
Proof.
  intros Hab Hb Hs Hn Bl Bs. exists (ztake a l ++ src ++ zdrop b l). split_and!.
  - unfold slice_copy. cbn [fst snd]. by rewrite (proj2 (copy_at_Some a b src l _)) by done.
  - llia.
  - rewrite !bytes_ok_app. eauto with tf.
  - unfold ztake. rewrite take_app_le by (rewrite length_take; unfold len in *; lia).
    rewrite take_take. f_equal. lia.
Qed.

Lemma clamp_options_keeps fuel tcp d i :
  bytes_ok tcp -> 20 <= i -> d <= len tcp -> d - i <= Z.of_nat fuel ->
  exists tcp', clamp_options fuel tcp d i = Ok tcp' /\ len tcp' = len tcp /\ bytes_ok tcp' /\ ztake 16 tcp' = ztake 16 tcp.
Proof.
  intros Hb. revert i; induction fuel as [|fuel IH]; intros i Hi Hd Hf; cbn [clamp_options];
    (destruct (d <=? i) eqn:E; bool_hyps; [by eexists|]); [lia|].
  destruct (byte_at_in i tcp) as (k & -> & _); [lia|]. cbn [rbind].
  case_if; [by eexists|]. case_if; [apply IH; lia|]. case_if; [by eexists|]. bool_hyps.
  destruct (byte_at_in (i + 1) tcp) as (l & -> & Hl); [lia|]. cbn [rbind].
  apply get_at_ok in Hl; [|done]. case_if; [by eexists|]. bool_hyps.
  case_if; [|apply IH; lia]. bool_hyps. subst l. rewrite u16_at_in by lia. cbn [rbind].
  case_if; [|by eexists]. rewrite slice_in, u16_at_in by lia. cbn [rbind]. set (sum := adjust_checksum _ _ _).
  destruct (copy_keeps 16 18 (to_be 2 sum) tcp 16) as (t1 & -> & L1 & B1 & K1); [lia|lia|llia|lia|auto with tf..|].
  cbn [rbind].
  destruct (copy_keeps (i + 2) (i + 4) (to_be 2 MAX_MSS) t1 16) as (t2 & -> & L2 & B2 & K2); [lia|lia|llia|lia|auto with tf..|].
  exists t2. split_and!; [done|lia|done|congruence].
Qed.

(** [clamp_mss] on any packet: the same, with at most its TCP part changed. *)
Lemma clamp_mss_keeps packet :
  bytes_ok packet -> exists packet', clamp_mss packet = Ok packet' /\ len packet' = len packet /\ bytes_ok packet' /\
    (forall h, tcp_offset packet = Some h -> ztake (h + 16) packet' = ztake (h + 16) packet).
Proof.
  intros Hb. unfold clamp_mss. destruct (tcp_offset packet) as [h|] eqn:Eo; [|by eexists].
  unfold tcp_offset in Eo. repeat case_if; try done. injection Eo as <-. bool_hyps. pose proof (ihl_nonneg packet) as Hh.
  set (h := ihl packet) in *. unfold TCP_HEADER_LEN in *. unfold split_at. rewrite !slice_in by lia. cbn [rbind].
  set (tcp := sub_range h (len packet) packet).
  assert (len tcp = len packet - h) as Hl by (unfold tcp; rewrite len_sub_range; lia).
  destruct (byte_at_in 13 tcp) as (fl & -> & _); [lia|]. cbn [rbind]. case_if; [by eexists|].
  destruct (byte_at_in 12 tcp) as (off & -> & Hoff); [lia|]. cbn [rbind].
  assert (bytes_ok tcp) as Ht by by apply bytes_ok_sub_range. apply get_at_ok in Hoff; [|done].
  case_if; [by eexists|]. bool_hyps.
  destruct (clamp_options_keeps (Z.to_nat (Z.shiftr off 4 * 4)) tcp (Z.shiftr off 4 * 4) 20) as (t' & -> & Ht' & Bt' & Kt');
    try done; try lia. cbn [rbind]. eexists. split; [done|].
  assert (sub_range 0 h packet = ztake h packet) as -> by (unfold sub_range; by rewrite Z.sub_0_r, (zdrop_0 0)).
  split_and!; [llia|rewrite bytes_ok_app; eauto with tf|]. intros ? [= <-].
  assert (ztake (h + 16) packet = ztake h packet ++ ztake 16 tcp) as ->.
  { unfold tcp, sub_range. rewrite ztake_ztake, Z.min_l by lia. unfold ztake, zdrop.
    rewrite <- (take_drop (Z.to_nat h) packet) at 1. rewrite take_app_ge by (rewrite length_take; unfold len in *; lia).
    f_equal. f_equal. rewrite length_take. unfold len in *. lia. }
  rewrite <- Kt'. assert (length (ztake h packet) = Z.to_nat h) as Hlh by (rewrite length_len; f_equal; llia).
  unfold ztake at 1. rewrite take_app_ge, Hlh by lia. f_equal. unfold ztake. f_equal. lia.
Qed.

Definition syn (s : Segment) : bool := negb (Z.land (at_ 9 (g_mid s)) TCP_FLAG_SYN =? 0).

(** Where the option loop ends: the segment is as it was, or the value of one MSS
    option inside the header was above the limit and is the limit now. *)
Lemma clamp_options_shape fuel tcp d i :
  bytes_ok tcp -> 20 <= i -> d <= len tcp -> d - i <= Z.of_nat fuel ->
  clamp_options fuel tcp d i = Ok tcp \/
  exists a1 sum a2 mss b, tcp = concat [a1; sum; a2; [OPTION_MSS; 4]; mss; b] /\
    map len [a1; sum; mss] = [16; 2; 2] /\ 2 <= len a2 /\ 18 + len a2 + 4 <= d /\ MAX_MSS < of_be mss /\
    clamp_options fuel tcp d i =
      Ok (concat [a1; to_be 2 (adjust_checksum (of_be sum) mss (to_be 2 MAX_MSS)); a2; [OPTION_MSS; 4]; to_be 2 MAX_MSS; b]).
Proof.
  intros Hb. revert i; induction fuel as [|fuel IH]; intros i Hi Hd Hf; cbn [clamp_options];
    (destruct (d <=? i) eqn:E; bool_hyps; [by left|]); [lia|].
  destruct (byte_at_in i tcp) as (k & Hk & _); [lia|]. rewrite Hk. cbn [rbind].
  case_if; [by left|]. case_if; [apply IH; lia|]. case_if; [by left|]. bool_hyps.
  destruct (byte_at_in (i + 1) tcp) as (l & Hl & Hl'); [lia|]. rewrite Hl. cbn [rbind].
  apply get_at_ok in Hl'; [|done]. case_if; [by left|]. bool_hyps.
  case_if; [|apply IH; lia]. bool_hyps. subst k l. rewrite u16_at_in by lia. cbn [rbind].
  case_if; [|by left]. bool_hyps. right. clear IH Hl'.
  destruct (split_fields [16; 2; i - 18; 2; 2; len tcp - i - 4] tcp) as (fs & Et & Hfs); [repeat constructor; lia|simpl; lia|].
  do 6 (destruct fs as [|? fs]; [done|]). destruct fs; [|done]. cbn [map] in Hfs. injection Hfs; intros.
  match type of Et with tcp = concat [?a1; ?sum; ?a2; ?o; ?mss; ?b] =>
    rename a1 into f1, sum into f2, a2 into f3, o into f4, mss into f5, b into f6 end.
  destruct f4 as [|x [|y [|]]]; try (exfalso; llia).
  assert (tcp = (f1 ++ f2 ++ f3) ++ x :: y :: f5 ++ f6) as E2 by (rewrite Et; cbn [concat]; by rewrite !app_nil_r, <- !app_assoc).
  rewrite E2 in Hk, Hl. rewrite byte_at_mid in Hk by llia. rewrite byte_at_next in Hl by llia.
  injection Hk as ->. injection Hl as ->. subst tcp. replace (i + 2 + 2) with (i + 4) in * by lia.
  assert (sub_range (i + 2) (i + 4) (concat [f1; f2; f3; [OPTION_MSS; 4]; f5; f6]) = f5) as Em.
  { rewrite E2. change (OPTION_MSS :: 4 :: f5 ++ f6) with ([OPTION_MSS; 4] ++ f5 ++ f6). rewrite app_assoc.
    apply sub_range_mid; rewrite !len_app; change (len [OPTION_MSS; 4]) with 2; lia. }
  rewrite Em in *. exists f1, f2, f3, f5, f6. split_and!; [done|cbn [map]; congruence|lia|lia|done|].
  rewrite slice_in by lia. rewrite Em. cbn [rbind]. unfold u16_at, slice, slice_copy. cbn [fst snd].
  assert (len [OPTION_MSS; 4] = 2) by done.
  read_field 1%nat 2%nat. rewrite concat_one. write_field 1%nat.
  set (c := to_be 2 _). assert (len c = 2) by (unfold c; llia).
  erewrite (copy_field 4); [|reflexivity|cbn [take concat]; llia|llia|llia]. done.
Qed.

(** What clamping may do to a segment: nothing, or, to a SYN, write the limit over
    the value of one MSS option of its header, with the checksum updated for it. *)
Definition clamped (g g' : Segment) : Prop :=
  g' = g \/
  syn g = true /\ exists pre mss tl,
    g_rest g = pre ++ [OPTION_MSS; 4] ++ mss ++ tl /\ len mss = 2 /\ MAX_MSS < of_be mss /\
    18 + len pre + 4 <= data_offset g /\ g' = with_mss g pre mss tl /\
    (Z.even (len pre) = true -> tcp_verifies (packet_of g') = tcp_verifies (packet_of g)).

Lemma clamp_clamped s : segment_ok s ->
  exists c, clamp_mss (packet_of s) = Ok (packet_of c) /\ segment_ok c /\ clamped s c.
Proof.
  intros Hok. unfold clamp_mss. rewrite (tcp_offset_segment s Hok), (split_segment s Hok). cbn [rbind].
  destruct (flag_bytes s Hok) as [F12 F13]; [exact []..|]. rewrite F13. cbn [rbind].
  case_if; [exists s; split_and!; [done|done|by left]|]. rewrite F12. cbn [rbind]. fold (data_offset s).
  case_if; [exists s; split_and!; [done|done|by left]|]. bool_hyps.
  destruct (seg_bytes s Hok) as (_ & _ & _ & _ & _ & B6 & B7 & B8 & B9 & B10). pose proof (len_tcp s Hok) as Lt.
  assert (bytes_ok (concat (tcp_fields s))) as Bt.
  { unfold tcp_fields. cbn [concat]. rewrite !bytes_ok_app. split_and!; try done; constructor. }
  unfold TCP_HEADER_LEN in *. rewrite Lt in *.
  destruct (clamp_options_shape (Z.to_nat (data_offset s)) (concat (tcp_fields s)) (data_offset s) 20 Bt)
    as [->|(a1 & sum & a2 & mss & b & Et & Hlen & L2 & Hd & Hm & ->)]; [lia|lia|lia|..].
  { exists s. split_and!; [done|done|by left]. }
  cbn [map] in Hlen. injection Hlen; intros Lm Ls La. pose proof Hok as Hl. lens Hl.
  assert (a1 = g_sport s ++ g_dport s ++ g_mid s /\ sum = g_sum s /\ g_rest s = a2 ++ [OPTION_MSS; 4] ++ mss ++ b) as (-> & -> & Er).
  { unfold tcp_fields in Et. cbn [concat] in Et. rewrite !app_nil_r in Et.
    rewrite (app_assoc (g_dport s)), (app_assoc (g_sport s)) in Et.
    apply app_inj_1 in Et as [<- Et]; [|unfold len in *; rewrite !length_app; lia].
    apply app_inj_1 in Et as [<- Et]; [done|unfold len in *; lia]. }
  exists (with_mss s a2 mss b). destruct (with_mss_ok s a2 mss b Hok Er Lm) as [Hok' Hv]. split_and!; [|done|].
  - cbn [rbind]. unfold with_mss, with_rest, packet_of, tcp_fields, ip_fields.
    cbn [concat g_head g_cks g_src g_dst g_options g_sport g_dport g_mid g_sum g_rest].
    by rewrite !app_nil_r, <- !app_assoc.
  - right. split; [unfold syn; by apply negb_true_iff, Z.eqb_neq|]. by exists a2, mss, b.
Qed.

(** What translating one end of a segment leaves: the segment as clamped, with the
    new address, the new port and both checksums.  The IP checksum holds over the
    first twenty bytes of the header, which is all of it without options, and the
    TCP checksum is as valid as it was after clamping. *)
Definition translated (update : Segment -> bytes -> bytes -> bytes -> bytes -> Segment)
    (s s' : Segment) (ip' : bytes) (port' : Z) : Prop :=
  exists c cks sum, clamped s c /\ s' = update c ip' (to_be 2 port') cks sum /\
    verifies (words_sum (concat [g_head s'; g_cks s'; g_src s'; g_dst s'])) = true /\
    (g_options s = [] -> header_verifies (packet_of s') = true) /\
    tcp_verifies (packet_of s') = tcp_verifies (packet_of c).

Lemma clamped_same s c : clamped s c ->
  g_head c = g_head s /\ g_src c = g_src s /\ g_dst c = g_dst s /\ g_options c = g_options s /\
  g_sport c = g_sport s /\ g_dport c = g_dport s /\ g_mid c = g_mid s /\ len (g_rest c) = len (g_rest s).
Proof.
  intros [->|(_ & pre & mss & tl & Er & Lm & _ & _ & -> & _)]; [done|]. split_and!; try done.
  unfold with_mss, with_rest. cbn [g_rest]. rewrite Er, !len_app, len_to_be. lia.
Qed.

Lemma len_segment s : segment_ok s -> len (packet_of s) = 38 + len (g_options s) + len (g_rest s).
Proof. intros Hok. unfold packet_of. rewrite len_app, len_ip, len_tcp by done. lia. Qed.

(** Clamping and then translating a segment, each way. *)
Lemma translate_out s ip' port' :
  segment_ok s -> len ip' = 4 -> bytes_ok ip' -> is_u16 port' ->
  exists c s', clamp_mss (packet_of s) = Ok c /\ rewrite_tcp_outbound c ip' port' = Ok (packet_of s', true) /\
    segment_ok s' /\ g_src s' = ip' /\ g_sport s' = to_be 2 port' /\ g_dst s' = g_dst s /\ g_dport s' = g_dport s /\
    g_head s' = g_head s /\ len (packet_of s') = len (packet_of s) /\ translated with_source s s' ip' port'.
Proof.
  intros Hok Hip Bip Hp. destruct (clamp_clamped s Hok) as (c & Hc & Hok1 & Hcl).
  destruct (clamped_same s c Hcl) as (E1 & E2 & E3 & E4 & E5 & E6 & E7 & E8).
  destruct (outbound_ok _ ip' port' Hok1 Hip Bip Hp) as (cks' & sum' & Hr & Hok2 & Hh & Hv).
  do 2 eexists. split; [exact Hc|]. split; [exact Hr|]. split_and!; try done.
  - rewrite !len_segment by done. simpl. by rewrite E4, E8.
  - exists c, cks', sum'. split_and!; [done|done|done| |unfold tcp_verifies; by rewrite !tcp_sum_segment].
    intros Ho. rewrite header_verifies_plain; [exact Hh|done|]. simpl. by rewrite E4.
Qed.

Lemma translate_in s ip' port' :
  segment_ok s -> len ip' = 4 -> bytes_ok ip' -> is_u16 port' ->
  exists c s', clamp_mss (packet_of s) = Ok c /\ rewrite_tcp_inbound c ip' port' = Ok (packet_of s', true) /\
    segment_ok s' /\ g_dst s' = ip' /\ g_dport s' = to_be 2 port' /\ g_src s' = g_src s /\ g_sport s' = g_sport s /\
    g_head s' = g_head s /\ len (packet_of s') = len (packet_of s) /\ translated with_destination s s' ip' port'.
Proof.
  intros Hok Hip Bip Hp. destruct (clamp_clamped s Hok) as (c & Hc & Hok1 & Hcl).
  destruct (clamped_same s c Hcl) as (E1 & E2 & E3 & E4 & E5 & E6 & E7 & E8).
  destruct (inbound_ok _ ip' port' Hok1 Hip Bip Hp) as (cks' & sum' & Hr & Hok2 & Hh & Hv).
  do 2 eexists. split; [exact Hc|]. split; [exact Hr|]. split_and!; try done.
  - rewrite !len_segment by done. simpl. by rewrite E4, E8.
  - exists c, cks', sum'. split_and!; [done|done|done| |unfold tcp_verifies; by rewrite !tcp_sum_segment].
    intros Ho. rewrite header_verifies_plain; [exact Hh|done|]. simpl. by rewrite E4.
Qed.

(** ** Headers shorter than twenty bytes *)

Lemma at_ztake n i (l l' : bytes) : ztake n l' = ztake n l -> 0 <= i < n -> at_ i l' = at_ i l.
Proof.
  intros E Hi. unfold at_, get_at. rewrite (proj2 (Z.leb_le _ _)) by lia. f_equal.
  rewrite <- (lookup_take_lt l' (Z.to_nat n)), <- (lookup_take_lt l (Z.to_nat n)) by lia. unfold ztake in E. by rewrite E.
Qed.

(** Clamping keeps the place of the segment. *)
Lemma clamp_offset packet h :
  bytes_ok packet -> tcp_offset packet = Some h ->
  exists c, clamp_mss packet = Ok c /\ len c = len packet /\ bytes_ok c /\ tcp_offset c = Some h.
Proof.
  intros Hb Hh. destruct (clamp_mss_keeps packet Hb) as (c & Hc & Lc & Bc & Kc). exists c. split_and!; try done.
  specialize (Kc h Hh). rewrite <- Hh. pose proof (ihl_nonneg packet) as H0.
  assert (h = ihl packet) as -> by (unfold tcp_offset in Hh; repeat case_if; congruence).
  unfold tcp_offset, not_ipv4. replace (ihl c) with (ihl packet) by (unfold ihl; by rewrite !(at_ztake _ _ packet c Kc) by lia).
  by rewrite Lc, !(at_ztake _ _ packet c Kc) by lia.
Qed.

(** Translating a packet whose header is shorter than twenty bytes always panics. *)
Lemma short_rewrite a p packet ip' port' h :
  tcp_offset packet = Some h -> h < 20 -> rewrite_end a p packet ip' port' = Panic.
Proof.
  intros Ht Hh. unfold rewrite_end. rewrite Ht. unfold split_at, u16_at, slice, slice_copy, rewrite_ip_checksum, fill_zero. cbn [fst snd].
  destruct (get_range 0 h packet) as [ip|] eqn:Ei; [|done]. cbn [or_panic rbind].
  assert (len ip = h) as Li by (apply get_range_Some in Ei as (? & ? & ->); rewrite len_sub_range; lia).
  repeat match goal with |- context [or_panic ?o] =>
    let E := fresh "E" in destruct o eqn:E; cbn [or_panic rbind]; [|done] end.
  repeat match goal with E : copy_at _ _ _ _ = Some _ |- _ => apply len_copy_at in E end. unfold slice. cbn [fst snd].
  by rewrite (proj2 (get_range_None 0 IPV4_HEADER_LEN l6)) by (unfold IPV4_HEADER_LEN; lia).
Qed.
