(* ===== verification/Effects.v ===== *)
(** * Tasks

    A loop of the program owns a state, reads it and changes it, sends, and returns,
    panics or hangs.  What it sends is the list of its effects; a panic stops it.
    The notations are stdpp's for monads. *)

From S2P Require Import Prelude.

(** A step from a state to the next, what was sent on the way, and the result. *)
Definition task (S E F A : Type) : Type := S -> S * list E * res F A.

#[export] Instance eff_ret {S E F} : MRet (task S E F) := fun _ a s => (s, [], Ok a).
#[export] Instance eff_bind {S E F} : MBind (task S E F) := fun _ _ k m s =>
  let '(s, es, r) := m s in
  match r with
  | Ok a => let '(s, es', r) := k a s in (s, es ++ es', r)
  | Err e => (s, es, Err e)
  | Panic => (s, es, Panic)
  | Hang => (s, es, Hang)
  end.

(** A task without a caller has no errors. *)
Abbreviation eff S E := (task S E Empty_set).

Section Steps.
Context {S E F : Type}.

Definition emit (e : E) : task S E F unit := fun s => (s, [e], Ok tt).
Definition lift {A} (r : res F A) : task S E F A := fun s => (s, [], r).
Definition gets {A} (f : S -> A) : task S E F A := fun s => (s, [], Ok (f s)).
Definition modify (f : S -> S) : task S E F unit := fun s => (f s, [], Ok tt).

(** A [Result] the caller matches on. *)
Definition caught {G A} (r : res G A) : res F (G + A) :=
  match r with
  | Ok a => Ok (inr a)
  | Err e => Ok (inl e)
  | Panic => Panic
  | Hang => Hang
  end.

(** ** Steps that complete *)

Definition runs {A} (m : task S E F A) (s s' : S) (es : list E) (a : A) : Prop := m s = (s', es, Ok a).

Lemma runs_bind {A B} (m : task S E F A) (k : A -> task S E F B) s s1 s2 es1 es2 a b :
  runs m s s1 es1 a -> runs (k a) s1 s2 es2 b -> runs (m ≫= k) s s2 (es1 ++ es2) b.
Proof. unfold runs, mbind, eff_bind. by intros -> ->. Qed.

(** A step without effects in front. *)
Lemma runs_step {A B} (m : task S E F A) (k : A -> task S E F B) s s1 s2 es a b :
  runs m s s1 [] a -> runs (k a) s1 s2 es b -> runs (m ≫= k) s s2 es b.
Proof. apply (runs_bind m k s s1 s2 []). Qed.

(** A step without effects behind. *)
Lemma runs_then {A B} (m : task S E F A) (k : A -> task S E F B) s s1 s2 es a b :
  runs m s s1 es a -> runs (k a) s1 s2 [] b -> runs (m ≫= k) s s2 es b.
Proof. intros H1 H2. rewrite <- (app_nil_r es). by eapply runs_bind. Qed.

Lemma runs_lift {A} (r : res F A) s a : r = Ok a -> runs (lift r) s s [] a.
Proof. by intros ->. Qed.

End Steps.
