(* ===== verification/Tunnel.v ===== *)
(** * The tunnel task

    [firmware/src/tunnel.rs]: the loop that joins the WireGuard device to the
    address translation.  One task owns the device, both flow tables and the
    peer's last address; each turn takes what one socket received, or only the
    passing of time, and then lets the device's timers speak.

    The sockets and the executor are third-party code.  What a receive returned
    is an [event], what the task sends is an [effect], and the address a datagram
    came from ([udp::UdpMetadata]) is a type the task only stores and passes back.
    The clock is the sequence [clk] of the values its readings return.  The
    scratch buffers are arguments of a turn: the code never reads what an earlier
    turn left in them, so their contents are arbitrary and only their sizes
    ([scratch_ok]) matter. *)

From S2P Require Import Prelude Timers Replay Messages Crypto Noise Transport Device Gateway Effects.

Module tunnel.

Definition LISTEN_PORT : Z := 51820.
Definition POLL_INTERVAL : Z := 250.
Definition PEERS : nat := 1.

Section Tunnel.
Context `{P : Primitives}.

(** Where a datagram came from. *)
Context {Meta : Type}.

(** The value of the n-th reading of the clock, in milliseconds. *)
Context (clk : nat -> Z).

(** The build's configuration: the address echo requests are answered for, and
    the station's own address, known once DHCP has completed. *)
Context (WG_TUNNEL_IP our_ip : bytes).

(** ** State, events and effects *)

(** The filled part of [scratch.datagram] is the bytes of the event received. *)
Record Scratch := mkScratch {
  scratch_out : bytes;
  scratch_inner : bytes;
}.

Record Task := mkTask {
  device : Device;
  table : nat.table;
  tcp_table : nat.table;
  endpoint : option Meta;
  rng : bytes;      (* the bytes the generator will produce *)
  ticks : nat;      (* readings of the clock so far *)
}.

Definition with_device (s : Task) (d : Device) : Task :=
  mkTask d (table s) (tcp_table s) (endpoint s) (rng s) (ticks s).
Definition with_table (s : Task) (t : nat.table) : Task :=
  mkTask (device s) t (tcp_table s) (endpoint s) (rng s) (ticks s).
Definition with_tcp_table (s : Task) (t : nat.table) : Task :=
  mkTask (device s) (table s) t (endpoint s) (rng s) (ticks s).
Definition with_endpoint (s : Task) (e : option Meta) : Task :=
  mkTask (device s) (table s) (tcp_table s) e (rng s) (ticks s).
Definition with_rng (s : Task) (r : bytes) : Task :=
  mkTask (device s) (table s) (tcp_table s) (endpoint s) r (ticks s).
Definition with_ticks (s : Task) (n : nat) : Task :=
  mkTask (device s) (table s) (tcp_table s) (endpoint s) (rng s) n.

(** Which wait ended, with what the receive that follows returns: [None] is its
    error.  A datagram comes with its sender. *)
Inductive Ready : Type :=
| Tunnel (r : option (bytes * Meta))
| Nat (slot : nat) (r : option (bytes * Meta))
| Raw (r : option bytes)
| Timers.

(** What the task sends: to the peer, from a translation socket to a server, or
    as a raw packet. *)
Inductive effect : Type :=
| ToPeer (data : bytes) (to : Meta)
| ToUplink (slot : nat) (payload ip : bytes) (port : Z)
| RawOut (packet : bytes).

(** ** The effects of a turn *)

Definition M : Type -> Type := eff Task effect.
#[export] Instance M_ret : MRet M := eff_ret.
#[export] Instance M_bind : MBind M := eff_bind.

Definition now : M Z := fun s => (with_ticks s (S (ticks s)), [], Ok (clk (ticks s))).

(** The calls of the device, with the task's generator. *)
Definition handle_udp (datagram : bytes) (now : Z) (out : bytes) : M (Error + Action) := fun s =>
  let '(d, tape, r) := Device.handle_udp (device s) datagram now (rng s) out in
  (with_rng (with_device s d) tape, [], caught r).
Definition encapsulate (peer : PeerId) (packet : bytes) (now : Z) (out : bytes) : M (Error + Action) := fun s =>
  let (d, r) := Device.encapsulate (device s) peer packet now out in (with_device s d, [], caught r).
Definition poll_timers (now : Z) (out : bytes) : M (Error + Action) := fun s =>
  let (d, r) := Device.poll_timers (device s) now out in (with_device s d, [], caught r).

(** The calls of the flow tables. *)
Definition slot_for (k : nat.key) (now_ms : Z) : M (option nat) := fun s =>
  let (t, r) := nat.udp_slot_for (table s) k now_ms in (with_table s t, [], Ok r).
Definition tcp_slot_for (k : nat.key) (now_ms : Z) : M (option nat) := fun s =>
  let (t, r) := nat.tcp_slot_for (tcp_table s) k now_ms in (with_tcp_table s t, [], Ok r).

(** ** The handlers *)

Definition send (data : bytes) (to : Meta) : M unit := emit (ToPeer data to).

Definition encapsulate_and_send (peer : PeerId) (packet out : bytes) (to : Meta) : M unit :=
  t ← now;
  r ← encapsulate peer packet t out;
  match r with
  | inr (Send _ data) => send data to
  | _ => mret tt
  end.

(** [nat_sockets[slot]] panics when there is no such socket. *)
Definition forward_out (flow : nat.Udp4) : M unit :=
  if nat.MAX_PAYLOAD <? len (nat.u_payload flow) then mret tt else
  t ← now;
  slot ← slot_for (nat.u_src_ip flow, nat.u_src_port flow, nat.u_dst_ip flow, nat.u_dst_port flow) t;
  match slot with
  | None => mret tt
  | Some slot =>
      if nat.SLOTS <=? Z.of_nat slot then lift Panic else
      emit (ToUplink slot (nat.u_payload flow) (nat.u_dst_ip flow) (nat.u_dst_port flow))
  end.

Definition forward_tcp_out (scratch packet : bytes) (info : nat.TcpInfo) : M unit :=
  now_ms ← now;
  slot ← tcp_slot_for (nat.src_ip info, nat.src_port info, nat.dst_ip info, nat.dst_port info) now_ms;
  match slot with
  | None => mret tt
  | Some slot =>
      match get_range 0 (len packet) scratch with
      | None => mret tt
      | Some _ =>
          buffer ← lift (nat.clamp_mss packet);
          '(buffer, ok) ← lift (nat.rewrite_tcp_outbound buffer our_ip
                                  (nat.TCP_EXT_PORT_BASE + wrap 16 (Z.of_nat slot)));
          if negb ok then mret tt else
          emit (RawOut buffer) ;;
          if nat.is_rst info then modify (fun s => with_tcp_table s (nat.release (tcp_table s) slot))
          else mret tt
      end
  end.

Definition handle_tunnel_datagram (scratch : Scratch) (datagram : bytes) (from : Meta) : M unit :=
  t ← now;
  r ← handle_udp datagram t (scratch_out scratch);
  match r with
  | inr (Send _ data) => send data from
  | inr (Receive peer packet) =>
      reply ← lift (inner.icmp_echo_reply packet WG_TUNNEL_IP (scratch_inner scratch));
      match reply with
      | Some (inner, reply_len) =>
          reply ← lift (slice (0, reply_len) inner);
          encapsulate_and_send peer reply (scratch_out scratch) from
      | None =>
          flow ← lift (nat.parse_udp4 packet);
          match flow with
          | Some flow => forward_out flow
          | None =>
              info ← lift (nat.parse_tcp4 packet);
              match info with
              | Some info => forward_tcp_out (scratch_inner scratch) packet info
              | None => mret tt
              end
          end
      end
  | inr ActNone | inl _ => mret tt
  end.

(** [checked_sub(TCP_EXT_PORT_BASE).map(usize::from).filter(|slot| *slot < TCP_SLOTS)] *)
Definition slot_of_port (dst_port : Z) : option nat :=
  if dst_port <? nat.TCP_EXT_PORT_BASE then None else
  let slot := dst_port - nat.TCP_EXT_PORT_BASE in
  if slot <? nat.TCP_SLOTS then Some (Z.to_nat slot) else None.

(** The packet received fills the front of [scratch.inner] and is rewritten
    there.  The match on [encapsulate] is the body of [encapsulate_and_send]. *)
Definition handle_raw_reply (scratch : Scratch) (r : option bytes) : M unit :=
  match r with
  | None => mret tt
  | Some packet =>
      info ← lift (nat.parse_tcp4 packet);
      match info with
      | None => mret tt
      | Some info =>
          match slot_of_port (nat.dst_port info) with
          | None => mret tt
          | Some slot =>
              flow ← gets (fun s => nat.get (tcp_table s) slot);
              match flow with
              | None => mret tt
              | Some flow =>
                  to ← gets endpoint;
                  match to with
                  | None => mret tt
                  | Some to =>
                      t ← now;
                      modify (fun s => with_tcp_table s (nat.touch (tcp_table s) slot t)) ;;
                      inner ← lift (nat.clamp_mss packet);
                      '(inner, ok) ← lift (nat.rewrite_tcp_inbound inner (nat.client_ip flow) (nat.client_port flow));
                      if negb ok then mret tt else
                      encapsulate_and_send 0%nat inner (scratch_out scratch) to ;;
                      if nat.is_rst info then modify (fun s => with_tcp_table s (nat.release (tcp_table s) slot))
                      else mret tt
                  end
              end
          end
      end
  end.

Definition handle_nat_reply (scratch : Scratch) (slot : nat) (r : option (bytes * Meta)) : M unit :=
  match r with
  | None => mret tt
  | Some (datagram, _) =>
      flow ← gets (fun s => nat.get (table s) slot);
      match flow with
      | None => mret tt
      | Some flow =>
          to ← gets endpoint;
          match to with
          | None => mret tt
          | Some to =>
              t ← now;
              modify (fun s => with_table s (nat.touch (table s) slot t)) ;;
              built ← lift (nat.build_udp4 (nat.server_ip flow) (nat.server_port flow)
                              (nat.client_ip flow) (nat.client_port flow) datagram (scratch_inner scratch));
              match built with
              | None => mret tt
              | Some (inner, inner_len) =>
                  packet ← lift (slice (0, inner_len) inner);
                  encapsulate_and_send 0%nat packet (scratch_out scratch) to
              end
          end
      end
  end.

(** [while let Action::Send { data, .. } = device.poll_timers(now(), out)]: a peer
    is heard at most once, so a turn more than there are peers is enough. *)
Fixpoint timers_loop (fuel : nat) (out : bytes) : M unit :=
  match fuel with
  | O => lift Hang
  | S fuel =>
      t ← now;
      r ← poll_timers t out;
      match r with
      | inr (Send _ data) =>
          to ← gets endpoint;
          match to with
          | None => mret tt
          | Some to => send data to ;; timers_loop fuel out
          end
      | _ => mret tt
      end
  end.

(** One turn of the task's loop. *)
Definition handle_ready (scratch : Scratch) (ready : Ready) : M unit :=
  match ready with
  | Tunnel (Some (datagram, from)) =>
      modify (fun s => with_endpoint s (Some from)) ;;
      handle_tunnel_datagram scratch datagram from
  | Tunnel None => mret tt
  | Nat slot r => handle_nat_reply scratch slot r
  | Raw r => handle_raw_reply scratch r
  | Timers => mret tt
  end.

Definition turn (scratch : Scratch) (ready : Ready) : M unit :=
  handle_ready scratch ready ;; timers_loop (S PEERS) (scratch_out scratch).

(** The task from its start: the one configured peer, empty tables, no address. *)
Definition init (private_key peer_public_key rng : bytes) : out Task :=
  let (d, r) := add_peer PEERS (device_new private_key) peer_public_key None in
  match r with
  | Ok _ => Ok (mkTask d (nat.new_table nat.SLOTS) (nat.new_table nat.TCP_SLOTS) None rng 0)
  | _ => Panic
  end.

Fixpoint run (events : list (Scratch * Ready)) : M unit :=
  match events with
  | [] => mret tt
  | (scratch, ready) :: events => turn scratch ready ;; run events
  end.

End Tunnel.

Definition scratch_ok (s : Scratch) : Prop :=
  len (scratch_out s) = MAX_DATAGRAM_LEN /\ len (scratch_inner s) = INNER_MTU.

End tunnel.
