(* ===== verification/TunnelFacts.v ===== *)
(** * The tunnel task: what every turn keeps

    A weakest-precondition reading of the handlers of [Tunnel.v], and by it the
    invariant of every reachable task: both flow tables keep their size and hold
    no flow twice, the device keeps its own invariant, and before anything was
    heard there is no session.  It gives what a turn may send, that the timer loop
    ends, and the one way a turn can panic. *)

From S2P Require Import Prelude Timers Replay Messages Crypto Noise Transport Device DeviceFacts Gateway GatewayFacts GatewayTheorems GatewaySegments Effects Tunnel.
Import tunnel.

(** ** The device under the task *)

Section Timers.
Context `{P : Primitives} {POk : PrimitivesOk P}.

(** Peers with a keepalive pending. *)
Definition armed (ps : list Peer) : nat :=
  sum_list_with (fun p => match keepalive_armed_since p with Some _ => 1 | None => 0 end)%nat ps.

Lemma armed_le ps : (armed ps <= length ps)%nat.
Proof. unfold armed. induction ps as [|p ps IH]; simpl; [done|]. destruct (keepalive_armed_since p); lia. Qed.

Lemma expire_armed p now : keepalive_armed_since (expire_sessions p now) = keepalive_armed_since p.
Proof. unfold expire_sessions. by repeat case_if. Qed.

(** [poll_timers] returns an action; each one sent disarms a peer. *)
Lemma poll_from_armed ps i now out :
  exists a, snd (poll_timers_from ps i now out) = Ok a /\
    (armed (fst (poll_timers_from ps i now out)) <= armed ps)%nat /\
    forall j data, a = Send j data -> (armed (fst (poll_timers_from ps i now out)) < armed ps)%nat.
Proof.
  revert i; induction ps as [|p ps IH]; intros i; cbn [poll_timers_from]; [by exists ActNone|].
  pose proof (expire_armed p now) as Ha. set (q := expire_sessions p now) in *.
  destruct (IH (S i)) as (a & Hs & Hle & Hlt).
  destruct (poll_timers_from ps (S i) now out) as [ps' r]. simpl in Hs, Hle, Hlt. subst r.
  assert (forall q', keepalive_armed_since q' = keepalive_armed_since p ->
    exists a0, snd (q' :: ps', @Ok Error _ a) = Ok a0 /\ (armed (fst (q' :: ps', @Ok Error _ a)) <= armed (p :: ps))%nat /\
    forall j data, a0 = Send j data -> (armed (fst (q' :: ps', @Ok Error _ a)) < armed (p :: ps))%nat) as Hcont.
  { intros q' Hq'. exists a. unfold armed in *. simpl. rewrite Hq'. split_and!; [done|lia|]. intros j data Hj.
    specialize (Hlt j data Hj). lia. }
  destruct (keepalive_is_due (keepalive_armed_since q) now) eqn:Ed; cbn [negb]; [|by apply Hcont].
  destruct (current q) as [s|] eqn:Ec; [|by apply Hcont]. destruct (is_confirmed s); cbn [negb]; [|by apply Hcont].
  pose proof (seal_returns s [] out) as Hret. destruct (seal s [] out) as [s' r]. simpl in Hret.
  destruct r as [msg|e| |]; try done; [|by apply Hcont].
  exists (Send i msg). unfold armed. simpl. unfold keepalive_is_due in Ed. rewrite Ha in Ed. revert Ed.
  clear Hcont Ha. destruct (keepalive_armed_since p); [|done]. intros _. split_and!; try done; intros; lia.
Qed.

(** A peer nothing was heard from. *)
Definition quiet (p : Peer) : Prop :=
  current p = None /\ previous p = None /\ keepalive_armed_since p = None.

Lemma poll_quiet ps i now out :
  Forall quiet ps -> poll_timers_from ps i now out = (ps, Ok ActNone).
Proof.
  intros H; revert i; induction H as [|p ps (Hc & Hv & Ha) _ IH]; intros i; cbn [poll_timers_from]; [done|].
  assert (expire_sessions p now = p) as -> by (unfold expire_sessions; rewrite Hc; simpl; by rewrite Hv).
  rewrite Ha. cbn [keepalive_is_due negb]. by rewrite IH.
Qed.

Definition device_ok (d : Device) : Prop :=
  length (peers d) = PEERS /\ Forall peer_wf (peers d) /\ HandshakeBudget.wf (budget d).

Lemma later_device_ok d d' : later PEERS d d' -> device_ok d -> device_ok d'.
Proof.
  intros Hl (Hn & Hw & Hb). pose proof (later_wf PEERS d d' Hl Hw) as Hw'. destruct Hl as [_ _ _ Hbud Hcap (ps & new & E & He & _)].
  split_and!; [|done|auto]. apply Forall2_length in He. specialize (Hcap ltac:(lia)).
  rewrite E, length_app in *. lia.
Qed.

(** What [handle_udp] hands over is a packet of bytes that fits the buffer. *)
Context {PB : ByteCipher P}.

Lemma open_from_received ps i r now m out ps' j packet :
  bytes_ok m -> open_data_from ps i r now m out = (ps', Ok (Some (j, packet))) ->
  bytes_ok packet /\ len packet <= len out.
Proof.
  intros Hm; revert i ps'; induction ps as [|p ps IH]; intros i ps' H; cbn [open_data_from] in H; [done|].
  destruct (select_session _ r) as [[s b]|]; cycle 1.
  { specialize (IH (S i)). destruct (open_data_from ps (S i) r now m out) as [ps1 r1]. simplify_eq. by eapply IH. }
  destruct (open s m out) as [s' ro] eqn:Eo. destruct ro as [pt| | |]; simplify_eq.
  assert (bytes_ok pt /\ len pt <= len out) as [Bpt Lpt].
  { clear H IH. unfold open in Eo. repeat case_match; simplify_eq. bool_hyps.
    match goal with E : aead_open _ _ _ _ _ = Ok _ |- _ => rename E into Ea end.
    unfold aead_open, aead_open_nonce in Ea. case_if; [done|]. apply ok_or_Ok in Ea.
    match goal with E : get_range _ _ _ = Some _ |- _ => apply get_range_Some in E as (? & ? & ->) end.
    split; [by eapply open_bytes; [|exact Ea]; auto with tf|].
    apply len_open in Ea as ->. rewrite len_sub_range; nonneg_lens; unfold TAG_LEN in *; lia. }
  case_if; [done|]. destruct (packet_len pt) as [n|] eqn:En; [|done].
  rewrite slice_front in H by (split; [by eapply packet_len_nonneg, En|by apply packet_len_le]).
  simplify_eq/=. split; [auto with tf|]. rewrite len_ztake. nonneg_lens. lia.
Qed.

Lemma handle_udp_received d m now tape out d' tape' j packet :
  bytes_ok m -> Device.handle_udp d m now tape out = (d', tape', Ok (Receive j packet)) ->
  bytes_ok packet /\ len packet <= len out.
Proof.
  intros Hm H. unfold Device.handle_udp in H. destruct (message_type m) as [ty| | |]; try done.
  repeat case_if.
  - destruct (respond_to_initiation _ _ _ _ _) as [[? ?] r]. destruct r as [[? ?]| | |]; simplify_eq/=.
  - unfold open_data in H. case_if; [done|]. destruct (let! receiver := slice _ _ in _) as [r| | |]; try done.
    destruct (open_data_from _ _ _ _ _ _) as [ps ro] eqn:Eo. destruct ro as [[[? ?]|]| | |]; simplify_eq/=.
    by eapply open_from_received.
  - destruct (complete_handshake d m now) as [? r]. repeat case_match; by simplify_eq.
  - done.
  - done.
Qed.

End Timers.

(** ** A logic for turns *)

Section Logic.
Context {Meta : Type} (clk : nat -> Z).
Implicit Types (s : @Task Meta).

(** [wp D H E m Q s]: run on [s], [m] sends only what [E] allows, and returns a
    value with [Q], panics with [D] or hangs with [H]. *)
Definition wp {A} (D H : Prop) (E : @effect Meta -> Prop) (m : M A) (Q : A -> Task -> Prop) (s : @Task Meta) : Prop :=
  let '(s', es, r) := m s in
  Forall E es /\ match r with Ok a => Q a s' | Err e => match e with end | Panic => D | Hang => H end.

Context (D H : Prop) (E : @effect Meta -> Prop).

Lemma wp_conseq {A} (m : M A) (Q Q' : A -> Task -> Prop) s :
  wp D H E m Q s -> (forall a s', Q a s' -> Q' a s') -> wp D H E m Q' s.
Proof. unfold wp. destruct (m s) as [[s' es] r]. intros [He Hr] HQ. split; [done|]. destruct r; auto. Qed.

Lemma wp_ret {A} (a : A) (Q : A -> Task -> Prop) s : Q a s -> wp D H E (mret a) Q s.
Proof. by split. Qed.

Lemma wp_bind {A B} (m : M A) (k : A -> M B) Q s :
  wp D H E m (fun a s' => wp D H E (k a) Q s') s -> wp D H E (m ≫= k) Q s.
Proof.
  unfold wp, mbind, M_bind, eff_bind. destruct (m s) as [[s' es] r]. intros [He Hr]. destruct r as [a|e| |]; try done.
  destruct (k a s') as [[s2 es2] r2]. destruct Hr as [He2 Hr]. split; [by apply Forall_app|done].
Qed.

Lemma wp_emit (e : @effect Meta) (Q : unit -> Task -> Prop) s : E e -> Q tt s -> wp D H E (emit e) Q s.
Proof. intros. split; [by repeat constructor|done]. Qed.

Lemma wp_modify f (Q : unit -> Task -> Prop) s : Q tt (f s) -> wp D H E (modify f) Q s.
Proof. by split. Qed.

Lemma wp_gets {A} (f : Task -> A) Q s : Q (f s) s -> wp D H E (gets f) Q s.
Proof. by split. Qed.

Lemma wp_lift {A} (r : out A) a Q s : r = Ok a -> Q a s -> wp D H E (lift r) Q s.
Proof. intros -> HQ. by split. Qed.

Lemma wp_now (Q : Z -> Task -> Prop) s : Q (clk (ticks s)) (with_ticks s (S (ticks s))) -> wp D H E (now clk) Q s.
Proof. by split. Qed.

Lemma wp_panic {A} (Q : A -> Task -> Prop) s : D -> wp D H E (lift Panic) Q s.
Proof. by split. Qed.

End Logic.

(** ** The invariant *)

Definition flow_ok (f : nat.Flow) : Prop :=
  len (nat.client_ip f) = 4 /\ len (nat.server_ip f) = 4 /\ bytes_ok (nat.client_ip f) /\ bytes_ok (nat.server_ip f) /\
  is_u16 (nat.client_port f) /\ is_u16 (nat.server_port f).

Record table_ok (slots : Z) (t : nat.table) : Prop := {
  to_length : len t = slots;
  to_unique : TableFacts.unique t;
  to_flows : forall i f, nat.get t i = Some f -> flow_ok f;
}.

Definition key_ok (k : nat.key) : Prop := flow_ok (nat.flow_of k 0).

Lemma flow_ok_time k now : flow_ok (nat.flow_of k now) <-> key_ok k.
Proof. by destruct k as [[[? ?] ?] ?]. Qed.

(** Asking for a slot, touching and releasing one keep a table in order. *)
Lemma slot_for_table_ok idle slots t k now :
  table_ok slots t -> key_ok k ->
  table_ok slots (nat.slot_for idle t k now).1 /\
  forall i, (nat.slot_for idle t k now).2 = Some i ->
    Z.of_nat i < slots /\ nat.get (nat.slot_for idle t k now).1 i = Some (nat.flow_of k now).
Proof.
  intros [Hl Hu Hf] Hk. destruct (nat.slot_for idle t k now) as [t' r] eqn:Es.
  destruct (TableFacts.slot_for_spec _ _ _ _ _ _ Hu Es) as (Hu' & Hl' & Hsome & _ & _ & Hnone). cbn [fst snd].
  assert (len t' = slots) as Hlt by (unfold len in *; lia). split.
  - split; [done|done|]. intros i f Hg. destruct r as [j|].
    + destruct (Hsome j eq_refl) as [Hj Ho]. destruct (decide (i = j)) as [->|Hn].
      * rewrite Hj in Hg. injection Hg as <-. by apply flow_ok_time.
      * apply TableFacts.get_Some in Hg. rewrite Ho in Hg by done. by eapply Hf, TableFacts.get_Some.
    + destruct (Hnone eq_refl) as [-> _]. by eapply Hf.
  - intros i ->. destruct (Hsome i eq_refl) as [Hi _]. split; [|done].
    apply TableFacts.get_Some, lookup_lt_Some in Hi. unfold len in *. lia.
Qed.

Lemma touch_table_ok slots t i now : table_ok slots t -> table_ok slots (nat.touch t i now).
Proof.
  intros [Hl Hu Hf]. unfold nat.touch. destruct (t !! i) as [[f|]|] eqn:Ei; cycle 1.
  1, 2: assert (alter (fmap (λ f, nat.with_last_used f now)) i t = t) as ->;
    [apply list_eq; intros j; destruct (decide (i = j)) as [<-|]; [by rewrite list_lookup_alter_eq, Ei|by rewrite list_lookup_alter_ne]|done].
  rewrite (TableFacts.alter_insert t i f) by done. pose proof (Hf i f ltac:(by apply TableFacts.get_Some)) as Hok. split.
  - by rewrite len_insert.
  - apply TableFacts.unique_insert; [done|]. intros j g Hj Hg Hk. rewrite TableFacts.key_flow_of in Hk. apply Hj. by eapply Hu.
  - intros j g Hg%TableFacts.get_Some. apply list_lookup_insert_Some in Hg as [(<- & Hg & _)|(Hn & Hg)].
    + injection Hg as <-. exact Hok.
    + by eapply Hf, TableFacts.get_Some.
Qed.

Lemma release_table_ok slots t i : table_ok slots t -> table_ok slots (nat.release t i).
Proof.
  intros [Hl Hu Hf]. unfold nat.release. split.
  - by rewrite len_insert.
  - intros a b fa fb Ha Hb. apply list_lookup_insert_Some in Ha, Hb.
    destruct Ha as [(_ & ? & _)|[_ Ha]], Hb as [(_ & ? & _)|[_ Hb]]; try done. by eapply Hu.
  - intros j g Hg%TableFacts.get_Some. apply list_lookup_insert_Some in Hg as [(_ & ? & _)|[_ Hg]]; [done|].
    by eapply Hf, TableFacts.get_Some.
Qed.

Section Invariant.
Context `{P : Primitives} {POk : PrimitivesOk P} {PB : ByteCipher P} {Meta : Type}.
Context (clk : nat -> Z) (WG_TUNNEL_IP our_ip : bytes).
Context (Hip : len our_ip = 4) (Bip : bytes_ok our_ip).
Implicit Types (s : @Task Meta) (to : Meta).

Record task_ok (s : @Task Meta) : Prop := {
  ok_device : device_ok (device s);
  ok_table : table_ok nat.SLOTS (table s);
  ok_tcp_table : table_ok nat.TCP_SLOTS (tcp_table s);
  ok_silence : endpoint s = None -> Forall quiet (peers (device s));
}.

(** What a turn may send while the peer's address is [to]: to the peer, only
    there; to the uplink, from one of the sockets to an address and a payload
    that fits; as a raw packet, a TCP segment from our own address and one of the
    ports the TCP table translates. *)
Definition effect_ok (to : option Meta) (e : @effect Meta) : Prop :=
  match e with
  | ToPeer _ to' => to = Some to'
  | ToUplink slot payload ip port =>
      Z.of_nat slot < nat.SLOTS /\ len payload <= nat.MAX_PAYLOAD /\ len ip = 4 /\ is_u16 port
  | RawOut packet => exists (g : Segment) slot, packet = packet_of g /\ segment_ok g /\ len packet <= INNER_MTU /\
      g_src g = our_ip /\ of_be (g_sport g) = nat.TCP_EXT_PORT_BASE + slot /\ 0 <= slot < nat.TCP_SLOTS
  end.

(** The sockets deliver bytes, no more than the buffer given to them holds. *)
Definition ready_ok (r : @Ready Meta) : Prop :=
  match r with
  | Tunnel (Some (datagram, _)) | Nat _ (Some (datagram, _)) => bytes_ok datagram /\ len datagram <= 2048
  | Raw (Some packet) => bytes_ok packet /\ len packet <= INNER_MTU
  | _ => True
  end.

(** A turn changes nothing about where the peer is, except by hearing from it. *)
Definition kept (s s' : @Task Meta) : Prop := task_ok s' /\ endpoint s' = endpoint s.

Lemma kept_trans s1 s2 s3 : kept s1 s2 -> kept s2 s3 -> kept s1 s3.
Proof. unfold kept. intros [_ <-] [? ->]. done. Qed.

Lemma kept_ticks s n : task_ok s -> kept s (with_ticks s n).
Proof. intros []. by split. Qed.

Lemma kept_table s t : task_ok s -> table_ok nat.SLOTS t -> kept s (with_table s t).
Proof. intros [] ?. by split; [split|]. Qed.

Lemma kept_tcp_table s t : task_ok s -> table_ok nat.TCP_SLOTS t -> kept s (with_tcp_table s t).
Proof. intros [] ?. by split; [split|]. Qed.

Lemma kept_device s d to :
  task_ok s -> endpoint s = Some to -> later PEERS (device s) d -> kept s (with_device s d).
Proof.
  intros [Hd Ht Htt Hq] He Hl. split; [|done]. split; try done; [by eapply later_device_ok|].
  intros Hn. simpl in Hn. congruence.
Qed.

Section Handlers.
Context (D H : Prop).

Lemma wp_kept E (m : M unit) s s1 :
  kept s s1 -> wp D H E m (fun _ => kept s1) s1 -> wp D H E m (fun _ => kept s) s1.
Proof. intros Hk Hm. eapply wp_conseq; [exact Hm|]. intros ? s'. by apply kept_trans. Qed.

Lemma encapsulate_and_send_ok s peer packet o to :
  task_ok s -> endpoint s = Some to ->
  wp D H (effect_ok (endpoint s)) (encapsulate_and_send clk peer packet o to) (fun _ => kept s) s.
Proof.
  intros Hok He. unfold encapsulate_and_send. apply wp_bind, wp_now, wp_bind.
  unfold wp at 1, encapsulate. cbn [device with_ticks].
  pose proof (later_encapsulate PEERS (device s) peer packet (clk (ticks s)) o) as Hl.
  pose proof (encapsulate_safe (device s) peer packet (clk (ticks s)) o) as Hs.
  destruct (Device.encapsulate _ _ _ _ _) as [d r] eqn:Ee. cbn [fst snd] in Hl, Hs.
  assert (kept s (with_device (with_ticks s (S (ticks s))) d)) as Hk.
  { eapply kept_trans; [by apply (kept_ticks s (S (ticks s)))|]. by apply (kept_device _ _ to); [apply kept_ticks| |]. }
  split; [constructor|]. destruct r as [a|e| |]; cbn [caught]; [|by apply wp_ret|by destruct Hs|].
  - destruct a; [by apply wp_ret|apply wp_emit; [done|done]|by apply wp_ret].
  - unfold Device.encapsulate in Ee. repeat case_match; simplify_eq.
    match goal with E : seal ?s ?p ?o = _ |- _ => pose proof (seal_returns s p o) as Hr; rewrite E in Hr end. done.
Qed.

Definition udp_ok (u : nat.Udp4) : Prop :=
  key_ok (nat.u_src_ip u, nat.u_src_port u, nat.u_dst_ip u, nat.u_dst_port u).

Lemma forward_out_ok s u :
  task_ok s -> udp_ok u -> wp D H (effect_ok (endpoint s)) (forward_out clk u) (fun _ => kept s) s.
Proof.
  intros Hok Hu. unfold forward_out. case_if; [by apply wp_ret|]. bool_hyps.
  apply wp_bind, wp_now, wp_bind. unfold wp at 1, slot_for, nat.udp_slot_for.
  set (s1 := with_ticks s (S (ticks s))). assert (kept s s1) as K1 by by apply kept_ticks.
  destruct (slot_for_table_ok nat.IDLE_TIMEOUT_MS nat.SLOTS (table s1) _ (clk (ticks s)) (ok_table _ (proj1 K1)) Hu) as [Ht Hi].
  destruct (nat.slot_for _ _ _ _) as [t r]. cbn [fst snd] in Ht, Hi. split; [constructor|].
  assert (kept s (with_table s1 t)) as K2 by (eapply kept_trans; [exact K1|]; apply kept_table; [apply K1|done]).
  destruct r as [i|]; [|by apply wp_ret]. destruct (Hi i eq_refl) as [Hlt _]. case_if; bool_hyps; [lia|].
  apply wp_emit; [|done]. destruct Hu as (? & ? & _ & _ & ? & ?). done.
Qed.

Definition info_ok (i : nat.TcpInfo) : Prop :=
  key_ok (nat.src_ip i, nat.src_port i, nat.dst_ip i, nat.dst_port i).

Lemma forward_tcp_out_ok s scratch packet info :
  task_ok s -> info_ok info -> bytes_ok packet -> len scratch = INNER_MTU ->
  nat.tcp_offset packet = Some (nat.ihl packet) -> (nat.ihl packet < 20 -> D) ->
  wp D H (effect_ok (endpoint s)) (forward_tcp_out clk our_ip scratch packet info) (fun _ => kept s) s.
Proof.
  intros Hok Hi Hb Hs Ht Hd. unfold forward_tcp_out. apply wp_bind, wp_now, wp_bind. unfold wp at 1, tcp_slot_for, nat.tcp_slot_for.
  set (s1 := with_ticks s (S (ticks s))). assert (kept s s1) as K1 by by apply kept_ticks.
  destruct (slot_for_table_ok nat.TCP_IDLE_TIMEOUT_MS nat.TCP_SLOTS (tcp_table s1) _ (clk (ticks s)) (ok_tcp_table _ (proj1 K1)) Hi) as [Hto Hslot].
  destruct (nat.slot_for _ _ _ _) as [t r]. cbn [fst snd] in Hto, Hslot. split; [constructor|].
  assert (kept s (with_tcp_table s1 t)) as K2 by (eapply kept_trans; [exact K1|]; apply kept_tcp_table; [apply K1|done]).
  destruct r as [i|]; [|by apply wp_ret]. destruct (Hslot i eq_refl) as [Hlt _]. unfold nat.TCP_SLOTS in Hlt.
  destruct (get_range _ _ scratch) eqn:Eg; [|by apply wp_ret]. apply get_range_Some in Eg as (_ & Hl & _).
  unfold wrap. rewrite Z.mod_small by lia. set (port := nat.TCP_EXT_PORT_BASE + Z.of_nat i).
  assert (is_u16 port) as Hport by (unfold port, nat.TCP_EXT_PORT_BASE, is_uint; lia).
  destruct (decide (nat.ihl packet < 20)) as [Hshort|Hlong].
  - destruct (clamp_offset packet _ Hb Ht) as (c & Hc & _ & _ & Hco). apply wp_bind. eapply wp_lift; [exact Hc|].
    apply wp_bind. unfold nat.rewrite_tcp_outbound. rewrite (short_rewrite _ _ _ _ _ _ Hco Hshort). by apply wp_panic, Hd.
  - destruct (segment_of packet Ht ltac:(lia) Hb) as (g & -> & Hg); [unfold INNER_MTU in *; lia|].
    destruct (translate_out g our_ip port Hg Hip Bip Hport) as (c & g' & Hc & Hr & Hg' & Es & Ep & _ & _ & _ & Lg & _).
    apply wp_bind. eapply wp_lift; [exact Hc|]. apply wp_bind. eapply wp_lift; [exact Hr|]. cbn [negb].
    apply wp_bind, wp_emit.
    + exists g', (Z.of_nat i). rewrite Ep, of_to_be_small by exact Hport.
      split_and!; try done; unfold nat.TCP_SLOTS; lia.
    + destruct (nat.is_rst info); [|by apply wp_ret]. apply wp_modify. eapply kept_trans; [exact K2|].
      apply kept_tcp_table; [apply K2|]. by apply release_table_ok.
Qed.

Lemma parse_udp_ok packet : bytes_ok packet ->
  exists o, nat.parse_udp4 packet = Ok o /\ forall u, o = Some u -> udp_ok u.
Proof.
  intros Hb. destruct (parse_udp4_returns packet Hb) as (o & Ho & Hu). exists o. split; [done|].
  intros u Eu. by destruct (Hu u Eu) as (? & ? & ? & ? & ? & ? & ?).
Qed.

Lemma parse_tcp_ok packet : bytes_ok packet ->
  exists o, nat.parse_tcp4 packet = Ok o /\
    forall i, o = Some i -> info_ok i /\ nat.tcp_offset packet = Some (nat.ihl packet).
Proof.
  intros Hb. destruct (parse_tcp4_returns packet Hb) as (o & Ho & Hu). exists o. split; [done|].
  intros i Ei. by destruct (Hu i Ei) as (? & ? & ? & ? & ? & ? & ?).
Qed.

(** What the device makes of a datagram that arrives now. *)
Definition heard s (scratch : Scratch) (datagram : bytes) : res Error Action :=
  snd (Device.handle_udp (device s) datagram (clk (ticks s)) (rng s) (scratch_out scratch)).

Lemma handle_tunnel_datagram_ok s scratch datagram from :
  task_ok s -> endpoint s = Some from -> bytes_ok datagram -> scratch_ok scratch ->
  (heard s scratch datagram = Hang -> H) ->
  (forall peer packet, heard s scratch datagram = Ok (Receive peer packet) -> nat.ihl packet < 20 -> D) ->
  wp D H (effect_ok (endpoint s)) (handle_tunnel_datagram clk WG_TUNNEL_IP our_ip scratch datagram from) (fun _ => kept s) s.
Proof.
  intros Hok He Hb [Ho Hi] Hhang Hshort. unfold heard in *. unfold handle_tunnel_datagram.
  apply wp_bind, wp_now, wp_bind. unfold wp at 1, handle_udp. cbn [device rng with_ticks].
  pose proof (later_handle_udp PEERS (device s) datagram (clk (ticks s)) (rng s) (scratch_out scratch) Hb) as Hl.
  pose proof (handle_udp_safe (device s) datagram (clk (ticks s)) (rng s) (scratch_out scratch) Hb) as Hs.
  pose proof (handle_udp_received (device s) datagram (clk (ticks s)) (rng s) (scratch_out scratch)) as Hrecv.
  destruct (Device.handle_udp _ _ _ _ _) as [[d tape] r] eqn:Eu. cbn [fst snd] in *.
  set (s1 := with_rng (with_device (with_ticks s (S (ticks s))) d) tape).
  assert (kept s s1) as K1.
  { assert (kept s (with_device s d)) as [[] ?] by by eapply kept_device. by split; [split|]. }
  split; [constructor|]. destruct r as [a|e| |]; cbn [caught]; [|by apply wp_ret|by destruct Hs|by apply Hhang].
  destruct a as [|peer data|peer packet]; [by apply wp_ret|by apply wp_emit|].
  destruct (Hrecv _ _ _ _ Hb eq_refl) as [Bp Lp]. assert (endpoint s1 = endpoint s) as Ep by done. rewrite <- Ep in *.
  destruct (echo_reply_returns packet WG_TUNNEL_IP (scratch_inner scratch)) as (r & Hr & Hfit).
  apply wp_bind. eapply wp_lift; [exact Hr|]. destruct r as [[b n]|].
  { apply wp_bind. eapply wp_lift; [apply slice_in; [lia|..]; apply (Hfit b n eq_refl)|].
    apply (wp_kept _ _ s s1 K1), encapsulate_and_send_ok; [apply K1|done]. }
  destruct (parse_udp_ok packet Bp) as (u & Hu & Hok_u). apply wp_bind. eapply wp_lift; [exact Hu|].
  destruct u as [u|]; [apply (wp_kept _ _ s s1 K1), forward_out_ok; [apply K1|by apply Hok_u]|].
  destruct (parse_tcp_ok packet Bp) as (t & Ht & Hok_t). apply wp_bind. eapply wp_lift; [exact Ht|].
  destruct t as [t|]; [|by apply wp_ret]. destruct (Hok_t t eq_refl) as [Hinfo Hoff].
  apply (wp_kept _ _ s s1 K1), forward_tcp_out_ok; try done; [apply K1|]. by apply (Hshort peer packet).
Qed.

Lemma handle_raw_reply_ok s scratch packet :
  task_ok s -> bytes_ok packet -> len packet <= INNER_MTU -> (nat.ihl packet < 20 -> D) ->
  wp D H (effect_ok (endpoint s)) (handle_raw_reply clk scratch (Some packet)) (fun _ => kept s) s.
Proof.
  intros Hok Hb Hl Hd. unfold handle_raw_reply. assert (kept s s) as K0 by by split.
  destruct (parse_tcp_ok packet Hb) as (o & Ho & Hok_o). apply wp_bind. eapply wp_lift; [exact Ho|].
  destruct o as [info|]; [|by apply wp_ret]. destruct (Hok_o info eq_refl) as [Hinfo Hoff].
  destruct (slot_of_port (nat.dst_port info)) as [slot|]; [|by apply wp_ret].
  apply wp_bind, wp_gets. destruct (nat.get (tcp_table s) slot) as [f|] eqn:Ef; [|by apply wp_ret].
  pose proof (to_flows _ _ (ok_tcp_table _ Hok) slot f Ef) as (Lc & _ & Bc & _ & Pc & _).
  apply wp_bind, wp_gets. destruct (endpoint s) as [to|] eqn:Ee; [|by apply wp_ret].
  apply wp_bind, wp_now, wp_bind, wp_modify. set (s1 := with_tcp_table _ _).
  assert (kept s s1) as K1.
  { eapply kept_trans; [by apply (kept_ticks s (S (ticks s)))|]. apply kept_tcp_table; [by apply kept_ticks|].
    apply touch_table_ok, Hok. }
  destruct (decide (nat.ihl packet < 20)) as [Hs|Hs].
  { destruct (clamp_offset packet _ Hb Hoff) as (c & Hc & _ & _ & Hco). apply wp_bind. eapply wp_lift; [exact Hc|].
    apply wp_bind. unfold nat.rewrite_tcp_inbound. rewrite (short_rewrite _ _ _ _ _ _ Hco Hs). by apply wp_panic, Hd. }
  destruct (segment_of packet Hoff ltac:(lia) Hb) as (g & -> & Hg); [unfold INNER_MTU in *; lia|].
  destruct (translate_in g _ _ Hg Lc Bc Pc) as (c & g' & Hc & Hr & _).
  apply wp_bind. eapply wp_lift; [exact Hc|]. apply wp_bind. eapply wp_lift; [exact Hr|]. cbn [negb].
  apply wp_bind. eapply wp_conseq.
  { rewrite <- Ee. apply (encapsulate_and_send_ok s1); [apply K1|done]. }
  intros ? s' Hk. destruct (nat.is_rst info); [|by apply wp_ret; eapply kept_trans].
  apply wp_modify. eapply kept_trans; [exact K1|]. eapply kept_trans; [exact Hk|].
  apply kept_tcp_table; [apply Hk|]. apply release_table_ok, Hk.
Qed.

Lemma handle_nat_reply_ok s scratch slot datagram from :
  task_ok s -> bytes_ok datagram -> len datagram <= 2048 ->
  wp D H (effect_ok (endpoint s)) (handle_nat_reply clk scratch slot (Some (datagram, from))) (fun _ => kept s) s.
Proof.
  intros Hok Hb Hl. unfold handle_nat_reply. assert (kept s s) as K0 by by split.
  apply wp_bind, wp_gets. destruct (nat.get (table s) slot) as [f|] eqn:Ef; [|by apply wp_ret].
  pose proof (to_flows _ _ (ok_table _ Hok) slot f Ef) as (Lc & Ls & Bc & Bs & Pc & Ps).
  apply wp_bind, wp_gets. destruct (endpoint s) as [to|] eqn:Ee; [|by apply wp_ret].
  apply wp_bind, wp_now, wp_bind, wp_modify. set (s1 := with_table _ _).
  assert (kept s s1) as K1.
  { eapply kept_trans; [by apply (kept_ticks s (S (ticks s)))|]. apply kept_table; [by apply kept_ticks|].
    apply touch_table_ok, Hok. }
  destruct (decide (28 + len datagram <= len (scratch_inner scratch))) as [Hfit|Hfit].
  - destruct (udp_built (nat.server_ip f) (nat.client_ip f) datagram (scratch_inner scratch) (nat.server_port f) (nat.client_port f))
      as (packet & Hbd & Lp & _); try done; [rewrite !bytes_ok_app; done|lia|].
    apply wp_bind. eapply wp_lift; [exact Hbd|]. cbv beta iota. apply wp_bind.
    eapply wp_lift; [apply slice_in; [lia|nonneg_lens; lia|rewrite len_app; nonneg_lens; lia]|].
    apply (wp_kept _ _ s s1 K1). rewrite <- Ee. apply (encapsulate_and_send_ok s1); [apply K1|done].
  - apply wp_bind. apply (wp_lift _ _ _ _ None); [|by apply wp_ret].
    unfold nat.build_udp4, nat.IPV4_HEADER_LEN, nat.UDP_HEADER_LEN. by rewrite (proj2 (get_range_None _ _ _)) by lia.
Qed.

(** The timer loop ends: each turn that sends disarms a peer. *)
Lemma timers_loop_ok fuel s o :
  task_ok s -> (armed (peers (device s)) < fuel)%nat ->
  wp D H (effect_ok (endpoint s)) (timers_loop clk fuel o) (fun _ => kept s) s.
Proof.
  revert s; induction fuel as [|fuel IH]; intros s Hok Hf; [lia|]. cbn [timers_loop].
  apply wp_bind, wp_now, wp_bind. unfold wp at 1, poll_timers. cbn [device with_ticks].
  pose proof (later_poll_timers PEERS (device s) (clk (ticks s)) o) as Hl. unfold Device.poll_timers in *.
  destruct (poll_from_armed (peers (device s)) 0 (clk (ticks s)) o) as (a & Ha & Hle & Hlt).
  destruct (poll_timers_from _ _ _ _) as [ps r] eqn:Ep. cbn [fst snd] in *. subst r. split; [constructor|]. cbn [caught].
  set (s1 := with_device _ _).
  assert (kept s s1 /\ (endpoint s = None -> a = ActNone)) as [K1 Hnone].
  { destruct (endpoint s) as [to|] eqn:Ee.
    - split; [|done]. eapply kept_trans; [by apply (kept_ticks s (S (ticks s)))|]. by apply (kept_device _ _ to); [apply kept_ticks| |].
    - pose proof (ok_silence _ Hok Ee) as Hq. rewrite poll_quiet in Ep by done. injection Ep as <- <-. split; [|done].
      unfold s1. destruct Hok as [? ? ? ?]. by split; [split|]. }
  destruct a as [|j data|]; [by apply wp_ret| |by apply wp_ret].
  apply wp_bind, wp_gets. assert (endpoint s1 = endpoint s) as Ee by apply K1. rewrite Ee.
  destruct (endpoint s) as [to|] eqn:Es; [|by destruct (Hnone eq_refl)].
  apply wp_bind, wp_emit; [done|]. apply (wp_kept _ _ s s1 K1). rewrite <- Ee. apply IH; [apply K1|].
  specialize (Hlt j data eq_refl). simpl. lia.
Qed.

End Handlers.

(** The packet a turn takes up, if it takes one up. *)
Definition carries s (scratch : Scratch) (r : @Ready Meta) (packet : bytes) : Prop :=
  match r with
  | Tunnel (Some (datagram, _)) => exists peer, heard s scratch datagram = Ok (Receive peer packet)
  | Raw (Some p) => p = packet
  | _ => False
  end.

(** The generator ran dry while the device answered. *)
Definition starved s (scratch : Scratch) (r : @Ready Meta) : Prop :=
  match r with
  | Tunnel (Some (datagram, _)) => heard s scratch datagram = Hang
  | _ => False
  end.

(** Where the peer is once a turn has begun. *)
Definition endpoint_in s (r : @Ready Meta) : option Meta :=
  match r with Tunnel (Some (_, from)) => Some from | _ => endpoint s end.

Lemma turn_ok s scratch r :
  task_ok s -> scratch_ok scratch -> ready_ok r ->
  wp (exists packet, carries s scratch r packet /\ nat.ihl packet < 20) (starved s scratch r)
    (effect_ok (endpoint_in s r)) (turn clk WG_TUNNEL_IP our_ip scratch r)
    (fun _ s' => task_ok s' /\ endpoint s' = endpoint_in s r) s.
Proof.
  intros Hok Hsc Hr. unfold turn. apply wp_bind.
  set (s0 := match r with Tunnel (Some (_, from)) => with_endpoint s (Some from) | _ => s end).
  assert (endpoint s0 = endpoint_in s r) as E0 by (by unfold s0; destruct r as [[[? ?]|]| | |]).
  eapply (wp_conseq _ _ _ _ (fun _ s' => kept s0 s')).
  - unfold handle_ready. destruct r as [[[dg from]|]|slot [[dg from]|]|[packet|]|];
      simpl in Hr; destruct_and? Hr; rewrite <- E0; unfold s0; try (by apply wp_ret).
    + apply wp_bind, wp_modify. apply (handle_tunnel_datagram_ok _ _ (with_endpoint s (Some from))); try done.
      * by destruct Hok; split.
      * intros peer packet Hp Hi. exists packet. split; [by exists peer|done].
    + by apply handle_nat_reply_ok.
    + apply handle_raw_reply_ok; try done. intros Hi. by exists packet.
  - intros ? s' [Hok' He]. rewrite <- E0, <- He. eapply wp_conseq; [apply timers_loop_ok; [done|]|].
    + pose proof (armed_le (peers (device s'))). destruct (ok_device _ Hok') as [Hn _]. lia.
    + intros ? s'' [? ->]. done.
Qed.

(** The tasks a run can reach: started on any keys, after turns that completed. *)
Inductive reachable : @Task Meta -> Prop :=
| reach_init sk pk rng s : init sk pk rng = Ok s -> reachable s
| reach_turn s scratch r s' es :
    reachable s -> scratch_ok scratch -> ready_ok r ->
    turn clk WG_TUNNEL_IP our_ip scratch r s = (s', es, Ok tt) -> reachable s'.

Lemma new_table_ok slots : 0 <= slots -> table_ok slots (nat.new_table slots).
Proof.
  intros Hs. unfold nat.new_table.
  assert (forall (i : nat) f, replicate (Z.to_nat slots) (@None nat.Flow) !! i <> Some (Some f)) as Hn.
  { intros i f Hi. apply lookup_replicate in Hi as [Hi _]. done. }
  split.
  - rewrite len_replicate. lia.
  - intros i j f g Hi. by destruct (Hn i f).
  - intros i f Hg%TableFacts.get_Some. by destruct (Hn i f).
Qed.

Lemma init_ok sk pk rng : exists s, init sk pk rng = Ok s /\ task_ok s.
Proof.
  unfold init, add_peer, device_new. cbn [peers length]. change (0 <? PEERS)%nat with true. cbv iota.
  eexists. split; [done|]. split; simpl.
  - split_and!; [done| |unfold HandshakeBudget.wf; simpl; unfold HANDSHAKE_BURST; lia].
    repeat constructor; done.
  - by apply new_table_ok.
  - by apply new_table_ok.
  - by repeat constructor.
Qed.

Lemma reachable_ok s : reachable s -> task_ok s.
Proof.
  induction 1 as [sk pk rng s Hi|s scratch r s' es _ Hok Hsc Hr Ht].
  - destruct (init_ok sk pk rng) as (s1 & E & ?). congruence.
  - pose proof (turn_ok s scratch r Hok Hsc Hr) as Hw. unfold wp in Hw. rewrite Ht in Hw. apply Hw.
Qed.

End Invariant.
