(* ===== verification/TunnelExchange.v ===== *)
(** * Exchanges through the gateway

    The tunnel task against its peer and its uplink: a datagram of the peer
    leaves from its flow's socket and the answer comes back into the tunnel as a
    packet from the server; a segment leaves translated and its answer is
    translated back.  Both ends of the tunnel are the devices of [Device.v]. *)

From S2P Require Import Prelude Timers Replay Messages Crypto Noise Transport Device DeviceFacts DeviceConnect Gateway GatewayFacts GatewayTheorems GatewaySegments Effects Tunnel TunnelFacts.
Import tunnel.

(** ** A device with one peer *)

Section Link.
Context `{P : Primitives} {POk : PrimitivesOk P}.

(** The only peer's session, and since when its keepalive is armed. *)
Definition talks (d : Device) (s : Session) (armed : option Z) : Prop :=
  exists p, peers d = [p] /\ current p = Some s /\ keepalive_armed_since p = armed.

Definition fits (packet out : bytes) : Prop :=
  data.HEADER_LEN + next_multiple_of (len packet) PAD_TO + TAG_LEN <= len out.

Lemma mtu_fits_out packet o : len o = MAX_DATAGRAM_LEN -> len packet <= INNER_MTU -> fits packet o.
Proof.
  intros Ho Hl. unfold fits. rewrite Ho. unfold MAX_DATAGRAM_LEN. change data.HEADER_LEN with TRANSPORT_HEADER_LEN.
  enough (next_multiple_of (len packet) PAD_TO <= next_multiple_of INNER_MTU PAD_TO) by lia.
  unfold next_multiple_of, PAD_TO, INNER_MTU in *. nonneg_lens. repeat case_if; bool_hyps; Z.to_euclidean_division_equations; lia.
Qed.

Lemma talks_send d s armed packet now out :
  talks d s armed -> is_usable s now = true -> confirmed s = true -> fits packet out ->
  exists d', Device.encapsulate d 0 packet now out = (d', Ok (Send 0 (data_message s packet))) /\
    talks d' (with_send_counter s (send_counter s + 1)) None.
Proof.
  intros (p & Hp & Hc & Ha) Hu Hconf Hf. unfold Device.encapsulate. rewrite Hp. cbn [lookup list_lookup].
  rewrite (expire_usable p now s) by done. unfold is_confirmed. rewrite Hconf. cbn [negb].
  unfold is_usable in Hu. bool_hyps. rewrite seal_layout by done. eexists. split; [done|]. by eexists.
Qed.

Lemma talks_receive d sb armed s packet now tape out :
  talks d sb armed -> is_usable sb now = true -> local_index sb = peer_index s -> is_u32 (peer_index s) ->
  s_receiving sb = s_sending s -> 0 <= send_counter s < REJECT_AFTER_MESSAGES ->
  fst (ReplayWindow.accept (replay sb) (send_counter s)) = true ->
  packet_len packet = Some (len packet) -> fits packet out ->
  exists d', Device.handle_udp d (data_message s packet) now tape out = (d', tape, Ok (Receive 0 packet)) /\
    talks d' (confirm (with_replay sb (snd (ReplayWindow.accept (replay sb) (send_counter s))))) (get_or_insert armed now).
Proof.
  intros (p & Hp & Hc & Ha) Hu Hidx H32 Hk Hcnt Hf Hip Hfit. unfold fits in Hfit.
  destruct (data_message_receiver s packet H32) as (Hl & Hty & Hr).
  unfold Device.handle_udp. rewrite Hty. cbn [Z.eqb]. change (TYPE_DATA =? TYPE_INITIATION) with false.
  change (TYPE_DATA =? TYPE_DATA) with true. cbv iota. unfold open_data, data.HEADER_LEN, TAG_LEN in *.
  rewrite (proj2 (Z.ltb_ge _ _)) by lia. rewrite Hr, Hp. cbn [open_data_from]. set (q := expire_sessions p now).
  assert (current q = Some sb) as Hq by by apply expire_usable.
  assert (keepalive_armed_since q = armed) as Hqa by (unfold q; by rewrite expire_armed).
  assert (select_session q (peer_index s) = Some (sb, false)) as ->.
  { unfold select_session. rewrite Hq. by rewrite Hidx, Z.eqb_refl. }
  rewrite open_data_message by (done || lia).
  destruct (ReplayWindow.accept (replay sb) (send_counter s)) as [fresh w]; simpl in Hf. subst fresh.
  assert (len (padded_packet packet) <> 0).
  { rewrite len_padded. destruct (next_multiple_pad (len packet)) as [? _]; [apply len_nonneg|].
    intros Hz. assert (len packet = 0) as Hz'%len_zero_nil by (nonneg_lens; lia). by subst packet. }
  rewrite (proj2 (Z.eqb_neq _ _)) by done. unfold padded_packet. rewrite (packet_len_pad _ _ Hip), <- app_assoc, slice_front by (nonneg_lens; lia).
  rewrite ztake_all by lia. eexists. split; [done|]. eexists. split_and!; [done|done|]. simpl. by rewrite Hqa.
Qed.

Lemma talks_poll d s armed now out :
  talks d s armed -> is_usable s now = true -> keepalive_is_due armed now = false ->
  exists d', Device.poll_timers d now out = (d', Ok ActNone) /\ talks d' s armed.
Proof.
  intros (p & Hp & Hc & Ha) Hu Hd. unfold Device.poll_timers. rewrite Hp. cbn [poll_timers_from].
  rewrite expire_armed, Ha, Hd. cbn [negb]. eexists. split; [done|]. eexists. split_and!; [done| |].
  - by apply expire_usable.
  - by rewrite expire_armed.
Qed.

End Link.

(** ** Turns that complete *)

Section Turns.
Context `{P : Primitives} {POk : PrimitivesOk P} {Meta : Type}.
Context (clk : nat -> Z) (WG_TUNNEL_IP our_ip : bytes).
Implicit Types (s : @Task Meta) (to : Meta).

Lemma runs_now s : runs (now clk) s (with_ticks s (S (ticks s))) [] (clk (ticks s)).
Proof. done. Qed.

(** What else a step leaves alone. *)
Definition moved s s' (n : nat) : Prop :=
  table s' = table s /\ tcp_table s' = tcp_table s /\ endpoint s' = endpoint s /\ ticks s' = (n + ticks s)%nat.

Lemma moved_trans s1 s2 s3 n m : moved s1 s2 n -> moved s2 s3 m -> moved s1 s3 (m + n).
Proof. unfold moved. intros (-> & -> & -> & ->) (-> & -> & -> & ->). split_and!; try done. lia. Qed.

Lemma runs_timers s ss armed n o :
  talks (device s) ss armed -> is_usable ss (clk (ticks s)) = true -> keepalive_is_due armed (clk (ticks s)) = false ->
  exists s', runs (timers_loop clk (S n) o) s s' [] tt /\ talks (device s') ss armed /\ moved s s' 1.
Proof.
  intros Ht Hu Hd. destruct (talks_poll _ _ _ _ o Ht Hu Hd) as (d' & Hp & Ht').
  exists (with_device (with_ticks s (S (ticks s))) d'). split; [|by split].
  cbn [timers_loop]. eapply runs_step; [apply runs_now|]. eapply runs_step; [unfold runs, poll_timers; cbn [device with_ticks]; by rewrite Hp|]. done.
Qed.

Lemma runs_send s ss armed packet o to :
  talks (device s) ss armed -> is_usable ss (clk (ticks s)) = true -> confirmed ss = true -> fits packet o ->
  exists s', runs (encapsulate_and_send clk 0 packet o to) s s' [ToPeer (data_message ss packet) to] tt /\
    talks (device s') (with_send_counter ss (send_counter ss + 1)) None /\ moved s s' 1.
Proof.
  intros Ht Hu Hc Hf. destruct (talks_send _ _ _ _ _ o Ht Hu Hc Hf) as (d' & He & Ht').
  exists (with_device (with_ticks s (S (ticks s))) d'). split; [|by split].
  unfold encapsulate_and_send. eapply runs_step; [apply runs_now|].
  eapply runs_step; [unfold runs, encapsulate; cbn [device with_ticks]; by rewrite He|]. done.
Qed.

(** The packet of a data message, once the device has handed it over. *)
Lemma runs_receive s sb armed sa packet o :
  talks (device s) sb armed -> is_usable sb (clk (ticks s)) = true -> local_index sb = peer_index sa ->
  is_u32 (peer_index sa) -> s_receiving sb = s_sending sa -> 0 <= send_counter sa < REJECT_AFTER_MESSAGES ->
  fst (ReplayWindow.accept (replay sb) (send_counter sa)) = true ->
  packet_len packet = Some (len packet) -> fits packet o ->
  exists s', runs (handle_udp (data_message sa packet) (clk (ticks s)) o) (with_ticks s (S (ticks s))) s' []
      (inr (Receive 0 packet)) /\
    talks (device s') (confirm (with_replay sb (snd (ReplayWindow.accept (replay sb) (send_counter sa)))))
      (get_or_insert armed (clk (ticks s))) /\ moved s s' 1.
Proof.
  intros Ht Hu Hi H32 Hk Hc Hf Hip Hfit.
  destruct (talks_receive _ _ _ sa packet _ (rng s) o Ht Hu Hi H32 Hk Hc Hf Hip Hfit) as (d' & Hh & Ht').
  exists (with_rng (with_device (with_ticks s (S (ticks s))) d') (rng s)). split; [|by split].
  unfold runs, handle_udp. cbn [device rng with_ticks]. by rewrite Hh.
Qed.

(** A datagram of another protocol is no echo request. *)
Lemma not_echo packet ip o : 20 <= len packet -> at_ 9 packet <> inner.PROTO_ICMP -> inner.icmp_echo_reply packet ip o = Ok None.
Proof.
  intros Hl H9. unfold inner.icmp_echo_reply. rewrite (proj2 (Z.eqb_neq _ _) H9). by case_if.
Qed.

Lemma udp_not_echo packet u ip o : nat.parse_udp4 packet = Ok (Some u) -> inner.icmp_echo_reply packet ip o = Ok None.
Proof.
  unfold nat.parse_udp4. destruct (nat.not_ipv4 _ packet) eqn:E; [done|]. apply not_ipv4_false in E as [? H9].
  intros _. by apply not_echo; [|rewrite H9].
Qed.

Lemma tcp_not_udp g : segment_ok g ->
  nat.parse_udp4 (packet_of g) = Ok None /\ forall ip o, inner.icmp_echo_reply (packet_of g) ip o = Ok None.
Proof.
  intros Hg. pose proof (so_proto _ Hg) as H9. split.
  - unfold nat.parse_udp4. destruct (nat.not_ipv4 nat.PROTO_UDP (packet_of g)) eqn:E; [done|].
    apply not_ipv4_false in E as [_ E]. by rewrite H9 in E.
  - intros ip o. apply not_echo; [|by rewrite H9]. unfold packet_of. rewrite len_app, (SegmentFacts.len_ip g Hg).
    nonneg_lens. lia.
Qed.

(** The length an IPv4 packet declares. *)
Lemma packet_len_ipv4 packet :
  4 <= len packet -> Z.shiftr (at_ 0 packet) 4 = IPV4 ->
  packet_len packet = let n := of_be (sub_range 2 4 packet) in if n <=? len packet then Some n else None.
Proof.
  intros Hl Hv. unfold packet_len. destruct (get_at_is_Some 0 packet) as [b Hb]; [lia|]. unfold at_ in Hv. rewrite Hb in *.
  simpl in Hv. rewrite Hv. cbn [Z.eqb Pos.eqb IPV4]. by rewrite get_range_in by lia.
Qed.

Lemma packet_len_head g g' :
  segment_ok g -> segment_ok g' -> g_head g' = g_head g -> len (packet_of g') = len (packet_of g) ->
  packet_len (packet_of g') = packet_len (packet_of g).
Proof.
  intros Hg Hg' Hh Hl. assert (forall x, segment_ok x -> 20 <= len (packet_of x)) as H20.
  { intros x Hx. unfold packet_of. rewrite len_app, (SegmentFacts.len_ip x Hx). nonneg_lens. lia. }
  assert (forall x, segment_ok x -> sub_range 2 4 (packet_of x) = sub_range 2 4 (g_head x)) as Hs.
  { intros x Hx. pose proof (so_lengths _ Hx) as Hls. injection Hls; intros. unfold packet_of, ip_fields. cbn [concat].
    rewrite <- app_assoc. pose proof (get_range_app 2 4 (g_head x) (g_cks x ++ (concat [g_src x; g_dst x; g_options x]) ++ concat (tcp_fields x))) as Hga.
    rewrite !get_range_in in Hga by (rewrite ?len_app; nonneg_lens; lia). cbn [concat] in Hga. rewrite <- !app_assoc in *. by injection (Hga ltac:(lia)). }
  rewrite !packet_len_ipv4; [by rewrite !Hs, Hh, Hl|specialize (H20 g Hg); lia|apply Hg|specialize (H20 g' Hg'); lia|apply Hg'].
Qed.

(** ** The ways through *)

Section Ways.
Context (sa sb : Session) (ab : option Z) (scratch : Scratch).
Context (Hsc : scratch_ok scratch).
Context (Hidx : local_index sb = peer_index sa) (H32 : is_u32 (peer_index sa)).
Context (Hkey : s_receiving sb = s_sending sa) (Hcnt : 0 <= send_counter sa < REJECT_AFTER_MESSAGES).
Context (Hfresh : fst (ReplayWindow.accept (replay sb) (send_counter sa)) = true).

(** The gateway's session once it has heard the message. *)
Let sb' : Session := confirm (with_replay sb (snd (ReplayWindow.accept (replay sb) (send_counter sa)))).

Lemma usable_heard now : is_usable sb' now = is_usable sb now.
Proof. done. Qed.

Lemma mtu_fits packet : len packet <= INNER_MTU -> fits packet (scratch_out scratch).
Proof using Hsc. intros Hl. apply mtu_fits_out; [apply Hsc|done]. Qed.

(** Outward: a datagram. *)
Lemma turn_udp_out s packet u slot from :
  talks (device s) sb ab -> (forall i, (i < 3)%nat -> is_usable sb (clk (i + ticks s)%nat) = true) ->
  keepalive_is_due (get_or_insert ab (clk (ticks s))) (clk (2 + ticks s)%nat) = false ->
  packet_len packet = Some (len packet) -> len packet <= INNER_MTU ->
  nat.parse_udp4 packet = Ok (Some u) -> len (nat.u_payload u) <= nat.MAX_PAYLOAD -> Z.of_nat slot < nat.SLOTS ->
  let k := (nat.u_src_ip u, nat.u_src_port u, nat.u_dst_ip u, nat.u_dst_port u) in
  (nat.udp_slot_for (table s) k (clk (1 + ticks s)%nat)).2 = Some slot ->
  exists s', runs (turn clk WG_TUNNEL_IP our_ip scratch (Tunnel (Some (data_message sa packet, from)))) s s'
      [ToUplink slot (nat.u_payload u) (nat.u_dst_ip u) (nat.u_dst_port u)] tt /\
    talks (device s') sb' (get_or_insert ab (clk (ticks s))) /\ endpoint s' = Some from /\
    table s' = (nat.udp_slot_for (table s) k (clk (1 + ticks s)%nat)).1 /\ ticks s' = (3 + ticks s)%nat.
Proof using POk Hsc Hidx H32 Hkey Hcnt Hfresh.
  intros Ht Hu Hd Hip Hmtu Hp Hpl Hslot k Hk. set (s0 := with_endpoint s (Some from)).
  destruct (runs_receive s0 sb ab sa packet (scratch_out scratch)) as (s1 & R1 & T1 & M1a & M1b & M1c & M1d); try done.
  { apply (Hu 0%nat). lia. } { by apply mtu_fits. }
  destruct (nat.udp_slot_for (table s) k _) as [t' r] eqn:Es. simpl in Hk. subst r.
  set (s2 := with_table (with_ticks s1 (S (ticks s1))) t').
  assert (runs (slot_for k (clk (ticks s1))) (with_ticks s1 (S (ticks s1))) s2 [] (Some slot)) as R2.
  { unfold runs, slot_for. cbn [table with_ticks]. rewrite M1a.
    replace (clk (ticks s1)) with (clk (1 + ticks s)%nat) by (by rewrite M1d). change (table s0) with (table s). by rewrite Es. }
  destruct (runs_timers s2 sb' (get_or_insert ab (clk (ticks s))) PEERS (scratch_out scratch)) as (s3 & R3 & T3 & M3a & M3b & M3c & M3d).
  { exact T1. } { rewrite usable_heard. simpl. rewrite M1d. apply (Hu 2%nat). lia. } { simpl. by rewrite M1d. }
  exists s3. split; [|split_and!; [done|rewrite M3c; done|by rewrite M3a|rewrite M3d; simpl; rewrite M1d; done]].
  unfold turn. eapply runs_then; [|exact R3]. unfold handle_ready.
  eapply runs_step; [done|]. unfold handle_tunnel_datagram. eapply runs_step; [apply runs_now|]. eapply runs_step; [exact R1|].
  cbv iota. eapply runs_step; [apply runs_lift; by eapply udp_not_echo|]. cbv iota.
  eapply runs_step; [by apply runs_lift|]. cbv iota. unfold forward_out.
  rewrite (proj2 (Z.ltb_ge _ _)) by done. eapply runs_step; [apply runs_now|].
  eapply runs_step; [exact R2|]. cbv iota. by rewrite (proj2 (Z.leb_gt _ _)).
Qed.

(** Outward: a segment that is no reset. *)
Lemma turn_tcp_out s g slot from :
  talks (device s) sb ab -> (forall i, (i < 3)%nat -> is_usable sb (clk (i + ticks s)%nat) = true) ->
  keepalive_is_due (get_or_insert ab (clk (ticks s))) (clk (2 + ticks s)%nat) = false ->
  len our_ip = 4 -> bytes_ok our_ip ->
  packet_len (packet_of g) = Some (len (packet_of g)) -> len (packet_of g) <= INNER_MTU ->
  segment_ok g -> nat.is_rst (info_of g) = false -> Z.of_nat slot < nat.TCP_SLOTS ->
  let k := (g_src g, of_be (g_sport g), g_dst g, of_be (g_dport g)) in
  (nat.tcp_slot_for (tcp_table s) k (clk (1 + ticks s)%nat)).2 = Some slot ->
  exists s' g', runs (turn clk WG_TUNNEL_IP our_ip scratch (Tunnel (Some (data_message sa (packet_of g), from)))) s s'
      [RawOut (packet_of g')] tt /\
    segment_ok g' /\ g_src g' = our_ip /\ g_sport g' = to_be 2 (nat.TCP_EXT_PORT_BASE + Z.of_nat slot) /\
    g_dst g' = g_dst g /\ g_dport g' = g_dport g /\
    translated with_source g g' our_ip (nat.TCP_EXT_PORT_BASE + Z.of_nat slot) /\
    talks (device s') sb' (get_or_insert ab (clk (ticks s))) /\ endpoint s' = Some from /\
    tcp_table s' = (nat.tcp_slot_for (tcp_table s) k (clk (1 + ticks s)%nat)).1 /\ ticks s' = (3 + ticks s)%nat.
Proof using POk Hsc Hidx H32 Hkey Hcnt Hfresh.
  intros Ht Hu Hd Lip Bip Hip Hmtu Hg Hrst Hslot k Hk. set (s0 := with_endpoint s (Some from)).
  destruct (runs_receive s0 sb ab sa (packet_of g) (scratch_out scratch)) as (s1 & R1 & T1 & M1a & M1b & M1c & M1d); try done.
  { apply (Hu 0%nat). lia. } { by apply mtu_fits. }
  destruct (nat.tcp_slot_for (tcp_table s) k _) as [t' r] eqn:Es. simpl in Hk. subst r.
  set (s2 := with_tcp_table (with_ticks s1 (S (ticks s1))) t').
  assert (runs (tcp_slot_for k (clk (ticks s1))) (with_ticks s1 (S (ticks s1))) s2 [] (Some slot)) as R2.
  { unfold runs, tcp_slot_for. cbn [tcp_table with_ticks]. rewrite M1b.
    replace (clk (ticks s1)) with (clk (1 + ticks s)%nat) by (by rewrite M1d).
    change (tcp_table s0) with (tcp_table s). by rewrite Es. }
  destruct (runs_timers s2 sb' (get_or_insert ab (clk (ticks s))) PEERS (scratch_out scratch)) as (s3 & R3 & T3 & M3a & M3b & M3c & M3d).
  { exact T1. } { rewrite usable_heard. simpl. rewrite M1d. apply (Hu 2%nat). lia. } { simpl. by rewrite M1d. }
  unfold nat.TCP_SLOTS in Hslot. set (port := nat.TCP_EXT_PORT_BASE + Z.of_nat slot).
  destruct (translate_out g our_ip port Hg Lip Bip) as (c & g' & Hc & Hr & Hg' & E1 & E2 & E3 & E4 & _ & _ & E6).
  { unfold port, nat.TCP_EXT_PORT_BASE, is_uint. lia. }
  exists s3, g'. split; [|split_and!; try done;
    first [by rewrite M3c | by rewrite M3b | rewrite M3d; simpl; by rewrite M1d]].
  unfold turn. eapply runs_then; [|exact R3]. unfold handle_ready. eapply runs_step; [done|].
  unfold handle_tunnel_datagram. eapply runs_step; [apply runs_now|]. eapply runs_step; [exact R1|].
  destruct (tcp_not_udp g Hg) as [Hnu Hne]. cbv iota. eapply runs_step; [apply runs_lift, Hne|]. cbv iota.
  eapply runs_step; [apply runs_lift, Hnu|]. cbv iota. eapply runs_step; [apply runs_lift, parse_segment, Hg|]. cbv iota.
  unfold forward_tcp_out. eapply runs_step; [apply runs_now|]. eapply runs_step; [exact R2|]. cbv iota.
  destruct Hsc as [_ Hin]. rewrite get_range_in by (nonneg_lens; lia). unfold wrap. rewrite Z.mod_small by lia.
  eapply runs_step; [apply runs_lift, Hc|]. eapply runs_step; [apply runs_lift, Hr|]. cbn [negb]. rewrite Hrst.
  by eapply runs_then.
Qed.

End Ways.

(** Inward. *)
Section Replies.
Context (ss : Session) (armed : option Z) (scratch : Scratch).
Context (Hsc : scratch_ok scratch) (Hconf : confirmed ss = true).

Lemma usable_sealed now : send_counter ss + 1 < REJECT_AFTER_MESSAGES ->
  is_usable ss now = true -> is_usable (with_send_counter ss (send_counter ss + 1)) now = true.
Proof. clear. intros Hc Hu. unfold is_usable in *. simpl. bool_hyps. rewrite H. simpl. apply Z.ltb_lt. lia. Qed.

(** The answer to a datagram, whoever sent it. *)
Lemma turn_nat_reply s slot f answer sender to :
  talks (device s) ss armed -> (forall i, (i < 3)%nat -> is_usable ss (clk (i + ticks s)%nat) = true) ->
  send_counter ss + 1 < REJECT_AFTER_MESSAGES ->
  endpoint s = Some to -> nat.get (table s) slot = Some f -> flow_ok f ->
  bytes_ok answer -> 28 + len answer <= INNER_MTU ->
  exists s' packet, runs (turn clk WG_TUNNEL_IP our_ip scratch (Nat slot (Some (answer, sender)))) s s'
      [ToPeer (data_message ss packet) to] tt /\
    nat.parse_udp4 packet = Ok (Some (nat.mkUdp4 (nat.server_ip f) (nat.client_ip f) (nat.server_port f) (nat.client_port f) answer)) /\
    header_verifies packet = true /\ Ones.verifies (udp_sum packet) = true /\
    packet_len packet = Some (len packet) /\ len packet <= INNER_MTU.
Proof using POk Hsc Hconf.
  intros Ht Hu Hc He Hf (Lc & Ls & Bc & Bs & Pc & Ps) Hb Hl. unfold INNER_MTU in Hl.
  destruct (udp_built (nat.server_ip f) (nat.client_ip f) answer (scratch_inner scratch) (nat.server_port f) (nat.client_port f))
    as (packet & Hbd & Lp & Hparse & Hh & Hv & _ & tl & Htl); try done.
  { rewrite !bytes_ok_app. done. } { lia. } { destruct Hsc as [_ ->]. unfold INNER_MTU. lia. }
  set (s1 := with_table (with_ticks s (S (ticks s))) (nat.touch (table s) slot (clk (ticks s)))).
  destruct (runs_send s1 ss armed packet (scratch_out scratch) to) as (s2 & R2 & T2 & M2a & M2b & M2c & M2d); try done.
  { apply (Hu 1%nat). lia. } { apply mtu_fits; [done|]. unfold INNER_MTU. lia. }
  destruct (runs_timers s2 (with_send_counter ss (send_counter ss + 1)) None PEERS (scratch_out scratch)) as (s3 & R3 & _); try done.
  { apply usable_sealed; [done|]. rewrite M2d. apply (Hu 2%nat). lia. }
  exists s3, packet. split; [|split_and!; try done].
  - unfold turn. eapply runs_then; [|exact R3]. unfold handle_ready, handle_nat_reply.
    eapply runs_step; [done|]. cbv beta. rewrite Hf. cbv iota. eapply runs_step; [done|]. rewrite He. cbv iota.
    eapply runs_step; [apply runs_now|]. eapply runs_step; [done|]. eapply runs_step; [apply runs_lift, Hbd|]. cbv iota.
    eapply runs_step; [apply runs_lift, slice_in; [lia|nonneg_lens; lia|rewrite len_app; nonneg_lens; lia]|].
    replace (sub_range 0 (len packet) _) with packet; [exact R2|].
    unfold sub_range. rewrite Z.sub_0_r, (zdrop_0 0) by lia. by rewrite ztake_app_len.
  - rewrite packet_len_ipv4; [|nonneg_lens; lia|by rewrite Htl].
    replace (sub_range 2 4 packet) with (to_be 2 (len packet)).
    + cbv zeta. by rewrite of_to_be_small, Z.leb_refl by (nonneg_lens; lia).
    + rewrite Lp, Htl. symmetry. by apply (sub_range_mid 2 4 [0x45; 0]).
  - unfold INNER_MTU. lia.
Qed.

(** The answer to a segment. *)
Lemma turn_raw_reply s slot f g to :
  talks (device s) ss armed -> (forall i, (i < 3)%nat -> is_usable ss (clk (i + ticks s)%nat) = true) ->
  send_counter ss + 1 < REJECT_AFTER_MESSAGES ->
  endpoint s = Some to -> nat.get (tcp_table s) slot = Some f -> flow_ok f -> Z.of_nat slot < nat.TCP_SLOTS ->
  segment_ok g -> of_be (g_dport g) = nat.TCP_EXT_PORT_BASE + Z.of_nat slot -> len (packet_of g) <= INNER_MTU ->
  exists s' g', runs (turn clk WG_TUNNEL_IP our_ip scratch (Raw (Some (packet_of g)))) s s'
      [ToPeer (data_message ss (packet_of g')) to] tt /\
    segment_ok g' /\ g_src g' = g_src g /\ g_sport g' = g_sport g /\
    g_dst g' = nat.client_ip f /\ g_dport g' = to_be 2 (nat.client_port f) /\
    translated with_destination g g' (nat.client_ip f) (nat.client_port f) /\
    packet_len (packet_of g') = packet_len (packet_of g) /\ len (packet_of g') = len (packet_of g).
Proof using POk Hsc Hconf.
  intros Ht Hu Hc He Hf (Lc & _ & Bc & _ & Pc & _) Hslot Hg Hport Hl. unfold nat.TCP_SLOTS in Hslot.
  destruct (translate_in g _ _ Hg Lc Bc Pc) as (c & g' & Hcl & Hr & Hg' & E1 & E2 & E3 & E4 & E5 & Lg & E7).
  set (s1 := with_tcp_table (with_ticks s (S (ticks s))) (nat.touch (tcp_table s) slot (clk (ticks s)))).
  destruct (runs_send s1 ss armed (packet_of g') (scratch_out scratch) to) as (s2 & R2 & T2 & M2a & M2b & M2c & M2d); try done.
  { apply (Hu 1%nat). lia. } { apply mtu_fits; [done|]. lia. }
  set (s2' := if nat.is_rst (info_of g) then with_tcp_table s2 (nat.release (tcp_table s2) slot) else s2).
  destruct (runs_timers s2' (with_send_counter ss (send_counter ss + 1)) None PEERS (scratch_out scratch)) as (s3 & R3 & _); try done.
  { unfold s2'. by case_if. } { unfold s2'. apply usable_sealed; [done|].
    replace (ticks _) with (2 + ticks s)%nat by (case_if; simpl; by rewrite M2d). apply (Hu 2%nat). lia. }
  exists s3, g'. split; [|split_and!; try done; by apply packet_len_head].
  unfold turn. eapply runs_then; [|exact R3]. unfold handle_ready, handle_raw_reply.
  eapply runs_step; [apply runs_lift, parse_segment, Hg|]. cbv iota.
  assert (slot_of_port (nat.dst_port (info_of g)) = Some slot) as ->.
  { unfold slot_of_port. cbn [info_of nat.dst_port]. rewrite Hport, (proj2 (Z.ltb_ge _ _)) by lia.
    replace (_ + _ - _) with (Z.of_nat slot) by lia. unfold nat.TCP_SLOTS. rewrite (proj2 (Z.ltb_lt _ _)) by lia. by rewrite Nat2Z.id. }
  eapply runs_step; [done|]. cbv beta. rewrite Hf. cbv iota. eapply runs_step; [done|]. rewrite He. cbv iota.
  eapply runs_step; [apply runs_now|]. eapply runs_step; [done|]. eapply runs_step; [apply runs_lift, Hcl|].
  eapply runs_step; [apply runs_lift, Hr|]. cbn [negb]. eapply runs_then; [exact R2|]. unfold s2'. by case_if.
Qed.

End Replies.
End Turns.
