(* ===== verification/TunnelTheorems.v ===== *)
(** * The tunnel task: the properties

    What every turn of a reachable task may do, and the exchanges that go through
    it.  [TunnelFacts.v] and [TunnelExchange.v] carry the proofs. *)

From S2P Require Import Prelude Timers Replay Messages Crypto Noise Transport Device DeviceFacts DeviceConnect Gateway GatewayFacts GatewayTheorems GatewaySegments Effects Tunnel TunnelFacts TunnelExchange.
Import tunnel.

Section Theorems.
Context `{P : Primitives} {POk : PrimitivesOk P} {Meta : Type}.
Context (clk : nat -> Z) (WG_TUNNEL_IP our_ip : bytes).
Implicit Types (s : @Task Meta) (from : Meta).

(** C9: What every turn of the task keeps, and all it can send.  From any reachable
    task, whatever the sockets deliver: the tables keep their 4 and 16 slots, hold
    no flow twice and only well-formed flows, the device keeps its invariant, and
    as long as no datagram arrived there is no session (so no keepalive is polled
    and then dropped for want of an address).  What is sent to the peer goes to the
    source of the last datagram that arrived on the tunnel's socket, this turn's
    included, which nothing has authenticated; what leaves from a socket fits it; a
    raw packet is a TCP segment from the station's own address and one of the
    sixteen translated ports.  A turn ends (the timer loop does), unless the
    generator runs out of bytes while an index is drawn, and it panics only on a
    packet whose header length field is below twenty bytes. *)
Theorem gateway_turn_safe {PB : ByteCipher P} (s s' : @Task Meta) (scratch : Scratch) (r : @Ready Meta)
    (es : list effect) (result : out unit) :
  len our_ip = 4 -> bytes_ok our_ip -> reachable clk WG_TUNNEL_IP our_ip s ->
  scratch_ok scratch -> ready_ok r -> turn clk WG_TUNNEL_IP our_ip scratch r s = (s', es, result) ->
  task_ok s /\ Forall (effect_ok our_ip (endpoint_in s r)) es /\
  (result = Ok tt -> task_ok s' /\ endpoint s' = endpoint_in s r) /\
  (result = Panic -> exists packet, carries clk s scratch r packet /\ nat.ihl packet < 20) /\
  (result = Hang -> starved clk s scratch r).
Proof.
  intros Hip Bip Hr Hsc Hrd Ht. pose proof (reachable_ok clk WG_TUNNEL_IP our_ip Hip Bip s Hr) as Hok.
  pose proof (turn_ok clk WG_TUNNEL_IP our_ip Hip Bip s scratch r Hok Hsc Hrd) as Hw. unfold wp in Hw. rewrite Ht in Hw.
  destruct Hw as [He Hw]. split_and!; [done|done|..]; intros ->; done.
Qed.

(** The two ends of a tunnel: sessions that mirror each other, neither of which
    has heard the other's next message. *)
Record paired (sa sb : Session) : Prop := {
  pair_ab : local_index sb = peer_index sa;
  pair_ba : local_index sa = peer_index sb;
  pair_index_a : is_u32 (peer_index sa);
  pair_index_b : is_u32 (peer_index sb);
  pair_key_ab : s_receiving sb = s_sending sa;
  pair_key_ba : s_receiving sa = s_sending sb;
  pair_count_a : 0 <= send_counter sa < REJECT_AFTER_MESSAGES - 1;
  pair_count_b : 0 <= send_counter sb < REJECT_AFTER_MESSAGES - 1;
  pair_fresh_b : fst (ReplayWindow.accept (replay sb) (send_counter sa)) = true;
  pair_fresh_a : fst (ReplayWindow.accept (replay sa) (send_counter sb)) = true;
}.

(** A peer and the gateway in a tunnel that is alive from [t] to [t'] for the peer
    and for the next six readings of the clock for the gateway. *)
Record tunnelled (d : Device) (s : @Task Meta) (sa sb : Session) (t t' : Z) : Prop := {
  tun_peer : exists armed, talks d sa armed;
  tun_gateway : exists armed, talks (device s) sb armed /\
    keepalive_is_due (get_or_insert armed (clk (ticks s))) (clk (2 + ticks s)%nat) = false;
  tun_paired : paired sa sb;
  tun_confirmed : confirmed sa = true;
  tun_alive_a : session_is_alive (established sa) t = true /\ session_is_alive (established sa) t' = true;
  tun_alive_b : forall i, (i < 6)%nat -> session_is_alive (established sb) (clk (i + ticks s)%nat) = true;
}.

Lemma tunnelled_usable d s sa sb t t' :
  tunnelled d s sa sb t t' -> is_usable sa t = true /\
  is_usable (with_send_counter sa (send_counter sa + 1)) t' = true /\
  forall i, (i < 6)%nat -> is_usable sb (clk (i + ticks s)%nat) = true.
Proof.
  intros [_ _ [] _ [Ha Ha'] Hb]. unfold is_usable. simpl. rewrite Ha, Ha'. simpl.
  split_and!; [apply Z.ltb_lt; lia|apply Z.ltb_lt; lia|]. intros i Hi. rewrite Hb by done. simpl. apply Z.ltb_lt. lia.
Qed.

(** What the gateway's session is after the peer's message, and how the peer reads
    the gateway's next one. *)
Definition after_hearing (sa sb : Session) : Session :=
  confirm (with_replay sb (snd (ReplayWindow.accept (replay sb) (send_counter sa)))).

Lemma peer_reads d' sa sb packet t' tape out :
  paired sa sb -> talks d' (with_send_counter sa (send_counter sa + 1)) None ->
  is_usable (with_send_counter sa (send_counter sa + 1)) t' = true ->
  packet_len packet = Some (len packet) -> fits packet out ->
  snd (Device.handle_udp d' (data_message (after_hearing sa sb) packet) t' tape out) = Ok (Receive 0 packet).
Proof.
  intros [] Ht Hu Hip Hf.
  destruct (talks_receive d' _ None (after_hearing sa sb) packet t' tape out Ht Hu) as (d2 & -> & _); try done.
  simpl. lia.
Qed.

Lemma out_fits packet out : len packet <= INNER_MTU -> MAX_DATAGRAM_LEN <= len out -> fits packet out.
Proof.
  intros Hp Ho. unfold fits. pose proof (mtu_fits (mkScratch (zeros MAX_DATAGRAM_LEN) (zeros INNER_MTU)) ltac:(by split) packet Hp) as Hf.
  unfold fits in Hf. simpl in Hf. rewrite len_zeros in Hf. change (Z.max 0 MAX_DATAGRAM_LEN) with MAX_DATAGRAM_LEN in Hf. lia.
Qed.

(** C10: A datagram goes out and its answer comes back.  The peer seals a UDP
    datagram into the tunnel; the gateway, in one turn, sends its payload from the
    socket of the flow's slot to the datagram's destination and nothing else.
    Whatever then arrives on that socket (up to the tunnel's MTU), the gateway, in
    one turn, sends one message to the address the peer was heard from, and the
    peer's device opens it to a well-formed UDP packet: from the server it
    addressed, to the port it used, with the answer as payload and both checksums
    valid. *)
Theorem udp_exchange (da : Device) (g : @Task Meta) (sa sb : Session) (t t' : Z) (packet answer : bytes)
    (u : nat.Udp4) (slot : nat) (from server : Meta) (scr1 scr2 : Scratch) (out1 out2 tape : bytes) :
  let k := (nat.u_src_ip u, nat.u_src_port u, nat.u_dst_ip u, nat.u_dst_port u) in
  tunnelled da g sa sb t t' -> table_ok nat.SLOTS (table g) -> scratch_ok scr1 -> scratch_ok scr2 ->
  MAX_DATAGRAM_LEN <= len out1 -> MAX_DATAGRAM_LEN <= len out2 ->
  bytes_ok packet -> packet_len packet = Some (len packet) -> len packet <= INNER_MTU ->
  nat.parse_udp4 packet = Ok (Some u) -> len (nat.u_payload u) <= nat.MAX_PAYLOAD ->
  (nat.udp_slot_for (table g) k (clk (1 + ticks g)%nat)).2 = Some slot ->
  bytes_ok answer -> 28 + len answer <= INNER_MTU ->
  exists da' sealed g1 g2 sealed' reply,
    Device.encapsulate da 0 packet t out1 = (da', Ok (Send 0 sealed)) /\
    turn clk WG_TUNNEL_IP our_ip scr1 (Tunnel (Some (sealed, from))) g =
      (g1, [ToUplink slot (nat.u_payload u) (nat.u_dst_ip u) (nat.u_dst_port u)], Ok tt) /\
    turn clk WG_TUNNEL_IP our_ip scr2 (Nat slot (Some (answer, server))) g1 = (g2, [ToPeer sealed' from], Ok tt) /\
    snd (Device.handle_udp da' sealed' t' tape out2) = Ok (Receive 0 reply) /\
    nat.parse_udp4 reply =
      Ok (Some (nat.mkUdp4 (nat.u_dst_ip u) (nat.u_src_ip u) (nat.u_dst_port u) (nat.u_src_port u) answer)) /\
    header_verifies reply = true /\ Ones.verifies (udp_sum reply) = true.
Proof.
  intros k Htun Htab Hs1 Hs2 Ho1 Ho2 Bp Hip Hmtu Hparse Hpl Hslot Ba Hla.
  destruct (tunnelled_usable _ _ _ _ _ _ Htun) as (Ua & Ua' & Ub).
  destruct Htun as [[aa Hta] [ab [Htb Hdue]] Hpair Hconf _ _]. pose proof Hpair as [].
  assert (key_ok k) as Hk.
  { destruct (parse_udp4_returns packet Bp) as (o & Ho & Hu). rewrite Hparse in Ho. injection Ho as <-.
    by destruct (Hu u eq_refl) as (? & ? & ? & ? & ? & ? & ?). }
  destruct (slot_for_table_ok nat.IDLE_TIMEOUT_MS nat.SLOTS (table g) k (clk (1 + ticks g)%nat) Htab Hk) as [Htab' Hheld].
  destruct (Hheld slot Hslot) as [Hlt Hget].
  destruct (talks_send da sa aa packet t out1 Hta Ua Hconf (out_fits _ _ Hmtu Ho1)) as (da' & Hsend & Hta').
  destruct (turn_udp_out clk WG_TUNNEL_IP our_ip sa sb ab scr1 Hs1 pair_ab0 pair_index_a0 pair_key_ab0 ltac:(lia) pair_fresh_b0
    g packet u slot from) as (g1 & R1 & T1 & E1 & Tab1 & K1); try done; [intros; apply Ub; lia|].
  destruct (turn_nat_reply clk WG_TUNNEL_IP our_ip (after_hearing sa sb) _ scr2 Hs2 eq_refl g1 slot (nat.flow_of k (clk (1 + ticks g)%nat))
    answer server from T1) as (g2 & reply & R2 & Hrp & Hrh & Hrv & Hrl & Hrm); try done.
  { intros i Hi. rewrite K1. replace (i + (3 + ticks g))%nat with ((i + 3) + ticks g)%nat by lia. apply Ub. lia. }
  { simpl. lia. } { by rewrite Tab1. }
  exists da', (data_message sa packet), g1, g2, (data_message (after_hearing sa sb) reply), reply.
  split_and!; try done. apply peer_reads; try done. by apply out_fits.
Qed.

(** C11: A connection passes through.  The peer seals a TCP segment that is no reset
    into the tunnel; the gateway, in one turn, emits one raw packet: the segment
    with the station's address and the slot's port as its source and its two
    checksums rewritten, and every other field and byte as it was
    ([translated with_source]), but for a SYN, where the value of one MSS option
    above the limit may become the limit ([clamped]).  The new IP checksum holds
    over the twenty bytes the code sums, so for a header without options the whole
    header verifies; the TCP checksum verifies if and only if it did before, a
    clamped option at an odd offset excepted.  A segment that then arrives for that
    port goes, in one turn, to the address the peer was heard from, and the peer's
    device opens it to that segment, translated in the same way to the peer's own
    address and port as its destination. *)
Theorem tcp_exchange (da : Device) (g : @Task Meta) (sa sb : Session) (t t' : Z) (sent answer : Segment)
    (slot : nat) (from : Meta) (scr1 scr2 : Scratch) (out1 out2 tape : bytes) :
  let k := (g_src sent, of_be (g_sport sent), g_dst sent, of_be (g_dport sent)) in
  let port := nat.TCP_EXT_PORT_BASE + Z.of_nat slot in
  tunnelled da g sa sb t t' -> table_ok nat.TCP_SLOTS (tcp_table g) -> scratch_ok scr1 -> scratch_ok scr2 ->
  MAX_DATAGRAM_LEN <= len out1 -> MAX_DATAGRAM_LEN <= len out2 -> len our_ip = 4 -> bytes_ok our_ip ->
  segment_ok sent -> packet_len (packet_of sent) = Some (len (packet_of sent)) -> len (packet_of sent) <= INNER_MTU ->
  nat.is_rst (info_of sent) = false ->
  (nat.tcp_slot_for (tcp_table g) k (clk (1 + ticks g)%nat)).2 = Some slot ->
  segment_ok answer -> packet_len (packet_of answer) = Some (len (packet_of answer)) -> len (packet_of answer) <= INNER_MTU ->
  of_be (g_dport answer) = port ->
  exists da' sealed g1 g2 sealed' sent' answer',
    Device.encapsulate da 0 (packet_of sent) t out1 = (da', Ok (Send 0 sealed)) /\
    turn clk WG_TUNNEL_IP our_ip scr1 (Tunnel (Some (sealed, from))) g = (g1, [RawOut (packet_of sent')], Ok tt) /\
    segment_ok sent' /\ g_src sent' = our_ip /\ g_sport sent' = to_be 2 port /\
    g_dst sent' = g_dst sent /\ g_dport sent' = g_dport sent /\ translated with_source sent sent' our_ip port /\
    turn clk WG_TUNNEL_IP our_ip scr2 (Raw (Some (packet_of answer))) g1 = (g2, [ToPeer sealed' from], Ok tt) /\
    snd (Device.handle_udp da' sealed' t' tape out2) = Ok (Receive 0 (packet_of answer')) /\
    segment_ok answer' /\ g_src answer' = g_src answer /\ g_sport answer' = g_sport answer /\
    g_dst answer' = g_src sent /\ g_dport answer' = g_sport sent /\
    translated with_destination answer answer' (g_src sent) (of_be (g_sport sent)).
Proof.
  intros k port Htun Htab Hs1 Hs2 Ho1 Ho2 Lip Bip Hsent Hip Hmtu Hrst Hslot Hans Hal Ham Hport.
  destruct (tunnelled_usable _ _ _ _ _ _ Htun) as (Ua & Ua' & Ub).
  destruct Htun as [[aa Hta] [ab [Htb Hdue]] Hpair Hconf _ _]. pose proof Hpair as [].
  assert (key_ok k) as Hk.
  { destruct (parse_tcp4_returns _ (so_bytes _ Hsent)) as (o & Ho & Hu). rewrite parse_segment in Ho by done. injection Ho as <-.
    by destruct (Hu _ eq_refl) as (_ & ? & ? & ? & ? & ? & ?). }
  destruct (slot_for_table_ok nat.TCP_IDLE_TIMEOUT_MS nat.TCP_SLOTS (tcp_table g) k (clk (1 + ticks g)%nat) Htab Hk) as [Htab' Hheld].
  destruct (Hheld slot Hslot) as [Hlt Hget].
  destruct (talks_send da sa aa (packet_of sent) t out1 Hta Ua Hconf (out_fits _ _ Hmtu Ho1)) as (da' & Hsend & Hta').
  destruct (turn_tcp_out clk WG_TUNNEL_IP our_ip sa sb ab scr1 Hs1 pair_ab0 pair_index_a0 pair_key_ab0 ltac:(lia) pair_fresh_b0
    g sent slot from) as (g1 & sent' & R1 & S1 & F1 & F2 & F3 & F4 & F6 & T1 & E1 & Tab1 & K1); try done; [intros; apply Ub; lia|].
  destruct (turn_raw_reply clk WG_TUNNEL_IP our_ip (after_hearing sa sb) _ scr2 Hs2 eq_refl g1 slot (nat.flow_of k (clk (1 + ticks g)%nat))
    answer from T1) as (g2 & answer' & R2 & S2 & G1 & G2 & G3 & G4 & G6 & G7 & G8); try done.
  { intros i Hi. rewrite K1. replace (i + (3 + ticks g))%nat with ((i + 3) + ticks g)%nat by lia. apply Ub. lia. }
  { simpl. lia. } { by rewrite Tab1. }
  assert (g_dport answer' = g_sport sent) as Hback.
  { rewrite G4. cbn [nat.flow_of nat.client_port k]. apply (to_of_be 2); [apply (SegmentFacts.seg_bytes _ Hsent)|].
    pose proof (so_lengths _ Hsent) as Hl. by injection Hl. }
  exists da', (data_message sa (packet_of sent)), g1, g2, (data_message (after_hearing sa sb) (packet_of answer')), sent', answer'.
  split_and!; try done.
  apply peer_reads; try done; [congruence|]. apply out_fits; [lia|done].
Qed.

(** ** What goes wrong *)

(** The peer's address is taken from any datagram at all.  One that is no
    WireGuard message (an empty one, say) from anywhere is dropped by the device,
    and still it moves the address: the next answer for the tunnel goes, sealed
    for the peer, to whoever sent the stray datagram. *)
Theorem stray_datagram_redirects (s : @Task Meta) (ss : Session) (armed : option Z) (slot : nat) (f : nat.Flow)
    (stray answer : bytes) (e : Error) (stranger server : Meta) (scr1 scr2 : Scratch) :
  talks (device s) ss armed -> confirmed ss = true -> send_counter ss + 1 < REJECT_AFTER_MESSAGES ->
  (forall i, (i < 5)%nat -> is_usable ss (clk (i + ticks s)%nat) = true) ->
  keepalive_is_due armed (clk (1 + ticks s)%nat) = false ->
  nat.get (table s) slot = Some f -> flow_ok f -> scratch_ok scr1 -> scratch_ok scr2 ->
  message_type stray = Err e -> bytes_ok answer -> 28 + len answer <= INNER_MTU ->
  exists s1 s2 sealed,
    turn clk WG_TUNNEL_IP our_ip scr1 (Tunnel (Some (stray, stranger))) s = (s1, [], Ok tt) /\
    turn clk WG_TUNNEL_IP our_ip scr2 (Nat slot (Some (answer, server))) s1 = (s2, [ToPeer sealed stranger], Ok tt).
Proof.
  intros Ht Hc Hcnt Hu Hd Hf Hfok Hs1 Hs2 He Ba Hla. set (s0 := with_ticks (with_endpoint s (Some stranger)) (S (ticks s))).
  destruct (runs_timers clk s0 ss armed PEERS (scratch_out scr1)) as (s1 & R1 & T1 & M1 & _ & M3 & M4); try done.
  { apply (Hu 1%nat). lia. }
  destruct (turn_nat_reply clk WG_TUNNEL_IP our_ip ss armed scr2 Hs2 Hc s1 slot f answer server stranger T1) as (s2 & reply & R2 & _); try done.
  { intros i Hi. rewrite M4. simpl. replace (i + S (S (ticks s)))%nat with ((i + 2) + ticks s)%nat by lia. apply Hu. lia. }
  { by rewrite M1. }
  exists s1, s2, (data_message ss reply). split; [|done].
  unfold turn. eapply runs_then; [|exact R1]. unfold handle_ready. eapply runs_step; [done|].
  unfold handle_tunnel_datagram. eapply runs_step; [apply runs_now|].
  eapply (runs_step _ _ _ s0); [unfold runs, handle_udp, Device.handle_udp; cbn [device with_ticks with_endpoint]; by rewrite He|]. done.
Qed.

End Theorems.

(** ** Concrete tunnels *)

#[local] Existing Instance Toy.prims.
#[local] Existing Instance Toy.prims_ok.

Definition example_clock (n : nat) : Z := 2000 + Z.of_nat n.
Definition example_scratch : Scratch := mkScratch (zeros MAX_DATAGRAM_LEN) (zeros INNER_MTU).
Definition example_ip : bytes := [192; 168; 4; 1].
Definition example_task : @Task Z :=
  mkTask linked_b (nat.new_table nat.SLOTS) (nat.new_table nat.TCP_SLOTS) None [] 0.
(** A query from 10.0.0.2:4000 to 8.8.8.8:53. *)
Definition example_datagram : bytes :=
  [69; 0; 0; 31; 0; 0; 64; 0; 64; 17; 32; 189; 10; 0; 0; 2; 8; 8; 8; 8; 15; 160; 0; 53; 0; 11; 209; 239; 1; 2; 3].
Definition example_udp4 : nat.Udp4 := nat.mkUdp4 [10; 0; 0; 2] [8; 8; 8; 8] 4000 53 [1; 2; 3].

Lemma example_scratch_ok : scratch_ok example_scratch.
Proof. split; reflexivity. Qed.

Lemma example_tunnelled : tunnelled example_clock linked_a example_task session_a session_b 2000 2010.
Proof.
  split.
  - exists None. by eexists.
  - exists None. split; [by eexists|reflexivity].
  - split; vm_compute; first [reflexivity | by split].
  - reflexivity.
  - by split.
  - intros i Hi. do 6 (destruct i as [|i]; [done|]). lia.
Qed.

(** A tunnel from its first turn: the peer's initiation, heard from address 7, is
    answered; the peer completes the handshake and seals a query. *)
Definition example_fresh : @Task Z :=
  match init (replicate 32 5) (x25519_base (replicate 32 3)) (replicate 36 11) with
  | Ok s => s
  | _ => example_task
  end.
Definition example_hello : Device * bytes * res Error bytes :=
  start_handshake example_a 0 1000 (replicate 12 7) (replicate 36 9) (zeros 148).
Definition first_turn : @Task Z * list effect * out unit :=
  turn example_clock [10; 0; 0; 1] example_ip example_scratch
    (Tunnel (Some (match example_hello.2 with Ok m => m | _ => [] end, 7))) example_fresh.
Definition example_query : bytes :=
  match first_turn.1.2 with
  | [ToPeer response _] =>
      let d := (Device.handle_udp example_hello.1.1 response 2001 [] (zeros 128)).1.1 in
      match (Device.encapsulate d 0 example_datagram 2001 (zeros MAX_DATAGRAM_LEN)).2 with Ok (Send _ m) => m | _ => [] end
  | _ => []
  end.
Definition second_turn : @Task Z * list effect * out unit :=
  turn example_clock [10; 0; 0; 1] example_ip example_scratch (Tunnel (Some (example_query, 9))) first_turn.1.1.

Lemma first_turn_reachable : reachable example_clock [10; 0; 0; 1] example_ip first_turn.1.1.
Proof.
  eapply (reach_turn _ _ _ example_fresh example_scratch _ _ first_turn.1.2).
  - apply (reach_init _ _ _ (replicate 32 5) (x25519_base (replicate 32 3)) (replicate 36 11)). reflexivity.
  - apply example_scratch_ok.
  - instantiate (1 := Tunnel (Some (match example_hello.2 with Ok m => m | _ => [] end, 7))).
    apply (bool_decide_unpack _). vm_compute. exact I.
  - vm_compute. reflexivity.
Qed.

Lemma gateway_turn_safe_witness :
  let r := Tunnel (Some (example_query, 9)) in
  first_turn.1.2 <> [] /\ second_turn.1.2 = [ToUplink 0 [1; 2; 3] [8; 8; 8; 8] 53] /\ second_turn.2 = Ok tt /\
  task_ok first_turn.1.1 /\ Forall (effect_ok example_ip (endpoint_in first_turn.1.1 r)) second_turn.1.2 /\
  (second_turn.2 = Ok tt -> task_ok second_turn.1.1 /\ endpoint second_turn.1.1 = Some 9).
Proof.
  split; [vm_compute; discriminate|]. split; [vm_compute; reflexivity|]. split; [vm_compute; reflexivity|].
  destruct (gateway_turn_safe example_clock [10; 0; 0; 1] example_ip first_turn.1.1 second_turn.1.1 example_scratch
    (Tunnel (Some (example_query, 9))) second_turn.1.2 second_turn.2) as (H1 & H2 & H3 & _ & _).
  - reflexivity.
  - apply (bool_decide_unpack _). vm_compute. exact I.
  - apply first_turn_reachable.
  - apply example_scratch_ok.
  - apply (bool_decide_unpack _). vm_compute. exact I.
  - unfold second_turn. destruct (turn _ _ _ _ _ _) as [[? ?] ?]. reflexivity.
  - split; [exact H1|]. split; [exact H2|exact H3].
Defined.

Lemma udp_exchange_witness :
  exists da' sealed g1 g2 sealed' reply,
    Device.encapsulate linked_a 0 example_datagram 2000 (zeros MAX_DATAGRAM_LEN) = (da', Ok (Send 0 sealed)) /\
    turn example_clock [10; 0; 0; 1] example_ip example_scratch (Tunnel (Some (sealed, 7))) example_task =
      (g1, [ToUplink 0 [1; 2; 3] [8; 8; 8; 8] 53], Ok tt) /\
    turn example_clock [10; 0; 0; 1] example_ip example_scratch (Nat 0 (Some ([9; 9], 8))) g1 = (g2, [ToPeer sealed' 7], Ok tt) /\
    snd (Device.handle_udp da' sealed' 2010 [] (zeros MAX_DATAGRAM_LEN)) = Ok (Receive 0 reply) /\
    nat.parse_udp4 reply = Ok (Some (nat.mkUdp4 [8; 8; 8; 8] [10; 0; 0; 2] 53 4000 [9; 9])) /\
    header_verifies reply = true /\ Ones.verifies (udp_sum reply) = true.
Proof.
  apply (udp_exchange example_clock [10; 0; 0; 1] example_ip linked_a example_task session_a session_b 2000 2010
    example_datagram [9; 9] example_udp4 0 7 8 example_scratch example_scratch (zeros MAX_DATAGRAM_LEN) (zeros MAX_DATAGRAM_LEN) []);
    first [ apply example_tunnelled | apply example_scratch_ok | apply new_table_ok; discriminate
          | vm_compute; reflexivity | vm_compute; discriminate
          | apply (bool_decide_unpack _); vm_compute; exact I ].
Defined.

(** A SYN through the tunnel and the server's answer to the slot's port. *)
Definition example_answer : Segment :=
  mkSegment [0x45; 0; 0; 40; 0; 0; 0x40; 0; 64; 6] [0; 0] [1; 2; 3; 4] example_ip [] [0; 80] (to_be 2 41000)
    [0; 0; 0; 1; 0; 0; 0; 2; 0x50; 16; 16; 0] [1; 1] [0; 0].

Lemma example_answer_ok : segment_ok example_answer.
Proof. split; first [vm_compute; reflexivity | apply (bool_decide_unpack _); vm_compute; exact I | vm_compute; discriminate]. Qed.

Lemma tcp_exchange_witness :
  exists da' sealed g1 g2 sealed' sent' answer',
    Device.encapsulate linked_a 0 (packet_of example_segment) 2000 (zeros MAX_DATAGRAM_LEN) = (da', Ok (Send 0 sealed)) /\
    turn example_clock [10; 0; 0; 1] example_ip example_scratch (Tunnel (Some (sealed, 7))) example_task = (g1, [RawOut (packet_of sent')], Ok tt) /\
    segment_ok sent' /\ g_src sent' = example_ip /\ g_sport sent' = to_be 2 (nat.TCP_EXT_PORT_BASE + Z.of_nat 0) /\
    g_dst sent' = g_dst example_segment /\ g_dport sent' = g_dport example_segment /\
    translated with_source example_segment sent' example_ip (nat.TCP_EXT_PORT_BASE + Z.of_nat 0) /\
    turn example_clock [10; 0; 0; 1] example_ip example_scratch (Raw (Some (packet_of example_answer))) g1 = (g2, [ToPeer sealed' 7], Ok tt) /\
    snd (Device.handle_udp da' sealed' 2010 [] (zeros MAX_DATAGRAM_LEN)) = Ok (Receive 0 (packet_of answer')) /\
    segment_ok answer' /\ g_src answer' = g_src example_answer /\ g_sport answer' = g_sport example_answer /\
    g_dst answer' = g_src example_segment /\ g_dport answer' = g_sport example_segment /\
    translated with_destination example_answer answer' (g_src example_segment) (of_be (g_sport example_segment)).
Proof.
  apply (tcp_exchange example_clock [10; 0; 0; 1] example_ip linked_a example_task session_a session_b 2000 2010
    example_segment example_answer 0 7 example_scratch example_scratch (zeros MAX_DATAGRAM_LEN) (zeros MAX_DATAGRAM_LEN) []);
    first [ apply example_tunnelled | apply example_scratch_ok | apply new_table_ok; discriminate
          | apply example_segment_ok | apply example_answer_ok
          | vm_compute; reflexivity | vm_compute; discriminate
          | apply (bool_decide_unpack _); vm_compute; exact I ].
Defined.

(** A task with a flow in its first slot and a confirmed session. *)
Definition example_busy : @Task Z :=
  mkTask linked_a [Some (nat.mkFlow [10; 0; 0; 2] 4000 [8; 8; 8; 8] 53 1500); None; None; None]
    (nat.new_table nat.TCP_SLOTS) (Some 7) [] 0.

Lemma stray_datagram_redirects_witness :
  exists s1 s2 sealed,
    turn example_clock [10; 0; 0; 1] example_ip example_scratch (Tunnel (Some ([], 99))) example_busy = (s1, [], Ok tt) /\
    turn example_clock [10; 0; 0; 1] example_ip example_scratch (Nat 0 (Some ([9; 9], 8))) s1 = (s2, [ToPeer sealed 99], Ok tt).
Proof.
  apply (stray_datagram_redirects example_clock [10; 0; 0; 1] example_ip example_busy session_a None 0
    (nat.mkFlow [10; 0; 0; 2] 4000 [8; 8; 8; 8] 53 1500) [] [9; 9] Malformed 99 8 example_scratch example_scratch);
    try apply example_scratch_ok; try reflexivity; try discriminate.
  - by eexists.
  - intros i Hi. do 5 (destruct i as [|i]; [reflexivity|]). lia.
  - split_and!; first [reflexivity | apply (bool_decide_unpack _); vm_compute; exact I].
  - apply (bool_decide_unpack _). vm_compute. exact I.
Defined.

(** One packet stops the gateway.  A packet of the authenticated peer whose
    header length field is below twenty bytes passes the device and the parser,
    and the turn that takes it up panics: the task, with every flow in its tables,
    is gone. *)
Theorem short_header_stops_task :
  packet_len short_header = Some (len short_header) /\
  exists sealed,
    snd (Device.encapsulate linked_a 0 short_header 2000 (zeros MAX_DATAGRAM_LEN)) = Ok (Send 0 sealed) /\
    (turn example_clock [10; 0; 0; 1] example_ip example_scratch (Tunnel (Some (sealed, 7))) example_task).2 = Panic.
Proof.
  split; [vm_compute; reflexivity|]. exists (data_message session_a short_header). split; vm_compute; reflexivity.
Qed.
