(* ===== verification/HarnessH2Facts.v ===== *)
(** * HTTP/2 over the control channel: the framings do not show

    The client of [HarnessH2.v] against a server that seals a stream of frames into
    records of any size, which the network delivers in pieces of any size.  The
    client hands the connection exactly the frames, in order, and what it sends the
    server decrypts to exactly what the connection wrote. *)

From Stdlib Require Import Strings.String.
From S2P Require Import Prelude Timers Messages Crypto Noise Utf8 H2Frame HpackInt HpackTable Huffman Hpack H2Conn NetAddr HarnessNet Control ControlEarly ControlSession HarnessH2.
Import net RecordFacts harness_h2.

Section Channel.
Context `{P : Primitives} {POk : PrimitivesOk P}.

(** The records of a list of plaintexts, from a cipher on. *)
Fixpoint sealed (c : record.Cipher) (ps : list bytes) : bytes :=
  match ps with
  | [] => []
  | p :: ps => record_bytes c p ++ sealed (bump c) ps
  end.

Definition bumped (n : Z) (c : record.Cipher) : record.Cipher := record.mkCipher (record.key c) (record.counter c + n).

Lemma bumped_0 c : bumped 0 c = c.
Proof. destruct c. unfold bumped. simpl. by rewrite Z.add_0_r. Qed.

Lemma bumped_S n c : bumped n (bump c) = bumped (1 + n) c.
Proof. unfold bumped, bump. simpl. f_equal. lia. Qed.

Lemma bumped_bumped n m c : bumped n (bumped m c) = bumped (m + n) c.
Proof. unfold bumped. simpl. f_equal. lia. Qed.

Lemma sealed_app c ps qs : sealed c (ps ++ qs) = sealed c ps ++ sealed (bumped (len ps) c) qs.
Proof.
  revert c; induction ps as [|p ps IH]; intros c; cbn [sealed app]; [by rewrite len_nil, bumped_0|].
  by rewrite IH, <- app_assoc, bumped_S, len_cons.
Qed.

Lemma sealed_length c ps : (length ps <= length (sealed c ps))%nat.
Proof.
  revert c; induction ps as [|p ps IH]; intros c; cbn [sealed length]; [lia|]. rewrite length_app. specialize (IH (bump c)).
  pose proof (len_record c p) as Hl. unfold record.HEADER_LEN, TAG_LEN in Hl. nonneg_lens. unfold len in *. lia.
Qed.

Definition small (ps : list bytes) : Prop := Forall (fun p => len p <= record.MAX_PLAINTEXT) ps.

(** ** What the client still has to read *)

(** The client [c] will read the bytes [plain]: some are in its buffer, the records
    [ps] bring the others; [rest] is behind them on the stream. *)
Record view (c : Http2) (plain : bytes) (ps : list bytes) (rest : bytes) : Prop := {
  v_cut : cut (arrivals (stream c));
  v_coming : coming (stream c) = sealed (record.rx (session c)) ps ++ rest;
  v_counter : record.counter (record.rx (session c)) + len ps <= record.MAX_COUNTER;
  v_small : small ps;
  v_buffer : len (buffer c) = BUFFER;
  v_filled : 0 <= filled c <= BUFFER;
  v_plain : plain = ztake (filled c) (buffer c) ++ concat ps;
}.

(** Reading leaves alone what was sent, the connection and the sending half. *)
Definition others (c c' : Http2) : Prop :=
  sent c' = sent c /\ connection c' = connection c /\ status c' = status c /\
  record.tx (session c') = record.tx (session c) /\ ending (stream c') = ending (stream c).

Lemma others_trans a b c : others a b -> others b c -> others a c.
Proof. unfold others. intros (-> & -> & -> & -> & ->) (-> & -> & -> & -> & ->). done. Qed.

Lemma buffer_split c plain ps rest : view c plain ps rest ->
  exists have room, buffer c = have ++ room /\ filled c = len have /\ len room = BUFFER - len have /\ plain = have ++ concat ps.
Proof.
  intros [_ _ _ _ Hb Hf Hp]. exists (ztake (filled c) (buffer c)), (zdrop (filled c) (buffer c)).
  rewrite ztake_zdrop. split_and!; [done|llia|llia|done].
Qed.

(** A record on a stream: its header tells how much ciphertext follows. *)
Lemma record_arrives s c p y : cut (arrivals s) -> coming s = record_bytes c p ++ y -> len p <= record.MAX_PLAINTEXT ->
  exists header s1 s2, fill_buffer record.HEADER_LEN s = Ok (header, s1) /\ record.ciphertext_len header = Ok (len p + TAG_LEN) /\
    slice (0, len p + TAG_LEN) (zeros record.MAX_MESSAGE) = @Ok control.Error _ (zeros (len p + TAG_LEN)) /\
    fill_buffer (len p + TAG_LEN) s1 = Ok (zdrop record.HEADER_LEN (record_bytes c p), s2) /\
    coming s2 = y /\ cut (arrivals s2) /\ ending s2 = ending s.
Proof.
  intros Hcut Hcom Hp. set (r := record_bytes c p) in *. assert (len r = 3 + len p + 16) as Hlen by apply len_record.
  pose proof (header_layout c p Hp) as Hh. fold r in Hh. change record.HEADER_LEN with 3 in *.
  unfold record.MAX_PLAINTEXT, record.MAX_MESSAGE, record.HEADER_LEN, TAG_LEN in *. nonneg_lens.
  destruct (fill_buffer_ok (ztake 3 r) (zdrop 3 r ++ y) s Hcut) as (s1 & Hr1 & Hc1 & Hcut1 & He1).
  { rewrite Hcom, <- (ztake_zdrop 3 r) at 1. by rewrite <- !app_assoc. }
  destruct (fill_buffer_ok (zdrop 3 r) y s1 Hcut1 Hc1) as (s2 & Hr2 & Hc2 & Hcut2 & He2).
  replace (len (ztake 3 r)) with 3 in Hr1 by llia. replace (len (zdrop 3 r)) with (len p + 16) in Hr2 by llia.
  exists (ztake 3 r), s1, s2. split_and!; try done; [|congruence].
  unfold slice. cbn [fst snd]. replace (zeros 4096) with (zeros (len p + 16) ++ zeros (4080 - len p)).
  - by rewrite get_range_front by (rewrite len_zeros; lia).
  - rewrite <- EarlyFacts.zeros_split by lia. f_equal. lia.
Qed.

(** One record more. *)
Lemma fill_ok c plain p ps rest : view c plain (p :: ps) rest -> filled c + len p <= BUFFER ->
  exists c', fill c = Ok c' /\ view c' plain ps rest /\ others c c' /\ filled c' = filled c + len p.
Proof.
  intros Hv Hroom. destruct (buffer_split _ _ _ _ Hv) as (have & room & Hbuf & Hfil & Hlr & Hpl).
  destruct Hv as [Hcut Hcom Hcnt Hsm _ _ _]. apply Forall_cons_iff in Hsm as [Hp Hsm]. rewrite len_cons in Hcnt. nonneg_lens.
  cbn [sealed] in Hcom. rewrite <- app_assoc in Hcom.
  destruct (record_arrives _ _ _ _ Hcut Hcom Hp) as (header & s1 & s2 & Hr1 & Hl & Hz & Hr2 & Hc2 & Hcut2 & He2).
  unfold fill. rewrite Hr1. cbn [map_err rbind]. rewrite Hl. cbn [map_err rbind]. unfold slice in Hz |- *. cbn [fst snd] in Hz |- *.
  destruct (get_range 0 (len p + TAG_LEN) (zeros record.MAX_MESSAGE)); [|done]. cbn [or_panic rbind]. rewrite Hr2. cbn [map_err rbind].
  rewrite Hbuf, Hfil, get_range_back by llia. cbn [or_panic rbind]. rewrite open_layout by (done || lia). cbn [map_err rbind].
  unfold slice_copy. cbn [fst snd]. destruct (split_len (len p) room) as (x & y & -> & Hx); [lia|].
  rewrite copy_at_mid by (done || lia). cbn [or_panic rbind]. eexists. split; [done|]. split; [|split; [|done]].
  - split; cbn [stream session buffer filled record.rx]; try done; cbn [record.counter bump]; try lia.
    + rewrite !len_app in *. lia.
    + rewrite app_assoc, ztake_app_len by (rewrite len_app; lia). rewrite Hpl. cbn [concat]. by rewrite <- app_assoc.
  - unfold others. cbn [sent connection status session stream record.tx]. by split_and!.
Qed.

(** ** Whole frames *)

Record frame_ok (f : bytes) : Prop := {
  fo_header : exists h, frame.parse f = Ok h /\ frame.HEADER_LEN + frame.fh_length h = len f;
  fo_length : len f <= frame.HEADER_LEN + frame.DEFAULT_MAX_FRAME;
  fo_long : frame.HEADER_LEN <= len f;
}.

Lemma h2_parse_front (b more : bytes) : frame.HEADER_LEN <= len b -> frame.parse (b ++ more) = frame.parse b.
Proof.
  intros H. unfold frame.parse, frame.HEADER_LEN in *. destruct (split_len 9 b) as (x & y & -> & Hx); [lia|].
  rewrite <- app_assoc, !get_range_front by lia. done.
Qed.

Lemma next_frame_ok f more ps : frame_ok f -> forall fuel c rest, view c (f ++ more) ps rest -> (length ps < fuel)%nat ->
  exists c' ps', next_frame fuel c = Ok (c', len f) /\ view c' (f ++ more) ps' rest /\ others c c' /\ len f <= filled c' /\
    (length ps' <= length ps)%nat.
Proof.
  intros Hf. destruct (fo_header _ Hf) as (h & Hh & Hlen). pose proof (fo_length _ Hf). pose proof (fo_long _ Hf).
  unfold frame.HEADER_LEN, frame.DEFAULT_MAX_FRAME in *.
  induction ps as [|p ps IH]; intros fuel c rest Hv Hfuel; (destruct fuel as [|fuel]; [simpl in Hfuel; lia|]); cbn [next_frame];
    destruct (buffer_split _ _ _ _ Hv) as (have & room & Hbuf & Hfil & Hlr & Hpl); unfold frame.HEADER_LEN.
  all: assert (9 <= filled c -> frame.parse (buffer c) = Ok h) as Hparse.
  1, 3: intros H9; rewrite Hbuf, h2_parse_front by (unfold frame.HEADER_LEN; lia); rewrite <- Hh;
    rewrite <- (h2_parse_front f more) by (unfold frame.HEADER_LEN; lia); rewrite Hpl, h2_parse_front by (unfold frame.HEADER_LEN; lia); done.
  - cbn [concat] in Hpl. rewrite app_nil_r in Hpl. assert (len f <= filled c) as Hge by (rewrite Hfil, <- Hpl; llia).
    rewrite (proj2 (Z.leb_le _ _)), Hparse by lia. cbn [map_err rbind]. rewrite (v_buffer _ _ _ _ Hv), Hlen.
    unfold BUFFER, frame.HEADER_LEN, frame.DEFAULT_MAX_FRAME. rewrite (proj2 (Z.ltb_ge _ _)), (proj2 (Z.leb_le _ _)) by lia.
    cbn [rbind]. exists c, []. by split_and!.
  - destruct (decide (len f <= filled c)) as [Hge|Hlt].
    { rewrite (proj2 (Z.leb_le _ _)), Hparse by lia. cbn [map_err rbind]. rewrite (v_buffer _ _ _ _ Hv), Hlen.
      unfold BUFFER, frame.HEADER_LEN, frame.DEFAULT_MAX_FRAME. rewrite (proj2 (Z.ltb_ge _ _)), (proj2 (Z.leb_le _ _)) by lia.
      cbn [rbind]. exists c, (p :: ps). by split_and!. }
    pose proof (v_small _ _ _ _ Hv) as [Hp _]%Forall_cons_iff. unfold record.MAX_PLAINTEXT, record.MAX_MESSAGE, record.HEADER_LEN, TAG_LEN in Hp.
    destruct (fill_ok c _ p ps rest Hv) as (c1 & Hfill & Hv1 & Ho1 & Hf1);
      [unfold BUFFER, frame.HEADER_LEN, frame.DEFAULT_MAX_FRAME; lia|].
    destruct (IH fuel c1 rest Hv1) as (c2 & ps' & Hn & Hv2 & Ho2 & Hge & Hps); [simpl in Hfuel; lia|].
    exists c2, ps'. split_and!; [|done|by eapply others_trans|done|simpl; lia].
    destruct (9 <=? filled c) eqn:E9; bool_hyps; cbn [rbind]; [|by rewrite Hfill].
    rewrite Hparse by lia. cbn [map_err rbind]. rewrite (v_buffer _ _ _ _ Hv), Hlen.
    unfold BUFFER, frame.HEADER_LEN, frame.DEFAULT_MAX_FRAME. rewrite (proj2 (Z.ltb_ge _ _)), (proj2 (Z.leb_gt _ _)) by lia.
    cbn [rbind]. by rewrite Hfill.
Qed.

(** The frame in front of the buffer, dropped. *)
Lemma consume_ok f more c ps rest : view c (f ++ more) ps rest -> len f <= filled c ->
  slice (0, len f) (buffer c) = @Ok H2Error _ f /\
  exists c', consume c (len f) = Ok c' /\ view c' more ps rest /\ others c c'.
Proof.
  intros Hv Hle. destruct (buffer_split _ _ _ _ Hv) as (have & room & Hbuf & Hfil & Hlr & Hpl). destruct Hv as [Hcut Hcom Hcnt Hsm Hb Hf Hp].
  destruct (split_len (len f) have) as (x & y & -> & Hx); [nonneg_lens; lia|]. rewrite len_app in *. rewrite <- !app_assoc in *.
  apply app_inj_1 in Hpl as [<- ->]; [|unfold len in Hx; lia]. split.
  - unfold slice. cbn [fst snd]. by rewrite Hbuf, get_range_front.
  - unfold consume, slice, slice_copy. cbn [fst snd]. rewrite Hbuf, Hfil. rewrite get_range_mid by lia. cbn [or_panic rbind].
    destruct (split_len (len y) (f ++ y)) as (u & v & Huv & Hu); [llia|].
    assert (f ++ y ++ room = u ++ v ++ room) as -> by (by rewrite !app_assoc, Huv).
    pose proof (copy_at_mid 0 (len y) y [] u (v ++ room)) as Hcp. cbn [app] in Hcp. rewrite Hcp by (done || lia). cbn [or_panic rbind].
    eexists. split; [done|]. split; [|done].
    split; cbn [stream session buffer filled with_buffer]; try done.
    + rewrite !len_app. rewrite Hbuf in Hb. apply (f_equal len) in Huv. rewrite !len_app in *. lia.
    + nonneg_lens. lia.
    + rewrite ztake_app_len by lia. done.
Qed.

(** ** Sending *)

(** What the server decrypts from the records behind [c]'s. *)
Definition tx (c : Http2) : record.Cipher := record.tx (session c).

Lemma send_loop_ok fuel s b : len b < Z.of_nat fuel -> record.counter (record.tx s) + len b <= record.MAX_COUNTER ->
  exists qs, concat qs = b /\ small qs /\ len qs <= len b /\
    send_loop fuel s b = Ok (record.mkSession (bumped (len qs) (record.tx s)) (record.rx s), sealed (record.tx s) qs).
Proof.
  revert s b; induction fuel as [|fuel IH]; intros s b Hf Hc; [nonneg_lens; lia|]. cbn [send_loop].
  destruct (len b =? 0) eqn:E; bool_hyps.
  { apply len_zero_nil in E as ->. exists []. rewrite len_nil, bumped_0. split_and!; [done|constructor|done|by destruct s]. }
  set (n := Z.min (len b) record.MAX_PLAINTEXT). nonneg_lens.
  assert (0 < n <= len b /\ n <= record.MAX_PLAINTEXT) as [Hn Hm]
    by (unfold n, record.MAX_PLAINTEXT, record.MAX_MESSAGE, record.HEADER_LEN, TAG_LEN; lia).
  destruct (split_len n b) as (x & y & -> & Hx); [lia|]. rewrite len_app in *. unfold slice. cbn [fst snd].
  rewrite get_range_front by lia. cbn [or_panic rbind].
  rewrite record_seal_layout; [|lia| |lia]; cycle 1.
  { rewrite len_zeros. unfold record.MAX_PLAINTEXT, record.MAX_MESSAGE, record.HEADER_LEN, TAG_LEN in *. lia. }
  cbn [map_err rbind]. rewrite get_range_back by lia. cbn [or_panic rbind].
  destruct (IH (record.mkSession (bump (record.tx s)) (record.rx s)) y) as (qs & <- & Hs & Hl & ->); [lia|simpl; lia|].
  exists (x :: qs). cbn [concat sealed rbind record.tx record.rx]. rewrite bumped_S, len_cons.
  split_and!; [done|constructor; [lia|done]|lia|done].
Qed.

Lemma send_ok c b plain ps rest : view c plain ps rest -> record.counter (tx c) + len b <= record.MAX_COUNTER ->
  exists c' qs, send c b = Ok c' /\ concat qs = b /\ small qs /\ len qs <= len b /\
    sent c' = sent c ++ sealed (tx c) qs /\ tx c' = bumped (len qs) (tx c) /\ view c' plain ps rest /\
    connection c' = connection c /\ status c' = status c /\ stream c' = stream c /\ filled c' = filled c.
Proof.
  intros Hv Hc. destruct (send_loop_ok (S (length b)) (session c) b) as (qs & Hb & Hs & Hl & Hq); [unfold len; lia|done|].
  unfold send. rewrite Hq. cbn [rbind]. eexists _, qs. split; [done|]. split_and!; try done.
  by destruct Hv; split.
Qed.

(** ** Replies fit their buffer *)

Lemma write_frame_keeps k fl i payload out out' n :
  frame.write_frame k fl i payload out = Ok (out', n) -> len out' = len out.
Proof.
  rewrite FrameFacts.write_frame_layout. case_if; [|done]. bool_hyps.
  set (hb := FrameFacts.header_bytes _). assert (len hb = 9) as Hhb by apply FrameFacts.len_header_bytes. clearbody hb.
  intros [= <- <-]. rewrite !len_app, len_zdrop. unfold frame.HEADER_LEN in *. nonneg_lens. lia.
Qed.

Lemma write_frame_at_keeps k fl i payload out l out' n : 0 <= l ->
  conn.write_frame_at k fl i payload out l = Ok (out', n) -> len out' = len out.
Proof.
  intros Hl H. unfold conn.write_frame_at, slice in H. cbn [fst snd] in H.
  destruct (get_range l (len out) out) as [t|] eqn:Eg; [|done]. apply get_range_Some in Eg as (? & ? & ->). cbn [or_panic rbind] in H.
  destruct (frame.write_frame k fl i payload _) as [[tl m]| | |] eqn:Ew; try done. injection H as <- <-.
  apply write_frame_keeps in Ew. rewrite len_app, Ew, len_sub_range by lia. llia.
Qed.

Lemma credit_keeps c i n out c' out' w : conn.credit c i n out = (c', Ok (out', w)) -> len out' = len out.
Proof.
  assert (forall c1 o w0 c2 o2 w2, 0 <= w0 -> conn.credit_stream c1 i n o w0 = (c2, Ok (o2, w2)) -> len o2 = len o) as Hs.
  { intros c1 o w0 c2 o2 w2 H0 H. unfold conn.credit_stream in H.
    destruct (conn.find_stream _ _); [|by simplify_eq]. repeat case_if; try done; [by simplify_eq|].
    destruct (conn.write_frame_at _ _ _ _ _ _) as [[o3 w3]| | |] eqn:Ew; try done. simplify_eq.
    by eapply write_frame_at_keeps. }
  unfold conn.credit. repeat case_if; try done; [by intros [= <- <- <-]|by eapply Hs|].
  destruct (frame.write_frame _ _ _ _ _) as [[o1 w1]| | |] eqn:Ew; try done. intros H.
  assert (0 <= w1) as H1. { rewrite FrameFacts.write_frame_layout in Ew. case_if; [|done]. assert (w1 = 9 + len (to_be 4 (conn.consumed c + n))) as -> by congruence. nonneg_lens. lia. }
  apply Hs in H; [|done]. apply write_frame_keeps in Ew. congruence.
Qed.

(** [recv] replies in the buffer it was given. *)
Lemma recv_keeps bits c b out c' hs ev out' n :
  conn.recv bits c b out = (c', hs, Ok (ev, out', n)) -> len out' = len out.
Proof.
  unfold conn.recv. destruct (let! h := frame.parse b in _) as [[h payload]| | |]; try done. unfold conn.recv_frame, conn.reply.
  destruct (frame.fh_kind h).
  - unfold conn.recv_data. destruct (frame.strip_padding _ _); try done.
    destruct (conn.credit _ _ _ _) as [c1 r] eqn:Ec. destruct r as [[o w]| | |]; try done. intros [= <- <- <- <- <-]. by eapply credit_keeps.
  - unfold conn.recv_headers. intros H. repeat case_match; by simplify_eq.
  - by intros [= <- <- <- <- <-].
  - destruct (conn.read_u32 payload); by intros [= <- <- <- <- <-].
  - case_if; [by intros [= <- <- <- <- <-]|]. destruct (conn.apply_settings _ _) as [c1 [[]| | |]]; try done. cbn [rbind].
    destruct (frame.write_frame _ _ _ _ _) as [[o w]| | |] eqn:Ew; try done. intros [= <- <- <- <- <-]. by eapply write_frame_keeps.
  - done.
  - case_if; [by intros [= <- <- <- <- <-]|]. destruct (frame.write_frame _ _ _ _ _) as [[o w]| | |] eqn:Ew; try done.
    intros [= <- <- <- <- <-]. by eapply write_frame_keeps.
  - destruct (let? p := _ in _); by intros [= <- <- <- <- <-].
  - by intros [= <- <- <- <- <-].
  - unfold conn.recv_headers. intros H. repeat case_match; by simplify_eq.
  - by intros [= <- <- <- <- <-].
Qed.

(** ** The response as the connection sees it *)

Section Response.
Context (USIZE_BITS : Z).

(** The reference: the same handling of frames, with the frames of a list instead
    of the channel's.  What is sent in reply is collected, and the frames not used
    are returned; a list that ends before anything is to be handed out is no
    outcome. *)
Fixpoint chunk_of (conn0 : conn.Connection) (st s room : Z) (frames : list bytes)
  : option (res H2Error (conn.Connection * Z * bytes * bytes * bool * list bytes)) :=
  match frames with
  | [] => None
  | f :: frames =>
      let '(conn1, headers, r) := conn.recv USIZE_BITS conn0 f (zeros 256) in
      match (let! '(ev, replies, n) := map_err Http2Error r in
             let! reply := (if 0 <? n then slice (0, n) replies else Ok []) in
             Ok (on_event s room ev, reply)) with
      | Ok (_, _, Some e, reply) => Some (Err e)
      | Ok (written, finished, None, reply) =>
          let st := read_status st headers in
          if (0 <? len written) || finished then Some (Ok (conn1, st, reply, written, finished, frames)) else
          let? out := chunk_of conn1 st s room frames in
          Some (let! '(c, st, more, written, finished, frames) := out in
                Ok (c, st, reply ++ more, written, finished, frames))
      | Err e => Some (Err e)
      | Panic => Some Panic
      | Hang => Some Hang
      end
  end.

Definition outcome_ok (c : Http2) (more rest : bytes)
    (out : res H2Error (conn.Connection * Z * bytes * bytes * bool * list bytes))
    (r : res H2Error (Http2 * bytes * bool)) : Prop :=
  match out with
  | Ok (conn1, st, replies, written, finished, frames) =>
      exists c' ps qs, r = Ok (c', written, finished) /\ view c' (concat frames ++ more) ps rest /\
        connection c' = conn1 /\ status c' = st /\ concat qs = replies /\ small qs /\ len qs <= len replies /\
        sent c' = sent c ++ sealed (tx c) qs /\ tx c' = bumped (len qs) (tx c)
  | Err e => r = Err e
  | Panic => r = Panic
  | Hang => r = Hang
  end.

Lemma frames_split (f : bytes) frames more : concat (f :: frames) ++ more = f ++ concat frames ++ more.
Proof. cbn [concat]. by rewrite <- app_assoc. Qed.

Lemma read_chunk_follows frames : Forall frame_ok frames -> forall fuel c s room more ps rest out,
  view c (concat frames ++ more) ps rest -> (length frames < fuel)%nat ->
  record.counter (tx c) + 256 * len frames <= record.MAX_COUNTER ->
  chunk_of (connection c) (status c) s room frames = Some out ->
  outcome_ok c more rest out (read_chunk USIZE_BITS fuel c s room).
Proof.
  induction 1 as [|f frames Hf Hfs IH]; intros fuel c s room more ps rest out Hv Hfuel Hcnt Hout; [done|].
  destruct fuel as [|fuel]; [simpl in Hfuel; lia|]. cbn [read_chunk]. rewrite frames_split in Hv. rewrite len_cons in Hcnt.
  destruct (next_frame_ok f (concat frames ++ more) ps Hf (patience c) c rest Hv) as (c1 & ps1 & -> & Hv1 & Ho1 & Hge & _).
  { unfold patience. rewrite (v_coming _ _ _ _ Hv), length_app. pose proof (sealed_length (record.rx (session c)) ps). lia. }
  cbn [rbind]. destruct (consume_ok f _ c1 ps1 rest Hv1 Hge) as (-> & c2 & Hc2 & Hv2 & Ho2). cbn [rbind].
  destruct Ho1 as (Os1 & Oc1 & Ot1 & Ox1 & _). rewrite Oc1. cbn [chunk_of] in Hout.
  destruct (conn.recv USIZE_BITS (connection c) f (zeros 256)) as [[conn1 headers] r] eqn:Er.
  destruct r as [[[ev replies] n]|e| |]; cbn [map_err rbind] in Hout |- *; [|by injection Hout as <-..].
  pose proof (recv_keeps _ _ _ _ _ _ _ _ _ Er) as Hrep.
  set (cr := with_connection c1 conn1 (read_status (status c1) headers)).
  assert (consume cr (len f) = Ok (with_connection c2 conn1 (read_status (status c1) headers))) as Hcr.
  { unfold cr. clear -Hc2. unfold consume, with_connection, with_buffer in *. cbn [buffer filled stream sent session connection status] in *.
    destruct (slice _ _) as [x| | |]; try done. cbn [rbind] in *. destruct (slice_copy _ _ _) as [y| | |]; try done.
    cbn [rbind] in *. injection Hc2 as <-. done. }
  destruct (on_event s room ev) as [[written finished] failed] eqn:Eo. rewrite Hcr. cbn [rbind].
  set (c3 := with_connection c2 conn1 _). destruct Ho2 as (Os2 & Oc2 & Ot2 & Ox2 & _).
  assert (view c3 (concat frames ++ more) ps1 rest) as Hv3 by (by destruct Hv2; split).
  assert (tx c3 = tx c /\ sent c3 = sent c) as [Tx3 Se3] by (split; [unfold tx, c3; simpl; congruence|unfold c3; simpl; congruence]).
  (* the reply, if there is one *)
  destruct (if 0 <? n then slice (0, n) replies else Ok []) as [reply|e| |] eqn:Erp; cbn [rbind] in Hout; cycle 1.
  { exfalso. case_if; [|done]. unfold slice in Erp. by destruct (get_range _ _ _). }
  { injection Hout as <-. case_if; [|done]. by rewrite Erp. }
  { exfalso. case_if; [|done]. unfold slice in Erp. by destruct (get_range _ _ _). }
  assert (len reply <= 256) as Hrl.
  { destruct (0 <? n); [|assert (reply = []) as -> by congruence; rewrite len_nil; lia]. unfold slice in Erp. cbn [fst snd] in Erp.
    destruct (get_range 0 n replies) as [x|] eqn:Eg; [|done]. injection Erp as <-. apply get_range_Some in Eg as (? & ? & ->).
    rewrite len_sub_range by lia. rewrite len_zeros in Hrep. lia. }
  nonneg_lens.
  assert (exists c4 qs, (if 0 <? n then let! reply := slice (0, n) replies in send c3 reply else Ok c3) = Ok c4 /\
    concat qs = reply /\ small qs /\ len qs <= len reply /\ sent c4 = sent c ++ sealed (tx c) qs /\ tx c4 = bumped (len qs) (tx c) /\
    view c4 (concat frames ++ more) ps1 rest /\ connection c4 = conn1 /\ status c4 = read_status (status c) headers)
    as (c4 & qs & -> & Hq1 & Hq2 & Hq3 & Hs4 & Ht4 & Hv4 & Hc4 & Hst4).
  { destruct (0 <? n).
    - rewrite Erp. cbn [rbind]. destruct (send_ok c3 reply _ _ _ Hv3) as (c4 & qs & -> & ? & ? & ? & Hs & Ht & Hv4 & Hc4 & Hst & _).
      { rewrite Tx3. lia. } exists c4, qs. rewrite Tx3, Se3 in *. split_and!; try done. rewrite Hst. simpl. by rewrite Ot1.
    - assert (reply = []) as -> by congruence. exists c3, []. rewrite len_nil, bumped_0, app_nil_r. split_and!; try done; [constructor|simpl; by rewrite Ot1]. }
  cbn [rbind]. destruct failed as [e|]; [by injection Hout as <-|].
  destruct ((0 <? len written) || finished).
  { injection Hout as <-. exists c4, ps1, qs. by split_and!. }
  destruct (chunk_of conn1 (read_status (status c) headers) s room frames) as [out1|] eqn:Ech; [|done]. injection Hout as <-.
  rewrite <- Hc4, <- Hst4 in Ech. pose proof (IH fuel c4 s room more ps1 rest out1 Hv4) as Hrec.
  specialize (Hrec ltac:(simpl in Hfuel; lia)). rewrite Ht4 in Hrec. cbn [bumped record.counter] in Hrec.
  specialize (Hrec ltac:(lia) Ech). destruct out1 as [[[[[[k st] m] w] fin] fs]|e| |]; cbn [rbind outcome_ok] in *; try done.
  destruct Hrec as (c5 & ps5 & qs5 & -> & Hv5 & ? & ? & Hm & Hsm & Hlm & Hs5 & Ht5).
  exists c5, ps5, (qs ++ qs5). rewrite concat_app, Hq1, Hm, sealed_app, !len_app.
  split_and!; try done; [by apply Forall_app|lia| |].
  - by rewrite Hs5, Hs4, Ht4, <- app_assoc.
  - by rewrite Ht5, Ht4, bumped_bumped.
Qed.

End Response.

End Channel.
