(* ===== verification/HarnessH2Theorems.v ===== *)
(** * HTTP/2 over the control channel: requests are answered

    A server that answers a request with its headers and the body in DATA frames,
    after any frames about the connection, all sealed into records cut as it likes
    and delivered as the network likes: the client returns the status and the body,
    and the server decrypts the request. *)

From Stdlib Require Import Strings.String.
From S2P Require Import Prelude Timers Messages Crypto Noise Utf8 H2Frame HpackInt HpackTable Huffman Hpack H2Conn NetAddr HarnessNet Control ControlSession HarnessH2 HarnessH2Facts.
Import net RecordFacts harness_h2 conn ConnFacts frame.

(** ** The frames of a server *)

Definition headers_frame (s : Z) (block : bytes) : bytes :=
  FrameFacts.header_bytes (mkFrameHeader (len block) Headers flags.END_HEADERS s) ++ block.

Definition data_frame (s fl : Z) (payload : bytes) : bytes :=
  FrameFacts.header_bytes (mkFrameHeader (len payload) Data fl s) ++ payload.

(** A body in pieces, the last of which ends the stream. *)
Fixpoint data_frames (s : Z) (pieces : list bytes) : list bytes :=
  match pieces with
  | [] => []
  | [p] => [data_frame s flags.END_STREAM p]
  | p :: pieces => data_frame s 0 p :: data_frames s pieces
  end.

Lemma frame_ok_of k fl s payload : 0 <= s -> len payload <= DEFAULT_MAX_FRAME ->
  frame_ok (FrameFacts.header_bytes (mkFrameHeader (len payload) k fl s) ++ payload).
Proof.
  intros Hs Hl. pose proof (FrameFacts.len_header_bytes (mkFrameHeader (len payload) k fl s)) as Hh. nonneg_lens.
  unfold DEFAULT_MAX_FRAME in Hl. split.
  - rewrite FrameFacts.parse_header by done. eexists. split; [done|]. cbn [fh_length].
    rewrite Z.mod_small by lia. rewrite len_app, Hh. done.
  - rewrite len_app, Hh. unfold HEADER_LEN, DEFAULT_MAX_FRAME. lia.
  - rewrite len_app, Hh. unfold HEADER_LEN. lia.
Qed.

Lemma data_frames_ok s pieces : 0 <= s -> Forall (fun p => len p <= DEFAULT_MAX_FRAME) pieces ->
  Forall frame_ok (data_frames s pieces).
Proof.
  intros Hs. induction 1 as [|p pieces Hp Hps IH]; [constructor|]. destruct pieces as [|q pieces].
  - constructor; [by apply frame_ok_of|constructor].
  - constructor; [by apply frame_ok_of|done].
Qed.

Section Answer.
Context (USIZE_BITS : Z) (Husize : 16 <= USIZE_BITS).

(** A header block that decodes to the same headers whatever the table. *)
Definition block_means (block : bytes) (hs : list (bytes * bytes)) : Prop :=
  forall d, table_ok d -> exists d', decode USIZE_BITS d block = (d', hs, Ok tt) /\ table_ok d'.

(** A frame about the connection: it is accepted, and is no part of a response. *)
Definition quiet (f : bytes) : Prop :=
  forall c, conn_ok c -> exists c' out n, recv USIZE_BITS c f (zeros 256) = (c', [], Ok (Nothing, out, n)) /\ 0 <= n <= 256 /\ conn_ok c'.

Lemma recv_headers_frame c s block hs out : conn_ok c -> block_means block hs -> bytes_ok block -> len block <= MAX_HEADER_BLOCK ->
  0 <= s < 2 ^ 31 ->
  exists c', recv USIZE_BITS c (headers_frame s block) out = (c', hs, Ok (EHeaders s false, out, 0)) /\ conn_ok c'.
Proof.
  intros Hc Hm Hb Hl Hs. unfold recv, headers_frame, MAX_HEADER_BLOCK in *. nonneg_lens.
  pose proof (FrameFacts.parse_header (mkFrameHeader (len block) Headers flags.END_HEADERS s) block) as Hp.
  cbn [fh_length fh_kind fh_flags fh_stream from_byte to_byte] in Hp. rewrite !Z.mod_small in Hp by lia. rewrite Hp by lia.
  set (h := mkFrameHeader _ _ _ _) in *. cbn [rbind]. change (fh_length h) with (len block).
  rewrite get_range_back; cycle 1.
  { by rewrite FrameFacts.len_header_bytes. }
  { by rewrite FrameFacts.len_header_bytes. }
  cbn [ok_or rbind]. unfold recv_frame. cbn [fh_kind h]. unfold recv_headers. cbn [fh_kind h fh_stream fh_flags].
  unfold strip_padding. change (Z.land flags.END_HEADERS flags.PADDED =? 0) with true. cbn [rbind].
  change (has h flags.PRIORITY) with false. change (has h flags.END_STREAM) with false. change (has h flags.END_HEADERS) with true.
  cbn [negb header_block with_header with_block header_stream header_end_stream decoder]. rewrite len_nil. unfold MAX_HEADER_BLOCK.
  rewrite (proj2 (Z.ltb_ge _ _)) by lia. cbn [app].
  destruct (Hm (decoder c) (ok_table _ Hc)) as (d' & -> & Ht). eexists. split; [done|].
  destruct Hc as [? ? ? ? ? ?]. split; simpl; try done.
Qed.

(** Settings, and the peer's window. *)
Lemma quiet_settings payload : bytes_ok payload -> len payload < 2 ^ 24 -> len payload mod 6 = 0 ->
  quiet (FrameFacts.header_bytes (mkFrameHeader (len payload) Settings 0 0) ++ payload).
Proof.
  intros Hb Hl H6 c Hc. unfold recv. nonneg_lens. rewrite FrameFacts.parse_header by done.
  cbn [fh_length fh_kind fh_flags fh_stream from_byte to_byte rbind]. rewrite Z.mod_small by lia.
  rewrite get_range_back by (by rewrite FrameFacts.len_header_bytes). cbn [ok_or rbind recv_frame fh_kind].
  unfold apply_settings. rewrite H6. change (has _ flags.ACK) with false. cbv iota. cbn [Z.eqb negb]. unfold reply. cbn [rbind].
  rewrite FrameFacts.write_frame_layout. change (HEADER_LEN + len [] <=? len (zeros 256)) with true. cbn [rbind]. cbv iota.
  do 3 eexists. split; [reflexivity|]. split; [vm_compute; split; congruence|]. by apply (apply_entries_ok (length payload)).
Qed.

Lemma quiet_window s payload : 0 <= s -> len payload < 2 ^ 24 ->
  quiet (FrameFacts.header_bytes (mkFrameHeader (len payload) WindowUpdate 0 s) ++ payload).
Proof.
  intros Hs Hl c Hc. unfold recv. nonneg_lens. rewrite FrameFacts.parse_header by done.
  cbn [fh_length fh_kind fh_flags fh_stream from_byte to_byte rbind]. rewrite (Z.mod_small (len payload)) by lia.
  rewrite get_range_back by (by rewrite FrameFacts.len_header_bytes). cbn [ok_or rbind recv_frame fh_kind].
  do 3 eexists. split; [reflexivity|]. split; [lia|done].
Qed.

(** ** What the connection makes of them *)

(** A chunk comes out of the frames, and [frames'] are left. *)
Definition yields (k : Connection) (st s room : Z) (frames : list bytes) (k' : Connection) (st' : Z)
    (data : bytes) (fin : bool) (frames' : list bytes) : Prop :=
  exists replies, chunk_of USIZE_BITS k st s room frames = Some (Ok (k', st', replies, data, fin, frames')) /\
    len replies <= 256 * (len frames - len frames') /\ len frames' < len frames.

Lemma reply_of (replies : bytes) n : 0 <= n <= len replies ->
  exists reply, (if 0 <? n then slice (0, n) replies else Ok []) = @Ok harness_h2.H2Error _ reply /\ len reply = n.
Proof.
  intros Hn. case_if; bool_hyps; [|exists []; rewrite len_nil; split; [done|lia]].
  unfold slice. cbn [fst snd]. rewrite get_range_in by lia. eexists. split; [done|]. rewrite len_sub_range; lia.
Qed.

Lemma yields_skip k st s room f frames k1 hs ev out n k' st' data fin frames' :
  recv USIZE_BITS k f (zeros 256) = (k1, hs, Ok (ev, out, n)) -> 0 <= n <= len out -> on_event s room ev = ([], false, None) ->
  yields k1 (read_status st hs) s room frames k' st' data fin frames' ->
  yields k st s room (f :: frames) k' st' data fin frames'.
Proof.
  intros Hr Hn He (more & Hm & Hl & Hlt). pose proof (recv_keeps _ _ _ _ _ _ _ _ _ Hr) as Hk.
  destruct (reply_of out n Hn) as (reply & Hrep & Hlen). rewrite len_zeros in Hk. rewrite Hk in Hn.
  exists (reply ++ more). cbn [chunk_of]. rewrite Hr. cbn [map_err rbind]. rewrite Hrep. cbn [rbind]. rewrite He.
  change (0 <? len (@nil Z)) with false. cbn [orb]. rewrite Hm. cbn [rbind]. rewrite len_app, len_cons. split; [done|]. lia.
Qed.

Lemma yields_stop k st s room f frames k1 hs ev out n data fin :
  recv USIZE_BITS k f (zeros 256) = (k1, hs, Ok (ev, out, n)) -> 0 <= n <= len out -> on_event s room ev = (data, fin, None) ->
  (0 <? len data) || fin = true ->
  yields k st s room (f :: frames) k1 (read_status st hs) data fin frames.
Proof.
  intros Hr Hn He Hd. pose proof (recv_keeps _ _ _ _ _ _ _ _ _ Hr) as Hk.
  destruct (reply_of out n Hn) as (reply & Hrep & Hlen). rewrite len_zeros in Hk. rewrite Hk in Hn.
  exists reply. cbn [chunk_of]. rewrite Hr. cbn [map_err rbind]. rewrite Hrep. cbn [rbind]. rewrite He, Hd, len_cons.
  split; [done|]. lia.
Qed.

(** The frames hold a response on stream [s] whose body is the pieces: a chunk of
    it comes out, and the others are left. *)
Definition opens (k : Connection) (st s : Z) (frames : list bytes) (st' : Z) (pieces : list bytes) : Prop :=
  forall room, len (concat pieces) <= room ->
  exists k' data fin pieces', yields k st s room frames k' st' data fin (data_frames s pieces') /\ conn_ok k' /\
    concat pieces = data ++ concat pieces' /\ fin = (match pieces' with [] => true | _ => false end) /\
    (length pieces' < length pieces)%nat /\ Forall (fun p => len p <= DEFAULT_MAX_FRAME) pieces'.

(** A frame passed over. *)
Lemma opens_skip k st s f frames st' pieces k1 hs ev out n :
  recv USIZE_BITS k f (zeros 256) = (k1, hs, Ok (ev, out, n)) -> 0 <= n <= len out ->
  (forall room, on_event s room ev = ([], false, None)) ->
  opens k1 (read_status st hs) s frames st' pieces -> opens k st s (f :: frames) st' pieces.
Proof.
  intros Hr Hn He Ho room Hroom. destruct (Ho room Hroom) as (k' & data & fin & pieces' & Hy & Hrest).
  exists k', data, fin, pieces'. split; [|exact Hrest]. by eapply yields_skip.
Qed.

Lemma opens_notes notes frames st s st' pieces : Forall quiet notes ->
  (forall k, conn_ok k -> opens k st s frames st' pieces) -> forall k, conn_ok k -> opens k st s (notes ++ frames) st' pieces.
Proof.
  intros Hq Ho. induction Hq as [|f notes Hf _ IH]; intros k Hk; [by apply Ho|].
  destruct (Hf k Hk) as (k1 & out & n & Hr & Hn & Hk1). cbn [app]. eapply opens_skip; [done| |done|by apply IH].
  by rewrite (recv_keeps _ _ _ _ _ _ _ _ _ Hr).
Qed.

Lemma opens_data pieces k st s : pieces <> [] -> conn_ok k -> 0 <= s < 2 ^ 31 ->
  Forall (fun p => len p <= DEFAULT_MAX_FRAME) pieces -> opens k st s (data_frames s pieces) st pieces.
Proof.
  intros Hne Hk Hs Hp; revert k Hk; induction Hp as [|p pieces Hp Hps IH]; intros k Hk room Hroom; [done|].
  assert (forall fl, Z.land fl flags.PADDED = 0 -> exists k1 out w, recv USIZE_BITS k (data_frame s fl p) (zeros 256) =
    (k1, [], Ok (EData s p (negb (Z.land fl flags.END_STREAM =? 0)), out, w)) /\ conn_ok k1 /\ 0 <= w <= len out) as Hr.
  { intros fl Hfl. pose proof (recv_data_frame USIZE_BITS k fl s p [] (zeros 256) Hk) as Hr. rewrite app_nil_r in Hr.
    unfold DEFAULT_MAX_FRAME in Hp. apply Hr; rewrite ?len_zeros; (done || lia). }
  cbn [concat] in Hroom. rewrite len_app in Hroom. nonneg_lens.
  assert (forall e, on_event s room (EData s p e) = (p, e, None)) as Hev.
  { intros e. unfold on_event. rewrite Z.eqb_refl, (proj2 (Z.ltb_ge _ _)) by lia. done. }
  destruct pieces as [|q pieces].
  - destruct (Hr flags.END_STREAM eq_refl) as (k1 & out & w & Hrec & Hk1 & Hw).
    exists k1, p, true, []. split_and!; try done; [|simpl; lia]. cbn [data_frames]. apply (yields_stop k st s room _ [] k1 [] (EData s p true) out w); try done.
    by rewrite orb_true_r.
  - destruct (Hr 0 eq_refl) as (k1 & out & w & Hrec & Hk1 & Hw). change (data_frames s (p :: q :: pieces)) with (data_frame s 0 p :: data_frames s (q :: pieces)).
    destruct (0 <? len p) eqn:E; bool_hyps.
    + exists k1, p, false, (q :: pieces). split_and!; try done; [|simpl; lia]. apply (yields_stop k st s room _ _ k1 [] (EData s p false) out w); try done.
      rewrite (proj2 (Z.ltb_lt _ _)) by done. done.
    + assert (p = []) as -> by (apply len_zero_nil; lia).
      destruct (IH ltac:(done) k1 Hk1 room ltac:(rewrite len_nil in *; lia)) as (k' & data & fin & pieces' & Hy & Hk' & Hcat & Hfin & Hlt & Hps').
      exists k', data, fin, pieces'. split_and!; try done; [|simpl in *; lia].
      by apply (yields_skip k st s room _ _ k1 [] (EData s [] false) out w).
Qed.

(** *** A body that does not end *)

Lemma yields_piece k st s room p frames : conn_ok k -> 0 <= s < 2 ^ 31 -> 0 < len p <= DEFAULT_MAX_FRAME -> len p <= room ->
  exists k', yields k st s room (data_frame s 0 p :: frames) k' st p false frames /\ conn_ok k'.
Proof.
  intros Hk Hs Hp Hroom. pose proof (recv_data_frame USIZE_BITS k 0 s p [] (zeros 256) Hk) as Hr. rewrite app_nil_r in Hr.
  unfold DEFAULT_MAX_FRAME in Hp. destruct Hr as (k1 & out & w & Hrec & Hk1 & Hw); rewrite ?len_zeros; try (done || lia).
  exists k1. split; [|done]. apply (yields_stop k st s room _ _ k1 [] (EData s p false) out w); try done.
  - unfold on_event. by rewrite Z.eqb_refl, (proj2 (Z.ltb_ge _ _)) by lia.
  - by rewrite (proj2 (Z.ltb_lt _ _)) by lia.
Qed.

(** Behind frames about the connection and the headers. *)
Lemma yields_response notes block hs k st s room frames data fin frames' :
  Forall quiet notes -> block_means block hs -> bytes_ok block -> len block <= MAX_HEADER_BLOCK -> 0 <= s < 2 ^ 31 -> conn_ok k ->
  (forall k1, conn_ok k1 -> exists k', yields k1 (read_status st hs) s room frames k' (read_status st hs) data fin frames' /\ conn_ok k') ->
  exists k', yields k st s room (notes ++ headers_frame s block :: frames) k' (read_status st hs) data fin frames' /\ conn_ok k'.
Proof.
  intros Hq Hm Hbb Hbl Hs Hk Hy. revert k Hk. induction Hq as [|f notes Hf _ IH]; intros k Hk; cbn [app].
  - destruct (recv_headers_frame k s block hs (zeros 256) Hk Hm Hbb Hbl Hs) as (k1 & Hr & Hk1).
    destruct (Hy k1 Hk1) as (k' & Hy' & Hk'). exists k'. split; [|done].
    eapply yields_skip; [exact Hr|rewrite len_zeros; lia| |exact Hy']. unfold on_event. by rewrite Z.eqb_refl.
  - destruct (Hf k Hk) as (k1 & out & n & Hr & Hn & Hk1). destruct (IH k1 Hk1) as (k' & Hy' & Hk'). exists k'. split; [|done].
    eapply yields_skip; [exact Hr| |done|exact Hy']. by rewrite (recv_keeps _ _ _ _ _ _ _ _ _ Hr).
Qed.

(** ** Over the channel *)

Context `{P : Primitives} {POk : PrimitivesOk P}.

(** There is patience for every frame, and more. *)
Lemma view_patience c frames more ps rest : view c (concat frames ++ more) ps rest -> Forall frame_ok frames ->
  (length frames < patience c)%nat.
Proof.
  intros Hv Hf. assert (length frames <= length (concat frames))%nat as Hl.
  { clear Hv. induction Hf as [|f frames Hf _ IH]; [done|]. cbn [concat length]. rewrite length_app.
    pose proof (fo_long _ Hf). unfold HEADER_LEN, len in *. lia. }
  assert (length (concat ps) <= length (sealed (record.rx (session c)) ps))%nat as Hs.
  { generalize (record.rx (session c)). clear -POk. induction ps as [|p ps IH]; intros r; cbn [concat sealed]; [done|].
    rewrite !length_app. pose proof (len_record r p) as Hr. unfold record.HEADER_LEN, TAG_LEN, len in Hr. specialize (IH (bump r)). lia. }
  destruct Hv as [_ Hcom _ _ Hb Hfil Hp]. unfold patience. rewrite Hcom, length_app.
  apply (f_equal length) in Hp. rewrite !length_app in Hp. pose proof (len_ztake (filled c) (buffer c)) as Ht. unfold len in Ht, Hb. lia.
Qed.

(** One chunk. *)
Lemma read_chunk_yields c s room frames more ps rest k' st' data fin frames' :
  Forall frame_ok frames -> view c (concat frames ++ more) ps rest ->
  record.counter (tx c) + 256 * len frames <= record.MAX_COUNTER ->
  yields (connection c) (status c) s room frames k' st' data fin frames' ->
  exists c' ps' qs, read_chunk USIZE_BITS (patience c) c s room = Ok (c', data, fin) /\ view c' (concat frames' ++ more) ps' rest /\
    connection c' = k' /\ status c' = st' /\ small qs /\ sent c' = sent c ++ sealed (tx c) qs /\ tx c' = bumped (len qs) (tx c) /\
    len qs <= 256 * (len frames - len frames').
Proof.
  intros Hf Hv Hc (replies & Hy & Hl & _). pose proof (view_patience _ _ _ _ _ Hv Hf) as Hp.
  pose proof (read_chunk_follows USIZE_BITS frames Hf (patience c) c s room more ps rest _ Hv Hp Hc Hy) as H.
  destruct H as (c' & ps' & qs & ? & ? & ? & ? & ? & ? & ? & ? & ?). exists c', ps', qs. split_and!; try done. lia.
Qed.

(** A body, from the frames that open it on. *)
Lemma read_body_opens n : forall fuel c s body (body_out : bytes) frames st' pieces more ps rest,
  (length pieces <= n)%nat -> (n < fuel)%nat -> 0 <= s < 2 ^ 31 -> opens (connection c) (status c) s frames st' pieces ->
  len body + len (concat pieces) <= len body_out -> Forall frame_ok frames -> view c (concat frames ++ more) ps rest ->
  record.counter (tx c) + 256 * len frames <= record.MAX_COUNTER ->
  exists c' ps' qs, read_body USIZE_BITS fuel c s body body_out = Ok (c', st', body ++ concat pieces) /\ view c' more ps' rest /\
    conn_ok (connection c') /\ small qs /\ sent c' = sent c ++ sealed (tx c) qs /\ tx c' = bumped (len qs) (tx c).
Proof.
  induction n as [|n IH]; intros fuel c s body body_out frames st' pieces more ps rest Hn Hfuel Hs Ho Hlen Hf Hv Hc;
    (destruct (Ho (len body_out - len body)) as (k' & data & fin & pieces' & Hy & Hk' & Hcat & Hfin & Hlt & Hp'); [lia|]); [lia|].
  destruct fuel as [|fuel]; [lia|]. cbn [read_body]. unfold slice. cbn [fst snd]. nonneg_lens. rewrite get_range_in by lia.
  cbn [or_panic rbind]. rewrite len_sub_range by lia.
  destruct (read_chunk_yields c s _ _ more ps rest _ _ _ _ _ Hf Hv Hc Hy)
    as (c1 & ps1 & qs1 & -> & Hv1 & Hk1 & Hst1 & Hsm1 & Hse1 & Ht1 & Hq1). cbn [rbind]. rewrite Hcat. rewrite Hcat, len_app in Hlen.
  destruct pieces' as [|q pieces']; subst fin.
  - exists c1, ps1, qs1. cbn [concat]. rewrite Hst1, app_nil_r, Hk1. by split_and!.
  - destruct (IH fuel c1 s (body ++ data) body_out (data_frames s (q :: pieces')) st' (q :: pieces') more ps1 rest)
      as (c2 & ps2 & qs2 & -> & Hv2 & Hk2 & Hsm2 & Hse2 & Ht2);
      try done; try lia.
    + rewrite Hst1, Hk1. by apply opens_data.
    + rewrite len_app. lia.
    + apply data_frames_ok; [lia|done].
    + rewrite Ht1. cbn [bumped record.counter]. lia.
    + exists c2, ps2, (qs1 ++ qs2). rewrite <- app_assoc, sealed_app, len_app, Hse2, Hse1, Ht2, Ht1, bumped_bumped, <- app_assoc.
      split_and!; try done. by apply Forall_app.
Qed.

(** ** Requests *)

Definition asked (method path authority : bytes) : list (bytes * bytes) :=
  request_headers method path authority (str "http") [(str "content-type", str "application/json")].

(** A request the connection has a stream for, and the peer's frames the room. *)
Record sendable (k : Connection) (hs : list (bytes * bytes)) (body : bytes) : Prop := {
  se_conn : conn_ok k;
  se_headers : Forall header_ok hs;
  se_streams : len (streams k) < MAX_STREAMS;
  se_stream : 0 < next_stream k < 2 ^ 31;
  se_block : len (block_bytes hs) <= peer_max_frame k;
  se_body : len body <= peer_max_frame k;
  se_room : len (request_bytes (next_stream k) hs body) <= OUT_BUFFER;
}.

Lemma request_ok k method path authority body : sendable k (asked method path authority) body ->
  let b := request_bytes (next_stream k) (asked method path authority) body in
  exists k' out, conn.request k method path authority (str "http") [(str "content-type", str "application/json")] body (zeros OUT_BUFFER)
      = (k', Ok (next_stream k, out, len b)) /\ slice (0, len b) out = @Ok harness_h2.H2Error _ b /\ conn_ok k'.
Proof.
  intros [Hk Hh Hs Hi Hb Hbo Hr]. cbv zeta. set (b := request_bytes _ _ _) in *.
  assert (len (block_bytes (asked method path authority)) <= MAX_HEADER_BLOCK) as Hmax.
  { unfold b, request_bytes in Hr. rewrite !len_app in Hr. unfold OUT_BUFFER in Hr. unfold MAX_HEADER_BLOCK.
    set (u := if len body =? 0 then [] else _) in Hr. nonneg_lens. lia. }
  destruct (request_wire USIZE_BITS k method path authority (str "http") body (zeros OUT_BUFFER) [(str "content-type", str "application/json")]
    (DynamicTable.new 0) Husize Hh Hs ltac:(unfold U32_MAX; lia) Hmax Hb Hbo) as (k' & out & Hq & Ht & _).
  { rewrite len_zeros. exact Hr. }
  change (ztake (len b) out = b) in Ht. exists k', out. split; [exact Hq|]. split.
  - unfold slice. cbn [fst snd]. pose proof (f_equal len Ht) as Hl. rewrite len_ztake in Hl. nonneg_lens.
    rewrite get_range_in by lia. unfold sub_range. rewrite Z.sub_0_r, zdrop_0 by done. by rewrite Ht.
  - unfold conn.request in Hq. rewrite (proj2 (Z.eqb_neq _ _)) in Hq by lia. cbn [next_stream with_streams] in Hq.
    rewrite (proj2 (Z.ltb_ge _ _)) in Hq by (unfold U32_MAX; lia). apply (f_equal fst) in Hq. cbn [fst] in Hq. subst k'.
    destruct Hk. split; try done; cbn [streams with_streams with_next].
    + apply Forall_app. split; [done|]. repeat constructor; cbn [id st_consumed open]; (done || lia).
    + rewrite len_app, len_cons, len_nil. lia.
Qed.

Lemma send_request_ok c method path authority body plain ps rest :
  sendable (connection c) (asked method path authority) body -> view c plain ps rest ->
  record.counter (tx c) + OUT_BUFFER <= record.MAX_COUNTER ->
  exists c1 qs, send_request c method path authority body = Ok (c1, next_stream (connection c)) /\ view c1 plain ps rest /\
    conn_ok (connection c1) /\ status c1 = status c /\ sent c1 = sent c ++ sealed (tx c) qs /\ small qs /\ len qs <= OUT_BUFFER /\
    concat qs = request_bytes (next_stream (connection c)) (asked method path authority) body /\ tx c1 = bumped (len qs) (tx c).
Proof.
  intros Hse Hv Hcnt. destruct (request_ok _ _ _ _ _ Hse) as (k' & out & Hreq & Hsl & Hk'). pose proof (se_room _ _ _ Hse) as Hb.
  set (b := request_bytes _ _ body) in *. unfold send_request. rewrite Hreq. cbn [map_err rbind]. rewrite Hsl. cbn [rbind].
  set (c0 := with_connection c k' (status c)). assert (view c0 plain ps rest) as Hv0 by (by destruct Hv; split). nonneg_lens.
  destruct (send_ok c0 b _ _ _ Hv0) as (c1 & qs & -> & Hcb & Hsm & Hql & Hse1 & Ht1 & Hv1 & Hc1 & Hst1 & _).
  { change (tx c0) with (tx c). lia. }
  cbn [rbind]. exists c1, qs. rewrite Hc1. split_and!; try done. lia.
Qed.

(** C16: A request is answered.  Whatever frames about the connection come first,
    however the server cuts its frames into records and the network the records
    into arrivals: when the server answers on the stream of the request with a
    header block and a body in DATA frames that fits the caller's buffer, the
    client returns the status of the block and the whole body, the bytes behind
    the response are still to be read, and the records it sent decrypt to the
    request followed by its replies. *)
Theorem request_answered (c : Http2) (method path authority body body_out : bytes)
    (notes : list bytes) (block : bytes) (hs : list (bytes * bytes)) (pieces : list bytes)
    (more : bytes) (ps : list bytes) (rest : bytes) :
  let i := next_stream (connection c) in
  let frames := notes ++ headers_frame i block :: data_frames i pieces in
  sendable (connection c) (asked method path authority) body ->
  Forall quiet notes -> Forall frame_ok notes -> block_means block hs -> bytes_ok block -> len block <= MAX_HEADER_BLOCK ->
  pieces <> [] -> Forall (fun p => len p <= DEFAULT_MAX_FRAME) pieces -> len (concat pieces) <= len body_out ->
  view c (concat frames ++ more) ps rest ->
  record.counter (tx c) + OUT_BUFFER + 256 * len frames <= record.MAX_COUNTER ->
  exists c' ps' qs replies,
    harness_h2.request USIZE_BITS c method path authority body body_out = Ok (c', read_status (status c) hs, concat pieces) /\
    view c' more ps' rest /\ conn_ok (connection c') /\
    sent c' = sent c ++ sealed (tx c) qs /\ small qs /\ tx c' = bumped (len qs) (tx c) /\
    concat qs = request_bytes i (asked method path authority) body ++ replies.
Proof.
  intros i frames Hse Hq Hqf Hm Hbb Hbl Hne Hp Hlen Hv Hcnt. pose proof (se_stream _ _ _ Hse) as Hi. fold i in Hi. nonneg_lens.
  destruct (send_request_ok c method path authority body _ ps rest Hse Hv) as (c1 & qs & Hsend & Hv1 & Hk' & Hst1 & Hse1 & Hsm & Hql & Hcb & Ht1); [lia|].
  fold i in Hsend, Hcb. unfold harness_h2.request. rewrite Hsend. cbn [rbind].
  assert (Forall frame_ok frames) as Hf.
  { apply Forall_app. split; [done|]. constructor; [|apply data_frames_ok; [lia|done]].
    apply frame_ok_of; [lia|]. unfold MAX_HEADER_BLOCK, DEFAULT_MAX_FRAME in *. lia. }
  assert (opens (connection c1) (status c1) i frames (read_status (status c) hs) pieces) as Ho.
  { rewrite Hst1. apply opens_notes; [done| |done]. intros k Hk.
    destruct (recv_headers_frame k i block hs (zeros 256) Hk Hm Hbb Hbl ltac:(lia)) as (k1 & Hr & Hk1).
    eapply opens_skip; [exact Hr|rewrite len_zeros; lia| |apply opens_data; [done|done|lia|done]].
    intros room. unfold on_event. by rewrite Z.eqb_refl. }
  assert (length pieces <= length frames)%nat as Hlf.
  { unfold frames. rewrite length_app. cbn [length]. clear. induction pieces as [|x [|y l] IH]; [simpl; lia..|].
    change (data_frames i (x :: y :: l)) with (data_frame i 0 x :: data_frames i (y :: l)). cbn [length] in *. lia. }
  pose proof (view_patience _ _ _ _ _ Hv1 Hf) as Hpat.
  destruct (read_body_opens (length pieces) (patience c1) c1 i [] body_out frames _ pieces more ps rest ltac:(lia) ltac:(lia) ltac:(lia) Ho)
    as (c2 & ps2 & qs2 & -> & Hv2 & Hk2 & Hsm2 & Hse2 & Ht2); try done.
  { rewrite Ht1. cbn [bumped record.counter]. lia. }
  exists c2, ps2, (qs ++ qs2), (concat qs2). rewrite Hse2, Hse1, Ht2, Ht1, bumped_bumped, sealed_app, concat_app, len_app, Hcb, <- app_assoc.
  split_and!; try done. by apply Forall_app.
Qed.

End Answer.

(** C17: The framings do not show.  What [read_chunk] does with the records and the
    arrivals is what the same handling does with the list of the frames: the same
    chunk or the same error, the same connection and status afterwards, and the
    replies, sealed in order, for the server; whatever follows the frames is still
    to be read. *)
Theorem read_chunk_exact `{P : Primitives} {POk : PrimitivesOk P} (USIZE_BITS : Z) (frames : list bytes) (c : Http2) (s room : Z)
    (more : bytes) (ps : list bytes) (rest : bytes) out :
  Forall frame_ok frames -> view c (concat frames ++ more) ps rest ->
  record.counter (tx c) + 256 * len frames <= record.MAX_COUNTER ->
  chunk_of USIZE_BITS (connection c) (status c) s room frames = Some out ->
  outcome_ok c more rest out (read_chunk USIZE_BITS (patience c) c s room).
Proof. intros Hf Hv Hc Ho. eapply read_chunk_follows; eauto. by eapply view_patience. Qed.

(** ** A response in three records, delivered in two pieces *)

#[local] Existing Instance Toy.prims.
#[local] Existing Instance Toy.prims_ok.

Module Example.

Definition notes : list bytes := [FrameFacts.header_bytes (mkFrameHeader (len (@nil Z)) Settings 0 0) ++ []].
Definition pieces : list bytes := [[104; 105]; []; [33]].
Definition plain : bytes := concat (notes ++ headers_frame 1 [0x88] :: data_frames 1 pieces) ++ [7].
Definition records : list bytes := [ztake 4 plain; sub_range 4 20 plain; zdrop 20 plain].
Definition wire : bytes := sealed (record.mkCipher [2] 0) records.
Definition client : Http2 :=
  mkHttp2 (net.mkStream [ztake 5 wire; zdrop 5 wire] None) [] (record.new [1] [2]) conn.new (zeros BUFFER) 0 0.

Lemma client_view : view client plain records [].
Proof.
  split; try (vm_compute; congruence); try (vm_compute; intuition congruence).
  - repeat constructor; vm_compute; reflexivity.
  - repeat constructor; vm_compute; congruence.
Qed.

Definition frames : list bytes := notes ++ headers_frame 1 [0x88] :: data_frames 1 pieces.
Definition outcome : res harness_h2.H2Error (Connection * Z * bytes * bytes * bool * list bytes) :=
  default Panic (chunk_of 32 conn.new 0 1 16 frames).

End Example.

Lemma read_chunk_exact_witness :
  outcome_ok Example.client [7] [] Example.outcome (read_chunk 32 (patience Example.client) Example.client 1 16) /\ is_ok Example.outcome = true.
Proof.
  split; [|vm_compute; reflexivity]. apply (read_chunk_exact 32 Example.frames Example.client 1 16 [7] Example.records []).
  - repeat (apply Forall_cons; split; [apply frame_ok_of; [lia|vm_compute; congruence]|]). apply Forall_nil. exact I.
  - apply Example.client_view.
  - vm_compute; congruence.
  - vm_compute; reflexivity.
Defined.

Lemma request_answered_witness :
  exists c' ps' qs replies,
    harness_h2.request 32 Example.client (str "POST") (str "/m") (str "h") [123; 125] (zeros 8) = Ok (c', 200, [104; 105; 33]) /\
    view c' [7] ps' [] /\ conn_ok (connection c') /\
    sent c' = [] ++ sealed (record.mkCipher [1] 0) qs /\ small qs /\ tx c' = bumped (len qs) (record.mkCipher [1] 0) /\
    concat qs = request_bytes 1 (asked (str "POST") (str "/m") (str "h")) [123; 125] ++ replies.
Proof.
  apply (request_answered 32 ltac:(lia) Example.client (str "POST") (str "/m") (str "h") [123; 125] (zeros 8)
    Example.notes [0x88] [(str ":status", str "200")] Example.pieces [7] Example.records []).
  - split; try (vm_compute; intuition congruence); [apply conn_ok_new|].
    repeat constructor; vm_compute; congruence.
  - apply Forall_singleton. apply quiet_settings; [constructor|done|done].
  - apply Forall_singleton. apply frame_ok_of; [done|vm_compute; congruence].
  - intros d Hd. exists d. split; [reflexivity|exact Hd].
  - repeat constructor; vm_compute; congruence.
  - vm_compute; congruence.
  - discriminate.
  - repeat constructor; vm_compute; congruence.
  - vm_compute; congruence.
  - apply Example.client_view.
  - vm_compute; congruence.
Defined.
