(* ===== verification/HarnessControl.v ===== *)
(** * The harness: bringing up the control connection

    [harness/src/control.rs]: the server's key, the upgrade and the handshake, the
    early payload, and the two requests made over HTTP/2: registering, and the long
    poll for the network map.

    What a connection attempt gives is an argument, and so is what the random
    generator produces at each use.  A step that fails drops its connection, so only
    a step that succeeds tells what it sent.  Reports on the console are left out,
    except for the counts that [configure_peers] makes for its own. *)

From Stdlib Require Import Strings.String.
From S2P Require Import Prelude Timers Messages Crypto Noise Device Text Utf8 Keys KeyStore StoreFile NetAddr Json H2Conn Control Netmap NetmapParser NetmapStream ControlMessages Upgrade HarnessNet HarnessH2.
Import keys net.
Module E := control_error.
Abbreviation ControlError := E.ControlError.

Module harness_control.

Definition HTTP_BUFFER : Z := 2048.

(** [heapless::Vec::extend_from_slice]: nothing is appended if it does not all fit. *)
Definition extend_from_slice (cap : Z) (v x : bytes) : option bytes :=
  if cap <? len v + len x then None else Some (v ++ x).

(** ** Small text *)

(** [json_string] *)
Definition json_string (body field : bytes) : res ControlError (option bytes) :=
  if negb (utf8_valid body) then Ok None else
  let! pattern := or_panic (set_at 0 34 (zeros 64)) in
  let! pattern := slice_copy (1, 1 + len field) field pattern in
  let! pattern := or_panic (set_at (1 + len field) 34 pattern) in
  let! quoted := slice (0, len field + 2) pattern in
  Ok (if negb (utf8_valid quoted) then None else
      let? i := position quoted body in
      let rest := register.trim_start (zdrop (i + len quoted) body) in
      let? rest := encoding.strip_prefix [58] rest in
      let? rest := encoding.strip_prefix [34] (register.trim_start rest) in
      let? finish := position [34] rest in
      Some (ztake finish rest)).

(** [Buffer::write_str] inside [write_host]: a piece that does not fit is an error,
    which ends the formatting. *)
Fixpoint write_pieces (pieces : list bytes) (out : bytes) (filled : Z) : res ControlError (bytes * Z) :=
  match pieces with
  | [] => Ok (out, filled)
  | s :: pieces =>
      let finish := filled + len s in
      if len out <? finish then Ok (out, filled) else
      let! out := slice_copy (filled, finish) s out in
      write_pieces pieces out finish
  end.

(** The pieces in which [{address}:{port}] is formatted: decimal numbers between
    their separators. *)
Definition host_pieces (address : bytes) (port : Z) : list bytes :=
  concat (imap (fun i o => (if (i =? 0)%nat then [] else [str "."]) ++ [json.decimal 20 o]) address) ++
  [str ":"; json.decimal 20 port].

Definition write_host (address : bytes) (port : Z) : res ControlError bytes :=
  let! '(out, n) := write_pieces (host_pieces address port) (zeros 32) 0 in
  let! text := slice (0, n) out in
  if utf8_valid text then Ok text else Panic.

(** ** The server's key *)

(** The loop that reads to the end of the connection. *)
Fixpoint read_response (fuel : nat) (s : TcpStream) (got : bytes) : res ControlError bytes :=
  match fuel with
  | O => Hang
  | S fuel =>
      match read (HTTP_BUFFER - len got) s with
      | Err Closed => Ok got
      | Ok (b, s) =>
          if len b =? 0 then Ok got else
          let got := got ++ b in
          if len got =? HTTP_BUFFER then Err E.ResponseTooLong else read_response fuel s got
      | Err e => Err (E.Net e)
      | Panic => Panic
      | Hang => Hang
      end
  end.

(** The request that was sent and the key. *)
Definition fetch_server_key (dialled : res NetError TcpStream) (host : bytes) : res ControlError (bytes * MachinePublic) :=
  let! s := map_err E.Net dialled in
  let! request := map_err E.Noise (upgrade.write_key_request host (zeros upgrade.MAX_REQUEST)) in
  let! response := read_response (S (length (coming s))) s [] in
  let! parsed := map_err E.Noise (upgrade.parse_response response) in
  if negb (upgrade.status parsed =? 200) then Err (E.UnexpectedStatus (upgrade.status parsed)) else
  let! body := slice (upgrade.header_len parsed, len response) response in
  let! text := json_string body (str "publicKey") in
  let! text := ok_or text E.NoServerKey in
  let! key := map_err E.Keys (keys.parse text) in
  Ok (request, key).

(** ** The handshake *)

Record Ts2021 := mkTs2021 { stream : TcpStream; session : record.Session; pushback : bytes }.

Section Connection.
Context `{P : Primitives} `{C : Curve}.

(** The loop that reads until the blank line. *)
Fixpoint read_head (fuel : nat) (s : TcpStream) (got : bytes) : res ControlError (bytes * upgrade.Response * TcpStream) :=
  match fuel with
  | O => Hang
  | S fuel =>
      match upgrade.parse_response got with
      | Ok parsed => Ok (got, parsed, s)
      | Err control.Incomplete =>
          let! '(b, s) := map_err E.Net (read (HTTP_BUFFER - len got) s) in
          let got := got ++ b in
          if len got =? HTTP_BUFFER then Err E.ResponseTooLong else read_head fuel s got
      | Err e => Err (E.Noise e)
      | Panic => Panic
      | Hang => Hang
      end
  end.

(** What was sent and the connection. *)
Definition handshake (dialled : res NetError TcpStream) (host : bytes) (identity : Identity) (server_key : MachinePublic)
    (ephemeral : bytes) : res ControlError (bytes * Ts2021) :=
  let! s := map_err E.Net dialled in
  let! '(initiation, hs) := map_err E.Noise
    (ik.initiate (to_bytes (machine identity)) (as_bytes server_key) ephemeral (zeros ik.INITIATION_LEN)) in
  let! request := map_err E.Noise (upgrade.write_upgrade_request host initiation (zeros upgrade.MAX_REQUEST)) in
  let! '(got, parsed, s) := read_head (S (S (length (coming s)))) s [] in
  let! switched := map_err E.Noise (upgrade.is_upgrade got parsed) in
  if negb switched then Err (E.UnexpectedStatus (upgrade.status parsed)) else
  let already := Z.min (len got - upgrade.header_len parsed) ik.RESPONSE_LEN in
  let! front := slice (upgrade.header_len parsed, upgrade.header_len parsed + already) got in
  let! response := slice_copy (0, already) front (zeros ik.RESPONSE_LEN) in
  let! '(response, s) :=
    (if already <? ik.RESPONSE_LEN then
       let! room := slice (already, len response) response in
       let! '(b, s) := map_err E.Net (fill_buffer (len room) s) in
       let! response := slice_copy (already, len response) b response in
       Ok (response, s)
     else Ok (response, s)) in
  let! session := map_err E.Noise (ik.consume_response hs response) in
  Ok (request, mkTs2021 s session []).

(** ** The early payload *)

Definition with_pushback (t : Ts2021) (b : bytes) : Ts2021 := mkTs2021 (stream t) (session t) b.

(** [read_record] into a buffer of [MAX_PLAINTEXT] bytes. *)
Definition read_record (t : Ts2021) : res ControlError (Ts2021 * bytes) :=
  let! '(header, s) := map_err E.Net (fill_buffer record.HEADER_LEN (stream t)) in
  let! n := map_err E.Noise (record.ciphertext_len header) in
  let! _ := slice (0, n) (zeros record.MAX_MESSAGE) in
  let! '(ciphertext, s) := map_err E.Net (fill_buffer n s) in
  let (session, r) := record.open (session t) ciphertext (zeros record.MAX_PLAINTEXT) in
  let! plain := map_err E.Noise r in
  Ok (mkTs2021 s session (pushback t), plain).

(** The loop of [read_early_payload]. *)
Fixpoint read_early (fuel : nat) (t : Ts2021) (reader : early.EarlyReader) : res ControlError (Ts2021 * early.EarlyReader) :=
  if early.is_complete reader then Ok (t, reader) else
  match fuel with
  | O => Hang
  | S fuel =>
      let! '(t, plaintext) := read_record t in
      let (reader, r) := early.push reader plaintext in
      let! consumed := map_err E.Noise r in
      let! t :=
        (if consumed <? len plaintext then
           let! rest := slice (consumed, len plaintext) plaintext in
           let! b := ok_or (extend_from_slice record.MAX_PLAINTEXT (pushback t) rest) E.ResponseTooLong in
           Ok (with_pushback t b)
         else Ok t) in
      read_early fuel t reader
  end.

(** A server without an early payload has started HTTP/2: the probe's bytes go in
    front of what follows them. *)
Definition read_early_payload (t : Ts2021) : res ControlError Ts2021 :=
  let! '(t, reader) := read_early (S (length (coming (stream t)))) t early.new in
  let! found := map_err E.Noise (early.finish reader) in
  match found with
  | early.Payload _ => Ok t
  | early.PushBack b =>
      let carried := default [] (extend_from_slice record.MAX_PLAINTEXT [] b) in
      let carried := default carried (extend_from_slice record.MAX_PLAINTEXT carried (pushback t)) in
      Ok (with_pushback t carried)
  end.

Definition into_http2 (t : Ts2021) : res ControlError harness_h2.Http2 :=
  map_err E.Http2 (harness_h2.start (stream t) (session t) (pushback t)).

(** ** The whole bootstrap *)

Context {W : Type} `{OS : file_store.Posix W} (patience : nat).
Import file_store.

(** What a failed [load_or_create] is reported as. *)
Definition identity_error (e : store.IdentityError StoreError) : ControlError :=
  match e with store.Store_ e => E.Store e | store.Format e => E.Identity e end.

(** A run over the world goes on with the result, or stops. *)
Definition then_ {A B} (x : W * res ControlError A) (k : W -> A -> W * res ControlError B) : W * res ControlError B :=
  match x with
  | (w, Ok a) => k w a
  | (w, Err e) => (w, Err e)
  | (w, Panic) => (w, Panic)
  | (w, Hang) => (w, Hang)
  end.

Definition open_store (w : W) (state_dir : bytes) : W * res ControlError FileStore :=
  let (w, r) := file_store_new w state_dir (str "identity.bin") in (w, map_err E.Store r).

Definition load_identity (w : W) (fs : FileStore) (rng : bytes) : W * res ControlError (Identity * bool) :=
  let (w, r) := store.load_or_create (S := file_store_store patience fs) w rng in (w, map_err identity_error r).

(** What the outside gives to a bootstrap: the two connections, the random bytes of
    a new identity and of the handshake. *)
Record Outside := mkOutside {
  key_dial : res NetError TcpStream;
  upgrade_dial : res NetError TcpStream;
  identity_tape : bytes;
  ephemeral_tape : bytes;
}.

(** Once the identity is there. *)
Definition establish (o : Outside) (address : bytes) (port : Z) (identity : Identity) : res ControlError Ts2021 :=
  let! host := write_host address port in
  let! '(_, server_key) := fetch_server_key (key_dial o) host in
  let! '(_, t) := handshake (upgrade_dial o) host identity server_key (ephemeral_tape o) in
  read_early_payload t.

Definition connect (w : W) (o : Outside) (state_dir address : bytes) (port : Z) : W * res ControlError Ts2021 :=
  then_ (open_store w state_dir) (fun w fs =>
  then_ (load_identity w fs (identity_tape o)) (fun w '(identity, _) =>
  (w, establish o address port identity))).

End Connection.
End harness_control.
