(* ===== verification/HarnessRequests.v ===== *)
(** * The harness: registering, and the network map

    The two requests of [harness/src/control.rs] made over the connection of
    [HarnessControl.v], and the WireGuard peers configured from a map. *)

From Stdlib Require Import Strings.String.
From S2P Require Import Prelude Timers Messages Crypto Noise Device Text Utf8 Keys KeyStore StoreFile NetAddr Json H2Conn Control Netmap NetmapParser NetmapStream ControlMessages Upgrade HarnessNet HarnessH2 HarnessControl.
Import keys net harness_control.

Module harness_requests.

(** ** WireGuard peers *)

Definition TABLE : nat := Z.to_nat MAX_PEERS.

Section Configure.
Context `{P : Primitives} `{C : Curve}.

(** The loop over the map's peers: the device, how many were configured and how
    many of them have a direct endpoint. *)
Fixpoint add_peers (l : list peer.Peer) (d : Device) (configured reachable : Z) : Device * Z * Z :=
  match l with
  | [] => (d, configured, reachable)
  | p :: l =>
      match add_peer TABLE d (as_bytes (peer.node_key p)) None with
      | (d, Ok id) =>
          let (d, _) := set_initiating d id true in
          add_peers l d (configured + 1) (match peer.direct_endpoint p with Some _ => reachable + 1 | None => reachable end)
      | (d, _) => (d, configured, reachable)
      end
  end.

(** [configure_peers]: the device and what is reported of it. *)
Definition configure_peers (identity : Identity) (m : parser.Netmap) : Device * Z * Z * bool :=
  let '(d, configured, reachable) := add_peers (parser.peers m) (device_new (to_bytes (node identity))) 0 0 in
  (d, configured, reachable, bytes_eqb (static_public d) (as_bytes (public (node identity)))).

End Configure.

Section Requests.
Context `{P : Primitives} `{C : Curve} (USIZE_BITS : Z).
Context {W : Type} `{OS : file_store.Posix W} (patience : nat) (pkg_version : bytes).
Import file_store.

(** ** Registering *)

(** The identity to register with, and the node key it replaces. *)
Definition rotated (rotate : bool) (rng : bytes) (i : Identity) : res ControlError (Identity * option NodePublic) :=
  if rotate then
    match generate rng with
    | Some (key, _) => Ok (mkIdentity (machine i) key (disco i), Some (public (node i)))
    | None => Hang
    end
  else Ok (i, None).

Definition register_request (i : Identity) (old : option NodePublic) (auth_key hostname : bytes) (exit_node : bool)
  : register.RegisterRequest :=
  register.mkRegisterRequest control.CAPABILITY_VERSION (public (node i)) old auth_key
    (hostinfo.mkHostinfo hostname (hostinfo.version (hostinfo.default_hostinfo pkg_version))
       (hostinfo.os (hostinfo.default_hostinfo pkg_version)) (if exit_node then hostinfo.EXIT_NODE_ROUTES else []))
    false.

(** The exchange with the server, up to its acceptance. *)
Definition ask_to_register (t : Ts2021) (address : bytes) (port : Z) (r : register.RegisterRequest)
  : res ControlError (harness_h2.Http2 * register.RegisterResponse) :=
  let! http2 := into_http2 t in
  let! host := write_host address port in
  let! body := map_err E.Json (register.write r (zeros 1024)) in
  let! '(http2, status, response) := map_err E.Http2
    (harness_h2.request USIZE_BITS http2 (str "POST") register.PATH host body (zeros 4096)) in
  let text := if utf8_valid response then response else [] in
  if negb (status =? 200) then Err (E.UnexpectedStatus status) else
  let parsed := register.parse text in
  if negb (register.is_success parsed) then Err E.Rejected else Ok (http2, parsed).

(** [store.save(&identity.to_blob())] *)
Definition save_identity (w : W) (fs : FileStore) (i : Identity) : W * res ControlError unit :=
  match store.to_blob i with
  | Ok blob => let (w, r) := save patience fs w blob in (w, map_err E.Store r)
  | Err _ | Panic => (w, Panic)
  | Hang => (w, Hang)
  end.

(** A write to the network that fails, if one does: the exchange it belongs to,
    connecting or asking, ends with its error, and what it had read is dropped. *)
Inductive Lost := LostConnecting (e : NetError) | LostAsking (e : NetError).

Definition connecting {A} (lost : option Lost) (r : res ControlError A) : res ControlError A :=
  match lost with Some (LostConnecting e) => Err (E.Net e) | _ => r end.
Definition asking {A} (lost : option Lost) (r : res ControlError A) : res ControlError A :=
  match lost with Some (LostAsking e) => Err (E.Http2 (harness_h2.Net e)) | _ => r end.

Definition register (w : W) (o : Outside) (lost : option Lost) (first_tape node_tape : bytes) (state_dir address : bytes)
    (port : Z) (auth_key hostname : bytes) (exit_node rotate : bool) : W * res ControlError unit :=
  then_ (open_store w state_dir) (fun w fs =>
  then_ (load_identity patience w fs first_tape) (fun w '(identity, _) =>
  then_ (w, rotated rotate node_tape identity) (fun w '(identity, old) =>
  then_ (let (w, t) := connect patience w o state_dir address port in (w, connecting lost t)) (fun w t =>
  then_ (w, asking lost (ask_to_register t address port (register_request identity old auth_key hostname exit_node))) (fun w _ =>
  if rotate then save_identity w fs identity else (w, Ok tt)))))).

(** ** The long poll *)

Definition map_request (i : Identity) (hostname : bytes) (endpoints : list bytes) : map_request.MapRequest :=
  map_request.mkMapRequest control.CAPABILITY_VERSION (public (node i)) (public (disco i))
    (hostinfo.mkHostinfo hostname (hostinfo.version (hostinfo.default_hostinfo pkg_version))
       (hostinfo.os (hostinfo.default_hostinfo pkg_version)) [])
    true false false endpoints.

Definition CHUNK : Z := 16384.

(** The loop over the chunks of the response. *)
Fixpoint map_loop (fuel : nat) (http2 : harness_h2.Http2) (stream_id wanted : Z) (p : Poll)
  : res ControlError (harness_h2.Http2 * Poll) :=
  if wanted <=? applied p then Ok (http2, p) else
  match fuel with
  | O => Hang
  | S fuel =>
      let! '(http2, data, finished) := map_err E.Http2
        (harness_h2.read_chunk USIZE_BITS (harness_h2.patience http2) http2 stream_id CHUNK) in
      if negb (harness_h2.status http2 =? 200) then Err (E.UnexpectedStatus (harness_h2.status http2)) else
      let! p := map_err E.Netmap (poll MAX_PEERS (2 * length data + 4) p data) in
      if finished then Ok (http2, p) else map_loop fuel http2 stream_id wanted p
  end.

(** Once connected. *)
Definition ask_for_map (t : Ts2021) (address : bytes) (port : Z) (r : map_request.MapRequest) (wanted : Z)
  : res ControlError (harness_h2.Http2 * parser.Netmap) :=
  let! http2 := into_http2 t in
  let! host := write_host address port in
  let! body := map_err E.Json (map_request.write r (zeros 1024)) in
  let! '(http2, stream_id) := map_err E.Http2 (harness_h2.send_request http2 (str "POST") map_request.PATH host body) in
  let! '(http2, p) := map_loop (harness_h2.patience http2) http2 stream_id wanted (poll_new parser.netmap_new) in
  Ok (http2, netmap_ p).

Definition fetch_map (w : W) (o : Outside) (first_tape : bytes) (state_dir address : bytes) (port : Z)
    (hostname : bytes) (wanted : Z) (endpoints : list bytes) : W * res ControlError parser.Netmap :=
  then_ (open_store w state_dir) (fun w fs =>
  then_ (load_identity patience w fs first_tape) (fun w '(identity, _) =>
  then_ (connect patience w o state_dir address port) (fun w t =>
  (w, let! '(_, m) := ask_for_map t address port (map_request identity hostname endpoints) wanted in Ok m)))).

Definition load_netmap (w : W) (o : Outside) (first_tape : bytes) (state_dir address : bytes) (port : Z)
    (hostname : bytes) (endpoints : list bytes) : W * res ControlError parser.Netmap :=
  fetch_map w o first_tape state_dir address port hostname 1 endpoints.

End Requests.
End harness_requests.
