(* ===== verification/HarnessControlFacts.v ===== *)
(** * Bringing up the control connection: facts

    Over [HarnessControl.v]: the scan of the server's answer, the host text, the
    reading loops on a stream cut in any way, the handshake against a Noise IK
    responder, and the early payload in records of any size. *)

From Stdlib Require Import Strings.String.
From S2P Require Import Prelude Timers Messages Crypto Noise Text Utf8 Keys KeysFacts NetAddr Json JsonFacts Netmap H2Frame H2Conn Control ControlEarly ControlSession ControlMessages Upgrade HarnessNet HarnessH2 HarnessH2Facts HarnessControl.
Import keys net harness_control.

(** ** Text *)

(** The two scans for a text field agree, but for the check of the encoding. *)
Lemma json_string_scans body field : len field <= 62 -> utf8_valid ([34] ++ field ++ [34]) = true ->
  json_string body field = Ok (if utf8_valid body then register.string_field body field else None).
Proof.
  intros Hf Hu. unfold json_string. destruct (utf8_valid body); cbn [negb]; [|done]. nonneg_lens.
  destruct (split_len (len field) (zeros 62)) as (x & y & Hxy & Hx); [rewrite len_zeros; lia|].
  assert (len y = 62 - len field) as Hy by (apply (f_equal len) in Hxy; rewrite len_app, len_zeros in Hxy; lia).
  assert (zeros 64 = [0] ++ x ++ y ++ [0]) as ->.
  { transitivity ([0] ++ zeros 62 ++ [0]); [reflexivity|]. by rewrite Hxy, <- !app_assoc. }
  cbn [app]. assert (set_at 0 34 (0 :: x ++ y ++ [0]) = Some ([34] ++ x ++ y ++ [0])) as ->
    by (apply (set_at_mid 0 34 0 []); done).
  cbn [or_panic rbind]. unfold slice_copy. cbn [fst snd]. rewrite (copy_at_mid 1 (1 + len field)) by (done || llia). cbn [or_panic rbind].
  assert (exists z t, y ++ [0] = z :: t) as (z & t & ->) by (destruct y; eauto).
  rewrite (app_assoc [34] field), (set_at_mid (1 + len field)) by llia. cbn [or_panic rbind].
  assert (([34] ++ field) ++ 34 :: t = ([34] ++ field ++ [34]) ++ t) as -> by (rewrite <- !app_assoc; done).
  unfold slice. cbn [fst snd]. rewrite get_range_front by llia. cbn [or_panic rbind]. rewrite Hu. cbn [negb]. f_equal.
  unfold register.string_field, register.find_value. rewrite (proj2 (Z.ltb_ge _ _)) by lia.
  destruct (position _ body); [|done]. by destruct (encoding.strip_prefix [58] _).
Qed.

Lemma write_pieces_all pieces pre post : len (concat pieces) <= len post ->
  exists rest, write_pieces pieces (pre ++ post) (len pre) = Ok (pre ++ concat pieces ++ rest, len pre + len (concat pieces)).
Proof.
  revert pre post; induction pieces as [|s pieces IH]; intros pre post Hl; cbn [write_pieces concat] in *.
  { exists post. by rewrite len_nil, Z.add_0_r. }
  rewrite len_app in *. nonneg_lens. rewrite (proj2 (Z.ltb_ge _ _)) by lia.
  destruct (split_len (len s) post) as (x & y & -> & Hx); [lia|]. rewrite len_app in Hl.
  unfold slice_copy. cbn [fst snd]. rewrite copy_at_mid by (done || lia). cbn [or_panic rbind].
  destruct (IH (pre ++ s) y) as (rest & Hr); [lia|]. rewrite <- app_assoc, len_app in Hr. rewrite Hr. exists rest.
  rewrite <- !app_assoc. f_equal. f_equal. rewrite ?len_app. lia.
Qed.

Definition address_ok (address : bytes) (port : Z) : Prop := len address = 4 /\ bytes_ok address /\ is_u16 port.
Definition host_text (address : bytes) (port : Z) : bytes := concat (host_pieces address port).

Lemma len_decimal_small n : 0 <= n < 65536 -> len (json.decimal 20 n) <= 5.
Proof.
  intros Hn. cbn [json.decimal].
  assert (H1 : n / 10 < 6554) by (apply Z.div_lt_upper_bound; lia).
  assert (H2 : n / 10 / 10 < 656) by (apply Z.div_lt_upper_bound; lia).
  assert (H3 : n / 10 / 10 / 10 < 66) by (apply Z.div_lt_upper_bound; lia).
  assert (H4 : n / 10 / 10 / 10 / 10 < 10) by (apply Z.div_lt_upper_bound; lia).
  rewrite (proj2 (Z.ltb_lt (n / 10 / 10 / 10 / 10) 10)) by lia. repeat case_if; llia.
Qed.

Lemma len_decimal_byte n : 0 <= n < 256 -> len (json.decimal 20 n) <= 3.
Proof.
  intros Hn. cbn [json.decimal].
  assert (H1 : n / 10 < 26) by (apply Z.div_lt_upper_bound; lia).
  assert (H2 : n / 10 / 10 < 10) by (apply Z.div_lt_upper_bound; lia).
  rewrite (proj2 (Z.ltb_lt (n / 10 / 10) 10)) by lia. repeat case_if; llia.
Qed.

Lemma host_fits address port : address_ok address port ->
  len (host_text address port) <= 21 /\ Forall (fun c => scanner.is_ascii_digit c = true \/ c = 46 \/ c = 58) (host_text address port).
Proof.
  intros (Hl & Hb & Hp). destruct address as [|a [|b [|c [|d [|? ?]]]]]; try (exfalso; llia). clear Hl.
  assert (is_u8 a /\ is_u8 b /\ is_u8 c /\ is_u8 d) as (Ha & Hb' & Hc & Hd) by (unfold bytes_ok in Hb; rewrite !Forall_cons_iff in Hb; tauto).
  unfold host_text. change (host_pieces [a; b; c; d] port) with [json.decimal 20 a; str "."; json.decimal 20 b; str ".";
    json.decimal 20 c; str "."; json.decimal 20 d; str ":"; json.decimal 20 port]. cbn [concat]. unfold is_uint in *.
  pose proof (len_decimal_byte a ltac:(lia)). pose proof (len_decimal_byte b ltac:(lia)). pose proof (len_decimal_byte c ltac:(lia)).
  pose proof (len_decimal_byte d ltac:(lia)). pose proof (len_decimal_small port ltac:(lia)).
  assert (forall n, Forall (fun c => scanner.is_ascii_digit c = true \/ c = 46 \/ c = 58) (json.decimal 20 n)) as Hdig.
  { intros n. eapply Forall_impl; [exact (proj1 (decimal_digits 20 n))|]. intros x Hx. by left. }
  split.
  - rewrite !len_app. change (len (str ".")) with 1. change (len (str ":")) with 1. rewrite len_nil. lia.
  - repeat (apply Forall_app; split; [solve [apply Hdig | repeat constructor; auto]|]). constructor.
Qed.

(** The host is what is formatted: it fits its buffer. *)
Lemma write_host_text address port : address_ok address port -> write_host address port = Ok (host_text address port).
Proof.
  intros Ha. destruct (host_fits address port Ha) as [Hl Hc]. unfold write_host, host_text in *.
  destruct (write_pieces_all (host_pieces address port) [] (zeros 32)) as (rest & Hw); [rewrite len_zeros; lia|].
  cbn [app] in Hw. rewrite len_nil in Hw. rewrite Hw. cbn [rbind]. unfold slice. cbn [fst snd].
  rewrite Z.add_0_l, get_range_front by done. cbn [or_panic rbind]. rewrite utf8_ascii; [done|].
  eapply Forall_impl; [exact Hc|]. intros c [Hd| [-> | ->]]; [|lia..]. apply andb_true_iff in Hd. lia.
Qed.

(** ** The server's key *)

Lemma read_response_all fuel s got : cut (arrivals s) -> ending s = Some Closed -> len got + len (coming s) < HTTP_BUFFER ->
  (length (coming s) < fuel)%nat -> read_response fuel s got = Ok (got ++ coming s).
Proof.
  revert s got; induction fuel as [|fuel IH]; intros s got Hc He Hl Hf; [lia|]. cbn [read_response]. nonneg_lens. unfold HTTP_BUFFER in *.
  destruct (decide (len (coming s) = 0)) as [Hz|Hz].
  - pose proof (cut_nil _ Hc Hz) as Ha. rewrite (len_zero_nil _ Hz), app_nil_r. unfold read. rewrite Ha, He.
    by rewrite (proj2 (Z.leb_gt _ _)) by lia.
  - destruct (read_some (2048 - len got) s Hc) as (b & s1 & -> & Hb & Hcom & Hc1 & He1); [lia|lia|].
    rewrite Hcom in Hl, Hf |- *. rewrite len_app in Hl. rewrite length_app in Hf. nonneg_lens.
    rewrite (proj2 (Z.eqb_neq _ _)), len_app, (proj2 (Z.eqb_neq _ _)) by lia. rewrite IH; try done.
    + by rewrite <- app_assoc.
    + congruence.
    + rewrite len_app. lia.
    + unfold len in Hb. lia.
Qed.

(** The head of a response with this status. *)
Definition head_says (code : Z) (head : bytes) : Prop :=
  exists minor a b c tail, head = str "HTTP/1." ++ [minor; 32; a; b; c] ++ tail /\ (minor = 48 \/ minor = 49) /\ digits3 a b c /\
    code = (a - 48) * 100 + (b - 48) * 10 + (c - 48) /\ position upgrade.BLANK_LINE head = Some (len head - 4).

Lemma head_parsed code head : head_says code head ->
  (forall n, n < len head -> upgrade.parse_response (ztake n head) = Err control.Incomplete) /\
  (forall rest, upgrade.parse_response (head ++ rest) = Ok (upgrade.mkResponse code (len head))).
Proof.
  intros (minor & a & b & c & tail & -> & Hm & Hd & -> & Hp). split.
  - by destruct (upgrade_response_read minor a b c tail [] Hm Hd Hp).
  - intros rest. by destruct (upgrade_response_read minor a b c tail rest Hm Hd Hp) as (_ & ? & _).
Qed.

(** The server answers with its key and closes the connection. *)
Lemma fetch_server_key_ok s host head body key : cut (arrivals s) -> ending s = Some Closed -> coming s = head ++ body ->
  len (coming s) < HTTP_BUFFER -> head_says 200 head -> utf8_valid body = true ->
  register.string_field body (str "publicKey") = Some (display key) -> key_ok (as_bytes key) ->
  len (key_request host) <= upgrade.MAX_REQUEST ->
  fetch_server_key (Ok s) host = Ok (key_request host, key).
Proof.
  intros Hc He Hcom Hl Hh Hu Hf Hk Hr. unfold fetch_server_key. cbn [map_err rbind].
  rewrite key_request_written, len_zeros. rewrite (proj2 (Z.leb_le _ _)) by (unfold upgrade.MAX_REQUEST in *; lia). cbn [map_err rbind].
  rewrite read_response_all by (done || (rewrite ?len_nil; lia)). cbn [rbind app]. rewrite Hcom.
  rewrite (proj2 (head_parsed _ _ Hh)). cbn [map_err rbind upgrade.status upgrade.header_len]. cbn [Z.eqb Pos.eqb negb].
  unfold slice. cbn [fst snd]. rewrite get_range_back by llia. cbn [or_panic rbind].
  rewrite json_string_scans, Hu, Hf by (done || (vm_compute; congruence)). cbn [ok_or rbind].
  by rewrite (proj1 (proj2 (proj2 (key_text_roundtrip key [] Hk)))).
Qed.

(** ** The upgrade *)

(** The head is read when one of the arrivals [a] has completed it, and they bring
    [r] besides. *)
Lemma read_head_stops code head : head_says code head -> forall a fuel b e got r,
  cut a -> got ++ concat a = head ++ r -> len (head ++ r) < HTTP_BUFFER -> (length a < fuel)%nat ->
  exists a1 a2 r1, a = a1 ++ a2 /\ got ++ concat a1 = head ++ r1 /\ r = r1 ++ concat a2 /\
    read_head fuel (mkStream (a ++ b) e) got = Ok (head ++ r1, upgrade.mkResponse code (len head), mkStream (a2 ++ b) e).
Proof.
  intros Hh. destruct (head_parsed _ _ Hh) as [Hshort Hfull].
  assert (forall fuel b e got a r, (0 < fuel)%nat -> got ++ concat a = head ++ r -> len head <= len got ->
    exists r1, got = head ++ r1 /\ r = r1 ++ concat a /\
      read_head fuel (mkStream (a ++ b) e) got = Ok (head ++ r1, upgrade.mkResponse code (len head), mkStream (a ++ b) e)) as Hdone.
  { intros fuel b e got a r Hf Hg Hle. destruct (split_len (len head) got) as (x & r1 & -> & Hx); [nonneg_lens; lia|].
    rewrite <- app_assoc in Hg. apply app_inj_1 in Hg as [-> <-]; [|unfold len in Hx; lia]. exists r1. split_and!; try done.
    destruct fuel as [|fuel]; [lia|]. cbn [read_head]. by rewrite Hfull. }
  induction a as [|seg a IH]; intros fuel b e got r Hc Hg Hl Hf.
  - destruct (Hdone fuel b e got [] r ltac:(simpl in Hf; lia) Hg) as (r1 & -> & -> & H).
    { cbn [concat] in Hg. rewrite app_nil_r in Hg. subst got. llia. }
    exists [], [], r1. cbn [concat]. rewrite ?app_nil_r. by split_and!.
  - destruct (decide (len head <= len got)) as [Hle|Hlt].
    { destruct (Hdone fuel b e got (seg :: a) r ltac:(simpl in Hf; lia) Hg Hle) as (r1 & -> & Hr & H).
      exists [], (seg :: a), r1. cbn [concat]. rewrite ?app_nil_r. by split_and!. }
    destruct fuel as [|fuel]; [simpl in Hf; lia|]. cbn [read_head].
    assert (got = ztake (len got) head) as Hgot.
    { pose proof (f_equal (ztake (len got)) Hg) as Ht. rewrite ztake_app_len in Ht by done. rewrite Ht at 1. apply EarlyFacts.ztake_app_le. lia. }
    assert (upgrade.parse_response got = Err control.Incomplete) as -> by (rewrite Hgot; apply Hshort; lia). apply Forall_cons_iff in Hc as [Hs Hc]. cbn [concat] in Hg.
    pose proof (f_equal len Hg) as Hlen. rewrite !len_app in Hlen. rewrite len_app in Hl. unfold HTTP_BUFFER in *. nonneg_lens.
    cbn [app]. rewrite read_seg by lia. cbn [map_err rbind]. rewrite len_app, (proj2 (Z.eqb_neq _ _)) by lia.
    destruct (IH fuel b e (got ++ seg) r Hc) as (a1 & a2 & r1 & -> & Ha1 & Hr & Hread); [by rewrite <- app_assoc|llia|simpl in Hf; lia|].
    exists (seg :: a1), a2, r1. cbn [concat]. rewrite app_assoc. split_and!; try done.
Qed.

(** ** The handshake *)

Section Handshake.
Context `{P : Primitives} {POk : PrimitivesOk P} `{C : Curve}.

(** Both sides of the exchange of messages. *)
Record agreed (mp sp e se msg : bytes) (hs : ik.Handshake) (response : bytes) (server session : record.Session) : Prop := {
  ag_initiate : ik.initiate mp (x25519_base sp) e (zeros ik.INITIATION_LEN) = Ok (msg, hs);
  ag_bytes : bytes_ok msg;
  ag_msg : len msg = ik.INITIATION_LEN;
  ag_respond : Responder.respond sp se msg = Ok (x25519_base mp, response, server);
  ag_response : len response = ik.RESPONSE_LEN;
  ag_session : ik.consume_response hs response = Ok session;
  ag_down : record.rx session = record.tx server;
  ag_up : record.tx session = record.rx server;
  ag_counters : record.counters session = (0, 0);
}.

Lemma in_step_same a b : in_step a b -> record.tx a = record.rx b.
Proof. unfold in_step. destruct (record.tx a), (record.rx b). simpl. by intros [-> ->]. Qed.

Lemma agreed_when mp sp e se msg hs response server s1 s2 s3 s4 :
  ik.dh e (x25519_base sp) = Ok s1 -> ik.dh mp (x25519_base sp) = Ok s2 ->
  ik.dh se (x25519_base e) = Ok s3 -> ik.dh se (x25519_base mp) = Ok s4 ->
  ik.initiate mp (x25519_base sp) e (zeros ik.INITIATION_LEN) = Ok (msg, hs) -> bytes_ok msg ->
  Responder.respond sp se msg = Ok (x25519_base mp, response, server) ->
  exists session, agreed mp sp e se msg hs response server session.
Proof.
  intros H1 H2 H3 H4 Hi Hb Hr.
  destruct (ik_agrees mp sp e se (zeros ik.INITIATION_LEN) s1 s2 s3 s4) as (msg' & hs' & r' & sv' & session & Hi' & Hm & Hr' & Hc & Hl & Hu & Hd & Hz);
    try done.
  assert (msg' = msg /\ hs' = hs) as [-> ->] by (split; congruence).
  assert (r' = response /\ sv' = server) as [-> ->] by (split; congruence).
  exists session. split; try done; [|by apply in_step_same]. symmetry. by apply in_step_same.
Qed.

Definition upgrade_text (host initiation : bytes) : bytes := upgrade_head host ++ base64_text initiation ++ upgrade.CRLF ++ upgrade.CRLF.

Lemma upgrade_text_written host initiation : bytes_ok initiation -> len initiation = ik.INITIATION_LEN -> len host <= 32 ->
  upgrade.write_upgrade_request host initiation (zeros upgrade.MAX_REQUEST) = Ok (upgrade_text host initiation).
Proof.
  intros Hb Hi Hh. rewrite upgrade_request_written by done. cbv zeta. fold (upgrade_text host initiation).
  assert (len (upgrade_text host initiation) = len host + len (upgrade_text [] []) + 136) as Hl.
  { unfold upgrade_text, upgrade_head. rewrite !len_app, len_base64, Hi. change ((ik.INITIATION_LEN + 2) / 3 * 4) with 136.
    change (base64_text []) with (@nil Z). rewrite !len_nil. lia. }
  assert (len (upgrade_text [] []) <= 200) as Hc by (vm_compute; congruence).
  rewrite Hl, len_zeros. unfold upgrade.MAX_REQUEST. by rewrite (proj2 (Z.leb_le _ _)) by lia.
Qed.

(** Where the arrivals are cut: one of the cuts falls into the response, or to an end of
    it, and the bytes before it fit the buffer. *)
Definition cut_within (s : TcpStream) (head response : bytes) : Prop :=
  exists a b, arrivals s = a ++ b /\ len head <= len (concat a) <= len head + len response /\ len (concat a) < HTTP_BUFFER.

(** The part [r1] of the response came with the head; the stream brings the rest. *)
Lemma response_completed r1 r2 tail s : cut (arrivals s) -> coming s = r2 ++ tail ->
  exists s', (if len r1 <? len r1 + len r2 then
      let! room := or_panic (get_range (len r1) (len (r1 ++ zeros (len r2))) (r1 ++ zeros (len r2))) in
      let! '(b0, s) := map_err E.Net (fill_buffer (len room) s) in
      let! response := slice_copy (len r1, len (r1 ++ zeros (len r2))) b0 (r1 ++ zeros (len r2)) in Ok (response, s)
    else Ok (r1 ++ zeros (len r2), s)) = @Ok ControlError _ (r1 ++ r2, s') /\
    coming s' = tail /\ cut (arrivals s') /\ ending s' = ending s.
Proof.
  intros Hcut Hcom. destruct (fill_buffer_ok r2 tail s Hcut Hcom) as (s' & Hfill & Hc' & Hcut' & He'). nonneg_lens.
  destruct (len r1 <? len r1 + len r2) eqn:E; bool_hyps.
  - exists s'. rewrite get_range_back by llia. cbn [or_panic rbind]. rewrite len_zeros, Z.max_r, Hfill by lia. cbn [map_err rbind].
    unfold slice_copy. cbn [fst snd]. pose proof (copy_at_mid (len r1) (len (r1 ++ zeros (len r2))) r2 r1 (zeros (len r2)) []) as Hcp2.
    rewrite !app_nil_r in Hcp2. rewrite Hcp2 by llia. cbn [or_panic rbind]. by split_and!.
  - assert (r2 = []) as -> by (apply len_zero_nil; lia). exists s. by split_and!.
Qed.

(** Once the head is read, with [r1] behind it: what is past the response in [r1] is
    gone, and the stream goes on behind. *)
Lemma handshake_after s host identity key sp e se msg hs response server session head r1 s' tail :
  agreed (to_bytes (machine identity)) sp e se msg hs response server session -> as_bytes key = x25519_base sp ->
  upgrade.contains_ignoring_case head upgrade.UPGRADE_TOKEN = true -> len host <= 32 ->
  read_head (S (S (length (coming s)))) s [] = Ok (head ++ r1, upgrade.mkResponse 101 (len head), s') ->
  cut (arrivals s') -> r1 ++ coming s' = response ++ tail ->
  exists t, handshake (Ok s) host identity key e = Ok (upgrade_text host msg, mkTs2021 t session []) /\
    coming t = (if len r1 <=? len response then tail else coming s') /\ cut (arrivals t) /\ ending t = ending s'.
Proof.
  intros Ha Hkey Htok Hhost Hread Hcut Hrest. unfold handshake. cbn [map_err rbind].
  rewrite Hkey, (ag_initiate _ _ _ _ _ _ _ _ _ Ha). cbn [map_err rbind]. rewrite upgrade_text_written; [|apply Ha|apply Ha|done].
  cbn [map_err rbind]. rewrite Hread. cbn [rbind]. unfold upgrade.is_upgrade. cbn [upgrade.status upgrade.header_len Z.eqb Pos.eqb negb].
  unfold slice. cbn [fst snd]. rewrite get_range_front by done. cbn [or_panic rbind map_err]. rewrite Htok. cbn [map_err rbind negb].
  pose proof (ag_response _ _ _ _ _ _ _ _ _ Ha) as Hrl. rewrite len_app, Hrl. nonneg_lens.
  replace (len head + len r1 - len head) with (len r1) by lia. destruct (len r1 <=? ik.RESPONSE_LEN) eqn:E; bool_hyps.
  - rewrite Z.min_l, get_range_back by lia. cbn [or_panic rbind].
    assert (exists r2, response = r1 ++ r2 /\ coming s' = r2 ++ tail) as (r2 & -> & Hc).
    { destruct (split_len (len r1) response) as (u & r2 & -> & Hu); [lia|]. rewrite <- !app_assoc in Hrest.
      apply app_inj_1 in Hrest as [-> Hr]; [|unfold len in Hu; lia]. by exists r2. }
    rewrite len_app in Hrl. rewrite <- Hrl. rewrite EarlyFacts.zeros_split by apply len_nonneg. unfold slice_copy at 1. cbn [fst snd].
    pose proof (copy_at_mid 0 (len r1) r1 [] (zeros (len r1)) (zeros (len r2))) as Hcp. cbn [app] in Hcp. nonneg_lens.
    rewrite Hcp by (done || (rewrite ?len_nil, len_zeros; lia)). cbn [or_panic rbind].
    destruct (response_completed r1 r2 tail s' Hcut Hc) as (t & -> & Ht & Hct & Het). cbn [rbind].
    rewrite (ag_session _ _ _ _ _ _ _ _ _ Ha). cbn [map_err rbind]. by exists t.
  - rewrite Z.min_r by lia. destruct (split_len ik.RESPONSE_LEN r1) as (u & v & -> & Hu); [lia|]. rewrite <- app_assoc in Hrest.
    apply app_inj_1 in Hrest as [-> _]; [|unfold len in *; lia]. rewrite get_range_mid by lia. cbn [or_panic rbind].
    unfold slice_copy. cbn [fst snd]. pose proof (copy_at_mid 0 ik.RESPONSE_LEN response [] (zeros ik.RESPONSE_LEN) []) as Hcp.
    rewrite !app_nil_r in Hcp. cbn [app] in Hcp. rewrite Hcp by (done || (rewrite ?len_nil, len_zeros; lia)). cbn [or_panic rbind].
    rewrite Z.ltb_irrefl. cbn [rbind]. rewrite (ag_session _ _ _ _ _ _ _ _ _ Ha). cbn [map_err rbind]. by exists s'.
Qed.

(** The head is read from the arrivals [a] at the latest. *)
Lemma read_head_from s a b head r : arrivals s = a ++ b -> cut (arrivals s) -> head_says 101 head -> concat a = head ++ r ->
  len (concat a) < HTTP_BUFFER ->
  exists a1 a2 r1, a = a1 ++ a2 /\ concat a1 = head ++ r1 /\ r = r1 ++ concat a2 /\ cut (a2 ++ b) /\
    read_head (S (S (length (coming s)))) s [] = Ok (head ++ r1, upgrade.mkResponse 101 (len head), mkStream (a2 ++ b) (ending s)).
Proof.
  intros Hab Hcut Hh Hca Hfit. destruct s as [arr en]. cbn [arrivals] in Hab, Hcut. subst arr. apply Forall_app in Hcut as [Hcuta Hcutb].
  destruct (read_head_stops 101 head Hh a (S (S (length (coming (mkStream (a ++ b) en))))) b en [] r Hcuta Hca) as (a1 & a2 & r1 & -> & Ha1 & -> & Hread).
  { by rewrite <- Hca. }
  { unfold coming. cbn [arrivals]. rewrite concat_app, length_app. clear -Hcuta. induction Hcuta as [|y l Hy _ IH]; cbn [length concat]; [lia|].
    rewrite length_app. unfold len in Hy. lia. }
  exists a1, a2, r1. split_and!; try done. apply Forall_app in Hcuta as [_ Hcut2]. by apply Forall_app.
Qed.

Lemma handshake_ok s host identity key sp e se msg hs response server session head tail :
  agreed (to_bytes (machine identity)) sp e se msg hs response server session -> as_bytes key = x25519_base sp ->
  head_says 101 head -> upgrade.contains_ignoring_case head upgrade.UPGRADE_TOKEN = true ->
  cut (arrivals s) -> coming s = head ++ response ++ tail -> cut_within s head response -> len host <= 32 ->
  exists request s', handshake (Ok s) host identity key e = Ok (request, mkTs2021 s' session []) /\
    coming s' = tail /\ cut (arrivals s') /\ ending s' = ending s.
Proof.
  intros Ha Hkey Hh Htok Hcut Hcom (a & b & Hab & Hin & Hfit) Hhost. nonneg_lens.
  assert (coming s = concat a ++ concat b) as Hcs by (unfold coming; by rewrite Hab, concat_app).
  destruct (split_len (len head) (concat a)) as (x & r & Hca & Hx); [lia|].
  rewrite Hcom, Hca, <- app_assoc in Hcs. apply app_inj_1 in Hcs as [<- Hcs]; [|unfold len in Hx; lia].
  destruct (read_head_from s a b head r Hab Hcut Hh Hca Hfit) as (a1 & a2 & r1 & _ & _ & -> & Hcut' & Hread).
  destruct (handshake_after s host identity key sp e se msg hs response server session head r1 _ tail Ha Hkey Htok Hhost Hread Hcut')
    as (t & Ht & Hct & Hcutt & Het).
  { rewrite Hcs, <- app_assoc. unfold coming. cbn [arrivals]. by rewrite concat_app. }
  rewrite Hca, !len_app in Hin. nonneg_lens. rewrite (proj2 (Z.leb_le _ _)) in Hct by lia. by exists (upgrade_text host msg), t.
Qed.

End Handshake.

(** ** The early payload *)

Section Early.
Context `{P : Primitives} {POk : PrimitivesOk P}.
Import early EarlyFacts RecordFacts.

(** The records [ps] are next on the connection, and then [rest]. *)
Record behind (t : Ts2021) (ps : list bytes) (rest : bytes) : Prop := {
  be_cut : cut (arrivals (stream t));
  be_coming : coming (stream t) = sealed (record.rx (session t)) ps ++ rest;
  be_counter : record.counter (record.rx (session t)) + len ps <= record.MAX_COUNTER;
  be_small : small ps;
}.

Lemma read_record_ok t p ps rest : behind t (p :: ps) rest ->
  exists t', read_record t = Ok (t', p) /\ behind t' ps rest /\ record.tx (session t') = record.tx (session t) /\
    pushback t' = pushback t /\ ending (stream t') = ending (stream t).
Proof.
  intros [Hcut Hcom Hcnt Hsm]. apply Forall_cons_iff in Hsm as [Hp Hsm]. cbn [sealed] in Hcom. rewrite <- app_assoc in Hcom.
  rewrite len_cons in Hcnt. nonneg_lens.
  destruct (record_arrives _ _ _ _ Hcut Hcom Hp) as (header & s1 & s2 & Hr1 & Hl & Hz & Hr2 & Hc2 & Hcut2 & He2).
  unfold read_record. rewrite Hr1. cbn [map_err rbind]. rewrite Hl. cbn [map_err rbind]. unfold slice in Hz |- *. cbn [fst snd] in Hz |- *.
  destruct (get_range 0 (len p + TAG_LEN) (zeros record.MAX_MESSAGE)); [|done]. cbn [or_panic rbind]. rewrite Hr2. cbn [map_err rbind].
  rewrite open_layout by (done || lia || (rewrite len_zeros; lia)). cbn [map_err rbind]. eexists. split; [done|].
  split; [|by split_and!]. split; cbn [stream session record.rx record.counter bump]; try done. lia.
Qed.

(** The stream [q] was consumed; its share is complete when enough has come. *)
Lemma taken_complete x c : bytes_ok x -> limit x <= len x -> taken (x ++ c) = taken x /\ limit (x ++ c) = limit x.
Proof.
  intros Hx Hl. pose proof (declared_nonneg x Hx). assert (PROBE_LEN <= len x) by (unfold limit in Hl; lia).
  assert (limit (x ++ c) = limit x) as Hlim by (unfold limit; by rewrite declared_app). split; [|done].
  unfold taken. rewrite Hlim. apply ztake_app_le. done.
Qed.

Lemma read_early_done fuel t q : followed q -> limit q = len q -> read_early fuel t (reader_of q) = Ok (t, reader_of q).
Proof.
  intros Hf Hl. assert (is_complete (reader_of q) = true) as Hc by (unfold is_complete; rewrite wanted_reader by done; apply Z.eqb_eq; lia).
  destruct fuel; cbn [read_early]; by rewrite Hc.
Qed.

(** One record more: what it brings past the reader's share. *)
Lemma read_early_step fuel t q p ps rest : behind t (p :: ps) rest -> followed q -> bytes_ok p -> pushback t = [] ->
  len q < limit q -> too_long (q ++ p) = false ->
  exists t1 over, read_early (S fuel) t (reader_of q) = read_early fuel t1 (reader_of (taken (q ++ p))) /\ behind t1 ps rest /\
    taken (q ++ p) ++ over = q ++ p /\ pushback t1 = over /\ len over <= record.MAX_PLAINTEXT /\ followed (taken (q ++ p)) /\
    record.tx (session t1) = record.tx (session t) /\ ending (stream t1) = ending (stream t).
Proof.
  intros Hb Hf Hpb Hpush Hlt Hshort. pose proof (fo_bytes _ Hf) as Hqb. assert (bytes_ok (q ++ p)) as Hqp by (by apply bytes_ok_app).
  cbn [read_early]. unfold is_complete. rewrite wanted_reader, (proj2 (Z.eqb_neq _ _)) by (done || lia).
  pose proof (be_small _ _ _ Hb) as [Hpl _]%Forall_cons_iff.
  destruct (read_record_ok t p ps rest Hb) as (t1 & -> & Hb1 & Ht1 & Hp1 & He1). cbn [rbind].
  destruct (push_followed q p Hf Hpb) as [Hpush1 _]. destruct (Hpush1 Hshort) as [-> Hf1]. cbn [map_err rbind].
  set (over := zdrop (limit (q ++ p)) (q ++ p)).
  assert (taken (q ++ p) ++ over = q ++ p) as Hover by apply ztake_zdrop.
  pose proof (f_equal len Hover) as Hlo. rewrite !len_app in Hlo. nonneg_lens.
  assert (len q <= len (taken (q ++ p))) as Hge.
  { unfold taken. rewrite len_ztake, len_app. pose proof (declared_nonneg _ Hqp). unfold limit in *.
    destruct (Z_lt_le_dec (len q) PROBE_LEN); [|rewrite declared_app by lia]; unfold PROBE_LEN in *; change (len MAGIC) with 5 in *; lia. }
  assert (exists u, taken (q ++ p) = q ++ u /\ p = u ++ over) as (u & Hu & Hpu).
  { destruct (split_len (len q) (taken (q ++ p))) as (x & u & Hx & Hxl); [lia|]. rewrite Hx, <- app_assoc in Hover.
    apply app_inj_1 in Hover as [-> Hp]; [|unfold len in Hxl; lia]. by exists u. }
  rewrite Hu, len_app. replace (len q + len u - len q) with (len u) by lia. rewrite Hu, len_app in Hlo.
  pose proof (len_nonneg u). assert (len over <= record.MAX_PLAINTEXT) as Hol by lia. rewrite Hu in Hover, Hf1. clearbody over. subst p. rewrite len_app in *.
  destruct (len u <? len u + len over) eqn:E; bool_hyps.
  - unfold slice. cbn [fst snd]. rewrite get_range_back by lia. cbn [or_panic rbind]. rewrite Hp1, Hpush. unfold extend_from_slice.
    rewrite len_nil, (proj2 (Z.ltb_ge _ _)) by lia. cbn [ok_or rbind app]. eexists _, over. split; [done|]. split; [by destruct Hb1; split|].
    by split_and!.
  - assert (over = []) as -> by (apply len_zero_nil; lia). cbn [rbind]. exists t1, []. split_and!; try done. congruence.
Qed.

Lemma read_early_ok ps : forall fuel t q rest,
  behind t ps rest -> followed q -> taken q = q -> bytes_ok (concat ps) -> pushback t = [] ->
  (length ps < fuel)%nat -> let s := q ++ concat ps in too_long s = false -> limit s <= len s ->
  exists ps1 ps2 t' over, ps = ps1 ++ ps2 /\ read_early fuel t (reader_of q) = Ok (t', reader_of (taken s)) /\ behind t' ps2 rest /\
    taken s ++ over = q ++ concat ps1 /\ pushback t' = over /\ len over <= record.MAX_PLAINTEXT /\
    record.tx (session t') = record.tx (session t) /\ ending (stream t') = ending (stream t) /\
    (ps1 = [] \/ exists ps0 p, ps1 = ps0 ++ [p] /\ len (q ++ concat ps0) < limit (q ++ concat ps0)).
Proof.
  induction ps as [|p ps IH]; intros fuel t q rest Hb Hf Hq Hbs Hpush Hfuel s Hs Hlim; (destruct fuel as [|fuel]; [simpl in Hfuel; lia|]);
    pose proof (fo_limit _ Hf) as Hle; pose proof (fo_bytes _ Hf) as Hqb.
  - subst s. cbn [concat] in *. rewrite app_nil_r in *. exists [], [], t, []. rewrite Hq, read_early_done, app_nil_r by (done || lia).
    split_and!; try done. by left.
  - cbn [concat] in Hbs. apply bytes_ok_app in Hbs as [Hpb Hpsb]. assert (bytes_ok (q ++ p)) as Hqp by (by apply bytes_ok_app).
    destruct (decide (limit q = len q)) as [E0|E0].
    { destruct (taken_complete q (concat (p :: ps)) Hqb) as [Ht Hl]; [lia|]. exists [], (p :: ps), t, [].
      unfold s. rewrite Ht, Hq, read_early_done, !app_nil_r by done. split_and!; try done. by left. }
    assert (s = (q ++ p) ++ concat ps) as Hsq by (unfold s; cbn [concat]; by rewrite app_assoc).
    assert (too_long (q ++ p) = false) as Hshort by (apply (too_long_app _ (concat ps)); [done|congruence]).
    destruct (read_early_step fuel t q p ps rest Hb Hf Hpb Hpush ltac:(lia) Hshort) as (t1 & over & -> & Hb1 & Hov & Hp1 & Hol & Hf1 & Ht1 & He1).
    destruct over as [|y over].
    + rewrite app_nil_r in Hov. rewrite Hov in *.
      destruct (IH fuel t1 (q ++ p) rest Hb1 Hf1 Hov Hpsb Hp1 ltac:(simpl in Hfuel; lia)) as (ps1 & ps2 & t' & ov & -> & Hr & Hb2 & Htk & Hp2 & Hol2 & Ht2 & He2 & Hmin);
        [by rewrite <- Hsq..|]. rewrite <- Hsq in Hr, Htk. exists (p :: ps1), ps2, t', ov. cbn [concat]. rewrite app_assoc.
      split_and!; try done; [congruence|congruence|]. right. destruct Hmin as [-> |(ps0 & p0 & -> & Hm)].
      * exists [], p. cbn [concat app]. rewrite app_nil_r. split; [done|lia].
      * exists (p :: ps0), p0. cbn [concat app]. rewrite app_assoc. by split.
    + assert (limit (q ++ p) <= len (q ++ p)) as Hfull.
      { destruct (Z_lt_le_dec (len (q ++ p)) (limit (q ++ p))) as [Hx|Hx]; [|done]. exfalso. unfold taken in Hov. rewrite ztake_all in Hov by lia.
        apply (f_equal len) in Hov. rewrite len_app, len_cons in Hov. nonneg_lens. lia. }
      destruct (taken_complete (q ++ p) (concat ps) Hqp Hfull) as [Htc Hlc]. rewrite <- Hsq in Htc, Hlc.
      exists [p], ps, t1, (y :: over). rewrite Htc. cbn [concat]. rewrite app_nil_r, read_early_done; [|done|].
      * split_and!; try done. right. exists [], p. cbn [concat app]. rewrite app_nil_r. split; [done|lia].
      * unfold limit. pose proof (declared_taken (q ++ p) [] Hqp) as Hd. rewrite !app_nil_r in Hd. rewrite Hd. fold (limit (q ++ p)).
        unfold taken. rewrite len_ztake. pose proof (declared_nonneg _ Hqp). unfold limit, PROBE_LEN in *. change (len MAGIC) with 5 in *. lia.
Qed.

End Early.
