(* ===== verification/HarnessDerp.v ===== *)
(** * The harness: the relay client

    [harness/src/derp.rs]: connecting to a relay, reading its frames and waiting for
    a packet, over the stream of [HarnessNet.v], and the exchange between two nodes. *)

From Stdlib Require Import Strings.String.
From S2P Require Import Prelude Crypto Keys KeysFacts KeyStore StoreFile StoreTheorems NetAddr Text NaClBox Derp DerpFacts HarnessNet HarnessH2 HarnessControl HarnessControlFacts.

Import keys.

(** ** [derp.rs] *)

Module harness_derp.
Import net derp derp_frame derp_client.

Abbreviation ControlError := control_error.ControlError.
Abbreviation Net := control_error.Net.
Abbreviation Derp := control_error.Derp.

(** [filled += stream.read(&mut buffer[filled..])?] *)
Definition read_more (buffer : bytes) (filled : Z) (s : TcpStream) : res ControlError (bytes * Z * TcpStream) :=
  let! room := or_panic (get_range filled (len buffer) buffer) in
  let! '(got, s) := map_err Net (read (len room) s) in
  let! buffer := slice_copy (filled, filled + len got) got buffer in
  Ok (buffer, filled + len got, s).

(** [while filled < target { filled += ... }] *)
Fixpoint fill_to (fuel : nat) (target : Z) (buffer : bytes) (filled : Z) (s : TcpStream) : res ControlError (bytes * Z * TcpStream) :=
  if target <=? filled then Ok (buffer, filled, s) else
  match fuel with
  | O => Hang
  | S fuel =>
      let! '(buffer, filled, s) := read_more buffer filled s in
      fill_to fuel target buffer filled s
  end.

(** Every read fills at least one byte of the buffer. *)
Definition patience (buffer : bytes) : nat := S (length buffer).

(** [buffer.copy_within(a..b, 0)] *)
Definition copy_within (a b : Z) (buffer : bytes) : res ControlError bytes :=
  let! text := slice (a, b) buffer in slice_copy (0, b - a) text buffer.

(** The frame and its payload, with the buffer and the stream left. *)
Definition read_frame (buffer : bytes) (already : Z) (s : TcpStream) : res ControlError (Frame * bytes * bytes * TcpStream) :=
  let! '(buffer, filled, s) := fill_to (patience buffer) HEADER_LEN buffer already s in
  let! front := slice (0, filled) buffer in
  let! parsed := map_err Derp (parse front) in
  let total := HEADER_LEN + length_ parsed in
  let! '(buffer, filled, s) := fill_to (patience buffer) total buffer filled s in
  let! payload := slice (HEADER_LEN, total) buffer in
  if MAX_FRAME <? len payload then Err (Derp TooLarge) else
  let! buffer := copy_within total filled buffer in
  Ok (parsed, payload, buffer, s).

(** The loop that reads until the response's blank line: the buffer, how much of it
    is filled and where the headers end. *)
Fixpoint read_head (fuel : nat) (buffer : bytes) (filled : Z) (s : TcpStream) : res ControlError (bytes * Z * Z * TcpStream) :=
  match fuel with
  | O => Hang
  | S fuel =>
      let! front := slice (0, filled) buffer in
      match parse_upgrade front with
      | Ok finish => Ok (buffer, filled, finish, s)
      | Err Incomplete =>
          let! '(buffer, filled, s) := read_more buffer filled s in
          read_head fuel buffer filled s
      | Err e => Err (Derp e)
      | Panic => Panic
      | Hang => Hang
      end
  end.

(** [connect] from the response's head to the server's first frame, which may have
    come with it. *)
Definition read_opening (s : TcpStream) : res ControlError (Frame * bytes * bytes * TcpStream) :=
  let! '(buffer, filled, header_len, s) := read_head (patience (zeros 1024)) (zeros 1024) 0 s in
  let carried := zeros 1024 in
  let carried_len := filled - header_len in
  let! rest := slice (header_len, filled) buffer in
  let! carried := slice_copy (0, carried_len) rest carried in
  read_frame carried carried_len s.

Section Client.
Context `{C : Curve} `{B : SalsaBox}.

(** What is left of the stream, and what was sent on it, with the client. *)
Record Connection := mkConnection { stream : TcpStream; written : list bytes; client : Client; key : NodePublic }.

(** [connect], once the socket is connected. *)
Definition connect (host : bytes) (identity : Private Node) (rng : bytes) (s : TcpStream) : res ControlError Connection :=
  let! '(_, request) := map_err Derp (write_upgrade_request host (zeros 256)) in
  let! '(f, payload, carried, s) := read_opening s in
  let! server := map_err Derp (read_server_key f payload) in
  let! '(out, n) := map_err Derp (write_client_info identity (public identity) server rng (zeros 512)) in
  let! hello := slice (0, n) out in
  let! '(f, payload, carried, s) := read_frame carried 0 s in
  let! cl := map_err Derp (read_server_info identity server f payload (zeros 512)).2 in
  Ok (mkConnection s [request; hello] cl (public identity)).

(** [relay], from the moment the packet is sent: the receiver's loop.  [turns] is
    how often the clock is found before the deadline; when nothing arrives the timer
    wins and the loop ends. *)
Fixpoint await_packet (turns : nat) (sender : NodePublic) (payload buffer : bytes) (s : TcpStream) : res ControlError TcpStream :=
  match turns with
  | O => Err (Derp Incomplete)
  | S turns =>
      match read_frame buffer 0 s with
      | Hang => Err (Derp Incomplete)
      | Panic => Panic
      | Err e => Err e
      | Ok (f, body, buffer, s) =>
          if negb (bool_decide (kind f = RecvPacket)) then await_packet turns sender payload buffer s else
          let! '(source, packet) := map_err Derp (read_packet f body) in
          if negb (bytes_eqb packet payload) then Err (Derp Malformed) else
          if negb (public_eq (as_bytes source) (as_bytes sender)) then Err (Derp Malformed) else
          Ok s
      end
  end.

End Client.
End harness_derp.

(** * The harness over a relay: what it guarantees

    Frames and the connection's opening are read the same however the stream cuts
    them; where a read returns the end of one frame with the start of the next, the
    rest is lost. *)

Import keys derp derp_frame derp_client net harness_derp.

(** ** Filling a buffer from arrivals *)

Lemma read_more_seg have room seg rest e : 0 < len seg <= len room ->
  read_more (have ++ room) (len have) (mkStream (seg :: rest) e) =
    Ok ((have ++ seg) ++ zdrop (len seg) room, len (have ++ seg), mkStream rest e).
Proof.
  intros H. unfold read_more. rewrite get_range_back by llia. cbn [or_panic rbind].
  rewrite read_seg by done. cbn [map_err rbind]. unfold slice_copy. cbn [fst snd].
  destruct (split_len (len seg) room) as (f & r & -> & Hf); [lia|].
  rewrite copy_at_mid, zdrop_app_len by lia. cbn [or_panic rbind]. by rewrite len_app, <- app_assoc.
Qed.

Lemma fill_to_some segs : cut segs -> forall fuel have room target later e,
  len (concat segs) <= len room -> target <= len have + len (concat segs) -> (length (concat segs) < fuel)%nat ->
  exists s1 s2, segs = s1 ++ s2 /\ target <= len (have ++ concat s1) /\
    fill_to fuel target (have ++ room) (len have) (mkStream (segs ++ later) e) =
      Ok ((have ++ concat s1) ++ zdrop (len (concat s1)) room, len (have ++ concat s1), mkStream (s2 ++ later) e).
Proof.
  induction 1 as [|seg segs Hs Hc IH]; intros fuel have room target later e Hroom Ht Hf; cbn [concat] in *.
  - exists [], []. cbn [concat]. rewrite (app_nil_r have), zdrop_0 by done. split_and!; [done|llia|].
    destruct fuel; cbn [fill_to]; by rewrite (proj2 (Z.leb_le _ _)) by llia.
  - destruct fuel as [|fuel]; [simpl in Hf; lia|]. cbn [fill_to]. destruct (target <=? len have) eqn:Hle; bool_hyps.
    + exists [], (seg :: segs). cbn [concat]. rewrite (app_nil_r have), zdrop_0 by done. by split_and!.
    + cbn [app]. rewrite read_more_seg by llia. cbn [rbind].
      destruct (IH fuel (have ++ seg) (zdrop (len seg) room) target later e) as (s1 & s2 & -> & Hle' & ->);
        [llia|llia|rewrite length_app in Hf; unfold len in Hs; lia|].
      exists (seg :: s1), s2. cbn [concat]. rewrite zdrop_zdrop, <- !app_assoc, !len_app by apply len_nonneg.
      rewrite !len_app in Hle'. split_and!; [done|lia|]. done.
Qed.

(** Filling up to exactly what arrives takes all of it. *)
Lemma fill_to_all segs fuel have room later e : cut segs ->
  len (concat segs) <= len room -> (length (concat segs) < fuel)%nat ->
  fill_to fuel (len have + len (concat segs)) (have ++ room) (len have) (mkStream (segs ++ later) e) =
    Ok ((have ++ concat segs) ++ zdrop (len (concat segs)) room, len (have ++ concat segs), mkStream later e).
Proof.
  intros Hc Hroom Hf. destruct (fill_to_some segs Hc fuel have room (len have + len (concat segs)) later e) as (s1 & s2 & -> & Hle & Heq);
    [lia..|]. rewrite Heq. rewrite concat_app, !len_app in Hle.
  assert (Hnil : s2 = []). { apply cut_nil; [by apply Forall_app in Hc as [_ Hc]|llia]. }
  subst s2. by rewrite !app_nil_r.
Qed.

(** ** Frames *)

Lemma parse_more b more : HEADER_LEN <= len b -> parse (b ++ more) = parse b.
Proof.
  intros H. unfold parse. unfold HEADER_LEN in *. destruct (split_len 5 b) as (x & y & -> & Hx); [lia|].
  by rewrite <- app_assoc, !get_range_front.
Qed.

Lemma copy_within_ok a (text rest x y : bytes) : a = len x -> len text <= len x ->
  exists buffer, copy_within a (a + len text) (x ++ text ++ y) = Ok buffer /\ len buffer = len (x ++ text ++ y).
Proof.
  intros -> Hl. unfold copy_within, slice, slice_copy. cbn [fst snd]. rewrite get_range_mid by done. cbn [or_panic rbind].
  pose proof (len_nonneg text). destruct (split_len (len text) (x ++ text ++ y)) as (f & r & -> & Hf); [llia|].
  rewrite (copy_at_mid _ _ text [] f r) by llia. eexists. split; [done|]. llia.
Qed.

(** A frame that is partly in the buffer and otherwise arrives in any pieces. *)
Lemma read_frame_ok t payload have room segs later e :
  frame_type_ok t -> len payload <= MAX_FRAME -> cut segs ->
  have ++ concat segs = frame_bytes t payload -> len (frame_bytes t payload) <= len (have ++ room) ->
  exists buffer, read_frame (have ++ room) (len have) (mkStream (segs ++ later) e) =
      Ok (mkFrame t (len payload), payload, buffer, mkStream later e) /\ len buffer = len (have ++ room).
Proof.
  intros Ht Hp Hc Hf Hl. unfold read_frame.
  assert (Hlen : len have + len (concat segs) = 5 + len payload) by (rewrite <- len_app, Hf; unfold frame_bytes; llia).
  assert (Hfl : len (frame_bytes t payload) = 5 + len payload) by (unfold frame_bytes; llia).
  assert (Hfuel : (length (concat segs) < patience (have ++ room))%nat) by (unfold patience, len in *; rewrite length_app in *; lia).
  destruct (fill_to_some segs Hc (patience (have ++ room)) have room HEADER_LEN later e) as (s1 & s2 & -> & H5 & ->);
    [llia|unfold HEADER_LEN; llia|done|].
  rewrite concat_app in Hf, Hlen, Hfuel. cbn [rbind]. unfold slice at 1. cbn [fst snd]. rewrite get_range_front by done. cbn [or_panic rbind].
  rewrite <- (parse_more _ (concat s2)), <- app_assoc, Hf by done.
  rewrite <- (app_nil_r (frame_bytes t payload)), parse_frame by done. cbn [map_err rbind length_].
  replace (HEADER_LEN + len payload) with (len (have ++ concat s1) + len (concat s2)) by (unfold HEADER_LEN; llia).
  apply Forall_app in Hc as [_ Hc2].
  assert (Hroom2 : (length (concat s2) < patience ((have ++ concat s1) ++ zdrop (len (concat s1)) room))%nat).
  { assert (len (concat s2) < len ((have ++ concat s1) ++ zdrop (len (concat s1)) room) + 1) by llia. unfold patience, len in *. lia. }
  rewrite fill_to_all; [|done|llia|done]. cbn [rbind].
  rewrite <- !app_assoc, (app_assoc have), (app_assoc (have ++ concat s1)), <- (app_assoc have), Hf.
  set (tail := zdrop _ (zdrop _ room)).
  assert (Htot : len (have ++ concat s1) + len (concat s2) = 5 + len payload) by llia.
  unfold slice, HEADER_LEN. cbn [fst snd]. rewrite Htot.
  assert (Hpay : get_range 5 (5 + len payload) (frame_bytes t payload ++ tail) = Some payload).
  { unfold frame_bytes. rewrite app_assoc, <- app_assoc. apply get_range_mid; llia. }
  rewrite Hpay. cbn [or_panic rbind]. rewrite (proj2 (Z.ltb_ge _ _)) by done.
  destruct (copy_within_ok (5 + len payload) [] [] (frame_bytes t payload) tail) as (buffer & Hcw & Hbl); [done|llia|].
  cbn [app] in Hcw. rewrite len_nil, Z.add_0_r in Hcw.
  replace (len (frame_bytes t payload)) with (5 + len payload) by done. rewrite Hcw. cbn [rbind].
  exists buffer. split; [done|]. rewrite Hbl. cbn [app]. subst tail. rewrite len_app, Hfl, !len_zdrop. llia.
Qed.

(** One frame is read whole from whatever pieces it arrives in, some of it
    possibly in the buffer already: the header's type and length, the payload, and the
    stream from the next arrival on.  The loops end: every read fills part of the
    buffer. *)
Theorem frame_read_from_pieces (t : FrameType) (payload have room : bytes) (segs later : list bytes) (e : option NetError) :
  frame_type_ok t -> len payload <= MAX_FRAME -> cut segs ->
  have ++ concat segs = frame_bytes t payload -> len (frame_bytes t payload) <= len (have ++ room) ->
  exists buffer, read_frame (have ++ room) (len have) (mkStream (segs ++ later) e) =
    Ok (mkFrame t (len payload), payload, buffer, mkStream later e).
Proof.
  intros Ht Hp Hc Hf Hl. destruct (read_frame_ok t payload have room segs later e) as (b & Hr & _); eauto.
Qed.

Lemma frame_read_from_pieces_witness :
  exists buffer, read_frame ([5; 0; 0] ++ zeros 61) 3 (mkStream ([[0]; [3; 7]; [8; 9]] ++ [[1; 2]]) (Some Closed)) =
    Ok (mkFrame RecvPacket 3, [7; 8; 9], buffer, mkStream [[1; 2]] (Some Closed)).
Proof.
  apply (frame_read_from_pieces RecvPacket [7; 8; 9] [5; 0; 0] (zeros 61) [[0]; [3; 7]; [8; 9]]);
    [exact I|vm_compute; discriminate|repeat constructor|vm_compute; reflexivity|vm_compute; discriminate].
Defined.

(** ** The opening *)

Lemma read_head_ok segs : cut segs -> forall fuel have room head extra later e,
  is_head head -> verdict head = Ok (len head) -> have ++ concat segs = head ++ extra ->
  len (concat segs) <= len room -> (length (concat segs) < fuel)%nat ->
  exists s1 s2 x, segs = s1 ++ s2 /\ have ++ concat s1 = head ++ x /\ x ++ concat s2 = extra /\
    read_head fuel (have ++ room) (len have) (mkStream (segs ++ later) e) =
      Ok ((have ++ concat s1) ++ zdrop (len (concat s1)) room, len (have ++ concat s1), len head, mkStream (s2 ++ later) e).
Proof.
  induction 1 as [|seg segs Hs Hc IH]; intros fuel have room head extra later e Hh Hv Hall Hroom Hf;
    (destruct fuel as [|fuel]; [simpl in Hf; lia|]); cbn [read_head concat] in *; unfold slice; cbn [fst snd];
    rewrite get_range_front by done; cbn [or_panic rbind].
  - rewrite app_nil_r in Hall. exists [], [], extra. cbn [concat]. rewrite (app_nil_r have), (app_nil_r extra), zdrop_0 by done.
    split_and!; [done..|]. by rewrite Hall, parse_upgrade_head, Hv.
  - destruct (decide (len head <= len have)) as [Hle|Hlt].
    + destruct (split_len (len head) have) as (h & x & -> & Hhl); [pose proof (len_nonneg head); lia|].
      rewrite <- app_assoc in Hall. apply app_inj_1 in Hall as [-> <-]; [|unfold len in Hhl; lia].
      exists [], (seg :: segs), x. cbn [concat]. rewrite (app_nil_r (head ++ x)), zdrop_0 by done.
      split_and!; [done..|]. by rewrite parse_upgrade_head, Hv.
    + assert (Hcut : have = ztake (len have) head).
      { apply (f_equal (ztake (len have))) in Hall. rewrite ztake_app_len in Hall by done. rewrite Hall at 1.
        unfold ztake. apply take_app_le. unfold len in *; lia. }
      assert (Hinc : parse_upgrade have = Err Incomplete).
      { rewrite Hcut. unfold parse_upgrade. rewrite (position_cut _ _ (len head - 4)); [done|done|done|change (len CRLF2) with 4; lia]. }
      rewrite Hinc. cbn [app]. rewrite read_more_seg by llia. cbn [rbind].
      destruct (IH fuel (have ++ seg) (zdrop (len seg) room) head extra later e) as (s1 & s2 & x & -> & H1 & H2 & ->);
        [done|done|by rewrite <- app_assoc|llia|rewrite length_app in Hf; unfold len in Hs; lia|].
      exists (seg :: s1), s2, x. cbn [concat]. rewrite zdrop_zdrop by apply len_nonneg.
      rewrite !(len_app seg), <- !app_assoc. rewrite <- app_assoc in H1. by split_and!.
Qed.

Section Client.
Context `{C : Curve} `{HC : !CurveOk C} `{B : SalsaBox} `{HB : !SalsaBoxOk B C}.

Lemma len_frame_bytes t payload : len (frame_bytes t payload) = 5 + len payload.
Proof. unfold frame_bytes. llia. Qed.

Lemma len_zeros_1024 : len (zeros 1024) = 1024.
Proof. done. Qed.

Lemma read_opening_ok (srv : Private Node) head segs later e :
  is_head head -> verdict head = Ok (len head) -> len head + 45 <= 1024 ->
  cut segs -> concat segs = head ++ frame_bytes ServerKey (server_greeting srv) ->
  exists buffer, read_opening (mkStream (segs ++ later) e) =
    Ok (mkFrame ServerKey 40, server_greeting srv, buffer, mkStream later e) /\ len buffer = 1024.
Proof.
  intros Hh Hv Hfit Hc Hopen. unfold read_opening. pose proof len_zeros_1024 as Hz.
  assert (Hg : len (server_greeting srv) = 40) by (unfold server_greeting; rewrite len_app; cbn [public as_bytes]; rewrite len_public; done).
  assert (Hol : len (concat segs) = len head + 45) by (rewrite Hopen, len_app, len_frame_bytes; lia).
  destruct (read_head_ok segs Hc (patience (zeros 1024)) [] (zeros 1024) head _ later e Hh Hv Hopen)
    as (s1 & s2 & x & -> & H1 & H2 & Hrh);
    [lia|unfold patience; rewrite length_len, (length_len (zeros 1024)), Hol, Hz; lia|].
  cbn [app] in Hrh, H1. change (len (@nil Z)) with 0 in Hrh. rewrite Hrh, H1. cbn [rbind].
  rewrite len_app. replace (len head + len x - len head) with (len x) by lia.
  assert (Hx : len x <= 45) by (apply (f_equal len) in H2; rewrite len_app, len_frame_bytes in H2; llia).
  unfold slice, slice_copy. cbn [fst snd]. rewrite <- app_assoc, get_range_mid by lia. cbn [or_panic rbind].
  destruct (split_len (len x) (zeros 1024)) as (z & room & Hzr & Hzl); [nonneg_lens; lia|].
  rewrite Hzr, len_app in Hz.
  pose proof (copy_at_mid 0 (len x) x [] z room) as Hcp. cbn [app] in Hcp. change (len (@nil Z)) with 0 in Hcp.
  rewrite Hzr, Hcp by lia. cbn [or_panic rbind].
  apply Forall_app in Hc as [_ Hc2].
  destruct (read_frame_ok ServerKey (server_greeting srv) x room s2 later e) as (b & Hr & Hb);
    [done|rewrite Hg; unfold MAX_FRAME; lia|done|done|rewrite len_frame_bytes, len_app; lia|].
  exists b. rewrite Hr, Hg, Hb, len_app. split; [done|lia].
Qed.

(** Connecting to a relay that upgrades, greets and answers as documented
    succeeds however its bytes are cut into arrivals, as long as its answer starts an
    arrival of its own: the client holds the server's key, and what was sent is the
    upgrade request and a hello from which the server reads this node's key and the
    version. *)
Theorem relay_connected (host : bytes) (identity srv : Private Node) (rng head nonce info answer : bytes)
    (opening reply later : list bytes) (e : option NetError) :
  len (upgrade_request host) <= 256 -> NONCE_LEN <= len rng ->
  is_head head -> verdict head = Ok (len head) -> len head + 45 <= 1024 ->
  cut opening -> concat opening = head ++ frame_bytes ServerKey (server_greeting srv) ->
  len nonce = NONCE_LEN -> len info <= 512 -> server_answers srv (public identity) nonce info = Some answer ->
  cut reply -> concat reply = frame_bytes ServerInfo answer ->
  exists hello,
    connect host identity rng (mkStream (opening ++ reply ++ later) e) =
      Ok (mkConnection (mkStream later e) [upgrade_request host; hello] (mkClient (public srv)) (public identity)) /\
    server_reads srv (zdrop HEADER_LEN hello) = Some (public identity, CLIENT_INFO).
Proof.
  intros Hreq Hrng Hh Hv Hfit Hco Hopen Hn Hinfo Hans Hcr Hreply. unfold connect.
  rewrite derp_request_exact. cbn zeta. rewrite (proj2 (Z.leb_le _ _)) by (change (len (zeros 256)) with 256; lia). cbn [map_err rbind].
  destruct (read_opening_ok srv head opening (reply ++ later) e Hh Hv Hfit Hco Hopen) as (b1 & -> & Hb1). cbn [rbind].
  pose proof (read_server_key_ok srv [] 40) as Hkey. rewrite app_nil_r in Hkey. rewrite Hkey. cbn [map_err rbind].
  destruct (write_client_info_ok identity (public srv) rng (zeros 512) Hrng) as (c & t & Hs & Hc & Ht & Hw).
  pose proof (server_reads_hello identity srv rng c t Hrng Hs Hc Ht) as Hsr. rewrite Hw. unfold laid.
  set (hello := frame_bytes ClientInfo _) in *.
  assert (Hhl : len hello <= 512).
  { subst hello. rewrite len_frame_bytes, !len_app. unfold NONCE_LEN in *. cbn [public as_bytes]. rewrite len_public. llia. }
  rewrite (proj2 (Z.leb_le _ _)) by done. cbn [map_err rbind]. unfold slice. cbn [fst snd].
  rewrite get_range_front by done. cbn [or_panic rbind].
  destruct (read_answer identity srv nonce info answer (zeros 512) Hn Hinfo Hans) as (Hal & Hinfo_ok).
  destruct (read_frame_ok ServerInfo answer [] b1 reply later e) as (b2 & Hr2 & _);
    [done|unfold MAX_FRAME; lia|done|done|rewrite len_frame_bytes; cbn [app]; lia|].
  cbn [app] in Hr2. change (len (@nil Z)) with 0 in Hr2. rewrite Hr2. cbn [rbind]. rewrite Hinfo_ok. cbn [map_err rbind snd].
  exists hello. split; [done|]. rewrite <- Hsr. by f_equal.
Qed.

(** Frames of other kinds, each in arrivals of its own. *)
Definition other_frames (chatter : list (FrameType * bytes * list bytes)) : Prop :=
  Forall (fun '(t, payload, segs) => frame_type_ok t /\ t <> RecvPacket /\ 5 + len payload <= 1024 /\ cut segs /\ concat segs = frame_bytes t payload) chatter.

(** A packet the relay delivers is found and attributed whatever keepalives and
    notices come first, however many pieces each of these frames arrives in, as long
    as each starts an arrival of its own and the clock allows as many turns. *)
Theorem probe_found (chatter : list (FrameType * bytes * list bytes)) (sender : NodePublic) (payload buffer : bytes)
    (segs later : list bytes) (e : option NetError) (turns : nat) :
  other_frames chatter -> len (as_bytes sender) = 32 -> 37 + len payload <= 1024 -> len buffer = 1024 ->
  cut segs -> concat segs = frame_bytes RecvPacket (as_bytes sender ++ payload) -> (length chatter < turns)%nat ->
  await_packet turns sender payload buffer (mkStream (concat (map snd chatter) ++ segs ++ later) e) = Ok (mkStream later e).
Proof.
  intros Ho Hs Hp Hb Hc Hseg. revert turns buffer Hb.
  induction Ho as [|[[t p] ps] chatter (Ht & Hne & Hl & Hcp & Hps) _ IH]; intros [|turns] buffer Hb Hturns; try (simpl in Hturns; lia);
    cbn [map concat snd app await_packet].
  - destruct (read_frame_ok RecvPacket (as_bytes sender ++ payload) [] buffer segs later e) as (b & Hr & _);
      [done|unfold MAX_FRAME; llia|done|done|rewrite len_frame_bytes; cbn [app]; llia|].
    cbn [app] in Hr. change (len (@nil Z)) with 0 in Hr. rewrite Hr. cbn [kind]. rewrite bool_decide_eq_true_2 by done. cbn [negb].
    rewrite read_packet_ok by done. cbn [map_err rbind]. by rewrite bytes_eqb_refl, public_eq_refl.
  - destruct (read_frame_ok t p [] buffer ps (concat (map snd chatter) ++ segs ++ later) e) as (b & Hr & Hbl);
      [done|unfold MAX_FRAME; lia|done|done|rewrite len_frame_bytes; cbn [app]; lia|].
    cbn [app] in Hr, Hbl. change (len (@nil Z)) with 0 in Hr. rewrite <- app_assoc, Hr. cbn [kind].
    rewrite bool_decide_eq_false_2 by done. cbn [negb]. apply IH; [lia|simpl in Hturns; lia].
Qed.

End Client.

Import ToyCurve ToyBox.

Definition toy_node (x : Z) : Private Node := private_from_bytes (repeat x 32).

Definition one_keepalive : list (FrameType * bytes * list bytes) := [(KeepAlive, [], [[6; 0]; [0; 0; 0]])].

Lemma probe_found_witness :
  await_packet 2 (public (toy_node 7)) [1; 2] (zeros 1024)
    (mkStream (concat (map snd one_keepalive) ++
       [frame_bytes RecvPacket (as_bytes (public (toy_node 7)) ++ [1; 2])] ++ [[9]]) None) = Ok (mkStream [[9]] None).
Proof.
  apply (probe_found one_keepalive (public (toy_node 7)) [1; 2] (zeros 1024)
    [frame_bytes RecvPacket (as_bytes (public (toy_node 7)) ++ [1; 2])] [[9]] None 2).
  - constructor; [|constructor]. split_and!; [exact I|discriminate|vm_compute; discriminate|repeat constructor|vm_compute; reflexivity].
  - vm_compute. reflexivity.
  - vm_compute. discriminate.
  - vm_compute. reflexivity.
  - repeat constructor.
  - vm_compute. reflexivity.
  - simpl. lia.
Defined.

Definition toy_answer : bytes := default [] (server_answers (toy_node 9) (public (toy_node 7)) (repeat 5 24) [1; 2]).

Lemma relay_connected_witness :
  exists hello,
    connect (str "127.0.0.1:8080") (toy_node 7) (zeros 24)
      (mkStream ([ztake 50 sample_head; zdrop 50 sample_head ++ [1; 0; 0]; zdrop 3 (frame_bytes ServerKey (server_greeting (toy_node 9)))] ++
                 [frame_bytes ServerInfo toy_answer] ++ [[4]]) (Some Closed)) =
      Ok (mkConnection (mkStream [[4]] (Some Closed)) [upgrade_request (str "127.0.0.1:8080"); hello] (mkClient (public (toy_node 9))) (public (toy_node 7))) /\
    server_reads (toy_node 9) (zdrop HEADER_LEN hello) = Some (public (toy_node 7), CLIENT_INFO).
Proof.
  apply (relay_connected (str "127.0.0.1:8080") (toy_node 7) (toy_node 9) (zeros 24) sample_head (repeat 5 24) [1; 2] toy_answer);
    try (vm_compute; first [reflexivity | discriminate]); repeat constructor.
Defined.

(** What a read returns past the end of a frame is moved to the front of the buffer,
    but the next frame is read as if the buffer were empty: a keepalive and a packet
    that arrive together leave the packet lost, although the same bytes in two
    arrivals deliver it. *)
Theorem second_frame_lost :
  let packet := frame_bytes RecvPacket (as_bytes (public (toy_node 7)) ++ [1; 2]) in
  await_packet 5 (public (toy_node 7)) [1; 2] (zeros 1024) (mkStream [frame_bytes KeepAlive [] ++ packet] None) = Err (Derp Incomplete) /\
  await_packet 5 (public (toy_node 7)) [1; 2] (zeros 1024) (mkStream [frame_bytes KeepAlive []; packet] None) = Ok (mkStream [] None).
Proof. vm_compute. done. Qed.

(** A frame the protocol allows but the buffer of 1024 bytes cannot hold is reported
    as a connection the peer closed. *)
Theorem large_frame_reads_as_closed :
  read_frame (zeros 1024) 0 (mkStream [frame_bytes RecvPacket (zeros 1100)] None) = Err (Net Closed).
Proof. vm_compute. done. Qed.

(** * A packet through a relay

    The rest of [harness/src/derp.rs]: two registered nodes connect to a relay and one
    sends the other a packet. *)

Module harness_relay.

(** Something recognisable. *)
Definition PAYLOAD : bytes := str "esp-gateway relay probe".

(** What the outside gives to an exchange: the two connections, the random bytes of
    the identities, should they be new, and of the two hellos. *)
Record Ends := mkEnds {
  sender_dial : res NetError TcpStream;
  receiver_dial : res NetError TcpStream;
  sender_tape : bytes;
  receiver_tape : bytes;
  sender_hello : bytes;
  receiver_hello : bytes;
}.

Section Relay.
Context `{C : Curve} `{B : SalsaBox} `{P : Primitives}.
Context {W : Type} `{OS : file_store.Posix W} (patience : nat).
Import harness_control.

(** [load_node_key] *)
Definition load_node_key (w : W) (state_dir : bytes) (rng : bytes) : W * res ControlError (Private Node) :=
  then_ (open_store w state_dir) (fun w fs =>
  then_ (load_identity patience w fs rng) (fun w '(identity, _) =>
  (w, Ok (node identity)))).

(** [connect], from the socket on. *)
Definition dial_and_connect (dial : res NetError TcpStream) (host : bytes) (identity : Private Node) (rng : bytes) : res ControlError harness_derp.Connection :=
  let! s := map_err E.Net dial in harness_derp.connect host identity rng s.

(** Once the keys are there: what each of the two sent, and what is left of the
    receiver's stream.  [turns] is how often the clock is found before the deadline. *)
Definition exchange (turns : nat) (o : Ends) (host : bytes) (sender_key receiver_key : Private Node)
    : res ControlError (list bytes * list bytes * TcpStream) :=
  let! sender := dial_and_connect (sender_dial o) host sender_key (sender_hello o) in
  let! receiver := dial_and_connect (receiver_dial o) host receiver_key (receiver_hello o) in
  let! '(out, n) := map_err E.Derp (send_packet (harness_derp.key receiver) PAYLOAD (zeros 512)) in
  let! packet := slice (0, n) out in
  let! s := harness_derp.await_packet turns (harness_derp.key sender) PAYLOAD (zeros 1024) (harness_derp.stream receiver) in
  Ok (harness_derp.written sender ++ [packet], harness_derp.written receiver, s).

Definition relay (turns : nat) (w : W) (o : Ends) (address : bytes) (port : Z) (sender_dir receiver_dir : bytes)
    : W * res ControlError (list bytes * list bytes * TcpStream) :=
  then_ (w, write_host address port) (fun w host =>
  then_ (load_node_key w sender_dir (sender_tape o)) (fun w sender_key =>
  then_ (load_node_key w receiver_dir (receiver_tape o)) (fun w receiver_key =>
  (w, exchange turns o host sender_key receiver_key)))).

(** [run]: the exit code. *)
Definition run {A} (r : res ControlError A) : res Empty_set Z :=
  match r with Ok _ => Ok 0 | Err _ => Ok 1 | Panic => Panic | Hang => Hang end.

End Relay.
End harness_relay.
Import harness_derp harness_relay.

Section Exchange.
Context `{C : Curve} `{HC : !CurveOk C} `{B : SalsaBox} `{HB : !SalsaBoxOk B C} `{P : Primitives}.
Context {W : Type} `{OS : file_store.Posix W} (patience : nat).

(** The relay [srv] upgrades this client, greets it and answers its hello, in arrivals
    cut in any way, its answer starting one of its own; then [later] comes. *)
Definition welcomes (srv identity : Private Node) (s : TcpStream) (later : list bytes) (e : option NetError) : Prop :=
  exists head nonce info answer opening reply, s = mkStream (opening ++ reply ++ later) e /\
    is_head head /\ verdict head = Ok (len head) /\ len head + 45 <= 1024 /\
    cut opening /\ concat opening = head ++ frame_bytes ServerKey (server_greeting srv) /\
    len nonce = NONCE_LEN /\ len info <= 512 /\ server_answers srv (public identity) nonce info = Some answer /\
    cut reply /\ concat reply = frame_bytes ServerInfo answer.

Lemma dial_ok host srv identity rng s later e : len (upgrade_request host) <= 256 -> NONCE_LEN <= len rng -> welcomes srv identity s later e ->
  exists hello, dial_and_connect (Ok s) host identity rng
      = Ok (mkConnection (mkStream later e) [upgrade_request host; hello] (mkClient (public srv)) (public identity)) /\
    server_reads srv (zdrop HEADER_LEN hello) = Some (public identity, CLIENT_INFO).
Proof.
  intros Hh Hr (head & nonce & info & answer & opening & reply & -> & H). unfold dial_and_connect. cbn [map_err rbind].
  apply (relay_connected host identity srv rng head nonce info answer opening reply later e); try done; apply H.
Qed.

(** Success is the truth: the frame that ends the wait is the packet, from the sender. *)
Lemma await_sound turns sender payload buffer s s' : await_packet turns sender payload buffer s = Ok s' ->
  exists b0 s0 b1 n source, read_frame b0 0 s0 = Ok (mkFrame RecvPacket n, source ++ payload, b1, s') /\
    len source = 32 /\ public_eq source (as_bytes sender) = true.
Proof.
  revert buffer s. induction turns as [|turns IH]; intros buffer s H; [done|]. cbn [await_packet] in H.
  destruct (read_frame buffer 0 s) as [[[[f body] b1] s1]|e| |] eqn:E; try done.
  destruct (bool_decide (kind f = RecvPacket)) eqn:Ek; [apply bool_decide_eq_true in Ek|by apply (IH b1 s1)]. cbn [negb] in H.
  unfold read_packet in H. rewrite bool_decide_eq_true_2 in H by done. cbn [negb] in H. unfold KEY_LEN in H.
  destruct (len body <? 32) eqn:El; [done|]. bool_hyps. destruct (split_len 32 body) as (source & rest & -> & Hs); [lia|].
  unfold slice in H. cbn [fst snd] in H. rewrite get_range_front, get_range_back in H by (rewrite ?len_app; lia). cbn [or_panic rbind map_err] in H.
  destruct (bytes_eqb rest payload) eqn:Eb; [apply bytes_eqb_true in Eb as ->|done]. cbn [negb] in H.
  destruct (public_eq (as_bytes (from_bytes source)) (as_bytes sender)) eqn:Ep; [|done]. injection H as <-.
  destruct f as [k n]. cbn [kind] in Ek. subst k. exists buffer, s, b1, n, source. by split_and!.
Qed.

(** C24: A packet is relayed.  Where two state directories hold a node key each and a
    relay welcomes both of them and hands the receiver what the sender sent it after
    other frames, the exchange ends well: each said hello under its own key, the
    sender's last message is one the relay reads as a packet for the receiver's key,
    and the receiver gets it intact with the sender's key, leaving what comes later.
    The relay's answer to the hello, each of the other frames and the packet begin an
    arrival of their own and may be cut anywhere within; an upgrade response has at
    most 979 bytes, what an answer holds at most 512, another frame at most 1024 with
    its header, and there are fewer other frames than turns of the wait. *)
Theorem packet_relayed (turns : nat) (w w1 w2 : W) (o : Ends) (address : bytes) (port : Z) (sender_dir receiver_dir : bytes)
    (i j srv : Private Node) (s r : TcpStream) (rest segs later : list bytes) (chatter : list (FrameType * bytes * list bytes)) (e f : option NetError) :
  address_ok address port ->
  load_node_key patience w sender_dir (sender_tape o) = (w1, Ok i) -> load_node_key patience w1 receiver_dir (receiver_tape o) = (w2, Ok j) ->
  sender_dial o = Ok s -> NONCE_LEN <= len (sender_hello o) -> welcomes srv i s rest e ->
  receiver_dial o = Ok r -> NONCE_LEN <= len (receiver_hello o) -> welcomes srv j r (concat (map snd chatter) ++ segs ++ later) f ->
  other_frames chatter -> (length chatter < turns)%nat ->
  cut segs -> concat segs = frame_bytes RecvPacket (as_bytes (public i) ++ PAYLOAD) ->
  exists request hello_i hello_j packet,
    relay patience turns w o address port sender_dir receiver_dir
      = (w2, Ok ([request; hello_i; packet], [request; hello_j], mkStream later f)) /\
    server_reads srv (zdrop HEADER_LEN hello_i) = Some (public i, CLIENT_INFO) /\
    server_reads srv (zdrop HEADER_LEN hello_j) = Some (public j, CLIENT_INFO) /\
    relay_server (public i) packet = Some (public j, concat segs).
Proof.
  intros Ha Hi Hj Hds Hrs Hws Hdr Hrr Hwr Hch Ht Hc Hseg. unfold relay. rewrite write_host_text by done. cbn [harness_control.then_].
  rewrite Hi. cbn [harness_control.then_]. rewrite Hj. cbn [harness_control.then_]. set (host := host_text address port).
  assert (len (upgrade_request host) <= 256) as Hreq.
  { destruct (host_fits address port Ha) as [Hl _]. unfold upgrade_request. rewrite !len_app. subst host. vm_compute (len (str _)). unfold CRLF2. llia. }
  destruct (dial_ok host srv i (sender_hello o) s rest e Hreq Hrs Hws) as (hi & Hci & Hri).
  destruct (dial_ok host srv j (receiver_hello o) r _ f Hreq Hrr Hwr) as (hj & Hcj & Hrj).
  assert (forall k : Private Node, len (as_bytes (public k)) = 32) as Hkey by (intros; apply len_public).
  unfold exchange. rewrite Hds, Hdr, Hci, Hcj. cbn [rbind key stream written]. rewrite send_packet_ok by apply Hkey.
  change (MAX_PACKET <? len PAYLOAD) with false. unfold laid. set (packet := frame_bytes SendPacket _).
  assert (len packet <= len (zeros 512)) as Hfit by (subst packet; rewrite len_frame_bytes, len_app, Hkey; vm_compute; discriminate).
  rewrite (proj2 (Z.leb_le _ _) Hfit). cbn [map_err rbind].
  unfold slice. cbn [fst snd]. rewrite get_range_front by done. cbn [or_panic rbind].
  rewrite (probe_found chatter (public i) PAYLOAD (zeros 1024) segs later f turns) by (done || apply Hkey). cbn [rbind app].
  exists (upgrade_request host), hi, hj, packet. split_and!; [done|done|done|]. rewrite Hseg. apply relay_server_sent; [apply Hkey|vm_compute; discriminate].
Qed.

End Exchange.

Import ToyCurve ToyBox ToyDisk.
#[local] Existing Instance Toy.prims.

(** ** A relay *)

Module RelayDemo.

(** Two new nodes and the relay. *)
Definition ends (s r : TcpStream) : Ends := mkEnds (Ok s) (Ok r) (replicate 96 7) (replicate 96 9) (zeros 24) (replicate 24 1).
Definition nobody : Private Node := toy_node 0.
Definition key_of (x : Disk * res ControlError (Private Node)) : Private Node := match x.2 with Ok k => k | _ => nobody end.
Definition is_ok (x : Disk * res ControlError (Private Node)) : bool := match x.2 with Ok _ => true | _ => false end.
Lemma loaded x : is_ok x = true -> x = (x.1, Ok (key_of x)).
Proof. destruct x as [w [k|e| |]]; done. Qed.

Definition first : Disk * res ControlError (Private Node) := load_node_key 10 empty_disk [97] (replicate 96 7).
Definition second : Disk * res ControlError (Private Node) := load_node_key 10 first.1 [98] (replicate 96 9).
Lemma first_ok : is_ok first = true.
Proof. vm_compute. reflexivity. Qed.
Lemma second_ok : is_ok second = true.
Proof. vm_compute. reflexivity. Qed.
Definition i : Private Node := key_of first.
Definition j : Private Node := key_of second.
Definition srv : Private Node := toy_node 5.

(** The relay's side of a connection, cut into pieces, and what comes then. *)
Definition nonce : bytes := replicate 24 5.
Definition answer_to (k : Private Node) : bytes := default [] (server_answers srv (public k) nonce [1; 2]).
Definition welcome (k : Private Node) (later : list bytes) : TcpStream :=
  mkStream ([ztake 50 sample_head; zdrop 50 sample_head ++ [1; 0; 0]; zdrop 3 (frame_bytes ServerKey (server_greeting srv))] ++
    [frame_bytes ServerInfo (answer_to k)] ++ later) None.

Lemma welcome_ok k later : server_answers srv (public k) nonce [1; 2] = Some (answer_to k) -> welcomes srv k (welcome k later) later None.
Proof.
  intros Ha. exists sample_head, nonce, [1; 2], (answer_to k),
    [ztake 50 sample_head; zdrop 50 sample_head ++ [1; 0; 0]; zdrop 3 (frame_bytes ServerKey (server_greeting srv))], [frame_bytes ServerInfo (answer_to k)].
  split_and!; [reflexivity|vm_compute; reflexivity|vm_compute; reflexivity|vm_compute; discriminate| |vm_compute; reflexivity| | |exact Ha| |].
  all: try reflexivity; try (vm_compute; discriminate); repeat constructor; vm_compute; reflexivity.
Qed.

Definition delivered : bytes := frame_bytes RecvPacket (as_bytes (public i) ++ PAYLOAD).
Definition world : Ends := ends (welcome i []) (welcome j (concat (map snd one_keepalive) ++ [ztake 9 delivered; zdrop 9 delivered] ++ [[4]])).

Lemma packet_relayed_witness : exists request hello_i hello_j packet,
  relay 10 2 empty_disk world [127; 0; 0; 1] 3340 [97] [98] = (second.1, Ok ([request; hello_i; packet], [request; hello_j], mkStream [[4]] None)) /\
  server_reads srv (zdrop HEADER_LEN hello_i) = Some (public i, CLIENT_INFO) /\
  server_reads srv (zdrop HEADER_LEN hello_j) = Some (public j, CLIENT_INFO) /\
  relay_server (public i) packet = Some (public j, concat [ztake 9 delivered; zdrop 9 delivered]).
Proof.
  apply (packet_relayed 10 2 empty_disk first.1 second.1 world [127; 0; 0; 1] 3340 [97] [98] i j srv (welcome i [])
    (welcome j (concat (map snd one_keepalive) ++ [ztake 9 delivered; zdrop 9 delivered] ++ [[4]]))
    [] [ztake 9 delivered; zdrop 9 delivered] [[4]] one_keepalive None None).
  - split_and!; [done|repeat constructor; done|done].
  - exact (loaded first first_ok).
  - exact (loaded second second_ok).
  - reflexivity.
  - vm_compute. discriminate.
  - apply welcome_ok. vm_compute. reflexivity.
  - reflexivity.
  - vm_compute. discriminate.
  - apply welcome_ok. vm_compute. reflexivity.
  - constructor; [|constructor]. split_and!; [exact I|discriminate|vm_compute; discriminate|repeat constructor|vm_compute; reflexivity].
  - cbn. lia.
  - repeat constructor; vm_compute; reflexivity.
  - cbn [concat]. rewrite app_nil_r. apply ztake_zdrop.
Defined.

End RelayDemo.
