(* ===== verification/HarnessControlTheorems.v ===== *)
(** * The bootstrap, end to end

    Over [HarnessControl.v]: against a server that publishes its key, answers the
    upgrade as a Noise IK responder and sends its early payload and HTTP/2 in records,
    the client ends with an HTTP/2 connection on the very bytes the server sent after
    the early payload; and the two ways in which bytes are lost on the way. *)

From Stdlib Require Import Strings.String.
From S2P Require Import Prelude Timers Messages Crypto Noise Text Utf8 Keys KeysFacts KeyStore StoreFile NetAddr Json H2Frame HpackInt HpackTable Huffman Hpack H2Conn Control ControlEarly ControlSession ControlMessages Upgrade HarnessNet HarnessH2 HarnessH2Facts HarnessControl HarnessControlFacts.
Import keys net harness_control.
Import early EarlyFacts.

(** ** HTTP/2 begins *)

(** What of the stream is HTTP/2: all past an early payload, or all. *)
Definition http2_bytes (s : bytes) : bytes :=
  match declared s with Some _ => zdrop (limit s) s | None => s end.

(** The record that completes the probe, and those before it, are no longer than one
    record can be. *)
Definition probe_fits (ps : list bytes) : Prop :=
  forall ps0 p ps2, ps = ps0 ++ p :: ps2 -> len (concat ps0) < PROBE_LEN -> len (concat ps0 ++ p) <= record.MAX_PLAINTEXT.

(** The early payload is all there, and is not refused. *)
Record early_comes (ps : list bytes) : Prop := {
  ea_bytes : bytes_ok (concat ps);
  ea_short : too_long (concat ps) = false;
  ea_all : limit (concat ps) <= len (concat ps);
  ea_fits : declared (concat ps) = None -> probe_fits ps;
}.

(** The client's preface, settings and window. *)
Definition greeting : bytes :=
  frame.CLIENT_PREFACE ++ FrameFacts.header_bytes (frame.mkFrameHeader 18 frame.Settings 0 0) ++
  conn.write_setting frame.settings.ENABLE_PUSH 0 ++ conn.write_setting frame.settings.INITIAL_WINDOW_SIZE conn.RECEIVE_WINDOW ++
  conn.write_setting frame.settings.MAX_CONCURRENT_STREAMS conn.MAX_STREAMS ++
  ConnFacts.update_bytes 0 (conn.RECEIVE_WINDOW - conn.DEFAULT_WINDOW).

Section Bootstrap.
Context `{P : Primitives} {POk : PrimitivesOk P} `{C : Curve}.

Lemma carried_fits ps1 ps2 : declared (concat (ps1 ++ ps2)) = None -> probe_fits (ps1 ++ ps2) ->
  (ps1 = [] \/ exists ps0 p, ps1 = ps0 ++ [p] /\ len (concat ps0) < limit (concat ps0)) -> len (concat ps1) <= record.MAX_PLAINTEXT.
Proof.
  intros Hd Hp [-> |(ps0 & p & -> & Hlt)]; [done|]. rewrite concat_app. cbn [concat]. rewrite app_nil_r. apply (Hp ps0 p ps2).
  - by rewrite <- app_assoc.
  - unfold limit in Hlt. destruct (Z_lt_le_dec (len (concat ps0)) PROBE_LEN) as [H|H]; [done|].
    rewrite <- app_assoc, concat_app, declared_app in Hd by done. rewrite Hd in Hlt. simpl in Hlt. lia.
Qed.

Lemma read_early_payload_ok t ps rest : behind t ps rest -> early_comes ps -> pushback t = [] ->
  exists t' ps', read_early_payload t = Ok t' /\ behind t' ps' rest /\ pushback t' ++ concat ps' = http2_bytes (concat ps) /\
    len (pushback t') <= record.MAX_PLAINTEXT /\ record.tx (session t') = record.tx (session t).
Proof.
  intros Hb [Hby Hsh Hall Hfit] Hpush.
  assert (followed []) as Hf by (split; [constructor|vm_compute; congruence|done]).
  destruct (read_early_ok ps (S (length (coming (stream t)))) t [] rest Hb Hf eq_refl Hby Hpush) as
    (ps1 & ps2 & t' & over & -> & Hr & Hb' & Hov & Hp' & Hol & Htx & _ & Hmin); [|done|done|].
  { rewrite (be_coming _ _ _ Hb), length_app. pose proof (sealed_length (record.rx (session t)) ps). lia. }
  cbn [app] in *. unfold read_early_payload. change early.new with (reader_of []). rewrite Hr. cbn [rbind].
  rewrite finish_reader by done. rewrite (proj2 (Z.ltb_ge _ _)) by done. cbn [map_err rbind].
  set (s := concat (ps1 ++ ps2)) in *. assert (s = taken s ++ over ++ concat ps2) as Hs.
  { rewrite app_assoc, Hov. unfold s. by rewrite concat_app. }
  assert (len (taken s) = limit s) as Hlt.
  { pose proof (declared_nonneg s Hby). unfold taken. rewrite len_ztake. unfold limit, PROBE_LEN in *. change (len MAGIC) with 5 in *. lia. }
  unfold http2_bytes. destruct (declared s) as [n|] eqn:Ed.
  - exists t', ps2. rewrite Hp'. split_and!; try done. symmetry. rewrite Hs at 2. by apply zdrop_app_len.
  - assert (ztake PROBE_LEN s = taken s) as -> by (unfold taken, limit; by rewrite Ed).
    assert (limit s = PROBE_LEN) as Hl by (unfold limit; by rewrite Ed). rewrite Hl in Hlt.
    pose proof (carried_fits ps1 ps2 Ed (Hfit eq_refl) Hmin) as Hc. rewrite <- Hov, len_app in Hc. nonneg_lens.
    unfold extend_from_slice. rewrite len_nil, (proj2 (Z.ltb_ge _ _)) by lia. cbn [default from_option id app].
    rewrite Hp', (proj2 (Z.ltb_ge _ _)) by lia. cbn [default from_option id]. exists (with_pushback t' (taken s ++ over)), ps2.
    cbn [pushback with_pushback]. rewrite <- app_assoc, len_app. split_and!; try done. by destruct Hb'; split.
Qed.

(** The connection HTTP/2 is started on. *)
Lemma into_http2_ok t ps rest : behind t ps rest -> len (pushback t) <= record.MAX_PLAINTEXT ->
  record.counter (record.tx (session t)) + 256 <= record.MAX_COUNTER ->
  exists c qs, into_http2 t = Ok c /\ view c (pushback t ++ concat ps) ps rest /\ harness_h2.connection c = conn.new /\
    harness_h2.status c = 0 /\ harness_h2.sent c = sealed (record.tx (session t)) qs /\ concat qs = greeting /\
    tx c = bumped (len qs) (record.tx (session t)).
Proof.
  intros [Hcut Hcom Hcnt Hsm] Hl Hc. unfold into_http2, harness_h2.start. unfold record.MAX_PLAINTEXT, record.MAX_MESSAGE, record.HEADER_LEN, TAG_LEN in Hl.
  nonneg_lens. destruct (split_len (len (pushback t)) (zeros harness_h2.BUFFER)) as (x & y & Hxy & Hx).
  { rewrite len_zeros. change harness_h2.BUFFER with 32786. lia. }
  rewrite Hxy. unfold slice_copy. cbn [fst snd].
  pose proof (copy_at_mid 0 (len (pushback t)) (pushback t) [] x y) as Hcp. cbn [app] in Hcp. rewrite Hcp by (done || (rewrite ?len_nil; lia)).
  cbn [or_panic rbind].
  assert (exists out n, conn.start (zeros 256) = Ok (out, n) /\ slice (0, n) out = @Ok harness_h2.H2Error _ greeting) as (out & n & -> & Hg).
  { eexists _, _. split; vm_compute; reflexivity. }
  cbn [map_err rbind]. rewrite Hg. cbn [rbind].
  set (c0 := harness_h2.mkHttp2 _ _ _ _ _ _ _).
  assert (view c0 (pushback t ++ concat ps) ps rest) as Hv0.
  { apply (f_equal len) in Hxy. rewrite len_app, len_zeros in Hxy. change (Z.max 0 harness_h2.BUFFER) with 32786 in Hxy.
    split; try done; cbn [c0 harness_h2.buffer harness_h2.filled].
    - rewrite len_app. change harness_h2.BUFFER with 32786. lia.
    - change harness_h2.BUFFER with 32786. lia.
    - by rewrite ztake_app_len. }
  destruct (send_ok c0 greeting _ _ _ Hv0) as (c & qs & -> & Hq & _ & _ & Hse & Ht & Hv & Hco & Hst & _).
  { change (tx c0) with (record.tx (session t)). change (len greeting) with 64. lia. }
  exists c, qs. cbn [map_err]. by split_and!.
Qed.

(** ** The servers *)

(** A server that answers with its key, in any text that the scan finds it in, and
    closes the connection. *)
Record publishes (s : TcpStream) (key : MachinePublic) : Prop := {
  pu_cut : cut (arrivals s);
  pu_ending : ending s = Some Closed;
  pu_text : exists head body, coming s = head ++ body /\ head_says 200 head /\ utf8_valid body = true /\
    register.string_field body (str "publicKey") = Some (display key);
  pu_fits : len (coming s) < HTTP_BUFFER;
  pu_key : key_ok (as_bytes key);
}.

(** A server that agrees to the upgrade and sends the response of the handshake and
    then the records [ps], where no arrival that completes the head brings more than
    the response besides. *)
Record upgrades (s : TcpStream) (response : bytes) (down : record.Cipher) (ps : list bytes) (rest : bytes) : Prop := {
  up_cut : cut (arrivals s);
  up_head : exists head, coming s = head ++ response ++ sealed down ps ++ rest /\ head_says 101 head /\
    upgrade.contains_ignoring_case head upgrade.UPGRADE_TOKEN = true /\ cut_within s head response;
  up_counter : record.counter down + len ps <= record.MAX_COUNTER;
  up_small : small ps;
}.

(** Every step up to HTTP/2. *)
Lemma establishes (o : Outside) address port (identity : Identity) sp se msg hs response server session ks us ps rest :
  address_ok address port -> key_dial o = Ok ks -> publishes ks (from_bytes (x25519_base sp)) ->
  agreed (to_bytes (machine identity)) sp (ephemeral_tape o) se msg hs response server session ->
  upgrade_dial o = Ok us -> upgrades us response (record.tx server) ps rest -> early_comes ps ->
  exists t c ps' qs, establish o address port identity = Ok t /\ into_http2 t = Ok c /\
    view c (http2_bytes (concat ps)) ps' rest /\ harness_h2.connection c = conn.new /\ harness_h2.status c = 0 /\
    harness_h2.sent c = sealed (record.rx server) qs /\ concat qs = greeting /\ tx c = bumped (len qs) (record.rx server).
Proof.
  intros Had Hk [Hkc Hke (khead & kbody & Hkcom & Hkh & Hku & Hkf) Hkl Hkk] Ha Hu [Huc (head & Hcom & Hh & Htok & Hin) Hcnt Hsm] Hea.
  unfold establish. rewrite write_host_text by done. cbn [rbind]. destruct (host_fits address port Had) as [Hhl _].
  set (host := host_text address port) in *. rewrite Hk.
  rewrite (fetch_server_key_ok ks host khead kbody (from_bytes (x25519_base sp))); try done.
  2: { unfold key_request. rewrite !len_app. change (len (str "GET /key?v=131 HTTP/1.1")) with 23. change (len (str "Host: ")) with 6.
       change (len (str "Connection: close")) with 17. change (len upgrade.CRLF) with 2. unfold upgrade.MAX_REQUEST. lia. }
  cbn [rbind]. rewrite Hu.
  destruct (handshake_ok us host identity (from_bytes (x25519_base sp)) sp (ephemeral_tape o) se msg hs response server session head
    (sealed (record.tx server) ps ++ rest) Ha eq_refl Hh Htok Huc Hcom Hin ltac:(lia)) as (request & s' & -> & Hs' & Hcut' & _).
  cbn [rbind]. set (t0 := mkTs2021 s' session []).
  assert (behind t0 ps rest) as Hb by (split; cbn [t0 stream harness_control.session]; rewrite ?(ag_down _ _ _ _ _ _ _ _ _ Ha); done).
  destruct (read_early_payload_ok t0 ps rest Hb Hea eq_refl) as (t & ps' & -> & Hb' & Hplain & Hpl & Htx).
  cbn [t0 harness_control.session] in Htx. rewrite (ag_up _ _ _ _ _ _ _ _ _ Ha) in Htx.
  destruct (into_http2_ok t ps' rest Hb' Hpl) as (c & qs & Hc & Hv & Hrest).
  { pose proof (ag_counters _ _ _ _ _ _ _ _ _ Ha) as Hz. unfold record.counters in Hz. rewrite Htx, <- (ag_up _ _ _ _ _ _ _ _ _ Ha).
    injection Hz as -> _. vm_compute. congruence. }
  rewrite Hplain in Hv. rewrite Htx in Hrest. by exists t, c, ps', qs.
Qed.

(** C14: The bootstrap reaches HTTP/2.  The server publishes its key, the four
    Diffie-Hellman results are contributory, and the server answers the client's
    initiation as a Noise IK responder, its early payload and HTTP/2 following in
    records cut and delivered as it happens, except that a cut falls within the
    response: then the bootstrap succeeds, and the HTTP/2 client that is started on
    it will read exactly the server's bytes past the early payload, or all of them if
    there is none, with a fresh connection; what it has sent decrypts to the preface,
    the settings and the window. *)
Theorem bootstrap_connects (o : Outside) (address : bytes) (port : Z) (identity : Identity)
    (sp se msg : bytes) (hs : ik.Handshake) (response : bytes) (server : record.Session) (s1 s2 s3 s4 : bytes)
    (ks us : TcpStream) (ps : list bytes) (rest : bytes) :
  let mp := to_bytes (machine identity) in
  let e := ephemeral_tape o in
  address_ok address port ->
  ik.dh e (x25519_base sp) = Ok s1 -> ik.dh mp (x25519_base sp) = Ok s2 ->
  ik.dh se (x25519_base e) = Ok s3 -> ik.dh se (x25519_base mp) = Ok s4 ->
  ik.initiate mp (x25519_base sp) e (zeros ik.INITIATION_LEN) = Ok (msg, hs) -> bytes_ok msg ->
  Responder.respond sp se msg = Ok (x25519_base mp, response, server) ->
  key_dial o = Ok ks -> publishes ks (from_bytes (x25519_base sp)) ->
  upgrade_dial o = Ok us -> upgrades us response (record.tx server) ps rest -> early_comes ps ->
  exists t c ps' qs, establish o address port identity = Ok t /\ into_http2 t = Ok c /\
    view c (http2_bytes (concat ps)) ps' rest /\ harness_h2.connection c = conn.new /\ harness_h2.status c = 0 /\
    harness_h2.sent c = sealed (record.rx server) qs /\ concat qs = greeting /\ tx c = bumped (len qs) (record.rx server).
Proof.
  intros mp e Had H1 H2 H3 H4 Hi Hb Hr Hk Hpu Hu Hup Hea.
  destruct (agreed_when mp sp e se msg hs response server s1 s2 s3 s4) as (session & Ha); try done.
  by eapply establishes.
Qed.

(** ** What is lost *)

(** Bytes that arrive with the response are lost.  When the arrival that brings
    the end of the head brings more than the response besides, the handshake
    succeeds, but the session goes on behind that arrival: [lost] is read by nobody,
    although it is where the server's first record begins. *)
Theorem handshake_drops_records s host identity key sp e se msg hs response server head (lost : bytes) segs s1 s2 s3 s4 :
  ik.dh e (x25519_base sp) = Ok s1 -> ik.dh (to_bytes (machine identity)) (x25519_base sp) = Ok s2 ->
  ik.dh se (x25519_base e) = Ok s3 -> ik.dh se (x25519_base (to_bytes (machine identity))) = Ok s4 ->
  ik.initiate (to_bytes (machine identity)) (x25519_base sp) e (zeros ik.INITIATION_LEN) = Ok (msg, hs) -> bytes_ok msg ->
  Responder.respond sp se msg = Ok (x25519_base (to_bytes (machine identity)), response, server) ->
  as_bytes key = x25519_base sp -> head_says 101 head -> upgrade.contains_ignoring_case head upgrade.UPGRADE_TOKEN = true ->
  cut (arrivals s) -> arrivals s = (head ++ response ++ lost) :: segs -> lost <> [] ->
  len (head ++ response ++ lost) < HTTP_BUFFER -> len host <= 32 ->
  exists request t, handshake (Ok s) host identity key e = Ok (request, t) /\ coming (stream t) = concat segs /\
    coming s = head ++ response ++ lost ++ concat segs.
Proof.
  intros H1 H2 H3 H4 Hi Hb Hr Hkey Hh Htok Hcut Harr Hlost Hfit Hhost.
  destruct (agreed_when _ _ _ _ _ _ _ _ _ _ _ _ H1 H2 H3 H4 Hi Hb Hr) as (session & Ha).
  destruct (read_head_from s [head ++ response ++ lost] segs head (response ++ lost)) as (a1 & a2 & r1 & Ha12 & Ha1 & Hr1 & Hcut' & Hread); try done.
  { cbn [concat]. by rewrite app_nil_r. }
  { cbn [concat]. by rewrite app_nil_r. }
  assert (a2 = []) as ->.
  { destruct a1 as [|x a1]; [|by destruct a1; [destruct a2|]]. exfalso. cbn [concat] in Ha1.
    destruct Hh as (? & ? & ? & ? & ? & -> & _). done. }
  cbn [concat app] in Hr1, Hread, Hcut'. rewrite app_nil_r in Hr1. subst r1.
  destruct (handshake_after s host identity key sp e se msg hs response server session head (response ++ lost) _ (lost ++ concat segs)
    Ha Hkey Htok Hhost Hread Hcut') as (t & Ht & Hct & _).
  { unfold coming. cbn [arrivals]. by rewrite <- app_assoc. }
  rewrite (proj2 (Z.leb_gt _ _)) in Hct by (destruct lost; [done|]; rewrite len_app, len_cons; nonneg_lens; lia).
  eexists _, _. split; [exact Ht|]. split; [exact Hct|]. unfold coming. rewrite Harr. cbn [concat]. by rewrite <- !app_assoc.
Qed.

(** The start of HTTP/2 can be lost.  A server without an early payload whose
    first record is shorter than the probe and whose second is as long as a record
    can be: the bytes behind the probe and the probe together are longer than the
    buffer they are put into, so only the probe is handed on, although everything
    is HTTP/2. *)
Theorem split_probe_drops_records t p q rest : behind t [p; q] rest -> pushback t = [] -> bytes_ok (p ++ q) ->
  0 < len p < PROBE_LEN -> len q = record.MAX_PLAINTEXT -> declared (p ++ q) = None ->
  exists t', read_early_payload t = Ok t' /\ pushback t' = ztake PROBE_LEN (p ++ q) /\ coming (stream t') = rest /\
    http2_bytes (p ++ q) = p ++ q.
Proof.
  intros Hb Hpush Hby Hp Hq Hd. assert (concat [p; q] = p ++ q) as Hcat by (cbn [concat]; by rewrite app_nil_r).
  assert (followed []) as Hf by (split; [constructor|vm_compute; congruence|done]).
  assert (limit (p ++ q) = PROBE_LEN) as Hl by (unfold limit; by rewrite Hd).
  assert (too_long (p ++ q) = false) as Hs by (unfold too_long; by rewrite Hd).
  assert (len (p ++ q) = len p + 4077) as Hlen by (rewrite len_app, Hq; done).
  change PROBE_LEN with 9 in *.
  destruct (read_early_ok [p; q] (S (length (coming (stream t)))) t [] rest Hb Hf eq_refl) as
    (ps1 & ps2 & t' & over & Hps & Hr & Hb' & Hov & Hp' & Hol & Htx & _ & Hmin); rewrite ?Hcat; try done; [|cbn [app]; lia|].
  { rewrite (be_coming _ _ _ Hb), length_app. pose proof (sealed_length (record.rx (session t)) [p; q]). lia. }
  rewrite Hcat in *. cbn [app] in *.
  assert (ps1 = [p; q] /\ ps2 = []) as [-> ->].
  { pose proof (f_equal len Hov) as Hc. unfold taken in Hc. rewrite len_app, len_ztake, Hl in Hc. nonneg_lens.
    destruct ps1 as [|x [|y ps1]]; [change (len (concat (@nil bytes))) with 0 in Hc; lia| |].
    - injection Hps as <- _. cbn [concat] in Hc. rewrite app_nil_r in Hc. lia.
    - injection Hps as <- <- Hn. by destruct ps1, ps2. }
  unfold read_early_payload. change early.new with (reader_of []). rewrite Hr. cbn [rbind].
  rewrite finish_reader, (proj2 (Z.ltb_ge _ _)), Hd by (done || lia). cbn [map_err rbind]. change PROBE_LEN with 9.
  assert (len (ztake 9 (p ++ q)) = 9) as H9 by (rewrite len_ztake; lia).
  assert (len over = len p + 4068) as Hov2.
  { pose proof (f_equal len Hov) as Hc. rewrite Hcat, len_app in Hc. unfold taken in Hc. rewrite Hl in Hc. change PROBE_LEN with 9 in Hc. lia. }
  unfold extend_from_slice, record.MAX_PLAINTEXT, record.MAX_MESSAGE, record.HEADER_LEN, TAG_LEN. rewrite len_nil, H9. cbn [default from_option id app].
  change (4096 - 3 - 16 <? 0 + 9) with false. cbv iota. cbn [default from_option id app]. rewrite H9, Hp', Hov2, (proj2 (Z.ltb_lt _ _)) by lia. cbn [default from_option].
  eexists. split; [done|]. split; [done|]. split; [|unfold http2_bytes; by rewrite Hd].
  cbn [stream with_pushback]. rewrite (be_coming _ _ _ Hb'). done.
Qed.

End Bootstrap.

(** ** A server on the toy curve *)

Import ToyCurve.
#[local] Existing Instance Toy.prims.
#[local] Existing Instance Toy.prims_ok.

Module Demo.

Definition identity : Identity :=
  mkIdentity (private_from_bytes (replicate 32 3)) (private_from_bytes (replicate 32 4)) (private_from_bytes (replicate 32 6)).
Definition sp : bytes := replicate 32 5.
Definition eph : bytes := replicate 32 9.
Definition se : bytes := replicate 32 11.
Definition key : MachinePublic := from_bytes (x25519_base sp).

Definition initiation : bytes * ik.Handshake :=
  match ik.initiate (replicate 32 3) (x25519_base sp) eph (zeros ik.INITIATION_LEN) with Ok x => x | _ => ([], ik.mkHandshake [] [] [] []) end.
Definition answer : bytes * bytes * record.Session :=
  match Responder.respond sp se initiation.1 with Ok x => x | _ => ([], [], record.new [] []) end.
Definition response : bytes := answer.1.2.
Definition server : record.Session := answer.2.

Definition key_head : bytes := str "HTTP/1.1 200 OK" ++ upgrade.BLANK_LINE.
Definition key_body : bytes := [123; 34] ++ str "publicKey" ++ [34; 58; 34] ++ display key ++ [34; 125].
Definition key_stream : TcpStream := mkStream [ztake 30 (key_head ++ key_body); zdrop 30 (key_head ++ key_body)] (Some Closed).

Definition head : bytes := str "HTTP/1.1 101 Switching Protocols" ++ upgrade.CRLF ++ str "Upgrade: tailscale-control-protocol" ++ upgrade.BLANK_LINE.

(** The early payload in two records, the second of which goes on with HTTP/2. *)
Definition records : list bytes := [[0xff; 0xff; 0xff; 84; 83; 0]; [0; 0; 2; 123; 125; 0; 0; 0; 4; 0]; [0; 0; 0; 0]].
Definition wire : bytes := sealed (record.tx server) records.
Definition upgrade_stream : TcpStream :=
  mkStream [head ++ ztake 20 response; zdrop 20 response ++ ztake 7 wire; zdrop 7 wire] None.

Definition outside : Outside := mkOutside (Ok key_stream) (Ok upgrade_stream) [] eph.

Lemma publishes_key : publishes key_stream key.
Proof.
  split; [repeat constructor; vm_compute; reflexivity|done| |vm_compute; reflexivity|apply (bool_decide_unpack _); vm_compute; exact I].
  exists key_head, key_body. split; [vm_compute; reflexivity|]. split; [|split; vm_compute; reflexivity].
  exists 49, 50, 48, 48, (str " OK" ++ upgrade.BLANK_LINE). split; [vm_compute; reflexivity|]. split; [by right|]. split; [done|]. split; vm_compute; reflexivity.
Qed.

Lemma head_switches : head_says 101 head.
Proof.
  exists 49, 49, 48, 49, (str " Switching Protocols" ++ upgrade.CRLF ++ str "Upgrade: tailscale-control-protocol" ++ upgrade.BLANK_LINE).
  split; [vm_compute; reflexivity|]. split; [by right|]. split; [done|]. split; vm_compute; reflexivity.
Qed.

Lemma upgrades_session : upgrades upgrade_stream response (record.tx server) records [].
Proof.
  split; [repeat constructor; vm_compute; reflexivity| |vm_compute; congruence|repeat constructor; vm_compute; congruence].
  exists head. split; [vm_compute; reflexivity|]. split; [apply head_switches|]. split; [vm_compute; reflexivity|].
  exists [head ++ ztake 20 response], [zdrop 20 response ++ ztake 7 wire; zdrop 7 wire]. split; [done|].
  split; [split; vm_compute; congruence|vm_compute; reflexivity].
Qed.

Lemma early_records : early_comes records.
Proof.
  split; [apply (bool_decide_unpack _); vm_compute; exact I|vm_compute; reflexivity|vm_compute; congruence|vm_compute; congruence].
Qed.

End Demo.

Lemma bootstrap_connects_witness :
  (exists t c ps' qs, establish Demo.outside [127; 0; 0; 1] 8080 Demo.identity = Ok t /\ into_http2 t = Ok c /\
    view c (http2_bytes (concat Demo.records)) ps' [] /\ harness_h2.connection c = conn.new /\ harness_h2.status c = 0 /\
    harness_h2.sent c = sealed (record.rx Demo.server) qs /\ concat qs = greeting /\ tx c = bumped (len qs) (record.rx Demo.server)) /\
  http2_bytes (concat Demo.records) = [0; 0; 0; 4; 0; 0; 0; 0; 0].
Proof.
  split; [|vm_compute; reflexivity].
  apply (bootstrap_connects Demo.outside [127; 0; 0; 1] 8080 Demo.identity Demo.sp Demo.se Demo.initiation.1 Demo.initiation.2 Demo.response Demo.server
    (replicate 32 14) (replicate 32 8) (replicate 32 20) (replicate 32 14) Demo.key_stream Demo.upgrade_stream Demo.records []).
  - split; [done|]. split; [apply (bool_decide_unpack _); vm_compute; exact I|]. split; vm_compute; congruence.
  - vm_compute; reflexivity.
  - vm_compute; reflexivity.
  - vm_compute; reflexivity.
  - vm_compute; reflexivity.
  - vm_compute; reflexivity.
  - apply (bool_decide_unpack _). vm_compute. exact I.
  - vm_compute; reflexivity.
  - reflexivity.
  - exact Demo.publishes_key.
  - reflexivity.
  - exact Demo.upgrades_session.
  - exact Demo.early_records.
Defined.

(** The first record comes with the response. *)
Lemma handshake_drops_records_witness :
  let seg := Demo.head ++ Demo.response ++ ztake 25 Demo.wire in
  exists request t, handshake (Ok (mkStream [seg; zdrop 25 Demo.wire] None)) (str "h") Demo.identity Demo.key Demo.eph = Ok (request, t) /\
    coming (stream t) = concat [zdrop 25 Demo.wire] /\
    coming (mkStream [seg; zdrop 25 Demo.wire] None) = Demo.head ++ Demo.response ++ ztake 25 Demo.wire ++ concat [zdrop 25 Demo.wire].
Proof.
  apply (handshake_drops_records (mkStream [Demo.head ++ Demo.response ++ ztake 25 Demo.wire; zdrop 25 Demo.wire] None) (str "h") Demo.identity Demo.key
    Demo.sp Demo.eph Demo.se Demo.initiation.1 Demo.initiation.2 Demo.response Demo.server Demo.head (ztake 25 Demo.wire) [zdrop 25 Demo.wire]
    (replicate 32 14) (replicate 32 8) (replicate 32 20) (replicate 32 14)).
  - vm_compute; reflexivity.
  - vm_compute; reflexivity.
  - vm_compute; reflexivity.
  - vm_compute; reflexivity.
  - vm_compute; reflexivity.
  - apply (bool_decide_unpack _). vm_compute. exact I.
  - vm_compute; reflexivity.
  - reflexivity.
  - apply Demo.head_switches.
  - vm_compute; reflexivity.
  - repeat constructor; vm_compute; reflexivity.
  - reflexivity.
  - vm_compute; discriminate.
  - vm_compute; reflexivity.
  - vm_compute; discriminate.
Defined.

Lemma split_probe_drops_records_witness :
  let p := [7] in let q := zeros record.MAX_PLAINTEXT in
  let t := mkTs2021 (mkStream [sealed (record.mkCipher [2] 0) [p; q]] None) (record.new [1] [2]) [] in
  exists t', read_early_payload t = Ok t' /\ pushback t' = ztake PROBE_LEN (p ++ q) /\ coming (stream t') = [] /\ http2_bytes (p ++ q) = p ++ q.
Proof.
  intros p q t. apply (split_probe_drops_records t p q []).
  - split; [repeat constructor; vm_compute; reflexivity|unfold coming; cbn [t stream arrivals concat]; by rewrite !app_nil_r|vm_compute; congruence|].
    repeat constructor; vm_compute; congruence.
  - reflexivity.
  - apply (bool_decide_unpack _). vm_compute. exact I.
  - split; vm_compute; reflexivity.
  - vm_compute. reflexivity.
  - vm_compute. reflexivity.
Defined.
