(* ===== verification/HarnessRequestsTheorems.v ===== *)
(** * Registering, and configuring from a map: theorems

    Over [HarnessRequests.v]: which identity the store holds after a registration,
    however it ends, and what device a network map configures. *)

From Stdlib Require Import Strings.String.
From stdpp Require Import gmap.
From S2P Require Import Prelude Netmap NetmapScan NetmapFrame NetmapParser NetmapRecords Timers Messages Crypto Noise Device Text Utf8 Keys KeysFacts KeyStore StoreFile StoreTheorems NetAddr Json H2Frame HpackInt HpackTable Huffman Hpack H2Conn Control ControlSession NetmapStream ControlMessages Upgrade HarnessNet HarnessH2 HarnessH2Facts HarnessH2Theorems HarnessControl HarnessControlFacts HarnessControlTheorems HarnessRequests.

Import keys net harness_control harness_requests.

(** ** Rotating the node key *)

Section Rotation.
Context `{P : Primitives} {POk : PrimitivesOk P} `{C : Curve} {COk : CurveOk C} (USIZE_BITS : Z).
Context {W : Type} `{OS : file_store.Posix W} {OOk : PosixOk OS} (patience : nat) (pkg_version : bytes).
Import file_store.













End Rotation.

(** ** Configuring from a map *)

Section Configure.
Context `{P : Primitives} `{C : Curve}.

(** The peer of a device made from a peer of the map. *)
Definition configured_peer (p : peer.Peer) : Device.Peer := with_initiating (new_peer (as_bytes (peer.node_key p)) None) true.

Definition has_direct (p : peer.Peer) : bool := match peer.direct_endpoint p with Some _ => true | None => false end.

Lemma add_peers_spec l : forall d n k, (length (peers d) <= TABLE)%nat ->
  let used := take (TABLE - length (peers d)) l in
  add_peers l d n k = (with_peers d (peers d ++ map configured_peer used), n + len used, k + len (List.filter has_direct used)).
Proof.
  induction l as [|p l IH]; intros d n k Hd used; subst used.
  - rewrite take_nil. cbn [add_peers map List.filter]. rewrite app_nil_r, !Z.add_0_r. by destruct d.
  - cbn [add_peers]. unfold add_peer. destruct (length (peers d) <? TABLE)%nat eqn:E.
    + apply Nat.ltb_lt in E. unfold set_initiating. cbn [peers with_peers]. rewrite lookup_app_r, Nat.sub_diag by lia. cbn [lookup list_lookup].
      replace (TABLE - length (peers d))%nat with (S (TABLE - S (length (peers d)))) by lia. cbn [take map].
      rewrite insert_app_r_alt, Nat.sub_diag by lia. cbn [insert list_insert]. fold (configured_peer p).
      match goal with |- add_peers l ?d1 _ _ = _ => set (d' := d1) end.
      assert (length (peers d') = S (length (peers d))) as Hlen by (unfold d'; cbn [peers with_peers]; rewrite length_app; simpl; lia).
      rewrite IH by lia. rewrite Hlen. unfold d'. cbn [peers with_peers]. rewrite <- app_assoc. cbn [app].
      cbn [List.filter]. unfold has_direct at 2. rewrite len_cons, Z.add_assoc.
      destruct (peer.direct_endpoint p); [by rewrite len_cons, Z.add_assoc|done].
    + apply Nat.ltb_ge in E. replace (TABLE - length (peers d))%nat with 0%nat by lia. cbn [take map List.filter].
      rewrite app_nil_r, !Z.add_0_r. by destruct d.
Qed.

(** A map configures its peers.  The device made from a network map has the
    node's private key, one peer per peer of the map up to the table's size, in the
    map's order and with its node key, each set to initiate and none with a session
    or a handshake; the counts that are reported are those of the peers configured
    and of the ones with a direct endpoint among them, and the keys are reported to
    match exactly if the curve's public key of the node is the device's. *)
Theorem map_configures_peers (identity : Identity) (m : parser.Netmap) :
  let used := take TABLE (parser.peers m) in
  exists d, configure_peers identity m =
    (d, len used, len (List.filter has_direct used), bytes_eqb (x25519_base (to_bytes (node identity))) (public_from (secret (node identity)))) /\
    static_private d = to_bytes (node identity) /\ peers d = map configured_peer used /\
    Forall (fun p => initiating p = true /\ pending p = None /\ current p = None /\ previous p = None) (peers d).
Proof.
  intros used. unfold configure_peers. rewrite add_peers_spec by (simpl; lia). cbn [peers device_new length app].
  rewrite Nat.sub_0_r. fold used. eexists. split; [done|]. split; [done|]. split; [done|]. cbn [peers with_peers].
  apply Forall_map, Forall_true. done.
Qed.

End Configure.

(** ** A registration that rotates the key *)

Import ToyCurve ToyDisk.
#[local] Existing Instance Toy.prims.
#[local] Existing Instance Toy.prims_ok.

Module DemoRegister.

(** The server of [Demo], which goes on with its settings and its answer. *)
Definition answer : bytes := [123; 34] ++ str "MachineAuthorized" ++ [34; 58] ++ str "true" ++ [125].
Definition frames : list bytes :=
  (FrameFacts.header_bytes (frame.mkFrameHeader 0 frame.Settings 0 0)) :: headers_frame 1 [0x88] :: data_frames 1 [ztake 5 answer; zdrop 5 answer].
Definition records : list bytes := [[0xff; 0xff; 0xff; 84; 83; 0; 0; 0; 2; 123]; [125] ++ ztake 3 (concat frames); zdrop 3 (concat frames)].
Definition stream : TcpStream := net.mkStream [Demo.head ++ ztake 20 Demo.response; zdrop 20 Demo.response ++ sealed (record.tx Demo.server) records] None.






End DemoRegister.


(** * The network map, end to end

    Over [HarnessRequests.v]: the map that comes out of the long poll is the one the
    server's responses say, whatever lies between them and the reader: DATA frames,
    Noise records and arrivals, none of which respect the others' boundaries. *)

Import keys net harness_control harness_requests conn ConnFacts frame NetmapFrame.FrameFacts.

(** ** The loop stops when the last response is complete *)

(** Bytes after which a response begins cannot all have passed without ending one. *)
Lemma read_all_busy l : forall p, l <> [] -> read_all p l <> (InHeader [], []).
Proof.
  induction l as [|b l IH]; intros p Hl; [done|]. cbn [read_all].
  destruct (read_byte p b) as [p1 o1] eqn:E1. destruct (read_all p1 l) as [p2 o2] eqn:E2. intros [= -> Ho].
  apply app_eq_nil in Ho as [-> ->]. destruct (decide (l = [])) as [-> |Hne]; [|by apply (IH p1 Hne)].
  injection E2 as ->. destruct p as [h|c n]; cbn [read_byte] in E1; unfold NetmapFrame.start in E1; repeat case_if; simplify_eq. by destruct h.
Qed.

Lemma framed_bytes bodies : bytes_ok (concat bodies) -> bytes_ok (concat (map framed bodies)).
Proof.
  induction bodies as [|b bodies IH]; [done|]. cbn [map concat]. intros [Hb Hbs]%bytes_ok_app. unfold framed at 1.
  rewrite !bytes_ok_app. split_and!; [apply bytes_to_le|done|by apply IH].
Qed.

Section Loop.
Context `{C : Curve} (PEERS : Z).

(** What was applied is what was read whole. *)
Lemma applied_read m chunks p : bytes_ok (concat chunks) -> poll_all PEERS (poll_new m) chunks = Ok p ->
  applied p = len (snd (read_all (InHeader []) (concat chunks))).
Proof.
  intros Hb Hp. destruct (drive_all_follows chunks (InHeader []) frame_reader.new [] []) as (r & cur & Hd & _);
    [done|split; [constructor|done]|by split|].
  pose proof (poll_all_follows PEERS chunks (mkDriver frame_reader.new [] []) _ m ltac:(done) Hd) as H.
  unfold poll_of, standing in H. simpl in H. change (mkPoll frame_reader.new parser.new m (len [])) with (poll_new m) in H.
  rewrite Hp in H. cbn [app] in H. destruct (apply_responses PEERS m _) as [m1| | |]; try done. cbn [rbind] in H.
  destruct (NetmapStream.reading PEERS m1 cur) as [[q m2]| | |]; try done. cbn [rbind] in H. by injection H as ->.
Qed.

(** All responses are complete only when nothing is left. *)
Lemma complete_last m bodies a b p : Forall (fun x => len x < 2 ^ 32) bodies -> bytes_ok (concat (a ++ b)) ->
  concat (a ++ b) = concat (map framed bodies) -> poll_all PEERS (poll_new m) a = Ok p -> len bodies <= applied p -> concat b = [].
Proof.
  intros Hl Hb Hc Hp Hn. rewrite concat_app in Hb, Hc. apply bytes_ok_app in Hb as [Hba Hbb].
  rewrite (applied_read m a p Hba Hp) in Hn. pose proof (read_stream bodies Hl) as Hr. rewrite <- Hc, read_all_app in Hr.
  destruct (read_all (InHeader []) (concat a)) as [p1 o1]. cbn [snd] in Hn.
  destruct (read_all p1 (concat b)) as [p2 o2] eqn:E2. injection Hr as -> Ho. subst bodies. rewrite len_app in Hn. nonneg_lens.
  assert (o2 = []) as -> by (apply len_zero_nil; lia). destruct (decide (concat b = [])) as [He|He]; [done|].
  exfalso. by apply (read_all_busy _ _ He) in E2.
Qed.

End Loop.

Section Map.
Context `{P : Primitives} {POk : PrimitivesOk P} `{C : Curve} (USIZE_BITS : Z) (Husize : 16 <= USIZE_BITS).

Definition piece_ok (p : bytes) : Prop := 0 < len p <= DEFAULT_MAX_FRAME.

(** The frames bring the next of the pieces, under the status 200. *)
Definition brings (k : Connection) (st s : Z) (frames : list bytes) (pieces : list bytes) : Prop :=
  match pieces with
  | [] => True
  | q :: pieces => exists k', yields USIZE_BITS k st s CHUNK frames k' 200 q false (map (data_frame s 0) pieces) /\ conn_ok k'
  end.

Lemma brings_pieces k s pieces : conn_ok k -> 0 <= s < 2 ^ 31 -> Forall piece_ok pieces ->
  brings k 200 s (map (data_frame s 0) pieces) pieces.
Proof.
  intros Hk Hs [|q qs Hq _]; [done|]. cbn [brings map]. apply yields_piece; try done. unfold piece_ok, DEFAULT_MAX_FRAME, CHUNK in *. lia.
Qed.

Lemma data_frames_fit s pieces : 0 <= s -> Forall piece_ok pieces -> Forall frame_ok (map (data_frame s 0) pieces).
Proof. intros Hs. induction 1 as [|q qs Hq _ IH]; constructor; [|done]. apply frame_ok_of; [done|apply Hq]. Qed.

(** The loop polls the pieces, one after another, until there are enough. *)
Lemma map_loop_polls pieces : Forall piece_ok pieces -> forall fuel c s wanted p frames more ps rest,
  (length pieces < fuel)%nat -> 0 <= s < 2 ^ 31 -> Forall frame_ok frames -> view c (concat frames ++ more) ps rest ->
  record.counter (tx c) + 256 * len frames <= record.MAX_COUNTER ->
  brings (harness_h2.connection c) (harness_h2.status c) s frames pieces ->
  (forall a b p1, pieces = a ++ b -> b <> [] -> poll_all MAX_PEERS p a = Ok p1 -> applied p1 < wanted) ->
  match poll_all MAX_PEERS p pieces with
  | Ok p' => wanted <= applied p' -> exists c', map_loop USIZE_BITS fuel c s wanted p = Ok (c', p')
  | Err e => map_loop USIZE_BITS fuel c s wanted p = Err (E.Netmap e)
  | Panic => map_loop USIZE_BITS fuel c s wanted p = Panic
  | Hang => map_loop USIZE_BITS fuel c s wanted p = Hang
  end.
Proof.
  induction 1 as [|q pieces Hq Hqs IH]; intros fuel c s wanted p frames more ps rest Hf Hs Hfo Hv Hc Hb Hearly;
    (destruct fuel as [|fuel]; [simpl in Hf; lia|]); cbn [map_loop].
  - cbn [poll_all]. intros Hw. rewrite (proj2 (Z.leb_le _ _)) by lia. by exists c.
  - pose proof (Hearly [] (q :: pieces) p eq_refl ltac:(done) eq_refl) as Hlt. rewrite (proj2 (Z.leb_gt _ _)) by lia.
    destruct Hb as (k' & Hy & Hk').
    destruct (read_chunk_yields USIZE_BITS c s CHUNK frames more ps rest k' 200 q false _ Hfo Hv Hc Hy)
      as (c1 & ps1 & qs & -> & Hv1 & Hk1 & Hst1 & _ & _ & Ht1 & Hq1).
    cbn [map_err rbind]. rewrite Hst1. cbn [Z.eqb Pos.eqb negb poll_all].
    destruct (poll MAX_PEERS (2 * length q + 4) p q) as [p1|e| |] eqn:Ep; cbn [map_err rbind]; try done.
    apply (IH fuel c1 s wanted p1 (map (data_frame s 0) pieces) more ps1 rest); try done.
    + simpl in Hf. lia.
    + apply data_frames_fit; [lia|done].
    + rewrite Ht1. cbn [bumped record.counter]. lia.
    + rewrite Hst1, Hk1. by apply brings_pieces.
    + intros a b p2 -> Hb Hp2. apply (Hearly (q :: a) b p2); try done. cbn [poll_all]. by rewrite Ep.
Qed.

(** C15: The map is the one the server's responses say.  Over a connection whose
    HTTP/2 bytes are a response with status 200 and a body of [wanted] map responses
    behind their length prefixes, cut into DATA frames, records and arrivals in any
    way: fetching the map ends with what reading each response on its own gives, as
    soon as the last one is complete, or with the error of the first that fails. *)
Theorem map_fetched (t : Ts2021) (address : bytes) (port : Z) (r : map_request.MapRequest) (body : bytes) (c : harness_h2.Http2)
    (notes : list bytes) (block : bytes) (hs : list (bytes * bytes)) (chunks bodies : list bytes)
    (more : bytes) (ps : list bytes) (rest : bytes) :
  let frames := notes ++ headers_frame 1 block :: map (data_frame 1 0) chunks in
  into_http2 t = Ok c -> harness_h2.connection c = conn.new -> view c (concat frames ++ more) ps rest ->
  record.counter (tx c) + harness_h2.OUT_BUFFER + 256 * len frames <= record.MAX_COUNTER ->
  address_ok address port -> map_request.write r (zeros 1024) = Ok body ->
  sendable conn.new (asked (str "POST") map_request.PATH (host_text address port)) body ->
  Forall (quiet USIZE_BITS) notes -> Forall frame_ok notes -> block_means USIZE_BITS block hs -> bytes_ok block ->
  len block <= MAX_HEADER_BLOCK -> harness_h2.read_status (harness_h2.status c) hs = 200 ->
  Forall piece_ok chunks -> Forall (fun b => len b < 2 ^ 32) bodies -> bytes_ok (concat bodies) ->
  concat chunks = concat (map framed bodies) ->
  match apply_responses MAX_PEERS parser.netmap_new bodies with
  | Ok m => exists c', ask_for_map USIZE_BITS t address port r (len bodies) = Ok (c', m)
  | Err e => ask_for_map USIZE_BITS t address port r (len bodies) = Err (E.Netmap e)
  | Panic => ask_for_map USIZE_BITS t address port r (len bodies) = Panic
  | Hang => ask_for_map USIZE_BITS t address port r (len bodies) = Hang
  end.
Proof.
  intros frames Hc Hnew Hv Hcnt Had Hbody Hse Hq Hqf Hm Hbb Hbl H200 Hp Hlb Hob Hcat.
  unfold ask_for_map. rewrite Hc. cbn [rbind]. rewrite write_host_text by done. cbn [rbind]. rewrite Hbody. cbn [map_err rbind]. nonneg_lens.
  destruct (send_request_ok USIZE_BITS Husize c (str "POST") map_request.PATH (host_text address port) body (concat frames ++ more) ps rest)
    as (c1 & qs & -> & Hv1 & Hk1 & Hst1 & _ & _ & Hql & _ & Ht1); [by rewrite Hnew|exact Hv|lia|].
  rewrite Hnew. cbn [map_err rbind]. change (next_stream conn.new) with 1.
  assert (Forall frame_ok frames) as Hf.
  { apply Forall_app. split; [done|]. constructor; [|apply data_frames_fit; [lia|done]].
    apply frame_ok_of; [lia|]. unfold MAX_HEADER_BLOCK, DEFAULT_MAX_FRAME in *. lia. }
  assert (brings (harness_h2.connection c1) (harness_h2.status c1) 1 frames chunks) as Hbr.
  { rewrite Hst1. destruct Hp as [|q chunks Hq' Hp']; [done|]. cbn [brings]. unfold frames. cbn [map]. rewrite <- H200.
    apply yields_response; try done. intros k Hk. rewrite H200. apply yields_piece; try done. unfold piece_ok, DEFAULT_MAX_FRAME, CHUNK in *. lia. }
  pose proof (view_patience c1 frames more ps rest Hv1 Hf) as Hpat.
  assert (length chunks < harness_h2.patience c1)%nat as Hfuel.
  { unfold frames in Hpat. rewrite length_app in Hpat. cbn [length] in Hpat. rewrite length_map in Hpat. lia. }
  assert (bytes_ok (concat chunks)) as Hbc by (rewrite Hcat; by apply framed_bytes).
  pose proof (map_loop_polls chunks Hp (harness_h2.patience c1) c1 1 (len bodies) (poll_new parser.netmap_new) frames more ps rest Hfuel ltac:(lia) Hf Hv1)
    as Hloop.
  rewrite Ht1 in Hloop. cbn [bumped record.counter] in Hloop. specialize (Hloop ltac:(lia) Hbr).
  assert (forall a b p1, chunks = a ++ b -> b <> [] -> poll_all MAX_PEERS (poll_new parser.netmap_new) a = Ok p1 -> applied p1 < len bodies) as Hearly.
  { intros a b p1 -> Hb Hp1. destruct (Z_lt_le_dec (applied p1) (len bodies)) as [?|Hge]; [done|]. exfalso.
    pose proof (complete_last MAX_PEERS parser.netmap_new bodies a b p1 Hlb Hbc Hcat Hp1 Hge) as He.
    apply Forall_app in Hp as [_ Hp]. destruct Hp as [|q qs' Hq' _]; [done|]. cbn [concat] in He. destruct q; [by destruct Hq'|done]. }
  specialize (Hloop Hearly). pose proof (long_poll_ok MAX_PEERS parser.netmap_new bodies chunks Hlb Hob Hcat) as Hpoll.
  destruct (apply_responses MAX_PEERS parser.netmap_new bodies) as [m| | |].
  - destruct Hpoll as (p & Hpa & <- & Ha & _). rewrite Hpa in Hloop. destruct (Hloop ltac:(lia)) as (c' & ->). cbn [rbind]. by exists c'.
  - rewrite Hpoll in Hloop. by rewrite Hloop.
  - rewrite Hpoll in Hloop. by rewrite Hloop.
  - rewrite Hpoll in Hloop. by rewrite Hloop.
Qed.

End Map.

(** ** The sample response and a keepalive *)

Import ToyCurve.
#[local] Existing Instance Toy.prims.
#[local] Existing Instance Toy.prims_ok.

Module DemoMap.

Definition notes : list bytes := [FrameFacts.header_bytes (mkFrameHeader (len (@nil Z)) Settings 0 0) ++ []].
Definition bodies : list bytes := [sample_document; []].
Definition text : bytes := concat (map framed bodies).
Definition chunks : list bytes := [ztake 2 text; sub_range 2 50 text; zdrop 50 text].
Definition frames : list bytes := notes ++ headers_frame 1 [0x88] :: map (data_frame 1 0) chunks.
Definition plain : bytes := concat frames ++ [].
Definition records : list bytes := [ztake 30 plain; zdrop 30 plain].
Definition wire : bytes := sealed (record.mkCipher [2] 0) records.
Definition ts : Ts2021 := mkTs2021 (net.mkStream [ztake 99 wire; zdrop 99 wire] None) (record.new [1] [2]) [].
Definition client : harness_h2.Http2 :=
  match into_http2 ts with Ok c => c | _ => harness_h2.mkHttp2 (stream ts) [] (session ts) conn.new [] 0 0 end.
Definition request : map_request.MapRequest := harness_requests.map_request (str "0.1") Demo.identity (str "node") [str "10.0.0.1:41641"].
Definition body : bytes := match map_request.write request (zeros 1024) with Ok b => b | _ => [] end.

Lemma client_started : into_http2 ts = Ok client.
Proof.
  assert (is_ok (into_http2 ts) = true) as H by (vm_compute; reflexivity). unfold client. by destruct (into_http2 ts).
Qed.

Lemma client_views : view client plain records [].
Proof.
  split; try (vm_compute; congruence); try (vm_compute; intuition congruence).
  - repeat constructor; vm_compute; reflexivity.
  - repeat constructor; vm_compute; congruence.
Qed.

Lemma can_send : sendable conn.new (asked (str "POST") map_request.PATH (host_text [127; 0; 0; 1] 8080)) body.
Proof.
  split; [apply conn_ok_new| |vm_compute; reflexivity|vm_compute; split; congruence|vm_compute; congruence..].
  repeat constructor; vm_compute; congruence.
Qed.

End DemoMap.

Lemma map_fetched_witness :
  exists c m, ask_for_map 32 DemoMap.ts [127; 0; 0; 1] 8080 DemoMap.request 2 = Ok (c, m) /\ map peer.id (parser.peers m) = [7].
Proof.
  pose proof (map_fetched 32 ltac:(lia) DemoMap.ts [127; 0; 0; 1] 8080 DemoMap.request DemoMap.body DemoMap.client DemoMap.notes [0x88]
    [(str ":status", str "200")] DemoMap.chunks DemoMap.bodies [] DemoMap.records []) as H.
  assert (E : apply_responses MAX_PEERS parser.netmap_new DemoMap.bodies = Ok (NetmapRecords.read_response 32 parser.netmap_new [sample_document]).1)
    by (vm_compute; reflexivity).
  rewrite E in H. destruct H as (c & Hc).
  - exact DemoMap.client_started.
  - vm_compute; reflexivity.
  - exact DemoMap.client_views.
  - vm_compute; congruence.
  - split; [done|]. split; [apply (bool_decide_unpack _); vm_compute; exact I|]. split; vm_compute; congruence.
  - vm_compute; reflexivity.
  - exact DemoMap.can_send.
  - apply Forall_singleton. apply quiet_settings; [constructor|done|done].
  - apply Forall_singleton. apply frame_ok_of; [done|vm_compute; congruence].
  - intros d Hd. exists d. split; [reflexivity|exact Hd].
  - repeat constructor; vm_compute; congruence.
  - vm_compute; congruence.
  - vm_compute; reflexivity.
  - repeat constructor; vm_compute; congruence.
  - repeat constructor; vm_compute; congruence.
  - apply (bool_decide_unpack _). vm_compute. exact I.
  - vm_compute; reflexivity.
  - exists c, (NetmapRecords.read_response 32 parser.netmap_new [sample_document]).1. split; [exact Hc|]. vm_compute. reflexivity.
Defined.
