(* ===== verification/HarnessWg.v ===== *)
(** * The harness: the two WireGuard roles

    [harness/src/wg.rs], the loops that drive a device as responder and as
    initiator, with the clocks of [harness/src/time.rs] and the echo responder of
    [harness/src/inner.rs].

    A turn of a loop takes what [select] returned, a datagram with its sender or
    only the passing of time, and sends.  The clocks are the sequences of the values
    their readings return; buffers are arguments, since nothing reads what an earlier
    turn left in them. *)

From S2P Require Import Prelude Timers Replay Messages Crypto Noise Transport Device Gateway Effects.

(** ** [time.rs] *)

Module harness_time.

(** A reading of a clock: seconds, and nanoseconds below a second. *)
Record Timespec := mkTimespec { tv_sec : Z; tv_nsec : Z }.

Definition millis (ts : Timespec) : Z := tv_sec ts * 1000 + tv_nsec ts / 1000000.

(** A monotonic clock counted from when it was started. *)
Record Clock := mkClock { origin_millis : Z }.
Definition start (ts : Timespec) : Clock := mkClock (millis ts).
Definition now (c : Clock) (ts : Timespec) : Z := saturating_sub (millis ts) (origin_millis c).

Definition TAI64_UNIX_EPOCH : Z := Z.shiftl 1 62 + 10.

(** The time stamp of an initiation, from a reading of the real-time clock. *)
Definition tai64n (ts : Timespec) : bytes :=
  let seconds := wrap 64 (TAI64_UNIX_EPOCH + wrap 64 (tv_sec ts)) in
  to_be 8 seconds ++ to_be 4 (wrap 32 (tv_nsec ts)).

End harness_time.

(** ** [inner.rs] *)

Module harness_inner.

Definition PROTO_ICMP : Z := 1.
Definition ECHO_REQUEST : Z := 8.
Definition ECHO_REPLY : Z := 0.

Definition checksum (b : bytes) : Z := finish (words_sum b).

(** The reply written over the front of [o], and its length. *)
Definition icmp_echo_reply (packet our_ip o : bytes) : out (option (bytes * Z)) :=
  if (len packet <? 20) || negb (Z.shiftr (at_ 0 packet) 4 =? 4) then Ok None else
  let header_len := Z.land (at_ 0 packet) 0x0f * 4 in
  if negb (at_ 9 packet =? PROTO_ICMP) || (len packet <? header_len + 8) then Ok None else
  let! dst := slice (16, 20) packet in
  let! ty := byte_at header_len packet in
  if negb (bytes_eqb dst our_ip) || negb (ty =? ECHO_REQUEST) then Ok None else
  match get_range 0 (len packet) o with
  | None => Ok None
  | Some _ =>
      let! src := slice (12, 16) packet in
      let! r := slice_copy (16, 20) src packet in
      let! r := slice_copy (12, 16) dst r in
      let! r := or_panic (set_at 8 64 r) in
      let! r := or_panic (fill_zero 10 12 r) in
      let! head := slice (0, header_len) r in
      let! r := slice_copy (10, 12) (to_be 2 (checksum head)) r in
      let! r := or_panic (set_at header_len ECHO_REPLY r) in
      let! r := or_panic (fill_zero (header_len + 2) (header_len + 4) r) in
      let! body := slice (header_len, len r) r in
      let! r := slice_copy (header_len + 2, header_len + 4) (to_be 2 (checksum body)) r in
      Ok (Some (r ++ zdrop (len packet) o, len packet))
  end.

End harness_inner.

(** ** [wg.rs] *)

Module harness_wg.

Definition TICK_MS : Z := 250.

Record Config := mkConfig { private_key : bytes; peer_key : bytes; tunnel_ip : bytes }.

Section Roles.
Context `{P : Primitives}.

(** Where a datagram came from or goes to. *)
Context {Addr : Type}.

(** The n-th reading of the monotonic clock, in milliseconds, and of the real-time
    clock, as a time stamp. *)
Context (clk : nat -> Z) (tai : nat -> bytes).
Context (config : Config).

(** What a loop owns.  [own] is the peer's last address for the responder, and
    whether the connection was announced for the initiator. *)
Record Node (X : Type) := mkNode { device : Device; own : X; rng : bytes; ticks : nat; stamps : nat }.
Arguments mkNode {X}. Arguments device {X}. Arguments own {X}. Arguments rng {X}. Arguments ticks {X}. Arguments stamps {X}.

(** A datagram sent, and where to. *)
Abbreviation sent := ((bytes * Addr)%type).
Abbreviation step X := (eff (Node X) (bytes * Addr)%type).

Definition read_clock {X} : step X Z := fun s =>
  (mkNode (device s) (own s) (rng s) (S (ticks s)) (stamps s), [], Ok (clk (ticks s))).
Definition read_stamp {X} : step X bytes := fun s =>
  (mkNode (device s) (own s) (rng s) (ticks s) (S (stamps s)), [], Ok (tai (stamps s))).
Definition set_own {X} (x : X) : step X unit := modify (fun s => mkNode (device s) x (rng s) (ticks s) (stamps s)).

(** The calls of the device. *)
Definition handle_udp {X} (datagram : bytes) (now : Z) (out : bytes) : step X (Error + Action) := fun s =>
  let '(d, tape, r) := Device.handle_udp (device s) datagram now (rng s) out in
  (mkNode d (own s) tape (ticks s) (stamps s), [], caught r).
Definition encapsulate {X} (peer : PeerId) (packet : bytes) (now : Z) (out : bytes) : step X (Error + Action) := fun s =>
  let (d, r) := Device.encapsulate (device s) peer packet now out in
  (mkNode d (own s) (rng s) (ticks s) (stamps s), [], caught r).
Definition poll_timers {X} (now : Z) (out : bytes) : step X (Error + Action) := fun s =>
  let (d, r) := Device.poll_timers (device s) now out in
  (mkNode d (own s) (rng s) (ticks s) (stamps s), [], caught r).
Definition poll_handshakes {X} (now : Z) (timestamp out : bytes) : step X (Error + Action) := fun s =>
  let '(d, tape, r) := Device.poll_handshakes (device s) now timestamp (rng s) out in
  (mkNode d (own s) tape (ticks s) (stamps s), [], caught r).

(** A datagram arrived: what both loops do with it.  [out] and [reply] are their
    buffers, and [sealed] a fresh one. *)
Definition serve {X} (peer : PeerId) (out reply datagram : bytes) (from : Addr) : step X unit :=
  t ← read_clock;
  r ← handle_udp datagram t out;
  match r with
  | inr (Send _ data) => emit (data, from)
  | inr (Receive _ packet) =>
      echo ← lift (harness_inner.icmp_echo_reply packet (tunnel_ip config) reply);
      match echo with
      | Some (reply, n) =>
          answer ← lift (slice (0, n) reply);
          t ← read_clock;
          r ← encapsulate peer answer t (zeros MAX_DATAGRAM_LEN);
          match r with
          | inr (Send _ data) => emit (data, from)
          | _ => mret tt
          end
      | None => mret tt
      end
  | inr ActNone | inl _ => mret tt
  end.

(** *** The responder *)

Definition RESPONDER_PEERS : nat := 1.

(** The loop over the timers, which reads the clock every time; a peer is heard at
    most once. *)
Fixpoint respond_timers (fuel : nat) (out : bytes) (to : Addr) : step (option Addr) unit :=
  match fuel with
  | O => lift Hang
  | S fuel =>
      t ← read_clock;
      r ← poll_timers t out;
      match r with
      | inr (Send _ data) => emit (data, to) ;; respond_timers fuel out to
      | _ => mret tt
      end
  end.

(** One turn of [run_responder]'s loop. *)
Definition respond_turn (out reply : bytes) (received : option (bytes * Addr)) : step (option Addr) unit :=
  match received with
  | Some (datagram, from) => set_own (Some from) ;; serve 0%nat out reply datagram from
  | None => mret tt
  end ;;
  to ← gets own;
  match to with
  | None => mret tt
  | Some to => respond_timers (S RESPONDER_PEERS) out to
  end.

Definition responder (tape : bytes) : Gateway.out (Node (option Addr)) :=
  let (d, r) := add_peer RESPONDER_PEERS (device_new (private_key config)) (peer_key config) None in
  match r with Ok _ => Ok (mkNode d None tape 0 0) | _ => Panic end.

(** *** The initiator *)

Definition INITIATOR_PEERS : nat := 4.

(** The loop that starts what handshakes are due at [now]: none is due twice. *)
Fixpoint initiate_handshakes (fuel : nat) (now : Z) (out : bytes) (to : Addr) : step bool unit :=
  match fuel with
  | O => lift Hang
  | S fuel =>
      timestamp ← read_stamp;
      r ← poll_handshakes now timestamp out;
      match r with
      | inr (Send _ data) => emit (data, to) ;; initiate_handshakes fuel now out to
      | _ => mret tt
      end
  end.

Fixpoint initiate_timers (fuel : nat) (now : Z) (out : bytes) (to : Addr) : step bool unit :=
  match fuel with
  | O => lift Hang
  | S fuel =>
      r ← poll_timers now out;
      match r with
      | inr (Send _ data) => emit (data, to) ;; initiate_timers fuel now out to
      | _ => mret tt
      end
  end.

(** One turn of [run_initiator]'s loop towards the peer at [to]. *)
Definition initiate_turn (to : Addr) (out reply : bytes) (received : option (bytes * Addr)) : step bool unit :=
  now ← read_clock;
  initiate_handshakes (S INITIATOR_PEERS) now out to ;;
  initiate_timers (S INITIATOR_PEERS) now out to ;;
  d ← gets device;
  announced ← gets own;
  (if negb announced && is_connected d 0%nat now then set_own true else mret tt) ;;
  match received with
  | Some (datagram, from) => serve 0%nat out reply datagram from
  | None => mret tt
  end.

Definition initiator (tape : bytes) : Gateway.out (Node bool) :=
  let (d, r) := add_peer INITIATOR_PEERS (device_new (private_key config)) (peer_key config) None in
  match r with
  | Ok peer =>
      match set_initiating d peer true with
      | (d, Ok _) => Ok (mkNode d false tape 0 0)
      | _ => Panic
      end
  | _ => Panic
  end.

End Roles.
Arguments mkNode {X}. Arguments device {X}. Arguments own {X}. Arguments rng {X}. Arguments ticks {X}. Arguments stamps {X}.
End harness_wg.
