(* ===== verification/HarnessWgTheorems.v ===== *)
(** * The harness: what the WireGuard roles do

    A device with one peer through a handshake, call by call; the initiator and the
    responder of [HarnessWg.v] bring a connection up and answer pings over it; time
    stamps from an advancing clock are newer. *)

From S2P Require Import Prelude Timers Replay Messages Crypto Noise Transport Device DeviceFacts DeviceConnect Gateway GatewayFacts GatewayTheorems GatewaySegments Effects Tunnel TunnelFacts TunnelExchange HarnessWg.

Import harness_wg.

(** ** Clocks *)

Import harness_time.

Lemma of_le_app l k : of_le (l ++ k) = of_le l + 256 ^ len l * of_le k.
Proof.
  induction l as [|x l IH]; cbn [app of_le]; [change (len (@nil Z)) with 0; lia|]. rewrite IH, len_cons, Z.pow_add_r by (nonneg_lens; lia). lia.
Qed.

Lemma of_be_app l k : of_be (l ++ k) = of_be l * 256 ^ len k + of_be k.
Proof. unfold of_be. rewrite reverse_app, of_le_app, len_reverse. lia. Qed.

(** The order of byte strings of one length is the order of the numbers. *)
Lemma lex_lt_of_be a b : bytes_ok a -> bytes_ok b -> len a = len b -> lex_lt a b = (of_be a <? of_be b).
Proof.
  intros Ha. revert b. induction Ha as [|x a Hx Ha IH]; intros [|y b] Hb Hl; [done|llia|llia|].
  inversion Hb as [|?? Hy Hb']; subst. cbn [lex_lt].
  change (x :: a) with ([x] ++ a). change (y :: b) with ([y] ++ b). rewrite !of_be_app.
  change (of_be [x]) with (x + 256 * 0). change (of_be [y]) with (y + 256 * 0).
  pose proof (of_be_bound a Ha) as Ba. pose proof (of_be_bound b Hb') as Bb.
  assert (len a = len b) as Hl' by llia. rewrite <- Hl' in *. destruct (x =? y) eqn:E; bool_hyps.
  - subst y. rewrite IH by done. apply eq_true_iff_eq. rewrite !Z.ltb_lt. lia.
  - apply eq_true_iff_eq. rewrite !Z.ltb_lt. nia.
Qed.

(** A reading of a clock that keeps seconds and nanoseconds apart. *)
Definition timespec_ok (ts : Timespec) : Prop := 0 <= tv_sec ts < 2 ^ 62 /\ 0 <= tv_nsec ts < 1000000000.

Definition nanos (ts : Timespec) : Z := tv_sec ts * 1000000000 + tv_nsec ts.

(** Time stamps of initiations grow with the clock: no later one is stale to the
    responder that saw an earlier one. *)
Theorem tai64n_grows ts ts' : timespec_ok ts -> timespec_ok ts' ->
  timestamp_is_newer (tai64n ts') (tai64n ts) = (nanos ts <? nanos ts').
Proof.
  intros (Hs & Hn) (Hs' & Hn'). unfold timestamp_is_newer, tai64n, nanos.
  rewrite lex_lt_of_be by (rewrite ?bytes_ok_app; auto with tf; llia).
  rewrite !of_be_app, !of_to_be, !len_to_be. unfold wrap.
  change (Z.of_nat 8) with 8. change (Z.of_nat 4) with 4. change (256 ^ 8) with (2 ^ 64). change (256 ^ 4) with (2 ^ 32).
  rewrite (Z.mod_small (tv_sec ts)), (Z.mod_small (tv_sec ts')), !Z.mod_mod by lia.
  unfold TAI64_UNIX_EPOCH. change (Z.shiftl 1 62) with (2 ^ 62).
  rewrite (Z.mod_small (_ + tv_sec ts)), (Z.mod_small (_ + tv_sec ts')), (Z.mod_small (tv_nsec ts)), (Z.mod_small (tv_nsec ts')) by lia.
  apply eq_true_iff_eq. rewrite !Z.ltb_lt. lia.
Qed.

Lemma tai64n_grows_witness :
  timestamp_is_newer (tai64n (mkTimespec 1700000000 5)) (tai64n (mkTimespec 1699999999 999999999)) = true.
Proof.
  exact (tai64n_grows (mkTimespec 1699999999 999999999) (mkTimespec 1700000000 5)
    ltac:(by vm_compute; intuition discriminate) ltac:(by vm_compute; intuition discriminate)).
Defined.

(** ** A device with one peer *)

Section Solo.
Context `{P : Primitives} {POk : PrimitivesOk P}.

Definition solo (sk : bytes) (p : Peer) (b : HandshakeBudget.t) : Device :=
  mkDevice sk (x25519_base sk) (mac1_key (x25519_base sk)) [p] b.

(** A handshake token is left, and taking one leaves a budget that had more. *)
Definition spare (b : HandshakeBudget.t) : Prop := 1 <= HandshakeBudget.tokens b.

Lemma take_spare b now : 0 < HandshakeBudget.tokens b <= HANDSHAKE_BURST ->
  fst (HandshakeBudget.take b now) = true /\
  HandshakeBudget.tokens b - 1 <= HandshakeBudget.tokens (snd (HandshakeBudget.take b now)) <= HANDSHAKE_BURST - 1.
Proof.
  intros Hb. unfold HandshakeBudget.take.
  assert (HandshakeBudget.tokens b <= HandshakeBudget.tokens (HandshakeBudget.refill b now) <= HANDSHAKE_BURST) as Hr.
  { unfold HandshakeBudget.refill. destruct (HandshakeBudget.last_refill b) as [last|]; [|simpl; lia].
    case_if; [|lia]. bool_hyps. cbn [HandshakeBudget.tokens]. unfold HANDSHAKE_BURST, U32_MAX in *. lia. }
  rewrite (proj2 (Z.eqb_neq _ _)) by lia. cbn [fst snd HandshakeBudget.tokens]. lia.
Qed.

Lemma poll_handshakes_start sk peer_pk p b now ts idx e rest out m hs :
  public p = peer_pk -> wants_handshake p now = true -> current p = None -> previous p = None ->
  fst (HandshakeBudget.take b now) = true -> is_u32 idx -> len e = 32 ->
  create_initiation sk (x25519_base sk) peer_pk idx e ts out = Ok (m, hs) ->
  Device.poll_handshakes (solo sk p b) now ts (to_le 4 idx ++ e ++ rest) out =
  (solo sk (with_pending p (Some hs) (get_or_insert (pending_since p) now) (Some now)) (snd (HandshakeBudget.take b now)),
   rest, Ok (Send 0 m)).
Proof.
  intros <- Hw Hc Hv Hg Hu He Hci. unfold Device.poll_handshakes. cbn [solo peers length poll_handshakes_from lookup list_lookup].
  assert (expire_sessions p now = p) as -> by (unfold expire_sessions; rewrite Hc; cbn; by rewrite Hv).
  rewrite Hw. cbn [negb].
  change (with_peers (solo sk p b) (<[0%nat:=p]> [p])) with (solo sk p b).
  rewrite (start_ok (solo sk p b) 0 p now ts idx e rest out m hs); try done.
  cbn. by rewrite Hc, Hv.
Qed.

Lemma poll_handshakes_idle sk p b now ts tape out :
  wants_handshake (expire_sessions p now) now = false ->
  Device.poll_handshakes (solo sk p b) now ts tape out = (solo sk (expire_sessions p now) b, tape, Ok ActNone).
Proof.
  intros Hw. unfold Device.poll_handshakes. cbn [solo peers length poll_handshakes_from lookup list_lookup].
  by rewrite Hw.
Qed.

Lemma poll_timers_idle sk p b now out :
  keepalive_is_due (keepalive_armed_since p) now = false ->
  Device.poll_timers (solo sk p b) now out = (solo sk (expire_sessions p now) b, Ok ActNone).
Proof.
  intros Hd. unfold Device.poll_timers. cbn [solo peers poll_timers_from]. rewrite expire_armed, Hd. done.
Qed.

Lemma respond_solo rp p b now idx e rest out m ini msg keys :
  fst (HandshakeBudget.take b now) = true ->
  consume_initiation rp (x25519_base rp) (mac1_key (x25519_base rp)) m = Ok ini ->
  public p = peer_static ini -> is_stale p (timestamp ini) = false -> index_taken [p] idx = false ->
  is_u32 idx -> len e = 32 -> create_response ini (preshared_key p) idx e out = Ok (msg, keys) ->
  Device.handle_udp (solo rp p b) m now (to_le 4 idx ++ e ++ rest) out =
  (solo rp (clear_pending (with_armed (with_sessions (with_last_timestamp p (Some (timestamp ini)))
               (Some (session_new keys idx (init_peer_index ini) now)) (current p)) None)) (snd (HandshakeBudget.take b now)),
   rest, Ok (Send 0 msg)).
Proof.
  intros Hg Hc Hp Hst Hfree Hu He Hr. unfold Device.handle_udp.
  rewrite (consume_initiation_type _ _ _ _ _ Hc), Z.eqb_refl.
  rewrite (respond_ok (solo rp p b) 0 p now idx e rest out m ini msg keys); try done.
  cbn. by rewrite Hp, bytes_eqb_refl.
Qed.

Lemma complete_solo sk p b now m hs pidx keys tape out :
  fst (HandshakeBudget.take b now) = true -> verify_response_mac1 (mac1_key (x25519_base sk)) m = Ok tt ->
  pending p = Some hs -> consume_response hs sk (preshared_key p) m = Ok (pidx, keys) ->
  data.HEADER_LEN + TAG_LEN <= len out ->
  let sa := confirm (session_new keys (hs_local_index hs) pidx now) in
  Device.handle_udp (solo sk p b) m now tape out =
  (solo sk (with_armed (with_sessions (with_armed (with_sessions (clear_pending p) (Some sa) (current p)) None)
      (Some (with_send_counter sa 1)) (current p)) None) (snd (HandshakeBudget.take b now)),
   tape, Ok (Send 0 (data_message sa []))).
Proof.
  intros Hg Hv Hp Hc Ho sa. destruct (consume_response_receiver _ _ _ _ _ Hc) as [Hty _]. unfold Device.handle_udp. rewrite Hty.
  change (TYPE_RESPONSE =? TYPE_INITIATION) with false. change (TYPE_RESPONSE =? TYPE_DATA) with false.
  rewrite Z.eqb_refl. cbv iota.
  rewrite (complete_ok_eq (solo sk p b) 0 p now m hs pidx keys); try done.
  2:{ cbn. unfold pending_is. by rewrite Hp, Z.eqb_refl. }
  cbn [peers with_peers solo charged with_budget list_insert insert lookup list_lookup current with_armed with_sessions].
  fold sa. rewrite seal_layout; [done|done|]. exact Ho.
Qed.

Lemma confirm_solo rp p b now sa sb tape out :
  current p = Some sb -> is_usable sb now = true -> local_index sb = peer_index sa -> is_u32 (peer_index sa) ->
  s_receiving sb = s_sending sa -> 0 <= send_counter sa < REJECT_AFTER_MESSAGES ->
  fst (ReplayWindow.accept (replay sb) (send_counter sa)) = true ->
  exists p', Device.handle_udp (solo rp p b) (data_message sa []) now tape out = (solo rp p' b, tape, Ok ActNone) /\
    current p' = Some (confirm (with_replay sb (snd (ReplayWindow.accept (replay sb) (send_counter sa))))) /\
    keepalive_armed_since p' = keepalive_armed_since p.
Proof.
  intros Hc Hu Hi H32 Hk Hcnt Hf. destruct (data_message_receiver sa [] H32) as (Hl & Hty & Hr).
  unfold Device.handle_udp. rewrite Hty. change (TYPE_DATA =? TYPE_INITIATION) with false.
  change (TYPE_DATA =? TYPE_DATA) with true. cbv iota. unfold open_data, data.HEADER_LEN in *.
  rewrite (proj2 (Z.ltb_ge _ _)) by lia. rewrite Hr. cbn [solo peers open_data_from]. set (q := expire_sessions p now).
  assert (current q = Some sb) as Hq by by apply expire_usable.
  assert (select_session q (peer_index sa) = Some (sb, false)) as ->.
  { unfold select_session. rewrite Hq. by rewrite Hi, Z.eqb_refl. }
  rewrite open_data_message by (try done; change (next_multiple_of (len []) PAD_TO) with 0; nonneg_lens; lia).
  destruct (ReplayWindow.accept (replay sb) (send_counter sa)) as [fresh w]; simpl in Hf. subst fresh.
  eexists. split; [reflexivity|]. split; [done|]. cbn. unfold q. apply expire_armed.
Qed.

End Solo.

(** ** Turns *)

(** Two devices with one peer each, connected: the sessions mirror each other and
    each accepts what the other sends next. *)
Record linked (da db : Device) (sa sb : Session) (aa ab : option Z) : Prop := {
  l_a : talks da sa aa;
  l_b : talks db sb ab;
  l_index : local_index sb = peer_index sa;
  l_index' : local_index sa = peer_index sb;
  l_u32 : is_u32 (peer_index sa);
  l_u32' : is_u32 (peer_index sb);
  l_key : s_receiving sb = s_sending sa;
  l_key' : s_receiving sa = s_sending sb;
  l_conf : confirmed sa = true;
  l_conf' : confirmed sb = true;
  l_count : 0 <= send_counter sa;
  l_count' : 0 <= send_counter sb;
  l_fresh : fst (ReplayWindow.accept (replay sb) (send_counter sa)) = true;
  l_fresh' : fst (ReplayWindow.accept (replay sa) (send_counter sb)) = true;
}.

Section Turns.
Context `{P : Primitives} {POk : PrimitivesOk P} {Addr : Type}.
Context (clk : nat -> Z) (tai : nat -> bytes) (config : Config).
Implicit Types (to from : Addr).

Lemma expire_none p now : current p = None -> previous p = None -> expire_sessions p now = p.
Proof. intros Hc Hv. unfold expire_sessions. rewrite Hc. cbn. by rewrite Hv. Qed.

Lemma expire_same p now s : current p = Some s -> previous p = None -> is_usable s now = true -> expire_sessions p now = p.
Proof. intros Hc Hv Hu. unfold expire_sessions. rewrite Hc. cbn. rewrite Hu. cbn. by rewrite Hv. Qed.

(** A turn of the initiator in which nothing is due only serves what arrived. *)
Lemma turn_idle sk p b x tape k n o reply to received s' es :
  wants_handshake p (clk k) = false -> keepalive_is_due (keepalive_armed_since p) (clk k) = false ->
  expire_sessions p (clk k) = p ->
  runs (match received with Some (datagram, from) => serve clk config 0%nat o reply datagram from | None => mret tt end)
    (mkNode (solo sk p b) (x || is_connected (solo sk p b) 0%nat (clk k)) tape (S k) (S n)) s' es tt ->
  runs (initiate_turn clk tai config to o reply received) (mkNode (solo sk p b) x tape k n) s' es tt.
Proof.
  intros Hw Hk He Hr. unfold initiate_turn. eapply runs_step; [done|]. eapply runs_step.
  { cbn [initiate_handshakes INITIATOR_PEERS]. eapply runs_step; [done|].
    eapply runs_step; [unfold runs, poll_handshakes; cbn [device rng own ticks stamps];
      rewrite poll_handshakes_idle by (by rewrite He); by rewrite He|]. done. }
  eapply runs_step.
  { cbn [initiate_timers INITIATOR_PEERS].
    eapply runs_step; [unfold runs, poll_timers; cbn [device rng own ticks stamps]; rewrite poll_timers_idle by done; by rewrite He|]. done. }
  eapply runs_step; [done|]. eapply runs_step; [done|]. cbn [device own].
  eapply runs_step; [|exact Hr]. destruct x; cbn [negb andb orb]; [done|]. by destruct (is_connected _ _ _).
Qed.

(** The first turn sends the initiation. *)
Lemma turn_initiates sk peer_pk p b idx e rest k n o reply to m hs :
  public p = peer_pk -> initiating p = true -> current p = None -> previous p = None -> keepalive_armed_since p = None ->
  pending_last_sent p = None -> fst (HandshakeBudget.take b (clk k)) = true -> is_u32 idx -> len e = 32 ->
  create_initiation sk (x25519_base sk) peer_pk idx e (tai n) o = Ok (m, hs) ->
  runs (initiate_turn clk tai config to o reply None) (mkNode (solo sk p b) false (to_le 4 idx ++ e ++ rest) k n)
    (mkNode (solo sk (with_pending p (Some hs) (get_or_insert (pending_since p) (clk k)) (Some (clk k)))
       (snd (HandshakeBudget.take b (clk k)))) false rest (S k) (S (S n))) [(m, to)] tt.
Proof.
  intros Hpk Hi Hc Hv Ha Hl Hg Hu He Hci. set (p1 := with_pending _ _ _ _). 
  assert (wants_handshake p (clk k) = true) as Hw by (unfold wants_handshake; by rewrite Hi, Hc, Hl).
  assert (expire_sessions p1 (clk k) = p1) as He1 by by apply expire_none.
  assert (wants_handshake p1 (clk k) = false) as Hw1.
  { unfold wants_handshake. cbn. rewrite Hi, Hc. cbn. unfold saturating_since, saturating_sub. by rewrite Z.sub_diag. }
  unfold initiate_turn. eapply runs_step; [done|]. 
  eapply (runs_then _ _ _ (mkNode (solo sk p1 (snd (HandshakeBudget.take b (clk k)))) false rest (S k) (S (S n)))).
  - cbn [initiate_handshakes INITIATOR_PEERS]. eapply runs_step; [done|].
    eapply runs_step; [unfold runs, poll_handshakes; cbn [device rng own ticks stamps];
      by rewrite (poll_handshakes_start sk peer_pk p b (clk k) (tai n) idx e rest o m hs)|].
    cbn [caught]. eapply (runs_then _ _ _ _ _ [(m, to)]); [done|]. fold p1.
    eapply runs_step; [done|]. eapply runs_step; [unfold runs, poll_handshakes; cbn [device rng own ticks stamps];
      rewrite (poll_handshakes_idle sk p1) by (by rewrite He1); by rewrite He1|]. done.
  - eapply runs_step; [cbn [initiate_timers INITIATOR_PEERS]; eapply runs_step; [unfold runs, poll_timers; cbn [device rng own ticks stamps];
      rewrite (poll_timers_idle sk p1) by (cbn; by rewrite Ha); by rewrite He1|]; done|].
    eapply runs_step; [done|]. eapply runs_step; [done|]. cbn [device own]. unfold is_connected. cbn [solo peers lookup list_lookup p1 with_pending current].
    rewrite Hc. cbn [negb andb]. eapply runs_step; done.
Qed.
(** The responder answers the initiation. *)
Lemma turn_responds rp p b x idx e rest k n o reply m ini msg keys from :
  fst (HandshakeBudget.take b (clk k)) = true ->
  consume_initiation rp (x25519_base rp) (mac1_key (x25519_base rp)) m = Ok ini ->
  public p = peer_static ini -> last_timestamp p = None -> current p = None -> previous p = None ->
  is_u32 idx -> len e = 32 -> create_response ini (preshared_key p) idx e o = Ok (msg, keys) ->
  session_is_alive (clk k) (clk (S k)) = true ->
  exists p1, current p1 = Some (session_new keys idx (init_peer_index ini) (clk k)) /\ previous p1 = None /\
    keepalive_armed_since p1 = None /\
    runs (respond_turn clk config o reply (Some (m, from))) (mkNode (solo rp p b) x (to_le 4 idx ++ e ++ rest) k n)
      (mkNode (solo rp p1 (snd (HandshakeBudget.take b (clk k)))) (Some from) rest (S (S k)) n) [(msg, from)] tt.
Proof.
  intros Hg Hc Hp Hl Hcu Hv Hu He Hr Hal. eexists. split; [|split; [|split; [|eapply runs_then]]].
  4:{ eapply runs_step; [done|]. unfold serve. eapply runs_step; [done|].
      eapply runs_step; [unfold runs, handle_udp; cbn [device rng own ticks stamps];
        rewrite (respond_solo rp p b (clk k) idx e rest o m ini msg keys); try done|done].
      - unfold is_stale. by rewrite Hl.
      - cbn. by rewrite Hcu, Hv. }
  4:{ eapply runs_step; [done|]. cbn [own respond_timers RESPONDER_PEERS]. eapply runs_step; [done|]. cbn [ticks].
      eapply runs_step; [unfold runs, poll_timers; cbn [device rng own ticks stamps]; rewrite poll_timers_idle by done; done|]. done. }
  all: rewrite (expire_same _ _ (session_new keys idx (init_peer_index ini) (clk k))); try done.
  all: unfold is_usable; cbn; by rewrite Hal.
Qed.

(** The initiator completes the handshake and confirms it. *)
Lemma turn_completes sk p b k n tape o reply m hs pidx keys to from :
  initiating p = true -> current p = None -> previous p = None -> keepalive_armed_since p = None ->
  handshake_retry_is_due (pending_last_sent p) (clk k) = false ->
  fst (HandshakeBudget.take b (clk (S k))) = true -> verify_response_mac1 (mac1_key (x25519_base sk)) m = Ok tt ->
  pending p = Some hs -> consume_response hs sk (preshared_key p) m = Ok (pidx, keys) ->
  data.HEADER_LEN + TAG_LEN <= len o ->
  let sa := confirm (session_new keys (hs_local_index hs) pidx (clk (S k))) in
  exists p1, current p1 = Some (with_send_counter sa 1) /\ previous p1 = None /\ keepalive_armed_since p1 = None /\
    runs (initiate_turn clk tai config to o reply (Some (m, from))) (mkNode (solo sk p b) false tape k n)
      (mkNode (solo sk p1 (snd (HandshakeBudget.take b (clk (S k))))) false tape (S (S k)) (S n)) [(data_message sa [], from)] tt.
Proof.
  intros Hi Hc Hv Ha Hl Hg Hver Hp Hcr Ho sa. eexists. split; [|split; [|split; [|eapply turn_idle]]].
  7:{ unfold serve. eapply runs_step; [done|]. cbn [ticks].
      eapply runs_step; [unfold runs, handle_udp; cbn [device rng own ticks stamps];
        rewrite (complete_solo sk p b (clk (S k)) m hs pidx keys tape o); try done|].
      unfold is_connected. cbn [solo peers lookup list_lookup]. rewrite Hc. done. }
  4:{ unfold wants_handshake. rewrite Hi, Hc, Hl. done. }
  4:{ by rewrite Ha. }
  4:{ by apply expire_none. }
  all: done.
Qed.

(** The responder takes the confirmation. *)
Lemma turn_confirmed rp p b x tape k n o reply sa sb from :
  current p = Some sb -> keepalive_armed_since p = None -> is_usable sb (clk k) = true -> is_usable sb (clk (S k)) = true ->
  local_index sb = peer_index sa -> is_u32 (peer_index sa) -> s_receiving sb = s_sending sa ->
  0 <= send_counter sa < REJECT_AFTER_MESSAGES -> fst (ReplayWindow.accept (replay sb) (send_counter sa)) = true ->
  exists p1, talks (solo rp p1 b) (confirm (with_replay sb (snd (ReplayWindow.accept (replay sb) (send_counter sa))))) None /\
    runs (respond_turn clk config o reply (Some (data_message sa [], from))) (mkNode (solo rp p b) x tape k n)
      (mkNode (solo rp p1 b) (Some from) tape (S (S k)) n) [] tt.
Proof.
  intros Hc Ha Hu Hu' Hi H32 Hk Hcnt Hf.
  destruct (confirm_solo rp p b (clk k) sa sb tape o Hc Hu Hi H32 Hk Hcnt Hf) as (p' & Hh & Hc' & Ha').
  exists (expire_sessions p' (clk (S k))). split.
  - eexists. split; [done|]. split; [by apply expire_usable|]. by rewrite expire_armed, Ha', Ha.
  - eapply runs_step.
    { eapply runs_step; [done|]. unfold serve. eapply runs_step; [done|]. cbn [ticks].
      eapply runs_step; [unfold runs, handle_udp; cbn [device rng own ticks stamps]; by rewrite Hh|]. done. }
    eapply runs_step; [done|]. cbn [own respond_timers RESPONDER_PEERS]. eapply runs_step; [done|]. cbn [ticks].
    eapply runs_step; [unfold runs, poll_timers; cbn [device rng own ticks stamps]; rewrite poll_timers_idle by (by rewrite Ha', Ha); done|]. done.
Qed.

End Turns.

(** * The harness: a connection and a ping

    The initiator and the responder of [HarnessWg.v], started from their
    configurations, connect in three datagrams; a device connected to a responder
    pings it and gets its echo back. *)

Import harness_wg nat Ones.

Section Theorems.
Context `{P : Primitives} {POk : PrimitivesOk P} {Addr : Type}.

(** The first readings of a clock lie within the time after which a handshake is
    tried again. *)
Definition brisk (clk : nat -> Z) : Prop :=
  forall j, (j < 4)%nat -> clk 0%nat <= clk j < clk 0%nat + REKEY_TIMEOUT_MS.

Lemma brisk_alive clk i j : brisk clk -> (i < 4)%nat -> (j < 4)%nat ->
  session_is_alive (clk i) (clk j) = true /\ handshake_retry_is_due (Some (clk i)) (clk j) = false /\
  rekey_is_due (clk i) (clk j) = false.
Proof.
  intros Hb Hi%Hb Hj%Hb. unfold session_is_alive, handshake_retry_is_due, rekey_is_due, saturating_since, saturating_sub,
    REJECT_AFTER_TIME_MS, REKEY_TIMEOUT_MS, REKEY_AFTER_TIME_MS in *.
  rewrite Z.ltb_lt, !Z.leb_gt. lia.
Qed.

(** C12: The two roles of the harness, configured with each other's keys, connect.
    The initiator's first turn sends one datagram; the responder's turn on it sends
    one back to where it came from; the initiator's turn on that sends a third; the
    responder's turn on that sends nothing, and the initiator's next turn announces
    the connection.  Then the two devices hold mirrored, confirmed sessions. *)
Theorem roles_connect (clk_a clk_b : nat -> Z) (tai : nat -> bytes) (ip_a ip_b sp rp e re rest_a rest_b out_a out_b
    reply_a reply_b s1 s2 s3 s4 : bytes) (idx ridx : Z) (here there : Addr) :
  let config_a := mkConfig sp (x25519_base rp) ip_a in
  let config_b := mkConfig rp (x25519_base sp) ip_b in
  brisk clk_a -> brisk clk_b -> len (tai 0%nat) = 12 -> is_u32 idx -> is_u32 ridx -> len e = 32 -> len re = 32 ->
  dh e (x25519_base rp) = Ok s1 -> dh sp (x25519_base rp) = Ok s2 ->
  dh re (x25519_base e) = Ok s3 -> dh re (x25519_base sp) = Ok s4 ->
  len out_a = MAX_DATAGRAM_LEN -> len out_b = MAX_DATAGRAM_LEN ->
  exists a0 a1 a2 a3 b0 b1 b2 m1 m2 m3 sa sb,
    initiator config_a (to_le 4 idx ++ e ++ rest_a) = Ok a0 /\ responder config_b (to_le 4 ridx ++ re ++ rest_b) = Ok b0 /\
    initiate_turn clk_a tai config_a there out_a reply_a None a0 = (a1, [(m1, there)], Ok tt) /\
    respond_turn clk_b config_b out_b reply_b (Some (m1, here)) b0 = (b1, [(m2, here)], Ok tt) /\
    initiate_turn clk_a tai config_a there out_a reply_a (Some (m2, there)) a1 = (a2, [(m3, there)], Ok tt) /\
    respond_turn clk_b config_b out_b reply_b (Some (m3, here)) b1 = (b2, [], Ok tt) /\
    initiate_turn clk_a tai config_a there out_a reply_a None a2 = (a3, [], Ok tt) /\
    own a3 = true /\ linked (device a3) (device b2) sa sb None None.
Proof.
  intros config_a config_b Hca Hcb Hts Hu Hu' He Hre Hd1 Hd2 Hd3 Hd4 Hoa Hob.
  destruct (handshake_exchange sp e rp re (zeros 32) (tai 0%nat) out_a out_b s1 s2 s3 s4 idx ridx Hts Hu Hu')
    as (m1 & hs & ini & m2 & rk & ik & Hci & Hhs & Hcons & Hstat & Hpi & Htime & Hcr & Hv & Hcresp & Hk1 & Hk2);
    [rewrite Hoa; done|rewrite Hob; done|done..|].
  set (pa := with_initiating (new_peer (x25519_base rp) None) true). set (pb := new_peer (x25519_base sp) None).
  set (b0 := HandshakeBudget.new).
  destruct (take_spare b0 (clk_a 0%nat)) as [Hg1 Hb1]; [done|].
  destruct (take_spare (snd (HandshakeBudget.take b0 (clk_a 0%nat))) (clk_a 2%nat)) as [Hg3 _].
  { change (HandshakeBudget.tokens b0) with 8 in Hb1. unfold HANDSHAKE_BURST in *. lia. }
  destruct (take_spare b0 (clk_b 0%nat)) as [Hg2 _]; [done|].
  destruct (brisk_alive clk_a 0 1 Hca) as (_ & Hretry & _); [lia..|].
  destruct (brisk_alive clk_a 2 3 Hca) as (Hal3 & _ & Hrk); [lia..|].
  destruct (brisk_alive clk_b 0 1 Hcb) as (Halb1 & _ & _); [lia..|].
  destruct (brisk_alive clk_b 0 2 Hcb) as (Halb2 & _ & _); [lia..|].
  destruct (brisk_alive clk_b 0 3 Hcb) as (Halb3 & _ & _); [lia..|].
  pose proof (turn_initiates clk_a tai config_a sp (x25519_base rp) pa b0 idx e rest_a 0 0 out_a reply_a there m1 hs) as R1.
  destruct (turn_responds clk_b config_b rp pb b0 None ridx re rest_b 0 0 out_b reply_b m1 ini m2 rk here)
    as (pb1 & Hcb1 & Hvb1 & Hab1 & R2); try done.
  set (pa1 := with_pending pa _ _ _) in R1. set (ba1 := snd (HandshakeBudget.take b0 (clk_a 0%nat))) in *.
  destruct (turn_completes clk_a tai config_a sp pa1 ba1 1 2 rest_a out_a reply_a m2 hs ridx ik there there)
    as (pa2 & Hca2 & Hva2 & Haa2 & R3); try done; [by rewrite Hoa|].
  set (sa := confirm _) in *. set (ba2 := snd (HandshakeBudget.take ba1 (clk_a 2%nat))) in *.
  set (sb := session_new _ _ _ _) in Hcb1.
  destruct (turn_confirmed clk_b config_b rp pb1 (snd (HandshakeBudget.take b0 (clk_b 0%nat))) (Some here) rest_b 2 0 out_b reply_b sa sb here)
    as (pb2 & Htb & R4); try done.
  1,2: unfold is_usable; cbn; by rewrite ?Halb2, ?Halb3.
  assert (is_usable (with_send_counter sa 1) (clk_a 3%nat) = true) as Hua by (unfold is_usable; cbn; by rewrite Hal3).
  pose proof (turn_idle clk_a tai config_a sp pa2 ba2 false rest_a 3 3 out_a reply_a there None) as R5.
  do 10 eexists. exists (with_send_counter sa 1), (confirm (with_replay sb (snd (ReplayWindow.accept (replay sb) 0)))).
  split; [done|]. split; [done|]. split; [by apply R1|]. split; [exact R2|]. split; [exact R3|]. split; [exact R4|].
  split; [apply R5; [|by rewrite Haa2|by apply (expire_same _ _ (with_send_counter sa 1))|done]|].
  { unfold wants_handshake. rewrite Hca2, Hua. cbn. rewrite Hrk. by case_if. }
  split.
  { cbn. unfold is_connected. cbn [solo peers lookup list_lookup]. by rewrite Hca2, Hua. }
  split; try done; first [by exists pa2 | cbn; by rewrite ?Hpi, ?Hhs, ?Hk1, ?Hk2].
Qed.

(** The length an IPv4 packet claims is in its first bytes. *)
Lemma icmp_packet_len v h ttl ttl' cks cks' src src' dst dst' options ty ty' code icks icks' rest :
  let p := concat (icmp_fields v h ttl cks src dst options ty code icks rest) in
  let q := concat (icmp_fields v h ttl' cks' src' dst' options ty' code icks' rest) in
  Z.shiftr v 4 = 4 -> len h = 7 -> len p = len q -> packet_len q = packet_len p.
Proof.
  intros p q Hv Hh Hl. assert (forall x, 4 <= len ([v] ++ h ++ x) /\ Z.shiftr (at_ 0 ([v] ++ h ++ x)) 4 = IPV4 /\
    sub_range 2 4 ([v] ++ h ++ x) = sub_range 1 3 h) as Hx.
  { intros x. split_and!; [llia|done|]. destruct h as [|h0 [|h1 [|h2 [|h3 h]]]]; try (exfalso; llia). done. }
  subst p q. cbn [icmp_fields concat] in *. destruct (Hx (concat [[ttl]; [inner.PROTO_ICMP]; cks; src; dst; options; [ty]; [code]; icks; rest])) as (A1 & A2 & A3).
  destruct (Hx (concat [[ttl']; [inner.PROTO_ICMP]; cks'; src'; dst'; options; [ty']; [code]; icks'; rest])) as (B1 & B2 & B3).
  cbn [concat] in *. rewrite !packet_len_ipv4 by done. by rewrite A3, B3, Hl.
Qed.

(** C13: A ping is answered.  A device connected to a responder of the harness sends
    an echo request for the responder's tunnel address, of any size that fits the
    tunnel; the responder's turn on the datagram sends exactly one datagram back to
    where it came from, and the device opens it to the echo reply: the request with
    source and destination exchanged, type echo reply, a fresh time to live and both
    checksums valid, identifier, sequence number and data unchanged. *)
Theorem ping_answered (clk : nat -> Z) (config : Config) (node : Node (option Addr)) (dk : Device) (sk sb : Session) (ak ab : option Z)
    (v ttl code : Z) (h cks src options icks rest out reply_ out_k out_k' tape : bytes) (t t' : Z) (from : Addr) :
  let packet := concat (icmp_fields v h ttl cks src (tunnel_ip config) options inner.ECHO_REQUEST code icks rest) in
  linked dk (device node) sk sb ak ab ->
  Z.shiftr v 4 = 4 -> Z.land v 0x0f * 4 = 20 + len options -> len h = 7 ->
  map len [cks; src; tunnel_ip config; icks] = [2; 4; 4; 2] -> 4 <= len rest -> bytes_ok packet ->
  packet_len packet = Some (len packet) -> len packet <= INNER_MTU ->
  is_usable sk t = true -> is_usable sk t' = true -> send_counter sk + 1 < REJECT_AFTER_MESSAGES ->
  (forall i, (i < 3)%nat -> is_usable sb (clk (i + ticks node)%nat) = true) -> send_counter sb + 1 < REJECT_AFTER_MESSAGES ->
  len out = MAX_DATAGRAM_LEN -> len reply_ = MAX_DATAGRAM_LEN -> len out_k = MAX_DATAGRAM_LEN -> len out_k' = MAX_DATAGRAM_LEN ->
  exists datagram answer node' dk' dk'' cks' icks',
    let reply := concat (icmp_fields v h 64 cks' (tunnel_ip config) src options inner.ECHO_REPLY code icks' rest) in
    Device.encapsulate dk 0 packet t out_k = (dk', Ok (Send 0 datagram)) /\
    respond_turn clk config out reply_ (Some (datagram, from)) node = (node', [(answer, from)], Ok tt) /\
    Device.handle_udp dk' answer t' tape out_k' = (dk'', tape, Ok (Receive 0 reply)) /\
    len reply = len packet /\ header_verifies reply = true /\ verifies (words_sum (zdrop (ihl reply) reply)) = true.
Proof.
  intros packet [Ta Tb Li Li' H32 H32' Lk Lk' Ca Cb Na Nb Fa Fb] Hv Hi Hh Hl Hr Hb Hip Hmtu Hua Hua' Hna Hub Hnb Ho Hre Hk1 Hk2.
  pose proof (fun o H => mtu_fits_out packet o H Hmtu) as Hfit.
  destruct (echo_reply_correct v ttl code h cks src (tunnel_ip config) options icks rest reply_) as (cks' & icks' & He & Hlen & Hvh & Hvb);
    [done..|fold packet; unfold INNER_MTU in Hmtu; lia|fold packet; rewrite Hre; change MAX_DATAGRAM_LEN with 1312; unfold INNER_MTU in Hmtu; lia|]. fold packet in He, Hlen.
  set (reply := concat (icmp_fields v h 64 cks' _ _ _ _ _ icks' _)) in *. cbv zeta in He, Hlen, Hvh, Hvb.
  destruct (talks_send dk sk ak packet t out_k Ta Hua Ca (Hfit _ Hk1)) as (dk' & Hs & Ta').
  set (k := ticks node) in *. assert (is_usable sb (clk k) = true) as Hu0 by (apply (Hub 0%nat); lia).
  destruct (talks_receive (device node) sb ab sk packet (clk k) (rng node) out Tb Hu0 Li H32 Lk) as (d1 & Hd1 & Tb1); [lia|done|done|by apply Hfit|].
  set (sb1 := confirm _) in Tb1.
  destruct (talks_send d1 sb1 _ reply (clk (S k)) (zeros MAX_DATAGRAM_LEN) Tb1) as (d2 & Hd2 & Tb2);
    [apply (Hub 1%nat); lia|done|apply mtu_fits_out; [done|lia]|].
  destruct (talks_poll d2 _ None (clk (S (S k))) out Tb2) as (d3 & Hd3 & Tb3); [|done|].
  { assert (is_usable sb (clk (S (S k))) = true) as Hu2 by (apply (Hub 2%nat); lia). unfold is_usable in *. bool_hyps.
    apply andb_true_iff. split; [done|]. apply Z.ltb_lt. cbn. lia. }
  destruct (talks_receive dk' (with_send_counter sk (send_counter sk + 1)) None sb1 reply t' tape out_k') as (dk'' & Hk & _); try done.
  { unfold is_usable in *. bool_hyps. apply andb_true_iff. split; [done|]. apply Z.ltb_lt. cbn. lia. }
  { cbn. lia. }
  { unfold reply, packet in *. rewrite (icmp_packet_len v h ttl 64 cks cks' src (tunnel_ip config) (tunnel_ip config) src options inner.ECHO_REQUEST inner.ECHO_REPLY code icks icks' rest), Hip by done. by rewrite Hlen. }
  { apply mtu_fits_out; [done|lia]. }
  exists (data_message sk packet), (data_message sb1 reply), (mkNode d3 (Some from) (rng node) (S (S (S k))) (stamps node)), dk', dk'', cks', icks'.
  fold reply. split_and!; [done| |done..].
  change (respond_turn clk config out reply_ (Some (data_message sk packet, from)) node) with
    (respond_turn clk config out reply_ (Some (data_message sk packet, from)) (mkNode (device node) (own node) (rng node) k (stamps node))).
  eapply runs_then.
  { eapply runs_step; [done|]. unfold serve. eapply runs_step; [done|]. cbn [ticks].
    eapply runs_step; [unfold runs, handle_udp; cbn [device rng own ticks stamps]; by rewrite Hd1|]. cbn [caught].
    eapply runs_step; [apply runs_lift; exact He|]. rewrite <- Hlen.
    eapply runs_step; [apply runs_lift; unfold slice; cbn [fst snd]; by rewrite get_range_front|].
    eapply runs_step; [done|]. cbn [ticks].
    eapply runs_step; [unfold runs, encapsulate; cbn [device rng own ticks stamps]; by rewrite Hd2|]. done. }
  eapply runs_step; [done|]. cbn [own respond_timers RESPONDER_PEERS]. eapply runs_step; [done|]. cbn [ticks].
  eapply runs_step; [unfold runs, poll_timers; cbn [device rng own ticks stamps]; by rewrite Hd3|]. done.
Qed.

End Theorems.

(** A datagram that is no message of the protocol redirects the responder: the
    keepalive it owes its peer goes to whoever sent it. *)
Section Stray.
Context `{P : Primitives} {POk : PrimitivesOk P} {Addr : Type}.

Theorem stray_redirects_responder (clk : nat -> Z) (config : Config) (node : Node (option Addr)) (s : Session) (since : Z)
    (stray out reply_ : bytes) (e : Error) (stranger : Addr) :
  talks (device node) s (Some since) -> confirmed s = true ->
  is_usable s (clk (S (ticks node))) = true -> keepalive_is_due (Some since) (clk (S (ticks node))) = true ->
  is_usable (with_send_counter s (send_counter s + 1)) (clk (S (S (ticks node)))) = true ->
  message_type stray = Err e -> len out = MAX_DATAGRAM_LEN ->
  exists node', respond_turn clk config out reply_ (Some (stray, stranger)) node
    = (node', [(data_message s [], stranger)], Ok tt).
Proof.
  intros (p & Hp & Hc & Ha) Hconf Hu Hd Hu' He Ho. set (k := ticks node) in *.
  assert (exists d1, Device.poll_timers (device node) (clk (S k)) out = (d1, Ok (Send 0 (data_message s []))) /\
    talks d1 (with_send_counter s (send_counter s + 1)) None) as (d1 & Hd1 & T1).
  { unfold Device.poll_timers. rewrite Hp. cbn [poll_timers_from]. rewrite expire_armed, Ha, Hd. cbn [negb].
    rewrite (expire_usable p (clk (S k)) s) by done. unfold is_confirmed. rewrite Hconf. cbn [negb].
    unfold is_usable in Hu. bool_hyps. rewrite seal_layout by (try done; by rewrite Ho). eexists. split; [done|]. by eexists. }
  destruct (talks_poll d1 _ None (clk (S (S k))) out T1 Hu' eq_refl) as (d2 & Hd2 & _).
  exists (mkNode d2 (Some stranger) (rng node) (S (S (S k))) (stamps node)).
  change (respond_turn clk config out reply_ (Some (stray, stranger)) node) with
    (respond_turn clk config out reply_ (Some (stray, stranger)) (mkNode (device node) (own node) (rng node) k (stamps node))).
  eapply runs_step.
  { eapply runs_step; [done|]. unfold serve. eapply runs_step; [done|]. cbn [ticks].
    eapply runs_step; [unfold runs, handle_udp, Device.handle_udp; cbn [device rng own ticks stamps]; by rewrite He|]. done. }
  eapply runs_step; [done|]. cbn [own respond_timers RESPONDER_PEERS]. eapply runs_step; [done|]. cbn [ticks].
  eapply runs_step; [unfold runs, poll_timers; cbn [device rng own ticks stamps]; by rewrite Hd1|]. cbn [caught].
  eapply (runs_then _ _ _ _ _ [(data_message s [], stranger)]); [done|].
  eapply runs_step; [done|]. cbn [ticks].
  eapply runs_step; [unfold runs, poll_timers; cbn [device rng own ticks stamps]; by rewrite Hd2|]. done.
Qed.

End Stray.

(** ** A pair of nodes *)

Module WgDemo.
#[local] Existing Instance Toy.prims.
#[local] Existing Instance Toy.prims_ok.

Definition clock (n : nat) : Z := 1000 + Z.of_nat n.
Definition stamp (n : nat) : bytes := harness_time.tai64n (harness_time.mkTimespec (1700000000 + Z.of_nat n) 0).
Definition buffer : bytes := zeros MAX_DATAGRAM_LEN.
Definition ip_a : bytes := [10; 0; 0; 1].
Definition ip_b : bytes := [10; 0; 0; 2].

Lemma clock_brisk : brisk clock.
Proof. intros j Hj. unfold clock, REKEY_TIMEOUT_MS. lia. Qed.

Lemma len_buffer : len buffer = MAX_DATAGRAM_LEN.
Proof. by vm_compute. Qed.

Definition config_a : Config := mkConfig (replicate 32 3) (x25519_base (replicate 32 5)) ip_a.
Definition config_b : Config := mkConfig (replicate 32 5) (x25519_base (replicate 32 3)) ip_b.

Lemma roles_connect_witness : exists a0 a1 a2 a3 b0 b1 b2 m1 m2 m3 sa sb,
  initiator config_a (to_le 4 77 ++ replicate 32 9 ++ []) = Ok a0 /\ responder config_b (to_le 4 99 ++ replicate 32 11 ++ []) = Ok b0 /\
  initiate_turn clock stamp config_a 2 buffer buffer None a0 = (a1, [(m1, 2)], Ok tt) /\
  respond_turn clock config_b buffer buffer (Some (m1, 1)) b0 = (b1, [(m2, 1)], Ok tt) /\
  initiate_turn clock stamp config_a 2 buffer buffer (Some (m2, 2)) a1 = (a2, [(m3, 2)], Ok tt) /\
  respond_turn clock config_b buffer buffer (Some (m3, 1)) b1 = (b2, [], Ok tt) /\
  initiate_turn clock stamp config_a 2 buffer buffer None a2 = (a3, [], Ok tt) /\
  own a3 = true /\ linked (device a3) (device b2) sa sb None None.
Proof.
  exact (roles_connect clock clock stamp ip_a ip_b (replicate 32 3) (replicate 32 5) (replicate 32 9) (replicate 32 11) [] []
    buffer buffer buffer buffer (replicate 32 14) (replicate 32 8) (replicate 32 20) (replicate 32 14) 77 99 1 2
    clock_brisk clock_brisk eq_refl ltac:(done) ltac:(done) eq_refl eq_refl eq_refl eq_refl eq_refl eq_refl len_buffer len_buffer).
Defined.

Definition session_b' : Session := confirm session_b.
Definition node_b : Node (option Z) :=
  mkNode (with_peers example_b (map (fun p => with_sessions p (Some session_b') None) (peers example_b))) None [] 2 0.

Lemma demo_linked : linked linked_a (device node_b) session_a session_b' None None.
Proof. split; first [by eexists | by vm_compute | by vm_compute; intuition discriminate]. Qed.

Lemma ping_answered_witness : exists datagram answer node' dk' dk'' cks' icks',
  let reply := concat (icmp_fields 0x45 [0; 0; 28; 0; 0; 0; 0] 64 cks' (tunnel_ip config_b) ip_a [] inner.ECHO_REPLY 0 icks' [0; 1; 0; 2]) in
  Device.encapsulate linked_a 0
    (concat (icmp_fields 0x45 [0; 0; 28; 0; 0; 0; 0] 9 [1; 1] ip_a (tunnel_ip config_b) [] inner.ECHO_REQUEST 0 [7; 7] [0; 1; 0; 2])) 2000 buffer
    = (dk', Ok (Send 0 datagram)) /\
  respond_turn clock config_b buffer buffer (Some (datagram, 1)) node_b = (node', [(answer, 1)], Ok tt) /\
  Device.handle_udp dk' answer 2001 [] buffer = (dk'', [], Ok (Receive 0 reply)) /\
  len reply = len (concat (icmp_fields 0x45 [0; 0; 28; 0; 0; 0; 0] 9 [1; 1] ip_a (tunnel_ip config_b) [] inner.ECHO_REQUEST 0 [7; 7] [0; 1; 0; 2])) /\
  header_verifies reply = true /\ verifies (words_sum (zdrop (ihl reply) reply)) = true.
Proof.
  apply (ping_answered clock config_b node_b linked_a session_a session_b' None None 0x45 9 0 [0; 0; 28; 0; 0; 0; 0] [1; 1] ip_a []
    [7; 7] [0; 1; 0; 2] buffer buffer buffer buffer [] 2000 2001 1 demo_linked);
    try first [reflexivity | exact len_buffer | vm_compute; discriminate | vm_compute; repeat constructor; discriminate].
  intros i Hi. destruct i as [|[|[|i]]]; [reflexivity..|lia].
Defined.

End WgDemo.
