(* ===== verification/HarnessDisco.v ===== *)
(** * The harness: probing peers

    [harness/src/disco.rs]: the candidates a network map gives, the probes sent to
    them and what is done with the packets that arrive, over [Disco.v] and the
    requests of [HarnessRequests.v]; and the choice of an address to advertise of
    [harness/src/net.rs].

    A turn of the loop takes what [select] returned: a datagram with its sender, or
    nothing when the wait ended or failed.  The clock is the sequence of the readings
    the loop makes; a generator is the tape of its bytes; what is reported to the
    suite is an effect, beside the datagrams. *)

From Stdlib Require Import Strings.String.
From S2P Require Import Prelude Effects Text Keys KeyStore StoreFile NetAddr NaClBox Json Crypto NetmapParser Disco HarnessNet HarnessH2 HarnessControl HarnessRequests.
Import keys disco.

Module harness_disco.

Module E := control_error.
Abbreviation ControlError := E.ControlError.

Definition DEFAULT_LISTEN_MS : Z := 12000.
Definition PROBE_INTERVAL_MS : Z := 1000.

(** A [SocketAddrV4]. *)
Abbreviation SocketAddrV4 := ((bytes * Z)%type).

(** How long [run] listens. *)
Definition listen_for (seconds : option Z) : Z := match seconds with Some s => s * 1000 | None => DEFAULT_LISTEN_MS end.

(** *** [UdpSocket::advertisable_address] *)

Definition is_loopback (a : bytes) : bool := match a with o :: _ => o =? 127 | [] => false end.
Definition is_unspecified (a : bytes) : bool := bytes_eqb a [0; 0; 0; 0].

(** What the routing table answered for the public address, and what it would answer
    for the control server. *)
Definition advertisable_address (public fallback : res net.NetError bytes) : res net.NetError bytes :=
  match public with
  | Ok a => if negb (is_loopback a) && negb (is_unspecified a) then Ok a else fallback
  | Err _ => fallback
  | Panic => Panic
  | Hang => Hang
  end.

(** *** Candidates *)

Record Candidate := mkCandidate { endpoint : SocketAddrV4; disco_key : DiscoPublic; tx_id : bytes }.

(** Twelve random bytes a candidate. *)
Fixpoint candidates_from (acc : list Candidate) (peers : list peer.Peer) (rng : bytes) : res ControlError (list Candidate * bytes) :=
  match peers with
  | [] => Ok (acc, rng)
  | p :: peers =>
      match peer.disco_key p, peer.direct_endpoint p with
      | Some key, Some endpoint =>
          match get_range 0 12 rng with
          | None => Hang
          | Some tx_id =>
              let acc := if len acc <? MAX_PEERS then acc ++ [mkCandidate endpoint key tx_id] else acc in
              candidates_from acc peers (zdrop 12 rng)
          end
      | _, _ => candidates_from acc peers rng
      end
  end.

(** *** The loop *)

Section Loop.
Context `{C : Curve} `{B : SalsaBox}.
Context (identity : Identity) (candidates : list Candidate) (deadline : Z).

(** The n-th reading of the clock. *)
Context (clk : nat -> Z).

Let our_disco : DiscoPublic := public (disco identity).

Record Listen := mkListen {
  packet_ : bytes; plaintext : bytes; pongs : Z; pings : Z; next_probe : Z; rng : bytes; ticks : nat }.

(** What the loop sends and reports. *)
Inductive note :=
| Datagram (data : bytes) (to : SocketAddrV4)
| PongNote (from : SocketAddrV4) (observed : SocketAddr) (txid_matches : bool)
| PingNote (from : SocketAddrV4).

Abbreviation step := (task Listen note ControlError).

Definition read_clock : step Z := fun s =>
  (mkListen (packet_ s) (plaintext s) (pongs s) (pings s) (next_probe s) (rng s) (S (ticks s)), [], Ok (clk (ticks s))).
Definition set_plaintext (x : bytes) : step unit := modify (fun s =>
  mkListen (packet_ s) x (pongs s) (pings s) (next_probe s) (rng s) (ticks s)).
Definition set_packet (x : bytes) : step unit := modify (fun s =>
  mkListen x (plaintext s) (pongs s) (pings s) (next_probe s) (zdrop NONCE_LEN (rng s)) (ticks s)).
Definition set_next_probe (x : Z) : step unit := modify (fun s =>
  mkListen (packet_ s) (plaintext s) (pongs s) (pings s) x (rng s) (ticks s)).
Definition count_pong : step unit := modify (fun s =>
  mkListen (packet_ s) (plaintext s) (pongs s + 1) (pings s) (next_probe s) (rng s) (ticks s)).
Definition count_ping : step unit := modify (fun s =>
  mkListen (packet_ s) (plaintext s) (pongs s) (pings s + 1) (next_probe s) (rng s) (ticks s)).

(** Encode, seal and send: the body of the probe and of the answer.  Whether the
    datagram could be sent is ignored. *)
Definition send_message (m : message.Message) (recipient : DiscoPublic) (to : SocketAddrV4) : step unit :=
  text ← gets plaintext;
  '(text, n) ← lift (map_err E.Disco (message.encode m text));
  set_plaintext text ;;
  plain ← lift (slice (0, n) text);
  tape ← gets rng;
  buffer ← gets packet_;
  '(buffer, total) ← lift (map_err E.Disco (packet.seal (disco identity) our_disco recipient plain tape buffer));
  set_packet buffer ;;
  data ← lift (slice (0, total) buffer);
  emit (Datagram data to).

Fixpoint probe (l : list Candidate) : step unit :=
  match l with
  | [] => mret tt
  | c :: l =>
      send_message (message.MPing (message.mkPing (tx_id c) (Some (public (node identity))))) (disco_key c) (endpoint c) ;;
      probe l
  end.

(** What a packet that opened is answered with: its last [match]. *)
Definition answer (claimed : DiscoPublic) (candidate : Candidate) (from : SocketAddrV4) (decoded : disco.Error + message.Message)
  : step unit :=
  match decoded with
  | inr (message.MPong pong) =>
      count_pong ;;
      emit (PongNote from (message.src pong) (bytes_eqb (message.pong_tx_id pong) (tx_id candidate)))
  | inr (message.MPing ping) =>
      count_ping ;;
      send_message (message.MPong (message.mkPong (message.ping_tx_id ping) (Sock4 from.1 from.2))) claimed from ;;
      emit (PingNote from)
  | inr (message.MCall _) | inl _ => mret tt
  end.

(** A datagram arrived. *)
Definition hear (incoming : bytes) (from : SocketAddrV4) : step unit :=
  if negb (is_disco incoming) then mret tt else
  match packet.sender_key incoming with
  | Err _ => mret tt
  | Panic => lift Panic
  | Hang => lift Hang
  | Ok claimed =>
      match find (fun c => public_eq (as_bytes (disco_key c)) (as_bytes claimed)) candidates with
      | None => mret tt
      | Some candidate =>
          text ← gets plaintext;
          let (text, opened) := packet.open (disco identity) (disco_key candidate) incoming text in
          set_plaintext text ;;
          opened ← lift (caught opened);
          match opened with
          | inl _ => mret tt
          | inr opened =>
              plain ← lift (slice (0, packet.opened_len opened) text);
              decoded ← lift (caught (message.decode plain));
              answer claimed candidate from decoded
          end
      end
  end.

(** One turn: whether the loop goes on. *)
Definition turn (received : option (bytes * SocketAddrV4)) : step bool :=
  t ← read_clock;
  if negb (t <? deadline) then mret false else
  t ← read_clock;
  due ← gets next_probe;
  (if due <=? t then t ← read_clock; set_next_probe (t + PROBE_INTERVAL_MS) ;; probe candidates else mret tt) ;;
  match received with
  | Some (incoming, from) => hear incoming from
  | None => mret tt
  end ;;
  mret true.

(** The loop over what [select] returns each time; what it returns last is that the
    deadline has passed. *)
Fixpoint listen (events : list (option (bytes * SocketAddrV4))) : step unit :=
  match events with
  | [] => lift Hang
  | r :: events => go ← turn r; if (go : bool) then listen events else mret tt
  end.

Definition start (tape : bytes) : Listen := mkListen (zeros packet.MAX_PACKET) (zeros packet.MAX_PACKET) 0 0 0 tape 0.

End Loop.

(** ** The exchange *)

(** What the UDP socket and the routing table answer. *)
Record Udp := mkUdp {
  udp_bind : res net.NetError unit;
  udp_local : res net.NetError SocketAddrV4;
  route_public : res net.NetError bytes;
  route_server : res net.NetError bytes }.

Section Exchange.
Context `{P : Primitives} `{C : Curve} `{B : SalsaBox} (USIZE_BITS : Z).
Context {W : Type} `{OS : file_store.Posix W} (patience : nat) (pkg_version : bytes).
Context (clk : nat -> Z).
Import harness_control.

(** The endpoint that is advertised, as text. *)
Definition advertised (udp : Udp) : res ControlError bytes :=
  let! _ := map_err E.Net (udp_bind udp) in
  let! '(_, port) := map_err E.Net (udp_local udp) in
  let! ip := map_err E.Net (advertisable_address (route_public udp) (route_server udp)) in
  write_host ip port.

(** Up to the candidates: their list and what is left of the generator. *)
Definition prepare (w : W) (o : Outside) (udp : Udp) (first_tape second_tape tape state_dir address : bytes) (port : Z)
    (hostname : bytes) : W * res ControlError (Identity * list Candidate * bytes) :=
  then_ (open_store w state_dir) (fun w fs =>
  then_ (load_identity patience w fs first_tape) (fun w '(identity, _) =>
  then_ (w, advertised udp) (fun w text =>
  then_ (harness_requests.load_netmap USIZE_BITS patience pkg_version w o second_tape state_dir address port hostname [text]) (fun w m =>
  (w, let! '(l, tape) := candidates_from [] (parser.peers m) tape in Ok (identity, l, tape)))))).

(** The pongs received, the pings answered and the candidates, unless there were
    none. *)
Definition exchange (w : W) (o : Outside) (udp : Udp) (first_tape second_tape tape state_dir address : bytes) (port : Z)
    (hostname : bytes) (listen_ms : Z) (events : list (option (bytes * SocketAddrV4)))
  : W * list note * res ControlError (option (Z * Z * Z)) :=
  match prepare w o udp first_tape second_tape tape state_dir address port hostname with
  | (w, Ok (identity, l, tape)) =>
      if len l =? 0 then (w, [], Ok None) else
      let deadline := clk 0%nat + listen_ms in
      let '(s, notes, r) := listen identity l deadline (fun n => clk (S n)) events (start tape) in
      (w, notes, let! _ := r in Ok (Some (pongs s, pings s, len l)))
  | (w, Err e) => (w, [], Err e)
  | (w, Panic) => (w, [], Panic)
  | (w, Hang) => (w, [], Hang)
  end.

End Exchange.
End harness_disco.
