(* ===== verification/HarnessDiscoTheorems.v ===== *)
(** * The harness: probes are answered

    What the loop of [HarnessDisco.v] sends and hears: a probe of one node is answered
    by another and the answer is recognised; whatever arrives, a turn completes and
    sends only where it may. *)

From Stdlib Require Import Strings.String.
From S2P Require Import Prelude Crypto Keys KeyStore StoreFile NetAddr Text NaClBox Disco DiscoFacts HarnessNet Json HarnessH2 Effects HarnessControl HarnessRequests HarnessDisco.

Import keys disco harness_disco.

(** A box opens bytes to bytes. *)
Class ByteBox (B : SalsaBox) := {
  box_open_bytes p s n c t m : bytes_ok c -> box_open p s n c t = Some m -> bytes_ok m;
}.

#[export] Instance toy_box_bytes : ByteBox ToyBox.box.
Proof. split. intros p s n c t m Hc H. simpl in H. case_if; by simplify_eq. Qed.

Section Loop.
Context `{C : Curve} {COk : CurveOk C} `{B : SalsaBox} {BOk : SalsaBoxOk B C}.
Context (identity : Identity) (candidates : list Candidate) (deadline : Z) (clk : nat -> Z).

(** The buffers of the loop. *)
Definition listen_ok (s : Listen) : Prop := len (packet_ s) = packet.MAX_PACKET /\ len (plaintext s) = packet.MAX_PACKET.

(** The state once a message was sealed: the buffers filled, the nonce drawn. *)
Definition sealed_state (s : Listen) (data plain : bytes) : Listen :=
  mkListen (data ++ zdrop (len data) (packet_ s)) (plain ++ zdrop (len plain) (plaintext s)) (pongs s) (pings s) (next_probe s)
    (zdrop NONCE_LEN (rng s)) (ticks s).

Lemma sealed_state_ok s data plain : listen_ok s -> len data <= packet.MAX_PACKET -> len plain <= packet.MAX_PACKET ->
  listen_ok (sealed_state s data plain).
Proof. intros [Hp Ht] Hd Hl. split; cbn [sealed_state packet_ plaintext]; rewrite len_app, len_zdrop; nonneg_lens; lia. Qed.

(** Encoding, sealing and sending. *)
Lemma runs_send_message m recipient to s :
  message_ok m -> listen_ok s -> NONCE_LEN <= len (rng s) ->
  exists c t, box_seal (as_bytes recipient) (to_bytes (disco identity)) (ztake NONCE_LEN (rng s)) (message_bytes m) = Some (c, t) /\
    len c = len (message_bytes m) /\ len t = 16 /\
    let data := packet_bytes (as_bytes (public (disco identity))) (ztake NONCE_LEN (rng s)) t c in
    len data <= packet.MAX_PACKET /\
    runs (send_message identity m recipient to) s (sealed_state s data (message_bytes m)) [Datagram data to] tt.
Proof.
  intros Hm [Hp Ht] Hr. pose proof (message_bytes_bound m Hm) as Hb. unfold packet.MAX_PACKET in *.
  destruct (seal_ok (disco identity) (public (disco identity)) recipient (message_bytes m) (rng s) (packet_ s))
    as (c & t & Hs & Hc & Ht' & Hseal); [apply len_public|done|].
  exists c, t. do 3 (split; [done|]). set (data := packet_bytes _ _ _ _).
  assert (len data = 78 + len c) as Hd.
  { unfold data, packet_bytes. rewrite !len_app. change (len MAGIC) with 6. cbn [public as_bytes]. rewrite len_public.
    unfold NONCE_LEN in *. rewrite len_ztake. lia. }
  split; [nonneg_lens; lia|]. unfold send_message.
  eapply runs_step; [done|]. eapply runs_step; [apply runs_lift; rewrite encode_ok by done; unfold placed;
    rewrite (proj2 (Z.leb_le _ _)) by lia; reflexivity|]. cbn [map_err].
  eapply runs_step; [done|]. eapply runs_step; [apply runs_lift; unfold slice; cbn [fst snd]; by rewrite get_range_front|].
  eapply runs_step; [done|]. eapply runs_step; [done|]. cbn [rng packet_].
  eapply runs_step; [apply runs_lift; fold data in Hseal; rewrite Hseal; unfold placed;
    rewrite (proj2 (Z.leb_le _ _)) by (nonneg_lens; lia); reflexivity|].
  eapply runs_step; [done|]. eapply runs_step; [apply runs_lift; unfold slice; cbn [fst snd]; by rewrite get_range_front|].
  done.
Qed.

(** Hearing a packet sealed for us by a node we know. *)
Lemma runs_hear (other : Private Disco) candidate plain nonce c t from s s' es :
  find (fun c => public_eq (as_bytes (disco_key c)) (as_bytes (public other))) candidates = Some candidate ->
  box_seal (as_bytes (public (disco identity))) (to_bytes other) nonce plain = Some (c, t) ->
  len nonce = 24 -> len t = 16 -> len c = len plain -> len plain <= len (plaintext s) ->
  (let s1 := mkListen (packet_ s) (plain ++ zdrop (len plain) (plaintext s)) (pongs s) (pings s) (next_probe s) (rng s) (ticks s) in
   exists d, caught (F := ControlError) (message.decode plain) = Ok d /\
     runs (answer identity (public other) candidate from d) s1 s' es tt) ->
  runs (hear identity candidates (packet_bytes (as_bytes (public other)) nonce t c) from) s s' es tt.
Proof.
  intros Hf Hs Hn Ht Hc Hl (d & Hd & Ha). unfold hear. rewrite packet_is_disco. cbn [negb].
  assert (len (as_bytes (public other)) = 32) as Hk by apply len_public.
  destruct (open_fields (disco identity) (disco_key candidate) _ nonce t c (plaintext s) Hk Hn Ht) as [Hsender Hopen].
  rewrite Hsender. change (from_bytes (as_bytes (public other))) with (public other) in *. rewrite Hf.
  eapply runs_step; [done|]. rewrite Hopen. apply find_some in Hf as [_ Heq]. rewrite public_eq_sym, Heq. cbn [negb].
  rewrite (proj2 (Z.ltb_ge _ _)) by lia.
  cbn [public as_bytes] in Hs |- *. unfold to_bytes in Hs |- *. rewrite (box_opens _ _ _ _ _ _ Hs). rewrite Hc.
  eapply runs_step; [done|]. eapply runs_step; [done|]. cbn [packet.opened_len].
  eapply runs_step; [apply runs_lift; unfold slice; cbn [fst snd]; by rewrite get_range_front|].
  eapply runs_step; [apply runs_lift; exact Hd|]. exact Ha.
Qed.

(** ** Probes *)

Definition probe_message (c : Candidate) : message.Message :=
  message.MPing (message.mkPing (tx_id c) (Some (public (node identity)))).

Definition candidate_ok (c : Candidate) : Prop := len (tx_id c) = 12 /\ bytes_ok (tx_id c).

Lemma probe_message_ok c : candidate_ok c -> message_ok (probe_message c).
Proof. intros [Hl Hb]. split_and!; [done|done|]. split; cbn [public as_bytes]; [apply len_public|apply public_bytes_ok]. Qed.

(** A datagram that carries a message sealed for a key. *)
Definition carries_message (recipient : DiscoPublic) (m : message.Message) (data : bytes) : Prop :=
  exists nonce c t, len nonce = 24 /\ len t = 16 /\ len c = len (message_bytes m) /\
    box_seal (as_bytes recipient) (to_bytes (disco identity)) nonce (message_bytes m) = Some (c, t) /\
    data = packet_bytes (as_bytes (public (disco identity))) nonce t c /\ len data <= packet.MAX_PACKET.

(** What sending leaves alone. *)
Definition undisturbed (s s' : Listen) : Prop :=
  pongs s' = pongs s /\ pings s' = pings s /\ next_probe s' = next_probe s /\ ticks s' = ticks s.

Lemma runs_sends m recipient to s : message_ok m -> listen_ok s -> NONCE_LEN <= len (rng s) ->
  exists s' data, runs (send_message identity m recipient to) s s' [Datagram data to] tt /\ carries_message recipient m data /\
    listen_ok s' /\ undisturbed s s' /\ rng s' = zdrop NONCE_LEN (rng s).
Proof.
  intros Hm Hs Hr. pose proof (message_bytes_bound m Hm) as Hb.
  destruct (runs_send_message m recipient to s Hm Hs Hr) as (c & t & Hbox & Hc & Ht & Hd & Hrun).
  do 2 eexists. split; [exact Hrun|]. split_and!; [|apply sealed_state_ok; [done|done|unfold packet.MAX_PACKET; lia]|done|done].
  exists (ztake NONCE_LEN (rng s)), c, t. unfold NONCE_LEN in *. split_and!; try done. rewrite len_ztake. lia.
Qed.

Lemma runs_probe l s : Forall candidate_ok l -> listen_ok s -> NONCE_LEN * len l <= len (rng s) ->
  exists s' datas, runs (probe identity l) s s' (zip_with (fun c data => Datagram data (endpoint c)) l datas) tt /\
    Forall2 (fun c data => carries_message (disco_key c) (probe_message c) data) l datas /\
    listen_ok s' /\ undisturbed s s' /\ len (rng s') = len (rng s) - NONCE_LEN * len l.
Proof.
  intros Hl. revert s. induction Hl as [|c l Hc _ IH]; intros s Hs Hr.
  - exists s, []. split; [done|]. split; [constructor|]. split; [done|]. split; [done|]. change (len (@nil Candidate)) with 0. lia.
  - rewrite len_cons in Hr. unfold NONCE_LEN in *.
    destruct (runs_sends (probe_message c) (disco_key c) (endpoint c) s) as (s1 & data & R1 & Hd & H1 & U1 & T1);
      [by apply probe_message_ok|done|unfold NONCE_LEN; nonneg_lens; lia|].
    assert (len (rng s1) = len (rng s) - 24) as L1 by (rewrite T1; unfold NONCE_LEN; rewrite len_zdrop; nonneg_lens; lia).
    destruct (IH s1 H1) as (s2 & datas & R2 & Hds & H2 & U2 & T2); [lia|].
    exists s2, (data :: datas). split_and!; [|by constructor|done| |rewrite len_cons; lia].
    + cbn [probe zip_with]. change (Datagram data (endpoint c) :: ?x) with ([Datagram data (endpoint c)] ++ x).
      eapply runs_bind; [exact R1|exact R2].
    + destruct U1 as (A1 & A2 & A3 & A4), U2 as (B1 & B2 & B3 & B4). split_and!; congruence.
Qed.

(** A turn in which no probe is due. *)
Lemma turn_waits received s s' es :
  clk (ticks s) < deadline -> clk (S (ticks s)) < next_probe s ->
  runs (match received with Some (incoming, from) => hear identity candidates incoming from | None => mret tt end)
    (mkListen (packet_ s) (plaintext s) (pongs s) (pings s) (next_probe s) (rng s) (S (S (ticks s)))) s' es tt ->
  runs (turn identity candidates deadline clk received) s s' es true.
Proof.
  intros Hd Hn Hr. unfold turn. eapply runs_step; [done|]. rewrite (proj2 (Z.ltb_lt _ _)) by done. cbn [negb].
  eapply runs_step; [done|]. eapply runs_step; [done|]. cbn [next_probe ticks].
  rewrite (proj2 (Z.leb_gt _ _)) by done. eapply runs_step; [done|]. eapply runs_then; [exact Hr|done].
Qed.

(** A turn in which the probes are due and nothing arrives. *)
Lemma turn_probes s :
  Forall candidate_ok candidates -> listen_ok s -> NONCE_LEN * len candidates <= len (rng s) ->
  clk (ticks s) < deadline -> next_probe s <= clk (S (ticks s)) ->
  exists s' datas, runs (turn identity candidates deadline clk None) s s'
      (zip_with (fun c data => Datagram data (endpoint c)) candidates datas) true /\
    Forall2 (fun c data => carries_message (disco_key c) (probe_message c) data) candidates datas /\
    listen_ok s' /\ pongs s' = pongs s /\ pings s' = pings s /\
    next_probe s' = clk (S (S (ticks s))) + PROBE_INTERVAL_MS /\ ticks s' = (3 + ticks s)%nat /\
    len (rng s') = len (rng s) - NONCE_LEN * len candidates.
Proof.
  intros Hc Hs Hr Hd Hn.
  set (s1 := mkListen (packet_ s) (plaintext s) (pongs s) (pings s) (clk (S (S (ticks s))) + PROBE_INTERVAL_MS) (rng s) (S (S (S (ticks s))))).
  destruct (runs_probe candidates s1 Hc Hs Hr) as (s' & datas & R & Hds & Hs' & (U1 & U2 & U3 & U4) & T).
  exists s', datas. split_and!; [|done..]. unfold turn. eapply runs_step; [done|]. rewrite (proj2 (Z.ltb_lt _ _)) by done. cbn [negb].
  eapply runs_step; [done|]. eapply runs_step; [done|]. cbn [next_probe ticks]. rewrite (proj2 (Z.leb_le _ _)) by done.
  eapply runs_then; [|done]. eapply runs_step; [done|]. eapply runs_step; [done|]. exact R.
Qed.

End Loop.

(** * The harness: a path is found

    A probe crosses two nodes and comes back, and whatever arrives in between, the
    loop of [HarnessDisco.v] goes on. *)

Import keys disco harness_disco.

Section Exchange.
Context `{C : Curve} {COk : CurveOk C} `{B : SalsaBox} {BOk : SalsaBoxOk B C}.

(** Where a candidate is found by its key. *)
Definition known (l : list Candidate) (key : DiscoPublic) : option Candidate :=
  find (fun c => public_eq (as_bytes (disco_key c)) (as_bytes key)) l.

Lemma known_in l key c : known l key = Some c -> c ∈ l.
Proof. intros H. apply find_some in H as [H _]. by apply list_elem_of_In. Qed.

(** What a node that hears a message of another does with it. *)
Lemma hear_message ia ib lb (m : message.Message) data c from s :
  carries_message ia (public (disco ib)) m data -> message_ok m -> listen_ok s -> known lb (public (disco ia)) = Some c ->
  exists s1, listen_ok s1 /\ undisturbed s s1 /\ rng s1 = rng s /\
    forall s' es, runs (answer ib (public (disco ia)) c from (inr (canonical_message m))) s1 s' es tt ->
      runs (hear ib lb data from) s s' es tt.
Proof.
  intros (nonce & b & t & Hn & Ht & Hc & Hbox & -> & _) Hm [Hp Hl] Hk. pose proof (message_bytes_bound m Hm) as Hb.
  unfold packet.MAX_PACKET in *.
  set (s1 := mkListen (packet_ s) (message_bytes m ++ zdrop (len (message_bytes m)) (plaintext s)) (pongs s) (pings s) (next_probe s) (rng s) (ticks s)).
  assert (listen_ok s1) as H1 by (split; [done|]; cbn [s1 plaintext]; rewrite len_app, len_zdrop; unfold packet.MAX_PACKET; nonneg_lens; lia).
  exists s1. split_and!; [done|done|done|]. intros s' es Ha. eapply (runs_hear ib lb (disco ia) c (message_bytes m)); try done; [lia|].
  exists (inr (canonical_message m)). split; [by rewrite decode_bytes|]. exact Ha.
Qed.

(** C19: A probe finds the path.  When it is time, node [a] sends one datagram to every
    candidate.  The one for node [b], arriving from any address, makes [b] (which
    knows [a]'s key) answer to that address with one datagram; and that answer,
    arriving at [a], is counted as a pong from [b]'s candidate, with the transaction
    matching and the address [b] saw reported. *)
Theorem probe_comes_back (ia ib : Identity) (la lb : list Candidate) (da db : Z) (clk_a clk_b : nat -> Z)
    (sa sb : Listen) (ca cb : Candidate) (from from' : SocketAddrV4) :
  Forall candidate_ok la -> listen_ok sa -> listen_ok sb ->
  NONCE_LEN * len la <= len (rng sa) -> NONCE_LEN <= len (rng sb) ->
  known la (public (disco ib)) = Some ca -> disco_key ca = public (disco ib) -> known lb (public (disco ia)) = Some cb ->
  addr_ok (Sock4 from.1 from.2) ->
  clk_a (ticks sa) < da -> next_probe sa <= clk_a (S (ticks sa)) ->
  clk_b (ticks sb) < db -> clk_b (S (ticks sb)) < next_probe sb ->
  clk_a (3 + ticks sa)%nat < da -> clk_a (4 + ticks sa)%nat < clk_a (2 + ticks sa)%nat + PROBE_INTERVAL_MS ->
  exists sa' sb' sa'' probes ping pong,
    turn ia la da clk_a None sa = (sa', probes, Ok true) /\ len probes = len la /\ Datagram ping (endpoint ca) ∈ probes /\
    turn ib lb db clk_b (Some (ping, from)) sb = (sb', [Datagram pong from; PingNote from], Ok true) /\ pings sb' = pings sb + 1 /\
    turn ia la da clk_a (Some (pong, from')) sa' = (sa'', [PongNote from' (Sock4 from.1 from.2) true], Ok true) /\
    pongs sa'' = pongs sa + 1.
Proof.
  intros Hla Hsa Hsb Hra Hrb Hka Hkey Hkb Haddr Ht1 Ht2 Ht3 Ht4 Ht5 Ht6.
  destruct (turn_probes ia la da clk_a sa Hla Hsa Hra Ht1 Ht2) as (sa' & datas & R1 & Hds & Hsa' & P1 & P2 & P3 & P4 & _).
  pose proof Hka as (i & Hi)%known_in%list_elem_of_lookup_1.
  destruct (Forall2_lookup_l _ _ _ _ _ Hds Hi) as (ping & Hping & Hcarry). rewrite Hkey in Hcarry.
  assert (candidate_ok ca) as Hca by (by eapply Forall_lookup_1).
  set (sb1 := mkListen (packet_ sb) (plaintext sb) (pongs sb) (pings sb) (next_probe sb) (rng sb) (S (S (ticks sb)))).
  destruct (hear_message ia ib lb (probe_message ia ca) ping cb from sb1 Hcarry) as (sb2 & Hsb2 & (U1 & U2 & U3 & U4) & Hrng & Hhear);
    [by apply probe_message_ok|done|done|].
  set (m := message.MPong (message.mkPong (tx_id ca) (Sock4 from.1 from.2))).
  set (sb3 := mkListen (packet_ sb2) (plaintext sb2) (pongs sb2) (pings sb2 + 1) (next_probe sb2) (rng sb2) (ticks sb2)).
  assert (message_ok m) as Hm by (destruct Hca; by split_and!).
  destruct (runs_sends ib m (public (disco ia)) from sb3 Hm) as (sb4 & pong & R3 & Hpong & Hsb4 & (V1 & V2 & V3 & V4) & _);
    [done|cbn [sb3 rng]; rewrite Hrng; done|].
  set (sa1 := mkListen (packet_ sa') (plaintext sa') (pongs sa') (pings sa') (next_probe sa') (rng sa') (S (S (ticks sa')))).
  destruct (hear_message ib ia la m pong ca from' sa1 Hpong Hm) as (sa2 & Hsa2 & (W1 & W2 & W3 & W4) & _ & Hhear'); [done|done|].
  exists sa', sb4, (mkListen (packet_ sa2) (plaintext sa2) (pongs sa2 + 1) (pings sa2) (next_probe sa2) (rng sa2) (ticks sa2)).
  eexists _, ping, pong. split; [exact R1|]. split; [|split; [|split; [|split; [|split]]]].
  - unfold len. rewrite length_zip_with. apply Forall2_length in Hds. lia.
  - apply list_elem_of_lookup. exists i. rewrite lookup_zip_with, Hi, Hping. done.
  - apply turn_waits; [done|done|]. apply Hhear. cbn [canonical_message probe_message answer message.ping_tx_id].
    eapply runs_step; [done|]. eapply (runs_bind _ _ _ sb4 _ [Datagram pong from] [PingNote from]); [exact R3|done].
  - rewrite V2. cbn. rewrite U2. done.
  - apply turn_waits; [by rewrite P4|rewrite P4, P3; exact Ht6|]. apply Hhear'. cbn [canonical_message m answer message.pong_tx_id].
    eapply runs_step; [done|]. cbn [message.pong_tx_id message.src canonical]. rewrite bytes_eqb_refl. done.
  - cbn. rewrite W1. cbn. by rewrite P1.
Qed.

(** ** Whatever arrives *)

Context {BB : ByteBox B}.

(** A datagram that opens, under the key of a known candidate, to a message. *)
Definition opens_to ident l (incoming : bytes) (c : Candidate) (claimed : DiscoPublic) (m : message.Message) : Prop :=
  packet.sender_key incoming = Ok claimed /\ known l claimed = Some c /\
  exists buffer text o, packet.open (disco ident) (disco_key c) incoming buffer = (text, Ok o) /\
    message.decode (ztake (packet.opened_len o) text) = Ok m.

(** What a turn does about what it received: nothing; it reports a pong of a
    candidate; or it answers the ping of a candidate with one datagram to where it
    came from, the pong with that address sealed for the candidate, and reports it. *)
Inductive replies ident l : option (bytes * SocketAddrV4) -> list note -> Prop :=
| reply_nothing r : replies ident l r []
| reply_pong incoming from c claimed pong :
    opens_to ident l incoming c claimed (message.MPong pong) ->
    replies ident l (Some (incoming, from)) [PongNote from (message.src pong) (bytes_eqb (message.pong_tx_id pong) (tx_id c))]
| reply_ping incoming from c claimed ping data :
    opens_to ident l incoming c claimed (message.MPing ping) ->
    carries_message ident claimed (message.MPong (message.mkPong (message.ping_tx_id ping) (Sock4 from.1 from.2))) data ->
    replies ident l (Some (incoming, from)) [Datagram data from; PingNote from].

(** An answer to a message, whatever it is. *)
Lemma answer_returns ident claimed c from d s :
  listen_ok s -> NONCE_LEN <= len (rng s) -> addr_ok (Sock4 from.1 from.2) ->
  match d with inr m => message_ok m | inl _ => True end ->
  exists s' es, runs (answer ident claimed c from d) s s' es tt /\ listen_ok s' /\
    match d with
    | inr (message.MPong pong) => es = [PongNote from (message.src pong) (bytes_eqb (message.pong_tx_id pong) (tx_id c))]
    | inr (message.MPing ping) => exists data, es = [Datagram data from; PingNote from] /\
        carries_message ident claimed (message.MPong (message.mkPong (message.ping_tx_id ping) (Sock4 from.1 from.2))) data
    | _ => es = []
    end.
Proof.
  intros Hs Hr Ha Hd. destruct d as [e|[ping|pong|call]]; cbn [answer].
  - exists s, []. by split_and!.
  - set (s1 := mkListen (packet_ s) (plaintext s) (pongs s) (pings s + 1) (next_probe s) (rng s) (ticks s)).
    set (m := message.MPong (message.mkPong (message.ping_tx_id ping) (Sock4 from.1 from.2))).
    destruct (runs_sends ident m claimed from s1) as (s2 & data & R & Hc & H2 & _);
      [destruct Hd as (? & ? & _); by split_and!|done|done|].
    exists s2, ([Datagram data from] ++ [PingNote from]). split_and!; [|done|by exists data].
    eapply runs_step; [done|]. eapply runs_bind; [exact R|done].
  - do 2 eexists. split_and!; [eapply runs_step; done|done|done].
  - exists s, []. by split_and!.
Qed.

Lemma hear_returns ident l incoming from s :
  bytes_ok incoming -> listen_ok s -> NONCE_LEN <= len (rng s) -> addr_ok (Sock4 from.1 from.2) ->
  exists s' es, runs (hear ident l incoming from) s s' es tt /\ listen_ok s' /\ replies ident l (Some (incoming, from)) es.
Proof.
  intros Hb Hs Hr Ha. unfold hear.
  assert (exists s' es, runs (F := ControlError) (mret tt) s s' es tt /\ listen_ok s' /\ replies ident l (Some (incoming, from)) es) as Hdone
    by (exists s, []; split_and!; try done; constructor).
  destruct (is_disco incoming) eqn:Ed; [|done]. cbn [negb]. destruct (decide (78 <= len incoming)) as [Hl|Hl].
  2:{ unfold packet.sender_key. change (HEADER_LEN + TAG_LEN) with 78. rewrite (proj2 (Z.ltb_lt _ _)) by lia. by rewrite orb_true_r. }
  destruct (packet_shape incoming Ed Hl) as (key & nonce & t & sealed & -> & Hk & Hn & Ht).
  destruct (open_fields (disco ident) (public (disco ident)) key nonce t sealed [] Hk Hn Ht) as [Hsk _]. rewrite Hsk. destruct (find _ l) as [c|] eqn:Ec; [|done].
  destruct (open_fields (disco ident) (disco_key c) key nonce t sealed (plaintext s) Hk Hn Ht) as [_ Ho].
  assert (forall text r, packet.open (disco ident) (disco_key c) (packet_bytes key nonce t sealed) (plaintext s) = (text, r) ->
    len text = packet.MAX_PACKET /\ ((exists e, r = Err e) \/ exists o, r = Ok o /\ 0 <= packet.opened_len o <= len text /\
      bytes_ok (ztake (packet.opened_len o) text))) as Hopen.
  { intros text r. rewrite Ho. destruct Hs as [_ Hpl]. unfold packet_bytes in Hb. rewrite !bytes_ok_app in Hb.
    case_if; [intros [= <- <-]; eauto|]. case_if; [intros [= <- <-]; eauto|]. bool_hyps.
    destruct (box_open _ _ _ _ _) as [m|] eqn:Em; intros [= <- <-].
    - pose proof (len_box_open _ _ _ _ _ _ Em) as Hm. assert (bytes_ok m) as Bm by (eapply box_open_bytes; [|exact Em]; tauto).
      split; [rewrite len_app, len_zdrop; nonneg_lens; lia|]. right. eexists. split; [done|]. cbn [packet.opened_len].
      rewrite ztake_app_len by lia. split; [rewrite len_app, len_zdrop; nonneg_lens; lia|done].
    - split; [rewrite len_app, len_zdrop; nonneg_lens; lia|]. left. by eexists. }
  destruct (packet.open _ _ _ (plaintext s)) as [text r] eqn:Eo. destruct (Hopen text r eq_refl) as [Htext Hcase].
  set (s1 := mkListen (packet_ s) text (pongs s) (pings s) (next_probe s) (rng s) (ticks s)).
  assert (listen_ok s1) as Hs1 by (destruct Hs; by split).
  destruct Hcase as [[e ->]|(o & -> & Hlen & Bt)].
  - exists s1, []. split_and!; [|done|constructor]. eapply runs_step; [done|]. rewrite Eo. done.
  - set (plain := ztake (packet.opened_len o) text).
    assert (exists d, caught (F := ControlError) (message.decode plain) = Ok d /\ match d with inr m => message_ok m | inl _ => True end)
      as (d & Hd & Hdok).
    { pose proof (disco_decode_typed plain Bt) as Hd. destruct (message.decode plain) as [m|e| |]; [exists (inr m)|exists (inl e)| |]; done. }
    destruct (answer_returns ident (from_bytes key) c from d s1 Hs1 Hr Ha Hdok) as (s' & es & R & Hs' & He).
    exists s', es. split_and!; [|done|]; cycle 1.
    { assert (forall m, d = inr m -> opens_to ident l (packet_bytes key nonce t sealed) c (from_bytes key) m) as Hm.
      { intros m ->. split; [done|]. split; [exact Ec|]. exists (plaintext s), text, o. split; [done|].
        fold plain. by destruct (message.decode plain); simplify_eq/=. }
      destruct d as [e|[ping|pong|call]].
      - subst es. constructor.
      - destruct He as (data & -> & Hc). by eapply reply_ping; [apply Hm|].
      - subst es. by eapply reply_pong, Hm.
      - subst es. constructor. }
    eapply runs_step; [done|]. rewrite Eo.
    eapply runs_step; [done|]. eapply runs_step; [done|].
    eapply runs_step; [apply runs_lift; unfold slice; cbn [fst snd]; rewrite get_range_in by lia; done|].
    eapply runs_step; [apply runs_lift|exact R]. unfold sub_range. rewrite zdrop_0, Z.sub_0_r by lia. exact Hd.
Qed.

Lemma replies_two ident l incoming from reply :
  replies ident l (Some (incoming, from)) reply -> length reply = 2%nat ->
  exists data, reply = [Datagram data from; PingNote from].
Proof. intros Hr Hl. inversion Hr; subst; try done. by eexists. Qed.

(** C20: Nothing that arrives stops the loop.  Whatever datagram a turn is given, from
    whatever address, it returns without an error or a panic and keeps its buffers,
    provided the generator has a nonce for every candidate and one more; it goes on
    exactly until the deadline.  All it sends is, if the probes are due, one datagram
    to each candidate, the ping for it, sealed for its key; and then at most one
    more, only if the datagram it was given opens under a candidate's key to a ping:
    the pong for that ping, sealed for the sender's key, to where it came from. *)
Theorem turn_always_completes (ident : Identity) (l : list Candidate) (deadline : Z) (clk : nat -> Z) (s : Listen)
    (received : option (bytes * SocketAddrV4)) :
  Forall candidate_ok l -> listen_ok s -> NONCE_LEN * (len l + 1) <= len (rng s) ->
  match received with Some (incoming, from) => bytes_ok incoming /\ addr_ok (Sock4 from.1 from.2) | None => True end ->
  let on := clk (ticks s) <? deadline in
  exists s' probes reply, turn ident l deadline clk received s = (s', probes ++ reply, Ok on) /\ listen_ok s' /\
    (if on && (next_probe s <=? clk (S (ticks s)))
     then exists datas, Forall2 (fun c data => carries_message ident (disco_key c) (probe_message ident c) data) l datas /\
       probes = zip_with (fun c data => Datagram data (endpoint c)) l datas
     else probes = []) /\
    (if on then replies ident l received reply else reply = []).
Proof.
  intros Hl Hs Hr Hrec on. unfold NONCE_LEN in *. nonneg_lens. unfold turn. subst on.
  destruct (clk (ticks s) <? deadline) eqn:Ed.
  2:{ exists (mkListen (packet_ s) (plaintext s) (pongs s) (pings s) (next_probe s) (rng s) (S (ticks s))), [], [].
      split_and!; [|done|done|done]. eapply runs_step; [done|]. by rewrite Ed. }
  set (t := ticks s). set (s1 := mkListen (packet_ s) (plaintext s) (pongs s) (pings s) (next_probe s) (rng s) (S (S t))).
  assert (exists s2 es, runs (if next_probe s <=? clk (S t) then t ← read_clock clk; set_next_probe (t + PROBE_INTERVAL_MS) ;; probe ident l
      else mret tt) s1 s2 es tt /\ listen_ok s2 /\ 24 <= len (rng s2) /\
      if next_probe s <=? clk (S t)
      then exists datas, Forall2 (fun c data => carries_message ident (disco_key c) (probe_message ident c) data) l datas /\
        es = zip_with (fun c data => Datagram data (endpoint c)) l datas
      else es = []) as (s2 & es1 & R1 & H2 & Hr2 & Hes1).
  { destruct (next_probe s <=? clk (S t)).
    - set (s1' := mkListen (packet_ s) (plaintext s) (pongs s) (pings s) (clk (S (S t)) + PROBE_INTERVAL_MS) (rng s) (S (S (S t)))).
      destruct (runs_probe ident l s1' Hl Hs) as (s2 & datas & R & Hds & H2 & _ & Hlen); [cbn [s1' rng]; unfold NONCE_LEN; lia|].
      exists s2. eexists. split_and!; [eapply runs_step; [done|]; eapply runs_step; [done|]; exact R|done| |by exists datas].
      rewrite Hlen. cbn [s1' rng]. unfold NONCE_LEN. lia.
    - exists s1, []. split_and!; [done|done|cbn [s1 rng]; lia|done]. }
  assert (exists s3 es, runs (match received with Some (incoming, from) => hear ident l incoming from | None => mret tt end) s2 s3 es tt /\
    listen_ok s3 /\ replies ident l received es) as (s3 & es2 & R2 & H3 & Hes2).
  { destruct received as [[incoming from]|]; [|exists s2, []; split_and!; try done; constructor]. destruct Hrec. by apply hear_returns. }
  exists s3, es1, es2. split_and!; [|done|done|done]. rewrite <- (app_nil_r es2).
  eapply runs_step; [done|]. rewrite Ed. cbn [negb]. eapply runs_step; [done|]. eapply runs_step; [done|].
  cbn [next_probe ticks]. eapply runs_bind; [exact R1|]. eapply runs_bind; [exact R2|done].
Qed.

End Exchange.

(** ** Two nodes *)

Module DiscoDemo.
Import ToyCurve ToyBox.

Definition ident (x : Z) : Identity :=
  mkIdentity (private_from_bytes (repeat x 32)) (private_from_bytes (repeat x 32)) (private_from_bytes (repeat x 32)).

Definition address (x : Z) : SocketAddrV4 := ([10; 0; 0; x], 41641).
Definition candidate (x : Z) : Candidate := mkCandidate (address x) (public (disco (ident x))) (repeat x 12).

Definition clock (n : nat) : Z := 100 + Z.of_nat n.
Definition node_a : Listen := start (zeros 100).
Definition node_b : Listen := mkListen (zeros packet.MAX_PACKET) (zeros packet.MAX_PACKET) 0 0 1100 (zeros 100) 3.

Lemma probe_comes_back_witness : exists sa' sb' sa'' probes ping pong,
  turn (ident 7) [candidate 9] 12000 clock None node_a = (sa', probes, Ok true) /\ len probes = len [candidate 9] /\
  Datagram ping (endpoint (candidate 9)) ∈ probes /\
  turn (ident 9) [candidate 7] 12000 clock (Some (ping, address 7)) node_b
    = (sb', [Datagram pong (address 7); PingNote (address 7)], Ok true) /\ pings sb' = pings node_b + 1 /\
  turn (ident 7) [candidate 9] 12000 clock (Some (pong, address 9)) sa'
    = (sa'', [PongNote (address 9) (Sock4 (address 7).1 (address 7).2) true], Ok true) /\ pongs sa'' = pongs node_a + 1.
Proof.
  apply (probe_comes_back (ident 7) (ident 9) [candidate 9] [candidate 7] 12000 12000 clock clock node_a node_b
    (candidate 9) (candidate 7) (address 7) (address 9));
    first [reflexivity | apply (bool_decide_unpack _); vm_compute; exact I | by vm_compute | split; by vm_compute | idtac].
  all: unfold candidate_ok, bytes_ok, is_uint; apply (bool_decide_unpack _); vm_compute; exact I.
Defined.

(** The ping of the other node, before the turn in which the own probe is due. *)
Definition ping_of_b : bytes :=
  match (turn (ident 9) [candidate 7] 12000 clock None (start (zeros 100))).1.2 with Datagram data _ :: _ => data | _ => [] end.

Lemma turn_always_completes_witness : exists s' datas pong,
  turn (ident 7) [candidate 9] 12000 clock (Some (ping_of_b, address 9)) node_a
    = (s', zip_with (fun c data => Datagram data (endpoint c)) [candidate 9] datas ++ [Datagram pong (address 9); PingNote (address 9)], Ok true) /\
  listen_ok s'.
Proof.
  destruct (turn_always_completes (ident 7) [candidate 9] 12000 clock node_a (Some (ping_of_b, address 9)))
    as (s' & probes & reply & Ht & Hok & Hp & Hr).
  - unfold candidate_ok, bytes_ok, is_uint. apply (bool_decide_unpack _). vm_compute. exact I.
  - by split; vm_compute.
  - by vm_compute.
  - split; [unfold bytes_ok, is_uint|]; apply (bool_decide_unpack _); vm_compute; exact I.
  - change (clock (ticks node_a) <? 12000) with true in *. cbn [andb] in Hp.
    change (next_probe node_a <=? clock (S (ticks node_a))) with true in Hp. cbv iota in Hp.
    destruct Hp as (datas & Hd & ->). exists s', datas.
    assert (Hn : length (zip_with (fun c data => Datagram data (endpoint c)) [candidate 9] datas) = 1%nat)
      by (rewrite length_zip_with; rewrite <- (Forall2_length _ _ _ Hd); reflexivity).
    assert (Hlen : length (turn (ident 7) [candidate 9] 12000 clock (Some (ping_of_b, address 9)) node_a).1.2 = 3%nat)
      by (vm_compute; reflexivity).
    rewrite Ht in Hlen. cbn [fst snd] in Hlen. rewrite length_app, Hn in Hlen.
    destruct (replies_two _ _ _ _ _ Hr) as (pong & ->); [lia|]. exists pong. split; [exact Ht|exact Hok].
Defined.

End DiscoDemo.
