(* ===== verification/HarnessExec.v ===== *)
(** * The harness: the executor

    [harness/src/exec.rs]: the reactor, the futures that register with it, [select]
    and [block_on]; and [UdpSocket::recv_from] of [harness/src/net.rs], the future
    the loops of the harness wait on.

    A future is a state with a [poll] and a [drop], as the compiler makes it; polling
    and waiting act on the reactor and on the world outside, which is a parameter:
    the clock, [poll] and [recvfrom] of the kernel. *)

From S2P Require Import Prelude HarnessNet HarnessWg.

(** ** The world outside *)

(** What [recvfrom] reports: a datagram with its sender, if that is an IPv4 address;
    that there is none yet; or another error. *)
Inductive Received := Arrived (data : bytes) (from : option (bytes * Z)) | WouldBlock | Failed (errno : Z).

(** A reading of the program's clock in milliseconds; [poll] on descriptors, each
    with the events asked for, and a timeout: the events of each, or nothing when the
    time ran out, a signal came or the call failed; [recvfrom] into a buffer. *)
Class Kernel (W : Type) := {
  k_clock : W -> Z * W;
  k_poll : W -> list (Z * Z) -> option harness_time.Timespec -> res Empty_set (option (list Z) * W);
  k_recvfrom : W -> Z -> Z -> Received * W }.

Module harness_exec.

Definition MAX_SOURCES : Z := 8.

(** [PollFlags] *)
Definition POLLIN : Z := 1.
Definition POLLOUT : Z := 4.

(** ** The reactor *)

Record Source := mkSource { fd : Z; events : Z; revents : Z }.
Record Reactor := mkReactor { sources : list Source; deadline : option Z }.

Definition reactor_new : Reactor := mkReactor [] None.

Definition is_source (fd_ events_ : Z) (s : Source) : bool := (fd s =? fd_) && (events s =? events_).

(** The reactor, and the events found if there were any. *)
Definition poll_source (fd_ events_ : Z) (r : Reactor) : res Empty_set (option Z * Reactor) :=
  match position (is_source fd_ events_) (sources r) with
  | Some index =>
      let! s := or_panic (sources r !! index) in
      if negb (revents s =? 0) then Ok (Some (revents s), mkReactor (swap_remove index (sources r)) (deadline r))
      else Ok (None, r)
  | None =>
      if len (sources r) <? MAX_SOURCES
      then Ok (None, mkReactor (sources r ++ [mkSource fd_ events_ 0]) (deadline r))
      else Panic
  end.

Definition forget_source (fd_ events_ : Z) (r : Reactor) : Reactor :=
  match position (is_source fd_ events_) (sources r) with
  | Some index => mkReactor (swap_remove index (sources r)) (deadline r)
  | None => r
  end.

Definition note_deadline (deadline_millis : Z) (r : Reactor) : Reactor :=
  let earliest := match deadline r with Some existing => Z.min existing deadline_millis | None => deadline_millis end in
  mkReactor (sources r) (Some earliest).

Section Futures.
Context {W : Type} `{K : Kernel W}.

(** The reactor and the world it is in. *)
Abbreviation machine := ((Reactor * W)%type).

(** How long a wait may take: never negative. *)
Definition timeout_of (deadline_millis now : Z) : harness_time.Timespec :=
  let remaining := saturating_sub deadline_millis now in
  harness_time.mkTimespec (remaining / 1000) (remaining mod 1000 * 1000000).

Definition wait (m : machine) : res Empty_set machine :=
  let (r, w) := m in
  let '(timeout, w) := match deadline r with
                       | Some d => let (now, w) := k_clock w in (Some (timeout_of d now), w)
                       | None => (None, w)
                       end in
  match sources r, timeout with
  | [], None => Panic
  | _, _ =>
      let! '(found, w) := k_poll w (map (fun s => (fd s, events s)) (sources r)) timeout in
      match found with
      | None => Ok (mkReactor (sources r) None, w)
      | Some flags =>
          Ok (mkReactor (zip_with (fun s f => mkSource (fd s) (events s) f) (sources r) flags
                           ++ drop (length flags) (sources r)) None, w)
      end
  end.

(** ** Futures *)

(** Polling gives the output or nothing yet, and the state to go on with; dropping
    gives the reactor back. *)
Record Future (Out : Type) := mkFuture {
  State : Type;
  initial : State;
  poll : State -> machine -> res Empty_set (option Out * State * machine);
  drop_ : State -> Reactor -> Reactor }.
Arguments State {Out}. Arguments initial {Out}. Arguments poll {Out}. Arguments drop_ {Out}. Arguments mkFuture {Out}.

(** [Ready] *)
Definition ready (fd_ events_ : Z) : Future Z := mkFuture unit tt
  (fun _ '(r, w) => let! '(o, r) := poll_source fd_ events_ r in Ok (o, tt, (r, w)))
  (fun _ => forget_source fd_ events_).

(** [Sleep] *)
Definition sleep_until (deadline_millis : Z) : Future unit := mkFuture unit tt
  (fun _ '(r, w) =>
     let (now, w) := k_clock w in
     if deadline_millis <=? now then Ok (Some tt, tt, (r, w)) else Ok (None, tt, (note_deadline deadline_millis r, w)))
  (fun _ r => r).

Inductive Either (A B : Type) := First (a : A) | Second (b : B).
Arguments First {A B}. Arguments Second {A B}.

(** [select]: its two futures, until it has finished; then they have been dropped,
    the second one first. *)
Definition select_poll {A B} (a : Future A) (b : Future B) (s : option (State a * State b)) (m : machine)
  : res Empty_set (option (Either A B) * option (State a * State b) * machine) :=
  match s with
  | None => Panic
  | Some (sa, sb) =>
      let! '(oa, sa, m) := poll a sa m in
      match oa with
      | Some x => Ok (Some (First x), None, (drop_ a sa (drop_ b sb m.1), m.2))
      | None =>
          let! '(ob, sb, m) := poll b sb m in
          match ob with
          | Some y => Ok (Some (Second y), None, (drop_ a sa (drop_ b sb m.1), m.2))
          | None => Ok (None, Some (sa, sb), m)
          end
      end
  end.

Definition select {A B} (a : Future A) (b : Future B) : Future (Either A B) := mkFuture (option (State a * State b))
  (Some (initial a, initial b)) (select_poll a b)
  (fun s r => match s with Some (sa, sb) => drop_ a sa (drop_ b sb r) | None => r end).

(** [block_on], with a bound on how often it waits. *)
Fixpoint block_on_from {Out} (fuel : nat) (f : Future Out) (s : State f) (m : machine) : res Empty_set (Out * machine) :=
  let! '(o, s, m) := poll f s m in
  match o with
  | Some x => Ok (x, (drop_ f s m.1, m.2))
  | None =>
      match fuel with
      | O => Hang
      | S fuel => let! m := wait m in block_on_from fuel f s m
      end
  end.

Definition block_on {Out} (fuel : nat) (f : Future Out) (m : machine) : res Empty_set (Out * machine) :=
  block_on_from fuel f (initial f) m.

(** ** System calls on a socket

    Every operation of [harness/src/net.rs] tries a system call, awaits readiness
    where it would block, and tries again. *)

(** A step of such an operation: go on, wait first, or the result. *)
Inductive Outcome (St Out : Type) := More (s : St) | NotYet (s : St) | Ended (a : Out).
Arguments More {St Out}. Arguments NotYet {St Out}. Arguments Ended {St Out}.

(** Between two polls it is about to go on, or waits on its source. *)
Inductive IoState (St : Type) := Going (s : St) | Parked (s : St) | Over.
Arguments Going {St}. Arguments Parked {St}. Arguments Over {St}.

Section Io.
Context {St Out : Type} (fd_ events_ : Z) (call : St -> W -> Outcome St Out * W).

Fixpoint io_poll (fuel : nat) (s : IoState St) (m : machine) : res Empty_set (option Out * IoState St * machine) :=
  match fuel with
  | O => Hang
  | S fuel =>
      match s with
      | Over => Panic
      | Going s =>
          let (o, w) := call s m.2 in
          match o with
          | Ended a => Ok (Some a, Over, (m.1, w))
          | More s => io_poll fuel (Going s) (m.1, w)
          | NotYet s =>
              let! '(o, r) := poll_source fd_ events_ m.1 in
              match o with
              | None => Ok (None, Parked s, (r, w))
              | Some _ => io_poll fuel (Going s) (forget_source fd_ events_ r, w)
              end
          end
      | Parked s =>
          let! '(o, r) := poll_source fd_ events_ m.1 in
          match o with
          | None => Ok (None, Parked s, (r, m.2))
          | Some _ => io_poll fuel (Going s) (forget_source fd_ events_ r, m.2)
          end
      end
  end.

(** [left] bounds how often it may go on; a readiness that was there already and the
    last call are on top of that. *)
Context (left : St -> nat).
Definition turns (s : IoState St) : nat := match s with Going s | Parked s => left s + 3 | Over => 1 end.

Definition io_loop (init : St) : Future Out := mkFuture (IoState St) (Going init)
  (fun s m => io_poll (turns s) s m)
  (fun s r => match s with Parked _ => forget_source fd_ events_ r | Going _ | Over => r end).

End Io.

(** [UdpSocket::recv_from] into a buffer of [cap] bytes. *)
Definition recv_call (fd_ cap : Z) (_ : unit) (w : W) : Outcome unit (res net.NetError (bytes * (bytes * Z))) * W :=
  let (got, w) := k_recvfrom w fd_ cap in
  (match got with
   | Arrived data (Some from) => Ended (Ok (data, from))
   | Arrived _ None => Ended (Err net.NotIpv4)
   | Failed e => Ended (Err (net.Errno e))
   | WouldBlock => NotYet tt
   end, w).

Definition recv_from (fd_ cap : Z) : Future (res net.NetError (bytes * (bytes * Z))) :=
  io_loop fd_ POLLIN (recv_call fd_ cap) (fun _ => O) tt.

End Futures.
Arguments State {W Out}. Arguments initial {W Out}. Arguments poll {W Out}. Arguments drop_ {W Out}. Arguments mkFuture {W Out}.
Arguments First {A B}. Arguments Second {A B}. Arguments More {St Out}. Arguments NotYet {St Out}. Arguments Ended {St Out}.
Arguments Going {St}. Arguments Parked {St}. Arguments Over {St}.
End harness_exec.
