(* ===== verification/HarnessExecTheorems.v ===== *)
(** * The harness: nothing is leaked, nothing is slept through

    What a future may do to the reactor, as an interface: the sources it owns while it
    waits, the deadline it needs, and what is left once it is dropped.  The futures
    of [HarnessExec.v] keep it, [select] keeps it when its parts do, and [block_on]
    relies on it. *)

From S2P Require Import Prelude HarnessNet HarnessWg HarnessExec.

Import harness_exec.

Definition key : Type := Z * Z.
Definition reg (r : Reactor) : list key := map (fun s => (fd s, events s)) (sources r).

(** ** Operations of the reactor *)

Lemma reg_remove r i s : sources r !! i = Some s ->
  reg r ≡ₚ (fd s, events s) :: reg (mkReactor (swap_remove i (sources r)) (deadline r)).
Proof. intros Hi. unfold reg. cbn [sources]. by rewrite <- (swap_remove_perm _ _ _ Hi) at 1. Qed.

Lemma is_source_true fd_ ev s : is_source fd_ ev s = true <-> (fd s, events s) = (fd_, ev).
Proof. unfold is_source. rewrite andb_true_iff, !Z.eqb_eq. split; [by intros [-> ->]|by intros [= -> ->]]. Qed.

Lemma find_source fd_ ev r :
  match position (is_source fd_ ev) (sources r) with
  | Some i => exists s, sources r !! i = Some s /\ (fd s, events s) = (fd_, ev)
  | None => (fd_, ev) ∉ reg r
  end.
Proof.
  destruct (position _ _) as [i|] eqn:E.
  - apply position_Some in E as (s & Hi & Hs). exists s. split; [done|]. by apply is_source_true.
  - rewrite position_None in E. unfold reg. rewrite list_elem_of_fmap. intros (s & Heq & Hin).
    specialize (E s Hin). assert (is_source fd_ ev s = true) as Ht by (by apply is_source_true). congruence.
Qed.

(** Polling a source that is registered: it stays, or its events are handed over and
    it is gone. *)
Lemma poll_source_held fd_ ev r : (fd_, ev) ∈ reg r ->
  exists o r', poll_source fd_ ev r = Ok (o, r') /\ deadline r' = deadline r /\
    match o with None => r' = r | Some _ => reg r ≡ₚ (fd_, ev) :: reg r' end.
Proof.
  intros Hin. unfold poll_source. pose proof (find_source fd_ ev r) as Hf. destruct (position _ _) as [i|]; [|done].
  destruct Hf as (s & Hi & Hs). rewrite Hi. cbn [or_panic rbind]. case_if; do 2 eexists; split; try done. split; [done|].
  rewrite <- Hs. by apply reg_remove.
Qed.

Lemma poll_source_new fd_ ev r : (fd_, ev) ∉ reg r -> len (reg r) < MAX_SOURCES ->
  exists r', poll_source fd_ ev r = Ok (None, r') /\ deadline r' = deadline r /\ reg r' ≡ₚ (fd_, ev) :: reg r.
Proof.
  intros Hn Hl. unfold poll_source. pose proof (find_source fd_ ev r) as Hf. destruct (position _ _) as [i|].
  - destruct Hf as (s & Hi & Hs). destruct Hn. rewrite <- Hs. unfold reg. apply list_elem_of_fmap. exists s. split; [done|]. by eapply list_elem_of_lookup_2.
  - unfold reg in Hl. rewrite len_map in Hl. rewrite (proj2 (Z.ltb_lt _ _)) by done. eexists. split; [done|]. split; [done|].
    unfold reg. cbn [sources]. rewrite map_app. cbn [map fd events]. by rewrite Permutation_app_comm.
Qed.

Lemma forget_held fd_ ev r : (fd_, ev) ∈ reg r -> reg r ≡ₚ (fd_, ev) :: reg (forget_source fd_ ev r) /\ deadline (forget_source fd_ ev r) = deadline r.
Proof.
  intros Hin. unfold forget_source. pose proof (find_source fd_ ev r) as Hf. destruct (position _ _) as [i|]; [|done].
  destruct Hf as (s & Hi & Hs). split; [|done]. rewrite <- Hs. by apply reg_remove.
Qed.

Lemma forget_missing fd_ ev r : (fd_, ev) ∉ reg r -> forget_source fd_ ev r = r.
Proof.
  intros Hn. unfold forget_source. pose proof (find_source fd_ ev r) as Hf. destruct (position _ _) as [i|]; [|done].
  destruct Hf as (s & Hi & Hs). destruct Hn. rewrite <- Hs. unfold reg. apply list_elem_of_fmap. exists s. split; [done|]. by eapply list_elem_of_lookup_2.
Qed.

(** ** What a future promises *)

(** The earlier of two deadlines, where there are any. *)
Definition earlier (a b : option Z) : option Z :=
  match a, b with Some x, Some y => Some (Z.min x y) | Some x, None => Some x | None, b => b end.

Lemma earlier_assoc a b c : earlier a (earlier b c) = earlier (earlier a b) c.
Proof. destruct a, b, c; cbn; f_equal; lia. Qed.

Section Tidy.
Context {W : Type} `{K : Kernel W}.

(** What every call of the kernel does to the world. *)
Context (R : W -> W -> Prop) `{!Reflexive R} `{!Transitive R}.
Context (R_clock : forall w, R w (k_clock w).2) (R_recv : forall w fd_ cap, R w (k_recvfrom w fd_ cap).2).

(** [foot] is what the future may ever register, [owns] what it has registered,
    [alarm] the deadline it waits for.  Whatever [others] have registered is left as
    it is.  A future that is not finished has a source or a deadline. *)
Class Tidy {Out} (f : Future Out) := {
  foot : list key;
  live : State f -> Prop;
  owns : State f -> list key;
  alarm : State f -> option Z;
  foot_nodup : NoDup foot;
  owns_foot s : owns s ⊆ foot;
  owns_nodup s : NoDup (owns s);
  tidy_initial : live (initial f) /\ owns (initial f) = [];
  tidy_poll s r w others : live s -> reg r ≡ₚ owns s ++ others -> others ## foot -> len others + len foot <= MAX_SOURCES ->
    exists o s' r' w', poll f s (r, w) = Ok (o, s', (r', w')) /\ R w w' /\ reg r' ≡ₚ owns s' ++ others /\
      match o with
      | None => live s' /\ (owns s' <> [] \/ alarm s' <> None) /\ deadline r' = earlier (deadline r) (alarm s')
      | Some _ => True
      end;
  tidy_drop s r others : reg r ≡ₚ owns s ++ others -> others ## foot -> reg (drop_ f s r) ≡ₚ others }.

#[export] Instance sleep_tidy d : Tidy (sleep_until d).
Proof.
  refine {| foot := []; live _ := True; owns _ := []; alarm _ := Some d |}; try done; [constructor|intros; constructor|].
  intros s r w others _ Hr _ _. cbn [poll sleep_until]. pose proof (R_clock w) as Hw. destruct (k_clock w) as [now w'].
  destruct (d <=? now); do 4 eexists; (split; [reflexivity|]); split_and!; try done; [by right|].
  cbn. by destruct (deadline r).
Defined.

(** *** System calls on a socket *)

Section Io.
Context {St Out : Type} (fd_ ev : Z) (call : St -> W -> Outcome St Out * W) (left : St -> nat).

(** The calls of one turn, up to the result or to where it waits. *)
Inductive calls : St -> W -> Out + St -> W -> Prop :=
| calls_end s w a w' : call s w = (Ended a, w') -> calls s w (inl a) w'
| calls_wait s w s' w' : call s w = (NotYet s', w') -> calls s w (inr s') w'
| calls_more s w s1 w1 o w' : call s w = (More s1, w1) -> calls s1 w1 o w' -> calls s w o w'.

Context (call_R : forall s w, R w (call s w).2)
  (call_left : forall s w s' w', call s w = (More s', w') -> (left s' < left s)%nat).

Lemma calls_R s w o w' : calls s w o w' -> R w w'.
Proof.
  induction 1 as [s w a w' H|s w s' w' H|s w s1 w1 o w' H _ IH]; pose proof (call_R s w) as HR; rewrite H in HR; [done|done|].
  by transitivity w1.
Qed.

(** What a poll ends with: the result, or parked with its source registered. *)
Definition io_polled (s : IoState St) (o : option Out) (s' : IoState St) (r' : Reactor) (w w' : W) (others : list key) : Prop :=
  match s with
  | Going x | Parked x =>
      match o with
      | Some a => s' = Over /\ reg r' ≡ₚ others /\ calls x w (inl a) w'
      | None => exists x', s' = Parked x' /\ reg r' ≡ₚ (fd_, ev) :: others /\ calls x w (inr x') w'
      end
  | Over => False
  end.

Lemma going_polls fuel s r w others : (left s < fuel)%nat -> reg r ≡ₚ others -> (fd_, ev) ∉ others -> len others < MAX_SOURCES ->
  exists o s' r' w', io_poll fd_ ev call fuel (Going s) (r, w) = Ok (o, s', (r', w')) /\ deadline r' = deadline r /\
    io_polled (Going s) o s' r' w w' others.
Proof.
  intros Hf Hr Hn Hl. revert s w Hf. induction fuel as [|fuel IH]; intros s w Hf; [lia|]. cbn [io_poll fst snd].
  destruct (call s w) as [[s1|s1|a] w1] eqn:Ec.
  - destruct (IH s1 w1) as (o & s' & r' & w' & Hrun & Hd & Hp); [apply call_left in Ec; lia|]. exists o, s', r', w'. split_and!; [done|done|].
    cbn [io_polled] in *. destruct o as [a|]; [destruct Hp as (? & ? & ?)|destruct Hp as (x & ? & ? & ?); exists x]; split_and!; eauto using calls.
  - assert ((fd_, ev) ∉ reg r) as Hn' by (by rewrite Hr). assert (len (reg r) < MAX_SOURCES) as Hl' by (unfold len; by rewrite (Permutation_length Hr)).
    destruct (poll_source_new fd_ ev r Hn' Hl') as (r' & -> & Hd & Hp). cbn [rbind].
    do 4 eexists. split; [reflexivity|]. split; [done|]. exists s1. split_and!; [done|by rewrite Hp, Hr|by constructor].
  - do 4 eexists. split; [reflexivity|]. split; [done|]. split_and!; [done|done|by constructor].
Qed.

(** A parked one is still waiting, or goes on. *)
Lemma parked_polls s r w others : reg r ≡ₚ (fd_, ev) :: others -> (fd_, ev) ∉ others -> len others < MAX_SOURCES ->
  (io_poll fd_ ev call (turns left (Parked s)) (Parked s) (r, w) = Ok (None, Parked s, (r, w)) /\
     (exists o, poll_source fd_ ev r = Ok (None, o))) \/
  (exists f r1, poll_source fd_ ev r = Ok (Some f, r1)) /\
  exists o s' r' w', io_poll fd_ ev call (turns left (Parked s)) (Parked s) (r, w) = Ok (o, s', (r', w')) /\ deadline r' = deadline r /\
    io_polled (Parked s) o s' r' w w' others.
Proof.
  intros Hr Hn Hl. unfold turns. rewrite Nat.add_comm. cbn [Nat.add io_poll]. cbn [fst snd].
  destruct (poll_source_held fd_ ev r) as (o & r1 & E & Hd & Hcase); [rewrite Hr; left|]. rewrite E. cbn [rbind]. destruct o as [fl|].
  - right. split; [by exists fl, r1|]. rewrite Hr in Hcase. apply Permutation_cons_inv in Hcase. rewrite forget_missing by (by rewrite <- Hcase).
    destruct (going_polls (2 + left s) s r1 w others) as (o & s' & r' & w' & Hrun & Hd' & Hp); [lia|by symmetry|done|done|].
    exists o, s', r', w'. split_and!; [exact Hrun|by rewrite Hd'|exact Hp].
  - left. subst r1. split; [done|]. by exists r.
Qed.

#[export] Instance io_tidy init : Tidy (io_loop fd_ ev call left init).
Proof.
  apply (Build_Tidy _ (io_loop fd_ ev call left init) [(fd_, ev)] (fun s : IoState St => s <> Over)
    (fun s : IoState St => match s with Parked _ => [(fd_, ev)] | _ => [] end) (fun _ => None)); try done.
  - apply NoDup_singleton.
  - intros []; set_solver.
  - intros []; auto using NoDup_nil_2, NoDup_singleton.
  - intros s r w others Hs Hr Hd Hl. assert (len others < MAX_SOURCES) as Hl' by (clear -Hl; unfold len in *; simpl in Hl; lia).
    assert ((fd_, ev) ∉ others) as Hn by set_solver. cbn [poll io_loop].
    assert (forall x o s' r' w', (s = Going x \/ s = Parked x) -> io_polled s o s' r' w w' others ->
      R w w' /\ reg r' ≡ₚ match s' with Parked _ => [(fd_, ev)] | _ => [] end ++ others /\ (o = None -> exists x', s' = Parked x')) as Hdone.
    { intros x o s' r' w' Hx Hp. destruct o as [a|]; destruct Hx as [->| ->]; cbn [io_polled] in Hp;
        [destruct Hp as (-> & Hr' & Hc)|destruct Hp as (-> & Hr' & Hc)|destruct Hp as (x' & -> & Hr' & Hc)|destruct Hp as (x' & -> & Hr' & Hc)];
        (split_and!; [by eapply calls_R|done|]); first [done|by exists x']. }
    destruct s as [x|x|]; [| |done].
    + destruct (going_polls (turns left (Going x)) x r w others) as (o & s' & r' & w' & Hrun & Hd' & Hp); [cbn; lia|done|done|done|].
      exists o, s', r', w'. split; [exact Hrun|]. destruct (Hdone x o s' r' w' (or_introl eq_refl) Hp) as (HR & Hr' & Hs'). split_and!; [done|done|].
      destruct o; [done|]. destruct (Hs' eq_refl) as [x' ->]. split_and!; [done|by left|]. rewrite Hd'. by destruct (deadline r).
    + destruct (parked_polls x r w others) as [[Hrun _]|(_ & o & s' & r' & w' & Hrun & Hd' & Hp)]; [done|done|done| |].
      * exists None, (Parked x), r, w. split; [exact Hrun|]. split_and!; [done|done|done|by left|]. by destruct (deadline r).
      * exists o, s', r', w'. split; [exact Hrun|]. destruct (Hdone x o s' r' w' (or_intror eq_refl) Hp) as (HR & Hr' & Hs'). split_and!; [done|done|].
        destruct o; [done|]. destruct (Hs' eq_refl) as [x' ->]. split_and!; [done|by left|]. rewrite Hd'. by destruct (deadline r).
  - intros [] r others Hr Hd; cbn [drop_ io_loop]; [done| |done].
    destruct (forget_held fd_ ev r) as [Hp _]; [rewrite Hr; left|]. rewrite Hr in Hp. symmetry. by apply Permutation_cons_inv in Hp.
Defined.
End Io.

#[export] Instance recv_tidy fd_ cap : Tidy (recv_from fd_ cap).
Proof.
  apply io_tidy.
  - intros [] w. unfold recv_call. pose proof (R_recv w fd_ cap) as HR. destruct (k_recvfrom w fd_ cap) as [got w']. exact HR.
  - intros [] w s' w'. unfold recv_call. destruct (k_recvfrom w fd_ cap) as [[data [from|]| |e] ?]; done.
Defined.

Lemma len_owned {C} (f : Future C) `{Tf : !Tidy f} s : len (owns s) <= len (@foot _ f Tf).
Proof.
  unfold len. apply Nat2Z.inj_le, submseteq_length, NoDup_submseteq; [apply owns_nodup|]. intros x. apply owns_foot.
Qed.

(** Two futures that never register the same thing. *)
Section Select.
Context {A B : Type} (a : Future A) (b : Future B) `{Ta : !Tidy a} `{Tb : !Tidy b}.
Context (Hdisj : @foot _ a Ta ## @foot _ b Tb).

Let owned (s : option (State a * State b)) : list key := match s with Some (sa, sb) => owns sa ++ owns sb | None => [] end.

Lemma owned_disjoint (sa : State a) (sb : State b) others : others ## @foot _ a Ta ++ @foot _ b Tb ->
  (owns sb ++ others) ## @foot _ a Ta /\ (owns sa ++ others) ## @foot _ b Tb.
Proof. clear -Hdisj. intros Ho. pose proof (owns_foot sa). pose proof (owns_foot sb). set_solver. Qed.

Lemma select_drop (sa : State a) (sb : State b) r others : reg r ≡ₚ owned (Some (sa, sb)) ++ others ->
  others ## @foot _ a Ta ++ @foot _ b Tb -> reg (drop_ a sa (drop_ b sb r)) ≡ₚ others.
Proof.
  intros Hr Ho. destruct (owned_disjoint sa sb others Ho) as [D1 D2].
  apply tidy_drop; [|set_solver]. apply (tidy_drop sb); [|done]. rewrite Hr. cbn [owned]. solve_Permutation.
Qed.

Lemma select_tidy_poll s r w others : s <> None ->
  match s with Some (sa, sb) => live sa /\ live sb | None => True end ->
  reg r ≡ₚ owned s ++ others -> others ## @foot _ a Ta ++ @foot _ b Tb ->
  len others + len (@foot _ a Ta ++ @foot _ b Tb) <= MAX_SOURCES ->
  exists o s' r' w', select_poll a b s (r, w) = Ok (o, s', (r', w')) /\ R w w' /\ reg r' ≡ₚ owned s' ++ others /\
    match o with
    | None => s' <> None /\ match s' with Some (sa, sb) => live sa /\ live sb | None => True end /\
        (owned s' <> [] \/ match s' with Some (sa, sb) => earlier (alarm sa) (alarm sb) | None => None end <> None) /\
        deadline r' = earlier (deadline r) (match s' with Some (sa, sb) => earlier (alarm sa) (alarm sb) | None => None end)
    | Some _ => True
    end.
Proof.
  intros Hs Hlive Hr Ho Hl. destruct s as [[sa sb]|]; [|done]. destruct Hlive as [La Lb]. rewrite len_app in Hl. cbn [select_poll].
  destruct (owned_disjoint sa sb others Ho) as [D1 _]. pose proof (len_owned b sb) as Lob.
  destruct (tidy_poll sa r w (owns sb ++ others)) as (oa & sa' & r1 & w1 & Hpa & Rw1 & Hr1 & Hca);
    [done|by rewrite Hr; cbn [owned]; rewrite <- app_assoc|done|rewrite len_app; lia|].
  rewrite Hpa. cbn [rbind]. destruct oa as [x|].
  - do 4 eexists. split; [reflexivity|]. split; [done|]. split; [|done]. cbn [fst owned app].
    apply select_drop; [|done]. rewrite Hr1. cbn [owned]. by rewrite <- app_assoc.
  - destruct Hca as (La' & Hwa & Hda). destruct (owned_disjoint sa' sb others Ho) as [_ D2]. pose proof (len_owned a sa') as Loa.
    destruct (tidy_poll sb r1 w1 (owns sa' ++ others)) as (ob & sb' & r2 & w2 & Hpb & Rw2 & Hr2 & Hcb);
      [done|rewrite Hr1; solve_Permutation|done|rewrite len_app; lia|].
    rewrite Hpb. cbn [rbind]. destruct ob as [y|].
    + do 4 eexists. split; [reflexivity|]. split; [by transitivity w1|]. split; [|done]. cbn [fst owned app].
      apply select_drop; [|done]. rewrite Hr2. cbn [owned]. solve_Permutation.
    + destruct Hcb as (Lb' & Hwb & Hdb). do 4 eexists. split; [reflexivity|]. split; [by transitivity w1|].
      split; [rewrite Hr2; cbn [owned]; solve_Permutation|]. split_and!; try done.
      * destruct Hwa as [Hwa|Hwa]; [left; cbn [owned]; by destruct (owns sa')|].
        right. by destruct (alarm sa'), (alarm sb').
      * by rewrite Hdb, Hda, earlier_assoc.
Qed.

#[export] Instance select_tidy : Tidy (select a b).
Proof.
  apply (Build_Tidy _ (select a b) (@foot _ a Ta ++ @foot _ b Tb)
    (fun s : option (State a * State b) => s <> None /\ match s with Some (sa, sb) => live sa /\ live sb | None => True end)
    owned (fun s : option (State a * State b) => match s with Some (sa, sb) => earlier (alarm sa) (alarm sb) | None => None end)).
  - apply NoDup_app. split_and!; [apply foot_nodup| |apply foot_nodup]. clear -Hdisj. set_solver.
  - intros [[sa sb]|]; cbn [owned]; [|set_solver]. pose proof (owns_foot sa). pose proof (owns_foot sb). set_solver.
  - intros [[sa sb]|]; cbn [owned]; [|constructor]. apply NoDup_app. split_and!; [apply owns_nodup| |apply owns_nodup].
    pose proof (owns_foot sa). pose proof (owns_foot sb). clear -Hdisj H H0. set_solver.
  - destruct (@tidy_initial _ a Ta) as [La Oa], (@tidy_initial _ b Tb) as [Lb Ob]. split; [done|].
    cbn [initial select owned]. by rewrite Oa, Ob.
  - intros s r w others [Hs Hlive] Hr Ho Hl. destruct (select_tidy_poll s r w others Hs Hlive Hr Ho Hl)
      as (o & s' & r' & w' & Hp & Hw & Hr' & Hc). exists o, s', r', w'. split_and!; [exact Hp|done|done|].
    destruct o; [done|]. destruct Hc as (H1 & H2 & H3 & H4). by split_and!.
  - intros [[sa sb]|] r others Hr Ho; [by apply select_drop|done].
Defined.
End Select.

(** ** Waiting and blocking *)

Context (R_poll : forall w fds t, match k_poll w fds t with Ok (_, w') => R w w' | Err e => False | Panic => False | Hang => True end).

Lemma reg_flags (l : list Source) (flags : list Z) :
  map (fun s => (fd s, events s)) (zip_with (fun s f => mkSource (fd s) (events s) f) l flags ++ drop (length flags) l)
  = map (fun s => (fd s, events s)) l.
Proof.
  revert flags. induction l as [|s l IH]; intros [|f flags]; try done. cbn [zip_with app length drop map fd events]. by rewrite IH.
Qed.

Lemma wait_keeps r w : reg r <> [] \/ deadline r <> None ->
  match wait (r, w) with
  | Ok (r', w') => reg r' = reg r /\ deadline r' = None /\ R w w'
  | Err _ | Panic => False
  | Hang => True
  end.
Proof.
  intros Hne. unfold wait.
  assert (exists t w1, (match deadline r with Some d => let (now, w) := k_clock w in (Some (timeout_of d now), w) | None => (None, w) end) = (t, w1)
    /\ R w w1 /\ (t = None -> deadline r = None)) as (t & w1 & -> & Hw1 & Ht).
  { destruct (deadline r) as [d|]; [|do 2 eexists; by split_and!]. pose proof (R_clock w) as Hw. destruct (k_clock w) as [now w1].
    do 2 eexists. by split_and!. }
  assert (match (match sources r, t with [], None => Panic (E := Empty_set) (A := unit) | _, _ => Ok tt end) with Panic => False | _ => True end) as Hgo.
  { destruct (sources r) eqn:Es, t; try done. destruct Hne as [Hne|Hne]; [unfold reg in Hne; by rewrite Es in Hne|by destruct Hne; apply Ht]. }
  assert (match (let! '(found, w) := k_poll w1 (map (fun s => (fd s, events s)) (sources r)) t in
      match found with
      | None => Ok (mkReactor (sources r) None, w)
      | Some flags => Ok (mkReactor (zip_with (fun s f => mkSource (fd s) (events s) f) (sources r) flags ++ drop (length flags) (sources r)) None, w)
      end) with Ok (r', w') => reg r' = reg r /\ deadline r' = None /\ R w w' | Err _ | Panic => False | Hang => True end) as Hpoll.
  { pose proof (R_poll w1 (map (fun s => (fd s, events s)) (sources r)) t) as Hp. destruct (k_poll _ _ _) as [[found w2]|e| |]; try done.
    cbn [rbind]. destruct found as [flags|]; (split; [|split; [done|by transitivity w1]]); [|done]. unfold reg. cbn [sources]. apply reg_flags. }
  destruct (sources r), t; try done.
Qed.

(** A future that keeps the interface is driven to its end without a leak and
    without a panic.  From a reactor in which [others] are registered, with room for
    what the future may register, [block_on] never panics, neither because there are
    too many sources nor because it would sleep for ever; and when it returns, the
    sources registered are those of the others and nothing else. *)
Theorem block_on_tidy {Out} (f : Future Out) `{Tf : !Tidy f} fuel r w others :
  reg r ≡ₚ others -> others ## @foot _ f Tf -> len others + len (@foot _ f Tf) <= MAX_SOURCES ->
  match block_on fuel f (r, w) with
  | Ok (_, (r', w')) => reg r' ≡ₚ others /\ R w w'
  | Err _ | Panic => False
  | Hang => True
  end.
Proof.
  intros Hr Hd Hl. unfold block_on. destruct (@tidy_initial _ f Tf) as [Hlive Hown].
  assert (reg r ≡ₚ owns (initial f) ++ others) as Hreg by (by rewrite Hown). clear Hr Hown. revert r w Hreg Hlive.
  generalize (initial f). induction fuel as [|fuel IH]; intros s r w Hreg Hlive; cbn [block_on_from];
    destruct (tidy_poll s r w others Hlive Hreg Hd Hl) as (o & s' & r' & w' & -> & Hw & Hr' & Hc); cbn [rbind];
    destruct o as [x|]; cbn [fst snd]; try done.
  - split; [by apply tidy_drop|done].
  - split; [by apply tidy_drop|done].
  - destruct Hc as (Hlive' & Hwake & Hdl).
    assert (reg r' <> [] \/ deadline r' <> None) as Hne.
    { destruct Hwake as [Ho|Ha]; [left; intros He; rewrite He in Hr'; apply Permutation_nil_l in Hr'; by destruct (owns s')|].
      right. rewrite Hdl. by destruct (deadline r), (alarm s'). }
    pose proof (wait_keeps r' w' Hne) as Hwait. destruct (wait (r', w')) as [[r2 w2]|e| |]; try done. cbn [rbind].
    destruct Hwait as (Hr2 & _ & Hw2). specialize (IH s' r2 w2). rewrite Hr2 in IH. specialize (IH Hr' Hlive').
    destruct (block_on_from fuel f s' (r2, w2)) as [[x [r3 w3]]|e| |]; try done. destruct IH as [Hr3 Hw3]. split; [done|].
    transitivity w'; [done|]. by transitivity w2.
Qed.
End Tidy.

(** * The harness: waiting for a datagram or for the next tick

    The one composition every loop of the harness waits on, a datagram raced against a
    deadline, run by [block_on] over a kernel whose clock moves on and which wakes the
    program early a bounded number of times. *)

Import harness_exec.

(** ** The kernel *)

(** [millis_of]: how long a timeout lasts. *)
Definition millis_of (t : harness_time.Timespec) : Z :=
  harness_time.tv_sec t * 1000 + harness_time.tv_nsec t / 1000000.

(** What the program relies on: the clock gives the time, which never goes back, and
    a [poll] with a timeout returns, either once that time has gone by or before, for a
    descriptor or a signal; [wakeups] is how often it may still return before. *)
Class KernelOk (W : Type) `{K : Kernel W} := {
  time : W -> Z;
  wakeups : W -> nat;
  later w w' := time w <= time w' /\ (wakeups w' <= wakeups w)%nat;
  clock_reads w : (k_clock w).1 = time w /\ later w (k_clock w).2;
  recv_later w fd_ cap : later w (k_recvfrom w fd_ cap).2;
  poll_wakes w fds t : exists found w', k_poll w fds (Some t) = Ok (found, w') /\ later w w' /\
    (time w + millis_of t <= time w' \/ (wakeups w' < wakeups w)%nat) }.

Section Tick.
Context {W : Type} `{KO : KernelOk W}.
Implicit Types (w : W) (r : Reactor).

#[export] Instance later_refl : Reflexive (@later W _ _).
Proof. intros w. unfold later. lia. Qed.
#[export] Instance later_trans : Transitive (@later W _ _).
Proof. intros a b c. unfold later. lia. Qed.

Lemma millis_of_timeout d now : millis_of (timeout_of d now) = saturating_sub d now.
Proof.
  unfold millis_of, timeout_of. cbn [harness_time.tv_sec harness_time.tv_nsec]. rewrite Z.div_mul by lia.
  pose proof (Z.div_mod (saturating_sub d now) 1000). lia.
Qed.

(** Waiting with a deadline: the deadline has passed, or a wakeup is spent. *)
Lemma wait_progress r w d : deadline r = Some d ->
  exists r' w', wait (r, w) = Ok (r', w') /\ reg r' = reg r /\ deadline r' = None /\ later w w' /\
    (d <= time w' \/ (wakeups w' < wakeups w)%nat).
Proof.
  intros Hd. unfold wait. rewrite Hd. destruct (clock_reads w) as [Ht Hl]. destruct (k_clock w) as [now w1]. cbn [fst snd] in *. subst now.
  destruct (poll_wakes w1 (map (fun s => (fd s, events s)) (sources r)) (timeout_of d (time w))) as (found & w2 & Hp & Hl2 & Hcase).
  rewrite millis_of_timeout in Hcase. unfold saturating_sub in Hcase.
  assert (d <= time w2 \/ (wakeups w2 < wakeups w)%nat) as Hout.
  { destruct Hl, Hl2, Hcase; [left|right]; lia. }
  assert (later w w2) as Hlt by (by transitivity w1).
  destruct (sources r) as [|s l] eqn:Es; rewrite Hp; cbn [rbind]; (destruct found as [flags|];
    [exists (mkReactor (zip_with (fun s f => mkSource (fd s) (events s) f) (sources r) flags ++ drop (length flags) (sources r)) None), w2
    |exists (mkReactor (sources r) None), w2]); rewrite Es; (split_and!; [done| |done|done|done]); unfold reg; cbn [sources]; rewrite Es;
    [|done| |done]; apply reg_flags.
Qed.

Section Race.
Context (fd_ cap d : Z).

(** What is registered while [recv_from] is in a state. *)
Definition registered (s : IoState unit) (r : Reactor) : Prop :=
  match s with
  | Going _ => reg r ≡ₚ []
  | Parked _ => reg r ≡ₚ [(fd_, POLLIN)]
  | Over => False
  end.

Abbreviation race := (select (recv_from fd_ cap) (sleep_until d)).

(** What the race may end with. *)
Definition race_result (w w' : W) (o : Either (res net.NetError (bytes * (bytes * Z))) unit) : Prop :=
  match o with
  | First (Ok (data, from)) => exists w0, later w w0 /\ later w0 w' /\ (k_recvfrom w0 fd_ cap).1 = Arrived data (Some from)
  | First _ => True
  | Second _ => d <= time w'
  end.

Lemma recv_calls w x w' : calls (recv_call fd_ cap) tt w (inl x) w' ->
  forall data from, x = Ok (data, from) -> (k_recvfrom w fd_ cap).1 = Arrived data (Some from).
Proof.
  intros H data from ->. inversion H as [? ? ? ? E| |? ? ? ? ? ? E]; subst; unfold recv_call in E;
    destruct (k_recvfrom w fd_ cap) as [[got [f|]| |e] ?]; by simplify_eq.
Qed.

Lemma recv_polls s r w : registered s r ->
  exists o s' r' w', poll (recv_from fd_ cap) s (r, w) = Ok (o, s', (r', w')) /\ later w w' /\ deadline r' = deadline r /\
    match o with
    | None => s' = Parked tt /\ reg r' ≡ₚ [(fd_, POLLIN)]
    | Some x => s' = Over /\ reg r' ≡ₚ [] /\
        forall data from, x = Ok (data, from) -> (k_recvfrom w fd_ cap).1 = Arrived data (Some from)
    end.
Proof.
  assert (len (@nil key) < MAX_SOURCES) as Hl by done. assert ((fd_, POLLIN) ∉ []) as Hn by apply not_elem_of_nil. cbn [poll recv_from io_loop].
  assert (forall s w, later w (recv_call fd_ cap s w).2) as HR.
  { intros [] w1. unfold recv_call. pose proof (recv_later w1 fd_ cap) as HR. destruct (k_recvfrom w1 fd_ cap). exact HR. }
  assert (forall s w s' w', recv_call fd_ cap s w = (More s', w') -> (0 < 0)%nat) as Hmore.
  { intros [] w1 s' w'. unfold recv_call. destruct (k_recvfrom w1 fd_ cap) as [[data [from|]| |e] ?]; done. }
  assert (forall x o s' r' w', io_polled fd_ POLLIN (recv_call fd_ cap) (Going x) o s' r' w w' [] -> later w w' /\
    match o with
    | None => s' = Parked tt /\ reg r' ≡ₚ [(fd_, POLLIN)]
    | Some x => s' = Over /\ reg r' ≡ₚ [] /\
        forall data from, x = Ok (data, from) -> (k_recvfrom w fd_ cap).1 = Arrived data (Some from)
    end) as Hdone.
  { intros [] [x|] s' r' w'; cbn [io_polled]; [intros (-> & Hr & Hc)|intros ([] & -> & Hr & Hc)].
    - split_and!; [exact (calls_R later _ HR _ _ _ _ Hc)|done|done|]. by eapply recv_calls.
    - split_and!; [exact (calls_R later _ HR _ _ _ _ Hc)|done|done]. }
  intros Hs. destruct s as [[]|[]|]; [| |done].
  - destruct (going_polls fd_ POLLIN (recv_call fd_ cap) (fun _ => O) Hmore 3 tt r w []) as (o & s' & r' & w' & Hrun & Hd & Hp); [lia|done|done|done|].
    exists o, s', r', w'. destruct (Hdone tt o s' r' w' Hp). by split_and!.
  - destruct (parked_polls fd_ POLLIN (recv_call fd_ cap) (fun _ => O) Hmore tt r w []) as [[Hrun _]|(_ & o & s' & r' & w' & Hrun & Hd & Hp)]; [done|done|done| |].
    + exists None, (Parked tt), r, w. split; [exact Hrun|]. by split_and!.
    + exists o, s', r', w'. destruct (Hdone tt o s' r' w' Hp). by split_and!.
Qed.

(** One poll of the race: it ends with nothing registered, or waits for both. *)
Lemma race_polls s r w : registered s r -> deadline r = None ->
  exists o s' r' w', select_poll (recv_from fd_ cap) (sleep_until d) (Some (s, tt)) (r, w) = Ok (o, s', (r', w')) /\ later w w' /\
    match o with
    | Some x => s' = None /\ reg r' ≡ₚ [] /\ race_result w w' x
    | None => s' = Some (Parked tt, tt) /\ reg r' ≡ₚ [(fd_, POLLIN)] /\ deadline r' = Some d /\ time w < d
    end.
Proof.
  intros Hs Hd. destruct (recv_polls s r w Hs) as (o & s' & r1 & w1 & Hp & Hw1 & Hd1 & Hc). unfold select_poll.
  rewrite Hp. cbn [rbind]. destruct o as [x|].
  - destruct Hc as (-> & Hr1 & Hx). do 4 eexists. split; [reflexivity|]. split; [done|]. split_and!; [done|exact Hr1|].
    cbn [race_result]. destruct x as [[data from]| | |]; try done. exists w. split_and!; [done|done|by apply Hx].
  - destruct Hc as (-> & Hr1). destruct (clock_reads w1) as [Ht Hl]. cbn [poll sleep_until]. destruct (k_clock w1) as [now w2]. cbn [fst snd] in Ht, Hl. subst now.
    destruct (d <=? time w1) eqn:E.
    + do 4 eexists. split; [reflexivity|]. split; [by transitivity w1|]. split_and!; [done| |].
      * cbn [drop_ recv_from io_loop sleep_until fst]. destruct (forget_held fd_ POLLIN r1) as [Hf _]; [rewrite Hr1; left|].
        rewrite Hr1 in Hf. by apply Permutation_cons_inv in Hf.
      * cbn [race_result snd]. destruct Hl. lia.
    + do 4 eexists. split; [reflexivity|]. split; [by transitivity w1|]. split_and!; [done|exact Hr1| |destruct Hw1; lia].
      cbn. by rewrite Hd1, Hd.
Qed.

Lemma race_result_later w1 w w' o : later w1 w -> race_result w w' o -> race_result w1 w' o.
Proof. destruct o as [[[? ?]| | |]|]; try done. intros H (w0 & ? & ? & ?). exists w0. split_and!; try done. by transitivity w. Qed.

Lemma race_ends fuel s r w : registered s r -> deadline r = None -> d <= time w \/ (wakeups w < fuel)%nat ->
  exists o r' w', block_on_from fuel race (Some (s, tt)) (r, w) = Ok (o, (r', w')) /\ reg r' ≡ₚ [] /\ later w w' /\ race_result w w' o.
Proof.
  revert s r w. induction fuel as [|fuel IH]; intros s r w Hs Hd Hfuel; cbn [block_on_from];
    destruct (race_polls s r w Hs Hd) as (o & s' & r1 & w1 & Hp & Hw1 & Hc); cbn [poll select]; rewrite Hp; cbn [rbind];
    (destruct o as [x|]; [destruct Hc as (-> & Hr & Hres); do 3 eexists; by split_and!|]).
  - destruct Hc as (_ & _ & _ & Hlt). lia.
  - destruct Hc as (-> & Hr & Hdl & Hlt). destruct (wait_progress r1 w1 d Hdl) as (r2 & w2 & -> & Hr2 & Hd2 & Hw2 & Hprog). cbn [rbind].
    destruct (IH (Parked tt) r2 w2) as (o & r3 & w3 & Hrun & Hr3 & Hw3 & Hres);
      [cbn [registered]; by rewrite Hr2|done|destruct Hw1, Hw2; lia|].
    assert (later w w2) as H2 by (by transitivity w1).
    exists o, r3, w3. split_and!; [done|done|by transitivity w2|by apply (race_result_later w w2)].
Qed.
End Race.

(** C21: Waiting for a datagram or the next tick ends.  However the kernel schedules
    its wakeups, racing [recv_from] against a deadline returns after at most one wait
    more than there are early wakeups: with a datagram the kernel delivered meanwhile,
    with an error of the socket, or because the deadline has really passed.  The reactor
    is left with nothing registered. *)
Theorem recv_or_tick fuel fd_ cap d w : (wakeups w < fuel)%nat ->
  exists o r' w', block_on fuel (select (recv_from fd_ cap) (sleep_until d)) (reactor_new, w) = Ok (o, (r', w')) /\
    sources r' = [] /\ later w w' /\ race_result fd_ cap d w w' o.
Proof.
  intros Hfuel. destruct (race_ends fd_ cap d fuel (Going tt) reactor_new w) as (o & r' & w' & Hrun & Hr & Hw & Hres);
    [exact (Permutation_refl [])|done|by right|]. exists o, r', w'. split_and!; try done.
  apply Permutation_nil_r in Hr. unfold reg in Hr. by destruct (sources r').
Qed.
End Tick.

(** ** A kernel *)

Module ExecDemo.

(** The time, the datagrams that will come and when, and those that have. *)
Record World := mkWorld { now : Z; coming : list (Z * bytes); arrived : list bytes }.

Definition peer : bytes * Z := ([10; 0; 0; 1], 41641).

#[export] Instance world_kernel : Kernel World := {
  k_clock w := (now w, w);
  k_poll w fds t :=
    match t, coming w with
    | None, [] => Hang
    | None, (at_, d) :: l => Ok (Some (map (fun _ => POLLIN) fds), mkWorld (Z.max (now w) at_) l (arrived w ++ [d]))
    | Some t, [] => Ok (None, mkWorld (now w + Z.max 0 (millis_of t)) [] (arrived w))
    | Some t, (at_, d) :: l =>
        if at_ <=? now w + millis_of t
        then Ok (Some (map (fun _ => POLLIN) fds), mkWorld (Z.max (now w) at_) l (arrived w ++ [d]))
        else Ok (None, mkWorld (now w + Z.max 0 (millis_of t)) (coming w) (arrived w))
    end;
  k_recvfrom w _ cap :=
    match arrived w with
    | [] => (WouldBlock, w)
    | d :: l => (Arrived (ztake cap d) (Some peer), mkWorld (now w) (coming w) l)
    end }.

#[export] Instance world_kernel_ok : KernelOk World.
Proof.
  refine {| time := now; wakeups w := length (coming w) |}.
  - intros w. by split.
  - intros [n c [|d l]] fd_ cap; by cbn.
  - intros [n [|[a d] c] l] fds t; cbn [k_poll world_kernel coming now];
      [|destruct (a <=? n + millis_of t) eqn:E]; do 2 eexists; (split; [reflexivity|]); cbn; lia.
Defined.

Definition hello : bytes := [104; 105].

(** One datagram at 40 ms, the deadline at 50 ms. *)
Definition world0 : World := mkWorld 0 [(40, hello)] [].

Lemma recv_or_tick_witness :
  block_on 2 (select (recv_from 3 100) (sleep_until 50)) (reactor_new, world0)
    = Ok (First (Ok (hello, peer)), (mkReactor [] None, mkWorld 40 [] [])) /\
  block_on 2 (select (recv_from 3 100) (sleep_until 30)) (reactor_new, world0)
    = Ok (Second tt, (mkReactor [] None, mkWorld 30 [(40, hello)] [])) /\
  exists o r' w', block_on 2 (select (recv_from 3 100) (sleep_until 50)) (reactor_new, world0) = Ok (o, (r', w')) /\
    sources r' = [] /\ later world0 w' /\ race_result 3 100 50 world0 w' o.
Proof.
  split; [vm_compute; reflexivity|]. split; [vm_compute; reflexivity|]. apply (recv_or_tick 2 3 100 50 world0). cbn. lia.
Defined.

(** What a call does to the world. *)
Definition world_clock w : later w (k_clock w).2 := proj2 (clock_reads w).
Lemma world_polls (w : World) fds t :
  match k_poll w fds t with Ok (_, w') => later w w' | Err e => False | Panic => False | Hang => True end.
Proof.
  destruct w as [n [|[a d] c] l], t as [t|]; cbn [k_poll world_kernel coming now]; try destruct (a <=? n + millis_of t);
    try exact I; split; cbn; lia.
Qed.

#[export] Instance race_tidy : Tidy later (select (recv_from 3 100) (sleep_until 50)) :=
  select_tidy later world_clock recv_later _ _ (Ta := recv_tidy later world_clock recv_later 3 100) (Tb := sleep_tidy later world_clock 50)
    (fun x _ H => not_elem_of_nil x H).

(** A control connection is registered too, and stays. *)
Definition busy : Reactor := mkReactor [mkSource 5 POLLIN 0] None.

Lemma block_on_tidy_witness :
  match block_on 2 (select (recv_from 3 100) (sleep_until 50)) (busy, world0) with
  | Ok (_, (r', w')) => reg r' ≡ₚ [(5, POLLIN)] /\ later world0 w'
  | Err _ | Panic => False
  | Hang => True
  end.
Proof.
  apply (block_on_tidy later world_clock world_polls _ (Tf := race_tidy)); [done| |vm_compute; discriminate].
  cbn. set_solver.
Defined.

End ExecDemo.
