(* ===== verification/HarnessIo.v ===== *)
(** * The harness: sockets

    [harness/src/net.rs] over the executor: datagram and stream sockets, each operation
    a loop that tries its system call and awaits readiness.  What the theorems say:
    [write_all] hands the kernel exactly the buffer, and reading through the executor
    gives what the stream of [HarnessNet.v] gives, on which the rest of the harness is
    proved. *)

From S2P Require Import Prelude HarnessNet HarnessWg HarnessExec HarnessExecTheorems.
Import harness_exec.

(** The system calls on sockets: a result or an error number.  An address is read back
    as its octets and port when it is IPv4. *)
Class Sockets (W : Type) := {
  s_socket : W -> Z -> (Z + Z) * W;
  s_bind : W -> Z -> bytes * Z -> (unit + Z) * W;
  s_listen : W -> Z -> Z -> (unit + Z) * W;
  s_connect : W -> Z -> bytes * Z -> (unit + Z) * W;
  s_socket_error : W -> Z -> (option Z + Z) * W;
  s_getsockname : W -> Z -> (option (bytes * Z) + Z) * W;
  s_accept : W -> Z -> (Z + Z) * W;
  s_sendto : W -> Z -> bytes -> bytes * Z -> (Z + Z) * W;
  s_read : W -> Z -> Z -> (bytes + Z) * W;
  s_write : W -> Z -> bytes -> (Z + Z) * W }.

Module harness_io.
Import net.

Definition AGAIN : Z := 11.
Definition INTR : Z := 4.
Definition INPROGRESS : Z := 115.
Definition CONNRESET : Z := 104.
Definition TIMEDOUT : Z := 110.
Definition CONNREFUSED : Z := 111.
Definition STREAM : Z := 1.
Definition DGRAM : Z := 2.

(** [WOULDBLOCK] is [AGAIN]. *)
Definition would_block (e : Z) : bool := (e =? AGAIN) || (e =? INTR).

(** [map_err(NetError::Errno)] *)
Definition errno {A} (r : A + Z) : res NetError A := match r with inl a => Ok a | inr e => Err (Errno e) end.

Section Calls.
Context {W : Type} `{Sockets W}.

(** ** Opening *)

Definition new_socket (w : W) (kind : Z) : res NetError Z * W := let (r, w) := s_socket w kind in (errno r, w).

Definition local_v4 (w : W) (fd_ : Z) : res NetError (bytes * Z) * W :=
  let (r, w) := s_getsockname w fd_ in (let! a := errno r in ok_or a NotIpv4, w).

(** Go on with the value, in the world it left. *)
Definition andthen {A B} (m : res NetError A * W) (k : A -> W -> res NetError B * W) : res NetError B * W :=
  match m with
  | (Ok a, w) => k a w
  | (Err e, w) => (Err e, w)
  | (Panic, w) => (Panic, w)
  | (Hang, w) => (Hang, w)
  end.

(** [UdpSocket::bind] *)
Definition udp_bind (w : W) (address : bytes) (port : Z) : res NetError Z * W :=
  andthen (new_socket w DGRAM) (fun fd_ w =>
  let (r, w) := s_bind w fd_ (address, port) in (let! _ := errno r in Ok fd_, w)).

(** [UdpSocket::outbound_address] *)
Definition outbound_address (w : W) (target : bytes * Z) : res NetError bytes * W :=
  andthen (new_socket w DGRAM) (fun fd_ w =>
  andthen (let (r, w) := s_connect w fd_ target in (errno r, w)) (fun _ w =>
  andthen (local_v4 w fd_) (fun '(ip, _) w => (Ok ip, w)))).

(** [TcpListener::bind] *)
Definition tcp_bind (w : W) (address : bytes) (port : Z) : res NetError Z * W :=
  andthen (new_socket w STREAM) (fun fd_ w =>
  andthen (let (r, w) := s_bind w fd_ (address, port) in (errno r, w)) (fun _ w =>
  let (r, w) := s_listen w fd_ 1 in (let! _ := errno r in Ok fd_, w))).

(** ** The operations that wait *)

(** What a call that may block leads to. *)
Definition tried {St A B} (r : A + Z) (again : St) (k : A -> Outcome St (res NetError B)) : Outcome St (res NetError B) :=
  match r with
  | inl a => k a
  | inr e => if would_block e then NotYet again else Ended (Err (Errno e))
  end.

Definition send_call (fd_ : Z) (buf : bytes) (to : bytes * Z) (s : unit) (w : W) : Outcome unit (res NetError Z) * W :=
  let (r, w) := s_sendto w fd_ buf to in (tried r tt (fun n => Ended (Ok n)), w).
Definition send_to (fd_ : Z) (buf : bytes) (to : bytes * Z) : Future (res NetError Z) :=
  io_loop fd_ POLLOUT (send_call fd_ buf to) (fun _ => O) tt.

Definition accept_call (fd_ : Z) (s : unit) (w : W) : Outcome unit (res NetError Z) * W :=
  let (r, w) := s_accept w fd_ in (tried r tt (fun fd_ => Ended (Ok fd_)), w).
Definition accept (fd_ : Z) : Future (res NetError Z) := io_loop fd_ POLLIN (accept_call fd_) (fun _ => O) tt.

(** [TcpStream::connect], once it has its socket: whether the attempt is under way. *)
Definition connect_call (fd_ : Z) (to : bytes * Z) (started : bool) (w : W) : Outcome bool (res NetError unit) * W :=
  if started then
    let (r, w) := s_socket_error w fd_ in
    (Ended (let! e := errno r in match e with None => Ok tt | Some e => Err (Errno e) end), w)
  else
    let (r, w) := s_connect w fd_ to in
    (match r with
     | inl _ => Ended (Ok tt)
     | inr e => if e =? INPROGRESS then NotYet true else Ended (Err (Errno e))
     end, w).
Definition connect (fd_ : Z) (to : bytes * Z) : Future (res NetError unit) :=
  io_loop fd_ POLLOUT (connect_call fd_ to) (fun _ => O) false.

(** [TcpStream::connect] up to where it may wait. *)
Definition tcp_connect (w : W) (to : bytes * Z) : res NetError (Z * Future (res NetError unit)) * W :=
  andthen (new_socket w STREAM) (fun fd_ w => (Ok (fd_, connect fd_ to), w)).

Definition read_call (fd_ cap : Z) (s : unit) (w : W) : Outcome unit (res NetError bytes) * W :=
  let (r, w) := s_read w fd_ cap in
  (tried r tt (fun data => match data with [] => Ended (Err Closed) | _ => Ended (Ok data) end), w).
Definition read (fd_ cap : Z) : Future (res NetError bytes) := io_loop fd_ POLLIN (read_call fd_ cap) (fun _ => O) tt.

(** What is filled of the buffer of [n] bytes. *)
Definition read_exact_call (fd_ n : Z) (filled : bytes) (w : W) : Outcome bytes (res NetError bytes) * W :=
  if n <=? len filled then (Ended (Ok filled), w) else
  let (r, w) := s_read w fd_ (n - len filled) in
  (tried r filled (fun data => match data with [] => Ended (Err Closed) | _ => More (filled ++ data) end), w).
Definition read_exact (fd_ n : Z) : Future (res NetError bytes) :=
  io_loop fd_ POLLIN (read_exact_call fd_ n) (fun filled => Z.to_nat (n - len filled)) [].

Definition write_all_call (fd_ : Z) (buf : bytes) (written : Z) (w : W) : Outcome Z (res NetError unit) * W :=
  if len buf <=? written then (Ended (Ok tt), w) else
  let (r, w) := s_write w fd_ (zdrop written buf) in
  (tried r written (fun n => if n =? 0 then Ended (Err Closed) else More (written + n)), w).
Definition write_all (fd_ : Z) (buf : bytes) : Future (res NetError unit) :=
  io_loop fd_ POLLOUT (write_all_call fd_ buf) (fun written => Z.to_nat (len buf - written)) 0.

End Calls.

(** ** The traits of [embedded-io-async] *)

Inductive ErrorKind := BrokenPipe | InvalidInput | ConnectionRefused | ConnectionReset | TimedOut | Other.

Definition kind (e : NetError) : ErrorKind :=
  match e with
  | Closed => BrokenPipe
  | NotIpv4 => InvalidInput
  | Errno e => if e =? CONNREFUSED then ConnectionRefused else if e =? CONNRESET then ConnectionReset else
               if e =? TIMEDOUT then TimedOut else Other
  end.

(** [Read::read]: a closed connection is the end of the stream. *)
Definition embedded_read (r : res NetError bytes) : res NetError bytes := match r with Err Closed => Ok [] | _ => r end.

(** [Write::write]: all of it. *)
Definition embedded_write (buf : bytes) (r : res NetError unit) : res NetError Z := let! _ := r in Ok (len buf).

End harness_io.
Import net harness_io.

(** ** Waiting without a deadline *)

(** A kernel that does not leave the program waiting for ever: a wait returns because
    the descriptor is ready or early, for a signal; [stalls] is how often it may still
    be early or a call may still find nothing to do.  [idle] is what time passing may
    do to the world. *)
Class Flowing (W : Type) `{K : Kernel W} := {
  stalls : W -> nat;
  idle : W -> W -> Prop;
  idle_refl :: Reflexive idle;
  idle_trans :: Transitive idle;
  waits w k : exists found w', k_poll w [k] None = Ok (found, w') /\ idle w w' /\
    ((exists flags, found = Some [flags] /\ flags <> 0) /\ (stalls w' <= stalls w)%nat \/
     (found = None \/ exists flags, found = Some [flags]) /\ (stalls w' < stalls w)%nat) }.

Section Flow.
Context {W : Type} `{F : Flowing W}.

(** A call that blocks uses up a stall. *)
Class Blocking {St Out : Type} (call : St -> W -> Outcome St Out * W) (left : St -> nat) := {
  call_left s w s' w' : call s w = (More s', w') -> (left s' < left s)%nat;
  call_stalls s w : (stalls (call s w).2 <= stalls w)%nat;
  call_waits s w s' w' : call s w = (NotYet s', w') -> (stalls w' < stalls w)%nat }.

Section Io.
Context {St Out : Type} (fd_ ev : Z) (call : St -> W -> Outcome St Out * W) (left : St -> nat) `{B : !Blocking call left}.

(** The calls of the whole operation, with the waits between them. *)
Inductive history : St -> W -> Out -> W -> Prop :=
| history_end s w a w' : calls call s w (inl a) w' -> history s w a w'
| history_wait s w s1 w1 w2 a w' : calls call s w (inr s1) w1 -> idle w1 w2 -> history s1 w2 a w' -> history s w a w'.

Lemma calls_stalls s w o w' : calls call s w o w' -> (stalls w' <= stalls w)%nat /\ match o with inl _ => True | inr _ => (stalls w' < stalls w)%nat end.
Proof.
  induction 1 as [s w a w' H|s w s' w' H|s w s1 w1 o w' H _ [IH1 IH2]]; pose proof (call_stalls s w) as Hs; rewrite H in Hs; cbn [snd] in Hs.
  - done.
  - apply call_waits in H. split; lia.
  - split; [lia|]. destruct o; [done|lia].
Qed.

(** Only its own source is registered. *)
Definition waiting (v : Z) : Reactor := mkReactor [mkSource fd_ ev v] None.

Lemma wait_one v w : exists v' w', wait (waiting v, w) = Ok (waiting v', w') /\ idle w w' /\
  (v' <> 0 /\ (stalls w' <= stalls w)%nat \/ (stalls w' < stalls w)%nat).
Proof.
  unfold wait, waiting. cbn [deadline sources map fd events]. destruct (waits w (fd_, ev)) as (found & w' & -> & Hi & Hc). cbn [rbind].
  destruct Hc as [[(f & -> & Hf) Hs]|[[->|[f ->]] Hs]].
  - exists f, w'. split_and!; [done|done|by left].
  - exists v, w'. split_and!; [done|done|by right].
  - exists f, w'. split_and!; [done|done|by right].
Qed.

Lemma poll_waiting v : poll_source fd_ ev (waiting v) = Ok (if v =? 0 then (None, waiting v) else (Some v, reactor_new)).
Proof.
  unfold poll_source, waiting. cbn [sources position deadline]. unfold is_source. cbn [fd events]. rewrite !Z.eqb_refl. cbn. by destruct (v =? 0).
Qed.

Lemma parked_step fuel x v w :
  io_poll fd_ ev call (S fuel) (Parked x) (waiting v, w) =
    if v =? 0 then Ok (None, Parked x, (waiting v, w)) else io_poll fd_ ev call fuel (Going x) (reactor_new, w).
Proof.
  change (io_poll fd_ ev call (S fuel) (Parked x) (waiting v, w)) with
    (let! '(o, r) := poll_source fd_ ev (waiting v) in
     match o with None => Ok (None, Parked x, (r, w)) | Some _ => io_poll fd_ ev call fuel (Going x) (forget_source fd_ ev r, w) end).
  rewrite poll_waiting. by destruct (v =? 0).
Qed.

Lemma going_alone fuel x w : (left x < fuel)%nat -> exists o w',
  io_poll fd_ ev call fuel (Going x) (reactor_new, w)
    = Ok (match o with inl a => (Some a, Over, (reactor_new, w')) | inr x' => (None, Parked x', (waiting 0, w')) end) /\
  calls call x w o w'.
Proof.
  revert x w. induction fuel as [|fuel IH]; intros x w Hf; [lia|]. cbn [io_poll fst snd].
  destruct (call x w) as [[x1|x1|a] w1] eqn:Ec.
  - destruct (IH x1 w1) as (o & w' & -> & Hc); [apply call_left in Ec; lia|]. exists o, w'. split; [done|]. by eapply calls_more.
  - exists (inr x1), w1. split; [done|by constructor].
  - exists (inl a), w1. split; [done|by constructor].
Qed.

(** Where it is between two polls, and how long it may go on. *)
Definition at_rest (fuel : nat) (s : IoState St) (x : St) (r : Reactor) (w : W) : Prop :=
  match s with
  | Going y => x = y /\ r = reactor_new /\ (stalls w <= fuel)%nat
  | Parked y => x = y /\ exists v, r = waiting v /\ (v <> 0 /\ (stalls w <= fuel)%nat \/ (stalls w < fuel)%nat)
  | Over => False
  end.

Lemma rest_polls fuel s x r w : at_rest fuel s x r w ->
  (io_poll fd_ ev call (turns left s) s (r, w) = Ok (None, Parked x, (waiting 0, w)) /\ (stalls w < fuel)%nat) \/
  (stalls w <= fuel)%nat /\ exists o w', calls call x w o w' /\
    io_poll fd_ ev call (turns left s) s (r, w)
      = Ok (match o with inl a => (Some a, Over, (reactor_new, w')) | inr x' => (None, Parked x', (waiting 0, w')) end).
Proof.
  destruct s as [y|y|]; [| |done].
  - intros (-> & -> & Hw). right. split; [done|]. destruct (going_alone (turns left (Going y)) y w) as (o & w' & ? & ?); [cbn; lia|]. by exists o, w'.
  - intros (-> & v & -> & Hc). unfold turns. rewrite Nat.add_comm. cbn [Nat.add]. rewrite parked_step. destruct (v =? 0) eqn:E; bool_hyps.
    + subst v. left. destruct Hc as [[? _]|?]; done.
    + right. split; [lia|]. destruct (going_alone (2 + left y) y w) as (o & w' & ? & ?); [lia|]. by exists o, w'.
Qed.

Lemma flow_ends init fuel s x r w : at_rest fuel s x r w ->
  exists a w0 w', block_on_from fuel (io_loop fd_ ev call left init) s (r, w) = Ok (a, (reactor_new, w')) /\ idle w w0 /\ history x w0 a w'.
Proof.
  revert s x r w. induction fuel as [|fuel IH]; intros s x r w Hs; cbn [block_on_from poll io_loop];
    destruct (rest_polls _ s x r w Hs) as [[-> Hlt]|(Hle & o & w1 & Hc & ->)]; cbn [rbind].
  - lia.
  - apply calls_stalls in Hc as Hlt. destruct o as [a|x']; [|lia]. exists a, w, w1. split_and!; [done|done|by constructor].
  - destruct (wait_one 0 w) as (v & w2 & -> & Hi & Hv). cbn [rbind].
    destruct (IH (Parked x) x (waiting v) w2) as (a & w0 & w' & -> & Hi0 & Hh); [split; [done|]; exists v; split; [done|]; destruct Hv as [[? ?]|?]; [left|right]; lia|].
    exists a, w0, w'. split_and!; [done|by transitivity w2|done].
  - apply calls_stalls in Hc as Hlt. destruct o as [a|x']; [exists a, w, w1; split_and!; [done|done|by constructor]|].
    destruct (wait_one 0 w1) as (v & w2 & -> & Hi & Hv). cbn [rbind].
    destruct (IH (Parked x') x' (waiting v) w2) as (a & w0 & w' & -> & Hi0 & Hh); [split; [done|]; exists v; split; [done|]; destruct Hv as [[? ?]|?]; [left|right]; lia|].
    exists a, w, w'. split_and!; [done|done|]. eapply history_wait; [done| |done]. by transitivity w2.
Qed.

(** Running one to its end: it ends, and the reactor is as it was. *)
Lemma io_runs fuel init w : (stalls w <= fuel)%nat -> exists a w',
  block_on fuel (io_loop fd_ ev call left init) (reactor_new, w) = Ok (a, (reactor_new, w')) /\ exists w0, idle w w0 /\ history init w0 a w'.
Proof.
  intros Hw. destruct (flow_ends init fuel (Going init) init reactor_new w) as (a & w0 & w' & ? & ? & ?); [done|]. exists a, w'. split; [done|]. by exists w0.
Qed.

(** What holds of a step and of waiting holds of the whole operation. *)
Lemma history_holds (P : St -> W -> Prop) (Q : Out -> W -> Prop) :
  (forall s w, P s w -> let (o, w') := call s w in match o with Ended a => Q a w' | More s' | NotYet s' => P s' w' end) ->
  (forall s w w', P s w -> idle w w' -> P s w') ->
  forall s w a w', history s w a w' -> P s w -> Q a w'.
Proof.
  intros Hstep Hidle. assert (forall s w o w', calls call s w o w' -> P s w -> match o with inl a => Q a w' | inr s' => P s' w' end) as Hcalls.
  { induction 1 as [s w a w' H|s w s' w' H|s w s1 w1 o w' H _ IH]; intros HP; specialize (Hstep s w HP); rewrite H in Hstep; cbn beta iota in *; [exact Hstep|exact Hstep|apply IH, Hstep]. }
  induction 1 as [s w a w' Hc|s w s1 w1 w2 a w' Hc Hi _ IH]; intros HP; apply Hcalls in Hc; eauto.
Qed.

End Io.
End Flow.

(** ** A connected stream *)

(** What a connection relies on: the kernel hands over what is pending in order, in
    pieces of its choosing, no bytes at the end of the stream only, and takes a piece
    of what is written; while nothing is asked of it, nothing is lost. *)
Class Connection (W : Type) `{F : Flowing W} `{S : Sockets W} (fd_ : Z) := {
  pending : W -> bytes;
  sent : W -> bytes;
  idle_streams w w' : idle w w' -> pending w' = pending w /\ sent w' = sent w;
  read_gives w cap : 0 < cap ->
    let (r, w') := s_read w fd_ cap in
    match r with
    | inl data => len data <= cap /\ pending w = data ++ pending w' /\ (data = [] -> pending w = [])
    | inr _ => pending w' = pending w
    end;
  read_stalls w cap :
    let (r, w') := s_read w fd_ cap in
    (stalls w' <= stalls w)%nat /\ match r with inr e => if would_block e then (stalls w' < stalls w)%nat else True | inl _ => True end;
  write_takes w buf :
    let (r, w') := s_write w fd_ buf in
    match r with
    | inl n => 0 <= n <= len buf /\ sent w' = sent w ++ ztake n buf
    | inr _ => sent w' = sent w
    end;
  write_stalls w buf :
    let (r, w') := s_write w fd_ buf in
    (stalls w' <= stalls w)%nat /\ match r with inr e => if would_block e then (stalls w' < stalls w)%nat else True | inl _ => True end }.

Lemma ztake_add {A} n k (l : list A) : 0 <= n -> 0 <= k -> ztake (n + k) l = ztake n l ++ ztake k (zdrop n l).
Proof. intros. unfold ztake, zdrop. by rewrite Z2Nat.inj_add, take_take_drop by lia. Qed.

Section Streams.
Context {W : Type} (fd_ : Z) `{C : Connection W fd_}.

#[export] Instance write_all_blocking buf : Blocking (write_all_call fd_ buf) (fun written => Z.to_nat (len buf - written)).
Proof.
  constructor.
  - intros n w n' w'. unfold write_all_call. case_if; [done|]. bool_hyps. pose proof (write_takes w (zdrop n buf)) as Hw.
    destruct (s_write w fd_ (zdrop n buf)) as [[k|e] w1]; cbn [tried]; [|by case_if]. case_if; [done|]. bool_hyps. intros [= <- <-]. lia.
  - intros n w. unfold write_all_call. case_if; [done|]. pose proof (write_stalls w (zdrop n buf)) as Hw.
    destruct (s_write w fd_ (zdrop n buf)) as [[k|e] w1]; cbn [snd]; lia.
  - intros n w n' w'. unfold write_all_call. case_if; [done|]. pose proof (write_stalls w (zdrop n buf)) as Hw.
    destruct (s_write w fd_ (zdrop n buf)) as [[k|e] w1]; cbn [tried]; [by case_if|]. destruct (would_block e); [|done]. intros [= <- <-]. lia.
Qed.

#[export] Instance read_exact_blocking n : Blocking (read_exact_call fd_ n) (fun filled => Z.to_nat (n - len filled)).
Proof.
  constructor.
  - intros b w b' w'. unfold read_exact_call. case_if; [done|]. bool_hyps. pose proof (read_gives w (n - len b)) as Hw.
    destruct (s_read w fd_ (n - len b)) as [[[|c data]|e] w1]; cbn [tried]; [done| |by case_if]. intros [= <- <-]. llia.
  - intros b w. unfold read_exact_call. case_if; [done|]. pose proof (read_stalls w (n - len b)) as Hw.
    destruct (s_read w fd_ (n - len b)) as [[k|e] w1]; cbn [snd]; lia.
  - intros b w b' w'. unfold read_exact_call. case_if; [done|]. pose proof (read_stalls w (n - len b)) as Hw.
    destruct (s_read w fd_ (n - len b)) as [[[|]|e] w1]; cbn [tried]; try done. destruct (would_block e); [|done]. intros [= <- <-]. lia.
Qed.

(** Writing a buffer hands the kernel exactly that buffer.  However the kernel
    splits what it takes, however often the socket is full and however often a wait
    returns early, [write_all] comes back, with nothing registered; when it reports
    success, what has been sent is what had been sent before followed by the whole
    buffer, and when it reports an error, by a proper part of it from the front. *)
Theorem write_all_sends fuel buf w : (stalls w <= fuel)%nat -> exists a w',
  block_on fuel (write_all fd_ buf) (reactor_new, w) = Ok (a, (reactor_new, w')) /\
  match a with
  | Ok _ => sent w' = sent w ++ buf
  | Err _ => exists n, 0 <= n < len buf /\ sent w' = sent w ++ ztake n buf
  | Panic | Hang => False
  end.
Proof.
  intros Hw. destruct (io_runs fd_ POLLOUT (write_all_call fd_ buf) (fun written => Z.to_nat (len buf - written)) fuel 0 w Hw)
    as (a & w' & Hrun & w0 & Hi & Hh). exists a, w'. split; [exact Hrun|]. revert Hh.
  apply idle_streams in Hi as [_ Hi]. rewrite <- Hi. clear Hrun Hi Hw.
  intros Hh. apply (history_holds (write_all_call fd_ buf) (fun n w1 => 0 <= n <= len buf /\ sent w1 = sent w0 ++ ztake n buf)
    (fun a w' => match a with
                 | Ok _ => sent w' = sent w0 ++ buf
                 | Err _ => exists n, 0 <= n < len buf /\ sent w' = sent w0 ++ ztake n buf
                 | Panic | Hang => False
                 end)) with (s := 0) (w := w0); [| |exact Hh|].
  - intros n w1 [Hn Hs]. unfold write_all_call. case_if; bool_hyps.
    + rewrite Hs, ztake_all by lia. done.
    + pose proof (write_takes w1 (zdrop n buf)) as Ht. destruct (s_write w1 fd_ (zdrop n buf)) as [[k|e] w2]; cbn [tried].
      * destruct Ht as [Hk Ht]. rewrite len_zdrop in Hk by lia. assert (sent w2 = sent w0 ++ ztake (n + k) buf) as Hs2.
        { rewrite Ht, Hs, <- app_assoc. f_equal. by rewrite ztake_add by lia. }
        case_if; bool_hyps; [|split; [lia|done]]. exists n. subst k. rewrite Z.add_0_r in Hs2. split; [lia|done].
      * rewrite Hs in Ht. case_if; [split; [lia|done]|]. exists n. split; [lia|done].
  - intros n w1 w2 [Hn Hs] Hi. apply idle_streams in Hi as [_ ->]. done.
  - split; [nonneg_lens; lia|]. by rewrite ztake_0, app_nil_r by lia.
Qed.

(** C22: Reading through the executor gives what the stream gives.  Whatever pieces the
    kernel hands over and however it wakes the program, [read_exact] of [n] bytes comes
    back with nothing registered; a success is the very result the stream that the rest
    of the harness reads has for it, where what is pending is what is coming on the
    stream, and leaves the same bytes to come; at the end of the stream fewer than [n]
    bytes were left. *)
Theorem read_exact_refines fuel n w s : (stalls w <= fuel)%nat -> Forall (fun seg : bytes => 0 < len seg) (arrivals s) -> coming s = pending w -> 0 <= n ->
  exists a w', block_on fuel (read_exact fd_ n) (reactor_new, w) = Ok (a, (reactor_new, w')) /\
  match a with
  | Ok data => exists s', fill_buffer n s = Ok (data, s') /\ coming s' = pending w'
  | Err e => exists got, pending w = got ++ pending w' /\ len got < n /\ (e = Closed -> pending w' = [])
  | Panic | Hang => False
  end.
Proof.
  intros Hw Hcut Hcom Hn. destruct (io_runs fd_ POLLIN (read_exact_call fd_ n) (fun filled => Z.to_nat (n - len filled)) fuel [] w Hw)
    as (a & w' & Hrun & w0 & Hi & Hh). exists a, w'. split; [exact Hrun|]. apply idle_streams in Hi as [Hi _]. rewrite <- Hi in Hcom |- *. clear Hrun Hi Hw.
  assert (match a with
          | Ok data => pending w0 = data ++ pending w' /\ len data = n
          | Err e => exists got, pending w0 = got ++ pending w' /\ len got < n /\ (e = Closed -> pending w' = [])
          | Panic | Hang => False
          end) as Hq.
  { apply (history_holds (read_exact_call fd_ n) (fun filled w1 => pending w0 = filled ++ pending w1 /\ len filled <= n)
      (fun a w' => match a with
                   | Ok data => pending w0 = data ++ pending w' /\ len data = n
                   | Err e => exists got, pending w0 = got ++ pending w' /\ len got < n /\ (e = Closed -> pending w' = [])
                   | Panic | Hang => False
                   end)) with (s := []) (w := w0); [| |exact Hh|].
    - intros b w1 [Hb Hl]. unfold read_exact_call. case_if; bool_hyps; [split; [done|lia]|].
      pose proof (read_gives w1 (n - len b)) as Hg. destruct (s_read w1 fd_ (n - len b)) as [[data|e] w2]; cbn [tried]; specialize (Hg ltac:(lia)).
      + destruct Hg as (Hd & Hp & He). destruct data as [|c data].
        * exists b. rewrite (He eq_refl) in Hp. cbn [app] in Hp. split_and!; [by rewrite Hb, (He eq_refl), <- Hp|lia|done].
        * split; [by rewrite Hb, Hp, app_assoc|]. rewrite len_app. lia.
      + case_if; rewrite Hg; [split; [done|lia]|]. exists b. by split_and!.
    - intros b w1 w2 [Hb Hl] Hi. apply idle_streams in Hi as [-> _]. done.
    - split; [done|]. unfold len. cbn. lia. }
  destruct a as [data|e| |]; [|exact Hq|done|done]. destruct Hq as [Hq <-].
  destruct (fill_buffer_ok data (pending w') s Hcut) as (s' & Hf & Hc & _); [by rewrite Hcom|]. by exists s'.
Qed.

End Streams.

(** ** Every operation is a future like the others *)

Section Tidiness.
Context {W : Type} `{K : Kernel W} `{S : Sockets W} (R : W -> W -> Prop) `{!Reflexive R} `{!Transitive R}.
Context (R_clock : forall w, R w (k_clock w).2) (R_recv : forall w fd_ cap, R w (k_recvfrom w fd_ cap).2).
Context (R_sendto : forall w fd_ b a, R w (s_sendto w fd_ b a).2) (R_accept : forall w fd_, R w (s_accept w fd_).2)
  (R_connect : forall w fd_ a, R w (s_connect w fd_ a).2) (R_error : forall w fd_, R w (s_socket_error w fd_).2)
  (R_read : forall w fd_ n, R w (s_read w fd_ n).2) (R_write : forall w fd_ b, R w (s_write w fd_ b).2).
Context (takes : forall w fd_ b, match (s_write w fd_ b).1 with inl n => 0 <= n | inr _ => True end).

Ltac tidy_io := apply io_tidy; [exact _|exact _|assumption|assumption| |].
(** A call does what its system call does. *)
Ltac one_call H := let E := fresh in pose proof H as E; (let r := fresh in let w := fresh in match type of E with R _ (?c).2 => destruct c as [r w] end); exact E.
(** It never goes on without a wait. *)
Ltac at_once := let r := fresh in let w := fresh in
  match goal with |- (let (_, _) := ?c in _) = _ -> _ => destruct c as [[r|r] w] end; cbn [tried]; repeat case_if; done.

#[export] Instance send_to_tidy fd_ b a : Tidy R (send_to fd_ b a).
Proof. tidy_io; intros s w; unfold send_call; [one_call (R_sendto w fd_ b a)|intros s' w'; at_once]. Defined.

#[export] Instance accept_tidy fd_ : Tidy R (accept fd_).
Proof. tidy_io; intros s w; unfold accept_call; [one_call (R_accept w fd_)|intros s' w'; at_once]. Defined.

#[export] Instance connect_tidy fd_ a : Tidy R (connect fd_ a).
Proof.
  tidy_io; intros [] w; unfold connect_call; [one_call (R_error w fd_)|one_call (R_connect w fd_ a)|intros s' w'; at_once|intros s' w'; at_once].
Defined.

#[export] Instance read_tidy fd_ cap : Tidy R (read fd_ cap).
Proof.
  tidy_io; intros s w; unfold read_call; [one_call (R_read w fd_ cap)|]. intros s' w'.
  destruct (s_read w fd_ cap) as [[[|]|] ?]; cbn [tried]; repeat case_if; done.
Defined.

#[export] Instance read_exact_tidy fd_ n : Tidy R (read_exact fd_ n).
Proof.
  tidy_io; intros s w; unfold read_exact_call; (case_if; [done|]); [one_call (R_read w fd_ (n - len s))|]. intros s' w'.
  destruct (s_read w fd_ (n - len s)) as [[[|]|] ?]; cbn [tried]; repeat case_if; try done. intros [= <- <-]. bool_hyps. llia.
Defined.

#[export] Instance write_all_tidy fd_ b : Tidy R (write_all fd_ b).
Proof.
  tidy_io; intros s w; unfold write_all_call; (case_if; [done|]); [one_call (R_write w fd_ (zdrop s b))|]. intros s' w'.
  pose proof (takes w fd_ (zdrop s b)) as Ht. destruct (s_write w fd_ (zdrop s b)) as [[|] ?]; cbn [tried fst] in *; repeat case_if; try done.
  intros [= <- <-]. bool_hyps. lia.
Defined.

End Tidiness.

(** ** A connection *)

Module IoDemo.

(** What has arrived and what will, how much the kernel takes at a time, what it has
    taken, and how many signals are still to come. *)
Record World := mkWorld { avail : bytes; segs : list bytes; rooms : list Z; taken : bytes; signals : nat }.

#[export] Instance world_kernel : Kernel World := {
  k_clock w := (0, w);
  k_poll w fds _ :=
    match signals w with
    | S n => Ok (None, mkWorld (avail w) (segs w) (rooms w) (taken w) n)
    | O => Ok (Some (map (fun _ => Z.lor POLLIN POLLOUT) fds), w)
    end;
  k_recvfrom w _ _ := (WouldBlock, w) }.

#[export] Instance world_sockets : Sockets World := {
  s_socket w _ := (inl 3, w);
  s_bind w _ _ := (inl tt, w);
  s_listen w _ _ := (inl tt, w);
  s_connect w _ _ := (inr INPROGRESS, w);
  s_socket_error w _ := (inl None, w);
  s_getsockname w _ := (inl None, w);
  s_accept w _ := (inr AGAIN, w);
  s_sendto w _ b _ := (inl (len b), w);
  s_read w _ cap :=
    match avail w, segs w with
    | [], [] => (inl [], w)
    | [], x :: l => (inr AGAIN, mkWorld x l (rooms w) (taken w) (signals w))
    | b, _ => (inl (ztake cap b), mkWorld (zdrop cap b) (segs w) (rooms w) (taken w) (signals w))
    end;
  s_write w _ b :=
    match rooms w with
    | [] => (inl (len b), mkWorld (avail w) (segs w) [] (taken w ++ b) (signals w))
    | r :: l =>
        if r <=? 0 then (inr AGAIN, mkWorld (avail w) (segs w) l (taken w) (signals w)) else
        let n := Z.min r (len b) in
        (inl n, mkWorld (avail w) (segs w) ((r - n) :: l) (taken w ++ ztake n b) (signals w))
    end }.

Definition same (w w' : World) : Prop :=
  avail w' = avail w /\ segs w' = segs w /\ rooms w' = rooms w /\ taken w' = taken w /\ (signals w' <= signals w)%nat.

#[export] Instance world_flowing : Flowing World.
Proof.
  unshelve refine {| stalls w := (length (segs w) + length (rooms w) + signals w)%nat; idle := same |}.
  - intros w. by unfold same.
  - intros a b c (?&?&?&?&?) (?&?&?&?&?). unfold same. split_and!; congruence || lia.
  - intros [a l r t [|n]] k; cbn [k_poll world_kernel signals segs rooms map].
    + do 2 eexists. split; [reflexivity|]. split; [by unfold same|]. left. split; [by exists 5|done].
    + do 2 eexists. split; [reflexivity|]. split; [unfold same; cbn; split_and!; done || lia|]. right. split; [by left|cbn; lia].
Defined.

#[export] Instance world_connection : Connection World 3.
Proof.
  unshelve refine {| pending w := avail w ++ concat (segs w); sent := taken |}.
  - intros w w' (-> & -> & _ & -> & _). done.
  - intros [[|c a] [|x l] r t n] cap Hcap; cbn [s_read world_sockets avail segs concat app]; [split_and!; [llia|done|done]|done| |];
      (rewrite app_comm_cons, (app_assoc (ztake cap (c :: a))), ztake_zdrop; split_and!; [llia|done|]; intros H%(f_equal len); rewrite len_ztake, len_cons in H;
       pose proof (len_nonneg a); change (len (@nil Z)) with 0 in H; lia).
  - intros [[|c a] [|x l] r t n] cap; cbn; lia.
  - intros [a l [|r rs] t n] b; cbn [s_write world_sockets rooms taken].
    + rewrite ztake_all by lia. split; [nonneg_lens; lia|done].
    + case_if; bool_hyps; [done|]. split; [nonneg_lens; lia|done].
  - intros [a l [|r rs] t n] b; cbn [s_write world_sockets rooms]; [cbn; lia|]. case_if; cbn; lia.
Defined.

Definition world0 : World := mkWorld [1; 2] [[3]; [4; 5; 6]] [2; 1] [] 2.

Lemma write_all_sends_witness :
  block_on 6 (write_all 3 [7; 8; 9; 10]) (reactor_new, world0)
    = Ok (Ok tt, (reactor_new, mkWorld [1; 2] [[3]; [4; 5; 6]] [] [7; 8; 9; 10] 0)) /\
  exists a w', block_on 6 (write_all 3 [7; 8; 9; 10]) (reactor_new, world0) = Ok (a, (reactor_new, w')) /\
    match a with
    | Ok _ => sent w' = sent world0 ++ [7; 8; 9; 10]
    | Err _ => exists n, 0 <= n < len [7; 8; 9; 10] /\ sent w' = sent world0 ++ ztake n [7; 8; 9; 10]
    | Panic | Hang => False
    end.
Proof.
  split; [vm_compute; reflexivity|]. apply (write_all_sends 3 6 [7; 8; 9; 10] world0). cbn. lia.
Defined.

Lemma read_exact_refines_witness :
  block_on 6 (read_exact 3 4) (reactor_new, world0) = Ok (Ok [1; 2; 3; 4], (reactor_new, mkWorld [5; 6] [] [2; 1] [] 0)) /\
  exists a w', block_on 6 (read_exact 3 4) (reactor_new, world0) = Ok (a, (reactor_new, w')) /\
    match a with
    | Ok data => exists s', fill_buffer 4 (mkStream [[1]; [2; 3; 4; 5; 6]] None) = Ok (data, s') /\ coming s' = pending w'
    | Err e => exists got, pending world0 = got ++ pending w' /\ len got < 4 /\ (e = Closed -> pending w' = [])
    | Panic | Hang => False
    end.
Proof.
  split; [vm_compute; reflexivity|].
  apply (read_exact_refines 3 6 4 world0 (mkStream [[1]; [2; 3; 4; 5; 6]] None)); [cbn; lia|by repeat constructor|reflexivity|lia].
Defined.

End IoDemo.
