(* ===== verification/HarnessStart.v ===== *)
(** * The harness: the run time, TLS and the self-test

    [harness/src/rt.rs], writing to the console and drawing random bytes;
    [harness/src/tls.rs], fetching the server's key over TLS; and
    [harness/src/selftest.rs], the executor, the sockets and the store tried on the
    kernel the program runs on.  The TLS stack is third-party: a class.  In the
    self-test the closing of a descriptor nobody uses any more is left out, except
    where the test depends on it. *)

From Stdlib Require Import Strings.String.
From S2P Require Import Prelude Utf8 Text Crypto Messages Noise Keys KeysFacts StoreFile StoreTheorems NetAddr Json Control ControlMessages Upgrade HarnessNet HarnessWg HarnessExec HarnessExecTheorems HarnessIo HarnessH2 HarnessControl HarnessControlFacts.

(** ** [rt.rs] *)

(** [getrandom] into the rest of a buffer: what was filled, or an error number. *)
Class Entropy (W : Type) := { k_getrandom : W -> Z -> (bytes + Z) * W }.

Module harness_rt.

Definition STDOUT : Z := 1.

Section Calls.
Context {W : Type} `{Sockets W} `{Entropy W}.

(** [Console::write_str], with a bound on how often it calls [write]. *)
Fixpoint write_str (fuel : nat) (fd_ : Z) (s : bytes) (written : Z) (w : W) : res unit unit * W :=
  if len s <=? written then (Ok tt, w) else
  match fuel with
  | O => (Hang, w)
  | S fuel =>
      let (r, w) := s_write w fd_ (zdrop written s) in
      match r with
      | inl n => if n =? 0 then (Err tt, w) else write_str fuel fd_ s (written + n) w
      | inr e => if e =? harness_io.INTR then write_str fuel fd_ s written w else (Err tt, w)
      end
  end.

(** [getrandom], with a bound on how often it calls it. *)
Fixpoint getrandom (fuel : nat) (n : Z) (filled : bytes) (w : W) : res Empty_set bytes * W :=
  if n <=? len filled then (Ok filled, w) else
  match fuel with
  | O => (Hang, w)
  | S fuel =>
      let (r, w) := k_getrandom w (n - len filled) in
      match r with
      | inl [] => (Panic, w)
      | inl b => getrandom fuel n (filled ++ b) w
      | inr e => if e =? harness_io.INTR then getrandom fuel n filled w else (Panic, w)
      end
  end.

End Calls.
End harness_rt.

(** ** [tls.rs] *)

(** What the TLS stack is configured with: the name to look for in the server's
    certificate, if any; the anchor, the clock and the room of the verifier of
    certificates; and, as a provider, the random bytes and that verifier, without
    which nobody checks the certificate. *)
Record TlsConfig := mkTlsConfig { sni : option bytes }.
Record CertVerifier := mkCertVerifier { anchor : bytes; now : option Z; room : Z }.
Record CryptoProvider := mkProvider { rng : bytes; verifier : option CertVerifier }.

(** The TLS stack: opening a connection over a stream with buffers of two sizes, a
    configuration and a provider; writing, flushing and reading application data;
    and the three of its errors the program makes. *)
Class Tls := {
  TlsError : Type;
  InvalidCertificate : TlsError;
  EncodeError : TlsError;
  InvalidApplicationData : TlsError;
  TlsConnection : Type;
  tls_open : net.TcpStream -> Z -> Z -> TlsConfig -> CryptoProvider -> res TlsError TlsConnection;
  tls_write_all : TlsConnection -> bytes -> res TlsError TlsConnection;
  tls_flush : TlsConnection -> res TlsError TlsConnection;
  tls_read : TlsConnection -> Z -> res TlsError (bytes * TlsConnection) }.

Module harness_tls.
Import net.

Definition RECORD_BUFFER : Z := 16 * 1024 + 512.
Definition MAX_CERT : Z := 4096.
Definition MAX_CA : Z := 2048.
Definition RESPONSE : Z := 2048.

Section Fetch.
Context `{T : Tls}.

Inductive TlsFailure := Net (e : NetError) | Tls_ (e : TlsError).

(** [SystemClock::now], which has [seconds] on it. *)
Definition system_clock (seconds : Z) : option Z := Some seconds.

(** [Verifying::new]: a provider that checks the chain. *)
Definition verifying (ca : bytes) (seconds : Z) (rng : bytes) : CryptoProvider :=
  mkProvider rng (Some (mkCertVerifier ca (system_clock seconds) MAX_CERT)).

Definition connect (s : TcpStream) (server_name ca : bytes) (read_buffer write_buffer : Z) (seconds : Z) (rng : bytes)
    : res TlsFailure TlsConnection :=
  let config := mkTlsConfig (Some server_name) in
  map_err Tls_ (tls_open s read_buffer write_buffer config (verifying ca seconds rng)).

(** [json_string] has no errors. *)
Definition public_key (b : bytes) : res TlsFailure (option bytes) :=
  match harness_control.json_string b (str "publicKey") with
  | Ok o => Ok o
  | Err _ | Panic => Panic
  | Hang => Hang
  end.

(** The loop that reads: what has been read in the end. *)
Fixpoint read_key (fuel : nat) (c : TlsConnection) (got : bytes) : res TlsFailure bytes :=
  match fuel with
  | O => Hang
  | S fuel =>
      match tls_read c (RESPONSE - len got) with
      | Ok ([], _) => Ok got
      | Ok (b, c) =>
          let got := got ++ b in
          if len got =? RESPONSE then Ok got else
          let! key := public_key got in
          match key with Some _ => Ok got | None => read_key fuel c got end
      | Err e => Err (Tls_ e)
      | Panic => Panic
      | Hang => Hang
      end
  end.

(** Over a connection: the request sent and the key reported. *)
Definition ask (fuel : nat) (c : TlsConnection) (server_name : bytes) : res TlsFailure (bytes * bytes) :=
  let! request := map_err (fun _ => Tls_ EncodeError) (upgrade.write_key_request server_name (zeros upgrade.MAX_REQUEST)) in
  let! c := map_err Tls_ (tls_write_all c request) in
  let! c := map_err Tls_ (tls_flush c) in
  let! response := read_key fuel c [] in
  let! key := public_key response in
  let! key := ok_or key (Tls_ InvalidApplicationData) in
  Ok (request, key).

Context {W : Type} `{OS : file_store.Posix W} (patience : nat).

(** [fetch]: [dialled] is what connecting gives. *)
Definition fetch (fuel : nat) (w : W) (dialled : res NetError TcpStream) (server_name ca_path : bytes) (seconds : Z) (rng : bytes)
    : W * res TlsFailure (bytes * bytes) :=
  let '(w, ca, r) := file_store.read_file patience w ca_path (zeros MAX_CA) in
  (w, let! ca_len := map_err (fun _ => Tls_ InvalidCertificate) r in
      let! s := map_err Net dialled in
      let! anchor := slice (0, ca_len) ca in
      let! c := connect s server_name anchor RECORD_BUFFER RECORD_BUFFER seconds rng in
      ask fuel c server_name).

(** [run]: the exit code. *)
Definition run {A} (r : res TlsFailure A) : res Empty_set Z :=
  match r with Ok _ => Ok 0 | Err _ => Ok 1 | Panic => Panic | Hang => Hang end.

End Fetch.
End harness_tls.

(** ** [selftest.rs] *)

(** The monotonic clock itself, the real-time clock, and dropping a descriptor. *)
Class Clocks (W : Type) := {
  k_monotonic : W -> harness_time.Timespec * W;
  k_realtime : W -> harness_time.Timespec * W;
  s_close : W -> Z -> W }.

Module harness_selftest.
Import net harness_exec harness_io file_store.

(** What a test says went wrong. *)
Inductive Trouble :=
| ReturnedEarly | SleptTooLong | BindReceiver | BindSender | Getsockname | Send | WrongBytes | RecvFailed | TimedOut
| LaterFirst | Listen | NotEstablished | WriteFailed | ReadFailed | ConnectedToClosed
| OpenStore | Save | DifferentBytes | NothingStored | LoadFailed | ReopenStore | Disagreed
| BadPath_ | OpenForRead | Read_ | OpenForWrite | Write_ | CorruptAccepted | CorruptAbsent | WrongError
| WentBackwards | NotALabel | Nanoseconds.

Definition LOCALHOST : bytes := [127; 0; 0; 1].

Section Selftest.
Context {W : Type} `{K : Kernel W} `{S : Sockets W} `{CL : Clocks W} `{OS : file_store.Posix W} `{P : Primitives}.

(** [waits] bounds how often [block_on] waits, [patience] how often a call may be
    interrupted. *)
Context (waits patience : nat).

Abbreviation test := (W -> res Trouble unit * W).

(** Steps one after the other, until one fails. *)
Definition then_ {A B} (m : res Trouble A * W) (k : A -> W -> res Trouble B * W) : res Trouble B * W :=
  match m with
  | (Ok a, w) => k a w
  | (Err e, w) => (Err e, w)
  | (Panic, w) => (Panic, w)
  | (Hang, w) => (Hang, w)
  end.

Definition is_err {E A} (t : Trouble) (m : res E A * W) : res Trouble A * W := let (r, w) := m in (map_err (fun _ => t) r, w).

(** [block_on], on a reactor that is passed on: in an [async] block one await after
    the other.  A panic takes the world with it. *)
Definition await {Out} (f : Future Out) (m : Reactor * W) : res Trouble (Out * Reactor) * W :=
  match block_on waits f m with
  | Ok (x, (r, w)) => (Ok (x, r), w)
  | Err e => match e with end
  | Panic => (Panic, m.2)
  | Hang => (Hang, m.2)
  end.

(** [Reactor::sleep] *)
Definition sleep {A} (millis : Z) (w : W) (k : Future unit -> W -> A) : A := let (now, w) := k_clock w in k (sleep_until (now + millis)) w.

(** [timers] *)
Definition timers : test := fun w =>
  let (before, w) := k_monotonic w in
  sleep 120 w (fun nap w =>
  then_ (await nap (reactor_new, w)) (fun _ w =>
  let (after, w) := k_monotonic w in
  let elapsed := harness_time.millis after - harness_time.millis before in
  (if elapsed <? 0 then Panic else if elapsed <? 120 then Err ReturnedEarly else if 2000 <? elapsed then Err SleptTooLong else Ok tt, w))).

Definition DATAGRAM : bytes := str "harness selftest".

(** [loopback] *)
Definition loopback : test := fun w =>
  then_ (is_err BindReceiver (udp_bind w LOCALHOST 0)) (fun receiver w =>
  then_ (is_err BindSender (udp_bind w LOCALHOST 0)) (fun sender w =>
  then_ (is_err Getsockname (local_v4 w receiver)) (fun to w =>
  then_ (await (send_to sender DATAGRAM to) (reactor_new, w)) (fun '(sent, r) w =>
  then_ (map_err (fun _ => Send) sent, w) (fun _ w =>
  sleep 2000 w (fun nap w =>
  then_ (await (select (recv_from receiver 64) nap) (r, w)) (fun '(got, _) w =>
  (match got with
   | First (Ok (data, _)) => if bytes_eqb data DATAGRAM then Ok tt else Err WrongBytes
   | First (Err _) => Err RecvFailed
   | First Panic => Panic
   | First Hang => Hang
   | Second _ => Err TimedOut
   end, w)))))))).

(** [select_picks_ready] *)
Definition select_picks_ready : test := fun w =>
  sleep 10 w (fun a w => sleep 5000 w (fun b w =>
  then_ (await (select a b) (reactor_new, w)) (fun '(first, _) w =>
  (match first with First _ => Ok tt | Second _ => Err LaterFirst end, w)))).

(** *** Futures of [async] blocks *)

(** What is computed at the first poll. *)
Definition now_ {A} (f : W -> A * W) : Future A := mkFuture unit tt
  (fun _ '(r, w) => let (a, w) := f w in Ok (Some a, tt, (r, w))) (fun _ r => r).

(** One future, and then the one its output leads to. *)
Definition seq_ {A B} (f : Future A) (k : A -> Future B) : Future B := mkFuture (State f + {a : A & State (k a)})
  (inl (initial f))
  (fun s m =>
     let second (a : A) (sb : State (k a)) (m : Reactor * W) :=
       let! '(o, sb, m) := poll (k a) sb m in Ok (o, inr (existT a sb), m) in
     match s with
     | inl sa =>
         let! '(o, sa, m) := poll f sa m in
         match o with
         | Some a => second a (initial (k a)) (drop_ f sa m.1, m.2)
         | None => Ok (None, inl sa, m)
         end
     | inr (existT a sb) => second a sb m
     end)
  (fun s r => match s with inl sa => drop_ f sa r | inr (existT a sb) => drop_ (k a) sb r end).

(** An output that is there already. *)
Definition done_ {A} (a : A) : Future A := now_ (fun w => (a, w)).

(** [TcpStream::connect] *)
Definition connecting (to : bytes * Z) : Future (res NetError Z) :=
  seq_ (now_ (fun w => new_socket w STREAM)) (fun r =>
  match r with
  | Ok fd_ => seq_ (connect fd_ to) (fun r => done_ (let! _ := r in Ok fd_))
  | Err e => done_ (Err e)
  | Panic => done_ Panic
  | Hang => done_ Hang
  end).

(** Connecting to a listener and accepting there. *)
Definition both_ends (listener : Z) (to : bytes * Z) : Future (res NetError (Z * Z)) :=
  seq_ (connecting to) (fun r =>
  match r with
  | Ok client => seq_ (accept listener) (fun r => done_ (let! server := r in Ok (client, server)))
  | Err e => done_ (Err e)
  | Panic => done_ Panic
  | Hang => done_ Hang
  end).

Definition PING : bytes := str "ping over tcp".

(** [tcp_roundtrip] *)
Definition tcp_roundtrip : test := fun w =>
  then_ (is_err Listen (tcp_bind w LOCALHOST 0)) (fun listener w =>
  then_ (is_err Getsockname (local_v4 w listener)) (fun '(_, port) w =>
  sleep 2000 w (fun nap w =>
  then_ (await (select (both_ends listener (LOCALHOST, port)) nap) (reactor_new, w)) (fun '(ends, r) w =>
  then_ (match ends with
         | First (Ok p) => Ok p
         | First (Err _) => Err NotEstablished
         | First Panic => Panic
         | First Hang => Hang
         | Second _ => Err TimedOut
         end, w) (fun '(client, server) w =>
  then_ (await (write_all client PING) (r, w)) (fun '(wrote, r) w =>
  then_ (map_err (fun _ => WriteFailed) wrote, w) (fun _ w =>
  sleep 2000 w (fun nap w =>
  then_ (await (select (read_exact server 13) nap) (r, w)) (fun '(got, _) w =>
  (match got with
   | First (Ok data) => if bytes_eqb data PING then Ok tt else Err WrongBytes
   | First (Err _) => Err ReadFailed
   | First Panic => Panic
   | First Hang => Hang
   | Second _ => Err TimedOut
   end, w)))))))))).

(** [tcp_refused]: the listener is gone before the attempt. *)
Definition tcp_refused : test := fun w =>
  then_ (is_err Listen (tcp_bind w LOCALHOST 0)) (fun listener w =>
  let (name, w) := local_v4 w listener in
  let w := s_close w listener in
  then_ (map_err (fun _ => Getsockname) name, w) (fun '(_, port) w =>
  sleep 2000 w (fun nap w =>
  then_ (await (select (connecting (LOCALHOST, port)) nap) (reactor_new, w)) (fun '(got, _) w =>
  (match got with
   | First (Ok _) => Err ConnectedToClosed
   | First (Err _) => Ok tt
   | First Panic => Panic
   | First Hang => Hang
   | Second _ => Err TimedOut
   end, w))))).

(** *** The store *)

(** A call of the store, which gives the world first. *)
Definition stored {E A} (t : E -> Trouble) (m : W * res E A) : res Trouble A * W := (map_err t m.2, m.1).

Definition WRITTEN : bytes := replicate 96 0xab.

(** [store_roundtrip] *)
Definition store_roundtrip (state_dir : bytes) : test := fun w =>
  let open w t := stored (fun _ => t) (file_store_new w state_dir (str "selftest.bin")) in
  then_ (open w OpenStore) (fun store w =>
  then_ (stored (fun _ => Save) (save patience store w WRITTEN)) (fun _ w =>
  let '(w, read, r) := load patience store w (zeros 128) in
  then_ (match r with
         | Ok (Some n) => if (n =? len WRITTEN) && bytes_eqb (ztake n read) WRITTEN then Ok tt else Err DifferentBytes
         | Ok None => Err NothingStored
         | Err _ => Err LoadFailed
         | Panic => Panic
         | Hang => Hang
         end, w) (fun _ w =>
  then_ (open w ReopenStore) (fun reopened w =>
  let '(w, again, r) := load patience reopened w (zeros 128) in
  (match r with
   | Ok (Some n) => if bytes_eqb (ztake n again) WRITTEN then Ok tt else Err Disagreed
   | Ok None | Err _ => Err Disagreed
   | Panic => Panic
   | Hang => Hang
   end, w))))).

(** [store_rejects_corruption]; emptying a file that is there is [open_trunc]. *)
Definition store_rejects_corruption (state_dir : bytes) : test := fun w =>
  then_ (stored (fun _ => OpenStore) (file_store_new w state_dir (str "corrupt.bin"))) (fun store w =>
  then_ (stored (fun _ => Save) (save patience store w (replicate 32 0x11))) (fun _ w =>
  let separator := if bool_decide (last state_dir = Some 47) then [] else [47] in
  then_ (map_err (fun _ => BadPath_) (path_new [state_dir; separator; str "corrupt.bin"]), w) (fun path w =>
  then_ (or_panic (as_c_str path), w) (fun name w =>
  then_ (stored (fun _ => OpenForRead) (open_read w name)) (fun file w =>
  then_ (stored (fun _ => Read_) (file_store.read w file 128)) (fun got w =>
  then_ (or_panic (copy_at 0 (len got) got (zeros 128)), w) (fun blob w =>
  then_ (or_panic (get_at (len got / 2) blob), w) (fun b w =>
  then_ (or_panic (set_at (len got / 2) (Z.lxor b 1) blob), w) (fun blob w =>
  then_ (stored (fun _ => OpenForWrite) (open_trunc w name)) (fun file w =>
  then_ (stored (fun _ => Write_) (file_store.write w file (ztake (len got) blob))) (fun _ w =>
  let '(w, _, r) := load patience store w (zeros 128) in
  (match r with
   | Err Corrupt => Ok tt
   | Ok (Some _) => Err CorruptAccepted
   | Ok None => Err CorruptAbsent
   | Err _ => Err WrongError
   | Panic => Panic
   | Hang => Hang
   end, w)))))))))))).

(** [timestamps] *)
Definition timestamps : test := fun w =>
  let (t, w) := k_realtime w in
  let first := harness_time.tai64n t in
  let (t, w) := k_realtime w in
  let second := harness_time.tai64n t in
  (if lex_lt second first then Err WentBackwards else
   if negb (at_ 0 first =? 0x40) then Err NotALabel else
   if 1000000000 <=? of_be (zdrop 8 first) then Err Nanoseconds else Ok tt, w).

(** *** All of them *)

(** [check]: the number of failures it adds. *)
Definition check (m : test) (w : W) : res Empty_set Z * W :=
  let (r, w) := m w in
  (match r with Ok _ => Ok 0 | Err _ => Ok 1 | Panic => Panic | Hang => Hang end, w).

Fixpoint checks (l : list test) (failures : Z) (w : W) : res Empty_set Z * W :=
  match l with
  | [] => (Ok failures, w)
  | m :: l =>
      let (r, w) := check m w in
      match r with
      | Ok n => checks l (failures + n) w
      | Err e => match e with end
      | Panic => (Panic, w)
      | Hang => (Hang, w)
      end
  end.

Definition tests (state_dir : bytes) : list test :=
  [timers; loopback; select_picks_ready; tcp_roundtrip; tcp_refused; store_roundtrip state_dir; store_rejects_corruption state_dir; timestamps].

(** [run]: the exit code. *)
Definition run (state_dir : bytes) (w : W) : res Empty_set Z * W :=
  let (r, w) := checks (tests state_dir) 0 w in
  (let! failures := r in Ok (if failures =? 0 then 0 else 1), w).

End Selftest.
End harness_selftest.

(** * What they guarantee *)

(** ** The console *)

Section Console.
Import harness_rt harness_io.
Context {W : Type} (fd_ : Z) `{C : Connection W fd_}.

(** Printing ends, and a success has printed exactly the text; a failure a part of it
    from its front.  An early return of the kernel is tried again. *)
Theorem console_prints (fuel : nat) (s : bytes) (w : W) : (stalls w + length s < fuel)%nat ->
  let (r, w') := write_str fuel fd_ s 0 w in
  match r with
  | Ok _ => sent w' = sent w ++ s
  | Err _ => exists n, 0 <= n <= len s /\ sent w' = sent w ++ ztake n s
  | Panic | Hang => False
  end.
Proof.
  assert (forall fuel n w0, 0 <= n <= len s -> sent w0 = sent w ++ ztake n s -> Z.of_nat (stalls w0) + (len s - n) < Z.of_nat fuel ->
    let (r, w') := write_str fuel fd_ s n w0 in
    match r with
    | Ok _ => sent w' = sent w ++ s
    | Err _ => exists n, 0 <= n <= len s /\ sent w' = sent w ++ ztake n s
    | Panic | Hang => False
    end) as Hg.
  { clear fuel. intros fuel. induction fuel as [|fuel IH]; intros n w0 Hn Hs Hf; cbn [write_str].
    { lia. }
    destruct (len s <=? n) eqn:E; bool_hyps; [by rewrite Hs, ztake_all by lia|].
    pose proof (write_takes w0 (zdrop n s)) as Hw. pose proof (write_stalls w0 (zdrop n s)) as Hst.
    destruct (s_write w0 fd_ (zdrop n s)) as [[k|e] w1].
    - destruct Hw as [Hk Hs1]. rewrite len_zdrop in Hk. destruct (k =? 0) eqn:Ek; bool_hyps.
      + subst k. exists n. split; [lia|]. by rewrite Hs1, Hs, app_nil_r.
      + apply IH; [lia| |lia]. by rewrite Hs1, Hs, <- app_assoc, <- ztake_add by lia.
    - destruct (e =? INTR) eqn:Ee; bool_hyps.
      + subst e. destruct Hst as [_ Hst]. change (would_block INTR) with true in Hst. cbn iota in Hst. apply IH; [lia|congruence|lia].
      + exists n. split; [lia|congruence]. }
  intros Hf. apply Hg; [nonneg_lens; lia|by rewrite app_nil_r|]. unfold len. lia.
Qed.

End Console.

(** ** The key over TLS *)

Section Tls.
Import net harness_tls.

(** More of the same text gives the same field. *)
Lemma value_at_more body field rest q : value_at body field (34 :: rest) -> value_at (body ++ q) field (34 :: rest ++ q).
Proof.
  intros (pre & w1 & w2 & Hp & -> & H1 & H2 & _). exists pre, w1, w2. split; [by apply position_app|].
  split; [by rewrite <- !app_assoc|]. split; [done|]. split; [done|]. destruct (rest ++ q) as [|y l]; [done|]. by destruct l.
Qed.

Lemma json_string_more b q k : utf8_valid (b ++ q) = true ->
  harness_control.json_string b (str "publicKey") = Ok (Some k) -> harness_control.json_string (b ++ q) (str "publicKey") = Ok (Some k).
Proof.
  intros Hu. rewrite !json_string_scans by (done || (vm_compute; congruence)). rewrite Hu. destruct (utf8_valid b); [|done]. intros [= Hk]. do 2 f_equal.
  assert (len (str "publicKey") <= 62) as Hf by done. destruct (response_fields_exact b (str "publicKey") k true Hf) as [Hb _].
  destruct (response_fields_exact (b ++ q) (str "publicKey") k true Hf) as [Hbq _]. apply Hbq. apply Hb in Hk as [[post Hv] Hq].
  split; [|done]. exists (post ++ q). cbn [app] in Hv |- *. apply (value_at_more _ _ _ q) in Hv. rewrite <- !app_assoc in Hv. exact Hv.
Qed.

(** What the stack documents: where there is a verifier with a clock and a name to look
    for, a connection opens only if the chain the peer presented fits the verifier, is
    valid for the name at that time and leads to the anchor, and the peer proved that
    it holds its key; and application data comes in order, a piece at a time, and
    nothing at the end of it. *)
Class TlsOk (T : Tls) := {
  chain : TlsConnection -> list bytes;
  valid_chain : list bytes -> bytes -> bytes -> Z -> Prop;
  opens s r w config provider v name t c :
    tls_open s r w config provider = Ok c -> sni config = Some name ->
    verifier provider = Some v -> now v = Some t ->
    valid_chain (chain c) (anchor v) name t /\ len (concat (chain c)) <= room v;
  app_data : TlsConnection -> list bytes;
  reads c cap : 0 < cap ->
    match app_data c with
    | [] => exists c', tls_read c cap = Ok ([], c')
    | seg :: rest => exists c', tls_read c cap = Ok (ztake cap seg, c') /\ app_data c' = if cap <? len seg then zdrop cap seg :: rest else rest
    end }.
Context `{T : Tls} {TOk : TlsOk T}.

Lemma read_key_reads fuel c got resp k : cut (app_data c) -> resp = got ++ concat (app_data c) -> len resp < RESPONSE -> utf8_valid resp = true ->
  harness_control.json_string resp (str "publicKey") = Ok (Some k) -> len resp - len got < Z.of_nat fuel ->
  exists p, read_key fuel c got = Ok p /\ harness_control.json_string p (str "publicKey") = Ok (Some k).
Proof.
  revert c got. induction fuel as [|fuel IH]; intros c got Hc Hr Hl Hu Hk Hf; [rewrite Hr, len_app in Hf; nonneg_lens; lia|].
  assert (len got <= len resp) as Hgot by (rewrite Hr, len_app; nonneg_lens; lia).
  cbn [read_key]. pose proof (reads c (RESPONSE - len got) ltac:(lia)) as Hread. destruct (app_data c) as [|seg rest] eqn:Ed.
  - destruct Hread as [c' ->]. exists got. split; [done|]. cbn [concat] in Hr. rewrite app_nil_r in Hr. by subst.
  - destruct Hread as (c' & -> & Hd). apply Forall_cons_iff in Hc as [Hseg Hc]. cbn [concat] in Hr.
    assert (len seg <= RESPONSE - len got) as Hfit by (rewrite Hr, !len_app in Hl; nonneg_lens; lia).
    rewrite (ztake_all _ seg) by lia. rewrite (proj2 (Z.ltb_ge _ _)) in Hd by lia. destruct seg as [|x seg]; [done|].
    set (got' := got ++ x :: seg) in *. rewrite app_assoc in Hr. fold got' in Hr.
    assert (len got' <= len resp) as Hgot' by (rewrite Hr, len_app; nonneg_lens; lia).
    rewrite (proj2 (Z.eqb_neq _ _)) by lia. unfold public_key.
    rewrite json_string_scans by (done || (vm_compute; congruence)). cbn [rbind].
    pose proof (json_string_scans got' (str "publicKey") ltac:(done) ltac:(vm_compute; congruence)) as Hs.
    destruct (if utf8_valid got' then _ else None) as [k'|] eqn:E.
    + exists got'. split; [done|]. rewrite Hs. pose proof (json_string_more got' (concat rest) k') as Hm. rewrite <- Hr, Hk in Hm.
      specialize (Hm Hu Hs). congruence.
    + apply IH; [by rewrite Hd|by rewrite Hd|done|done|done|]. subst got'. rewrite len_app in *. nonneg_lens. lia.
Qed.

(** What the loop ends with is a front part of what the peer sent. *)
Lemma read_key_prefix fuel c got p : len got < RESPONSE -> read_key fuel c got = Ok p ->
  p `prefix_of` got ++ concat (app_data c) /\ len p <= RESPONSE.
Proof.
  revert c got. induction fuel as [|fuel IH]; intros c got Hl H; [done|]. cbn [read_key] in H.
  assert (forall x, got `prefix_of` got ++ x) as Hfront by (intros x; by exists x).
  pose proof (reads c (RESPONSE - len got) ltac:(lia)) as Hr. destruct (app_data c) as [|seg rest].
  - destruct Hr as [c' Hr]. rewrite Hr in H. injection H as <-. split; [done|lia].
  - destruct Hr as (c' & Hr & Hd). rewrite Hr in H. destruct (ztake (RESPONSE - len got) seg) as [|x b] eqn:Eb.
    { injection H as <-. split; [done|lia]. }
    assert (concat (seg :: rest) = (x :: b) ++ concat (app_data c')) as ->.
    { rewrite Hd, <- Eb. cbn [concat]. case_if; bool_hyps.
      - cbn [concat]. by rewrite app_assoc, ztake_zdrop.
      - by rewrite ztake_all by lia. }
    assert (len (got ++ x :: b) <= RESPONSE) as Hl'.
    { rewrite len_app, <- Eb, len_ztake. nonneg_lens. lia. }
    rewrite app_assoc. destruct (len (got ++ x :: b) =? RESPONSE) eqn:Ef; bool_hyps.
    { injection H as <-. split; [by eexists|lia]. }
    destruct (public_key (got ++ x :: b)) as [[key|]| | |]; cbn [rbind] in H; try done.
    { injection H as <-. split; [by eexists|lia]. }
    apply IH; [lia|done].
Qed.

Context {W : Type} `{OS : file_store.Posix W} (patience : nat).

(** C29: The server's key comes over TLS from the server it was asked for.  A key is
    reported only as the one in what was read, at most 2048 bytes, over a connection on
    which the request for it was sent and whose peer presented a chain valid for the
    server's name at the time of the clock, leading to the anchor in the file.  And
    over any connection that opens so and takes the request, whose buffer has room for
    the name, the request is sent and the key of the response reported, no matter in
    which pieces the response arrives and when the server hangs up, if it is UTF-8 of
    less than 2048 bytes. *)
Theorem key_over_tls (fuel : nat) (w w1 : W) (dialled : res NetError TcpStream) (server_name ca_path ca : bytes) (n : Z) (seconds : Z) (rng : bytes) (k : bytes) :
  (forall request, (fetch patience fuel w dialled server_name ca_path seconds rng).2 = Ok (request, k) ->
    exists w' ca n s c c1 c2 response,
      file_store.read_file patience w ca_path (zeros MAX_CA) = (w', ca, Ok n) /\ dialled = Ok s /\
      tls_open s RECORD_BUFFER RECORD_BUFFER (mkTlsConfig (Some server_name)) (verifying (ztake n ca) seconds rng) = Ok c /\
      valid_chain (chain c) (ztake n ca) server_name seconds /\ len (concat (chain c)) <= MAX_CERT /\
      request = key_request server_name /\ tls_write_all c request = Ok c1 /\ tls_flush c1 = Ok c2 /\
      response `prefix_of` concat (app_data c2) /\ len response <= RESPONSE /\
      harness_control.json_string response (str "publicKey") = Ok (Some k)) /\
  forall (s : TcpStream) (c c1 c2 : TlsConnection),
  file_store.read_file patience w ca_path (zeros MAX_CA) = (w1, ca, Ok n) -> 0 <= n <= len ca ->
  dialled = Ok s ->
  tls_open s RECORD_BUFFER RECORD_BUFFER (mkTlsConfig (Some server_name)) (verifying (ztake n ca) seconds rng) = Ok c ->
  len (key_request server_name) <= upgrade.MAX_REQUEST ->
  tls_write_all c (key_request server_name) = Ok c1 -> tls_flush c1 = Ok c2 ->
  cut (app_data c2) -> len (concat (app_data c2)) < RESPONSE -> utf8_valid (concat (app_data c2)) = true ->
  harness_control.json_string (concat (app_data c2)) (str "publicKey") = Ok (Some k) -> len (concat (app_data c2)) < Z.of_nat fuel ->
  fetch patience fuel w dialled server_name ca_path seconds rng = (w1, Ok (key_request server_name, k)).
Proof.
  split.
  - intros request. unfold fetch. destruct (file_store.read_file _ _ _ _) as [[w' ca'] [n'|e| |]] eqn:Er; cbn [map_err rbind snd]; try done.
    destruct dialled as [s|e| |]; cbn [map_err rbind]; try done. unfold slice. cbn [fst snd].
    destruct (get_range 0 n' ca') as [anchor|] eqn:Ea; cbn [or_panic rbind]; [|done].
    apply get_range_Some in Ea as (Hn0 & Hn & ->). unfold sub_range. rewrite Z.sub_0_r. change (zdrop 0 ca') with ca'.
    unfold connect. destruct (tls_open _ _ _ _ _) as [c|e| |] eqn:Eo; cbn [map_err rbind]; try done.
    unfold ask. rewrite key_request_written. case_if; cbn [map_err rbind]; [|done].
    destruct (tls_write_all c _) as [c1|e| |] eqn:Ew; cbn [map_err rbind]; try done.
    destruct (tls_flush c1) as [c2|e| |] eqn:Ef; cbn [map_err rbind]; try done.
    destruct (read_key fuel c2 []) as [p|e| |] eqn:Ep; cbn [rbind]; try done.
    destruct (read_key_prefix fuel c2 [] p ltac:(done) Ep) as [Hp Hl]. unfold public_key.
    destruct (harness_control.json_string p _) as [[k'|]| | |] eqn:Ek; cbn [rbind ok_or]; try done. intros [= <- <-].
    destruct (opens _ _ _ _ _ _ server_name seconds c Eo eq_refl eq_refl eq_refl) as [Hv Hm].
    by exists w', ca', n', s, c, c1, c2, p.
  - intros s c c1 c2 Hr Hn -> Ho Hq Hw Hfl Hc Hl Hu Hk Hf. unfold fetch. rewrite Hr. cbn [map_err rbind]. unfold slice. cbn [fst snd].
    assert (get_range 0 n ca = Some (ztake n ca)) as ->.
    { destruct (split_len n ca) as (a & b & -> & Ha); [lia|]. rewrite get_range_front by done. by rewrite ztake_app_len. }
    cbn [or_panic rbind]. unfold connect. rewrite Ho. cbn [map_err rbind]. unfold ask. rewrite key_request_written, len_zeros.
    rewrite (proj2 (Z.leb_le _ _)) by (unfold upgrade.MAX_REQUEST in *; lia). cbn [map_err rbind]. rewrite Hw. cbn [map_err rbind]. rewrite Hfl. cbn [map_err rbind].
    destruct (read_key_reads fuel c2 [] _ k Hc eq_refl Hl Hu Hk) as (p & -> & Hp); [cbn [app]; rewrite len_nil; lia|]. cbn [rbind].
    unfold public_key. rewrite Hp. done.
Qed.

End Tls.

(** ** The self-test *)

Section Timers.
Import harness_exec harness_selftest.
Context {W : Type} `{KO : KernelOk W} `{CL : Clocks W}.

(** The monotonic clock is the program's own, from another origin. *)
Class ClocksOk := {
  origin : Z;
  monotonic_reads w : harness_time.millis (k_monotonic w).1 = origin + time w /\ later w (k_monotonic w).2 }.
Context `{CO : !ClocksOk}.

Lemma nap_ends fuel d r w : reg r = [] -> deadline r = None -> d <= time w \/ (wakeups w < fuel)%nat ->
  exists r' w', block_on_from fuel (sleep_until d) tt (r, w) = Ok (tt, (r', w')) /\ later w w' /\ d <= time w'.
Proof.
  revert r w. induction fuel as [|fuel IH]; intros r w Hr Hd Hf; cbn [block_on_from poll sleep_until]; destruct (clock_reads w) as [Ht Hl];
    destruct (k_clock w) as [now w1]; cbn [fst snd] in Ht, Hl; subst now; (destruct (d <=? time w) eqn:E; bool_hyps;
      [cbn [rbind drop_ fst snd]; exists r, w1; split_and!; [done|done|destruct Hl; lia]|]).
  - lia.
  - cbn [rbind]. assert (deadline (note_deadline d r) = Some d) as Hd' by (unfold note_deadline; by rewrite Hd).
    destruct (wait_progress (note_deadline d r) w1 d Hd') as (r2 & w2 & -> & Hr2 & Hd2 & Hl2 & Hp). cbn [rbind].
    destruct (IH r2 w2) as (r' & w' & -> & Hl' & Hend); [rewrite Hr2; exact Hr|done|destruct Hl, Hl2; lia|].
    exists r', w'. split_and!; [done| |done]. transitivity w2; [by transitivity w1|done].
Qed.

(** The timer test cannot fail because of the program.  On a kernel that keeps its
    clock the sleep ends, after at least the time asked for, so the test passes or
    says that the machine was slow; it never blames the reactor and never panics. *)
Theorem timers_sound (waits : nat) (w : W) : (wakeups w < waits)%nat ->
  exists w', timers waits w = (Ok tt, w') \/ timers waits w = (Err SleptTooLong, w') /\ time w + 2000 < time w'.
Proof.
  intros Hf. unfold timers. destruct (monotonic_reads w) as [Hb Hlb]. destruct (k_monotonic w) as [before w1]. cbn [fst snd] in Hb, Hlb.
  unfold sleep. destruct (clock_reads w1) as [Ht Hlc]. destruct (k_clock w1) as [now w2]. cbn [fst snd] in Ht, Hlc. subst now.
  unfold await, block_on. cbn [initial sleep_until].
  destruct (nap_ends waits (time w1 + 120) reactor_new w2 eq_refl eq_refl) as (r' & w3 & E & Hl3 & Hend); [destruct Hlb, Hlc; right; lia|].
  rewrite E. cbn [then_]. destruct (monotonic_reads w3) as [Ha Hla]. destruct (k_monotonic w3) as [after w4]. cbn [fst snd] in Ha, Hla.
  rewrite Ha, Hb. destruct Hlb as [Hlb _], Hlc as [Hlc _], Hl3 as [Hl3 _], Hla as [Hla _].
  rewrite (proj2 (Z.ltb_ge _ 0)) by lia. rewrite (proj2 (Z.ltb_ge _ 120)) by lia. exists w4.
  destruct (2000 <? _) eqn:E2; bool_hyps; [right|by left]. split; [done|lia].
Qed.

End Timers.

Section Store.
Import file_store harness_selftest.
Context `{P : Primitives} {POk : PrimitivesOk P} {W : Type} `{OS : Posix W} {OOk : PosixOk OS}.

(** The store test says that bytes were lost or changed only if the system did it:
    over a file system that keeps what was written it never says so. *)
Theorem store_test_sound (patience : nat) (state_dir : bytes) (w : W) :
  (store_roundtrip patience state_dir w).1 <> Err DifferentBytes /\ (store_roundtrip patience state_dir w).1 <> Err NothingStored.
Proof.
  unfold store_roundtrip, stored. destruct (file_store_new w state_dir (str "selftest.bin")) as [w1 [store|e| |]] eqn:En; cbn [map_err fst snd then_]; try by split.
  destruct (file_store_new_names _ _ _ _ _ En) as (target & tmp & N).
  pose proof (save_spec patience store target tmp w1 WRITTEN N) as Hsv.
  destruct (save patience store w1 WRITTEN) as [w2 [[]|e| |]]; cbn [map_err fst snd then_]; try by split.
  destruct Hsv as (_ & _ & Hsv). destruct (Hsv eq_refl) as [Hmax Hfile].
  pose proof (load_spec patience store target w2 (zeros 128) (name_path _ _ _ N)) as Hl. pose proof (decode_blob_of WRITTEN Hmax) as Hd.
  destruct (load patience store w2 (zeros 128)) as [[w3 out] [[n|]|e| |]]; cbn [then_ fst]; try by split.
  2: { destruct Hl as [_ Hl]. congruence. }
  destruct Hl as (_ & c & p & Hc & Hp & -> & _ & ->). assert (p = WRITTEN) as -> by congruence.
  rewrite Z.eqb_refl, ztake_app_len, bytes_eqb_refl by done. cbn [andb then_].
  destruct (file_store_new w3 state_dir (str "selftest.bin")) as [w4 [reopened|e| |]]; cbn [map_err fst snd then_]; try by split.
  destruct (load patience reopened w4 (zeros 128)) as [[w5 again] [[n|]|e| |]]; cbn [fst]; try by split. destruct (bytes_eqb _ _); by split.
Qed.

End Store.

(** ** A machine *)

Module StartDemo.
Import ToyDisk IoDemo ExecDemo file_store harness_selftest.

Definition dir : bytes := str "state".

(** On the disk of [StoreTheorems.v] both tests of the store pass. *)
Example store_tests_pass : (store_roundtrip (P := Toy.prims) 10 dir empty_disk).1 = Ok tt /\ (store_rejects_corruption (P := Toy.prims) 10 dir empty_disk).1 = Ok tt.
Proof. vm_compute. by split. Qed.

(** The clock of the executor's world. *)
#[local] Instance demo_clocks : Clocks ExecDemo.World := {|
  k_monotonic w := (harness_time.mkTimespec 7 (ExecDemo.now w * 1000000), w);
  k_realtime w := (harness_time.mkTimespec 1700000000 5, w);
  s_close w _ := w |}.

#[local] Instance demo_clocks_ok : ClocksOk (W := ExecDemo.World).
Proof.
  refine {| origin := 7000 |}. intros w. split; [|by split]. cbn. unfold harness_time.millis. cbn. by rewrite Z.div_mul.
Defined.

Lemma timers_sound_witness :
  timers 2 ExecDemo.world0 = (Ok tt, ExecDemo.mkWorld 120 [] [ExecDemo.hello]) /\
  exists w', timers 2 ExecDemo.world0 = (Ok tt, w') \/ timers 2 ExecDemo.world0 = (Err SleptTooLong, w') /\ time ExecDemo.world0 + 2000 < time w'.
Proof. split; [vm_compute; reflexivity|]. apply timers_sound. cbn. lia. Defined.

Lemma console_prints_witness :
  let (r, w') := harness_rt.write_str 20 3 (str "#EVT {}") 0 IoDemo.world0 in
  match r with
  | Ok _ => sent w' = sent IoDemo.world0 ++ str "#EVT {}"
  | Err _ => exists n, 0 <= n <= len (str "#EVT {}") /\ sent w' = sent IoDemo.world0 ++ ztake n (str "#EVT {}")
  | Panic | Hang => False
  end.
Proof. apply (console_prints 3 20 (str "#EVT {}") IoDemo.world0). cbn. lia. Defined.

Example timestamps_pass : (timestamps ExecDemo.world0).1 = Ok tt.
Proof. vm_compute. reflexivity. Qed.

(** A TLS stack whose server has a certificate for one name under one anchor, and
    answers in three pieces. *)
Definition demo_response : list bytes :=
  [str "HTTP/1.1 200 OK"; [13; 10; 13; 10; 123; 34] ++ str "publicKey"; [34; 58; 34] ++ str "mkey:ab" ++ [34; 125]].
#[local] Instance demo_tls : Tls := {|
  TlsError := unit; InvalidCertificate := tt; EncodeError := tt; InvalidApplicationData := tt;
  TlsConnection := list bytes;
  tls_open _ _ _ config provider :=
    match sni config, verifier provider with
    | Some name, Some v =>
        if bytes_eqb name (str "localhost") && bytes_eqb (anchor v) [1; 2; 3] && (2 <=? room v) then Ok demo_response else Err tt
    | _, _ => Err tt
    end;
  tls_write_all c _ := Ok c;
  tls_flush c := Ok c;
  tls_read c cap := match c with [] => Ok ([], []) | seg :: rest => Ok (ztake cap seg, if cap <? len seg then zdrop cap seg :: rest else rest) end |}.

#[local] Instance demo_tls_ok : TlsOk demo_tls.
Proof.
  refine {| chain := fun _ => [[4; 5]];
    valid_chain := fun l ca name _ => l = [[4; 5]] /\ ca = [1; 2; 3] /\ name = str "localhost";
    app_data := fun c : TlsConnection => c |}.
  - intros s r w config provider v name t c H Hs Hv _. cbn in H. rewrite Hs, Hv in H.
    destruct (bytes_eqb name _ && bytes_eqb (anchor v) _ && _) eqn:E; [|done].
    apply andb_true_iff in E as [[E1 E2]%andb_true_iff E3%Z.leb_le].
    apply bytes_eqb_true in E1, E2. by split.
  - intros [|seg rest] cap _; cbn; by eexists.
Defined.

Definition with_anchor : Disk := mkDisk {[ str "ca.der" := [1; 2; 3] ]} None None.
Definition anchored := file_store.read_file 10 with_anchor (str "ca.der") (zeros harness_tls.MAX_CA).

Lemma key_over_tls_witness :
  harness_tls.fetch 10 100 with_anchor (Ok (net.mkStream [] None)) (str "localhost") (str "ca.der") 0 []
    = (anchored.1.1, Ok (key_request (str "localhost"), str "mkey:ab")).
Proof.
  apply (proj2 (key_over_tls (TOk := demo_tls_ok) 10 100 with_anchor anchored.1.1 (Ok (net.mkStream [] None)) (str "localhost") (str "ca.der") anchored.1.2 3 0 [] (str "mkey:ab"))
    (net.mkStream [] None) demo_response demo_response demo_response); try reflexivity; try (vm_compute; congruence).
  - vm_compute. by split.
  - repeat constructor.
Defined.

End StartDemo.
