(* ===== verification/HarnessMain.v ===== *)
(** * The harness: the command line

    [harness/src/main.rs]: the arguments as the kernel lays them out, what they are
    parsed to and which part of the program they start. *)

From Stdlib Require Import Strings.String.
From S2P Require Import Prelude Utf8 Keys KeysFacts NetAddr Netmap Json JsonFacts ControlMessages HarnessWg.

Module harness_main.

(** ** Parsers *)

(** [HexBytes], as it is displayed. *)
Definition hex_bytes (b : bytes) : bytes := concat (map keys.lower_hex2 b).

(** A panic on anything but a digit. *)
Definition nibble (c : Z) : res Empty_set Z :=
  if between 48 57 c then Ok (c - 48) else
  if between 97 102 c then Ok (c - 97 + 10) else
  if between 65 70 c then Ok (c - 65 + 10) else
  Panic.

(** The loop over the key: [n] bytes left, the next one [i]. *)
Fixpoint key_slots (n : nat) (i : Z) (b : bytes) : res Empty_set bytes :=
  match n with
  | O => Ok []
  | S n =>
      let! c := or_panic (get_at (i * 2) b) in
      let! high := nibble c in
      let! c := or_panic (get_at (i * 2 + 1) b) in
      let! low := nibble c in
      let! rest := key_slots n (i + 1) b in
      Ok (Z.lor (wrap 8 (Z.shiftl high 4)) low :: rest)
  end.

Definition parse_key (hex : bytes) : res Empty_set bytes :=
  if negb (len hex =? 64) then Panic else key_slots 32 0 hex.

(** The loop of [parse_u16]: at most 65535 times ten and nine before the check, which
    a [u32] holds. *)
Fixpoint u16_loop (value : Z) (s : bytes) : option Z :=
  match s with
  | [] => Some (wrap 16 value)
  | c :: s =>
      if negb (scanner.is_ascii_digit c) then None else
      let value := wrap 32 (wrap 32 (value * 10) + (c - 48)) in
      if U16_MAX <? value then None else u16_loop value s
  end.

Definition parse_u16 (s : bytes) : option Z :=
  match s with [] => None | _ => u16_loop 0 s end.

(** [s.split(c)] *)
Fixpoint split (c : Z) (s : bytes) : list bytes :=
  match s with
  | [] => [[]]
  | b :: s =>
      if b =? c then [] :: split c s else
      match split c s with p :: ps => (b :: p) :: ps | [] => [[b]] end
  end.

(** The octets still to fill: the parts that are left. *)
Fixpoint octets (n : nat) (parts : list bytes) : option (bytes * list bytes) :=
  match n with
  | O => Some ([], parts)
  | S n =>
      match parts with
      | [] => None
      | part :: parts =>
          let? v := parse_u16 part in
          if 255 <? v then None else
          let? (o, parts) := octets n parts in Some (v :: o, parts)
      end
  end.

Definition parse_octets (s : bytes) : option bytes :=
  let? (o, parts) := octets 4 (split 46 s) in
  match parts with [] => Some o | _ => None end.

(** [Ipv4Addr] by its octets *)
Definition parse_ipv4 (s : bytes) : option bytes := parse_octets s.

(** ** Commands *)

(** [wg::Config] *)
Record Tunnel := mkTunnel { bind : bytes; port : Z; config : harness_wg.Config }.

(** What the program does; [Usage] is printing it and exiting with 2. *)
Inductive Stop := Usage.
Inductive Command :=
| Respond (c : Tunnel)
| Initiate (c : Tunnel) (peer_ip : bytes) (peer_port : Z)
| Selftest (state_dir : bytes)
| Ts2021 (state_dir ip : bytes) (port : Z)
| Map_ (state_dir ip : bytes) (port : Z) (hostname : bytes) (wanted : Z)
| Derp_ (ip : bytes) (port : Z) (sender receiver : bytes)
| Tls_ (ip : bytes) (port : Z) (name ca : bytes)
| Disco_ (state_dir ip : bytes) (port : Z) (hostname : bytes) (seconds : option Z)
| Register_ (state_dir ip : bytes) (port : Z) (auth_key hostname : bytes) (exit_node rotate : bool).

(** ** Arguments *)

Section Start.
Context (args : list bytes).

(** [Args::get] *)
Definition get (index : Z) : option bytes :=
  let? text := get_at index args in if utf8_valid text then Some text else None.

(** The loop of [hostname]; an argument that is not there ends it. *)
Fixpoint hostname_from (fuel : nat) (index : Z) : bytes :=
  match fuel with
  | O => hostinfo.DEFAULT_HOSTNAME
  | S fuel =>
      match get index with
      | None => hostinfo.DEFAULT_HOSTNAME
      | Some arg =>
          if bytes_eqb arg (str "--hostname")
          then match get (index + 1) with Some name => name | None => hostname_from fuel (index + 1) end
          else hostname_from fuel (index + 1)
      end
  end.

Definition hostname : bytes := hostname_from (length args) 2.

(** An argument that must be there. *)
Definition required (index : Z) : res Stop bytes := ok_or (get index) Usage.

(** [expect] *)
Definition ipv4 (s : bytes) : res Stop bytes := or_panic (parse_ipv4 s).
Definition u16 (s : bytes) : res Stop Z := or_panic (parse_u16 s).
Definition key (s : bytes) : res Stop bytes :=
  match parse_key s with Ok k => Ok k | Err e => match e with end | Panic => Panic | Hang => Hang end.

Definition tunnel_config : res Stop Tunnel :=
  let! bind_ip := required 2 in
  let! port_ := required 3 in
  let! private_hex := required 4 in
  let! peer_hex := required 5 in
  let! tunnel_ip := required 6 in
  let! bind_ip := ipv4 bind_ip in
  let! port_ := u16 port_ in
  let! private_key := key private_hex in
  let! peer_key := key peer_hex in
  let! tunnel_ip := or_panic (parse_octets tunnel_ip) in
  Ok (mkTunnel bind_ip port_ (harness_wg.mkConfig private_key peer_key tunnel_ip)).

(** A flag among the arguments 6 to 9. *)
Definition flag (name : bytes) : bool :=
  existsb (fun i => match get i with Some a => bytes_eqb a name | None => false end) [6; 7; 8; 9].

(** The arguments after the address and the port are looked up before those two are
    parsed. *)
Definition server (ip_at : Z) {A} (rest : res Stop A) (k : bytes -> Z -> A -> Command) : res Stop Command :=
  let! ip := required ip_at in
  let! port_ := required (ip_at + 1) in
  let! a := rest in
  let! ip := ipv4 ip in
  let! port_ := u16 port_ in
  Ok (k ip port_ a).

(** [rust_start] *)
Definition rust_start : res Stop Command :=
  match get 1 with
  | None => Err Usage
  | Some c =>
      if bytes_eqb c (str "respond") then let! c := tunnel_config in Ok (Respond c) else
      if bytes_eqb c (str "initiate") then
        let! c := tunnel_config in
        let! peer_ip := required 7 in
        let! peer_port := required 8 in
        let! peer_ip := ipv4 peer_ip in
        let! peer_port := u16 peer_port in
        Ok (Initiate c peer_ip peer_port) else
      if bytes_eqb c (str "selftest") then Ok (Selftest (default (str "/tmp/harness-selftest") (get 2))) else
      if bytes_eqb c (str "ts2021") then
        let! state_dir := required 2 in
        server 3 (Ok tt) (fun ip port_ _ => Ts2021 state_dir ip port_) else
      if bytes_eqb c (str "map") then
        let! state_dir := required 2 in
        server 3 (Ok tt) (fun ip port_ _ =>
          Map_ state_dir ip port_ hostname (Z.max (default 1 (let? a := get 5 in parse_u16 a)) 1)) else
      if bytes_eqb c (str "derp") then
        server 2 (let! sender := required 4 in let! receiver := required 5 in Ok (sender, receiver))
          (fun ip port_ '(sender, receiver) => Derp_ ip port_ sender receiver) else
      if bytes_eqb c (str "tls") then
        server 2 (let! name := required 4 in let! ca := required 5 in Ok (name, ca))
          (fun ip port_ '(name, ca) => Tls_ ip port_ name ca) else
      if bytes_eqb c (str "disco") then
        let! state_dir := required 2 in
        server 3 (Ok tt) (fun ip port_ _ => Disco_ state_dir ip port_ hostname (let? a := get 5 in parse_u16 a)) else
      if bytes_eqb c (str "register") then
        let! state_dir := required 2 in
        server 3 (required 5) (fun ip port_ auth_key =>
          Register_ state_dir ip port_ auth_key hostname (flag (str "--exit-node")) (flag (str "--rotate"))) else
      Err Usage
  end.

End Start.

(** ** The command line of a command *)

Fixpoint join (c : Z) (parts : list bytes) : bytes :=
  match parts with
  | [] => []
  | [p] => p
  | p :: ps => p ++ c :: join c ps
  end.

Definition dotted (o : bytes) : bytes := join 46 (map (json.decimal 20) o).
Definition number (n : Z) : bytes := json.decimal 20 n.

Definition tunnel_arguments (c : Tunnel) : list bytes :=
  [dotted (bind c); number (port c); hex_bytes (harness_wg.private_key (config c)); hex_bytes (harness_wg.peer_key (config c));
   dotted (harness_wg.tunnel_ip (config c))].

Definition named (hostname : bytes) : list bytes := [str "--hostname"; hostname].

(** The usage text, filled in. *)
Definition command_line (c : Command) : list bytes :=
  match c with
  | Respond c => str "respond" :: tunnel_arguments c
  | Initiate c ip p => str "initiate" :: tunnel_arguments c ++ [dotted ip; number p]
  | Selftest dir => [str "selftest"; dir]
  | Ts2021 dir ip p => [str "ts2021"; dir; dotted ip; number p]
  | Map_ dir ip p hostname wanted => [str "map"; dir; dotted ip; number p; number wanted] ++ named hostname
  | Derp_ ip p sender receiver => [str "derp"; dotted ip; number p; sender; receiver]
  | Tls_ ip p name ca => [str "tls"; dotted ip; number p; name; ca]
  | Disco_ dir ip p hostname seconds =>
      [str "disco"; dir; dotted ip; number p] ++ match seconds with Some n => [number n] | None => [] end ++ named hostname
  | Register_ dir ip p auth_key hostname exit_node rotate =>
      [str "register"; dir; dotted ip; number p; auth_key]
        ++ (if exit_node then [str "--exit-node"] else []) ++ (if rotate then [str "--rotate"] else []) ++ named hostname
  end.

(** The values a command can have. *)
Definition ip_ok (o : bytes) : Prop := len o = 4 /\ bytes_ok o.
Definition key_ok (k : bytes) : Prop := len k = 32 /\ bytes_ok k.
Definition text_ok (s : bytes) : Prop := utf8_valid s = true.
Definition tunnel_ok (c : Tunnel) : Prop :=
  ip_ok (bind c) /\ is_u16 (port c) /\ key_ok (harness_wg.private_key (config c)) /\ key_ok (harness_wg.peer_key (config c)) /\
  ip_ok (harness_wg.tunnel_ip (config c)).

Definition command_ok (c : Command) : Prop :=
  match c with
  | Respond c => tunnel_ok c
  | Initiate c ip p => tunnel_ok c /\ ip_ok ip /\ is_u16 p
  | Selftest dir => text_ok dir
  | Ts2021 dir ip p => text_ok dir /\ ip_ok ip /\ is_u16 p
  | Map_ dir ip p hostname wanted => text_ok dir /\ ip_ok ip /\ is_u16 p /\ text_ok hostname /\ is_u16 wanted /\ 1 <= wanted
  | Derp_ ip p a b | Tls_ ip p a b => ip_ok ip /\ is_u16 p /\ text_ok a /\ text_ok b
  | Disco_ dir ip p hostname seconds =>
      text_ok dir /\ ip_ok ip /\ is_u16 p /\ text_ok hostname /\ match seconds with Some n => is_u16 n | None => True end
  | Register_ dir ip p auth_key hostname _ _ =>
      text_ok dir /\ ip_ok ip /\ is_u16 p /\ text_ok auth_key /\ text_ok hostname
  end.

(** What tells the texts of a command apart from its flags. *)
Definition unambiguous (c : Command) : Prop :=
  match c with
  | Map_ dir _ _ _ _ | Disco_ dir _ _ _ _ => dir <> str "--hostname"
  | Register_ dir _ _ auth_key hostname _ _ =>
      dir <> str "--hostname" /\ auth_key <> str "--hostname" /\ hostname <> str "--exit-node" /\ hostname <> str "--rotate"
  | _ => True
  end.

End harness_main.
Import harness_main.

(** ** Numbers *)

Lemma digits_value_grows l : forall acc v, 0 <= acc -> scanner.digits_value acc l = Some v -> acc <= v.
Proof.
  induction l as [|b l IH]; intros acc v Ha; cbn [scanner.digits_value]; [intros [= <-]; lia|].
  unfold scanner.is_ascii_digit, between. destruct (_ && _) eqn:E; [|done]. bool_hyps. intros Hd. apply IH in Hd; lia.
Qed.

Lemma u16_loop_value l : forall value, 0 <= value <= U16_MAX ->
  u16_loop value l = match scanner.digits_value value l with Some v => if v <=? U16_MAX then Some v else None | None => None end.
Proof.
  induction l as [|b l IH]; intros value Hv; cbn [u16_loop scanner.digits_value].
  - rewrite (proj2 (Z.leb_le _ _)) by lia. f_equal. unfold wrap, U16_MAX in *. apply Z.mod_small. lia.
  - destruct (scanner.is_ascii_digit b) eqn:E; cbn [negb]; [|done]. unfold scanner.is_ascii_digit, between in E. bool_hyps.
    assert (wrap 32 (wrap 32 (value * 10) + (b - 48)) = value * 10 + (b - 48)) as ->.
    { unfold wrap, U16_MAX in *. rewrite !Z.mod_small; [done|lia|rewrite Z.mod_small; lia]. }
    destruct (U16_MAX <? value * 10 + (b - 48)) eqn:Eo; bool_hyps; [|apply IH; lia].
    destruct (scanner.digits_value _ l) as [v|] eqn:Ev; [|done]. apply digits_value_grows in Ev; [|lia].
    by rewrite (proj2 (Z.leb_gt _ _)) by lia.
Qed.

(** A decimal number that fits, with any zeros in front, and nothing else. *)
Lemma parse_u16_exact s v : parse_u16 s = Some v <-> s <> [] /\ scanner.digits_value 0 s = Some v /\ v <= U16_MAX.
Proof.
  unfold parse_u16. destruct s as [|b s]; [split; [done|by intros []]|]. rewrite u16_loop_value by (unfold U16_MAX; lia).
  destruct (scanner.digits_value 0 (b :: s)) as [w|]; [|split; [done|by intros (_ & ? & _)]]. destruct (w <=? U16_MAX) eqn:E; bool_hyps.
  - split; [by intros [= <-]|by intros (_ & [= <-] & _)].
  - split; [done|]. intros (_ & [= <-] & ?). lia.
Qed.

Lemma parse_u16_bound s v : parse_u16 s = Some v -> is_u16 v.
Proof.
  rewrite parse_u16_exact. intros (_ & Hd & Hv). apply digits_value_grows in Hd; [|done]. unfold is_uint, U16_MAX in *. lia.
Qed.

Lemma number_digits n : Forall (fun b => 48 <= b <= 57) (number n) /\ number n <> [].
Proof.
  split.
  - destruct (decimal_digits 20 n) as [H _]. eapply Forall_impl; [exact H|]. intros b Hb.
    unfold scanner.is_ascii_digit, between in Hb. bool_hyps. lia.
  - unfold number. intros H. apply (f_equal len) in H. cbn [json.decimal] in H. rewrite len_app in H.
    change (len [48 + n mod 10]) with 1 in H. change (len (@nil Z)) with 0 in H. nonneg_lens. lia.
Qed.

Lemma parse_number n : is_u16 n -> parse_u16 (number n) = Some n.
Proof.
  unfold is_uint. intros Hn. apply parse_u16_exact. split; [apply number_digits|]. split; [apply (decimal_value 19); lia|unfold U16_MAX; lia].
Qed.

(** ** Addresses *)

Lemma split_join c parts : parts <> [] -> Forall (fun p => c ∉ p) parts -> split c (join c parts) = parts.
Proof.
  assert (forall p r, c ∉ p -> split c (p ++ c :: r) = p :: split c r) as Happ.
  { intros p r. induction p as [|b p IH]; intros Hp; cbn [app split]; [by rewrite Z.eqb_refl|].
    rewrite not_elem_of_cons in Hp. destruct Hp as [Hb Hp]. rewrite (proj2 (Z.eqb_neq b c)) by congruence. by rewrite IH. }
  intros Hne H. induction H as [|p parts Hp H IH]; [done|]. destruct parts as [|q parts]; cbn [join].
  - clear -Hp. induction p as [|b p IH]; cbn [split]; [done|]. rewrite not_elem_of_cons in Hp. destruct Hp as [Hb Hp].
    rewrite (proj2 (Z.eqb_neq b c)) by congruence. by rewrite IH.
  - rewrite Happ by done. f_equal. by apply IH.
Qed.

Lemma join_split c s : split c s <> [] /\ join c (split c s) = s /\ Forall (fun p => c ∉ p) (split c s).
Proof.
  induction s as [|b s (Hne & Hj & Hf)]; cbn [split]; [split_and!; [done|done|constructor; [set_solver|constructor]]|].
  destruct (b =? c) eqn:E; bool_hyps.
  - subst b. split_and!; [done| |by constructor; [set_solver|]]. destruct (split c s) as [|p ps]; [done|]. cbn [join app]. by rewrite <- Hj.
  - destruct (split c s) as [|p ps]; [done|]. split_and!; [done| |].
    + rewrite <- Hj. by destruct ps.
    + inversion_clear Hf. constructor; [|done]. rewrite not_elem_of_cons. split; [congruence|done].
Qed.

(** One octet as text. *)
Definition octet_text (part : bytes) (v : Z) : Prop := part <> [] /\ scanner.digits_value 0 part = Some v /\ v <= 255.

Lemma octets_step n p parts o rest :
  octets (S n) (p :: parts) = Some (o, rest) <-> exists v o', octet_text p v /\ octets n parts = Some (o', rest) /\ o = v :: o'.
Proof.
  cbn [octets]. destruct (parse_u16 p) as [v|] eqn:Ep; cbn.
  - apply parse_u16_exact in Ep as (Hne & Hd & _). destruct (255 <? v) eqn:Ev; bool_hyps.
    + split; [done|]. intros (w & o' & (_ & Hd' & ?) & _). rewrite Hd in Hd'. injection Hd' as <-. lia.
    + destruct (octets n parts) as [[xs r]|]; (split; [|intros (w & o' & (_ & Hd' & _) & [= <- <-] & ->) || intros (w & o' & _ & [=] & _)]); [|by rewrite Hd in Hd'; injection Hd' as <-|done].
      intros [= <- <-]. by exists v, xs.
  - split; [done|]. intros (w & o' & (Hne & Hd & ?) & _).
    assert (parse_u16 p = Some w) as H2 by (apply parse_u16_exact; split_and!; [done|done|unfold U16_MAX; lia]). congruence.
Qed.

Lemma octets_exact n : forall parts o rest,
  octets n parts = Some (o, rest) <-> exists front, parts = front ++ rest /\ length front = n /\ Forall2 octet_text front o.
Proof.
  induction n as [|n IH]; intros parts o rest.
  - cbn. split; [intros [= <- <-]; by exists []|]. intros (front & -> & Hl & HF). destruct front; [|done]. by inversion HF.
  - destruct parts as [|p parts].
    { split; [done|]. intros (front & Heq & Hl & _). by destruct front. }
    rewrite octets_step. split.
    + intros (v & o' & Hp & Ho & ->). apply IH in Ho as (front & -> & <- & HF). exists (p :: front). split_and!; [done|done|by constructor].
    + intros ([|q front] & Heq & Hl & HF); [done|]. injection Heq as <- ->. injection Hl as Hl.
      apply Forall2_cons_inv_l in HF as (v & o' & Hv & HF & ->). exists v, o'. split_and!; [done|apply IH; by exists front|done].
Qed.

(** Four numbers of at most 255, zeros in front of them allowed, with dots between
    them. *)
Lemma parse_octets_exact s o :
  parse_octets s = Some o <-> exists parts, s = join 46 parts /\ length parts = 4%nat /\ Forall (fun p => 46 ∉ p) parts /\ Forall2 octet_text parts o.
Proof.
  unfold parse_octets. split.
  - destruct (octets 4 (split 46 s)) as [[o' [|]]|] eqn:E; cbn; [|done..]. intros [= <-]. apply octets_exact in E as (front & Hs & Hl & HF).
    rewrite app_nil_r in Hs. subst front. exists (split 46 s). destruct (join_split 46 s) as (_ & Hj & Hf). by split_and!.
  - intros (parts & -> & Hl & Hd & HF). rewrite split_join by (done || by destruct parts).
    assert (octets 4 parts = Some (o, [])) as -> by (apply octets_exact; exists parts; by rewrite app_nil_r). done.
Qed.

Lemma octet_text_number v : is_u8 v -> octet_text (number v) v.
Proof.
  intros Hv. unfold is_uint in Hv. split; [apply number_digits|]. split; [apply (decimal_value 19); lia|lia].
Qed.

Lemma parse_dotted o : ip_ok o -> parse_octets (dotted o) = Some o.
Proof.
  intros [Hl Hb]. apply parse_octets_exact. exists (map number o). split_and!; [done|rewrite length_map; unfold len in Hl; lia| |].
  - apply Forall_map, Forall_forall. intros v _ Hin. destruct (number_digits v) as [Hd _].
    rewrite Forall_forall in Hd. specialize (Hd _ Hin). cbn in Hd. lia.
  - clear Hl. induction Hb as [|v o Hv _ IH]; constructor; [by apply octet_text_number|done].
Qed.

Lemma parse_octets_ok s o : parse_octets s = Some o -> ip_ok o.
Proof.
  rewrite parse_octets_exact. intros (parts & _ & Hl & _ & HF). split; [unfold len; by rewrite <- (Forall2_length _ _ _ HF), Hl|].
  clear Hl. induction HF as [|p v parts o (_ & Hd & Hv) _ IH]; constructor; [|done].
  apply digits_value_grows in Hd; [|done]. unfold is_uint. lia.
Qed.

(** ** Keys *)

(** The parser of keys refuses what the one of the key store does, and panics where
    that one gives an error. *)
Lemma parse_key_decode hex :
  parse_key hex = match encoding.decode_hex hex with Ok k => Ok k | _ => Panic end.
Proof.
  unfold parse_key, encoding.decode_hex. change (encoding.KEY_LEN * 2) with 64. destruct (len hex =? 64); cbn [negb]; [|done].
  change (Z.to_nat encoding.KEY_LEN) with 32%nat. generalize 0. generalize 32%nat. intros n. induction n as [|n IH]; intros i; [done|].
  cbn [key_slots encoding.decode_slots]. destruct (get_at (i * 2) hex) as [a|]; cbn [or_panic rbind]; [|done].
  unfold nibble, encoding.nibble. repeat (case_if; cbn [rbind]; try done); destruct (get_at (i * 2 + 1) hex) as [b|]; cbn [or_panic rbind]; try done;
    repeat (case_if; cbn [rbind]; try done); rewrite IH; by destruct (encoding.decode_slots n (i + 1) hex).
Qed.

Lemma parse_hex k : key_ok k -> parse_key (hex_bytes k) = Ok k.
Proof.
  intros [Hl Hb]. destruct (hex_of_spec k Hb) as [Ht _]. change (hex_of k) with (hex_bytes k) in Ht.
  rewrite parse_key_decode. destruct (decode_hex_exact (hex_bytes k)) as [[H _]|(_ & [(k' & Ht' & ->)|[H _]])].
  - apply hex_text_len in Ht. change (encoding.KEY_LEN * 2) with 64 in H. lia.
  - by rewrite (hex_text_inj _ _ _ Ht Ht').
  - by destruct (H k).
Qed.

Lemma parse_key_bytes s k : parse_key s = Ok k -> key_ok k.
Proof.
  rewrite parse_key_decode. destruct (decode_hex_exact s) as [[_ ->]|(Hl & [(k' & Ht & ->)|[_ ->]])]; [done| |done]. intros [= <-].
  split; [|by eapply hex_text_bytes]. apply hex_text_len in Ht. change (encoding.KEY_LEN * 2) with 64 in Hl. lia.
Qed.

(** ** Command lines *)

Lemma text_ascii s : Forall (fun b => 0 <= b < 128) s -> text_ok s.
Proof. apply utf8_ascii. Qed.

Lemma text_number n : text_ok (number n).
Proof. apply text_ascii. destruct (number_digits n) as [H _]. eapply Forall_impl; [exact H|]. cbn. lia. Qed.

Lemma text_dotted o : text_ok (dotted o).
Proof.
  apply text_ascii. unfold dotted. induction o as [|v o IH]; cbn [map join]; [constructor|].
  assert (Forall (fun b => 0 <= b < 128) (json.decimal 20 v)) as Hv.
  { destruct (number_digits v) as [H _]. eapply Forall_impl; [exact H|]. cbn. lia. }
  destruct o as [|w o]; cbn [map] in *; [done|]. apply Forall_app. split; [done|]. constructor; [lia|exact IH].
Qed.

Lemma text_hex k : bytes_ok k -> text_ok (hex_bytes k).
Proof. intros Hk. apply text_ascii, hex_of_spec, Hk. Qed.

(** A text of digits and dots is no flag. *)
Lemma number_no_flag n s : number n <> 45 :: s.
Proof. destruct (number_digits n) as [H _]. intros E. rewrite E in H. inversion H. lia. Qed.
Lemma dotted_no_flag o s : dotted o <> 45 :: s.
Proof.
  unfold dotted. destruct o as [|v o]; [done|]. cbn [map join]. destruct (number_digits v) as [H Hne]. unfold number in *.
  destruct (json.decimal 20 v) as [|b l] eqn:E; [done|]. inversion H; subst.
  destruct (map (json.decimal 20) o); cbn [app]; intros [=]; lia.
Qed.

Lemma get_there args i s : args !! i = Some s -> text_ok s -> get args (Z.of_nat i) = Some s.
Proof. unfold get. intros Hi Hs. assert (get_at (Z.of_nat i) args = Some s) as ->; [|cbn; by rewrite Hs].
  unfold get_at. by rewrite (proj2 (Z.leb_le _ _)), Nat2Z.id by lia. Qed.

Lemma get_ok args i s : get args i = Some s -> text_ok s.
Proof. unfold get. destruct (get_at i args) as [x|]; cbn; [|done]. destruct (utf8_valid x) eqn:E; [|done]. by intros [= <-]. Qed.

(** *** What a command holds *)

Lemma required_ok args i s : required args i = Ok s -> text_ok s.
Proof. unfold required. rewrite ok_or_Ok. apply get_ok. Qed.
Lemma ipv4_ok s o : ipv4 s = Ok o -> ip_ok o.
Proof. unfold ipv4. destruct (parse_ipv4 s) as [x|] eqn:E; [|done]. intros [= <-]. by eapply parse_octets_ok. Qed.
Lemma u16_ok s v : u16 s = Ok v -> is_u16 v.
Proof. unfold u16. destruct (parse_u16 s) as [x|] eqn:E; [|done]. intros [= <-]. by eapply parse_u16_bound. Qed.
Lemma key_parsed s k : key s = Ok k -> key_ok k.
Proof. unfold key. destruct (parse_key s) as [x|[]| |] eqn:E; try done. intros [= <-]. by eapply parse_key_bytes. Qed.

Lemma hostname_ok args : text_ok (hostname args).
Proof.
  unfold hostname. generalize (length args) 2. intros fuel. induction fuel as [|fuel IH]; intros i; cbn [hostname_from]; [done|].
  destruct (get args i) as [arg|]; [|done]. case_if; [|done]. destruct (get args (i + 1)) as [name|] eqn:E; [|done]. by eapply get_ok.
Qed.

Lemma server_ok args i {A} (rest : res Stop A) k c : server args i rest k = Ok c ->
  exists ip p a, rest = Ok a /\ c = k ip p a /\ ip_ok ip /\ is_u16 p.
Proof. unfold server. intros H. inv_res. do 3 eexists. split_and!; [done|done|by eapply ipv4_ok|by eapply u16_ok]. Qed.

Lemma tunnel_config_ok args c : tunnel_config args = Ok c -> tunnel_ok c.
Proof.
  unfold tunnel_config. intros H. inv_res. split_and!; cbn; [by eapply ipv4_ok|by eapply u16_ok|by eapply key_parsed..|].
  by eapply parse_octets_ok.
Qed.

(** Whatever the arguments, what the program starts with is well-formed: addresses
    are four bytes, ports fit 16 bits, keys are 32 bytes, texts are UTF-8 and a map is
    asked for at least once.  Nothing else gets past the parsers: they print the usage
    or panic. *)
Theorem commands_well_formed args c : rust_start args = Ok c -> command_ok c.
Proof.
  unfold rust_start. destruct (get args 1) as [name|]; [|done]. pose proof (hostname_ok args) as Hh.
  assert (forall i, match (let? a := get args i in parse_u16 a) with Some n => is_u16 n | None => True end) as Hn.
  { intros i. destruct (get args i) as [a|]; cbn; [|done]. destruct (parse_u16 a) eqn:E; [by eapply parse_u16_bound|done]. }
  repeat (case_if; [intros H; inv_res|]); try done; cbn [command_ok].
  - by eapply tunnel_config_ok.
  - split_and!; [by eapply tunnel_config_ok|by eapply ipv4_ok|by eapply u16_ok].
  - destruct (get args 2) eqn:E; [by eapply get_ok|done].
  - apply required_ok in Hm. apply server_ok in Hk as (ip & p & [] & _ & -> & ? & ?). by split_and!.
  - apply required_ok in Hm. apply server_ok in Hk as (ip & p & [] & _ & -> & ? & ?). specialize (Hn 5).
    split_and!; [done..|destruct (let? a := get args 5 in parse_u16 a); cbn; unfold is_uint in *; lia|lia].
  - apply server_ok in H as (ip & p & [a b] & Hr & -> & ? & ?). inv_res. split_and!; eauto using required_ok.
  - apply server_ok in H as (ip & p & [a b] & Hr & -> & ? & ?). inv_res. split_and!; eauto using required_ok.
  - apply required_ok in Hm. apply server_ok in Hk as (ip & p & [] & _ & -> & ? & ?). split_and!; [done..|apply Hn].
  - apply required_ok in Hm. apply server_ok in Hk as (ip & p & b & Hr & -> & ? & ?). split_and!; eauto using required_ok.
Qed.

(** *** What a command line means *)

Definition plain (s : bytes) : Prop := text_ok s /\ s <> str "--hostname".

Lemma plain_number n : plain (number n).
Proof. split; [apply text_number|apply number_no_flag]. Qed.
Lemma plain_dotted o : plain (dotted o).
Proof. split; [apply text_dotted|apply dotted_no_flag]. Qed.
#[local] Hint Resolve text_number text_dotted plain_number plain_dotted : core.

(** The name after the first [--hostname]. *)
Lemma hostname_found program command mid name rest : Forall plain mid -> text_ok name ->
  hostname (program :: command :: mid ++ str "--hostname" :: name :: rest) = name.
Proof.
  intros Hmid Hname. unfold hostname.
  assert (forall front mid fuel, Forall plain mid -> (length mid < fuel)%nat ->
    hostname_from (front ++ mid ++ str "--hostname" :: name :: rest) fuel (Z.of_nat (length front)) = name) as Hgo.
  { clear mid Hmid. intros front mid. revert front. induction mid as [|m mid IH]; intros front [|fuel] Hmid Hf; cbn [length] in Hf; try lia; cbn [hostname_from app].
    - rewrite (get_there _ (length front) (str "--hostname")); [|by rewrite list_lookup_middle|done]. rewrite bytes_eqb_refl.
      replace (Z.of_nat (length front) + 1) with (Z.of_nat (S (length front))) by lia.
      rewrite (get_there _ (S (length front)) name); [done| |done].
      change (str "--hostname" :: name :: rest) with ([str "--hostname"] ++ name :: rest). rewrite app_assoc, list_lookup_middle; [done|].
      rewrite length_app. cbn. lia.
    - inversion_clear Hmid as [|?? [Hm Hne] Hr]. rewrite (get_there _ (length front) m); [|by rewrite list_lookup_middle|done].
      assert (bytes_eqb m (str "--hostname") = false) as -> by by apply bool_decide_eq_false_2.
      specialize (IH (front ++ [m]) fuel Hr ltac:(lia)). rewrite length_app, Nat2Z.inj_add in IH. change (Z.of_nat (length [m])) with 1 in IH.
      rewrite <- app_assoc in IH. exact IH. }
  apply (Hgo [program; command]); [done|]. cbn [length]. rewrite length_app. cbn [length]. lia.
Qed.

(** Evaluate the next argument looked up, or the next comparison of two literals. *)
Ltac fetch :=
  match goal with
  | |- context [get ?l ?i] =>
      let n := eval compute in (Z.to_nat i) in
      let x := eval cbv [nth_error] in (nth_error l n) in
      lazymatch x with
      | Some ?x => replace (get l i) with (Some x) by (symmetry; apply (get_there l n x eq_refl); (done || eauto))
      | None => change (get l i) with (@None bytes)
      end
  | |- context [bytes_eqb (str ?a) (str ?b)] =>
      let v := eval vm_compute in (bytes_eqb (str a) (str b)) in change (bytes_eqb (str a) (str b)) with v
  end.

Lemma tunnel_understood program name c rest : tunnel_ok c -> tunnel_config (program :: name :: tunnel_arguments c ++ rest) = Ok c.
Proof.
  intros (Hb & Hp & Hk & Hk' & Ht). unfold tunnel_config, required. cbn [tunnel_arguments app].
  pose proof (text_hex _ (proj2 Hk)) as T1. pose proof (text_hex _ (proj2 Hk')) as T2.
  repeat (fetch; cbn [ok_or rbind]). unfold ipv4, u16, key, parse_ipv4.
  rewrite (parse_dotted _ Hb), (parse_number _ Hp), (parse_hex _ Hk), (parse_hex _ Hk'), (parse_dotted _ Ht). cbn [or_panic rbind].
  by destruct c as [? ? []].
Qed.

Lemma server_understood args i ip p {A} (a : A) k : get args i = Some (dotted ip) -> get args (i + 1) = Some (number p) ->
  ip_ok ip -> is_u16 p -> server args i (Ok a) k = Ok (k ip p a).
Proof.
  intros Hi Hp Hip Hpp. unfold server, required. rewrite Hi, Hp. cbn [ok_or rbind]. unfold ipv4, u16, parse_ipv4.
  by rewrite (parse_dotted _ Hip), (parse_number _ Hpp).
Qed.

(** The host name found behind the texts [mid]. *)
Ltac name_is program host mid :=
  match goal with
  | |- context [hostname ?l] =>
      replace (hostname l) with host
        by (symmetry; refine (hostname_found program _ mid host [] _ _); [repeat (apply Forall_cons; split); eauto|done])
  end.

(** C30: The usage text is true: the command line written from a command as the usage
    says, whatever the program is called, starts exactly that command, provided its
    texts are not themselves the flags they stand among. *)
Theorem command_line_understood program c : command_ok c -> unambiguous c -> rust_start (program :: command_line c) = Ok c.
Proof.
  intros Hc Hu. unfold rust_start.
  destruct c as [t|t ip p|dir|dir ip p|dir ip p host wanted|ip p a b|ip p a b|dir ip p host seconds|dir ip p auth host exit_ rotate];
    cbn [command_ok unambiguous] in Hc, Hu; cbn [command_line]; unfold named.
  - do 2 fetch. rewrite <- (app_nil_r (tunnel_arguments t)). by rewrite (tunnel_understood _ _ t []).
  - destruct Hc as (Ht & Hip & Hp). cbn [tunnel_arguments app]. do 3 fetch.
    pose proof (tunnel_understood program (str "initiate") t [dotted ip; number p] Ht) as Htun. cbn [tunnel_arguments app] in Htun. rewrite Htun.
    pose proof (text_hex _ (proj2 (proj1 (proj2 (proj2 Ht))))) as T1. pose proof (text_hex _ (proj2 (proj1 (proj2 (proj2 (proj2 Ht)))))) as T2.
    cbn [rbind]. unfold required. repeat (fetch; cbn [ok_or rbind]). unfold ipv4, u16, parse_ipv4. by rewrite (parse_dotted _ Hip), (parse_number _ Hp).
  - by repeat fetch.
  - destruct Hc as (Hd & Hip & Hp). repeat fetch. unfold required. fetch. cbn [ok_or rbind].
    rewrite (server_understood _ _ ip p); [done|fetch; done|change (3 + 1) with 4; fetch; done|done|done].
  - destruct Hc as (Hd & Hip & Hp & Hh & Hw & Hw1). cbn [app]. repeat fetch. unfold required. fetch. cbn [ok_or rbind].
    rewrite (server_understood _ _ ip p); [|fetch; done|change (3 + 1) with 4; fetch; done|done|done]. cbn [mbind option_bind].
    assert (plain dir) as Hdir by done. name_is program host [dir; dotted ip; number p; number wanted].
    rewrite (parse_number _ Hw). cbn [from_option id default]. do 2 f_equal. lia.
  - destruct Hc as (Hip & Hp & Ha & Hb). repeat fetch. unfold required. repeat fetch. cbn [ok_or rbind].
    rewrite (server_understood _ _ ip p); [done|fetch; done|change (2 + 1) with 3; fetch; done|done|done].
  - destruct Hc as (Hip & Hp & Ha & Hb). repeat fetch. unfold required. repeat fetch. cbn [ok_or rbind].
    rewrite (server_understood _ _ ip p); [done|fetch; done|change (2 + 1) with 3; fetch; done|done|done].
  - destruct Hc as (Hd & Hip & Hp & Hh & Hs). assert (plain dir) as Hdir by done. destruct seconds as [n|]; cbn [app].
    + repeat fetch. unfold required. fetch. cbn [ok_or rbind].
      rewrite (server_understood _ _ ip p); [|fetch; done|change (3 + 1) with 4; fetch; done|done|done]. cbn [mbind option_bind].
      name_is program host [dir; dotted ip; number p; number n]. by rewrite (parse_number _ Hs).
    + repeat fetch. unfold required. fetch. cbn [ok_or rbind].
      rewrite (server_understood _ _ ip p); [|fetch; done|change (3 + 1) with 4; fetch; done|done|done]. cbn [mbind option_bind].
      name_is program host [dir; dotted ip; number p]. done.
  - destruct Hc as (Hd & Hip & Hp & Ha & Hh), Hu as (Hdir & Hauth & He & Hr).
    assert (plain dir /\ plain auth) as [Pd Pa] by done.
    assert (plain (str "--exit-node") /\ plain (str "--rotate")) as [Pe Pr] by done.
    assert (bytes_eqb host (str "--exit-node") = false) as Be by by apply bool_decide_eq_false_2.
    assert (bytes_eqb host (str "--rotate") = false) as Br by by apply bool_decide_eq_false_2.
    destruct exit_, rotate; cbn [app named]; repeat fetch; unfold required; repeat fetch; cbn [ok_or rbind];
      (rewrite (server_understood _ _ ip p); [|fetch; done|change (3 + 1) with 4; fetch; done|done|done]);
      [name_is program host [dir; dotted ip; number p; auth; str "--exit-node"; str "--rotate"]
      |name_is program host [dir; dotted ip; number p; auth; str "--exit-node"]
      |name_is program host [dir; dotted ip; number p; auth; str "--rotate"]
      |name_is program host [dir; dotted ip; number p; auth]];
      unfold flag; cbn [existsb]; repeat fetch; rewrite ?Be, ?Br; done.
Qed.

(** ** On the usage's own examples *)

Module MainDemo.

Definition octets_of (a b c d : Z) : bytes := [a; b; c; d].

Definition rotate_command : Command :=
  Register_ (str "/var/lib/node") (octets_of 10 0 0 1) 8080 (str "tskey-1") (str "esp-gateway-0a1b2c3d") false true.

Example rotate_line : command_line rotate_command =
  map str ["register"; "/var/lib/node"; "10.0.0.1"; "8080"; "tskey-1"; "--rotate"; "--hostname"; "esp-gateway-0a1b2c3d"]%string.
Proof. vm_compute. reflexivity. Qed.

Lemma command_line_understood_witness :
  rust_start (str "harness" :: command_line rotate_command) = Ok rotate_command.
Proof.
  assert (ip_ok (octets_of 10 0 0 1)) as Hip by (split; [done|repeat (constructor; [unfold is_uint; lia|]); constructor]).
  apply command_line_understood; [|vm_compute; split_and!; discriminate].
  split; [reflexivity|]. split; [exact Hip|]. split; [unfold is_uint; lia|]. split; reflexivity.
Defined.

Lemma commands_well_formed_witness :
  rust_start (map str ["harness"; "map"; "dir"; "127.0.0.1"; "080"; "0"]%string) =
    Ok (Map_ (str "dir") (octets_of 127 0 0 1) 80 (str "esp-gateway") 1) /\
  command_ok (Map_ (str "dir") (octets_of 127 0 0 1) 80 (str "esp-gateway") 1).
Proof.
  assert (rust_start (map str ["harness"; "map"; "dir"; "127.0.0.1"; "080"; "0"]%string) =
    Ok (Map_ (str "dir") (octets_of 127 0 0 1) 80 (str "esp-gateway") 1)) as H by (vm_compute; reflexivity).
  split; [exact H|]. exact (commands_well_formed _ _ H).
Defined.

(** Everything else prints the usage or panics: a port of 65536, an address of three
    numbers, a key with a letter that is no digit. *)
Example others :
  rust_start (map str ["harness"; "derp"; "1.2.3.4"; "80"; "a"]%string) = Err Usage /\
  rust_start (map str ["harness"; "ts2021"; "d"; "1.2.3.4"; "65536"]%string) = Panic /\
  rust_start (map str ["harness"; "ts2021"; "d"; "1.2.3"; "80"]%string) = Panic /\
  rust_start [str "harness"; str "ts2021"; [255]; str "1.2.3.4"; str "80"] = Err Usage.
Proof. vm_compute. done. Qed.

End MainDemo.
