(* ===== verification/RunScope.v ===== *)
(** * The conformance suite: what a run leaves behind

    [crates/ts-conformance/src/headscale.rs], what the lab's control server is asked
    through its command line, and [runscope.rs], the shared scope that deletes the
    nodes of a run when its last handle drops.  Running a command and the server behind
    it are the world outside. *)

From Stdlib Require Import Strings.String.
From stdpp Require Import countable.
From S2P Require Import Prelude Keys NetAddr Netmap Json JsonFacts BTree Conformance.

(** What a command that could be run answered. *)
Record Output := mkOutput { code : option Z; stdout : bytes; stderr : bytes }.

(** [status.success()] *)
Definition success (o : Output) : bool := match code o with Some c => c =? 0 | None => false end.

(** [Command::new(program).args(arguments).output()] *)
Class Commands (W : Type) := { output : W -> bytes -> list bytes -> res bytes Output * W }.

(** More of [serde_json]'s documents; output is read with [from_slice]. *)
Class JsonRows (V : Type) := { as_array : V -> option (list V); as_u64 : V -> option Z; from_slice : bytes -> option V }.

Module headscale.

Definition CONTAINER : bytes := str "headscale-lab".

Record Node := mkNode { id : Z; name : bytes; node_key : bytes; machine_key : bytes; addresses : list bytes }.
Record Routes := mkRoutes { available : list bytes; approved : list bytes; serving : list bytes }.

(** The messages, by what they are about. *)
Inductive Error := NotRun (e : bytes) | Failed (stderr : bytes) | NotJson | NotAnArray | NoRoutes (id : Z).

Section Lab.
Context {W V : Type} `{Commands W} `{JsonLib V} `{JsonRows V}.

(** [runtime()]: [CONTAINER_RUNTIME] or podman. *)
Context (runtime : bytes).

Definition strings (v : V) : list bytes := match as_array v with Some l => omap as_str l | None => [] end.

Definition node_of (row : V) : Node :=
  mkNode (default 0 (as_u64 (index row (str "id")))) (default [] (as_str (index row (str "name"))))
    (default [] (as_str (index row (str "node_key")))) (default [] (as_str (index row (str "machine_key"))))
    (strings (index row (str "ip_addresses"))).

(** Run a command of the server in its container. *)
Definition exec (w : W) (arguments : list bytes) : res Error Output * W :=
  let (r, w) := output w runtime ([str "exec"; CONTAINER; str "headscale"; str "nodes"] ++ arguments) in
  (let! o := map_err NotRun r in if success o then Ok o else Err (Failed (stderr o)), w).

Definition rows (o : Output) : res Error (list V) :=
  let! parsed := ok_or (from_slice (stdout o)) NotJson in ok_or (as_array parsed) NotAnArray.

Definition nodes (w : W) : res Error (list Node) * W :=
  let (r, w) := exec w [str "list"; str "--output"; str "json"] in
  (let! o := r in let! rows := rows o in Ok (map node_of rows), w).

Definition delete_node (w : W) (node_id : Z) : res Error unit * W :=
  let (r, w) := exec w [str "delete"; str "--identifier"; json.decimal 20 node_id; str "--force"] in
  (let! _ := r in Ok tt, w).

Definition find_by_node_key (l : list Node) (key : bytes) : option Node :=
  let? i := position (fun n => bytes_eqb (node_key n) key) l in l !! i.

Definition routes (w : W) (node_id : Z) : res Error Routes * W :=
  let (r, w) := exec w [str "list-routes"; str "--output"; str "json"] in
  (let! o := r in
   let! rows := rows o in
   let! row := ok_or (let? i := position (fun row => bool_decide (as_u64 (index row (str "id")) = Some node_id)) rows in rows !! i) (NoRoutes node_id) in
   Ok (mkRoutes (strings (index row (str "available_routes"))) (strings (index row (str "approved_routes")))
         (strings (index row (str "subnet_routes")))), w).

Fixpoint join (parts : list bytes) : bytes :=
  match parts with [] => [] | [p] => p | p :: ps => p ++ 44 :: join ps end.

Definition approve_routes (w : W) (node_id : Z) (l : list bytes) : res Error unit * W :=
  let (r, w) := exec w [str "approve-routes"; str "--identifier"; json.decimal 20 node_id; str "--routes"; join l] in
  (let! _ := r in Ok tt, w).

End Lab.
End headscale.

Module runscope.
Import headscale.

Definition PREFIX : bytes := str "esp-gateway".

(** [format!("{:08x}", hash as u32)] *)
Definition run_id (hash : Z) : bytes :=
  map (fun i => default 0 (get_at (wrap 32 hash / 16 ^ i mod 16) encoding.DIGITS)) [7; 6; 5; 4; 3; 2; 1; 0].

Record Inner := mkInner { run : bytes; hostname : bytes; enabled : bool; reported : bool }.

Definition inner_new (id : bytes) (enabled : bool) : Inner := mkInner id (PREFIX ++ str "-" ++ id) enabled false.

(** [owns] *)
Definition owns (i : Inner) (name : bytes) : bool := bytes_eqb name (hostname i) || starts_with (hostname i ++ str "-") name.

Inductive CleanupError := CouldNotList (e : Error) | CouldNotDelete (e : Error).
Record Cleanup := mkCleanup { deleted : Z; left_behind : Z; errors : list CleanupError }.
Definition cleanup_default : Cleanup := mkCleanup 0 0 [].

Section Scope.
Context {W V : Type} `{Commands W} `{JsonLib V} `{JsonRows V} (runtime : bytes).

(** The loop over the nodes of the run. *)
Fixpoint delete_all (w : W) (l : list Node) (c : Cleanup) : Cleanup * W :=
  match l with
  | [] => (c, w)
  | n :: l =>
      let (r, w) := delete_node runtime w (id n) in
      delete_all w l
        match r with
        | Err e => mkCleanup (deleted c) (left_behind c) (errors c ++ [CouldNotDelete e])
        | _ => mkCleanup (deleted c + 1) (left_behind c) (errors c)
        end
  end.

(** [Inner::cleanup]: at most once, and only where there is a lab. *)
Definition cleanup (i : Inner) (w : W) : Inner * W * Cleanup :=
  if negb (enabled i) then (i, w, cleanup_default) else
  if reported i then (i, w, cleanup_default) else
  let i := mkInner (run i) (hostname i) (enabled i) true in
  let (r, w) := nodes (V := V) runtime w in
  match r with
  | Ok l =>
      let (c, w) := delete_all w (List.filter (fun n => owns i (name n)) l) cleanup_default in
      (i, w, mkCleanup (deleted c) (len (List.filter (fun n => starts_with PREFIX (name n) && negb (owns i (name n))) l)) (errors c))
  | Err e => (i, w, mkCleanup 0 0 [CouldNotList e])
  | Panic | Hang => (i, w, cleanup_default)
  end.

(** ** The scope of a process

    Every [Inner] that was allocated, with the number of its strong handles, and the
    weak handle the next one is made from. *)

Record Process := mkProcess { inners : list (Inner * nat); slot : option nat }.
Definition process_new : Process := mkProcess [] None.

(** [slot.upgrade()]: none once the last handle is gone. *)
Definition upgrade (p : Process) : option nat :=
  let? i := slot p in
  match inners p !! i with Some (_, S _) => Some i | _ => None end.

(** A strong handle more. *)
Definition retain (k : nat) (p : Process) : Process :=
  mkProcess (alter (fun '(x, n) => (x, S n)) k (inners p)) (slot p).

Definition enable (x : Inner) : Inner := mkInner (run x) (hostname x) true (reported x).

(** [RunScope::new]: the process and the handle. *)
Definition scope_new (hash : Z) (enabled : bool) (p : Process) : Process * nat :=
  match upgrade p with
  | Some k =>
      (retain k (if enabled then mkProcess (alter (fun '(x, n) => (enable x, n)) k (inners p)) (slot p) else p), k)
  | None => (mkProcess (inners p ++ [(inner_new (run_id hash) enabled, 1%nat)]) (Some (length (inners p))), length (inners p))
  end.

(** Dropping a handle; the last one drops what it points to, which cleans up. *)
Definition scope_drop (k : nat) (p : Process) (w : W) : Process * W :=
  match inners p !! k with
  | Some (x, 1%nat) =>
      let '(x, w, _) := cleanup x w in (mkProcess (<[k := (x, O)]> (inners p)) (slot p), w)
  | Some (x, S n) => (mkProcess (<[k := (x, n)]> (inners p)) (slot p), w)
  | Some (_, O) | None => (p, w)
  end.

(** [RunScope::cleanup] on a handle. *)
Definition scope_cleanup (k : nat) (p : Process) (w : W) : Process * W * Cleanup :=
  match inners p !! k with
  | Some (x, n) => let '(x, w, c) := cleanup x w in (mkProcess (<[k := (x, n)]> (inners p)) (slot p), w, c)
  | None => (p, w, cleanup_default)
  end.

(** What the threads of a process do with its handles, in the order they do it, and
    what happens outside meanwhile.  A cleanup is one step. *)
Inductive Op :=
| New (hash : Z) (enabled : bool) | Clone (k : nat) | Drop_ (k : nat) | Clean (k : nat) | Outside (f : W -> W).

Definition step (s : Process * W) (o : Op) : Process * W :=
  let (p, w) := s in
  match o with
  | New hash enabled => ((scope_new hash enabled p).1, w)
  | Clone k => (retain k p, w)
  | Drop_ k => scope_drop k p w
  | Clean k => (scope_cleanup k p w).1
  | Outside f => (p, f w)
  end.

Definition runs (s : Process * W) (l : list Op) : Process * W := fold_left step l s.

End Scope.
End runscope.
Import headscale runscope.

(** ** Run ids *)

Lemma digits_determine n : forall x y, 0 <= x < 16 ^ Z.of_nat n -> 0 <= y < 16 ^ Z.of_nat n ->
  (forall i, 0 <= i < Z.of_nat n -> x / 16 ^ i mod 16 = y / 16 ^ i mod 16) -> x = y.
Proof.
  induction n as [|n IH]; intros x y Hx Hy Heq; [cbn in *; lia|].
  assert (x mod 16 = y mod 16) as H0 by (pose proof (Heq 0 ltac:(lia)) as H; by rewrite Z.pow_0_r, !Z.div_1_r in H).
  rewrite Nat2Z.inj_succ, Z.pow_succ_r in Hx, Hy by lia.
  assert (x / 16 = y / 16) as H1.
  { apply IH; [split; [apply Z.div_pos|apply Z.div_lt_upper_bound]; lia..|]. intros i Hi. specialize (Heq (i + 1) ltac:(lia)).
    rewrite Z.pow_add_r, Z.mul_comm in Heq by lia. by rewrite !Z.div_div by lia. }
  rewrite (Z.div_mod x 16), (Z.div_mod y 16), H0, H1 by lia. done.
Qed.

Lemma run_id_inj h1 h2 : run_id h1 = run_id h2 -> wrap 32 h1 = wrap 32 h2.
Proof.
  intros H. apply (digits_determine 8); [apply Z.mod_pos_bound; lia..|]. intros i Hi.
  assert (forall x y, default 0 (get_at (x mod 16) encoding.DIGITS) = default 0 (get_at (y mod 16) encoding.DIGITS) -> x mod 16 = y mod 16) as Hinj.
  { intros x y. assert (forallb (fun i => forallb (fun j => negb (default 0 (get_at i encoding.DIGITS) =? default 0 (get_at j encoding.DIGITS)) || (i =? j)) (seqZ 0 16)) (seqZ 0 16) = true) as Hall by (vm_compute; reflexivity).
    rewrite forallb_forall in Hall. intros E. pose proof (Z.mod_pos_bound x 16 ltac:(lia)). pose proof (Z.mod_pos_bound y 16 ltac:(lia)).
    specialize (Hall (x mod 16)). rewrite <- list_elem_of_In, elem_of_seqZ, forallb_forall in Hall. specialize (Hall ltac:(lia) (y mod 16)).
    rewrite <- list_elem_of_In, elem_of_seqZ, E, Z.eqb_refl in Hall. specialize (Hall ltac:(lia)). cbn in Hall. lia. }
  apply Hinj. unfold run_id in H. cbn [map] in H. injection H as H7 H6 H5 H4 H3 H2 H1 H0.
  assert (i = 0 \/ i = 1 \/ i = 2 \/ i = 3 \/ i = 4 \/ i = 5 \/ i = 6 \/ i = 7) as Hcases by (cbn in Hi; lia).
  destruct Hcases as [->|[->|[->|[->|[->|[->|[->| ->]]]]]]]; done.
Qed.

Lemma len_run_id h : len (run_id h) = 8.
Proof. done. Qed.

(** Two runs with different ids own nothing in common. *)
Lemma owns_disjoint id1 id2 e1 e2 n : len id1 = len id2 -> owns (inner_new id1 e1) n = true -> owns (inner_new id2 e2) n = true -> id1 = id2.
Proof.
  intros Hl H1 H2.
  assert (forall id e, owns (inner_new id e) n = true -> exists rest, n = (PREFIX ++ str "-") ++ id ++ rest) as Hown.
  { clear. intros id e. unfold owns, inner_new. cbn [hostname]. intros H. apply orb_true_iff in H as [H|H].
    - apply bytes_eqb_true in H as ->. exists []. by rewrite app_nil_r, <- app_assoc.
    - apply starts_with_true in H as [rest ->]. exists (str "-" ++ rest). by rewrite <- !app_assoc. }
  destruct (Hown _ _ H1) as [r1 ->], (Hown _ _ H2) as [r2 E]. apply app_inv_head in E.
  apply app_inj_1 in E as [-> _]; [done|]. unfold len in Hl. lia.
Qed.

(** ** The lab *)

Section Facts.
Context {W V : Type} `{Commands W} `{JsonLib V} `{JsonRows V} (runtime : bytes).

(** What the server's command line documents: listing gives what it holds, deleting by
    identifier removes that node, and a command that fails changes nothing. *)
Class LabOk := {
  contents : W -> list Node;
  contents_unique w : NoDup (map id (contents w));
  contents_u64 w : Forall (fun n => is_u64 (id n)) (contents w);
  lab_list w : match output w runtime [str "exec"; CONTAINER; str "headscale"; str "nodes"; str "list"; str "--output"; str "json"] with
    | (Ok o, w') => contents w' = contents w /\ (success o = true -> exists v rows, from_slice (stdout o) = Some v /\
        as_array v = Some rows /\ map node_of rows = contents w)
    | (Err _, w') => contents w' = contents w
    | (Panic, _) | (Hang, _) => False
    end;
  lab_delete w n : is_u64 n -> match output w runtime [str "exec"; CONTAINER; str "headscale"; str "nodes"; str "delete"; str "--identifier"; json.decimal 20 n; str "--force"] with
    | (Ok o, w') => contents w' = if success o then List.filter (fun x => negb (id x =? n)) (contents w) else contents w
    | (Err _, w') => contents w' = contents w
    | (Panic, _) | (Hang, _) => False
    end }.
Context `{L : !LabOk}.

Lemma nodes_spec w : let (r, w') := nodes (V := V) runtime w in contents w' = contents w /\
  match r with Ok l => l = contents w | Err _ => True | Panic | Hang => False end.
Proof.
  unfold nodes, exec. cbn [app]. pose proof (lab_list w) as Hl. destruct (output _ _ _) as [[o|e| |] w']; cbn [map_err rbind]; try done.
  destruct Hl as [Hc Hl]. destruct (success o); cbn [rbind]; [|done]. destruct (Hl eq_refl) as (v & l & Hv & Ha & Hm).
  unfold rows. rewrite Hv. cbn [ok_or rbind]. rewrite Ha. cbn [ok_or rbind]. by rewrite Hm.
Qed.

Lemma delete_spec w n : is_u64 n -> let (r, w') := delete_node runtime w n in
  match r with
  | Ok _ => contents w' = List.filter (fun x => negb (id x =? n)) (contents w)
  | Err _ => contents w' = contents w
  | Panic | Hang => False
  end.
Proof.
  intros Hn. unfold delete_node, exec. cbn [app]. pose proof (lab_delete w n Hn) as Hl. destruct (output _ _ _) as [[o|e| |] w']; cbn [map_err rbind]; try done.
  destruct (success o); cbn [rbind]; done.
Qed.

(** The loop deletes some of the nodes it is given, and counts those it could not. *)
Lemma delete_all_spec l : Forall (fun n => is_u64 (id n)) l -> forall w c, exists gone, let (c', w') := delete_all runtime w l c in
  gone ⊆ map id l /\ contents w' = List.filter (fun x => negb (bool_decide (id x ∈ gone))) (contents w) /\
  deleted c' = deleted c + len gone /\ len (errors c') = len (errors c) + (len l - len gone) /\
  len gone <= len l /\ (len gone = len l -> gone = map id l).
Proof.
  induction 1 as [|n l Hn _ IH]; intros w c; cbn [delete_all].
  - exists []. split_and!; try done; [|unfold len; cbn; lia..]. symmetry. apply forallb_filter_id, forallb_forall. intros x _. done.
  - pose proof (delete_spec w (id n) Hn) as Hd. destruct (delete_node runtime w (id n)) as [[u|e| |] w1]; try done.
    + destruct (IH w1 (mkCleanup (deleted c + 1) (left_behind c) (errors c))) as (gone & Hg). exists (id n :: gone).
      destruct (delete_all _ _ _ _) as [c' w']. destruct Hg as (Hs & Hc & Hdel & He & Hle & Hall). cbn [deleted errors] in *.
      split_and!; [cbn [map]; set_solver| | |rewrite !len_cons; lia|rewrite !len_cons; lia|].
      * rewrite Hc, Hd. clear. induction (contents w) as [|x k IHk]; cbn [List.filter]; [done|].
        destruct (id x =? id n) eqn:E; cbn [negb List.filter]; bool_hyps.
        -- rewrite (bool_decide_eq_true_2 (id x ∈ id n :: gone)) by (rewrite E; left). exact IHk.
        -- rewrite IHk. by rewrite (bool_decide_ext (id x ∈ id n :: gone) (id x ∈ gone)) by set_solver.
      * rewrite Hdel, len_cons. lia.
      * intros Hlen. rewrite !len_cons in Hlen. cbn [map]. by rewrite <- Hall by lia.
    + destruct (IH w1 (mkCleanup (deleted c) (left_behind c) (errors c ++ [CouldNotDelete e]))) as (gone & Hg). exists gone.
      destruct (delete_all _ _ _ _) as [c' w']. destruct Hg as (Hs & Hc & Hdel & He & Hle & Hall). cbn [deleted errors] in *.
      rewrite len_app in He. change (len [CouldNotDelete e]) with 1 in He.
      split_and!; [cbn [map]; set_solver|by rewrite Hc, Hd|done|rewrite len_cons; lia..].
Qed.

Definition others (i : Inner) (w : W) : list Node := List.filter (fun n => negb (owns i (name n))) (contents w).
Definition own (i : Inner) (w : W) : list Node := List.filter (fun n => owns i (name n)) (contents w).

(** Taking away, by identifier, nodes of the run leaves the others. *)
Lemma filter_gone i w gone : gone ⊆ map id (own i w) ->
  forall n, n ∈ contents w -> owns i (name n) = false -> id n ∉ gone.
Proof.
  pose proof (contents_unique w) as Hnd. intros Hs n Hn Ho Hg. apply Hs, list_elem_of_fmap in Hg as (m & Hid & Hm).
  unfold own in Hm. apply list_elem_of_In, filter_In in Hm as [Hm Hom]. apply list_elem_of_In in Hm.
  enough (n = m) by (subst; congruence). clear -Hnd Hn Hm Hid. revert Hnd Hn Hm. generalize (contents w). intros l.
  induction l as [|x l IH]; cbn [map]; [set_solver|]. rewrite NoDup_cons. intros [Hx Hnd] [->|Hn]%elem_of_cons [->|Hm]%elem_of_cons; auto.
  - destruct Hx. rewrite Hid. by apply list_elem_of_fmap_2.
  - destruct Hx. rewrite <- Hid. by apply list_elem_of_fmap_2.
Qed.

(** What one cleanup does to the lab. *)
Lemma cleanup_spec i w : enabled i = true -> reported i = false ->
  let '(i', w', c) := cleanup (V := V) runtime i w in
  i' = mkInner (run i) (hostname i) true true /\
  ((exists e, errors c = [CouldNotList e]) /\ deleted c = 0 /\ contents w' = contents w \/
   exists gone, gone ⊆ map id (own i w) /\ contents w' = List.filter (fun x => negb (bool_decide (id x ∈ gone))) (contents w) /\
     deleted c = len gone /\ deleted c + len (errors c) = len (own i w) /\ (len gone = len (own i w) -> gone = map id (own i w)) /\
     left_behind c = len (List.filter (fun n => starts_with PREFIX (name n) && negb (owns i (name n))) (contents w))).
Proof.
  intros He Hr. unfold cleanup. rewrite He, Hr. cbn [negb]. pose proof (nodes_spec w) as Hn.
  destruct (nodes runtime w) as [[l|e| |] w1]; try (by destruct Hn).
  - destruct Hn as [Hc ->]. assert (Forall (fun n => is_u64 (id n)) (own i w)) as Hu.
    { unfold own. rewrite Forall_forall. intros n Hn%list_elem_of_In. apply filter_In in Hn as [Hn%list_elem_of_In _].
      pose proof (contents_u64 w) as Hu. rewrite Forall_forall in Hu. by apply Hu. }
    destruct (delete_all_spec (own i w) Hu w1 cleanup_default) as (gone & Hg). unfold own in Hg at 1.
    change (fun n => owns (mkInner (run i) (hostname i) true true) (name n)) with (fun n => owns i (name n)).
    destruct (delete_all runtime w1 _ cleanup_default) as [c w2]. destruct Hg as (Hs & Hc2 & Hdel & Herr & _ & Hall). cbn [deleted errors left_behind] in *.
    split; [done|]. right. exists gone. cbn in Hdel, Herr. change (len (@nil CleanupError)) with 0 in Herr. split_and!; [done|by rewrite Hc2, Hc|lia|lia|done|done].
  - destruct Hn as [Hc _]. split; [done|]. left. split_and!; [by exists e|done|done].
Qed.

(** Cleaning up removes what the run left behind and nothing else, whatever fails.
    Every node the run does not own stays; nothing appears; what was deleted and what
    could not be adds up to what it owned, and without an error nothing of the run is
    left.  A second call does nothing. *)
Theorem cleanup_exact i w : enabled i = true -> reported i = false ->
  let '(i', w', c) := cleanup (V := V) runtime i w in
  others i w' = others i w /\ contents w' ⊆ contents w /\
  (errors c = [] -> contents w' = others i w /\ deleted c = len (own i w)) /\
  ((exists e, errors c = [CouldNotList e]) \/ deleted c + len (errors c) = len (own i w)) /\
  cleanup (V := V) runtime i' w' = (i', w', cleanup_default).
Proof.
  intros He Hr. pose proof (cleanup_spec i w He Hr) as Hs. destruct (cleanup runtime i w) as [[i' w'] c].
  destruct Hs as (-> & [([e Herr] & Hd & Hc)|(gone & Hg & Hc & Hd & Hsum & Hall & _)]).
  - unfold others. rewrite Hc, Herr. split_and!; try done; by left; exists e.
  - pose proof (filter_gone i w gone Hg) as Hkeep. split_and!.
    + unfold others. rewrite Hc. clear Hc Hall Hg Hsum Hd. induction (contents w) as [|x l IH]; cbn [List.filter]; [done|].
      destruct (owns i (name x)) eqn:Ho; cbn [negb].
      * case_bool_decide; cbn [negb List.filter]; rewrite ?Ho; cbn [negb]; apply IH; intros n Hn; apply Hkeep; by right.
      * rewrite bool_decide_eq_false_2 by (apply Hkeep; [left|done]). cbn [negb List.filter]. rewrite Ho. cbn [negb]. f_equal.
        apply IH. intros n Hn. apply Hkeep. by right.
    + rewrite Hc. intros n. rewrite !list_elem_of_In, filter_In. by intros [? _].
    + intros Herr. rewrite Herr in Hsum. change (len (@nil CleanupError)) with 0 in Hsum. split; [|lia].
      rewrite Hc. assert (gone = map id (own i w)) as Hgone by (apply Hall; lia). unfold others. clear Hc Hall Hsum Hd.
      apply filter_ext_in. intros n Hn%list_elem_of_In. f_equal. destruct (owns i (name n)) eqn:Ho.
      * apply bool_decide_eq_true. rewrite Hgone. apply list_elem_of_fmap_2. unfold own. by apply list_elem_of_In, filter_In; split; [apply list_elem_of_In|].
      * apply bool_decide_eq_false. by apply Hkeep.
    + by right.
    + unfold cleanup. done.
Qed.

(** ** Runs side by side *)

(** The scope of a run with this hash, whatever its flags. *)
Definition of_run (hash : Z) (i : Inner) : Prop := exists e, run i = run (inner_new (run_id hash) e) /\ hostname i = hostname (inner_new (run_id hash) e).

Lemma owns_of_run hash i e n : of_run hash i -> owns i n = owns (inner_new (run_id hash) e) n.
Proof. intros (e' & _ & Hh). unfold owns. by rewrite Hh. Qed.

Lemma cleanup_keeps h1 h2 e i w n : of_run h1 i -> wrap 32 h1 <> wrap 32 h2 -> owns (inner_new (run_id h2) e) (name n) = true ->
  n ∈ contents w -> let '(i', w', _) := cleanup (V := V) runtime i w in of_run h1 i' /\ n ∈ contents w'.
Proof.
  intros Hi Hne Ho Hn. assert (owns i (name n) = false) as Hi'.
  { rewrite (owns_of_run h1 i e) by done. apply not_true_is_false. intros Ho1. apply Hne, run_id_inj. by eapply owns_disjoint. }
  destruct (enabled i) eqn:He; [|unfold cleanup; by rewrite He]. destruct (reported i) eqn:Hr; [unfold cleanup; by rewrite He, Hr|].
  pose proof (cleanup_spec i w He Hr) as Hs. destruct (cleanup runtime i w) as [[i' w'] c]. destruct Hs as (-> & Hs). split; [exact Hi|].
  destruct Hs as [(_ & _ & ->)|(gone & Hg & -> & _)]; [done|]. apply list_elem_of_In, filter_In. split; [by apply list_elem_of_In|].
  rewrite bool_decide_eq_false_2; [done|]. by apply (filter_gone i w gone Hg n).
Qed.

Definition own_hashes (ok : Z -> Prop) (p : Process) : Prop := Forall (fun '(x, _) => exists h, ok h /\ of_run h x) (inners p).

(** C23: Concurrent runs do not disturb each other.  Whatever the threads of a process
    do with their handles, new runs, clones, drops and cleanups in any order and
    interleaved with anything outside, a node another run registered is still there
    afterwards, as long as the ids differ. *)
Theorem concurrent_runs_safe h2 e n l w : owns (inner_new (run_id h2) e) (name n) = true ->
  Forall (fun o => match o with
    | New h _ => wrap 32 h <> wrap 32 h2
    | Outside f => forall w, n ∈ contents w -> n ∈ contents (f w)
    | Clone _ | Drop_ _ | Clean _ => True
    end) l ->
  n ∈ contents w -> n ∈ contents (runs (V := V) runtime (process_new, w) l).2.
Proof.
  intros Ho Hl. assert (own_hashes (fun h => wrap 32 h <> wrap 32 h2) process_new) as Hp by constructor. revert Hp w.
  generalize process_new. induction Hl as [|o l Hop _ IH]; intros p Hp w Hn; [done|]. cbn [runs fold_left step].
  assert (forall g k, (forall x m, (let '(x', _) := g (x, m) in forall h, of_run h x -> of_run h x')) ->
    own_hashes (fun h => wrap 32 h <> wrap 32 h2) p -> own_hashes (fun h => wrap 32 h <> wrap 32 h2) (mkProcess (alter g k (inners p)) (slot p))) as Halter.
  { clear. intros g k Hg Hp. unfold own_hashes in *. cbn [inners]. apply Forall_alter; [done|]. intros [x m] _ (h & Hh & Hx).
    specialize (Hg x m). destruct (g (x, m)) as [x' m']. exists h. auto. }
  destruct o as [h b|k|k|k|f].
  - apply IH; [|done]. unfold scope_new. destruct (upgrade p) as [k|]; cbn [fst].
    + unfold retain. destruct b; cbn [inners slot].
      * unfold own_hashes in *. cbn [inners]. apply Forall_alter; [|by intros [x m] _ Hx]. by apply (Halter (fun '(x, n) => (enable x, n))).
      * by apply (Halter (fun '(x, n) => (x, S n))).
    + unfold own_hashes in *. cbn [inners]. apply Forall_app. split; [done|]. constructor; [|done]. exists h. split; [done|]. by exists b.
  - apply IH; [|done]. by apply (Halter (fun '(x, n) => (x, S n))).
  - unfold scope_drop. destruct (inners p !! k) as [[x [|[|m]]]|] eqn:Ek; [by apply IH| | |by apply IH].
    + unfold own_hashes in Hp. destruct (Forall_lookup_1 _ _ _ _ Hp Ek) as (h & Hh & Hx).
      pose proof (cleanup_keeps h h2 e x w n Hx Hh Ho Hn) as Hk. destruct (cleanup runtime x w) as [[x' w'] c]. destruct Hk as [Hx' Hn'].
      apply IH; [|done]. unfold own_hashes. cbn [inners]. apply Forall_insert; [done|]. by exists h.
    + apply IH; [|done]. unfold own_hashes in *. cbn [inners]. apply Forall_insert; [done|].
      by destruct (Forall_lookup_1 _ _ _ _ Hp Ek) as (h & Hh & Hx); exists h.
  - unfold scope_cleanup. destruct (inners p !! k) as [[x m]|] eqn:Ek; [|by apply IH].
    unfold own_hashes in Hp. destruct (Forall_lookup_1 _ _ _ _ Hp Ek) as (h & Hh & Hx).
    pose proof (cleanup_keeps h h2 e x w n Hx Hh Ho Hn) as Hk. destruct (cleanup runtime x w) as [[x' w'] c]. destruct Hk as [Hx' Hn'].
    apply IH; [|done]. unfold own_hashes. cbn [inners]. apply Forall_insert; [done|]. by exists h.
  - apply IH; [done|]. by apply Hop.
Qed.

End Facts.

(** ** The life of a run *)

Section Life.
Context {W V : Type} `{Commands W} `{JsonLib V} `{JsonRows V} (runtime : bytes).

(** What is done with the handles of one run, once it has begun. *)
Inductive Act := Another (hash : Z) (enabled : bool) | Cloned | Dropped | Meanwhile (f : W -> W).

Definition on (k : nat) (a : Act) : Op (W := W) :=
  match a with Another h b => New h b | Cloned => Clone k | Dropped => Drop_ k | Meanwhile f => Outside f end.

Definition asks (a : Act) : bool := match a with Another _ b => b | _ => false end.
Definition meanwhile (l : list Act) (w : W) : W := fold_left (fun w a => match a with Meanwhile f => f w | _ => w end) l w.

(** [n] handles to begin with, at least one until the end, and none then. *)
Fixpoint used_up (n : nat) (l : list Act) : bool :=
  match l with
  | [] => (n =? 0)%nat
  | a :: l =>
      negb (n =? 0)%nat &&
      used_up (match a with Another _ _ | Cloned => S n | Dropped => (n - 1)%nat | Meanwhile _ => n end) l
  end.

Definition with_enabled (b : bool) (x : Inner) : Inner := mkInner (run x) (hostname x) (enabled x || b) (reported x).

Lemma upgrade_live p k x n : slot p = Some k -> inners p !! k = Some (x, S n) -> upgrade p = Some k.
Proof. intros Hs Hk. unfold upgrade. rewrite Hs. cbn. by rewrite Hk. Qed.

Lemma alter_end {A} (f : A -> A) (l : list A) x : alter f (length l) (l ++ [x]) = l ++ [f x].
Proof. induction l as [|y l IH]; [done|]. cbn. f_equal. exact IH. Qed.

Lemma insert_end {A} (l : list A) x y : <[length l := y]> (l ++ [x]) = l ++ [y].
Proof. induction l as [|z l IH]; [done|]. cbn. f_equal. exact IH. Qed.

(** From a run with [n] handles on, whatever older runs there were. *)
Lemma life old x n l w : used_up (S n) l = true ->
  runs (V := V) runtime (mkProcess (old ++ [(x, S n)]) (Some (length old)), w) (map (on (length old)) l) =
  let '(x', w', _) := cleanup (V := V) runtime (with_enabled (existsb asks l) x) (meanwhile l w) in
  (mkProcess (old ++ [(x', O)]) (Some (length old)), w').
Proof.
  assert (forall (x : Inner) n, (old ++ [(x, n)]) !! length old = Some (x, n)) as Hlast by (intros; by rewrite list_lookup_middle).
  revert x n w. induction l as [|a l IH]; intros x n w Hu; [done|]. cbn [used_up] in Hu. apply andb_true_iff in Hu as [_ Hu].
  cbn [map]. unfold runs. cbn [fold_left]. destruct a as [h b| | |f]; cbn [on step].
  - unfold scope_new. rewrite (upgrade_live _ (length old) x n) by (done || apply Hlast). cbn [fst]. unfold retain.
    destruct b; cbn [inners slot]; rewrite !alter_end; (etransitivity; [exact (IH _ _ w Hu)|]); cbn [existsb asks meanwhile fold_left];
      unfold with_enabled, enable; cbn [run hostname enabled reported orb]; [by rewrite orb_true_r|done].
  - unfold retain. cbn [inners slot]. rewrite alter_end. exact (IH _ _ w Hu).
  - unfold scope_drop. cbn [inners slot]. rewrite Hlast. destruct n as [|n].
    + destruct l as [|a l]; [|done]. cbn [map fold_left existsb asks orb meanwhile]. unfold with_enabled. rewrite orb_false_r.
      destruct x as [r hn en rep]. cbn [run hostname enabled reported]. destruct (cleanup runtime _ w) as [[x' w'] c]. by rewrite insert_end.
    + rewrite insert_end. replace (S (S n) - 1)%nat with (S n) in Hu by lia. exact (IH _ _ w Hu).
  - exact (IH _ _ (f w) Hu).
Qed.

(** A run is shared and cleans up after itself once, at its end.  However the
    handles of a run are made, cloned and dropped, and whatever happens to the lab
    meanwhile, every handle made while one is alive belongs to the same run with the
    same id; nothing is deleted before the last one drops; and then the nodes of this
    run are cleaned up, if any handle asked for it.  The next handle starts a new run. *)
Theorem last_handle_cleans p hash b l w : upgrade p = None -> used_up 1 l = true ->
  let k := length (inners p) in
  let x := mkInner (run_id hash) (PREFIX ++ str "-" ++ run_id hash) (b || existsb asks l) false in
  let '(x', w', _) := cleanup (V := V) runtime x (meanwhile l w) in
  let p' := mkProcess (inners p ++ [(x', O)]) (Some k) in
  runs (V := V) runtime (p, w) (New hash b :: map (on k) l) = (p', w') /\ upgrade p' = None.
Proof.
  intros Hnone Hl. cbn zeta. unfold runs. cbn [fold_left step]. unfold scope_new. rewrite Hnone. cbn [fst].
  pose proof (life (inners p) (inner_new (run_id hash) b) O l w Hl) as Hlife. unfold runs in Hlife. rewrite Hlife.
  unfold with_enabled, inner_new. cbn [run hostname enabled reported].
  destruct (cleanup runtime _ (meanwhile l w)) as [[x' w'] c]. split; [done|]. unfold upgrade. cbn [slot inners mbind option_bind].
  by rewrite list_lookup_middle.
Qed.

End Life.

(** ** A lab *)

Module LabDemo.
Import ConformanceDemo.

#[export] Instance doc_rows : JsonRows Doc := {|
  as_array v := match v with GenNode _ l => Some l | GenLeaf _ => None end;
  as_u64 v := match v with GenLeaf [n] => Some n | _ => None end;
  from_slice := from_str |}.

(** Nodes with different identifiers. *)
Definition sound (l : list Node) : Prop := NoDup (map id l) /\ Forall (fun n => is_u64 (id n)) l.
Definition Lab : Type := { l : list Node | sound l }.

Definition without (text : bytes) (l : list Node) : list Node := List.filter (fun n => negb (bytes_eqb (json.decimal 20 (id n)) text)) l.

Lemma sound_without text l : sound l -> sound (without text l).
Proof.
  intros [Hn Hf]. split.
  - clear Hf. induction l as [|x l IH]; cbn [without List.filter map]; [constructor|]. inversion_clear Hn as [|?? Hx Hl].
    destruct (negb _); cbn [map]; [|by apply IH]. constructor; [|by apply IH]. intros Hin. apply Hx.
    apply list_elem_of_fmap in Hin as (y & -> & Hy). apply list_elem_of_In, filter_In in Hy as [Hy _].
    apply list_elem_of_fmap_2. by apply list_elem_of_In.
  - rewrite Forall_forall in *. intros x Hx. apply list_elem_of_In, filter_In in Hx as [Hx%list_elem_of_In _]. by apply Hf.
Qed.

Definition row (n : Node) : Doc := GenNode 0 [
  GenLeaf (str "id"); GenLeaf [id n]; GenLeaf (str "ip_addresses"); GenNode 1 (map GenLeaf (addresses n));
  GenLeaf (str "machine_key"); GenLeaf (machine_key n); GenLeaf (str "name"); GenLeaf (name n);
  GenLeaf (str "node_key"); GenLeaf (node_key n)].

Lemma node_of_row n : node_of (row n) = n.
Proof.
  destruct n as [i nm nk mk ad]. unfold node_of, row. cbn [id name node_key machine_key addresses].
  assert (omap (as_str (V := Doc)) (map GenLeaf ad) = ad) as Had by (induction ad as [|a ad IH]; [done|]; cbn; f_equal; exact IH).
  transitivity (mkNode i nm nk mk (omap (as_str (V := Doc)) (map GenLeaf ad))); [vm_compute; reflexivity|by rewrite Had].
Qed.

#[export] Instance lab_commands : Commands Lab := {|
  output w _ arguments :=
    match arguments with
    | [_; _; _; _; verb; _; text; _] =>
        if bytes_eqb verb (str "delete")
        then (Ok (mkOutput (Some 0) [] []), exist _ (without text (proj1_sig w)) (sound_without text _ (proj2_sig w)))
        else (Ok (mkOutput (Some 1) [] []), w)
    | [_; _; _; _; verb; _; _] =>
        (Ok (mkOutput (Some (if bytes_eqb verb (str "list") then 0 else 1)) (to_text (GenNode 1 (map row (proj1_sig w)) : Doc)) []), w)
    | _ => (Ok (mkOutput (Some 1) [] []), w)
    end |}.

#[export] Instance lab_ok : LabOk (W := Lab) (V := Doc) (str "podman").
Proof.
  refine {| contents := proj1_sig |}.
  - intros w. exact (proj1 (proj2_sig w)).
  - intros w. exact (proj2 (proj2_sig w)).
  - intros [l Hl]. cbn [output lab_commands proj1_sig]. split; [done|]. intros _. exists (GenNode 1 (map row l)), (map row l).
    split_and!; [apply from_to_text|done|]. rewrite map_map. rewrite <- (map_id l) at 2. apply map_ext, node_of_row.
  - intros [l [Hn Hl]] n Hu. cbn [output lab_commands proj1_sig]. change (bytes_eqb (str "delete") (str "delete")) with true.
    cbn [proj1_sig]. unfold success. cbn [code]. change (0 =? 0) with true. cbn iota. apply filter_ext_in. intros x Hx%list_elem_of_In. f_equal. rewrite Forall_forall in Hl. specialize (Hl x Hx). cbn in Hl.
    destruct (id x =? n) eqn:E; bool_hyps; [by rewrite E, bytes_eqb_refl|]. apply bool_decide_eq_false. intros Hd. apply E.
    apply (f_equal (scanner.digits_value 0)) in Hd. unfold is_uint in *. rewrite !(decimal_value 19) in Hd by lia. congruence.
Defined.

Definition node (i : Z) (n : bytes) : Node := mkNode i n [] [] [].
Definition ours : bytes := PREFIX ++ str "-" ++ run_id 7.
Definition theirs : bytes := PREFIX ++ str "-" ++ run_id 8.

Definition nodes3 : list Node := [node 1 ours; node 2 theirs; node 3 (ours ++ str "-x")].
Lemma nodes3_sound : sound nodes3.
Proof. split; [apply (bool_decide_unpack _); vm_compute; exact I|]. repeat (constructor; [unfold is_uint; cbn; lia|]). constructor. Qed.
Definition lab3 : Lab := exist _ nodes3 nodes3_sound.

Definition ours_inner : Inner := mkInner (run_id 7) ours true false.

Lemma cleanup_exact_witness :
  let '(i', w', c) := cleanup (V := Doc) (str "podman") ours_inner lab3 in
  others (str "podman") ours_inner w' = others (str "podman") ours_inner lab3 /\ contents (str "podman") w' ⊆ contents (str "podman") lab3 /\
  (errors c = [] -> contents (str "podman") w' = others (str "podman") ours_inner lab3 /\ deleted c = len (own (str "podman") ours_inner lab3)) /\
  ((exists e, errors c = [CouldNotList e]) \/ deleted c + len (errors c) = len (own (str "podman") ours_inner lab3)) /\
  cleanup (V := Doc) (str "podman") i' w' = (i', w', cleanup_default).
Proof. apply cleanup_exact; reflexivity. Defined.

(** Two handles of run 7; its last drop deletes its nodes and not the one of run 8. *)
Lemma concurrent_runs_safe_witness :
  node 2 theirs ∈ contents (str "podman") (runs (V := Doc) (str "podman") (process_new, lab3)
    [New 7 false; New 9 true; Clean 1; Drop_ 0; Drop_ 0]).2.
Proof.
  apply (concurrent_runs_safe (str "podman") 8 false); [vm_compute; reflexivity| |].
  - repeat constructor; vm_compute; discriminate.
  - right. left.
Defined.

Example two_handles : map name (proj1_sig (runs (V := Doc) (str "podman") (process_new, lab3) [New 7 false; New 9 true; Drop_ 0; Drop_ 0]).2) = [theirs].
Proof. vm_compute. reflexivity. Qed.

Lemma last_handle_cleans_witness :
  let '(x', w', _) := cleanup (V := Doc) (str "podman") (mkInner (run_id 7) (PREFIX ++ str "-" ++ run_id 7) (false || true) false) lab3 in
  let p' := mkProcess [(x', O)] (Some O) in
  runs (V := Doc) (str "podman") (process_new, lab3) [New 7 false; New 9 true; Drop_ 0; Drop_ 0] = (p', w') /\ upgrade p' = None.
Proof. exact (last_handle_cleans (V := Doc) (str "podman") process_new 7 false [Another 9 true; Dropped; Dropped] lab3 eq_refl eq_refl). Defined.

End LabDemo.
