(* ===== verification/Multipeer.v ===== *)
(** * The conformance suite: many peers at once

    [crates/ts-conformance/src/multipeer.rs]: a device with eight peers that all
    connect in one millisecond, each then carrying traffic, and one of them rekeying,
    on the device of [Device.v]. *)

From Stdlib Require Import Strings.String.
From S2P Require Import Prelude Timers Messages Crypto Noise Transport Device NetAddr.

Module multipeer.

Definition PEERS : nat := 8.
Definition MAX : Z := MAX_DATAGRAM_LEN.

(** ** A generator *)

(** A byte of [TestRng], and its state. *)
Definition rng_byte (state : Z) : Z * Z :=
  let state := wrap 64 (state + 0x9e3779b97f4a7c15) in
  let z := wrap 64 (Z.lxor state (Z.shiftr state 30) * 0xbf58476d1ce4e5b9) in
  let z := wrap 64 (Z.lxor z (Z.shiftr z 27) * 0x94d049bb133111eb) in
  (wrap 8 (Z.lxor z (Z.shiftr z 31)), state).

(** The first bytes it fills. *)
Fixpoint test_rng (n : nat) (state : Z) : bytes :=
  match n with
  | O => []
  | S n => let (b, state) := rng_byte state in b :: test_rng n state
  end.

(** A call draws an index of four bytes, again if it is taken, and a key of 32. *)
Definition TAPE : nat := 256.

(** ** Inputs *)

Definition ipv4_packet (payload_len : Z) : res Empty_set bytes :=
  let total := 20 + payload_len in
  let packet := zeros total in
  let! packet := or_panic (set_at 0 0x45 packet) in
  let! packet := slice_copy (2, 4) (to_be 2 (wrap 16 total)) packet in
  let! packet := or_panic (set_at 9 17 packet) in
  let! packet := slice_copy (12, 16) [10; 99; 0; 1] packet in
  let! packet := slice_copy (16, 20) [10; 99; 0; 2] packet in
  Ok (ztake 20 packet ++ imap (fun i _ => wrap 8 (Z.of_nat i)) (zdrop 20 packet)).

Definition timestamp (nth : Z) : bytes := to_be 8 (2 ^ 62 + 1700000000) ++ to_be 4 (wrap 32 nth).

Definition i_payload : Z := 40.

(** ** The exercise *)

(** What its messages say went wrong. *)
Inductive Trouble :=
| HubFull (e : Error) | SpokeFull (e : Error) | NotInitiating (e : Error) | UnknownHub | NotStarted (e : Error)
| WrongRoute (peer : PeerId) | Unanswered | Rejected (e : Error) | NoKeepalive | ResponseRejected (e : Error)
| KeepaliveAnswered | KeepaliveRejected (e : Error)
| NotConnected (i : nat) | NothingSent | NotSealed (e : Error) | Misattributed (i : nat) (peer : PeerId) | Garbled (i : nat)
| Unexpected (i : nat) | NotOpened (e : Error) | Dropped (i : nat).

Section Exercise.
Context `{Pr : Primitives}.

(** Both devices, as they are passed on. *)
Definition handshake (hub spoke : Device) (expected : PeerId) (nth : nat) (now : Z) : res Trouble (Device * Device) :=
  let n := Z.of_nat nth in
  let! hub_side := ok_or (peer_by_public_key spoke (static_public hub)) UnknownHub in
  let '(spoke, _, r) := start_handshake spoke hub_side now (timestamp n) (test_rng TAPE n) (zeros MAX) in
  let! initiation := map_err NotStarted r in
  let '(hub, _, r) := handle_udp hub initiation now (test_rng TAPE (100 + n)) (zeros MAX) in
  let! answer := map_err Rejected r in
  match answer with
  | Send peer response =>
      if negb (peer =? expected)%nat then Err (WrongRoute peer) else
      let '(spoke, _, r) := handle_udp spoke response now (test_rng TAPE 200) (zeros MAX) in
      let! answer := map_err ResponseRejected r in
      match answer with
      | Send _ keepalive =>
          let '(hub, _, r) := handle_udp hub keepalive now (test_rng TAPE 201) (zeros MAX) in
          let! answer := map_err KeepaliveRejected r in
          match answer with ActNone => Ok (hub, spoke) | _ => Err KeepaliveAnswered end
      | _ => Err NoKeepalive
      end
  | _ => Err Unanswered
  end.

(** The hub learns of the spokes and they of it. *)
Fixpoint introduce (hub : Device) (spokes : list Device) : res Trouble (Device * list PeerId * list Device) :=
  match spokes with
  | [] => Ok (hub, [], [])
  | spoke :: spokes =>
      let (hub, r) := add_peer PEERS hub (static_public spoke) None in
      let! peer := map_err HubFull r in
      let (spoke, r) := add_peer 1 spoke (static_public hub) None in
      let! p := map_err SpokeFull r in
      let (spoke, r) := set_initiating spoke p true in
      let! _ := map_err NotInitiating r in
      let! '(hub, ids, spokes) := introduce hub spokes in
      Ok (hub, peer :: ids, spoke :: spokes)
  end.

(** Every spoke connects. *)
Fixpoint connect_all (hub : Device) (l : list (PeerId * Device)) (i : nat) (now : Z) : res Trouble (Device * list Device) :=
  match l with
  | [] => Ok (hub, [])
  | (peer, spoke) :: l =>
      let! '(hub, spoke) := handshake hub spoke peer i now in
      let! '(hub, spokes) := connect_all hub l (S i) now in
      Ok (hub, spoke :: spokes)
  end.

(** Every session is usable; [e] says which one is not. *)
Fixpoint all_connected (hub : Device) (ids : list PeerId) (i : nat) (now : Z) (e : nat -> Trouble) : res Trouble unit :=
  match ids with
  | [] => Ok tt
  | peer :: ids => if is_connected hub peer now then all_connected hub ids (S i) now e else Err (e i)
  end.

(** Each spoke's packet arrives as its own. *)
Fixpoint traffic (hub : Device) (l : list (PeerId * Device)) (i : nat) (packet : bytes) (now : Z) : res Trouble (Device * list Device) :=
  match l with
  | [] => Ok (hub, [])
  | (id, spoke) :: l =>
      let! hub_side := ok_or (peer_by_public_key spoke (static_public hub)) UnknownHub in
      let (spoke, r) := encapsulate spoke hub_side packet now (zeros MAX) in
      let! sent := map_err NotSealed r in
      match sent with
      | Send _ datagram =>
          let '(hub, _, r) := handle_udp hub datagram now (test_rng TAPE 1) (zeros MAX) in
          let! got := map_err NotOpened r in
          match got with
          | Receive peer plain =>
              if negb (peer =? id)%nat then Err (Misattributed i peer) else
              if negb (bytes_eqb plain packet) then Err (Garbled i) else
              let! '(hub, spokes) := traffic hub l (S i) packet now in
              Ok (hub, spoke :: spokes)
          | _ => Err (Unexpected i)
          end
      | _ => Err NothingSent
      end
  end.

Definition exercise : res Trouble unit :=
  let now := 1000 in
  let hub := device_new (replicate 32 0x42) in
  let spokes := map (fun i => device_new (replicate 32 (0x20 + Z.of_nat i))) (seq 0 PEERS) in
  let! '(hub, hub_peers, spokes) := introduce hub spokes in
  let! '(hub, spokes) := connect_all hub (zip hub_peers spokes) 0 now in
  let! _ := all_connected hub hub_peers 0 now NotConnected in
  let! packet := match ipv4_packet i_payload with Ok b => Ok b | Err e => match e with end | Panic => Panic | Hang => Hang end in
  let! '(hub, spokes) := traffic hub (zip hub_peers spokes) 0 packet now in
  let later := now + REKEY_AFTER_TIME_MS in
  let! spoke := or_panic (head spokes) in
  let! peer := or_panic (head hub_peers) in
  let! '(hub, _) := handshake hub spoke peer PEERS later in
  all_connected hub hub_peers 0 later Dropped.

End Exercise.
End multipeer.

(** On the byte-wise primitives of [Crypto.v] the exercise succeeds: eight sessions
    at once, each with its own traffic, and one rekeyed beside the others. *)
Example eight_peers : multipeer.exercise (Pr := Toy.prims) = Ok tt.
Proof. vm_compute. reflexivity. Qed.
