(* ===== verification/Checks.v ===== *)
(** * The conformance suite: the checks

    The checks of [crates/ts-conformance/src] with what they run: the harness as a
    subprocess ([harness.rs]), a request over HTTP ([http.rs]), the environment they
    are run in ([lib.rs], [doctor.rs], [main.rs]) and the sessions they share
    ([ts2021.rs], [register.rs], [netmap.rs], [derp.rs], [disco.rs], [exit.rs],
    [tls.rs]), put together in the table of [checks.rs].

    A check is a task over the process: the world outside, the scope of the run and
    the sessions that have been started.  Its effects are the commands it ran.  A
    detail text is what it is about. *)

From Stdlib Require Import Strings.String.
From stdpp Require Import countable.
From S2P Require Import Prelude Crypto Utf8 Text Keys NetAddr Control Netmap NetmapParser NetmapRecords NetmapStream Json BTree Conformance Effects RunScope Multipeer.

(** More of [serde_json]'s documents: their text without white space. *)
Class JsonValues (V : Type) := { as_bool : V -> option bool; to_string : V -> bytes }.

(** What is received from a child that is running: a line of its output of those
    that are waited for, nothing for a while, or the end of it. *)
Inductive Recv := Line (l : bytes) | Quiet | Closed_.

(** The machine the suite runs on, besides its commands. *)
Class Machine (W : Type) := {
  read_file : W -> bytes -> option bytes;
  write_file : W -> bytes -> bytes -> bool * W;
  exists_ : W -> bytes -> bool;
  is_file : W -> bytes -> bool;
  remove_dir_all : W -> bytes -> W;
  var : W -> bytes -> option bytes;
  fetch : W -> bytes -> bytes -> option bytes * W;
  millis : W -> Z * W;
  rest : W -> Z -> W;
  spawn : W -> bytes -> list bytes -> bool * W;
  recv_timeout : W -> (bytes -> bool) -> Z -> Recv * W;
  reap : W -> option Output * W }.

(** [fs::read_to_string] *)
Definition read_to_string {W} `{Machine W} (w : W) (path : bytes) : option bytes :=
  let? b := read_file w path in if utf8_valid b then Some b else None.

(** ** Text *)

Module text.

Definition REPLACEMENT : bytes := [0xef; 0xbf; 0xbd].

(** [String::from_utf8_lossy]: the longest part of a character that cannot be
    finished is replaced. *)
Fixpoint lossy (l : bytes) : bytes :=
  match l with
  | [] => []
  | a :: l1 =>
      if between 0 0x7f a then a :: lossy l1 else
      match l1 with
      | [] => REPLACEMENT
      | b :: l2 =>
          if between 0xc2 0xdf a then
            if continuation b then a :: b :: lossy l2 else REPLACEMENT ++ lossy l1
          else if between 0xe0 0xef a then
            if between (if a =? 0xe0 then 0xa0 else 0x80) (if a =? 0xed then 0x9f else 0xbf) b then
              match l2 with
              | [] => REPLACEMENT
              | c :: l3 => if continuation c then a :: b :: c :: lossy l3 else REPLACEMENT ++ lossy l2
              end
            else REPLACEMENT ++ lossy l1
          else if between 0xf0 0xf4 a then
            if between (if a =? 0xf0 then 0x90 else 0x80) (if a =? 0xf4 then 0x8f else 0xbf) b then
              match l2 with
              | [] => REPLACEMENT
              | c :: l3 =>
                  if continuation c then
                    match l3 with
                    | [] => REPLACEMENT
                    | d :: l4 => if continuation d then a :: b :: c :: d :: lossy l4 else REPLACEMENT ++ lossy l3
                    end
                  else REPLACEMENT ++ lossy l2
              end
            else REPLACEMENT ++ lossy l1
          else REPLACEMENT ++ lossy l1
      end
  end.

Definition strip_cr (l : bytes) : bytes :=
  match last l with Some 13 => removelast l | _ => l end.

(** [s.lines()]: [cur] is the line so far. *)
Fixpoint lines_from (cur s : bytes) : list bytes :=
  match s with
  | [] => match cur with [] => [] | _ => [cur] end
  | b :: s => if b =? 10 then strip_cr cur :: lines_from [] s else lines_from (cur ++ [b]) s
  end.
Definition lines (s : bytes) : list bytes := lines_from [] s.

Definition contains (s needle : bytes) : bool := match position needle s with Some _ => true | None => false end.

(** [s.split_once(needle)] *)
Definition split_once (needle s : bytes) : option (bytes * bytes) :=
  let? i := position needle s in Some (ztake i s, zdrop (i + len needle) s).

Definition ends_with (suffix s : bytes) : bool := starts_with (rev suffix) (rev s).

(** [b.is_ascii_hexdigit()] *)
Definition is_hex (b : Z) : bool := between 48 57 b || between 65 70 b || between 97 102 b.

(** [s.rsplit_once(c)] *)
Fixpoint rsplit_once (c : Z) (s : bytes) : option (bytes * bytes) :=
  match s with
  | [] => None
  | b :: s =>
      match rsplit_once c s with
      | Some (x, y) => Some (b :: x, y)
      | None => if b =? c then Some ([], s) else None
      end
  end.

(** How many bytes of white space the text starts with: a character of it. *)
Definition white (s : bytes) : nat :=
  match s with
  | a :: b :: c :: _ =>
      if between 9 13 a || (a =? 32) then 1 else
      if (a =? 0xc2) && ((b =? 0x85) || (b =? 0xa0)) then 2 else
      if (a =? 0xe1) && (b =? 0x9a) && (c =? 0x80) then 3 else
      if (a =? 0xe2) && (b =? 0x80) && (between 0x80 0x8a c || (c =? 0xa8) || (c =? 0xa9) || (c =? 0xaf)) then 3 else
      if (a =? 0xe2) && (b =? 0x81) && (c =? 0x9f) then 3 else
      if (a =? 0xe3) && (b =? 0x80) && (c =? 0x80) then 3 else O
  | a :: b :: _ => if between 9 13 a || (a =? 32) then 1 else if (a =? 0xc2) && ((b =? 0x85) || (b =? 0xa0)) then 2 else O
  | a :: _ => if between 9 13 a || (a =? 32) then 1 else O
  | [] => O
  end.

(** [s.split_whitespace()]: [skip] bytes of the character read belong to it still. *)
Fixpoint words_from (skip : nat) (cur s : bytes) : list bytes :=
  match s with
  | [] => match cur with [] => [] | _ => [cur] end
  | b :: s' =>
      match skip with
      | S skip => words_from skip cur s'
      | O =>
          match white s with
          | O => words_from O (cur ++ [b]) s'
          | S k => match cur with [] => words_from k [] s' | _ => cur :: words_from k [] s' end
          end
      end
  end.
Definition words (s : bytes) : list bytes := words_from O [] s.

(** [&s[..n]] and [&s[a..b]] of a string: on a boundary of its characters. *)
Definition boundary (n : Z) (s : bytes) : bool :=
  (n =? len s) || match get_at n s with Some b => negb (continuation b) | None => false end.
Definition str_slice (a b : Z) (s : bytes) : res Empty_set bytes :=
  if (a <=? b) && boundary a s && boundary b s then or_panic (get_range a b s) else Panic.

(** [path.join(name)] of a name that is not absolute. *)
Definition join_path (path name : bytes) : bytes :=
  match last path with None => name | Some 47 => path ++ name | Some _ => path ++ [47] ++ name end.

(** [path.parent()] *)
Definition parent (path : bytes) : option bytes :=
  match rsplit_once 47 path with
  | Some ([], _) => Some [47]
  | Some (x, _) => Some x
  | None => match path with [] => None | _ => Some [] end
  end.

End text.

(** ** Running the harness *)

Module harness_run.
Import text.

Definition EVT : bytes := str "#EVT ".

Record Run (V : Type) := mkRun { events : list V; out : bytes; err : bytes; exit : option Z; note : bytes }.
Arguments mkRun {V}. Arguments events {V}. Arguments out {V}. Arguments err {V}. Arguments exit {V}. Arguments note {V}.

Section Run.
Context {V : Type} `{JsonLib V}.

(** [Run::from_parts] *)
Definition from_parts (stdout_ stderr_ : bytes) (code_ : option Z) : Run V :=
  mkRun (omap from_str (omap (encoding.strip_prefix EVT) (lines stdout_))) stdout_ stderr_ code_ [].

(** [Run::from_output] *)
Definition from_output (o : Output) : Run V := from_parts (lossy (stdout o)) (lossy (stderr o)) (code o).

(** [Run::event] *)
Definition event (name : bytes) (r : Run V) : option V :=
  find_by (fun e => bool_decide (as_str (index e (str "event")) = Some name)) (events r).

Definition succeeded (r : Run V) : bool := bool_decide (exit r = Some 0).

Fixpoint join (sep : bytes) (parts : list bytes) : bytes :=
  match parts with [] => [] | [p] => p | p :: ps => p ++ sep ++ join sep ps end.

(** [Run::tail] *)
Definition tail (r : Run V) : bytes :=
  join (str "; ") (take 3 (rev (List.filter (fun l => negb (starts_with EVT l)) (lines (out r ++ err r))))).

End Run.
End harness_run.

(** ** What the checks share *)

Module suite.
Import text harness_run headscale runscope conformance.

(** What a detail text is about. *)
Inductive Reason :=
| NotBuilt | Hosted | NoControlServer | NoPreauthKey | NoLab | NoReference | NoTlsFront | NoFloor
| NoVector (name : bytes) | VectorNotJson (name : bytes) | CaptureNotArray | CaptureNotParsed (e : netmap.Error)
| NotPlainHttp | NotFetched | NoHeaderEnd | NoStatus
| NotStarted (e : bytes) | NotFinished | LabError (e : Error) | OpenSsl
| NotRegistered (tail : bytes) | NoExitReport | NodeAbsent | NoAddress
| Mismatch (what : bytes) | Missing (what : bytes) | Wrong (what : bytes).

Inductive Verdict := Passed | Elsewhere (artifact : bytes) | Failed_ (why : Reason) | NotYet_ (why : Reason) | Skipped (why : Reason).

(** The status of a verdict, given how its details are worded. *)
Definition status_of (text : Verdict -> bytes) (v : Verdict) : Status :=
  match v with
  | Passed => Pass (text v)
  | Elsewhere _ => External (text v)
  | Failed_ _ => Fail_ (text v)
  | NotYet_ _ => Todo (text v)
  | Skipped _ => Skip (text v)
  end.

Record Doctor := mkDoctor {
  has_headscale : bool; doctor_version : option bytes; headscale_image : option bytes; headscale_reason : option bytes;
  tailscaled_installed : bool; reference_client : bool; harness_built : bool; passwordless_sudo : bool; tls_front : bool }.

Record Env := mkEnv {
  env_target : Target; control_url : option bytes; preauth_key : option bytes; vectors : bytes;
  headscale_version : option bytes; tailscale_version : option bytes; harness : option bytes;
  control_address : option (bytes * Z); doctor : option Doctor; scope : nat }.

Definition with_url (e : Env) (t : Target) (url key : option bytes) : Env :=
  mkEnv t url key (vectors e) (headscale_version e) (tailscale_version e) (harness e) (control_address e) (doctor e) (scope e).
Definition with_versions (e : Env) (h t : option bytes) : Env :=
  mkEnv (env_target e) (control_url e) (preauth_key e) (vectors e) h t (harness e) (control_address e) (doctor e) (scope e).
Definition with_address (e : Env) (a : option (bytes * Z)) (k : nat) : Env :=
  mkEnv (env_target e) (control_url e) (preauth_key e) (vectors e) (headscale_version e) (tailscale_version e) (harness e) a (doctor e) k.

(** A judgement that stops at the first verdict. *)
Abbreviation judging := (res Verdict).

(** What was run: a command, or a question to the server of the lab. *)
Inductive Ran := Command (program : bytes) (arguments : list bytes) | Request (url : bytes) | Asked.

(** The sessions of a process, each in a [OnceLock]. *)
Inductive Key := Ts2021 | Register | Live | Relay | Probe | Exit | Tls.
#[export] Instance key_eq : EqDecision Key.
Proof. solve_decision. Defined.

Section Suite.
Context {W V : Type} `{Commands W} `{Machine W} `{JsonLib V} `{JsonRows V} `{JsonValues V} `{EqDecision V}.

(** The container runtime, the directory of temporary files and the process. *)
Context (runtime temp_dir pid : bytes).

Record RegisterSession := mkRegisterSession { first : Run V; nodes_after_first : list Node; rotated : Run V; nodes_after_rotation : list Node }.
Record ExitSession := mkExitSession { node_id : Z; before : Routes; after : Routes }.
Record TlsSession := mkTlsSession { trusted : Run V; wrong_anchor : Run V; wrong_name : Run V }.

Definition Session (k : Key) : Type :=
  match k with Register => RegisterSession | Exit => ExitSession | Tls => TlsSession | Ts2021 | Live | Relay | Probe => Run V end.

Record Proc := mkProc {
  world : W; scopes : Process; counter : Z;
  started : forall k, option (res Reason (Session k)) }.

Definition with_world (p : Proc) (w : W) : Proc := mkProc w (scopes p) (counter p) (started p).

Definition proc_new (w : W) : Proc := mkProc w process_new 0 (fun _ => None).

(** A task of the suite with errors of its own, and a check. *)
Abbreviation run_task := (task Proc Ran Reason).
Abbreviation check := (task Proc Ran Empty_set).

Definition looks {F A} (f : W -> A) : task Proc Ran F A := gets (fun p => f (world p)).
Definition acts {F A} (f : W -> A * W) : task Proc Ran F A := fun p => let (a, w) := f (world p) in (with_world p w, [], Ok a).

Definition command (program : bytes) (arguments : list bytes) : run_task Output := fun p =>
  let (r, w) := output (world p) program arguments in
  (with_world p w, [Command program arguments], map_err NotStarted r).

(** The server of the lab, asked through its container. *)
Definition lab {A} (f : W -> res Error A * W) : run_task A := fun p =>
  let (r, w) := f (world p) in (with_world p w, [Asked], map_err LabError r).

(** [Harness::run] *)
Definition run_harness (path : bytes) (arguments : list bytes) : run_task (Run V) :=
  o ← command path arguments; mret (from_output o).

(** [Harness::scratch] *)
Definition scratch (name : bytes) : run_task bytes := fun p =>
  let unique := counter p in
  let dir := join_path temp_dir (str "ts-conformance-" ++ pid ++ str "-" ++ name ++ str "-" ++ json.decimal 20 unique) in
  (mkProc (remove_dir_all (world p) dir) (scopes p) (wrap 32 (counter p + 1)) (started p), [], Ok dir).

(** [env.scope.hostname()] *)
Definition run_hostname (env : Env) : run_task bytes :=
  gets (fun p => match inners (scopes p) !! scope env with Some (i, _) => hostname i | None => [] end).

(** [Env::vector] *)
Definition vector (env : Env) (name : bytes) (w : W) : res Reason V :=
  let! text := ok_or (read_to_string w (join_path (vectors env) name)) (NoVector name) in
  ok_or (from_str text) (VectorNotJson name).

(** [OnceLock::get_or_init] *)
Definition remember (k : Key) (r : res Reason (Session k)) (p : Proc) : Proc :=
  mkProc (world p) (scopes p) (counter p) (fun k' =>
    match decide (k = k') with left e => Some (eq_rect k (fun k => res Reason (Session k)) r k' e) | right _ => started p k' end).

Definition once (k : Key) (start : run_task (Session k)) : check (res Reason (Session k)) := fun p =>
  match started p k with
  | Some r => (p, [], Ok r)
  | None =>
      let '(p, es, r) := start p in
      match r with
      | Ok _ | Err _ => (remember k r p, es, Ok r)
      | Panic => (p, es, Panic)
      | Hang => (p, es, Hang)
      end
  end.

(** [with_session]: a session that could not be had is a skip. *)
Definition with_session (k : Key) (start : run_task (Session k)) (judge : Session k -> res Empty_set Verdict) : check Verdict :=
  r ← once k start;
  lift match r with
       | Ok s => judge s
       | Err why => Ok (Skipped why)
       | Panic => Panic
       | Hang => Hang
       end.

(** What every session needs first: the harness, and a server that is not the hosted one. *)
Definition built (env : Env) : res Reason bytes :=
  let! path := ok_or (harness env) NotBuilt in
  match env_target env with TailscaleSaas => Err Hosted | HeadscaleLab => Ok path end.

(** The address and the key, as the sessions name what is missing: separately, or
    as the lab. *)
Definition server_of (env : Env) : res Reason (bytes * bytes) :=
  let! '(host, port) := ok_or (control_address env) NoControlServer in Ok (host, json.decimal 20 port).
Definition server_and_key (env : Env) : res Reason (bytes * bytes * bytes) :=
  let! '(host, port) := server_of env in
  let! key := ok_or (preauth_key env) NoPreauthKey in
  Ok (host, port, key).
Definition lab_of (env : Env) : res Reason (bytes * bytes * bytes) :=
  match control_address env, preauth_key env with
  | Some (host, port), Some key => Ok (host, json.decimal 20 port, key)
  | _, _ => Err NoLab
  end.

(** The arguments that register a node, with flags. *)
Definition register_with (path state host port key : bytes) (flags : list bytes) (name : bytes) : run_task (Run V) :=
  run_harness path ([str "register"; state; host; port; key] ++ flags ++ [str "--hostname"; name]).

(** [run.event(name).and_then(|e| e[field].as_str())] *)
Definition event_str (name field : bytes) (r : Run V) : option bytes := let? e := event name r in as_str (index e field).
Definition event_u64 (name field : bytes) (r : Run V) : Z := default 0 (let? e := event name r in as_u64 (index e field)).

Definition is_bool (b : bool) (v : V) : bool := bool_decide (as_bool v = Some b).

Definition must (b : bool) (what : string) : judging unit := if b then Ok tt else Err (Failed_ (Wrong (str what))).
Definition need {A} (o : option A) (what : string) : judging A := ok_or o (Failed_ (Missing (str what))).
Definition panics {A} (r : res Empty_set A) : judging A :=
  match r with Ok a => Ok a | Err e => match e with end | Panic => Panic | Hang => Hang end.
Definition judged (r : judging Verdict) : res Empty_set Verdict :=
  match r with Ok v | Err v => Ok v | Panic => Panic | Hang => Hang end.

(** A check that stops at the first verdict. *)
Abbreviation judging_task := (task Proc Ran Verdict).
Definition judged_task (m : judging_task Verdict) : check Verdict := fun p =>
  let '(p, es, r) := m p in (p, es, judged r).

(** A run that fails fails the check. *)
Definition or_fail {A} (m : run_task A) : judging_task A := fun p =>
  let '(p, es, r) := m p in (p, es, map_err Failed_ r).

End Suite.
Arguments Proc W V : clear implicits.
End suite.

(** ** [http.rs] *)

Module http.
Import text suite.

Record Response := mkResponse { status : Z; body : bytes }.

Definition CRLF : bytes := [13; 10].

Definition request_of (authority path : bytes) : bytes :=
  str "GET " ++ path ++ str " HTTP/1.1" ++ CRLF ++ str "Host: " ++ authority ++ CRLF ++
  str "Connection: close" ++ CRLF ++ str "Accept: */*" ++ CRLF ++ CRLF.

(** The authority and the path of a URL. *)
Definition split_url (url : bytes) : res Reason (bytes * bytes) :=
  let! rest := ok_or (encoding.strip_prefix (str "http://") url) NotPlainHttp in
  Ok match position [47] rest with Some i => (ztake i rest, zdrop i rest) | None => (rest, [47]) end.

Definition read_response (raw : bytes) : res Reason Response :=
  let text := lossy raw in
  let! '(head, body) := ok_or (split_once (CRLF ++ CRLF) text) NoHeaderEnd in
  let! status := ok_or (let? line := lines head !! O in let? code := words line !! 1%nat in parse_uint 65535 code) NoStatus in
  Ok (mkResponse status body).

Definition get {W V} `{Machine W} (url : bytes) : task (Proc W V) Ran Reason Response := fun p =>
  match split_url url with
  | Ok (authority, path) =>
      let (raw, w) := fetch (world p) authority (request_of authority path) in
      (with_world p w, [Request url], let! raw := ok_or raw NotFetched in read_response raw)
  | Err e => (p, [], Err e)
  | Panic => (p, [], Panic)
  | Hang => (p, [], Hang)
  end.

End http.

(** ** [ts2021.rs] *)

Module ts2021_checks.
Import text harness_run suite.

Section Checks.
Context {W V : Type} `{Commands W} `{Machine W} `{JsonLib V} `{JsonRows V} `{JsonValues V} `{EqDecision V}.
Context (temp_dir pid : bytes).

Definition start (env : Env) : task (Proc W V) Ran Reason (Run V) :=
  path ← lift (built env);
  '(host, port) ← lift (server_of env);
  state ← scratch temp_dir pid (str "ts2021");
  run_harness path [str "ts2021"; lossy state; host; port].

Definition KEYS : list bytes := [str "machine"; str "node"; str "disco"].

Definition key_judge (field prefix : bytes) (run : Run V) : res Empty_set Verdict := judged (
  let! identity := need (event (str "identity") run) "identity" in
  let! text := need (as_str (index identity field)) "key" in
  let! hex := ok_or (encoding.strip_prefix prefix text) (Failed_ (Wrong (str "prefix"))) in
  let! _ := must ((len hex =? 64) && forallb is_hex hex) "hex" in
  let others := omap (fun f => as_str (index identity f)) (List.filter (fun f => negb (bytes_eqb f field)) KEYS) in
  let! _ := must (negb (existsb (ends_with hex) others)) "distinct" in
  let! _ := panics (str_slice 0 16 hex) in
  Ok Passed).

Definition key_check (env : Env) (field prefix : bytes) : task (Proc W V) Ran Empty_set Verdict :=
  with_session Ts2021 (start env) (key_judge field prefix).

Definition machine_key (env : Env) := key_check env (str "machine") (str "mkey:").
Definition node_key (env : Env) := key_check env (str "node") (str "nodekey:").
Definition disco_key (env : Env) := key_check env (str "disco") (str "discokey:").

Definition noise_judge (run : Run V) : res Empty_set Verdict := judged (
  let! _ := need (event (str "noise") run) "noise" in Ok Passed).
Definition noise_handshake (env : Env) := with_session Ts2021 (start env) noise_judge.

Definition framing_judge (run : Run V) : res Empty_set Verdict := judged (
  let! _ := need (event (str "early") run) "early" in Ok Passed).
Definition controlbase_framing (env : Env) := with_session Ts2021 (start env) framing_judge.

Definition capver_minimum (env : Env) : task (Proc W V) Ran Empty_set Verdict :=
  r ← looks (vector env (str "server_key.json"));
  match r with
  | Ok v =>
      match as_u64 (index v (str "minimum_capability_version")) with
      | None => mret (Skipped NoFloor)
      | Some minimum =>
          with_session Ts2021 (start env) (fun run => judged (
            let! _ := need (event (str "noise") run) "noise" in
            let! _ := must (negb (control.CAPABILITY_VERSION <? minimum)) "version" in
            Ok Passed))
      end
  | Err e => mret (Skipped e)
  | Panic => lift Panic
  | Hang => lift Hang
  end.

(** Two runs on one directory, and a third once its file is damaged. *)
Definition persistence_runs (path host port : bytes) : task (Proc W V) Ran Verdict Verdict :=
  directory ← or_fail (scratch temp_dir pid (str "persistence"));
  let args := [str "ts2021"; lossy directory; host; port] in
  first ← or_fail (run_harness path args);
  first_identity ← lift (need (event (str "identity") first) "first identity");
  lift (must (is_bool true (index first_identity (str "new"))) "fresh");;
  second ← or_fail (run_harness path args);
  second_identity ← lift (need (event (str "identity") second) "second identity");
  lift (must (is_bool false (index second_identity (str "new"))) "loaded");;
  lift (must (forallb (fun f => bool_decide (index first_identity f = index second_identity f)) KEYS) "unchanged");;
  let blob := join_path directory (str "identity.bin") in
  content ← looks (fun w => read_file w blob);
  content ← lift (need content "blob");
  let midpoint := len content / 2 in
  b ← lift (or_panic (get_at midpoint content));
  damaged ← lift (or_panic (set_at midpoint (Z.lxor b 1) content));
  written ← acts (fun w => write_file w blob damaged);
  lift (must written "written");;
  third ← or_fail (run_harness path args);
  lift (must (negb (succeeded third)) "refused");;
  lift (must (match event (str "identity") third with Some _ => false | None => true end) "regenerated");;
  lift (panics (str_slice 5 21 (default [] (as_str (index first_identity (str "machine"))))));;
  mret Passed.

Definition persistence (env : Env) : task (Proc W V) Ran Empty_set Verdict :=
  match (let! path := built env in let! '(host, port) := server_of env in Ok (path, host, port)) with
  | Ok (path, host, port) => judged_task (persistence_runs path host port)
  | Err e => mret (Skipped e)
  | Panic => lift Panic
  | Hang => lift Hang
  end.

End Checks.
End ts2021_checks.

(** ** [register.rs] *)

Module register_checks.
Import text harness_run headscale suite.

Section Checks.
Context {W V : Type} `{Commands W} `{Machine W} `{JsonLib V} `{JsonRows V} `{JsonValues V} `{EqDecision V}.
Context (runtime temp_dir pid : bytes).

Definition start (env : Env) : task (Proc W V) Ran Reason (RegisterSession (V := V)) :=
  path ← lift (built env);
  '(host, port, auth_key) ← lift (server_and_key env);
  state ← scratch temp_dir pid (str "register");
  name ← run_hostname env;
  first ← register_with path (lossy state) host port auth_key [] name;
  nodes_after_first ← lab (nodes (V := V) runtime);
  rotated ← register_with path (lossy state) host port auth_key [str "--rotate"] name;
  nodes_after_rotation ← lab (nodes (V := V) runtime);
  mret (mkRegisterSession first nodes_after_first rotated nodes_after_rotation).

Definition registered_key (run : Run V) : option bytes := event_str (str "registered") (str "node") run.

Definition http2_judge (s : RegisterSession (V := V)) : res Empty_set Verdict := judged (
  let! _ := need (event (str "http2") (first s)) "http2" in
  let! _ := need (registered_key (first s)) "request" in
  Ok Passed).
Definition http2 (env : Env) := with_session Register (start env) http2_judge.

Definition register_judge (s : RegisterSession (V := V)) : res Empty_set Verdict := judged (
  let! node_key := need (registered_key (first s)) "registration" in
  let! _ := need (find_by_node_key (nodes_after_first s) node_key) "node" in
  let! _ := panics (str_slice 0 24 node_key) in
  Ok Passed).
Definition register (env : Env) := with_session Register (start env) register_judge.

(** What the reference reports besides is for the text only. *)
Definition hostinfo_judge (sent_hostname : bytes) (s : RegisterSession (V := V)) : res Empty_set Verdict := judged (
  let! node_key := need (registered_key (first s)) "registration" in
  let! node := need (find_by_node_key (nodes_after_first s) node_key) "node" in
  let! _ := must (bytes_eqb (name node) sent_hostname) "name" in
  Ok Passed).
Definition hostinfo (env : Env) : task (Proc W V) Ran Empty_set Verdict :=
  sent ← gets (fun p => match runscope.inners (scopes p) !! scope env with Some (i, _) => runscope.hostname i | None => [] end);
  with_session Register (start env) (hostinfo_judge sent).

Definition reauth_judge (s : RegisterSession (V := V)) : res Empty_set Verdict := judged (
  let! '(first_key, second_key) :=
    need (let? a := registered_key (first s) in let? b := registered_key (rotated s) in Some (a, b)) "rotation" in
  let! _ := must (match event (str "registered") (rotated s) with Some e => is_bool true (index e (str "rotated")) | None => false end) "rotated" in
  let! _ := must (negb (bytes_eqb first_key second_key)) "changed" in
  let! '(before, after) :=
    need (let? a := find_by_node_key (nodes_after_first s) first_key in
          let? b := find_by_node_key (nodes_after_rotation s) second_key in Some (a, b)) "node" in
  let! _ := must (id before =? id after) "same node" in
  let! _ := must (bytes_eqb (machine_key before) (machine_key after)) "same machine" in
  let! _ := must (match find_by_node_key (nodes_after_rotation s) first_key with Some _ => false | None => true end) "retired" in
  Ok Passed).
Definition reauth (env : Env) := with_session Register (start env) reauth_judge.

End Checks.
End register_checks.

(** ** [netmap.rs] *)

Module netmap_checks.
Import text harness_run suite parser.

Definition PEERS : Z := 32.
Definition CAPTURE : bytes := str "map_response.json".

(** [bytes.chunks(n)] *)
Fixpoint chunks_from (fuel : nat) (n : Z) (b : bytes) : list bytes :=
  match fuel with
  | O => []
  | S fuel => match b with [] => [] | _ => ztake n b :: chunks_from fuel n (zdrop n b) end
  end.
Definition chunks (n : Z) (b : bytes) : list bytes := chunks_from (length b) n b.

(** Text with single quotes for the double ones. *)
Definition quoted (s : string) : bytes := map (fun b => if b =? 39 then 34 else b) (str s).
Definition FULL : bytes := quoted
  "{'Node':{'ID':9,'Key':'nodekey:0101010101010101010101010101010101010101010101010101010101010101'},'Peers':[{'ID':1,'Key':'nodekey:0202020202020202020202020202020202020202020202020202020202020202','Online':true,'Endpoints':['10.0.0.1:41641']}]}".
Definition PATCH : bytes := quoted "{'PeersChangedPatch':[{'NodeID':1,'Online':false}]}".

Section Checks.
Context {W V : Type} `{Commands W} `{Machine W} `{JsonLib V} `{JsonRows V} `{JsonValues V} `{EqDecision V} `{C : keys.Curve}.
Context (temp_dir pid : bytes).

(** The documents applied to one map, each in chunks to a parser of its own. *)
Fixpoint apply_documents (chunk : Z) (m : Netmap) (documents : list V) : res Reason Netmap :=
  match documents with
  | [] => Ok m
  | d :: documents =>
      let '(p, m, r) := push_all PEERS new m (chunks chunk (to_string d)) in
      let! _ := map_err CaptureNotParsed r in
      let (m, r) := finish PEERS p m in
      let! _ := map_err CaptureNotParsed r in
      apply_documents chunk m documents
  end.

Definition from_capture (env : Env) (chunk : Z) (w : W) : res Reason (Netmap * Z) :=
  let! documents := vector (V := V) env CAPTURE w in
  let! documents := ok_or (as_array documents) CaptureNotArray in
  let! m := apply_documents chunk netmap_new documents in
  Ok (m, len documents).

(** A check of the capture; one that cannot be read fails it. *)
Definition captured (env : Env) (judge : Netmap -> Z -> W -> judging Verdict) : task (Proc W V) Ran Empty_set Verdict :=
  w ← looks (fun w => w);
  lift (judged (let! '(m, n) := map_err Failed_ (from_capture env 64 w) in judge m n w)).

Definition fields (env : Env) : task (Proc W V) Ran Empty_set Verdict :=
  documents ← looks (vector (V := V) env CAPTURE);
  match documents with
  | Ok _ => captured env (fun m count _ =>
      let! _ := must (responses m =? count) "count" in
      let! _ := need (own_key m) "own record" in
      Ok Passed)
  | Err e => mret (Skipped e)
  | Panic => lift Panic
  | Hang => lift Hang
  end.

(** [let _ = parser.push(..); parser.finish(..)] into a map of its own. *)
Definition feed (m : Netmap) (b : bytes) : judging (Netmap * bool) :=
  let '(p, m, r) := push PEERS new m b in
  match r with
  | Panic => Panic
  | Hang => Hang
  | _ =>
      let (m, r) := finish PEERS p m in
      match r with Ok _ => Ok (m, true) | Err _ => Ok (m, false) | Panic => Panic | Hang => Hang end
  end.

(** A patch changes only what it names. *)
Definition patch_probe : judging Verdict :=
  let! '(probe, parsed) := feed netmap_new FULL in
  let! _ := must parsed "full map" in
  let! '(probe, parsed) := feed probe PATCH in
  let! _ := must parsed "patch" in
  let! patched := need (peer.get (peers probe) 1) "patched peer" in
  let! _ := must (negb (peer.online patched)) "patched field" in
  let! _ := must (match peer.endpoints patched with [] => false | _ => true end) "other fields" in
  Ok Passed.

Definition delta (env : Env) : task (Proc W V) Ran Empty_set Verdict := captured env (fun m _ _ =>
  let! first := need (peers m !! O) "peers" in
  let! _ := must (match peer.endpoints first with [] => false | _ => true end) "endpoints" in
  patch_probe).

Definition same_key (a b : option (keys.Public keys.Node)) : bool :=
  match a, b with
  | Some x, Some y => keys.public_eq (keys.as_bytes x) (keys.as_bytes y)
  | None, None => true
  | _, _ => false
  end.

Definition agree (m reference : Netmap) : bool :=
  (len (peers m) =? len (peers reference)) && same_key (own_key m) (own_key reference) && (len (relays m) =? len (relays reference)).

Fixpoint streaming_loop (env : Env) (reference : Netmap) (sizes : list Z) (w : W) : judging Verdict :=
  match sizes with
  | [] => Ok Passed
  | chunk :: sizes =>
      let! '(m, _) := map_err Failed_ (from_capture env chunk w) in
      let! _ := must (agree m reference) "same result" in
      streaming_loop env reference sizes w
  end.

Definition USIZE_MAX : Z := 2 ^ 64 - 1.

Definition streaming (env : Env) : task (Proc W V) Ran Empty_set Verdict :=
  w ← looks (fun w => w);
  lift (judged (
    let! '(reference, _) := map_err Failed_ (from_capture env USIZE_MAX w) in
    streaming_loop env reference [1; 3; 64; 4096] w)).

Definition derp_map (env : Env) : task (Proc W V) Ran Empty_set Verdict := captured env (fun m _ _ =>
  let! region := need (relays m !! O) "regions" in
  let! node := need (derp.nodes region !! O) "nodes" in
  let! _ := must (negb (bool_decide (derp.host_name node = []) || (derp.port node =? 0))) "address" in
  Ok Passed).

Definition start (env : Env) : task (Proc W V) Ran Reason (Run V) :=
  path ← lift (built env);
  '(host, port, auth_key) ← lift (server_and_key env);
  state ← scratch temp_dir pid (str "netmap");
  name ← run_hostname env;
  registered ← register_with path (lossy state) host port auth_key [] name;
  lift (ok_or (event (str "registered") registered) (NotRegistered (tail registered)));;
  run_harness path [str "map"; lossy state; host; port; str "--hostname"; name].

Definition compression_judge (run : Run V) : res Empty_set Verdict := judged (
  let! map_ := need (event (str "map") run) "map" in
  let! _ := must (is_bool false (index map_ (str "compressed"))) "compressed" in
  Ok Passed).
Definition compression (env : Env) := with_session Live (start env) compression_judge.

Definition to_peers_judge (run : Run V) : res Empty_set Verdict := judged (
  let! peers_ := need (event (str "peers") run) "peers" in
  let! _ := must (negb (default 0 (as_u64 (index peers_ (str "configured"))) =? 0)) "configured" in
  let! _ := must (is_bool true (index peers_ (str "key_matches"))) "key" in
  Ok Passed).
Definition to_peers (env : Env) := with_session Live (start env) to_peers_judge.

End Checks.
End netmap_checks.

(** ** [derp.rs] *)

Module derp_check.
Import text harness_run suite.

Section Check_.
Context {W V : Type} `{Commands W} `{Machine W} `{JsonLib V} `{JsonRows V} `{JsonValues V} `{EqDecision V}.
Context (temp_dir pid : bytes).

(** A node of its own. *)
Definition registered (env : Env) (path host port auth_key name : bytes) : task (Proc W V) Ran Reason bytes :=
  state ← scratch temp_dir pid name;
  hostname ← run_hostname env;
  run ← register_with path (lossy state) host port auth_key [] hostname;
  lift (ok_or (event (str "registered") run) (NotRegistered (tail run)));;
  mret (lossy state).

Definition start (env : Env) : task (Proc W V) Ran Reason (Run V) :=
  path ← lift (built env);
  '(host, port, auth_key) ← lift (lab_of env);
  a ← registered env path host port auth_key (str "derp-a");
  b ← registered env path host port auth_key (str "derp-b");
  run_harness path [str "derp"; host; port; a; b].

Definition relay_judge (run : Run V) : res Empty_set Verdict := judged (
  let! connected := need (event (str "derp-connected") run) "connection" in
  let! relayed := need (event (str "relayed") run) "packet" in
  let! _ := must (is_bool true (index relayed (str "intact"))) "intact" in
  let! _ := must (bool_decide (index relayed (str "from") = index connected (str "sender"))) "sender" in
  Ok Passed).
Definition relay (env : Env) := with_session Relay (start env) relay_judge.

End Check_.
End derp_check.

(** ** [exit.rs] *)

Module exit_check.
Import text harness_run headscale suite.

Definition DEFAULT_ROUTES : list bytes := [str "0.0.0.0/0"; str "::/0"].

Section Check_.
Context {W V : Type} `{Commands W} `{Machine W} `{JsonLib V} `{JsonRows V} `{JsonValues V} `{EqDecision V}.
Context (runtime temp_dir pid : bytes).

Definition start (env : Env) : task (Proc W V) Ran Reason ExitSession :=
  path ← lift (built env);
  '(host, port, auth_key) ← lift (lab_of env);
  state ← scratch temp_dir pid (str "exit");
  name ← run_hostname env;
  run ← register_with path (lossy state) host port auth_key [str "--exit-node"] name;
  node_key ← lift (ok_or (event_str (str "registered") (str "node") run) (NotRegistered (tail run)));
  lift (if bool_decide ((let? e := event (str "registered") run in as_bool (index e (str "exit_node"))) = Some true) then Ok tt else Err NoExitReport);;
  l ← lab (nodes (V := V) runtime);
  node ← lift (ok_or (find_by_node_key l node_key) NodeAbsent);
  before ← lab (fun w => routes (V := V) runtime w (id node));
  lab (fun w => approve_routes runtime w (id node) DEFAULT_ROUTES);;
  after ← lab (fun w => routes (V := V) runtime w (id node));
  mret (mkExitSession (id node) before after).

Definition lists (l : list bytes) (route : bytes) : bool := existsb (bytes_eqb route) l.

Definition advertise_judge (s : ExitSession) : res Empty_set Verdict := judged (
  let! _ := must (forallb (lists (available (before s))) DEFAULT_ROUTES) "advertised" in
  let! _ := must (match approved (before s) with [] => true | _ => false end) "approved before" in
  let! _ := must (forallb (fun r => lists (approved (after s)) r && lists (serving (after s)) r) DEFAULT_ROUTES) "served" in
  Ok Passed).
Definition advertise (env : Env) : task (Proc W V) Ran Empty_set Verdict := with_session Exit (start env) advertise_judge.

End Check_.
End exit_check.

(** ** [tls.rs] *)

Module tls_check.
Import text harness_run suite.

Section Check_.
Context {W V : Type} `{Commands W} `{Machine W} `{JsonLib V} `{JsonRows V} `{JsonValues V} `{EqDecision V}.

Definition lab_root (env : Env) : bytes := default (str ".") (let? p := parent (vectors env) in parent p).

(** [path.with_extension("key")] of a name with an extension. *)
Definition with_key (path : bytes) : bytes := match rsplit_once 46 path with Some (x, _) => x ++ str ".key" | None => path ++ str ".key" end.

Definition openssl (arguments : list bytes) : task (Proc W V) Ran Reason unit :=
  o ← command (str "openssl") arguments; lift (if success o then Ok tt else Err OpenSsl).

Definition make_unrelated_ca (path : bytes) : task (Proc W V) Ran Reason unit :=
  openssl [str "ecparam"; str "-name"; str "prime256v1"; str "-genkey"; str "-noout"; str "-out"; lossy (with_key path)];;
  openssl [str "req"; str "-x509"; str "-new"; str "-key"; lossy (with_key path); str "-sha256"; str "-days"; str "30";
           str "-subj"; str "/CN=unrelated CA"; str "-outform"; str "DER"; str "-out"; lossy path].

Definition start (env : Env) : task (Proc W V) Ran Reason (TlsSession (V := V)) :=
  path ← lift (built env);
  let ca := join_path (lab_root env) (str ".lab/tls/ca.der") in
  there ← looks (fun w => exists_ w ca);
  lift (if (there : bool) then Ok tt else Err NoTlsFront);;
  port ← looks (fun w => default (str "8443") (var w (str "LAB_TLS_PORT")));
  let connect name anchor := run_harness path [str "tls"; str "127.0.0.1"; port; name; lossy anchor] in
  trusted ← connect (str "localhost") ca;
  let other := join_path (lab_root env) (str ".lab/tls/unrelated-ca.der") in
  there ← looks (fun w => exists_ w other);
  (if (there : bool) then mret tt else make_unrelated_ca other);;
  wrong_anchor ← connect (str "localhost") other;
  wrong_name ← connect (str "wrong.example.com") ca;
  mret (mkTlsSession trusted wrong_anchor wrong_name).

Definition absent {A} (o : option A) : bool := match o with Some _ => false | None => true end.

Definition tls_judge (s : TlsSession (V := V)) : res Empty_set Verdict := judged (
  let! _ := must (bool_decide ((let? e := event (str "handshake") (trusted s) in as_bool (index e (str "verified"))) = Some true)) "handshake" in
  let! key := need (event_str (str "key") (str "key") (trusted s)) "traffic" in
  let! _ := must (absent (event (str "handshake") (wrong_anchor s)) &&
                  negb (bool_decide (event_str (str "tls") (str "result") (wrong_anchor s) = Some (str "ok")))) "anchor" in
  let! _ := must (absent (event (str "handshake") (wrong_name s))) "name" in
  let! _ := panics (str_slice 0 21 key) in
  Ok Passed).
Definition tls (env : Env) := with_session Tls (start env) tls_judge.

End Check_.
End tls_check.

(** ** [disco.rs] *)

Module disco_checks.
Import text harness_run headscale suite.

Definition LISTEN_SECONDS : Z := 20.
Definition READY_TIMEOUT_SECONDS : Z := 15.
Definition READY_EVENT : bytes := str "self".
Definition PEER_VISIBLE_TIMEOUT_SECONDS : Z := 20.
Definition POLL_INTERVAL_MS : Z := 250.
Definition NUDGE_ATTEMPTS : nat := 4.

Inductive Signal := Ready | PingAnswered.

Section Checks.
Context {W V : Type} `{Commands W} `{Machine W} `{JsonLib V} `{JsonRows V} `{JsonValues V} `{EqDecision V}.

(** [patience] bounds how often a loop with a deadline may look at the clock. *)
Context (runtime temp_dir pid : bytes) (patience : nat).

Definition socket_path (env : Env) : bytes := join_path (tls_check.lab_root env) (str ".lab/tailscaled.sock").

(** What the thread that reads the harness's output makes of a line. *)
Definition signal_of (line : bytes) : option Signal :=
  let? text := encoding.strip_prefix EVT line in
  let? event := from_str (V := V) text in
  let? name := as_str (index event (str "event")) in
  if bytes_eqb name READY_EVENT then Some Ready else if bytes_eqb name (str "ping") then Some PingAnswered else None.

(** What it collects: the lines up to the first that is not text. *)
Fixpoint text_lines (l : list bytes) : list bytes :=
  match l with [] => [] | x :: l => if utf8_valid x then x :: text_lines l else [] end.
Definition collected (raw : bytes) : bytes := concat (map (fun l => l ++ [10]) (text_lines (lines raw))).

(** Receiving until [done], the deadline or the end of the output; whether the
    harness is ready, and whether it has answered. *)
Fixpoint receive (fuel : nat) (deadline : Z) (done : bool -> bool -> bool) (ready answered : bool) : task (Proc W V) Ran Reason (bool * bool) :=
  match fuel with
  | O => lift Hang
  | S fuel =>
      now ← acts millis;
      if negb ((now <? deadline) && negb (done ready answered)) then mret (ready, answered) else
      got ← acts (fun w => recv_timeout w (fun l => match signal_of l with Some _ => true | None => false end) POLL_INTERVAL_MS);
      match got with
      | Line l =>
          match signal_of l with
          | Some Ready => receive fuel deadline done true answered
          | Some PingAnswered => receive fuel deadline done ready true
          | None => receive fuel deadline done ready answered
          end
      | Quiet => receive fuel deadline done ready answered
      | Closed_ => mret (ready, answered)
      end
  end.

Definition tailscale (socket : bytes) (arguments : list bytes) : list bytes :=
  [str "-n"; str "tailscale"; str "--socket=" ++ socket] ++ arguments.

(** A command whose failure is not an error. *)
Definition try_command (program : bytes) (arguments : list bytes) : task (Proc W V) Ran Reason (option Output) := fun p =>
  let '(p, es, r) := command program arguments p in
  (p, es, match r with Ok o => Ok (Some o) | Err _ => Ok None | Panic => Panic | Hang => Hang end).

Definition peer_is_visible (socket node_key : bytes) : task (Proc W V) Ran Reason bool :=
  o ← try_command (str "sudo") (tailscale socket [str "status"; str "--json"]);
  mret (default false (
    let? o := o in
    let? status := from_slice (V := V) (stdout o) in
    let? peers := as_object (index status (str "Peer")) in
    Some (existsb (fun '(key, peer) => bytes_eqb key node_key || bool_decide (as_str (index peer (str "PublicKey")) = Some node_key)) peers))).

Fixpoint visible_loop (fuel : nat) (deadline : Z) (socket node_key : bytes) : task (Proc W V) Ran Reason bool :=
  match fuel with
  | O => lift Hang
  | S fuel =>
      now ← acts millis;
      if negb (now <? deadline) then mret false else
      visible ← peer_is_visible socket node_key;
      if (visible : bool) then mret true else
      acts (fun w => (tt, rest w POLL_INTERVAL_MS));;
      visible_loop fuel deadline socket node_key
  end.

Definition wait_for_peer (socket node_key : bytes) (timeout_seconds : Z) : task (Proc W V) Ran Reason bool :=
  now ← acts millis; visible_loop patience (now + timeout_seconds * 1000) socket node_key.

Definition tailnet_address (node_key : bytes) : task (Proc W V) Ran Reason bytes :=
  l ← lab (nodes (V := V) runtime);
  node ← lift (ok_or (find_by_node_key l node_key) NodeAbsent);
  lift (ok_or (find_by (fun a => contains a [46]) (addresses node)) NoAddress).

(** Nudging until the harness has answered: the last nudge. *)
Fixpoint nudging (attempts : nat) (socket address : bytes) (nudge : option Output) (ready answered : bool) : task (Proc W V) Ran Reason (option Output) :=
  match attempts with
  | O => mret nudge
  | S attempts =>
      if answered then mret nudge else
      nudge ← try_command (str "sudo") (tailscale socket [str "ping"; str "--c"; str "3"; str "--until-direct=false"; address]);
      now ← acts millis;
      '(ready, answered) ← receive patience (now + 2000) (fun _ a => a) ready answered;
      nudging attempts socket address nudge ready answered
  end.

Definition start (env : Env) : task (Proc W V) Ran Reason (Run V) :=
  path ← lift (built env);
  '(host, port, auth_key) ← lift (lab_of env);
  let socket := socket_path env in
  there ← looks (fun w => exists_ w socket);
  lift (if (there : bool) then Ok tt else Err NoReference);;
  state ← scratch temp_dir pid (str "disco");
  name ← run_hostname env;
  registered ← register_with path (lossy state) host port auth_key [] name;
  node_key ← lift (ok_or (event_str (str "registered") (str "node") registered) (NotRegistered (tail registered)));
  address ← tailnet_address node_key;
  let arguments := [str "disco"; lossy state; host; port; json.decimal 20 LISTEN_SECONDS; str "--hostname"; name] in
  running ← acts (fun w => spawn w path arguments);
  emit (Command path arguments);;
  lift (if (running : bool) then Ok tt else Err (NotStarted []));;
  now ← acts millis;
  '(ready, answered) ← receive patience (now + READY_TIMEOUT_SECONDS * 1000) (fun r _ => r) false false;
  visible ← wait_for_peer socket node_key PEER_VISIBLE_TIMEOUT_SECONDS;
  nudge ← nudging NUDGE_ATTEMPTS socket address None ready answered;
  finished ← acts reap;
  finished ← lift (ok_or finished NotFinished);
  let run := from_parts (collected (stdout finished)) (if utf8_valid (stderr finished) then stderr finished else []) (code finished) in
  mret (mkRun (events run) (out run) (err run) (exit run)
    ((if (ready : bool) then [] else
        str "the harness never emitted its '" ++ READY_EVENT ++ str "' event within              " ++ json.decimal 20 READY_TIMEOUT_SECONDS ++
        str "s, so the nudge was sent blind; ") ++
     (if (visible : bool) then [] else
        str "the reference client still did not list " ++ node_key ++ str " as a peer after " ++ json.decimal 20 PEER_VISIBLE_TIMEOUT_SECONDS ++
        str "s, so its probe had nothing to aim at; ") ++
     match nudge with Some o => lossy (stdout o) | None => [] end)).

Definition ping_judge (run : Run V) : res Empty_set Verdict := judged (
  let! _ := must (negb (event_u64 (str "disco") (str "pongs") run =? 0)) "pongs" in
  let! pong := need (event (str "pong") run) "pong" in
  let! _ := must (is_bool true (index pong (str "txid_matches"))) "transaction" in
  Ok Passed).
Definition ping (env : Env) := with_session Probe (start env) ping_judge.

Definition pong_judge (run : Run V) : res Empty_set Verdict := judged (
  let! _ := must (negb (event_u64 (str "disco") (str "pings") run =? 0)) "pings" in
  let! _ := must (contains (note run) (str "pong from")) "accepted" in
  Ok Passed).
Definition pong (env : Env) := with_session Probe (start env) pong_judge.

Definition endpoints_judge (run : Run V) : res Empty_set Verdict := judged (
  let! advertised := need (event_str (str "endpoint") (str "advertised") run) "endpoint" in
  let! _ := must (negb (starts_with (str "127.") advertised || starts_with (str "0.0.0.0") advertised)) "reachable" in
  let! _ := must (negb (event_u64 (str "disco") (str "pings") run =? 0)) "used" in
  Ok Passed).
Definition endpoints (env : Env) := with_session Probe (start env) endpoints_judge.

End Checks.
End disco_checks.

(** ** [doctor.rs] *)

Module doctor.
Import text suite.

Record Gap := mkGap { what : bytes; remedy : bytes; disables : list bytes }.

Section Load.
Context {W V : Type} `{Machine W} `{JsonLib V} `{JsonValues V}.

Definition load (repo_root : bytes) (w : W) : option Doctor :=
  let? text := read_to_string w (join_path repo_root (str ".lab/doctor.json")) in
  let? document := from_str (V := V) text in
  let flag (key : string) := default false (as_bool (index document (str key))) in
  let text_of (key : string) := let? s := as_str (index document (str key)) in match s with [] => None | _ => Some s end in
  Some (mkDoctor (flag "headscale"%string) (text_of "headscale_version"%string) (text_of "headscale_image"%string) (text_of "headscale_reason"%string)
    (flag "tailscaled_installed"%string) (flag "reference_client"%string) (flag "harness_built"%string) (flag "passwordless_sudo"%string) (flag "tls_front"%string)).

End Load.

Definition NEEDS_REFERENCE : list bytes := [str "disco.pong"; str "disco.ping"; str "disco.endpoints"].

Definition gaps (d : Doctor) : list Gap :=
  (if has_headscale d then [] else
    [mkGap (str "no control server") (str "tests/lab/lab.sh up") (map str
      ["control.key.fetch"; "control.key.capver"; "control.capver.minimum"; "control.noise.handshake"; "control.controlbase.framing";
       "control.register"; "control.hostinfo"; "control.reauth"; "keys.machine"; "keys.node"; "keys.disco"; "keys.persistence";
       "transport.http2"; "netmap.fields"; "netmap.delta"; "netmap.streaming"; "netmap.compression"; "netmap.to_peers"; "derp.relay";
       "disco.pong"; "disco.ping"; "disco.endpoints"; "exit.advertise"]%string)]) ++
  (if harness_built d then [] else
    [mkGap (str "the no_std harness is not built") (str "cd harness && cargo build --release") []]) ++
  (if negb (tailscaled_installed d) then
    [mkGap (str "tailscaled is not installed") (str "install the tailscale package") NEEDS_REFERENCE]
   else if negb (reference_client d) then
    [mkGap (str "no reference client is running") (str "tests/lab/lab.sh reference") NEEDS_REFERENCE]
   else []) ++
  (if tls_front d then [] else
    [mkGap (str "no TLS front") (str "tests/lab/tls.sh up") [str "transport.tls"]]) ++
  (if passwordless_sudo d then [] else
    [mkGap (str "no passwordless sudo") (str "configure sudo, or run the interop scripts by hand") [str "exit.forward.udp"; str "exit.forward.tcp"]]).

Definition complete (d : Doctor) : bool := match gaps d with [] => true | _ => false end.

End doctor.

(** ** [checks.rs] *)

Module checks.
Import text conformance suite.

Section Table.
Context {W V : Type} `{Commands W} `{Machine W} `{JsonLib V} `{JsonRows V} `{JsonValues V} `{EqDecision V}.
Context `{C : keys.Curve} `{Pr : Primitives}.
Context (runtime temp_dir pid : bytes) (patience : nat).

Abbreviation verdict := (task (Proc W V) Ran Empty_set Verdict).

(** [control_get]: the response, or the verdict instead. *)
Definition control_get (env : Env) (path : bytes) : task (Proc W V) Ran Verdict http.Response :=
  base ← lift (ok_or (control_url env) (Skipped NoControlServer));
  lift match env_target env with TailscaleSaas => Err (NotYet_ Hosted) | HeadscaleLab => Ok tt end;;
  or_fail (http.get (base ++ path)).

Definition keys_encoding (env : Env) : verdict :=
  key ← looks (vector (V := V) env (str "server_key.json"));
  lift match key with
       | Ok key => judged (
           let! published := need (as_str (index (index key (str "key_at_minimum")) (str "publicKey"))) "publicKey" in
           let! hex := ok_or (encoding.strip_prefix (str "mkey:") published) (Failed_ (Wrong (str "prefix"))) in
           let! _ := must ((len hex =? 64) && forallb is_hex hex) "hex" in
           let! _ := panics (str_slice 0 16 hex) in
           Ok Passed)
       | Err e => Ok (Skipped e)
       | Panic => Panic
       | Hang => Hang
       end.

(** What [control.key.fetch] makes of a response. *)
Definition key_fetch_judge (response : http.Response) : judging Verdict :=
  let! _ := must (http.status response =? 200) "status" in
  let! json := ok_or (from_str (V := V) (http.body response)) (Failed_ (Wrong (str "body"))) in
  match as_str (index json (str "publicKey")) with
  | Some key => if starts_with (str "mkey:") key then let! _ := panics (str_slice 0 21 key) in Ok Passed else Err (Failed_ (Missing (str "publicKey")))
  | None => Err (Failed_ (Missing (str "publicKey")))
  end.

Definition key_fetch (env : Env) : verdict := judged_task (
  response ← control_get env (str "/key?v=118"); lift (key_fetch_judge response)).

Definition key_capver (env : Env) : verdict := judged_task (
  response ← control_get env (str "/key");
  lift (let! _ := must (contains (http.body response) (str "capability version must be set")) "demand" in Ok Passed)).

Definition external (artifact : string) (_ : Env) : verdict := mret (Elsewhere (str artifact)).

(** [multipeer::run] *)
Definition multipeer_run (_ : Env) : verdict :=
  lift match multipeer.exercise with
       | Ok _ => Ok Passed
       | Err _ => Ok (Failed_ (Wrong (str "peers")))
       | Panic => Panic
       | Hang => Hang
       end.

Record Entry := mkEntry { entry_id : bytes; entry_area : Area; judge : Env -> verdict }.

Definition CHECKS : list Entry := [
  mkEntry (str "wg.handshake.responder") DataPlane (external "scripts/interop-wireguard.sh");
  mkEntry (str "wg.transport.roundtrip") DataPlane (external "scripts/interop-wireguard.sh");
  mkEntry (str "wg.replay") DataPlane (external "wg-core unit tests");
  mkEntry (str "wg.rekey") DataPlane (external "hardware soak");
  mkEntry (str "wg.handshake.initiator") DataPlane (external "scripts/interop-wireguard.sh initiator");
  mkEntry (str "wg.multipeer") DataPlane multipeer_run;
  mkEntry (str "keys.machine") Keys (ts2021_checks.machine_key temp_dir pid);
  mkEntry (str "keys.node") Keys (ts2021_checks.node_key temp_dir pid);
  mkEntry (str "keys.disco") Keys (ts2021_checks.disco_key temp_dir pid);
  mkEntry (str "keys.encoding") Keys keys_encoding;
  mkEntry (str "keys.persistence") Keys (ts2021_checks.persistence temp_dir pid);
  mkEntry (str "transport.tls") Transport tls_check.tls;
  mkEntry (str "transport.http2") Transport (register_checks.http2 runtime temp_dir pid);
  mkEntry (str "control.key.fetch") Control key_fetch;
  mkEntry (str "control.key.capver") Control key_capver;
  mkEntry (str "control.capver.minimum") Control (ts2021_checks.capver_minimum temp_dir pid);
  mkEntry (str "control.noise.handshake") Control (ts2021_checks.noise_handshake temp_dir pid);
  mkEntry (str "control.controlbase.framing") Control (ts2021_checks.controlbase_framing temp_dir pid);
  mkEntry (str "control.register") Control (register_checks.register runtime temp_dir pid);
  mkEntry (str "control.reauth") Control (register_checks.reauth runtime temp_dir pid);
  mkEntry (str "control.hostinfo") Control (register_checks.hostinfo runtime temp_dir pid);
  mkEntry (str "netmap.fields") Netmap netmap_checks.fields;
  mkEntry (str "netmap.delta") Netmap netmap_checks.delta;
  mkEntry (str "netmap.streaming") Netmap netmap_checks.streaming;
  mkEntry (str "netmap.compression") Netmap (netmap_checks.compression temp_dir pid);
  mkEntry (str "netmap.to_peers") Netmap (netmap_checks.to_peers temp_dir pid);
  mkEntry (str "derp.map.parse") Derp netmap_checks.derp_map;
  mkEntry (str "derp.relay") Derp (derp_check.relay temp_dir pid);
  mkEntry (str "disco.pong") Disco (disco_checks.pong runtime temp_dir pid patience);
  mkEntry (str "disco.ping") Disco (disco_checks.ping runtime temp_dir pid patience);
  mkEntry (str "disco.endpoints") Disco (disco_checks.endpoints runtime temp_dir pid patience);
  mkEntry (str "exit.forward.udp") ExitNode (external "scripts/bench-exit.sh");
  mkEntry (str "exit.forward.tcp") ExitNode (external "scripts/test-http.sh");
  mkEntry (str "exit.advertise") ExitNode (exit_check.advertise runtime temp_dir pid)].

(** [Report::run]: the checks one after the other. *)
Fixpoint judge_all (env : Env) (l : list Entry) : task (Proc W V) Ran Empty_set (list (bytes * Area * Verdict)) :=
  match l with
  | [] => mret []
  | e :: l =>
      v ← judge e env;
      r ← judge_all env l;
      mret ((entry_id e, entry_area e, v) :: r)
  end.

Definition report (text : Verdict -> bytes) (env : Env) : task (Proc W V) Ran Empty_set Report :=
  l ← judge_all env CHECKS;
  mret (mkReport (env_target env) (map (fun '(i, a, v) => mkOutcome i a (status_of text v)) l)).

End Table.
End checks.

(** ** [lib.rs] and [main.rs] *)

Module program.
Import text conformance runscope suite.

(** [split_address] *)
Definition split_address (url : bytes) : option (bytes * Z) :=
  let? rest := match encoding.strip_prefix (str "http://") url with Some r => Some r | None => encoding.strip_prefix (str "https://") url end in
  let authority := match peer.split_once 47 rest with Some (a, _) => a | None => rest end in
  let? (host, port) := rsplit_once 58 authority in
  let? port := parse_uint 65535 port in
  Some (host, port).

(** One line of [lab.env]. *)
Definition lab_line (e : Env) (line : bytes) : Env :=
  match peer.split_once 61 line with
  | Some (key, value) =>
      if bytes_eqb key (str "HEADSCALE_URL") then with_url e (env_target e) (Some value) (preauth_key e) else
      if bytes_eqb key (str "HEADSCALE_PREAUTH_KEY") then with_url e (env_target e) (control_url e) (Some value) else
      if bytes_eqb key (str "HEADSCALE_VERSION") then with_versions e (Some value) (tailscale_version e) else e
  | None => e
  end.

Record Options := mkOptions { json_ : bool; expect : option bytes; write_expect : option bytes }.

(** [Options::parse]; [None] is the usage text. *)
Fixpoint parse_options (o : Options) (args : list bytes) : option Options :=
  match args with
  | [] => Some o
  | a :: args =>
      if bytes_eqb a (str "--json") then parse_options (mkOptions true (expect o) (write_expect o)) args else
      if bytes_eqb a (str "--expect") then
        match args with [] => None | path :: args => parse_options (mkOptions (json_ o) (Some path) (write_expect o)) args end else
      if bytes_eqb a (str "--write-expect") then
        match args with [] => None | path :: args => parse_options (mkOptions (json_ o) (expect o) (Some path)) args end else
      None
  end.

Section Main.
Context {W V : Type} `{Commands W} `{Machine W} `{JsonLib V} `{JsonRows V} `{JsonValues V} `{EqDecision V}.
Context `{C : keys.Curve} `{Pr : Primitives}.
Context (runtime temp_dir pid : bytes) (patience : nat) (text : Verdict -> bytes) (comment : bytes).

(** The handles on the scope of the run; the hash is what a new id is made from. *)
Definition take_scope (hash : Z) (enabled : bool) : task (Proc W V) Ran Empty_set nat := fun p =>
  let (s, k) := scope_new hash enabled (scopes p) in (mkProc (world p) s (counter p) (started p), [], Ok k).
Definition drop_scope (k : nat) : task (Proc W V) Ran Empty_set unit := fun p =>
  let (s, w) := scope_drop (V := V) runtime k (scopes p) (world p) in (mkProc w s (counter p) (started p), [], Ok tt).

(** Whether the control server answers. *)
Definition healthy (url : bytes) : task (Proc W V) Ran Empty_set bool := fun p =>
  let '(p, es, r) := http.get (url ++ str "/health") p in
  (p, es, match r with Ok _ => Ok true | Err _ => Ok false | Panic => Panic | Hang => Hang end).

(** [Env::discover] *)
Definition discover (hash : Z) (repo_root : bytes) : task (Proc W V) Ran Empty_set Env :=
  let path := join_path repo_root (str "harness/target/x86_64-unknown-linux-none/release/harness") in
  built ← looks (fun w => if is_file w path then Some path else None);
  found ← looks (doctor.load (V := V) repo_root);
  first ← take_scope hash false;
  let env := mkEnv HeadscaleLab None None (join_path repo_root (str "tests/vectors")) None None built None found first in
  lab_env ← looks (fun w => read_to_string w (join_path repo_root (str ".lab/lab.env")));
  let env := match lab_env with Some t => fold_left lab_line (lines t) env | None => env end in
  url ← looks (fun w => var w (str "TS_CONTROL_URL"));
  auth ← looks (fun w => var w (str "TS_AUTHKEY"));
  let env := match url with Some u => with_url env TailscaleSaas (Some u) auth | None => env end in
  answers ← match control_url env, env_target env with Some u, HeadscaleLab => healthy u | _, _ => mret true end;
  let env := if (answers : bool) then env else with_url env (env_target env) None (preauth_key env) in
  let enabled := match control_url env, env_target env with Some _, HeadscaleLab => true | _, _ => false end in
  k ← take_scope hash enabled;
  drop_scope first;;
  let env := with_address env (let? u := control_url env in split_address u) k in
  versions ← looks (fun w => let? t := read_to_string w (join_path (vectors env) (str "versions.json")) in from_str (V := V) t);
  mret match versions with
       | Some v => with_versions env match headscale_version env with Some x => Some x | None => as_str (index v (str "headscale")) end
                     (as_str (index v (str "tailscale_client")))
       | None => env
       end.

(** What is compared or recorded, and the exit code: 2 where a file could not be used. *)
Definition conclude (o : Options) (r : Report) : task (Proc W V) Ran Empty_set Z :=
  written ← match write_expect o with
            | Some path => acts (fun w => write_file w path (write (V := V) comment r ++ [10]))
            | None => mret true
            end;
  if negb written then mret 2 else
  expected ← match expect o with
             | Some path => t ← looks (fun w => read_to_string w path); mret (Some t)
             | None => mret None
             end;
  lift match expected with
       | Some None => Ok 2
       | Some (Some t) => match exit_code (V := V) (Some t) r with Ok c => Ok c | Err _ => Ok 2 | Panic => Panic | Hang => Hang end
       | None => match exit_code (V := V) None r with Ok c => Ok c | Err _ => Ok 2 | Panic => Panic | Hang => Hang end
       end.

(** What drops when a part of the program ends, by returning or by a panic. *)
Definition finally {A} (m : task (Proc W V) Ran Empty_set A) (k : nat) : task (Proc W V) Ran Empty_set A := fun p =>
  let '(p, es, r) := m p in
  match r with
  | Ok _ | Panic => let '(p, es', _) := drop_scope k p in (p, es ++ es', r)
  | Err e => match e with end
  | Hang => (p, es, Hang)
  end.

(** [main]: the environment is dropped before the process exits. *)
Definition main (hash : Z) (args : list bytes) (repo_root : bytes) : task (Proc W V) Ran Empty_set Z :=
  match parse_options (mkOptions false None None) args with
  | None => mret 2
  | Some o =>
      env ← discover hash repo_root;
      finally (r ← checks.report runtime temp_dir pid patience text env; conclude o r) (scope env)
  end.

End Main.
End program.

(** * What the suite guarantees *)

Import text harness_run suite.

(** ** What the harness reports is read *)

Lemma lossy_valid l : utf8_valid l = true -> lossy l = l.
Proof.
  remember (length l) as n eqn:Hn. assert (length l <= n)%nat as Hl by lia. clear Hn. revert l Hl. induction n as [|n IH]; intros l Hl Hv.
  { by destruct l; [|cbn in Hl; lia]. }
  destruct l as [|a l1]; [done|]. cbn [utf8_valid lossy] in *. cbn [length] in Hl.
  destruct (between 0 127 a); [f_equal; apply IH; [lia|done]|]. destruct l1 as [|b l2]; [done|]. cbn [length] in Hl.
  destruct (between 194 223 a). { apply andb_true_iff in Hv as [-> Hv]. do 2 f_equal. apply IH; [lia|done]. }
  destruct l2 as [|c l3]; [done|]. cbn [length] in Hl. destruct (between 224 239 a).
  { apply andb_true_iff in Hv as [Hv Hr]. apply andb_true_iff in Hv as [-> ->]. do 3 f_equal. apply IH; [lia|done]. }
  destruct l3 as [|d l4]; [done|]. cbn [length] in Hl. apply andb_true_iff in Hv as [Hv Hr]. apply andb_true_iff in Hv as [Hv Hd].
  apply andb_true_iff in Hv as [Hv Hc]. apply andb_true_iff in Hv as [-> ->]. rewrite Hc, Hd. do 4 f_equal. apply IH; [lia|done].
Qed.

Section Reading.
Context {V : Type} `{JsonLib V}.

(** A line without an end in it. *)
Definition one_line (l : bytes) : Prop := (10 ∉ l) /\ last l <> Some 13.

(** What the harness prints: progress, and events. *)
Inductive Said := Log (l : bytes) | Event (t : bytes) (v : V).
Definition said_ok (s : Said) : Prop :=
  match s with Log l => one_line l /\ starts_with EVT l = false | Event t v => one_line (EVT ++ t) /\ from_str t = Some v end.
Definition printed (s : Said) : bytes := (match s with Log l => l | Event t _ => EVT ++ t end) ++ [10].

Lemma lines_line l rest : one_line l -> lines (l ++ 10 :: rest) = l :: lines rest.
Proof.
  intros [Hn Hl]. unfold lines. assert (forall cur, lines_from cur (l ++ 10 :: rest) = strip_cr (cur ++ l) :: lines_from [] rest) as Hg.
  { clear Hl. induction l as [|b l IH]; intros cur; cbn [app lines_from]; [by rewrite app_nil_r|].
    rewrite (proj2 (Z.eqb_neq b 10)) by (intros ->; apply Hn; left). rewrite IH by (intros ?; apply Hn; by right). by rewrite <- app_assoc. }
  rewrite Hg. cbn [app]. f_equal. unfold strip_cr. destruct (last l) as [x|]; [|done].
  destruct (decide (x = 13)) as [->|Hx]; [done|]. destruct x as [|x|x]; [done| |done]. repeat (destruct x as [x|x|]; try done).
Qed.

Lemma lines_printed said rest : Forall said_ok said ->
  lines (concat (map printed said) ++ rest) = map (fun s => match s with Log l => l | Event t _ => EVT ++ t end) said ++ lines rest.
Proof.
  induction 1 as [|s said Hs _ IH]; [done|]. cbn [map concat app]. unfold printed at 1. rewrite <- !app_assoc.
  change ([10] ++ ?x) with (10 :: x). rewrite lines_line by (by destruct s; destruct Hs). by rewrite IH.
Qed.

Lemma strip_evt t : encoding.strip_prefix EVT (EVT ++ t) = Some t.
Proof. unfold encoding.strip_prefix. rewrite starts_with_app. by rewrite drop_app_length. Qed.

(** Only events are parsed, and all of them.  Whatever progress the harness prints
    between its events, the events read from its output are exactly those it reported,
    in their order, and the summary for a failure quotes its progress and nothing of
    the events. *)
Theorem events_read (said : list Said) (stderr_ : bytes) (code_ : option Z) : Forall said_ok said ->
  events (from_parts (concat (map printed said)) stderr_ code_) = omap (fun s => match s with Log _ => None | Event _ v => Some v end) said /\
  (stderr_ = [] -> tail (from_parts (V := V) (concat (map printed said)) stderr_ code_)
     = join (str "; ") (take 3 (rev (omap (fun s => match s with Log l => Some l | Event _ _ => None end) said)))).
Proof.
  intros Hs. split.
  - unfold from_parts. cbn [events]. rewrite <- (app_nil_r (concat _)), lines_printed by done. unfold lines. cbn [lines_from]. rewrite app_nil_r.
    induction Hs as [|s said Hs _ IH]; [done|]. destruct s as [l|t v]; cbn [map omap list_omap].
    + unfold encoding.strip_prefix at 1. destruct Hs as [_ ->]. exact IH.
    + rewrite strip_evt. cbn [omap list_omap]. destruct Hs as [_ ->]. f_equal. exact IH.
  - intros ->. unfold tail, from_parts. cbn [out err]. rewrite lines_printed by done. unfold lines. cbn [lines_from]. rewrite app_nil_r.
    do 3 f_equal. induction Hs as [|s said Hs _ IH]; [done|]. destruct s as [l|t v]; cbn [map List.filter omap list_omap].
    + destruct Hs as [_ ->]. cbn [negb]. f_equal. exact IH.
    + rewrite starts_with_app. cbn [negb]. exact IH.
Qed.

End Reading.

(** ** The capture, however it is cut *)

Section Capture.
Import parser netmap_checks.
Context {W V : Type} `{Commands W} `{Machine W} `{JsonLib V} `{JsonRows V} `{JsonValues V} `{EqDecision V} `{C : keys.Curve} `{HC : !keys.CurveOk C}.

Lemma concat_chunks n b : 0 < n -> concat (chunks n b) = b.
Proof.
  intros Hn. unfold chunks. assert (forall fuel b, (length b <= fuel)%nat -> concat (chunks_from fuel n b) = b) as Hg; [|by apply Hg].
  induction fuel as [|fuel IH]; intros l Hl; [by destruct l; [|cbn in Hl; lia]|]. cbn [chunks_from]. destruct l as [|x l]; [done|]. cbn [concat].
  rewrite IH; [apply ztake_zdrop|]. unfold zdrop. rewrite length_drop. cbn [length] in *. lia.
Qed.

Lemma push_all_concat l p m : push_all PEERS p m l = push PEERS p m (concat l).
Proof.
  revert p m. induction l as [|b l IH]; intros p m; cbn [push_all concat]; [by rewrite push_nil|]. rewrite push_app.
  destruct (push PEERS p m b) as [[p1 m1] [[]| | |]]; auto.
Qed.

Lemma documents_cut n n' m (l : list V) : 0 < n -> 0 < n' -> apply_documents n m l = apply_documents n' m l.
Proof.
  intros Hn Hn'. revert m. induction l as [|d l IH]; intros m; cbn [apply_documents]; [done|].
  rewrite !push_all_concat, !concat_chunks by done. destruct (push PEERS new m (to_string d)) as [[p m1] r]. destruct r as [[]| | |]; cbn [map_err rbind]; try done.
  destruct (finish PEERS p m1) as [m2 [[]| | |]]; cbn [map_err rbind]; auto.
Qed.

Lemma capture_cut env n n' (w : W) : 0 < n -> 0 < n' -> from_capture (V := V) env n w = from_capture env n' w.
Proof.
  intros Hn Hn'. unfold from_capture. destruct (vector env CAPTURE w) as [v| | |]; cbn [rbind]; try done.
  destruct (as_array v) as [l|]; cbn [ok_or rbind]; [|done]. by rewrite (documents_cut n n').
Qed.

Lemma agree_refl m : agree m m = true.
Proof.
  unfold agree. rewrite !Z.eqb_refl. cbn [andb]. rewrite andb_true_r. destruct (own_key m); [apply keys.public_eq_refl|done].
Qed.

(** C28: The check of the streaming parser can only report what is true.  Parsing the
    captured responses in chunks of any two sizes gives the same map and number of
    documents, or the same error, so the check passes exactly when they can be
    parsed at all: it never reports a result that depends on where the bytes were
    split. *)
Theorem streaming_independent (env : Env) (p : Proc W V) :
  (forall n n' : Z, 0 < n -> 0 < n' ->
    from_capture (V := V) env n (world p) = from_capture (V := V) env n' (world p)) /\
  streaming env p = (p, [], judged (let! _ := map_err Failed_ (from_capture (V := V) env USIZE_MAX (world p)) in Ok Passed)).
Proof.
  split; [by intros; apply capture_cut|].
  unfold streaming, looks, mbind, eff_bind, gets, lift. cbn [app]. do 2 f_equal.
  assert (forall m k sizes, from_capture (V := V) env USIZE_MAX (world p) = Ok (m, k) -> Forall (fun n => 0 < n) sizes ->
    streaming_loop (V := V) env m sizes (world p) = Ok Passed) as Hloop.
  { intros m k sizes Hm. induction 1 as [|n sizes Hn _ IH]; [done|]. cbn [streaming_loop].
    rewrite (capture_cut env n USIZE_MAX) by done. rewrite Hm. cbn [map_err rbind]. by rewrite agree_refl. }
  destruct (from_capture env USIZE_MAX (world p)) as [[m k]| | |] eqn:E; cbn [map_err rbind]; try done.
  rewrite (Hloop m k _ eq_refl); [done|]. by repeat constructor.
Qed.

End Capture.

(** The probe of a patch passes, so [netmap.delta] is decided by the capture. *)
Example patch_probe_passes : netmap_checks.patch_probe (C := ToyCurve.curve) = Ok Passed.
Proof. vm_compute. reflexivity. Qed.

(** ** Sessions are shared *)

Section Sessions.
Context {W V : Type} `{Commands W} `{Machine W} `{JsonLib V} `{JsonRows V} `{JsonValues V} `{EqDecision V}.
Context (runtime temp_dir pid : bytes) (patience : nat).

Lemma remember_same k (r : res Reason (Session k)) (p : Proc W V) : started (remember k r p) k = Some r.
Proof.
  unfold remember. cbn [started]. destruct (decide (k = k)) as [e|]; [|done]. rewrite (Eqdep_dec.UIP_dec key_eq e eq_refl). done.
Qed.

Lemma once_remembers k (start : task (Proc W V) Ran Reason (Session k)) p p1 es r :
  once k start p = (p1, es, Ok r) -> started p1 k = Some r.
Proof.
  unfold once. destruct (started p k) as [r0|] eqn:E; [by intros [= <- <- <-]|].
  destruct (start p) as [[p2 es2] r2]. destruct r2; intros [= <- <- <-]; apply remember_same.
Qed.

(** The session a check belongs to, and how it judges it: the checks that only judge
    one, so not control.hostinfo and control.capver.minimum, whose judgement also
    uses the environment and the recorded files. *)
Definition Judge (k : Key) : Type := (Session (V := V) k -> res Empty_set Verdict) * task (Proc W V) Ran Reason (Session (V := V) k).
Definition judges (env : Env) : list { k : Key & Judge k } := [
  existT (P := Judge) Ts2021 (ts2021_checks.key_judge (str "machine") (str "mkey:"), ts2021_checks.start temp_dir pid env);
  existT (P := Judge) Ts2021 (ts2021_checks.key_judge (str "node") (str "nodekey:"), ts2021_checks.start temp_dir pid env);
  existT (P := Judge) Ts2021 (ts2021_checks.key_judge (str "disco") (str "discokey:"), ts2021_checks.start temp_dir pid env);
  existT (P := Judge) Ts2021 (ts2021_checks.noise_judge, ts2021_checks.start temp_dir pid env);
  existT (P := Judge) Ts2021 (ts2021_checks.framing_judge, ts2021_checks.start temp_dir pid env);
  existT (P := Judge) Register (register_checks.http2_judge, register_checks.start runtime temp_dir pid env);
  existT (P := Judge) Register (register_checks.register_judge, register_checks.start runtime temp_dir pid env);
  existT (P := Judge) Register (register_checks.reauth_judge, register_checks.start runtime temp_dir pid env);
  existT (P := Judge) Live (netmap_checks.compression_judge, netmap_checks.start temp_dir pid env);
  existT (P := Judge) Live (netmap_checks.to_peers_judge, netmap_checks.start temp_dir pid env);
  existT (P := Judge) Relay (derp_check.relay_judge, derp_check.start temp_dir pid env);
  existT (P := Judge) Probe (disco_checks.ping_judge, disco_checks.start runtime temp_dir pid patience env);
  existT (P := Judge) Probe (disco_checks.pong_judge, disco_checks.start runtime temp_dir pid patience env);
  existT (P := Judge) Probe (disco_checks.endpoints_judge, disco_checks.start runtime temp_dir pid patience env);
  existT (P := Judge) Exit (exit_check.advertise_judge, exit_check.start runtime temp_dir pid env);
  existT (P := Judge) Tls (tls_check.tls_judge, tls_check.start env)].

(** The checks with the key of their session. *)
Definition shared (env : Env) : list (Key * task (Proc W V) Ran Empty_set Verdict) :=
  map (fun x => (projT1 x, with_session (projT1 x) (projT2 x).2 (projT2 x).1)) (judges env).

(** Those are the checks of the table. *)
Lemma shared_checks env : map snd (shared env) = [
  ts2021_checks.machine_key temp_dir pid env; ts2021_checks.node_key temp_dir pid env; ts2021_checks.disco_key temp_dir pid env;
  ts2021_checks.noise_handshake temp_dir pid env; ts2021_checks.controlbase_framing temp_dir pid env;
  register_checks.http2 runtime temp_dir pid env; register_checks.register runtime temp_dir pid env; register_checks.reauth runtime temp_dir pid env;
  netmap_checks.compression temp_dir pid env; netmap_checks.to_peers temp_dir pid env; derp_check.relay temp_dir pid env;
  disco_checks.ping runtime temp_dir pid patience env; disco_checks.pong runtime temp_dir pid patience env;
  disco_checks.endpoints runtime temp_dir pid patience env; exit_check.advertise runtime temp_dir pid env; tls_check.tls env].
Proof. reflexivity. Qed.

Lemma session_known k (start : task (Proc W V) Ran Reason (Session k)) judge p r : started p k = Some r ->
  with_session k start judge p = (p, [], match r with Ok s => judge s | Err why => Ok (Skipped why) | Panic => Panic | Hang => Hang end).
Proof. intros Hr. unfold with_session, mbind, eff_bind, once. rewrite Hr. unfold lift. by destruct r as [s| | |]; [destruct (judge s)|..]. Qed.

Lemma session_remembers k (start : task (Proc W V) Ran Reason (Session k)) judge p p1 es v :
  with_session k start judge p = (p1, es, Ok v) -> exists r, started p1 k = Some r /\
    match r with Ok s => judge s | Err why => Ok (Skipped why) | Panic => Panic | Hang => Hang end = Ok v.
Proof.
  unfold with_session, mbind, eff_bind. destruct (once k start p) as [[p2 es2] o] eqn:E. destruct o as [r|[]| |]; try done.
  apply once_remembers in E. unfold lift. exists r. destruct r as [s| | |]; [destruct (judge s) as [v0|[]| |]|..]; by simplify_eq.
Qed.

Lemma judges_same env env' (i : nat) k (judge judge' : Session k -> res Empty_set Verdict) (start start' : task (Proc W V) Ran Reason (Session k)) :
  judges env !! i = Some (existT k ((judge, start) : Judge k)) -> judges env' !! i = Some (existT k ((judge', start') : Judge k)) -> judge = judge'.
Proof.
  intros Hi Hj. do 16 (destruct i as [|i]; [cbn in Hi, Hj; apply Some_inj in Hi, Hj; pose proof (f_equal (@projT1 _ _) Hi) as Hk; cbn in Hk; subst k;
    apply (Eqdep_dec.inj_pair2_eq_dec _ key_eq) in Hi; apply (Eqdep_dec.inj_pair2_eq_dec _ key_eq) in Hj; congruence|]).
  by destruct i.
Qed.

(** Checks that describe one session describe the same one.  Once one of the checks of
    [shared] has given a verdict, any of them on the same session, asked in any
    environment, judges the run it judged: no command is run again, nothing changes,
    and the same check gives the same verdict. *)
Theorem sessions_shared (env env' : Env) (i j : nat) (k : Key) (c c' : task (Proc W V) Ran Empty_set Verdict) (p p1 : Proc W V) (es : list Ran) (v : Verdict) :
  shared env !! i = Some (k, c) -> shared env' !! j = Some (k, c') -> c p = (p1, es, Ok v) ->
  exists r, c' p1 = (p1, [], r) /\ (i = j -> r = Ok v).
Proof.
  unfold shared. rewrite !list_lookup_fmap. intros Hi Hj Hc.
  destruct (judges env !! i) as [[k1 [judge start]]|] eqn:Ei; [|done]. cbn in Hi. injection Hi as -> <-.
  destruct (judges env' !! j) as [[k2 [judge' start']]|] eqn:Ej; [|done]. cbn in Hj. injection Hj as -> <-.
  destruct (session_remembers _ _ _ _ _ _ _ Hc) as (r & Hr & Hv). eexists. split; [by apply session_known|]. intros ->.
  assert (judge = judge') as <-; [|done].
  exact (judges_same env env' j k judge judge' start start' Ei Ej).
Qed.

End Sessions.

(** ** Without a lab *)

Section Offline.
Import checks.
Context {W V : Type} `{Commands W} `{Machine W} `{JsonLib V} `{JsonRows V} `{JsonValues V} `{EqDecision V}.
Context `{C : keys.Curve} `{Pr : Primitives}.
Context (runtime temp_dir pid : bytes) (patience : nat).

(** No session was had. *)
Definition no_session (p : Proc W V) : Prop := forall k, match started p k with Some (Err _) | None => True | _ => False end.
Definition untouched (p p' : Proc W V) : Prop := world p' = world p /\ scopes p' = scopes p /\ counter p' = counter p /\ no_session p'.

(** A check that runs nothing, and does not fail unless it may. *)
Definition quiet (may_fail : bool) (c : task (Proc W V) Ran Empty_set Verdict) : Prop :=
  forall p, no_session p -> exists p' r, c p = (p', [], r) /\ untouched p p' /\ (may_fail = false -> forall why, r <> Ok (Failed_ why)).

Lemma no_session_remember k why p : no_session p -> no_session (remember (V := V) k (Err why) p).
Proof.
  intros Hn k'. unfold remember. cbn [started]. destruct (decide (k = k')) as [e|]; [|apply Hn]. destruct e. exact I.
Qed.

Lemma quiet_session b k start judge why : (forall p, start p = (p, [], Err why)) -> quiet b (with_session k start judge).
Proof.
  intros Hs p Hn. specialize (Hn k) as Hk. unfold with_session, mbind, eff_bind, once. destruct (started p k) as [[s|e| |]|] eqn:E; try done.
  - do 2 eexists. split; [done|]. split; [by split_and!|done].
  - rewrite Hs. do 2 eexists. split; [done|]. split; [|done]. split_and!; try done. by apply no_session_remember.
Qed.

Lemma quiet_lift b (r : res Empty_set Verdict) : (b = false -> forall why, r <> Ok (Failed_ why)) -> quiet b (lift r).
Proof. intros Hr p Hn. do 2 eexists. split; [done|]. by split_and!. Qed.

Lemma quiet_looks {A} b (f : W -> A) k : (forall a, quiet b (k a)) -> quiet b (looks f ≫= k).
Proof.
  intros Hk p Hn. destruct (Hk (f (world p)) p Hn) as (p' & r & E & Hu & Hf). exists p', r. split; [|done].
  unfold looks, mbind, eff_bind, gets. by rewrite E.
Qed.

Lemma quiet_gets {A} b (f : Proc W V -> A) k : (forall a, quiet b (k a)) -> quiet b (gets f ≫= k).
Proof.
  intros Hk p Hn. destruct (Hk (f p) p Hn) as (p' & r & E & Hu & Hf). exists p', r. split; [|done]. unfold mbind, eff_bind, gets. by rewrite E.
Qed.

(** The checks that are answered from recorded files or by the crates themselves. *)
Definition BACKED : list bytes :=
  [str "wg.multipeer"; str "keys.encoding"; str "netmap.fields"; str "netmap.delta"; str "netmap.streaming"; str "derp.map.parse"].

Section Env.
Context (env : Env) (Hh : harness env = None) (Hu : control_url env = None).

Lemma not_built {A} (k : bytes -> task (Proc W V) Ran Reason A) p : (lift (built env) ≫= k) p = (p, [], Err NotBuilt).
Proof. unfold built. by rewrite Hh. Qed.

Lemma get_skips path p : control_get (V := V) env path p = (p, [], Err (Skipped NoControlServer)).
Proof. unfold control_get. by rewrite Hu. Qed.

Lemma quiet_judged b (m : task (Proc W V) Ran Verdict Verdict) v : (forall p, m p = (p, [], Err v)) -> (forall why, v <> Failed_ why) -> quiet b (judged_task m).
Proof. intros Hm Hv p Hn. unfold judged_task. rewrite Hm. do 2 eexists. split; [done|]. split; [by split_and!|]. intros _ why Heq. injection Heq. apply Hv. Qed.

Lemma checks_quiet : Forall (fun e => quiet (bool_decide (entry_id e ∈ BACKED)) (judge e env)) (CHECKS runtime temp_dir pid patience).
Proof.
  unfold CHECKS. repeat apply Forall_cons_2; try apply Forall_nil_2; cbn [entry_id judge].
  all: try (apply (quiet_lift _ (Ok _)); done).
  all: try (apply (quiet_session _ _ _ _ NotBuilt); intros p; apply not_built).
  all: try (apply quiet_lift; intros Hb; vm_compute in Hb; discriminate).
  all: try (apply quiet_looks; intros a; apply quiet_lift; intros Hb; vm_compute in Hb; discriminate).
  - unfold ts2021_checks.persistence, built. rewrite Hh. apply (quiet_lift _ (Ok _)). done.
  - apply (quiet_judged _ _ (Skipped NoControlServer)); [|done]. intros p. unfold mbind, eff_bind. by rewrite get_skips.
  - apply (quiet_judged _ _ (Skipped NoControlServer)); [|done]. intros p. unfold mbind, eff_bind. by rewrite get_skips.
  - apply quiet_looks. intros [v| | |]; try (by apply quiet_lift). destruct (as_u64 _); [|by apply (quiet_lift _ (Ok _))].
    apply (quiet_session _ _ _ _ NotBuilt). intros p. apply not_built.
  - apply quiet_gets. intros sent. apply (quiet_session _ _ _ _ NotBuilt). intros p. apply not_built.
  - apply quiet_looks. intros [v| | |]; try (apply quiet_lift; intros Hb; vm_compute in Hb; discriminate).
    apply quiet_looks. intros w. apply quiet_lift. intros Hb. vm_compute in Hb. discriminate.
Qed.

End Env.

(** C26: Without a lab the suite stays silent.  Where the harness is not built and there
    is no control server, running every check runs no command and sends no request,
    leaves the machine and the run as they were, and the only checks that can fail are
    those answered from recorded files or by the crates themselves. *)
Theorem offline_suite (env : Env) (p p' : Proc W V) (es : list Ran) r :
  harness env = None -> control_url env = None -> no_session p ->
  judge_all env (CHECKS runtime temp_dir pid patience) p = (p', es, r) ->
  es = [] /\ world p' = world p /\ scopes p' = scopes p /\ counter p' = counter p /\
  forall l i a why, r = Ok l -> (i, a, Failed_ why) ∈ l -> i ∈ BACKED.
Proof.
  intros Hh Hu Hn. pose proof (checks_quiet env Hh Hu) as Hq. revert p p' es r Hn.
  induction Hq as [|e es0 He _ IH]; intros p p' es r Hn E; cbn [judge_all] in E.
  - injection E as <- <- <-. split_and!; try done. intros l i a why [= <-] Hin. by apply not_elem_of_nil in Hin.
  - destruct (He p Hn) as (p1 & r1 & E1 & (Hw & Hs & Hc & Hn1) & Hf). unfold mbind, eff_bind in E. rewrite E1 in E.
    destruct r1 as [v|[]| |]; [|injection E as <- <- <-; by split_and!..].
    destruct (judge_all env es0 p1) as [[p2 es2] r2] eqn:E2. destruct (IH p1 p2 es2 r2 Hn1 E2) as (-> & Hw2 & Hs2 & Hc2 & Hl2).
    destruct r2 as [l2|[]| |]; injection E as <- <- <-; (split_and!; [done|congruence|congruence|congruence|]); try done.
    intros l i a why [= <-] Hin. apply elem_of_cons in Hin as [Heq|Hin]; [injection Heq as -> -> <-|by eapply Hl2].
    destruct (bool_decide (entry_id e ∈ BACKED)) eqn:Eb; [by apply bool_decide_eq_true in Eb|]. by destruct (Hf eq_refl why).
Qed.

End Offline.

(** ** The end of a run *)

Section Ending.
Import runscope headscale checks program.
Context {W V : Type} `{Commands W} `{Machine W} `{JsonLib V} `{JsonRows V} `{JsonValues V} `{EqDecision V}.
Context `{C : keys.Curve} `{Pr : Primitives}.
Context (runtime temp_dir pid : bytes) (patience : nat) (text : Verdict -> bytes) (comment : bytes).

(** A task that leaves the handles on the scope alone. *)
Definition scoped {F A} (m : task (Proc W V) Ran F A) : Prop := forall p, scopes (m p).1.1 = scopes p.

Lemma scoped_bind {F A B} (m : task (Proc W V) Ran F A) (k : A -> task (Proc W V) Ran F B) :
  scoped m -> (forall a, scoped (k a)) -> scoped (m ≫= k).
Proof.
  intros Hm Hk p. unfold mbind, eff_bind. specialize (Hm p). destruct (m p) as [[p1 es] [a| | |]]; cbn [fst] in *; try done.
  specialize (Hk a p1). destruct (k a p1) as [[p2 es2] r]. cbn [fst] in *. congruence.
Qed.

Lemma scoped_lift {F A} (r : res F A) : scoped (lift r).
Proof. done. Qed.
Lemma scoped_ret {F A} (a : A) : scoped (mret (M := task (Proc W V) Ran F) a).
Proof. done. Qed.
Lemma scoped_gets {F A} (f : Proc W V -> A) : scoped (F := F) (gets f).
Proof. done. Qed.
Lemma scoped_looks {F A} (f : W -> A) : scoped (F := F) (looks f).
Proof. done. Qed.
Lemma scoped_emit {F} e : scoped (F := F) (emit e).
Proof. done. Qed.
Lemma scoped_acts {F A} (f : W -> A * W) : scoped (F := F) (acts f).
Proof. intros p. unfold acts. by destruct (f (world p)). Qed.
Lemma scoped_command program arguments : scoped (command program arguments).
Proof. intros p. unfold command. by destruct (output _ _ _). Qed.
Lemma scoped_lab {A} (f : W -> res Error A * W) : scoped (lab f).
Proof. intros p. unfold lab. by destruct (f (world p)). Qed.
Lemma scoped_scratch name : scoped (scratch temp_dir pid name).
Proof. done. Qed.
Lemma scoped_once k start : scoped start -> scoped (once k start).
Proof.
  intros Hs p. unfold once. destruct (started p k); [done|]. specialize (Hs p). by destruct (start p) as [[p1 es] []].
Qed.
Lemma scoped_judged m : scoped m -> scoped (judged_task m).
Proof. intros Hm p. unfold judged_task. specialize (Hm p). by destruct (m p) as [[p1 es] r]. Qed.
Lemma scoped_or_fail {A} (m : task (Proc W V) Ran Reason A) : scoped m -> scoped (or_fail m).
Proof. intros Hm p. unfold or_fail. specialize (Hm p). by destruct (m p) as [[p1 es] r]. Qed.
Lemma scoped_get url : scoped (http.get url).
Proof. intros p. unfold http.get. destruct (http.split_url url) as [[a b]| | |]; try done. by destruct (fetch _ _ _). Qed.
Lemma scoped_try program arguments : scoped (disco_checks.try_command program arguments).
Proof.
  intros p. unfold disco_checks.try_command. pose proof (scoped_command program arguments p) as Hc.
  by destruct (command program arguments p) as [[p1 es] r].
Qed.

End Ending.

Create HintDb scoped.
#[export] Hint Resolve scoped_lift scoped_ret scoped_gets scoped_looks scoped_emit scoped_acts scoped_command scoped_lab scoped_scratch
  scoped_once scoped_judged scoped_or_fail scoped_get scoped_try : scoped.

(** One step after the other, on every branch. *)
Ltac scoped :=
  repeat first
    [ solve [eauto 3 with scoped]
    | apply scoped_bind; [|intros ?]
    | apply scoped_once | apply scoped_judged | apply scoped_or_fail
    | match goal with |- scoped match ?x with _ => _ end => destruct x end ].

Section Cleaning.
Import conformance runscope headscale checks program.
Context {W V : Type} `{Commands W} `{Machine W} `{JsonLib V} `{JsonRows V} `{JsonValues V} `{EqDecision V}.
Context `{C : keys.Curve} `{Pr : Primitives}.
Context (runtime temp_dir pid : bytes) (patience : nat) (text : Verdict -> bytes) (comment : bytes).

Lemma scoped_session k (start : task (Proc W V) Ran Reason (Session k)) judge : scoped start -> scoped (with_session k start judge).
Proof. intros Hs. unfold with_session. scoped. Qed.

Lemma scoped_run path arguments : scoped (W := W) (V := V) (run_harness path arguments).
Proof. unfold run_harness. scoped. Qed.

Lemma scoped_hostname env : scoped (W := W) (V := V) (run_hostname env).
Proof. apply scoped_gets. Qed.

#[local] Hint Resolve scoped_session scoped_run scoped_hostname : scoped.

Lemma scoped_receive fuel deadline done ready answered : scoped (W := W) (V := V) (disco_checks.receive fuel deadline done ready answered).
Proof.
  revert ready answered. induction fuel as [|fuel IH]; intros ready answered; cbn [disco_checks.receive]; scoped.
Qed.

Lemma scoped_visible fuel deadline socket key : scoped (W := W) (V := V) (disco_checks.visible_loop fuel deadline socket key).
Proof. induction fuel as [|fuel IH]; cbn [disco_checks.visible_loop]; unfold disco_checks.peer_is_visible; scoped. Qed.

#[local] Hint Resolve scoped_receive scoped_visible : scoped.

Lemma scoped_nudging attempts socket address nudge ready answered :
  scoped (W := W) (V := V) (disco_checks.nudging patience attempts socket address nudge ready answered).
Proof. revert nudge ready answered. induction attempts as [|n IH]; intros nudge ready answered; cbn [disco_checks.nudging]; scoped. Qed.

#[local] Hint Resolve scoped_nudging : scoped.

Lemma scoped_disco env : scoped (W := W) (V := V) (disco_checks.start runtime temp_dir pid patience env).
Proof. unfold disco_checks.start, register_with, disco_checks.tailnet_address, disco_checks.wait_for_peer. scoped. Qed.

Lemma scoped_starts env :
  scoped (W := W) (V := V) (ts2021_checks.start temp_dir pid env) /\ scoped (W := W) (V := V) (register_checks.start runtime temp_dir pid env) /\
  scoped (W := W) (V := V) (netmap_checks.start temp_dir pid env) /\ scoped (W := W) (V := V) (derp_check.start temp_dir pid env) /\
  scoped (W := W) (V := V) (exit_check.start runtime temp_dir pid env) /\ scoped (W := W) (V := V) (tls_check.start env).
Proof.
  split_and!; unfold ts2021_checks.start, register_checks.start, netmap_checks.start, derp_check.start, derp_check.registered,
    exit_check.start, tls_check.start, tls_check.make_unrelated_ca, tls_check.openssl, register_with; scoped.
Qed.

Lemma scoped_checks env : Forall (fun e => scoped (judge e env)) (CHECKS (W := W) (V := V) runtime temp_dir pid patience).
Proof.
  destruct (scoped_starts env) as (? & ? & ? & ? & ? & ?). pose proof (scoped_disco env).
  unfold CHECKS. repeat apply Forall_cons_2; try apply Forall_nil_2; cbn [judge].
  all: try solve [apply scoped_session; assumption | apply scoped_lift].
  all: unfold keys_encoding, ts2021_checks.persistence, ts2021_checks.persistence_runs, key_fetch, key_capver, control_get, ts2021_checks.capver_minimum,
    register_checks.hostinfo, netmap_checks.fields, netmap_checks.delta, netmap_checks.captured, netmap_checks.streaming, netmap_checks.derp_map; scoped.
Qed.

Lemma scoped_all env l : Forall (fun e => scoped (judge e env)) l -> scoped (W := W) (V := V) (judge_all env l).
Proof. induction 1 as [|e l He _ IH]; cbn [judge_all]; scoped. Qed.

Lemma scoped_report env : scoped (W := W) (V := V) (report runtime temp_dir pid patience text env).
Proof. unfold report. apply scoped_bind; [apply scoped_all, scoped_checks|scoped]. Qed.

Lemma scoped_conclude o r : scoped (W := W) (V := V) (conclude comment o r).
Proof. unfold conclude. scoped. Qed.

Lemma healthy_total url p : exists p' es b, healthy (W := W) (V := V) url p = (p', es, Ok b) /\ scopes p' = scopes p.
Proof.
  unfold healthy, http.get, http.split_url. destruct (encoding.strip_prefix _ _) as [rest_|]; cbn [ok_or rbind]; [|by eauto].
  destruct (match position [47] rest_ with Some i => _ | None => _ end) as [authority path]. destruct (fetch _ _ _) as [[raw|] w]; cbn [ok_or rbind]; [|by eauto].
  unfold http.read_response. destruct (split_once _ _) as [[hd bd]|]; cbn [ok_or rbind]; [|by eauto].
  destruct (match lines hd !! O with Some _ => _ | None => _ end); cbn [ok_or rbind]; by eauto.
Qed.

(** A task that completes, with a state and a result. *)
Definition completes {A} (m : task (Proc W V) Ran Empty_set A) (p : Proc W V) (Q : Proc W V -> A -> Prop) : Prop :=
  exists p' es a, m p = (p', es, Ok a) /\ Q p' a.

Lemma completes_bind {A B} (m : task (Proc W V) Ran Empty_set A) (k : A -> task (Proc W V) Ran Empty_set B) p Q :
  completes m p (fun p' a => completes (k a) p' Q) -> completes (m ≫= k) p Q.
Proof.
  intros (p1 & es1 & a & E1 & p2 & es2 & b & E2 & HQ). exists p2, (es1 ++ es2), b. split; [|done]. unfold mbind, eff_bind. by rewrite E1, E2.
Qed.

Lemma completes_looks {A} (f : W -> A) p (Q : Proc W V -> A -> Prop) : Q p (f (world p)) -> completes (looks f) p Q.
Proof. intros HQ. by exists p, [], (f (world p)). Qed.

(** There is a lab to clean up. *)
Definition has_lab (env : Env) : bool := match control_url env, env_target env with Some _, HeadscaleLab => true | _, _ => false end.

(** The environment holds the only handle on the scope of the run. *)
Lemma discover_total hash root w : completes (discover (W := W) (V := V) runtime hash root) (proc_new w) (fun p env => scope env = O /\
  scopes p = mkProcess [(mkInner (run_id hash) (PREFIX ++ str "-" ++ run_id hash) (has_lab env) false, 1%nat)] (Some O)).
Proof.
  unfold discover. do 2 apply completes_bind, completes_looks. apply completes_bind.
  exists (mkProc w (mkProcess [(inner_new (run_id hash) false, 1%nat)] (Some O)) 0 (fun _ => None)), [], O. split; [reflexivity|]. do 3 apply completes_bind, completes_looks. apply completes_bind. cbn zeta.
  match goal with |- context [control_url ?e] => generalize e end. intros env1.
  match goal with |- completes _ ?p _ => remember p as p1 eqn:Hp end. apply (f_equal scopes) in Hp as Hp1. clear Hp. cbn [scopes] in Hp1.
  assert (completes match control_url env1, env_target env1 with Some u, HeadscaleLab => healthy u | _, _ => mret true end p1
    (fun p2 _ => scopes p2 = scopes p1)) as (p2 & es2 & b & E2 & Hp2).
  { destruct (control_url env1) as [u|], (env_target env1); try (by exists p1, [], true).
    destruct (healthy_total u p1) as (p2 & es & h & E & Hs). by exists p2, es, h. }
  exists p2, es2, b. split; [exact E2|]. rewrite Hp1 in Hp2. clear E2 Hp1.
  generalize (if b then env1 else with_url env1 (env_target env1) None (preauth_key env1)). clear env1 b. intros env.
  apply completes_bind. fold (has_lab env).
  exists (mkProc (world p2) (mkProcess [(mkInner (run_id hash) (PREFIX ++ str "-" ++ run_id hash) (has_lab env) false, 2%nat)] (Some O)) (counter p2) (started p2)), [], O.
  split. { unfold take_scope. rewrite Hp2. by destruct (has_lab env). }
  apply completes_bind. eexists (mkProc (world p2) (mkProcess [(_, 1%nat)] (Some O)) (counter p2) (started p2)), [], tt. split; [reflexivity|].
  apply completes_bind, completes_looks. do 3 eexists. split; [reflexivity|]. by destruct (match read_to_string _ _ with Some _ => _ | None => _ end).
Qed.

Lemma own_others `{L : !LabOk (W := W) (V := V) runtime} i w : List.filter (fun n => owns i (name n)) (others runtime i w) = [].
Proof.
  unfold others. induction (contents runtime w) as [|n l IH]; [done|]. cbn [List.filter]. destruct (owns i (name n)) eqn:E; cbn [negb List.filter]; [done|].
  by rewrite E.
Qed.

(** C25: A run cleans up after itself, however it ends.  Whatever its checks find, and
    even if one of them panics, the program that ran them has dropped its scope by the
    time it exits: the nodes of this run, and only with a lab of its own, are cleaned up
    exactly once, and where nothing went wrong doing so, none of them is left. *)
Theorem main_cleans_up `{L : !LabOk (W := W) (V := V) runtime} hash args root o (w : W) p es r :
  parse_options (mkOptions false None None) args = Some o ->
  main (V := V) runtime temp_dir pid patience text comment hash args root (proc_new w) = (p, es, r) -> r <> Hang ->
  exists p1 es1 env w1 x c, let mine := mkInner (run_id hash) (PREFIX ++ str "-" ++ run_id hash) (has_lab env) false in
    discover (V := V) runtime hash root (proc_new w) = (p1, es1, Ok env) /\
    cleanup (V := V) runtime mine w1 = (x, world p, c) /\ inners (scopes p) = [(x, O)] /\
    others runtime mine (world p) = others runtime mine w1 /\
    (has_lab env = true -> errors c = [] -> own runtime mine (world p) = []).
Proof.
  intros Ho. unfold main. rewrite Ho. destruct (discover_total hash root w) as (p1 & es1 & env & E1 & Hk & Hs).
  unfold mbind at 1, eff_bind at 1. rewrite E1, Hk. unfold finally.
  pose proof (scoped_bind _ _ (scoped_report env) (scoped_conclude o) p1) as Hm.
  match type of Hm with context [(?m).1.1] => destruct m as [[p2 es2] r2] end. cbn [fst] in Hm. rewrite Hs in Hm.
  set (mine := mkInner _ _ _ _) in *. intros Hr Hnh.
  assert (exists x c, cleanup (V := V) runtime mine (world p2) = (x, world p, c) /\ inners (scopes p) = [(x, O)]) as (x & c & Hc & Hi).
  { unfold drop_scope, scope_drop in Hr. rewrite Hm in Hr. cbn [inners slot] in Hr. cbn in Hr.
    destruct (cleanup runtime mine (world p2)) as [[x w2] c]. exists x, c. destruct r2 as [v|[]| |]; simplify_eq/=; by split. }
  exists p1, es1, env, (world p2), x, c. destruct (has_lab env) eqn:El.
  - pose proof (cleanup_exact runtime mine (world p2) eq_refl eq_refl) as Hx. rewrite Hc in Hx. destruct Hx as (Ho' & _ & Hall & _).
    split_and!; try done. intros _ He. destruct (Hall He) as [Hcon _]. unfold own. rewrite Hcon. by apply own_others.
  - assert (world p2 = world p) as Hw by (unfold mine, cleanup in Hc; cbn [enabled negb] in Hc; congruence). split_and!; try done. by rewrite Hw.
Qed.

End Cleaning.

(** ** Where checks and their documentation part *)

Section Divergences.
Import conformance netmap_checks checks doctor.
Context {W V : Type} `{Commands W} `{Machine W} `{JsonLib V} `{JsonRows V} `{JsonValues V} `{EqDecision V} `{C : keys.Curve}.

(** Without the capture one check is skipped, and the three others that read it fail. *)
Lemma missing_capture env (p : Proc W V) e : vector (V := V) env CAPTURE (world p) = Err e ->
  fields env p = (p, [], Ok (Skipped e)) /\ delta env p = (p, [], Ok (Failed_ e)) /\
  streaming env p = (p, [], Ok (Failed_ e)) /\ derp_map env p = (p, [], Ok (Failed_ e)).
Proof.
  intros Hv. unfold fields, delta, streaming, derp_map, captured, from_capture, looks, mbind, eff_bind, gets. rewrite Hv. by split_and!.
Qed.

(** A key with the prefix and less than sixteen more bytes makes the check of the key
    panic instead of fail. *)
Lemma short_key_panics (body key : bytes) (document : V) : from_str body = Some document ->
  as_str (index document (str "publicKey")) = Some key -> starts_with (str "mkey:") key = true -> len key < 21 ->
  key_fetch_judge (V := V) (http.mkResponse 200 body) = Panic.
Proof.
  intros Hf Hk Hp Hl. unfold key_fetch_judge. cbn [http.status http.body]. rewrite Hf. cbn [must ok_or rbind Z.eqb Pos.eqb]. rewrite Hk, Hp.
  unfold panics, str_slice. replace (boundary 21 key) with false; [by rewrite andb_false_r|]. unfold boundary.
  rewrite (proj2 (Z.eqb_neq _ _)) by lia. cbn [orb]. unfold get_at. cbn [Z.leb Z.compare]. rewrite lookup_ge_None_2; [done|].
  unfold len in *. lia.
Qed.

End Divergences.

(** ** A lab and a run *)

Module ChecksDemo.
Import conformance runscope headscale checks program ConformanceDemo LabDemo.

(** Primitives with which no device ever accepts a message. *)
#[local] Instance deaf : Primitives := {|
  blake2s256 _ := zeros 32; blake2s_mac16 _ _ := zeros 16; hmac_blake2s _ _ := zeros 32;
  x25519_base _ := zeros 32; diffie_hellman _ _ := zeros 32; was_contributory _ := false;
  chacha_seal _ _ _ m := (m, zeros 16); chacha_open _ _ _ _ _ := None |}.

#[local] Instance doc_values : JsonValues Doc := {| as_bool _ := None; to_string := to_text |}.

(** A machine where the lab is up and nothing else is there. *)
#[local] Instance machine : Machine Lab := {|
  read_file _ path := if ends_with (str ".lab/lab.env") path then Some (str "HEADSCALE_URL=http://127.0.0.1:8080") else None;
  write_file w _ _ := (true, w);
  exists_ _ _ := false;
  is_file _ _ := false;
  remove_dir_all w _ := w;
  var _ _ := None;
  fetch w _ _ := (Some (str "HTTP/1.1 200 OK" ++ http.CRLF ++ http.CRLF), w);
  millis w := (0, w);
  rest w _ := w;
  spawn w _ _ := (false, w);
  recv_timeout w _ _ := (Closed_, w);
  reap w := (None, w) |}.

Definition podman : bytes := str "podman".
Definition no_env : Env := mkEnv HeadscaleLab None None (str "tests/vectors") None None None None None O.
Definition demo_text (_ : Verdict) : bytes := [].

Definition an_event : Doc := GenNode 0 [GenLeaf (str "event"); GenLeaf (str "noise")].
Definition demo_said : list (Said (V := Doc)) := [Log (str "connecting"); Event (to_text an_event) an_event; Log []].

Lemma events_read_witness :
  events (from_parts (V := Doc) (concat (map printed demo_said)) [] (Some 0)) = [an_event] /\
  (@nil Z = [] -> tail (from_parts (V := Doc) (concat (map printed demo_said)) [] (Some 0)) = harness_run.join (str "; ") [[]; str "connecting"]).
Proof.
  apply (events_read demo_said). repeat constructor; try (apply (bool_decide_unpack _); vm_compute; exact I); vm_compute; congruence.
Defined.

(** The second check of a session that could not be had. *)
Lemma sessions_shared_witness :
  let machine_key := ts2021_checks.machine_key (W := Lab) (V := Doc) (str "/tmp") (str "1") no_env in
  let node_key := ts2021_checks.node_key (W := Lab) (V := Doc) (str "/tmp") (str "1") no_env in
  exists p1, machine_key (proc_new lab3) = (p1, [], Ok (Skipped NotBuilt)) /\ exists r, node_key p1 = (p1, [], r) /\ (0%nat = 1%nat -> r = Ok (Skipped NotBuilt)).
Proof.
  cbn zeta. eexists. split; [reflexivity|].
  exact (sessions_shared podman (str "/tmp") (str "1") 0 no_env no_env 0 1 Ts2021 _ _ (proc_new lab3) _ _ _ eq_refl eq_refl eq_refl).
Defined.

Lemma offline_suite_witness :
  let '(p', es, r) := judge_all no_env (CHECKS (W := Lab) (V := Doc) (C := ToyCurve.curve) podman (str "/tmp") (str "1") 0) (proc_new lab3) in
  es = [] /\ world p' = lab3 /\ scopes p' = process_new /\ counter p' = 0 /\
  forall l i a why, r = Ok l -> (i, a, Failed_ why) ∈ l -> i ∈ BACKED.
Proof.
  destruct (judge_all no_env (CHECKS podman (str "/tmp") (str "1") 0) (proc_new lab3)) as [[p' es] r] eqn:E.
  exact (offline_suite podman (str "/tmp") (str "1") 0 no_env (proc_new lab3) p' es r eq_refl eq_refl (fun _ => I) E).
Defined.

(** A run with the lab up: its nodes are gone when it ends, and those of another run stay. *)
Definition a_run : Proc Lab Doc * list Ran * res Empty_set Z :=
  main (C := ToyCurve.curve) podman (str "/tmp") (str "1") 0 demo_text [] 7 [] (str ".") (proc_new lab3).

Example a_run_ends : a_run.2 = Ok 1 /\ map name (proj1_sig (world a_run.1.1)) = [theirs].
Proof. vm_compute. by split. Qed.

Lemma main_cleans_up_witness :
  exists p1 es1 env w1 x c, let mine := mkInner (run_id 7) (PREFIX ++ str "-" ++ run_id 7) (has_lab env) false in
    discover (V := Doc) podman 7 (str ".") (proc_new lab3) = (p1, es1, Ok env) /\
    cleanup (V := Doc) podman mine w1 = (x, world a_run.1.1, c) /\ inners (scopes a_run.1.1) = [(x, O)] /\
    others podman mine (world a_run.1.1) = others podman mine w1 /\
    (has_lab env = true -> errors c = [] -> own podman mine (world a_run.1.1) = []).
Proof.
  apply (main_cleans_up (C := ToyCurve.curve) podman (str "/tmp") (str "1") 0 demo_text [] 7 [] (str ".") (mkOptions false None None) lab3 a_run.1.1 a_run.1.2 a_run.2).
  - reflexivity.
  - fold a_run. by destruct a_run as [[? ?] ?].
  - rewrite (proj1 a_run_ends). discriminate.
Defined.

End ChecksDemo.

(** A capture of one response, as documents that are their own text. *)
Module CaptureDemo.
Import ConformanceDemo.

#[local] Instance text_lib : JsonLib bytes := {|
  index v _ := v; as_object _ := None; as_str := Some; of_str := fun s => s; of_map _ := []; to_text := fun s => s; from_str := Some |}.
#[local] Instance text_rows : JsonRows bytes := {| as_array v := Some [v]; as_u64 _ := None; from_slice := Some |}.
#[local] Instance text_values : JsonValues bytes := {| as_bool _ := None; to_string := fun s => s |}.
#[local] Instance still : Commands unit := {| output w _ _ := (Err [], w) |}.
#[local] Instance disk : Machine unit := {|
  read_file _ path := if ends_with netmap_checks.CAPTURE path then Some netmap_checks.FULL else None;
  write_file w _ _ := (false, w); exists_ _ _ := false; is_file _ _ := false; remove_dir_all w _ := w; var _ _ := None;
  fetch w _ _ := (None, w); millis w := (0, w); rest w _ := w; spawn w _ _ := (false, w); recv_timeout w _ _ := (Closed_, w); reap w := (None, w) |}.

Lemma streaming_independent_witness :
  (forall n n' : Z, 0 < n -> 0 < n' ->
    netmap_checks.from_capture (V := bytes) (C := ToyCurve.curve) ChecksDemo.no_env n tt
    = netmap_checks.from_capture (V := bytes) (C := ToyCurve.curve) ChecksDemo.no_env n' tt) /\
  netmap_checks.streaming (V := bytes) (C := ToyCurve.curve) ChecksDemo.no_env (proc_new tt)
  = (proc_new tt, [], judged (let! _ := map_err Failed_ (netmap_checks.from_capture (V := bytes) (C := ToyCurve.curve) ChecksDemo.no_env netmap_checks.USIZE_MAX tt) in Ok Passed)).
Proof. exact (streaming_independent (C := ToyCurve.curve) (HC := ToyCurve.curve_ok) ChecksDemo.no_env (proc_new tt)). Defined.

(** The capture can be parsed. *)
Example capture_parses :
  match netmap_checks.from_capture (V := bytes) (C := ToyCurve.curve) ChecksDemo.no_env 64 tt with Ok (m, n) => (len (parser.peers m), n) = (1, 1) | _ => False end.
Proof. vm_compute. reflexivity. Qed.

End CaptureDemo.
